(* ===== verification/_CoqProject ===== *)
-Q . S2P
Prelude.v
Text.v
Xdr.v
XdrSpec.v
XdrList.v
Status.v
Errors.v
Rpc.v
RpcSpec.v
RpcClientSpec.v
RpcPeer.v
Cut.v
TokioRpc.v
TokioRpcSpec.v
V3Proto.v
V3Wire.v
V3Calls.v
V3Replies.v
V3CallsSpec.v
V3Peer.v
V3Client.v
V3ClientSpec.v
Mount.v
V3Blocking.v
V3BlockingSpec.v
V3Store.v
V3Durable.v
V3Atomic.v
V3Remove.v
V3Mem.v
V3Connect.v
V3ConnectSpec.v
V3ConnectNet.v
TokioV3.v
TokioV3Spec.v
TokioV3Cancel.v
Tame.v
V4Attr.v
V4AttrSpec.v
V4Ops.v
V4Results.v
V4ResultsSpec.v
V4Client.v
V4ClientSpec.v
V4Extract.v
V4Session.v
V4SessionSpec.v
V4Trace.v
V4Net.v
V4Lease.v
TokioLease.v
V4Script.v
V4Files.v
V4FilesSpec.v
V4Named.v
V4NamedSpec.v
V4Protocol.v
V4ProtocolSpec.v
TokioV4.v
TokioV4Files.v
TokioV4Named.v
TokioV4Protocol.v
TokioV4Spec.v
TokioV4FilesSpec.v
TokioV4Net.v
V4Paths.v
V4Store.v
V4Atomic.v
V4Mem.v
PropsFiles.v
PropsRpc.v
PropsCodec.v
PropsClient.v
PropsV4.v
PropsV4Files.v
PropsV4Protocol.v
PropsTokio.v
PropsTokioV4.v
