(* ===== verification/Prelude.v ===== *)
(** * A verification library for the userspace NFS client

    The program (src/src) is a Rust client for NFS version 3 and version 4.1
    over TCP.  Its layers, bottom up:

    - XDR (xdr/encode.rs, xdr/decode.rs, xdr/mod.rs, xdr/error.rs);
    - ONC RPC with record marking and AUTH_SYS credentials (rpc.rs; an
      asynchronous variant in tokio_rpc.rs);
    - the NFSv3 protocol: types and procedures (v3/proto.rs), MOUNT
      (v3/mount.rs), the portmapper (v3/portmap.rs);
    - the path-oriented NFSv3 client: helpers (v3/client.rs) and the blocking
      client (v3/blocking.rs; asynchronous in v3/tokio.rs);
    - the NFSv4.1 client (v4/), with sessions, leases and recovery;
    - errors and retry policy shared by all of them (error.rs, retry.rs).

    ** How code becomes definitions

    A fallible function returns [outcome E A]: [Ok], [Err], or [Fault] for what
    no Rust value describes (a panic, a loop that used up its fuel, or a future
    dropped at an await point: then the state is the one at that point).  A
    method taking [&mut self] is a computation in the monad [M S E A], a
    function from the state to the state and an outcome; the state it leaves is
    kept on errors too.  [post m s Q X] says that [m], started in [s], does not
    fault, and that [Q] or [X] holds of what it returns; since faults are
    excluded, a [post] of a loop includes its termination.  Machine integers
    are [Z] with their bounds and wrap-around written out; bytes are
    [Byte.byte], strings are byte lists with the UTF-8 check of [Text].

    A [loop] is the iteration of a body over explicit loop variables, with
    binary fuel: [read_record] gets [max_record_size + 1] turns (each turn but
    the last adds a byte), the transfer loops [2 ^ 64] (each advances a 64-bit
    offset) or the number of remaining bytes, listings [max_entries + 2], the
    JUKEBOX loop [max_retries + 1], linked lists their limit plus two, the
    retry loops of the session client [2 ^ 32 + 2] (their counter is a u32, and
    a session is recovered at most once per call), its transfer loops
    [2 ^ 64].  The theorems below show that none of these runs out.  Only
    [remove_all] and the listings of devices, whose number of turns is up to
    the server, take their fuel as an argument.

    ** What is outside the source

    The TCP stream is the class [Transport] ([Rpc]): any state with
    [write_all], [flush] and [read_exact], which may do anything except return
    a buffer of the wrong length.  Address resolution and connecting are the
    class [Network] ([V3Connect]); local readers and writers are [Reader] and
    [Writer] ([V3Blocking]); sockets, timeouts and timers of the asynchronous
    client are [AsyncStream], [AsyncNetwork] ([TokioRpc]) and [AsyncTimer]
    ([TokioV3]), its tasks [AsyncTasks] ([TokioV4]); the clock, process id and
    counter behind temporary names are [TempEnv] ([V3Client]); [io::Error] is
    its kind ([Errors]).

    ** The files

    Models (definitions translated from the source):
    - [Text]: the parts of [str] the client uses; [message], an unrendered
      [format!];
    - [Xdr]: [Encoder] and [Decoder] with every method;
    - [Status]: the status enums of NFSv3, NFSv4 and MOUNT and the NFSv4
      operation codes, with their conversions and classes;
    - [Errors]: [Error] with its predicates, [RetryPolicy];
    - [Rpc]: credentials, messages, record marking, [RpcClient];
    - [V3Proto]: every type of v3/proto.rs, argument encoders, the decoding
      half of every procedure;
    - [V3Calls]: [Nfs3Client] with all procedures and the JUKEBOX loop; the
      interface [Nfs3] the path client is written against, and its laws;
    - [V3Client]: targets, paths, temporary names, directory pages, limits;
    - [Mount]: the MOUNT and portmapper clients, with their wire format;
    - [V3Blocking]: [ClientBuilder] and every operation of [Client];
    - [V3Connect]: connecting, reconnecting and unmounting over the interface
      [Services], and its implementation over RPC connections;
    - [V4Attr]: handles, state ids, attribute bitmaps, settable attributes and
      the attribute parsers of v4/proto.rs; [V4Ops]: the arguments of every
      operation with their encoders, COMPOUND requests; [V4Results]: the
      results with their decoders, COMPOUND responses;
    - [V4Client]: the decisions of v4/client.rs: settings, retry and replay,
      the shape of responses, session limits, the lock registry (a store of
      lock states shared by reference); [V4Extract]: paths as operations, the
      [response_*] extractors, pages of directories and devices;
    - [V4Session]: the session client of v4/blocking.rs: builder, session
      setup with minor version negotiation, COMPOUND calls with delayed
      retries, recovery with lock reclaim, limits, lease renewal, shutdown,
      over the interfaces [Nfs4Rpc] and [Nfs4Net]; [V4Net] implements these
      over RPC connections; [V4Lease]: the lease thread of v4/lease.rs as a
      step relation over its atomic actions and its owner's (the check of the
      flag under the mutex and the start of the renewal behind it are two);
    - [V4Files]: the operations on paths of v4/blocking.rs over [V4Session]:
      opening and closing with cleanup, reads, writes, ranges, local readers
      and writers, copies, atomic replacement, names, links, directories,
      listings, attributes, byte-range locks; [V4Named]: named attributes;
      [V4Protocol]: public and parent directories, the back channel, security
      flavours, attribute checks, delegations, offloaded copies and the other
      operations of NFSv4.2, devices and layouts;
    - [TokioRpc]: the asynchronous connection of tokio_rpc.rs; [TokioV3]: the
      portmapper, MOUNT and procedure clients of v3/tokio.rs, connecting, the
      builder and the operations on paths; [TokioV4]: COMPOUND calls,
      connections, the builder and the session of v4/tokio.rs;
      [TokioV4Files], [TokioV4Named], [TokioV4Protocol]: its operations on
      files, on named attributes and the further ones.  They are translations
      of the asynchronous files in their own right, over sockets, timers,
      tasks, readers and writers that may be dropped at each [.await], and
      follow those files where they differ from the blocking ones (nested
      matches for closures in [TokioV3], timers, the lease task; a match that
      only passes an error on is the bind of the monad, as [?] is); only what
      stands for Rust itself (fields, environments, local input and output) is
      shared;
      [TokioLease]: the lease task of v4/lease.rs and v4/tokio.rs and its owner
      as a step relation, in which a poll of the task starts, runs and reaches
      its next await point in separate steps, so that [abort] may come in
      between.

    Specifications and lemmas:
    - [XdrSpec], [XdrList]: the wire format ([wire_*]) as a function of the
      value, and the laws [EncodesTo], [DecodesFrom], [DecodeSound] and
      [DecSafe], found by instance search on a codec;
    - [RpcSpec], [RpcClientSpec]: messages, and the connection over every
      transport; [RpcPeer]: a transport made from a server, records in any
      fragmentation, a call end to end;
    - [V3Wire], [V3Replies]: RFC 1813 wire formats of types, arguments and
      replies; [V3CallsSpec]: the laws of [Nfs3] for [Nfs3Client] over every
      transport; [V3Peer]: procedures end to end, retries included;
    - [V3ClientSpec]: paths, names, targets and limits;
    - [V3BlockingSpec]: the path client against every server (termination,
      bounds); [V3Store]: its effect on files, against the contract
      [FileStore]; [V3Durable]: durability, against [StableStore], which allows
      restarts; [V3Atomic]: the requests and answers of atomic writes, read off
      a trace (the directory reached by LOOKUPs, [walked]; the data taken piece
      by piece, [writes]); [V3Remove]: the requests of recursive removal, read
      off the same trace; [V3ConnectSpec]: mounts and unmounts of connecting;
      [V3ConnectNet]: the services over RPC connections keep their laws;
    - [V3Mem]: a concrete server that satisfies the contracts of [V3Store] and
      [V3Durable], for witnesses;
    - [Tame]: methods that end, keep an invariant and move along a relation,
      with instances that follow the code;
    - [V4AttrSpec], [V4ResultsSpec]: laws of bitmaps, wire formats of
      attributes and responses (RFC 8881), decoders safe on every input;
      [V4ClientSpec]: what a well-shaped response is, what a retry repeats, the
      lock registry;
    - [V4SessionSpec]: the session client against every network that satisfies
      [Nfs4Laws]; [V4Trace]: a network that records what is sent, and what the
      record shows; [V4Net]: the laws for RPC connections; [V4Script]: scripted
      servers for witnesses;
    - [V4FilesSpec]: the operations on paths against every network: they end,
      listings respect their limit, locks and registry; [V4Paths]: paths,
      parents and temporary names;
    - [V4Store]: the rules of COMPOUND over files, names and open states as a
      step relation ([executes], [runs], [proceeds]), the contract
      [Nfs4Server], and what reading and writing do under it; [V4Atomic]:
      atomic replacement under it; [V4Mem]: an executable server that satisfies
      the contract, for witnesses; [V4NamedSpec], [V4ProtocolSpec]: the further
      operations against every network;
    - [Cut]: methods that may be dropped ([upto]), and methods whose runs are
      those of another one, cut off where the future is dropped ([Cut]), with
      instances that follow the code; [TokioRpcSpec]: the asynchronous
      connection over every socket, and as a cut of the blocking one;
      [TokioV3Spec]: the same for procedures and each operation on paths,
      through the interface [Nfs3Cut]; [TokioV3Cancel]: futures dropped at any request,
      over a server that records its requests; [TokioV4Spec]: the session of
      the NFSv4 client as a cut of the blocking one, through the interface
      [Nfs4Cut] over connections, timers and tasks; [TokioV4FilesSpec]: every
      further method; [TokioV4Net]: the interface over RPC connections, what a
      recorded run has sent, and changes when a call is dropped.

    The properties, each with a witness on concrete input where it has
    hypotheses:
    - [PropsFiles] (C1-C2, C5-C6, C14): reading returns the contents, writing
      stores the data, synchronous writes are durable, atomic writes touch the
      target only by their rename, once all data was taken, and clean up after
      a failure, copies and ranges are exact;
    - [PropsRpc] (C25-C27, C35): a connection is unusable exactly after an unknown
      outcome, calls and procedures end to end, retries, what READ and WRITE
      results promise, records, replies, credentials, transaction ids;
    - [PropsCodec] (C38-C39): round trips, decoders that are safe on every
      input, listings, error classes, credentials, status codes, delays, MOUNT
      and portmapper replies;
    - [PropsClient] (C28-C29, C40): termination and limits against every peer,
      recursive removal, connecting, paths, temporary names, targets, transfer
      sizes;
    - [PropsV4] (C8-C13, C30-C33): operations that change state are executed
      at most once per call, failed setups leave no session behind, calls and
      recovery end and keep the client well-formed, pending recovery sends
      nothing that cannot be replayed, the check on responses is exact,
      responses and attributes on the wire, stopping the lease thread;
    - [PropsV4Files] (C3-C4, C7, C21-C23): reading, writing and atomic
      replacement against servers that follow the rules of COMPOUND,
      termination and limits against every server, the registry of locks, and a
      failed copy that leaves its temporary file;
    - [PropsV4Protocol] (C24, C36-C37): termination of the further operations,
      a listing of devices that never ends, and attribute checks that never
      report a difference;
    - [PropsTokio] (C15-C18): what a dropped or timed out call leaves of an
      asynchronous connection, message boundaries, the asynchronous NFSv3
      client as the blocking one cut off where its future is dropped, as long
      as no timeout elapses, and atomic writes that are dropped;
    - [PropsTokioV4] (C19-C20, C34): the asynchronous NFSv4 client as the
      blocking one cut off where its future is dropped, as long as no timeout
      elapses, changes that are executed at most once although a call is
      dropped, and stopping the lease task.

    ** What is not modelled

    The rendering of errors ([Display]), buffer capacities, and the lookup of
    the process credentials through libc, which are parameters; one-line
    getters and constructors that only rename another one, re-exports, unit
    tests and the example programs. *)

From Stdlib Require Export ZArith Lia.
From Stdlib Require Import Strings.String Strings.Byte.
From stdpp Require Export base numbers list option.

#[local] Open Scope Z_scope.

(** ** Outcomes and the state-and-error monad *)

(** What makes a Rust program stop without returning: a panic, (in the model
    only) the fuel of a loop running out, or, for an asynchronous method, its
    future being dropped at an await point: no code behind that point runs. *)
Inductive fault := Panic | OutOfFuel | Dropped.

(** [Result<A, E>] extended with faults. *)
Inductive outcome (E A : Type) :=
  | Ok (a : A)
  | Err (e : E)
  | Fault (f : fault).
Arguments Ok {E A} a.
Arguments Err {E A} e.
Arguments Fault {E A} f.

#[export] Instance fault_eq_dec : EqDecision fault.
Proof. solve_decision. Defined.

#[export] Instance outcome_ret E : MRet (outcome E) := λ A a, Ok a.

#[export] Instance outcome_bind E : MBind (outcome E) := λ A B k o,
  match o with Ok a => k a | Err e => Err e | Fault f => Fault f end.

Definition is_Ok {E A} (o : outcome E A) : Prop := ∃ a, o = Ok a.

Definition fault_free {E A} (o : outcome E A) : Prop := ∀ f, o ≠ Fault f.

(** [Result::map_err]. *)
Definition outcome_map_err {E F A} (g : E → F) (o : outcome E A) : outcome F A :=
  match o with Ok a => Ok a | Err e => Err (g e) | Fault f => Fault f end.

(** A method taking [&mut self] (and whatever else it mutates): the state it
    leaves behind is kept on every path, errors included. *)
Definition M (S E A : Type) : Type := S → S * outcome E A.

#[export] Instance M_ret S E : MRet (M S E) := λ A a s, (s, Ok a).

#[export] Instance M_bind S E : MBind (M S E) := λ A B k m s,
  match m s with
  | (s', Ok a) => k a s'
  | (s', Err e) => (s', Err e)
  | (s', Fault f) => (s', Fault f)
  end.

Definition throw {S E A} (e : E) : M S E A := λ s, (s, Err e).
Definition panic {S E A} : M S E A := λ s, (s, Fault Panic).
Definition get {S E} : M S E S := λ s, (s, Ok s).
Definition put {S E} (s : S) : M S E unit := λ _, (s, Ok tt).
Definition modify {S E} (g : S → S) : M S E unit := λ s, (g s, Ok tt).
Definition gets {S E A} (g : S → A) : M S E A := λ s, (s, Ok (g s)).

(** Use a pure [Result] inside a method. *)
Definition lift {S E A} (o : outcome E A) : M S E A := λ s, (s, o).

Definition map_err {S E F A} (g : E → F) (m : M S E A) : M S F A := λ s,
  let '(s', o) := m s in (s', outcome_map_err g o).

(** [match m { Ok(a) => .., Err(e) => .. }]: the result as a value. *)
Definition attempt {S E F A} (m : M S E A) : M S F (A + E) := λ s,
  match m s with
  | (s', Ok a) => (s', Ok (inl a))
  | (s', Err e) => (s', Ok (inr e))
  | (s', Fault f) => (s', Fault f)
  end.

(** Call a method of a field of [self]. *)
Definition zoom {S T E A} (proj : S → T) (upd : T → S → S) (m : M T E A) : M S E A := λ s,
  let '(t, o) := m (proj s) in (upd t s, o).

Declare Scope nfs_scope.
Delimit Scope nfs_scope with nfs.
Notation "m '.?' g" := (map_err g m) (at level 25, left associativity) : nfs_scope.

(** ** Loops

    A loop body either continues with new loop variables ([inl]) or leaves the
    loop ([inr]).  Fuel is a binary number, so that the bounds of the code
    (64-bit offsets, 64 MiB records) can be used as fuel and still evaluate. *)
Fixpoint iterate {S R} (step : S → S + R) (fuel : positive) (s : S) : S + R :=
  match fuel with
  | xH => step s
  | xO p =>
      match iterate step p s with
      | inl s' => iterate step p s'
      | inr r => inr r
      end
  | xI p =>
      match step s with
      | inl s' =>
          match iterate step p s' with
          | inl s'' => iterate step p s''
          | inr r => inr r
          end
      | inr r => inr r
      end
  end.

Definition loop_step {S E L A} (body : L → M S E (L + A)) (sl : S * L)
    : (S * L) + (S * outcome E A) :=
  match body sl.2 sl.1 with
  | (s', Ok (inl l')) => inl (s', l')
  | (s', Ok (inr a)) => inr (s', Ok a)
  | (s', Err e) => inr (s', Err e)
  | (s', Fault f) => inr (s', Fault f)
  end.

Definition loop {S E L A} (fuel : positive) (body : L → M S E (L + A)) (l : L) : M S E A := λ s,
  match iterate (loop_step body) fuel (s, l) with
  | inl (s', _) => (s', Fault OutOfFuel)
  | inr r => r
  end.

Definition continue_ {S E L A} (l : L) : M S E (L + A) := mret (inl l).
Definition break_ {S E L A} (a : A) : M S E (L + A) := mret (inr a).

Section iterate_lemmas.
Context {S R : Type} (step : S → S + R).

Fixpoint iter_nat (n : nat) (s : S) : S + R :=
  match n with
  | O => inl s
  | Datatypes.S k =>
      match step s with
      | inl s' => iter_nat k s'
      | inr r => inr r
      end
  end.

Lemma iter_nat_add n m s :
  iter_nat (n + m) s = match iter_nat n s with inl s' => iter_nat m s' | inr r => inr r end.
Proof.
  revert s; induction n as [|n IH]; intros s; simpl; [done|].
  by destruct (step s).
Qed.

Lemma iterate_nat p s : iterate step p s = iter_nat (Pos.to_nat p) s.
Proof.
  revert s; induction p as [p IH|p IH|]; intros s; cbn [iterate].
  - rewrite Pos2Nat.inj_xI; cbn [iter_nat]. destruct (step s) as [s'|r]; [|done].
    replace (2 * Pos.to_nat p)%nat with (Pos.to_nat p + Pos.to_nat p)%nat by lia.
    rewrite iter_nat_add, IH. by destruct (iter_nat _ s') as [s''|]; rewrite ?IH.
  - rewrite Pos2Nat.inj_xO.
    replace (2 * Pos.to_nat p)%nat with (Pos.to_nat p + Pos.to_nat p)%nat by lia.
    rewrite iter_nat_add, IH. by destruct (iter_nat _ s) as [s''|]; rewrite ?IH.
  - change (Pos.to_nat 1) with 1%nat. cbn [iter_nat]. by destruct (step s).
Qed.

Lemma iterate_succ p s :
  iterate step (Pos.succ p) s =
  match step s with inl s' => iterate step p s' | inr r => inr r end.
Proof.
  rewrite iterate_nat, Pos2Nat.inj_succ; cbn [iter_nat].
  by destruct (step s); rewrite ?iterate_nat.
Qed.

End iterate_lemmas.

(** One turn of a loop. *)
Lemma loop_succ {S E L A} p (body : L → M S E (L + A)) l s :
  loop (Pos.succ p) body l s =
  match body l s with
  | (s', Ok (inl l')) => loop p body l' s'
  | (s', Ok (inr a)) => (s', Ok a)
  | (s', Err e) => (s', Err e)
  | (s', Fault f) => (s', Fault f)
  end.
Proof.
  unfold loop. rewrite iterate_succ. unfold loop_step at 1; simpl.
  by destruct (body l s) as [s' [[l'|a]|e|f]].
Qed.

Lemma loop_break {S E L A} p (body : L → M S E (L + A)) l s s' a :
  body l s = (s', Ok (inr a)) → loop p body l s = (s', Ok a).
Proof.
  intros H. destruct (decide (p = 1%positive)) as [->|].
  - unfold loop, loop_step; simpl. by rewrite H.
  - rewrite <- (Pos.succ_pred p) by done. by rewrite loop_succ, H.
Qed.

Lemma loop_continue {S E L A} p (body : L → M S E (L + A)) l s s' l' :
  body l s = (s', Ok (inl l')) → 1 < Zpos p →
  loop p body l s = loop (Pos.pred p) body l' s'.
Proof.
  intros H Hp. rewrite <- (Pos.succ_pred p) at 1 by lia. by rewrite loop_succ, H.
Qed.

(** ** Postconditions of methods *)

(** [post m s Q X]: started in [s], [m] does not fault; [Q] holds of the value
    and the state it returns, [X] of the error and the state it leaves. *)
Definition post {S E A} (m : M S E A) (s : S) (Q : A → S → Prop) (X : E → S → Prop) : Prop :=
  match m s with
  | (s', Ok a) => Q a s'
  | (s', Err e) => X e s'
  | (_, Fault _) => False
  end.

Lemma post_ret {S E A} (a : A) (s : S) (Q : A → S → Prop) (X : E → S → Prop) :
  Q a s → post (mret a) s Q X.
Proof. done. Qed.

Lemma post_throw {S E A} (e : E) (s : S) (Q : A → S → Prop) (X : E → S → Prop) :
  X e s → post (throw e) s Q X.
Proof. done. Qed.

Lemma post_bind {S E A B} (m : M S E A) (k : A → M S E B) s Q X :
  post m s (λ a s', post (k a) s' Q X) X → post (m ≫= k) s Q X.
Proof. unfold post, mbind, M_bind. destruct (m s) as [s' [a|e|f]]; done. Qed.

Lemma post_mono {S E A} (m : M S E A) s (Q Q' : A → S → Prop) (X X' : E → S → Prop) :
  post m s Q X → (∀ a s', Q a s' → Q' a s') → (∀ e s', X e s' → X' e s') → post m s Q' X'.
Proof. unfold post. destruct (m s) as [s' [a|e|f]]; eauto. Qed.

Lemma post_fault_free {S E A} (m : M S E A) s Q X : post m s Q X → fault_free (m s).2.
Proof. unfold post, fault_free. destruct (m s) as [s' [a|e|f]]; done. Qed.

(** A loop that always goes on uses up every amount of fuel. *)
Lemma loop_endless {S E L A} (I : L → S → Prop) (body : L → M S E (L + A)) :
  (∀ l s, I l s → ∃ l' s', body l s = (s', Ok (inl l')) ∧ I l' s') →
  ∀ fuel l s, I l s → (loop fuel body l s).2 = Fault OutOfFuel.
Proof.
  intros Hbody fuel. induction fuel as [|fuel IH] using Pos.peano_ind; intros l s Hl;
    destruct (Hbody l s Hl) as (l' & s' & Heq & Hl').
  - unfold loop, loop_step. simpl. by rewrite Heq.
  - rewrite loop_succ, Heq. by apply IH.
Qed.

(** A loop whose invariant [I] is kept and whose measure [μ] decreases runs to
    completion within any fuel above the measure. *)
Lemma post_loop {S E L A} (I : L → S → Prop) (μ : L → S → Z)
    (body : L → M S E (L + A)) (Q : A → S → Prop) (X : E → S → Prop) :
  (∀ l s, I l s → 0 ≤ μ l s) →
  (∀ l s, I l s →
     post (body l) s
       (λ r s', match r with
                | inl l' => I l' s' ∧ μ l' s' < μ l s
                | inr a => Q a s'
                end) X) →
  ∀ fuel l s, I l s → μ l s < Zpos fuel → post (loop fuel body l) s Q X.
Proof.
  intros Hnn Hbody fuel. induction fuel as [|p IH] using Pos.peano_ind; intros l s HI Hm.
  - specialize (Hbody _ _ HI). specialize (Hnn _ _ HI) as Hn.
    unfold post in *. unfold loop, loop_step; simpl.
    destruct (body l s) as [s' [[l'|a]|e|f]]; try done.
    destruct Hbody as [HI' Hlt]. specialize (Hnn _ _ HI'). lia.
  - specialize (Hbody _ _ HI). unfold post in *. rewrite loop_succ.
    destruct (body l s) as [s' [[l'|a]|e|f]]; try done.
    destruct Hbody as [HI' Hlt]. apply IH; [done|lia].
Qed.

Lemma post_gets {S E A} (g : S → A) (s : S) (Q : A → S → Prop) (X : E → S → Prop) :
  Q (g s) s → post (gets g) s Q X.
Proof. done. Qed.

Lemma post_map_err {S E F A} (g : E → F) (m : M S E A) s (Q : A → S → Prop) (X : F → S → Prop) :
  post m s Q (λ e s', X (g e) s') → post (map_err g m) s Q X.
Proof. unfold post, map_err. by destruct (m s) as [s' [a|e|f]]. Qed.

Lemma bind_Ok_inv {S E A B} (m : M S E A) (k : A → M S E B) s s'' b :
  (m ≫= k) s = (s'', Ok b) → ∃ s' a, m s = (s', Ok a) ∧ k a s' = (s'', Ok b).
Proof. unfold mbind, M_bind. destruct (m s) as [s' [a|e|f]]; naive_solver. Qed.

Lemma bind_run {S E A B} (m : M S E A) (k : A → M S E B) s s' a :
  m s = (s', Ok a) → (m ≫= k) s = k a s'.
Proof. unfold mbind, M_bind. by intros ->. Qed.

Lemma bind_run_Err {S E A B} (m : M S E A) (k : A → M S E B) s s' e :
  m s = (s', Err e) → (m ≫= k) s = (s', Err e).
Proof. unfold mbind, M_bind. by intros ->. Qed.

(** Split every successful bind among the hypotheses. *)
Ltac inv_bind :=
  repeat match goal with
  | H : mbind _ _ _ = (_, Ok _) |- _ =>
      apply bind_Ok_inv in H; destruct H as (? & ? & ? & H)
  | H : mret _ _ = (_, _) |- _ => injection H as <- <-
  | H : throw _ _ = (_, Ok _) |- _ => discriminate H
  end.

(** ** Machine integers *)

Definition u8_max : Z := 2 ^ 8 - 1.
Definition u16_max : Z := 2 ^ 16 - 1.
Definition u32_max : Z := 2 ^ 32 - 1.
Definition u64_max : Z := 2 ^ 64 - 1.
(** The target is 64-bit: [usize] is as wide as [u64], and no allocation
    (slice, vector, string) is longer than [isize::MAX] bytes. *)
Definition usize_max : Z := u64_max.
Definition isize_max : Z := 2 ^ 63 - 1.

Definition is_u16 (z : Z) : Prop := 0 ≤ z ≤ u16_max.
Definition is_u32 (z : Z) : Prop := 0 ≤ z ≤ u32_max.
Definition is_u64 (z : Z) : Prop := 0 ≤ z ≤ u64_max.
Definition is_usize (z : Z) : Prop := 0 ≤ z ≤ usize_max.
Definition is_i32 (z : Z) : Prop := - 2 ^ 31 ≤ z < 2 ^ 31.
Definition is_i64 (z : Z) : Prop := - 2 ^ 63 ≤ z < 2 ^ 63.

#[export] Instance is_u16_dec z : Decision (is_u16 z).
Proof. unfold is_u16; apply _. Defined.
#[export] Instance is_u32_dec z : Decision (is_u32 z).
Proof. unfold is_u32; apply _. Defined.
#[export] Instance is_u64_dec z : Decision (is_u64 z).
Proof. unfold is_u64; apply _. Defined.

Ltac int_unfold :=
  unfold is_u16, is_u32, is_u64, is_usize, is_i32, is_i64,
    u8_max, u16_max, u32_max, usize_max, u64_max, isize_max in *.

(** [u32::wrapping_add], [u64::checked_add], [usize::checked_add] and
    [usize::saturating_add]. *)
Definition wrapping_add_u32 (a b : Z) : Z := (a + b) mod 2 ^ 32.
Definition checked_add (max a b : Z) : option Z :=
  if a + b <=? max then Some (a + b) else None.
Definition saturating_add (max a b : Z) : Z := Z.min (a + b) max.

(** [x as u32] for an unsigned [x], and [u32 as i32]. *)
Definition wrap_u32 (z : Z) : Z := z mod 2 ^ 32.
Definition to_signed (bits : Z) (z : Z) : Z :=
  if z <? 2 ^ (bits - 1) then z else z - 2 ^ bits.

(** ** Lists with integer lengths *)

Definition zlen {A} (l : list A) : Z := Z.of_nat (length l).

(** [&l[..n]] and [&l[n..]], for an [n] within bounds. *)
Definition ztake {A} (n : Z) (l : list A) : list A := take (Z.to_nat n) l.
Definition zdrop {A} (n : Z) (l : list A) : list A := drop (Z.to_nat n) l.

Create Rewrite HintDb zlen.

Lemma zlen_nil {A} : zlen (@nil A) = 0.
Proof. done. Qed.
Lemma zlen_cons {A} (x : A) l : zlen (x :: l) = 1 + zlen l.
Proof. unfold zlen; simpl; lia. Qed.
Lemma zlen_app {A} (l k : list A) : zlen (l ++ k) = zlen l + zlen k.
Proof. unfold zlen; rewrite length_app; lia. Qed.
Lemma zlen_replicate {A} n (x : A) : zlen (replicate n x) = Z.of_nat n.
Proof. unfold zlen; by rewrite length_replicate. Qed.
Lemma zlen_fmap {A B} (f : A → B) l : zlen (f <$> l) = zlen l.
Proof. unfold zlen; by rewrite length_fmap. Qed.
Lemma zlen_nonneg {A} (l : list A) : 0 ≤ zlen l.
Proof. unfold zlen; lia. Qed.
Lemma zlen_zero {A} (l : list A) : zlen l = 0 → l = [].
Proof. destruct l; [done|]. rewrite zlen_cons. pose proof (zlen_nonneg l). lia. Qed.
Lemma zlen_take {A} n (l : list A) : 0 ≤ n ≤ zlen l → zlen (ztake n l) = n.
Proof. unfold zlen, ztake. rewrite length_take. lia. Qed.
Lemma zlen_drop {A} n (l : list A) : 0 ≤ n ≤ zlen l → zlen (zdrop n l) = zlen l - n.
Proof. unfold zlen, zdrop. rewrite length_drop. lia. Qed.
Lemma ztake_zdrop {A} n (l : list A) : ztake n l ++ zdrop n l = l.
Proof. apply take_drop. Qed.
Lemma ztake_app {A} (l k : list A) : ztake (zlen l) (l ++ k) = l.
Proof. unfold ztake, zlen. rewrite Nat2Z.id. apply take_app_length. Qed.
Lemma zdrop_app {A} (l k : list A) : zdrop (zlen l) (l ++ k) = k.
Proof. unfold zdrop, zlen. rewrite Nat2Z.id. apply drop_app_length. Qed.
Lemma ztake_app_eq {A} n (l k : list A) : zlen l = n → ztake n (l ++ k) = l.
Proof. intros <-. apply ztake_app. Qed.
Lemma zdrop_app_eq {A} n (l k : list A) : zlen l = n → zdrop n (l ++ k) = k.
Proof. intros <-. apply zdrop_app. Qed.
Lemma zdrop_zdrop {A} n m (l : list A) :
  0 ≤ n → 0 ≤ m → zdrop m (zdrop n l) = zdrop (n + m) l.
Proof.
  intros Hn Hm. unfold zdrop. rewrite drop_drop. f_equal. lia.
Qed.
Lemma ztake_all {A} n (l : list A) : zlen l ≤ n → ztake n l = l.
Proof. unfold ztake, zlen. intros H. apply take_ge. lia. Qed.
Lemma zdrop_all {A} n (l : list A) : zlen l ≤ n → zdrop n l = [].
Proof. unfold zdrop, zlen. intros H. apply drop_ge. lia. Qed.
Lemma ztake_0 {A} (l : list A) : ztake 0 l = [].
Proof. done. Qed.
Lemma zdrop_0 {A} (l : list A) : zdrop 0 l = l.
Proof. done. Qed.

#[export] Hint Rewrite @zlen_nil @zlen_cons @zlen_app @zlen_replicate @zlen_fmap : zlen.

(** Close arithmetic goals about lengths. *)
Ltac zlen_pose :=
  repeat match goal with
  | |- context [zlen ?l] =>
      lazymatch goal with
      | _ : 0 ≤ zlen l |- _ => fail
      | _ => pose proof (zlen_nonneg l)
      end
  | _ : context [zlen ?l] |- _ =>
      lazymatch goal with
      | _ : 0 ≤ zlen l |- _ => fail
      | _ => pose proof (zlen_nonneg l)
      end
  end.
Ltac zlen_lia := autorewrite with zlen in *; zlen_pose; int_unfold; lia.

(** ** Bytes *)

#[export] Instance byte_eq_dec : EqDecision byte := Byte.byte_eq_dec.

Definition byte_to_Z (b : byte) : Z := Z.of_N (Byte.to_N b).
Definition byte_of_Z (z : Z) : byte :=
  match Byte.of_N (Z.to_N (z mod 256)) with Some b => b | None => x00 end.

(** [to_be_bytes] and [from_be_bytes] of an [n]-byte integer. *)
Fixpoint be_bytes (n : nat) (z : Z) : list byte :=
  match n with
  | O => []
  | S k => be_bytes k (z / 256) ++ [byte_of_Z z]
  end.
Definition be_Z (bs : list byte) : Z := fold_left (λ acc b, acc * 256 + byte_to_Z b) bs 0.

Lemma byte_to_Z_range b : 0 ≤ byte_to_Z b < 256.
Proof. unfold byte_to_Z. pose proof (Byte.to_N_bounded b). lia. Qed.

Lemma byte_to_of_Z z : byte_to_Z (byte_of_Z z) = z mod 256.
Proof.
  unfold byte_to_Z, byte_of_Z. pose proof (Z.mod_pos_bound z 256 ltac:(lia)).
  destruct (Byte.of_N _) as [b|] eqn:E.
  - apply Byte.to_of_N in E. rewrite E. lia.
  - apply Byte.of_N_None_iff in E. lia.
Qed.

Lemma byte_of_to_Z b : byte_of_Z (byte_to_Z b) = b.
Proof.
  unfold byte_of_Z. rewrite Z.mod_small by apply byte_to_Z_range.
  unfold byte_to_Z. rewrite N2Z.id. by rewrite Byte.of_to_N.
Qed.

Lemma length_be_bytes n z : length (be_bytes n z) = n.
Proof.
  revert z; induction n as [|n IH]; intros z; simpl; [done|].
  rewrite length_app, IH; simpl; lia.
Qed.

Lemma zlen_be_bytes n z : zlen (be_bytes n z) = Z.of_nat n.
Proof. unfold zlen. by rewrite length_be_bytes. Qed.

Lemma be_Z_snoc bs b : be_Z (bs ++ [b]) = be_Z bs * 256 + byte_to_Z b.
Proof. unfold be_Z. by rewrite fold_left_app. Qed.

Lemma be_Z_be_bytes n z : be_Z (be_bytes n z) = z mod 256 ^ Z.of_nat n.
Proof.
  revert z; induction n as [|n IH]; intros z; cbn [be_bytes].
  - cbn. by rewrite Z.mod_1_r.
  - rewrite be_Z_snoc, IH, byte_to_of_Z.
    replace (256 ^ Z.of_nat (S n)) with (256 * 256 ^ Z.of_nat n)
      by (rewrite <- Z.pow_succ_r by lia; f_equal; lia).
    rewrite (Z.rem_mul_r z 256) by lia. lia.
Qed.

Lemma be_Z_range bs : 0 ≤ be_Z bs < 256 ^ zlen bs.
Proof.
  induction bs as [|b bs IH] using rev_ind; [done|].
  rewrite be_Z_snoc. pose proof (byte_to_Z_range b).
  unfold zlen in *. rewrite length_app; simpl.
  replace (Z.of_nat (length bs + 1)) with (Z.succ (Z.of_nat (length bs))) by lia.
  rewrite Z.pow_succ_r by lia. nia.
Qed.

Lemma be_bytes_be_Z bs : be_bytes (length bs) (be_Z bs) = bs.
Proof.
  induction bs as [|b bs IH] using rev_ind; [done|].
  rewrite be_Z_snoc, length_app, Nat.add_comm. cbn [Nat.add length be_bytes].
  pose proof (byte_to_Z_range b).
  rewrite Z.div_add_l, Z.div_small, Z.add_0_r by lia. rewrite IH. do 2 f_equal.
  rewrite <- (byte_of_to_Z b) at 2. unfold byte_of_Z.
  by rewrite Z.add_comm, Z_mod_plus_full.
Qed.

#[export] Hint Rewrite zlen_be_bytes : zlen.

#[global] Arguments be_bytes : simpl never.
#[global] Arguments be_Z : simpl never.
#[global] Arguments zlen : simpl never.
