(* ===== verification/Text.v ===== *)
(** * Text

    The parts of Rust's [str] that the client uses.  A [str] is its sequence of
    UTF-8 bytes; [utf8_valid] is the check of [std::str::from_utf8].  The file
    also holds [message], the pieces a [format!] call is given, which the
    error type carries unrendered.

    The main results relate the byte-level check to its reference definition
    (a string is a concatenation of well-formed characters) and show that
    cutting a valid string at a character boundary leaves valid strings. *)

From Stdlib Require Import Strings.String Strings.Byte.
From stdpp Require Import strings sets.
From S2P Require Import Prelude.

#[local] Open Scope Z_scope.

Abbreviation str := (list byte).

(** A string literal. *)
Definition lit_bytes (s : string) : str := list_byte_of_string s.

(** One piece of a [format!]: literal text, an interpolated number ([{n}]), an
    interpolated string ([{s}]) or its debug form ([{s:?}]). *)
Inductive piece :=
  | PLit (s : string)
  | PNum (z : Z)
  | PStr (s : str)
  | PDebug (s : str).

Abbreviation message := (list piece).

#[export] Instance piece_eq_dec : EqDecision piece.
Proof. solve_decision. Defined.

(** ** UTF-8 *)

Definition byte_in (lo hi : Z) (b : byte) : bool :=
  (lo <=? byte_to_Z b) && (byte_to_Z b <=? hi).

Definition is_continuation (b : byte) : bool := byte_in 128 191 b.

(** The well-formed encodings of one character (Unicode table 3-7). *)
Definition wf_char (c : list byte) : bool :=
  match c with
  | [b0] => byte_in 0 127 b0
  | [b0; b1] => byte_in 194 223 b0 && is_continuation b1
  | [b0; b1; b2] =>
      ((byte_in 224 224 b0 && byte_in 160 191 b1)
       || (byte_in 225 236 b0 && is_continuation b1)
       || (byte_in 237 237 b0 && byte_in 128 159 b1)
       || (byte_in 238 239 b0 && is_continuation b1))
      && is_continuation b2
  | [b0; b1; b2; b3] =>
      ((byte_in 240 240 b0 && byte_in 144 191 b1)
       || (byte_in 241 243 b0 && is_continuation b1)
       || (byte_in 244 244 b0 && byte_in 128 143 b1))
      && is_continuation b2 && is_continuation b3
  | _ => false
  end.

(** [std::str::from_utf8]: scan the bytes one character at a time. *)
Fixpoint utf8_valid (s : list byte) : bool :=
  match s with
  | [] => true
  | b0 :: s1 =>
      if wf_char [b0] then utf8_valid s1 else
      match s1 with
      | [] => false
      | b1 :: s2 =>
          if wf_char [b0; b1] then utf8_valid s2 else
          match s2 with
          | [] => false
          | b2 :: s3 =>
              if wf_char [b0; b1; b2] then utf8_valid s3 else
              match s3 with
              | [] => false
              | b3 :: s4 => if wf_char [b0; b1; b2; b3] then utf8_valid s4 else false
              end
          end
      end
  end.

(** [str::is_char_boundary]. *)
Definition is_char_boundary (s : str) (i : nat) : bool :=
  match i with
  | O => true
  | S _ =>
      match s !! i with
      | Some b => negb (is_continuation b)
      | None => (i =? length s)%nat
      end
  end.

(** The reference definition of a valid string. *)
Definition utf8_text (s : list byte) : Prop :=
  ∃ cs, Forall (λ c, wf_char c = true) cs ∧ s = mjoin cs.

Ltac bool_lia :=
  unfold is_continuation, byte_in in *;
  repeat match goal with
  | H : andb _ _ = true |- _ => apply andb_true_iff in H; destruct H
  | H : orb _ _ = true |- _ => apply orb_true_iff in H; destruct H
  | H : Z.leb _ _ = true |- _ => apply Z.leb_le in H
  end.

Lemma wf_char_shape c :
  wf_char c = true →
  ∃ b0 bs, c = b0 :: bs ∧ is_continuation b0 = false
    ∧ Forall (λ b, is_continuation b = true) bs ∧ (length bs ≤ 3)%nat.
Proof.
  intros H.
  assert (∃ b0 bs, c = b0 :: bs ∧ (length bs ≤ 3)%nat) as (b0 & bs & -> & Hlen).
  { destruct c as [|b0 [|b1 [|b2 [|b3 [|b4 c]]]]]; try discriminate H;
      (eexists _, _; split; [reflexivity|simpl; lia]). }
  exists b0, bs. split; [done|]. split; [|split; [|done]].
  - destruct bs as [|b1 [|b2 [|b3 [|b4 bs]]]]; try discriminate H; simpl in H;
      apply not_true_is_false; intros Hc; bool_lia; lia.
  - destruct bs as [|b1 [|b2 [|b3 [|b4 bs]]]]; try discriminate H; simpl in H;
      repeat constructor; unfold is_continuation, byte_in in *; bool_lia;
      apply andb_true_iff; split; apply Z.leb_le; lia.
Qed.

Lemma wf_char_prefix_free c b bs :
  wf_char (c ++ b :: bs) = true → wf_char c = false.
Proof.
  intros H. apply not_true_is_false; intros Hc.
  destruct c as [|c0 [|c1 [|c2 [|c3 [|c4 c]]]]]; try discriminate Hc;
    destruct bs as [|b1 [|b2 [|b3 bs]]]; try discriminate H;
    simpl in H, Hc; bool_lia; lia.
Qed.

Lemma utf8_valid_char c s :
  wf_char c = true → utf8_valid (c ++ s) = utf8_valid s.
Proof.
  intros H.
  pose proof (wf_char_prefix_free (take 1 c)) as H1.
  pose proof (wf_char_prefix_free (take 2 c)) as H2.
  pose proof (wf_char_prefix_free (take 3 c)) as H3.
  destruct c as [|b0 [|b1 [|b2 [|b3 [|b4 c]]]]]; try discriminate H;
    cbn [app utf8_valid take] in *;
    rewrite ?(H1 _ _ H), ?(H2 _ _ H), ?(H3 _ _ H), ?H; done.
Qed.

(** The byte scan accepts exactly the concatenations of well-formed characters. *)
Lemma utf8_valid_text s : utf8_valid s = true ↔ utf8_text s.
Proof.
  split.
  - remember (length s) as n eqn:Hn. revert s Hn.
    induction (lt_wf n) as [n _ IH]; intros s -> H.
    assert (∀ c s', s = c ++ s' → c ≠ [] → wf_char c = true → utf8_text s) as Hstep.
    { intros c s' -> Hne Hc. rewrite utf8_valid_char in H by done.
      destruct (IH (length s')) with (s := s') as (cs & Hcs & ->); [|done|done|].
      { rewrite length_app. destruct c; [done|simpl; lia]. }
      exists (c :: cs). split; [by constructor|done]. }
    destruct s as [|b0 s1]; [by exists []|]. cbn [utf8_valid] in H.
    destruct (wf_char [b0]) eqn:E0; [by apply (Hstep [b0] s1)|].
    destruct s1 as [|b1 s2]; [done|].
    destruct (wf_char [b0; b1]) eqn:E1; [by apply (Hstep [b0; b1] s2)|].
    destruct s2 as [|b2 s3]; [done|].
    destruct (wf_char [b0; b1; b2]) eqn:E2; [by apply (Hstep [b0; b1; b2] s3)|].
    destruct s3 as [|b3 s4]; [done|].
    destruct (wf_char [b0; b1; b2; b3]) eqn:E3; [by apply (Hstep [b0; b1; b2; b3] s4)|done].
  - intros (cs & Hcs & ->). induction Hcs as [|c cs Hc _ IH]; [done|].
    cbn [mjoin list_join]. by rewrite utf8_valid_char.
Qed.

Lemma utf8_text_app s t : utf8_text s → utf8_text t → utf8_text (s ++ t).
Proof.
  intros (cs & Hcs & ->) (ds & Hds & ->). exists (cs ++ ds).
  split; [by apply Forall_app|]. by rewrite join_app.
Qed.

Lemma is_char_boundary_shift c s i :
  c ≠ [] → utf8_text s → is_char_boundary s i = true →
  is_char_boundary (c ++ s) (length c + i) = true.
Proof.
  intros Hc Hs Hi. destruct c as [|b c]; [done|]. cbn [length Nat.add is_char_boundary].
  replace ((b :: c) ++ s) with ((b :: c) ++ s) by done.
  rewrite lookup_app_r by (simpl; lia).
  replace (S (length c + i) - length (b :: c))%nat with i by (simpl; lia).
  destruct i as [|i].
  - destruct Hs as ([|d ds] & Hds & ->); simpl.
    + rewrite length_app; simpl. apply Nat.eqb_eq. lia.
    + apply Forall_cons_1 in Hds as [Hd _].
      destruct (wf_char_shape _ Hd) as (b0 & bs & -> & Hb0 & _); simpl. by rewrite Hb0.
  - unfold is_char_boundary in Hi. destruct (s !! S i); [done|].
    apply Nat.eqb_eq in Hi. apply Nat.eqb_eq. rewrite length_app; simpl. lia.
Qed.

(** A boundary strictly inside the first character does not exist, and one
    beyond it is a boundary of the rest. *)
Lemma is_char_boundary_split c s i :
  wf_char c = true → (i ≤ length (c ++ s))%nat → is_char_boundary (c ++ s) i = true →
  i = 0%nat ∨ ∃ j, i = (length c + j)%nat ∧ is_char_boundary s j = true.
Proof.
  intros Hc Hle Hi. destruct (decide (i < length c)%nat) as [Hlt|Hge].
  - left. destruct i as [|i]; [done|]. exfalso.
    destruct (wf_char_shape _ Hc) as (b0 & bs & -> & _ & Hbs & _).
    unfold is_char_boundary in Hi. simpl in Hlt.
    rewrite lookup_app_l in Hi by (simpl; lia). simpl in Hi.
    destruct (lookup_lt_is_Some_2 bs i ltac:(lia)) as [b Hb]. rewrite Hb in Hi.
    rewrite Forall_lookup in Hbs. rewrite (Hbs _ _ Hb) in Hi. done.
  - right. exists (i - length c)%nat. split; [lia|].
    remember (i - length c)%nat as j eqn:Hj. destruct j as [|j]; [done|].
    destruct i as [|i]; [lia|]. unfold is_char_boundary in *.
    rewrite lookup_app_r in Hi by lia. rewrite <- Hj in Hi.
    destruct (s !! S j); [done|]. apply Nat.eqb_eq in Hi. apply Nat.eqb_eq.
    rewrite length_app in Hi. lia.
Qed.

(** Cutting valid text at a character boundary leaves valid text on both sides. *)
Lemma utf8_text_cut s i :
  utf8_text s → (i ≤ length s)%nat → is_char_boundary s i = true →
  utf8_text (take i s) ∧ utf8_text (drop i s).
Proof.
  intros (cs & Hcs & ->). revert i.
  induction Hcs as [|c cs Hc Hcs IH]; intros i Hle Hi.
  - simpl. rewrite take_nil, drop_nil. split; by exists [].
  - change (mjoin (c :: cs)) with (c ++ mjoin cs) in *.
    destruct (is_char_boundary_split _ _ _ Hc Hle Hi) as [->|(j & -> & Hj)].
    { split; [by exists []|]. exists (c :: cs). split; [by constructor|done]. }
    rewrite take_app_add, drop_app_add.
    destruct (IH j) as [H1 H2]; [|done|].
    { rewrite length_app in Hle. lia. }
    split; [|done]. apply utf8_text_app; [|done].
    exists [c]. split; [by repeat constructor|]. cbn. by rewrite app_nil_r.
Qed.

(** No position of valid text is more than three bytes after a boundary. *)
Lemma utf8_text_boundary_near s n :
  utf8_text s → (n ≤ length s)%nat →
  ∃ j, (j ≤ n ≤ j + 3)%nat ∧ is_char_boundary s j = true.
Proof.
  intros (cs & Hcs & ->). revert n.
  induction Hcs as [|c cs Hc Hcs IH]; intros n Hle.
  - simpl in Hle. exists 0%nat. split; [lia|done].
  - change (mjoin (c :: cs)) with (c ++ mjoin cs) in *.
    destruct (wf_char_shape _ Hc) as (b0 & bs & Hcb & _ & _ & Hlen).
    assert (length c = S (length bs)) as Hlc by by rewrite Hcb.
    destruct (decide (n < length c)%nat) as [Hlt|Hge].
    { exists 0%nat. split; [lia|done]. }
    destruct (IH (n - length c)%nat) as (j & Hj & Hb).
    { rewrite length_app in Hle. lia. }
    exists (length c + j)%nat. split; [lia|].
    apply is_char_boundary_shift; [by rewrite Hcb| |done]. by exists cs.
Qed.

(** ** Splitting and trimming *)

(** [s.split(sep)] for an ASCII separator. *)
Fixpoint split_on (sep : byte) (s : str) : list str :=
  match s with
  | [] => [[]]
  | b :: s' =>
      if decide (b = sep) then [] :: split_on sep s' else
      match split_on sep s' with
      | w :: ws => (b :: w) :: ws
      | [] => [[b]]
      end
  end.

(** [s.split_once(sep)]. *)
Fixpoint split_once (sep : byte) (s : str) : option (str * str) :=
  match s with
  | [] => None
  | b :: s' =>
      if decide (b = sep) then Some ([], s') else
      '(w, rest) ← split_once sep s'; Some (b :: w, rest)
  end.

(** [s.strip_prefix(c)]. *)
Definition strip_prefix (c : byte) (s : str) : option str :=
  match s with
  | b :: s' => if decide (b = c) then Some s' else None
  | [] => None
  end.

(** [s.trim_end_matches(c)]. *)
Fixpoint trim_end_matches (c : byte) (s : str) : str :=
  match s with
  | [] => []
  | b :: s' =>
      match trim_end_matches c s' with
      | [] => if decide (b = c) then [] else [b]
      | t => b :: t
      end
  end.

(** The encodings of the characters with the White_Space property. *)
Definition whitespace_char (c : list byte) : bool :=
  match c with
  | [b0] => byte_in 9 13 b0 || byte_in 32 32 b0
  | [b0; b1] => byte_in 194 194 b0 && (byte_in 133 133 b1 || byte_in 160 160 b1)
  | [b0; b1; b2] =>
      (byte_in 225 225 b0 && byte_in 154 154 b1 && byte_in 128 128 b2)
      || (byte_in 226 226 b0 && byte_in 128 128 b1
          && (byte_in 128 138 b2 || byte_in 168 169 b2 || byte_in 175 175 b2))
      || (byte_in 226 226 b0 && byte_in 129 129 b1 && byte_in 159 159 b2)
      || (byte_in 227 227 b0 && byte_in 128 128 b1 && byte_in 128 128 b2)
  | _ => false
  end.

(** [s.trim_start()]. *)
Fixpoint trim_start (s : str) : str :=
  match s with
  | [] => []
  | b0 :: s1 =>
      if whitespace_char [b0] then trim_start s1 else
      match s1 with
      | [] => s
      | b1 :: s2 =>
          if whitespace_char [b0; b1] then trim_start s2 else
          match s2 with
          | [] => s
          | b2 :: s3 => if whitespace_char [b0; b1; b2] then trim_start s3 else s
          end
      end
  end.

(** [s.trim().is_empty()]: nothing is left once leading whitespace is gone. *)
Definition trim_is_empty (s : str) : bool :=
  match trim_start s with [] => true | _ => false end.

Lemma split_on_nonempty sep s : split_on sep s ≠ [].
Proof. destruct s as [|b s]; simpl; [done|]. case_decide; [done|]. by destruct (split_on sep s). Qed.

Lemma split_on_plain sep w : sep ∉ w → split_on sep w = [w].
Proof.
  induction w as [|b w IH]; intros Hn; simpl; [done|].
  apply not_elem_of_cons in Hn as [Hb Hn]. rewrite decide_False by done. by rewrite IH.
Qed.

Lemma split_on_app sep w s : sep ∉ w → split_on sep (w ++ sep :: s) = w :: split_on sep s.
Proof.
  induction w as [|b w IH]; intros Hn; simpl; [by rewrite decide_True|].
  apply not_elem_of_cons in Hn as [Hb Hn]. rewrite decide_False by done. by rewrite IH.
Qed.

Lemma split_on_no_sep sep s : Forall (λ w, sep ∉ w) (split_on sep s).
Proof.
  induction s as [|b s IH]; simpl; [repeat constructor; set_solver|].
  case_decide; [constructor; [set_solver|done]|].
  destruct (split_on sep s) as [|w ws]; [repeat constructor; set_solver|].
  inversion_clear IH. constructor; [set_solver|done].
Qed.

Lemma split_once_Some sep s w rest :
  split_once sep s = Some (w, rest) → s = w ++ sep :: rest ∧ sep ∉ w.
Proof.
  revert w rest; induction s as [|b s IH]; intros w rest; simpl; [done|].
  case_decide as Hb.
  - intros [= <- <-]. subst. split; [done|set_solver].
  - destruct (split_once sep s) as [[w' r']|]; simpl; [|done].
    intros [= <- <-]. destruct (IH w' r') as [-> Hn]; [done|]. split; [done|set_solver].
Qed.

Lemma split_once_app sep w rest : sep ∉ w → split_once sep (w ++ sep :: rest) = Some (w, rest).
Proof.
  induction w as [|b w IH]; intros Hn; simpl; [by rewrite decide_True|].
  apply not_elem_of_cons in Hn as [Hb Hn]. rewrite decide_False by done. by rewrite IH.
Qed.

Lemma split_once_None sep s : split_once sep s = None ↔ sep ∉ s.
Proof.
  induction s as [|b s IH]; simpl; [set_solver|].
  case_decide; [set_solver|]. destruct (split_once sep s) as [[]|]; simpl; set_solver.
Qed.

Lemma split_on_app_any sep s t : split_on sep (s ++ sep :: t) = split_on sep s ++ split_on sep t.
Proof.
  induction s as [|b s IH]; simpl; [by rewrite decide_True|].
  case_decide; [by rewrite IH|]. rewrite IH. pose proof (split_on_nonempty sep s).
  by destruct (split_on sep s).
Qed.

(** What [trim_end_matches] cuts off. *)
Lemma trim_end_matches_spec c s : ∃ n, s = trim_end_matches c s ++ replicate n c.
Proof.
  induction s as [|b s [n IH]]; simpl; [by exists 0%nat|].
  destruct (trim_end_matches c s) as [|b' t] eqn:Ht.
  - case_decide as Hb; [subst b; exists (S n); by rewrite IH|exists n; by rewrite IH].
  - exists n. by rewrite IH at 1.
Qed.

Lemma split_on_trailing sep s n :
  split_on sep (s ++ replicate n sep) = split_on sep s ++ replicate n [].
Proof.
  revert s; induction n as [|n IH]; intros s; simpl; [by rewrite !app_nil_r|].
  rewrite split_on_app_any. f_equal. clear IH. induction n as [|n IH]; simpl; [done|].
  by rewrite decide_True, IH.
Qed.

(** ** Decimal numbers *)

Definition digit (d : Z) : byte := byte_of_Z (48 + d).

Fixpoint decimal_loop (fuel : nat) (n : Z) (acc : str) : str :=
  match fuel with
  | O => acc
  | S k =>
      let acc := digit (n mod 10) :: acc in
      if n / 10 =? 0 then acc else decimal_loop k (n / 10) acc
  end.

(** [format!("{n}")] of an unsigned integer; it has fewer digits than bits. *)
Definition decimal (n : Z) : str := decimal_loop (S (Z.to_nat (Z.log2 n))) n [].

Definition of_decimal (s : str) : Z := fold_left (λ a b, 10 * a + (byte_to_Z b - 48)) s 0.

Lemma digit_to_Z d : 0 ≤ d < 10 → byte_to_Z (digit d) = 48 + d.
Proof. intros Hd. unfold digit. rewrite byte_to_of_Z. apply Z.mod_small. lia. Qed.

Lemma decimal_loop_value fuel n acc :
  0 ≤ n < 2 ^ Z.of_nat fuel →
  of_decimal (decimal_loop fuel n acc)
  = fold_left (λ a b, 10 * a + (byte_to_Z b - 48)) acc n.
Proof.
  revert n acc; induction fuel as [|k IH]; intros n acc Hn.
  { cbn [decimal_loop]. unfold of_decimal. f_equal. cbn in Hn. lia. }
  cbn [decimal_loop]. pose proof (Z.mod_pos_bound n 10 ltac:(lia)) as Hm.
  pose proof (Z.div_mod n 10 ltac:(lia)) as Hdm.
  destruct (Z.eqb_spec (n / 10) 0) as [H0|H0].
  - unfold of_decimal. cbn [fold_left]. rewrite digit_to_Z by done. f_equal. lia.
  - rewrite IH.
    + cbn [fold_left]. rewrite digit_to_Z by done. f_equal. lia.
    + rewrite Nat2Z.inj_succ, Z.pow_succ_r in Hn by lia.
      pose proof (Z.div_pos n 10 ltac:(lia) ltac:(lia)). lia.
Qed.

Lemma of_decimal_decimal n : 0 ≤ n → of_decimal (decimal n) = n.
Proof.
  intros Hn. unfold decimal. rewrite decimal_loop_value; [done|].
  split; [done|]. destruct (decide (n = 0)) as [->|]; [done|].
  rewrite Nat2Z.inj_succ, Z2Nat.id by apply Z.log2_nonneg.
  apply Z.log2_spec. lia.
Qed.

Lemma decimal_inj n m : 0 ≤ n → 0 ≤ m → decimal n = decimal m → n = m.
Proof. intros Hn Hm H. by rewrite <- (of_decimal_decimal n), <- (of_decimal_decimal m), H. Qed.

Definition is_digit (b : byte) : Prop := 48 ≤ byte_to_Z b ≤ 57.

Lemma decimal_loop_digits fuel n acc :
  Forall is_digit acc → Forall is_digit (decimal_loop fuel n acc).
Proof.
  revert n acc; induction fuel as [|k IH]; intros n acc Ha; cbn [decimal_loop]; [done|].
  pose proof (Z.mod_pos_bound n 10 ltac:(lia)) as Hm.
  assert (Forall is_digit (digit (n mod 10) :: acc)).
  { constructor; [|done]. unfold is_digit. rewrite digit_to_Z by done. lia. }
  destruct (n / 10 =? 0); [done|by apply IH].
Qed.

Lemma decimal_digits n : Forall is_digit (decimal n).
Proof. by apply decimal_loop_digits. Qed.

Lemma not_elem_of_decimal b n : ¬ is_digit b → b ∉ decimal n.
Proof. intros Hb Hin. pose proof (decimal_digits n) as H. rewrite Forall_forall in H. by apply Hb, H, list_elem_of_In. Qed.

Lemma length_decimal_loop fuel n acc : (length (decimal_loop fuel n acc) ≤ fuel + length acc)%nat.
Proof.
  revert n acc; induction fuel as [|k IH]; intros n acc; cbn [decimal_loop]; [done|].
  destruct (n / 10 =? 0); [simpl; lia|]. etrans; [apply IH|]. simpl. lia.
Qed.

Lemma zlen_decimal n bits : 0 ≤ n < 2 ^ bits → 0 < bits → zlen (decimal n) ≤ bits.
Proof.
  intros Hn Hb. unfold decimal.
  pose proof (length_decimal_loop (S (Z.to_nat (Z.log2 n))) n []) as Hl.
  assert (Z.log2 n < bits).
  { destruct (decide (n = 0)) as [->|]; [done|]. apply Z.log2_lt_pow2; lia. }
  pose proof (Z.log2_nonneg n). unfold zlen. cbn [length] in Hl. lia.
Qed.
