(* ===== verification/Xdr.v ===== *)
(** * XDR encoder and decoder (src/src/xdr)

    [Encoder] and [Decoder] with every method of [xdr/encode.rs] and
    [xdr/decode.rs], and the errors of [xdr/error.rs].  A method that takes
    [&mut self] is a computation over the encoder or decoder, so the position
    a failed read leaves behind is part of the model.  The [Encode] and
    [Decode] traits are passed as functions: [write_array enc] is
    [write_array::<T>] with [enc] for [T::encode]. *)

From Stdlib Require Import Strings.String Strings.Byte.
From stdpp Require Import strings.
From S2P Require Import Prelude Text.

#[local] Open Scope Z_scope.

Inductive XdrError :=
  | UnexpectedEof (needed remaining : Z)
  | TrailingBytes (remaining : Z)
  | InvalidBool (value : Z)
  | InvalidDiscriminant (type_name : string) (value : Z)
  | LengthLimitExceeded (len max : Z)
  | XdrLengthOutOfRange (len : Z)
  | InvalidUtf8.

#[export] Instance XdrError_eq_dec : EqDecision XdrError.
Proof. solve_decision. Defined.

Definition padding_len (len : Z) : Z := (4 - len mod 4) mod 4.

Definition checked_u32_len (len : Z) : outcome XdrError Z :=
  if len <=? u32_max then Ok len else Err (XdrLengthOutOfRange len).

(** ** Encoder *)

Record Encoder := mkEncoder { enc_bytes : list byte }.

Definition Encoder_new : Encoder := mkEncoder [].

Definition Encoder_len (e : Encoder) : Z := zlen (enc_bytes e).

Definition Encoder_is_empty (e : Encoder) : bool :=
  match enc_bytes e with [] => true | _ => false end.

(** [self.bytes.extend_from_slice(bs)]. *)
Definition extend_from_slice (bs : list byte) : M Encoder XdrError unit :=
  modify (λ e, mkEncoder (enc_bytes e ++ bs)).

Definition write_u32 (value : Z) : M Encoder XdrError unit := extend_from_slice (be_bytes 4 value).

Definition write_i32 (value : Z) : M Encoder XdrError unit := extend_from_slice (be_bytes 4 value).

Definition write_u64 (value : Z) : M Encoder XdrError unit := extend_from_slice (be_bytes 8 value).

Definition write_i64 (value : Z) : M Encoder XdrError unit := extend_from_slice (be_bytes 8 value).

Definition write_bool (value : bool) : M Encoder XdrError unit := write_u32 (if value then 1 else 0).

Definition write_discriminant (value : Z) : M Encoder XdrError unit := write_i32 value.

Definition write_padding (len : Z) : M Encoder XdrError unit :=
  extend_from_slice (ztake (padding_len len) [x00; x00; x00]).

Definition write_fixed_opaque (value : list byte) : M Encoder XdrError unit :=
  extend_from_slice value ;; write_padding (zlen value).

Definition write_len (len max : Z) : M Encoder XdrError unit :=
  if len >? max then throw (LengthLimitExceeded len max) else
  n ← lift (checked_u32_len len);
  write_u32 n.

Definition write_opaque (value : list byte) (max : Z) : M Encoder XdrError unit :=
  write_len (zlen value) max ;;
  write_fixed_opaque value.

Definition write_string (value : str) (max : Z) : M Encoder XdrError unit := write_opaque value max.

Fixpoint write_each {A} (enc : A → M Encoder XdrError unit) (values : list A) : M Encoder XdrError unit :=
  match values with
  | [] => mret tt
  | value :: rest => enc value ;; write_each enc rest
  end.

Definition write_array {A} (enc : A → M Encoder XdrError unit) (values : list A) (max : Z)
    : M Encoder XdrError unit :=
  write_len (zlen values) max ;;
  write_each enc values.

Definition write_optional {A} (enc : A → M Encoder XdrError unit) (value : option A) : M Encoder XdrError unit :=
  write_bool (match value with Some _ => true | None => false end) ;;
  match value with
  | Some value => enc value
  | None => mret tt
  end.

Definition to_bytes {A} (enc : A → M Encoder XdrError unit) (value : A) : outcome XdrError (list byte) :=
  match enc value Encoder_new with
  | (e, Ok _) => Ok (enc_bytes e)
  | (_, Err err) => Err err
  | (_, Fault f) => Fault f
  end.

(** ** Decoder *)

Record Decoder := mkDecoder { dec_input : list byte; dec_position : Z }.

Definition Decoder_new (input : list byte) : Decoder := mkDecoder input 0.

Definition remaining (d : Decoder) : Z := zlen (dec_input d) - dec_position d.

Definition is_finished (d : Decoder) : bool := remaining d =? 0.

Definition finish : M Decoder XdrError unit := λ d,
  if is_finished d then (d, Ok tt) else (d, Err (TrailingBytes (remaining d))).

Definition read_bytes (len : Z) : M Decoder XdrError (list byte) := λ d,
  match checked_add usize_max (dec_position d) len with
  | None => (d, Err (UnexpectedEof len (remaining d)))
  | Some end_ =>
      if end_ >? zlen (dec_input d) then (d, Err (UnexpectedEof len (remaining d))) else
      let bytes := ztake (end_ - dec_position d) (zdrop (dec_position d) (dec_input d)) in
      (mkDecoder (dec_input d) end_, Ok bytes)
  end.

Definition read_byte_array (n : nat) : M Decoder XdrError (list byte) := read_bytes (Z.of_nat n).

Definition skip_padding (len : Z) : M Decoder XdrError unit :=
  _ ← read_bytes (padding_len len); mret tt.

Definition read_u32 : M Decoder XdrError Z :=
  bytes ← read_byte_array 4; mret (be_Z bytes).

Definition read_i32 : M Decoder XdrError Z :=
  bytes ← read_byte_array 4; mret (to_signed 32 (be_Z bytes)).

Definition read_u64 : M Decoder XdrError Z :=
  bytes ← read_byte_array 8; mret (be_Z bytes).

Definition read_i64 : M Decoder XdrError Z :=
  bytes ← read_byte_array 8; mret (to_signed 64 (be_Z bytes)).

Definition read_bool : M Decoder XdrError bool :=
  value ← read_u32;
  if value =? 0 then mret false
  else if value =? 1 then mret true
  else throw (InvalidBool value).

Definition read_discriminant : M Decoder XdrError Z := read_i32.

Definition read_fixed_opaque (len : Z) : M Decoder XdrError (list byte) :=
  value ← read_bytes len;
  skip_padding len ;;
  mret value.

Definition read_fixed_opaque_unpadded (len : Z) : M Decoder XdrError (list byte) := read_bytes len.

Definition read_len (max : Z) : M Decoder XdrError Z :=
  len ← read_u32;
  if len >? max then throw (LengthLimitExceeded len max) else mret len.

Definition read_opaque (max : Z) : M Decoder XdrError (list byte) :=
  len ← read_len max;
  read_fixed_opaque len.

Definition read_opaque_vec (max : Z) : M Decoder XdrError (list byte) := read_opaque max.

Definition read_string (max : Z) : M Decoder XdrError str :=
  bytes ← read_opaque max;
  if utf8_valid bytes then mret bytes else throw InvalidUtf8.

(** [for _ in 0..len { values.push(T::decode(self)?) }]. *)
Fixpoint read_each {A} (dec : M Decoder XdrError A) (len : nat) : M Decoder XdrError (list A) :=
  match len with
  | O => mret []
  | S n =>
      value ← dec;
      rest ← read_each dec n;
      mret (value :: rest)
  end.

Definition read_array {A} (dec : M Decoder XdrError A) (max : Z) : M Decoder XdrError (list A) :=
  len ← read_len max;
  read_each dec (Z.to_nat len).

Definition read_optional {A} (dec : M Decoder XdrError A) : M Decoder XdrError (option A) :=
  present ← read_bool;
  if (present : bool) then (value ← dec; mret (Some value)) else mret None.

Definition from_bytes {A} (dec : M Decoder XdrError A) (input : list byte) : outcome XdrError A :=
  ((value ← dec; finish ;; mret value) (Decoder_new input)).2.

(** [impl Encode for ()] and [impl Decode for ()]. *)
Definition encode_unit (_ : unit) : M Encoder XdrError unit := mret tt.
Definition decode_unit : M Decoder XdrError unit := mret tt.
