(* ===== verification/XdrSpec.v ===== *)
(** * The XDR wire format, and that the codec implements it

    [wire_*] is the abstract specification: the byte string RFC 4506 assigns
    to a value, as a function of the value alone.  Three law classes connect
    it to the code of [Xdr], each keyed on the encoder or decoder it is about:

    - [EncodesTo enc wire ok]: on every value satisfying [ok], [enc] appends
      exactly [wire a] and succeeds;
    - [DecodesFrom dec wire ok]: positioned in front of [wire a], with
      anything before and after it, [dec] returns [a] and stops right behind;
    - [DecodeSound dec wire ok]: whatever [dec] accepts satisfies [ok], and it
      consumed exactly as many bytes as [wire a] has.

    [DecSafe dec] says that [dec] never faults, never leaves the input and
    never moves backwards, on any input whatsoever.  Instances follow the
    structure of the code, so the laws of a message are found by instance
    search on its codec. *)

From Stdlib Require Import Strings.String Strings.Byte.
From S2P Require Import Prelude Text Xdr.

#[local] Open Scope Z_scope.

(** ** The wire format *)

Definition wire_u32 (z : Z) : list byte := be_bytes 4 z.
Definition wire_u64 (z : Z) : list byte := be_bytes 8 z.
Definition wire_bool (b : bool) : list byte := wire_u32 (if b then 1 else 0).
Definition wire_pad (len : Z) : list byte := replicate (Z.to_nat (padding_len len)) x00.
Definition wire_fixed (bs : list byte) : list byte := bs ++ wire_pad (zlen bs).
Definition wire_opaque (bs : list byte) : list byte := wire_u32 (zlen bs) ++ wire_fixed bs.
Definition wire_each {A} (wire : A → list byte) (l : list A) : list byte := mjoin (wire <$> l).
Definition wire_array {A} (wire : A → list byte) (l : list A) : list byte :=
  wire_u32 (zlen l) ++ wire_each wire l.
Definition wire_optional {A} (wire : A → list byte) (o : option A) : list byte :=
  match o with
  | Some a => wire_bool true ++ wire a
  | None => wire_bool false
  end.

Definition option_ok {A} (ok : A → Prop) (o : option A) : Prop :=
  match o with Some a => ok a | None => True end.

Definition opaque_ok (max : Z) (bs : list byte) : Prop := zlen bs ≤ max ∧ zlen bs ≤ u32_max.
Definition string_ok (max : Z) (s : str) : Prop := opaque_ok max s ∧ utf8_valid s = true.
Definition array_ok {A} (ok : A → Prop) (max : Z) (l : list A) : Prop :=
  zlen l ≤ max ∧ zlen l ≤ u32_max ∧ Forall ok l.

(** ** Laws *)

Class EncodesTo {A} (enc : A → M Encoder XdrError unit) (wire : A → list byte) (ok : A → Prop) :=
  encodes_to : ∀ a e, ok a → enc a e = (mkEncoder (enc_bytes e ++ wire a), Ok tt).

(** [writes m bs]: [m] appends [bs] and succeeds. *)
Definition writes {E} (m : M Encoder E unit) (bs : list byte) : Prop :=
  ∀ e, m e = (mkEncoder (enc_bytes e ++ bs), Ok tt).

(** [reads m bs a]: in front of [bs], [m] returns [a] and stops right behind. *)
Definition reads {E A} (m : M Decoder E A) (bs : list byte) (a : A) : Prop :=
  ∀ pre after, zlen (pre ++ bs ++ after) ≤ isize_max →
    m (mkDecoder (pre ++ bs ++ after) (zlen pre))
    = (mkDecoder (pre ++ bs ++ after) (zlen (pre ++ bs)), Ok a).

Class DecodesFrom {E A} (dec : M Decoder E A) (wire : A → list byte) (ok : A → Prop) :=
  decodes_from : ∀ a, ok a → reads dec (wire a) a.

(** A decoder inside its input. *)
Definition dec_wf (d : Decoder) : Prop :=
  0 ≤ dec_position d ≤ zlen (dec_input d) ∧ zlen (dec_input d) ≤ isize_max.

(** [dec_step d d']: [d'] is [d] moved forward, still inside the input. *)
Definition dec_step (d d' : Decoder) : Prop :=
  dec_wf d' ∧ dec_input d' = dec_input d ∧ dec_position d ≤ dec_position d'.

Class DecSafe {E A} (dec : M Decoder E A) :=
  dec_safe : ∀ d, dec_wf d → dec_step d (dec d).1 ∧ fault_free (dec d).2.

Class DecodeSound {E A} (dec : M Decoder E A) (wire : A → list byte) (ok : A → Prop) :=
  decode_sound : ∀ d d' a, dec_wf d → dec d = (d', Ok a) →
    ok a ∧ dec_position d' = dec_position d + zlen (wire a).

#[export] Instance dec_step_trans : Transitive dec_step.
Proof. unfold dec_step. intros d1 d2 d3 (?&?&?) (?&?&?). split_and!; [done|congruence|lia]. Qed.

Lemma dec_step_refl d : dec_wf d → dec_step d d.
Proof. unfold dec_step. auto with lia. Qed.

(** ** Composition *)

Lemma writes_ret {E} : writes (E := E) (mret tt) [].
Proof. intros [b]. cbn. by rewrite app_nil_r. Qed.

Lemma writes_bind {E A} (m : M Encoder E A) (k : A → M Encoder E unit) bs1 bs2 a :
  (∀ e, m e = (mkEncoder (enc_bytes e ++ bs1), Ok a)) → writes (k a) bs2 →
  writes (m ≫= k) (bs1 ++ bs2).
Proof.
  intros Hm Hk e. rewrite (bind_run _ _ _ _ _ (Hm e)), Hk. cbn. by rewrite app_assoc.
Qed.

Lemma writes_extend bs : writes (extend_from_slice bs) bs.
Proof. by intros [b]. Qed.

Lemma reads_ret {E A} (a : A) : reads (E := E) (mret a) [] a.
Proof. intros pre after _. cbn. by rewrite app_nil_r. Qed.

Lemma reads_bind {E A B} (m : M Decoder E A) (k : A → M Decoder E B) bs1 bs2 a b :
  reads m bs1 a → reads (k a) bs2 b → reads (m ≫= k) (bs1 ++ bs2) b.
Proof.
  intros Hm Hk pre after Hlen. rewrite <- (app_assoc bs1) in *.
  rewrite (bind_run _ _ _ _ _ (Hm pre _ Hlen)).
  rewrite (app_assoc pre) in Hlen |- *. rewrite (Hk (pre ++ bs1) after Hlen).
  by rewrite !app_assoc.
Qed.

Lemma reads_bind_ret {E A B} (m : M Decoder E A) (g : A → B) bs a :
  reads m bs a → reads (x ← m; mret (g x)) bs (g a).
Proof. intros H. rewrite <- (app_nil_r bs). eapply reads_bind; [done|apply reads_ret]. Qed.

#[export] Instance dec_safe_ret {E A} (a : A) : DecSafe (E := E) (mret a).
Proof. intros d Hd. split; [by apply dec_step_refl|done]. Qed.

#[export] Instance dec_safe_throw {E A} (e : E) : DecSafe (A := A) (throw e).
Proof. intros d Hd. split; [by apply dec_step_refl|done]. Qed.

#[export] Instance dec_safe_bind {E A B} (m : M Decoder E A) (k : A → M Decoder E B) :
  DecSafe m → (∀ a, DecSafe (k a)) → DecSafe (m ≫= k).
Proof.
  intros Hm Hk d Hd. destruct (Hm d Hd) as [Hs Hf]. unfold mbind, M_bind.
  destruct (m d) as [d' [a|e|f]]; simpl in *; [|done|by destruct (Hf f)].
  destruct (Hk a d') as [Hs' Hf']; [apply Hs|]. split; [by etrans|done].
Qed.

#[export] Instance dec_safe_if {E A} (b : bool) (m1 m2 : M Decoder E A) :
  DecSafe m1 → DecSafe m2 → DecSafe (if b then m1 else m2).
Proof. by destruct b. Qed.

Lemma dec_safe_Ok {E A} (m : M Decoder E A) d d' a :
  DecSafe m → dec_wf d → m d = (d', Ok a) → dec_step d d'.
Proof. intros Hm Hd Heq. destruct (Hm d Hd) as [Hs _]. by rewrite Heq in Hs. Qed.

(** [DecodeSound] of a bind, read off a successful run. *)
Lemma sound_bind_inv {E A B} (m : M Decoder E A) (k : A → M Decoder E B)
    wire ok d d'' b :
  DecodeSound m wire ok → DecSafe m → dec_wf d → (m ≫= k) d = (d'', Ok b) →
  ∃ d' a, ok a ∧ dec_wf d' ∧ dec_input d' = dec_input d
    ∧ dec_position d' = dec_position d + zlen (wire a) ∧ k a d' = (d'', Ok b).
Proof.
  intros Hs Hsafe Hd H. apply bind_Ok_inv in H as (d' & a & Heq & H).
  destruct (Hs _ _ _ Hd Heq) as [Hok Hpos].
  destruct (dec_safe_Ok _ _ _ _ Hsafe Hd Heq) as (Hd' & Hin & _).
  exists d', a. eauto 10.
Qed.

(** [sound_step H as (d & a & Ha & Hd & Hin & Hpos)]: split the first read off
    the successful run [H], with what its soundness gives. *)
Tactic Notation "sound_step" hyp(H) "as" simple_intropattern(p) :=
  lazymatch type of H with
  | mbind ?k ?m ?d = (?d2, Ok ?b) =>
      let Hs := fresh "Hs" in let H' := fresh "H'" in
      epose proof (_ : DecodeSound m _ _) as Hs;
      assert (dec_wf d) as H' by assumption;
      apply (sound_bind_inv m k _ _ d d2 b Hs _ H') in H; clear Hs H';
      destruct H as p
  end.

(** ** Primitives *)

Lemma padding_len_range len : 0 ≤ padding_len len < 4.
Proof. unfold padding_len. apply Z.mod_pos_bound. lia. Qed.

(** Padding completes the data to a multiple of four bytes. *)
Lemma padding_len_aligns len : (len + padding_len len) mod 4 = 0.
Proof.
  unfold padding_len. rewrite Zplus_mod_idemp_r.
  rewrite (Z.div_mod len 4) at 1 by lia.
  replace (4 * (len / 4) + len mod 4 + (4 - len mod 4)) with ((len / 4 + 1) * 4) by lia.
  apply Z_mod_mult.
Qed.

Lemma zlen_wire_pad len : zlen (wire_pad len) = padding_len len.
Proof. unfold wire_pad. rewrite zlen_replicate. pose proof (padding_len_range len). lia. Qed.

Lemma zlen_wire_u32 z : zlen (wire_u32 z) = 4.
Proof. apply zlen_be_bytes. Qed.
Lemma zlen_wire_u64 z : zlen (wire_u64 z) = 8.
Proof. apply zlen_be_bytes. Qed.
Lemma zlen_wire_bool b : zlen (wire_bool b) = 4.
Proof. apply zlen_be_bytes. Qed.
#[export] Hint Rewrite zlen_wire_pad zlen_wire_u32 zlen_wire_u64 zlen_wire_bool : zlen.

Lemma read_bytes_run input pos len :
  0 ≤ len → 0 ≤ pos → pos + len ≤ zlen input → zlen input ≤ isize_max →
  read_bytes len (mkDecoder input pos)
  = (mkDecoder input (pos + len), Ok (ztake len (zdrop pos input))).
Proof.
  intros Hl Hp Hle Hin. unfold read_bytes, checked_add; cbn [dec_position dec_input].
  destruct (Z.leb_spec (pos + len) usize_max); [|int_unfold; lia].
  rewrite Z.gtb_ltb. destruct (Z.ltb_spec (zlen input) (pos + len)); [lia|].
  by replace (pos + len - pos) with len by lia.
Qed.

Lemma read_bytes_eof input pos len :
  zlen input < pos + len →
  read_bytes len (mkDecoder input pos)
  = (mkDecoder input pos, Err (UnexpectedEof len (zlen input - pos))).
Proof.
  intros Hlt. unfold read_bytes, checked_add; cbn [dec_position dec_input].
  destruct (Z.leb_spec (pos + len) usize_max); [|done].
  rewrite Z.gtb_ltb. by destruct (Z.ltb_spec (zlen input) (pos + len)); [|lia].
Qed.

Lemma reads_read_bytes bs : reads (read_bytes (zlen bs)) bs bs.
Proof.
  intros pre after Hlen. rewrite read_bytes_run by zlen_lia.
  rewrite zdrop_app, ztake_app. by rewrite zlen_app.
Qed.

#[export] Instance dec_safe_read_bytes_nat (n : nat) : DecSafe (read_byte_array n).
Proof.
  intros [input pos] [Hpos Hin]. cbn in Hpos, Hin. unfold read_byte_array.
  destruct (decide (pos + Z.of_nat n ≤ zlen input)).
  - rewrite read_bytes_run by lia. cbn. split; [|done].
    unfold dec_step, dec_wf; cbn. split_and!; [lia..|done|lia].
  - rewrite read_bytes_eof by lia. cbn. split; [|done].
    by apply dec_step_refl.
Qed.

Lemma dec_safe_read_bytes len : 0 ≤ len → DecSafe (read_bytes len).
Proof.
  intros H. replace len with (Z.of_nat (Z.to_nat len)) by lia. apply dec_safe_read_bytes_nat.
Qed.

#[export] Instance read_bytes_sound n :
  DecodeSound (read_byte_array n) (λ bs, bs) (λ bs, zlen bs = Z.of_nat n).
Proof.
  intros [input pos] d' a [Hpos Hin] H. cbn in Hpos, Hin. unfold read_byte_array in H.
  destruct (decide (pos + Z.of_nat n ≤ zlen input)).
  - rewrite read_bytes_run in H by lia. injection H as <- <-. cbn.
    assert (zlen (ztake (Z.of_nat n) (zdrop pos input)) = Z.of_nat n) as ->; [|done].
    apply zlen_take. rewrite zlen_drop by lia. lia.
  - by rewrite read_bytes_eof in H by lia.
Qed.

(** Reading [n] bytes and decoding them as an integer. *)
Lemma sound_read_int n (g : list byte → Z) (wire : Z → list byte) (ok : Z → Prop) :
  (∀ bs, zlen bs = Z.of_nat n → ok (g bs)) → (∀ z, zlen (wire z) = Z.of_nat n) →
  DecodeSound (bytes ← read_byte_array n; mret (g bytes)) wire ok.
Proof.
  intros Hok Hw d d' a Hd H.
  sound_step H as (d1 & bs & Hbs & _ & _ & Hpos & H).
  injection H as <- <-. split; [by apply Hok|]. rewrite Hw. lia.
Qed.

Lemma reads_read_int n (g : list byte → Z) z :
  g (be_bytes n z) = z → reads (bytes ← read_byte_array n; mret (g bytes)) (be_bytes n z) z.
Proof.
  intros Hg. rewrite <- Hg at 2. apply reads_bind_ret.
  unfold read_byte_array. rewrite <- (zlen_be_bytes n z). apply reads_read_bytes.
Qed.

Lemma to_signed_mod bits z :
  0 < bits → - 2 ^ (bits - 1) ≤ z < 2 ^ (bits - 1) → to_signed bits (z mod 2 ^ bits) = z.
Proof.
  intros Hb Hz. unfold to_signed.
  assert (2 ^ bits = 2 * 2 ^ (bits - 1)) as Hp
    by (rewrite <- Z.pow_succ_r by lia; f_equal; lia).
  assert (0 < 2 ^ (bits - 1)) by (apply Z.pow_pos_nonneg; lia).
  destruct (decide (0 ≤ z)).
  - rewrite Z.mod_small by lia. destruct (Z.ltb_spec z (2 ^ (bits - 1))); lia.
  - rewrite <- (Z_mod_plus_full z 1), Z.mod_small by lia.
    destruct (Z.ltb_spec (z + 1 * 2 ^ bits) (2 ^ (bits - 1))); lia.
Qed.

Lemma to_signed_range bits z :
  0 < bits → 0 ≤ z < 2 ^ bits → - 2 ^ (bits - 1) ≤ to_signed bits z < 2 ^ (bits - 1).
Proof.
  intros Hb Hz. unfold to_signed.
  assert (2 ^ bits = 2 * 2 ^ (bits - 1)) as Hp
    by (rewrite <- Z.pow_succ_r by lia; f_equal; lia).
  destruct (Z.ltb_spec z (2 ^ (bits - 1))); lia.
Qed.

#[export] Instance read_u32_from : DecodesFrom read_u32 wire_u32 is_u32.
Proof. intros z Hz. apply reads_read_int. rewrite be_Z_be_bytes. apply Z.mod_small. int_unfold; lia. Qed.
#[export] Instance read_u64_from : DecodesFrom read_u64 wire_u64 is_u64.
Proof. intros z Hz. apply reads_read_int. rewrite be_Z_be_bytes. apply Z.mod_small. int_unfold; lia. Qed.
#[export] Instance read_i32_from : DecodesFrom read_i32 wire_u32 is_i32.
Proof.
  intros z Hz. apply (reads_read_int 4 (λ bs, to_signed 32 (be_Z bs))).
  rewrite be_Z_be_bytes. by apply (to_signed_mod 32).
Qed.
#[export] Instance read_i64_from : DecodesFrom read_i64 wire_u64 is_i64.
Proof.
  intros z Hz. apply (reads_read_int 8 (λ bs, to_signed 64 (be_Z bs))).
  rewrite be_Z_be_bytes. by apply (to_signed_mod 64).
Qed.

Lemma be_Z_bound bs n : zlen bs = Z.of_nat n → 0 ≤ be_Z bs < 256 ^ Z.of_nat n.
Proof. intros <-. apply be_Z_range. Qed.

#[export] Instance read_u32_sound : DecodeSound read_u32 wire_u32 is_u32.
Proof.
  apply sound_read_int; [|apply zlen_be_bytes]. intros bs H%be_Z_bound. int_unfold; lia.
Qed.
#[export] Instance read_u64_sound : DecodeSound read_u64 wire_u64 is_u64.
Proof.
  apply sound_read_int; [|apply zlen_be_bytes]. intros bs H%be_Z_bound. int_unfold; lia.
Qed.
#[export] Instance read_i32_sound : DecodeSound read_i32 wire_u32 is_i32.
Proof.
  apply (sound_read_int 4 (λ bs, to_signed 32 (be_Z bs))); [|apply zlen_be_bytes].
  intros bs H%be_Z_bound. by apply (to_signed_range 32).
Qed.
#[export] Instance read_i64_sound : DecodeSound read_i64 wire_u64 is_i64.
Proof.
  apply (sound_read_int 8 (λ bs, to_signed 64 (be_Z bs))); [|apply zlen_be_bytes].
  intros bs H%be_Z_bound. by apply (to_signed_range 64).
Qed.

#[export] Instance dec_safe_read_u32 : DecSafe read_u32.
Proof. apply _. Qed.
#[export] Instance dec_safe_read_i32 : DecSafe read_i32.
Proof. apply _. Qed.
#[export] Instance dec_safe_read_u64 : DecSafe read_u64.
Proof. apply _. Qed.
#[export] Instance dec_safe_read_i64 : DecSafe read_i64.
Proof. apply _. Qed.

#[export] Instance read_bool_from : DecodesFrom read_bool wire_bool (λ _, True).
Proof.
  intros b _. unfold wire_bool, read_bool. rewrite <- (app_nil_r (wire_u32 _)).
  eapply reads_bind; [apply read_u32_from; destruct b; int_unfold; lia|].
  destruct b; apply reads_ret.
Qed.

#[export] Instance read_bool_sound : DecodeSound read_bool wire_bool (λ _, True).
Proof.
  intros d d' b Hd H. unfold read_bool in H. sound_step H as (d1 & v & Hv & _ & _ & Hpos & H).
  split; [done|]. autorewrite with zlen in *. cbn in H.
  destruct (v =? 0); [by injection H as <- <-|]. destruct (v =? 1); [by injection H as <- <-|done].
Qed.

#[export] Instance dec_safe_read_bool : DecSafe read_bool.
Proof. unfold read_bool. apply _. Qed.

#[export] Instance write_u32_to : EncodesTo write_u32 wire_u32 (λ _, True).
Proof. by intros z [b]. Qed.
#[export] Instance write_i32_to : EncodesTo write_i32 wire_u32 (λ _, True).
Proof. by intros z [b]. Qed.
#[export] Instance write_u64_to : EncodesTo write_u64 wire_u64 (λ _, True).
Proof. by intros z [b]. Qed.
#[export] Instance write_i64_to : EncodesTo write_i64 wire_u64 (λ _, True).
Proof. by intros z [b]. Qed.
#[export] Instance write_bool_to : EncodesTo write_bool wire_bool (λ _, True).
Proof. by intros z [b]. Qed.

(** ** Opaque data *)

#[export] Instance dec_safe_skip_padding len : DecSafe (skip_padding len).
Proof.
  unfold skip_padding. pose proof (padding_len_range len).
  apply dec_safe_bind; [apply dec_safe_read_bytes; lia|apply _].
Qed.

Lemma dec_safe_read_fixed_opaque len : 0 ≤ len → DecSafe (read_fixed_opaque len).
Proof.
  intros H. unfold read_fixed_opaque. apply dec_safe_bind; [by apply dec_safe_read_bytes|apply _].
Qed.

(** A safe continuation is only needed for the values the first part returns. *)
Lemma dec_safe_bind_sound {E A B} (m : M Decoder E A) (k : A → M Decoder E B) wire ok :
  DecSafe m → DecodeSound m wire ok → (∀ a, ok a → DecSafe (k a)) → DecSafe (m ≫= k).
Proof.
  intros Hm Hs Hk d Hd. destruct (Hm d Hd) as [Hst Hf]. unfold mbind, M_bind.
  destruct (m d) as [d' [a|e|f]] eqn:Heq; simpl in *; [|done|by destruct (Hf f)].
  destruct (Hs _ _ _ Hd Heq) as [Hok _].
  destruct (Hk a Hok d') as [Hs' Hf']; [apply Hst|]. split; [by etrans|done].
Qed.

#[export] Instance dec_safe_read_len max : DecSafe (read_len max).
Proof. unfold read_len. apply _. Qed.

#[export] Instance read_len_sound max :
  DecodeSound (read_len max) wire_u32 (λ len, is_u32 len ∧ len ≤ max).
Proof.
  intros d d' a Hd H. unfold read_len in H. sound_step H as (d1 & v & Hv & _ & _ & Hpos & H).
  destruct (Z.gtb_spec v max); [done|]. injection H as <- <-. auto.
Qed.

Lemma reads_read_len max len : is_u32 len → len ≤ max → reads (read_len max) (wire_u32 len) len.
Proof.
  intros Hu Hm. unfold read_len. rewrite <- (app_nil_r (wire_u32 _)).
  eapply reads_bind; [by apply read_u32_from|].
  destruct (Z.gtb_spec len max); [lia|]. apply reads_ret.
Qed.

#[export] Instance dec_safe_read_opaque max : DecSafe (read_opaque max).
Proof.
  unfold read_opaque. eapply dec_safe_bind_sound; [apply _..|].
  intros len [Hlen _]. apply dec_safe_read_fixed_opaque. apply Hlen.
Qed.

Lemma reads_skip_padding bs len : zlen bs = padding_len len → reads (skip_padding len) bs tt.
Proof.
  intros H. unfold skip_padding. apply (reads_bind_ret _ (λ _, tt) _ bs).
  rewrite <- H. apply reads_read_bytes.
Qed.

(** Reading back fixed-length data: whatever the padding bytes are. *)
Lemma reads_read_fixed_opaque bs pad :
  zlen pad = padding_len (zlen bs) → reads (read_fixed_opaque (zlen bs)) (bs ++ pad) bs.
Proof.
  intros H. unfold read_fixed_opaque. eapply reads_bind; [apply reads_read_bytes|].
  rewrite <- (app_nil_r pad). eapply reads_bind; [by apply reads_skip_padding|apply reads_ret].
Qed.

#[export] Instance read_fixed_opaque_from len :
  DecodesFrom (read_fixed_opaque len) wire_fixed (λ bs, zlen bs = len).
Proof. intros bs <-. apply reads_read_fixed_opaque. apply zlen_wire_pad. Qed.

Lemma skip_padding_advance len d d' :
  dec_wf d → skip_padding len d = (d', Ok tt) →
  dec_step d d' ∧ dec_position d' = dec_position d + padding_len len.
Proof.
  intros Hd H. split; [exact (dec_safe_Ok _ _ _ _ _ Hd H)|].
  pose proof (padding_len_range len) as Hr. unfold skip_padding in H.
  rewrite <- (Z2Nat.id (padding_len len)) in H by lia.
  apply bind_Ok_inv in H as (d2 & bs & Hr2 & H). injection H as <-.
  destruct (read_bytes_sound _ _ _ _ Hd Hr2) as [Hbs ->]. rewrite Hbs. lia.
Qed.

Lemma read_fixed_opaque_sound len :
  0 ≤ len → DecodeSound (read_fixed_opaque len) wire_fixed (λ bs, zlen bs = len).
Proof.
  intros Hlen d d' bs Hd H. unfold read_fixed_opaque in H.
  replace len with (Z.of_nat (Z.to_nat len)) in H at 1 by lia.
  change (read_bytes (Z.of_nat ?n)) with (read_byte_array n) in H.
  sound_step H as (d1 & v & Hv & Hd1 & Hin & Hpos & H).
  apply bind_Ok_inv in H as (d2 & [] & Hsk & H). injection H as <- <-.
  destruct (skip_padding_advance _ _ _ Hd1 Hsk) as [_ Hpos'].
  rewrite Z2Nat.id in Hv by done. split; [done|].
  unfold wire_fixed. autorewrite with zlen. rewrite Hv. lia.
Qed.

#[export] Instance read_opaque_from max :
  DecodesFrom (read_opaque max) wire_opaque (opaque_ok max).
Proof.
  intros bs [Hm Hu]. unfold read_opaque, wire_opaque. eapply reads_bind.
  - apply reads_read_len; [|done]. split; [apply zlen_nonneg|done].
  - by apply read_fixed_opaque_from.
Qed.

#[export] Instance read_opaque_sound max :
  DecodeSound (read_opaque max) wire_opaque (opaque_ok max).
Proof.
  intros d d' bs Hd H. unfold read_opaque in H. sound_step H as (d1 & len & [Hlen Hmax] & Hd1 & Hin & Hpos & H).
  apply (read_fixed_opaque_sound len) in H as [Hl Hpos']; [|apply Hlen|done].
  unfold opaque_ok, wire_opaque. destruct Hlen. split; [lia|]. autorewrite with zlen in *. lia.
Qed.

#[export] Instance read_string_from max : DecodesFrom (read_string max) wire_opaque (string_ok max).
Proof.
  intros s [Ho Hu]. unfold read_string. rewrite <- (app_nil_r (wire_opaque _)).
  eapply reads_bind; [by apply read_opaque_from|]. rewrite Hu. apply reads_ret.
Qed.

#[export] Instance read_string_sound max : DecodeSound (read_string max) wire_opaque (string_ok max).
Proof.
  intros d d' s Hd H. unfold read_string in H. sound_step H as (d1 & bs & Hbs & Hd1 & Hin & Hpos & H).
  destruct (utf8_valid bs) eqn:E; [|done]. injection H as <- <-. done.
Qed.

#[export] Instance dec_safe_read_string max : DecSafe (read_string max).
Proof. unfold read_string. apply _. Qed.

(** ** Arrays and optionals *)

Section containers.
Context {A : Type} (dec : M Decoder XdrError A) (wire : A → list byte) (ok : A → Prop).

Lemma wire_each_cons a l : wire_each wire (a :: l) = wire a ++ wire_each wire l.
Proof. done. Qed.

#[export] Instance dec_safe_read_each `{!DecSafe dec} n : DecSafe (read_each dec n).
Proof. induction n; simpl; apply _. Qed.

#[export] Instance dec_safe_read_array `{!DecSafe dec} max : DecSafe (read_array dec max).
Proof. unfold read_array. apply _. Qed.

Lemma reads_read_each `{!DecodesFrom dec wire ok} l :
  Forall ok l → reads (read_each dec (length l)) (wire_each wire l) l.
Proof.
  induction 1 as [|a l Ha _ IH]; simpl; [apply reads_ret|].
  rewrite wire_each_cons. eapply reads_bind; [by apply decodes_from|].
  by apply reads_bind_ret.
Qed.

Lemma read_each_sound `{!DecSafe dec, !DecodeSound dec wire ok} n d d' l :
  dec_wf d → read_each dec n d = (d', Ok l) →
  length l = n ∧ Forall ok l ∧ dec_position d' = dec_position d + zlen (wire_each wire l).
Proof.
  revert d l; induction n as [|n IH]; intros d l Hd H; simpl in H.
  { injection H as <- <-. split; [done|]. split; [by apply Forall_nil|].
    change (wire_each wire []) with (@nil byte). rewrite zlen_nil. lia. }
  sound_step H as (d1 & a & Ha & Hd1 & _ & Hpos & H).
  apply bind_Ok_inv in H as (d2 & l' & H & Hr). injection Hr as <- <-.
  apply IH in H as (Hl & Hf & Hp); [|done].
  rewrite wire_each_cons, zlen_app. simpl. split_and!; [lia|by constructor|lia].
Qed.

#[export] Instance read_array_from `{!DecodesFrom dec wire ok} max :
  DecodesFrom (read_array dec max) (wire_array wire) (array_ok ok max).
Proof.
  intros l (Hm & Hu & Hf). unfold read_array, wire_array. eapply reads_bind.
  - apply reads_read_len; [|done]. split; [apply zlen_nonneg|done].
  - unfold zlen. rewrite Nat2Z.id. by apply reads_read_each.
Qed.

#[export] Instance read_array_sound `{!DecSafe dec, !DecodeSound dec wire ok} max :
  DecodeSound (read_array dec max) (wire_array wire) (array_ok ok max).
Proof.
  intros d d' l Hd H. unfold read_array in H. sound_step H as (d1 & len & [Hlen Hmax] & Hd1 & Hin & Hpos & H).
  apply read_each_sound in H as (Hl & Hf & Hp); [|done].
  assert (zlen l = len) as Hz by (unfold zlen; destruct Hlen; lia).
  unfold array_ok, wire_array. rewrite Hz. destruct Hlen.
  split; [done|]. autorewrite with zlen in *. lia.
Qed.

#[export] Instance dec_safe_read_optional `{!DecSafe dec} : DecSafe (read_optional dec).
Proof. unfold read_optional. apply _. Qed.

#[export] Instance read_optional_from `{!DecodesFrom dec wire ok} :
  DecodesFrom (read_optional dec) (wire_optional wire) (option_ok ok).
Proof.
  intros [a|] Ho; unfold read_optional; cbn [wire_optional option_ok] in *.
  - eapply reads_bind; [by apply read_bool_from|]. by apply reads_bind_ret, decodes_from.
  - rewrite <- (app_nil_r (wire_bool _)).
    eapply reads_bind; [by apply read_bool_from|apply reads_ret].
Qed.

#[export] Instance read_optional_sound `{!DecSafe dec, !DecodeSound dec wire ok} :
  DecodeSound (read_optional dec) (wire_optional wire) (option_ok ok).
Proof.
  intros d d' o Hd H. unfold read_optional in H. sound_step H as (d1 & b & _ & Hd1 & Hin & Hpos & H).
  destruct b.
  - apply bind_Ok_inv in H as (d2 & a & H & Hr). injection Hr as <- <-.
    apply (decode_sound _ _ _ Hd1) in H as [Ha Hp]. cbn [wire_optional option_ok]. split; [done|].
    autorewrite with zlen in *. lia.
  - injection H as <- <-. done.
Qed.

Context (enc : A → M Encoder XdrError unit).

Lemma writes_write_each `{!EncodesTo enc wire ok} l :
  Forall ok l → writes (write_each enc l) (wire_each wire l).
Proof.
  induction 1 as [|a l Ha _ IH]; simpl; [apply writes_ret|].
  rewrite wire_each_cons. eapply writes_bind; [|done]. intros e. by apply encodes_to.
Qed.

End containers.

Lemma writes_write_len len max :
  len ≤ max → len ≤ u32_max → writes (write_len len max) (wire_u32 len).
Proof.
  intros Hm Hu [b]. unfold write_len, checked_u32_len.
  destruct (Z.gtb_spec len max); [lia|]. destruct (Z.leb_spec len u32_max); [done|lia].
Qed.

Lemma writes_write_fixed_opaque bs : writes (write_fixed_opaque bs) (wire_fixed bs).
Proof.
  unfold write_fixed_opaque, wire_fixed. eapply writes_bind; [apply writes_extend|].
  unfold write_padding, wire_pad. pose proof (padding_len_range (zlen bs)) as Hr.
  assert (ztake (padding_len (zlen bs)) [x00; x00; x00]
          = replicate (Z.to_nat (padding_len (zlen bs))) x00) as ->; [|apply writes_extend].
  unfold ztake. assert (Z.to_nat (padding_len (zlen bs)) < 4)%nat as Hn by lia.
  destruct (Z.to_nat (padding_len (zlen bs))) as [|[|[|[|n]]]]; [done..|lia].
Qed.

#[export] Instance write_fixed_opaque_to : EncodesTo write_fixed_opaque wire_fixed (λ _, True).
Proof. intros bs e _. apply writes_write_fixed_opaque. Qed.

#[export] Instance write_opaque_to max :
  EncodesTo (λ bs, write_opaque bs max) wire_opaque (opaque_ok max).
Proof.
  intros bs e [Hm Hu].
  apply (writes_bind _ _ (wire_u32 (zlen bs)) (wire_fixed bs) tt);
    [by apply writes_write_len|apply writes_write_fixed_opaque].
Qed.

#[export] Instance write_string_to max :
  EncodesTo (λ s, write_string s max) wire_opaque (opaque_ok max).
Proof. apply write_opaque_to. Qed.

#[export] Instance write_array_to {A} (enc : A → M Encoder XdrError unit) wire ok max :
  EncodesTo enc wire ok → EncodesTo (λ l, write_array enc l max) (wire_array wire) (array_ok ok max).
Proof.
  intros He l e (Hm & Hu & Hf).
  apply (writes_bind _ _ (wire_u32 (zlen l)) (wire_each wire l) tt);
    [by apply writes_write_len|by eapply writes_write_each].
Qed.

#[export] Instance write_optional_to {A} (enc : A → M Encoder XdrError unit) wire ok :
  EncodesTo enc wire ok → EncodesTo (write_optional enc) (wire_optional wire) (option_ok ok).
Proof.
  intros He [a|] e Ho; unfold write_optional; simpl in *.
  - apply (writes_bind _ _ (wire_bool true) (wire a) tt); [done|]. intros e'. by apply He.
  - by destruct e.
Qed.

(** ** Reading backwards: what a successful read found in the input *)

(** The bytes not read yet. *)
Definition unread (d : Decoder) : list byte := zdrop (dec_position d) (dec_input d).

Lemma unread_new bs : unread (Decoder_new bs) = bs.
Proof. done. Qed.

Lemma zlen_unread d : dec_wf d → zlen (unread d) = remaining d.
Proof. intros [H _]. unfold unread, remaining. by rewrite zlen_drop. Qed.

Lemma dec_wf_new bs : zlen bs ≤ isize_max → dec_wf (Decoder_new bs).
Proof. unfold dec_wf; cbn. pose proof (zlen_nonneg bs). lia. Qed.

Lemma read_bytes_unread n d d' bs :
  0 ≤ n → dec_wf d → read_bytes n d = (d', Ok bs) →
  unread d = bs ++ unread d' ∧ zlen bs = n ∧ dec_wf d'.
Proof.
  intros Hn Hd H. destruct d as [input pos]. destruct Hd as [Hpos Hin]; cbn in Hpos, Hin.
  destruct (decide (pos + n ≤ zlen input)); [|by rewrite read_bytes_eof in H by lia].
  rewrite read_bytes_run in H by lia. injection H as <- <-. unfold unread; cbn.
  rewrite <- (zdrop_zdrop pos n) by lia. rewrite ztake_zdrop. split; [done|].
  split; [apply zlen_take; rewrite zlen_drop by lia; lia|].
  unfold dec_wf; cbn. lia.
Qed.

Lemma read_u32_unread d d' v :
  dec_wf d → read_u32 d = (d', Ok v) → unread d = wire_u32 v ++ unread d' ∧ is_u32 v ∧ dec_wf d'.
Proof.
  intros Hd H. pose proof (decode_sound _ _ _ Hd H) as [Hv _]. unfold read_u32 in H.
  apply bind_Ok_inv in H as (d1 & bs & H & Hr). injection Hr as <- <-.
  apply read_bytes_unread in H as (Hu & Hl & Hd'); [|lia|done].
  split; [|done]. rewrite Hu. f_equal. unfold wire_u32.
  assert (length bs = 4%nat) as Hl' by (unfold zlen in Hl; lia).
  rewrite <- Hl'. by rewrite be_bytes_be_Z.
Qed.

Lemma read_opaque_unread max d d' bs :
  dec_wf d → read_opaque max d = (d', Ok bs) →
  ∃ pad, unread d = wire_u32 (zlen bs) ++ bs ++ pad ++ unread d'
    ∧ zlen pad = padding_len (zlen bs) ∧ zlen bs ≤ max ∧ dec_wf d'.
Proof.
  intros Hd H. unfold read_opaque, read_len in H.
  apply bind_Ok_inv in H as (d2 & len & Hl & H).
  apply bind_Ok_inv in Hl as (d1 & v & Hu & Hl).
  apply read_u32_unread in Hu as (Hun & Hv & Hd1); [|done].
  destruct (Z.gtb_spec v max); [done|]. injection Hl as <- <-.
  unfold read_fixed_opaque, skip_padding in H.
  apply bind_Ok_inv in H as (d3 & val & Hb & H).
  apply read_bytes_unread in Hb as (Hun2 & Hlen & Hd3); [|apply Hv|done].
  apply bind_Ok_inv in H as (d4 & [] & Hp & H). injection H as <- <-.
  apply bind_Ok_inv in Hp as (d5 & pad & Hp & Hr). injection Hr as <-.
  apply read_bytes_unread in Hp as (Hun3 & Hplen & Hd5); [|apply padding_len_range|done].
  exists pad. rewrite Hun, Hun2, Hun3, Hlen. done.
Qed.

Lemma reads_read_opaque max bs pad :
  opaque_ok max bs → zlen pad = padding_len (zlen bs) →
  reads (read_opaque max) (wire_u32 (zlen bs) ++ bs ++ pad) bs.
Proof.
  intros [Hm Hu] Hp. unfold read_opaque. eapply reads_bind.
  - apply reads_read_len; [|done]. split; [apply zlen_nonneg|done].
  - by apply reads_read_fixed_opaque.
Qed.

(** ** Stepping through a message *)

(** A decoder that has read [pre] and has [rest] in front of it. *)
Definition dec_at (pre rest : list byte) : Decoder := mkDecoder (pre ++ rest) (zlen pre).

Lemma reads_at {E A} (m : M Decoder E A) bs a pre after :
  reads m bs a → zlen (pre ++ bs ++ after) ≤ isize_max →
  m (dec_at pre (bs ++ after)) = (dec_at (pre ++ bs) after, Ok a).
Proof. intros H Hl. unfold dec_at. rewrite H by done. by rewrite <- app_assoc. Qed.

Lemma reads_step {E A B} (m : M Decoder E A) (k : A → M Decoder E B) bs a pre after :
  reads m bs a → zlen (pre ++ bs ++ after) ≤ isize_max →
  (m ≫= k) (dec_at pre (bs ++ after)) = k a (dec_at (pre ++ bs) after).
Proof. intros H Hl. by rewrite (bind_run _ _ _ _ _ (reads_at _ _ _ _ _ H Hl)). Qed.

Lemma dec_at_new bs : Decoder_new bs = dec_at [] bs.
Proof. done. Qed.

Lemma finish_dec_at pre : finish (dec_at pre []) = (dec_at pre [], Ok tt).
Proof.
  unfold finish, is_finished, remaining, dec_at; cbn. by rewrite app_nil_r, Z.sub_diag.
Qed.

(** ** Whole values *)

Lemma to_bytes_wire {A} (enc : A → M Encoder XdrError unit) wire ok a :
  EncodesTo enc wire ok → ok a → to_bytes enc a = Ok (wire a).
Proof. intros He Ha. unfold to_bytes. by rewrite (He a Encoder_new Ha). Qed.

Lemma finish_at_end input : finish (mkDecoder input (zlen input)) = (mkDecoder input (zlen input), Ok tt).
Proof. unfold finish, is_finished, remaining; cbn. by rewrite Z.sub_diag. Qed.

Lemma reads_whole {E A} (m : M Decoder E A) bs a :
  zlen bs ≤ isize_max → reads m bs a →
  m (Decoder_new bs) = (mkDecoder bs (zlen bs), Ok a).
Proof.
  intros Hl H. specialize (H [] []). cbn [app] in H. rewrite app_nil_r in H.
  by specialize (H Hl).
Qed.

Lemma from_bytes_wire {A} (dec : M Decoder XdrError A) wire ok a :
  DecodesFrom dec wire ok → ok a → zlen (wire a) ≤ isize_max → from_bytes dec (wire a) = Ok a.
Proof.
  intros Hd Ha Hl. unfold from_bytes.
  rewrite (bind_run _ _ _ _ _ (reads_whole _ _ _ Hl (Hd a Ha))).
  by rewrite (bind_run _ _ _ _ _ (finish_at_end _)).
Qed.

(** A value followed by anything is not a complete encoding of it. *)
Lemma from_bytes_trailing {A} (dec : M Decoder XdrError A) wire ok a extra :
  DecodesFrom dec wire ok → ok a → extra ≠ [] → zlen (wire a ++ extra) ≤ isize_max →
  from_bytes dec (wire a ++ extra) = Err (TrailingBytes (zlen extra)).
Proof.
  intros Hd Ha Hne Hl. unfold from_bytes.
  rewrite (bind_run _ _ _ _ _ (Hd a Ha [] extra Hl)).
  unfold finish, is_finished, remaining. cbn [app dec_input dec_position].
  assert (zlen extra ≠ 0) by (intros ?%zlen_zero; done).
  unfold mbind, M_bind; cbn [dec_input dec_position].
  destruct (Z.eqb_spec (zlen (wire a ++ extra) - zlen (wire a)) 0); [zlen_lia|].
  cbn. do 2 f_equal. zlen_lia.
Qed.
