(* ===== verification/XdrList.v ===== *)
(** * Linked lists on the wire

    XDR has no list type: protocols send each element behind a presence flag
    and end the list with [false].  The decoders of directory listings
    (src/src/v3/proto.rs, [decode_dir_entries]) and of the MOUNT lists
    (src/src/v3/mount.rs, [decode_linked_list]) are the same loop,
    [linked_step], with different limits; its laws are proved once here. *)

From Stdlib Require Import Strings.String Strings.Byte.
From S2P Require Import Prelude Text Xdr XdrSpec.

#[local] Open Scope Z_scope.

Lemma reads_bind_last {E A B} (m : M Decoder E A) (k : A → M Decoder E B) bs a b :
  reads m bs a → reads (k a) [] b → reads (m ≫= k) bs b.
Proof. intros Hm Hk. rewrite <- (app_nil_r bs). by eapply reads_bind. Qed.

Lemma reads_loop_continue {E L A} (body : L → M Decoder E (L + A)) fuel l l' bs1 bs2 a :
  reads (body l) bs1 (inl l') → 1 < Zpos fuel → reads (loop (Pos.pred fuel) body l') bs2 a →
  reads (loop fuel body l) (bs1 ++ bs2) a.
Proof.
  intros Hb Hf Hr pre after Hlen. rewrite <- (app_assoc bs1) in *.
  rewrite (loop_continue _ _ _ _ _ _ (Hb pre _ Hlen) Hf).
  rewrite (app_assoc pre) in Hlen |- *. rewrite (Hr (pre ++ bs1) after Hlen). by rewrite !app_assoc.
Qed.

Lemma reads_loop_break {E L A} (body : L → M Decoder E (L + A)) fuel l bs a :
  reads (body l) bs (inr a) → reads (loop fuel body l) bs a.
Proof. intros Hb pre after Hlen. by apply loop_break, Hb. Qed.

Lemma dec_safe_post {E A} (m : M Decoder E A) :
  DecSafe m ↔ ∀ d, dec_wf d → post m d (λ _ d', dec_step d d') (λ _ d', dec_step d d').
Proof.
  unfold DecSafe, post, fault_free. split; intros H d Hd; specialize (H d Hd).
  - destruct H as [Hs Hf]. destruct (m d) as [d' [a|e|f]]; [done|done|by destruct (Hf f)].
  - by destruct (m d) as [d' [a|e|f]].
Qed.

Lemma post_dec_safe {E A} (m : M Decoder E A) `{!DecSafe m} d :
  dec_wf d → post m d (λ _ d', dec_step d d') (λ _ d', dec_step d d').
Proof. by apply dec_safe_post. Qed.

Fixpoint wire_linked {A} (wire : A → list byte) (l : list A) : list byte :=
  match l with
  | [] => wire_bool false
  | a :: rest => (wire_bool true ++ wire a) ++ wire_linked wire rest
  end.

Section linked.
Context {A : Type} (dec : M Decoder XdrError A) (full : list A → bool) (err : list A → XdrError).
Context (max : Z) (Hfull : ∀ acc, zlen acc ≤ max → full acc = (zlen acc =? max)).

(** One turn of the loop. *)
Definition linked_step (acc : list A) : M Decoder XdrError (list A + list A) :=
  more ← read_bool;
  if (more : bool) then
    if full acc then throw (err acc) else
    a ← dec;
    continue_ (acc ++ [a])
  else break_ acc.

Section reads.
Context (wire : A → list byte) (ok : A → Prop) `{!DecodesFrom dec wire ok}.

Lemma reads_linked_step acc a :
  zlen acc < max → ok a → reads (linked_step acc) (wire_bool true ++ wire a) (inl (acc ++ [a])).
Proof using Hfull DecodesFrom0.
  intros Hl Ha. unfold linked_step. eapply reads_bind; [by apply read_bool_from|]. cbv beta iota.
  rewrite Hfull by lia. destruct (Z.eqb_spec (zlen acc) max); [lia|].
  eapply reads_bind_last; [by apply decodes_from|]. apply reads_ret.
Qed.

Lemma reads_linked l acc fuel :
  Forall ok l → zlen acc + zlen l ≤ max → zlen l < Zpos fuel →
  reads (loop fuel linked_step acc) (wire_linked wire l) (acc ++ l).
Proof using Hfull DecodesFrom0.
  intros Hl. revert acc fuel. induction Hl as [|a l Ha _ IH]; intros acc fuel Hmax Hfuel.
  - apply reads_loop_break. rewrite app_nil_r. unfold linked_step.
    eapply reads_bind_last; [by apply read_bool_from|]. apply reads_ret.
  - rewrite zlen_cons in *. pose proof (zlen_nonneg l). cbn [wire_linked].
    eapply reads_loop_continue; [apply reads_linked_step; [lia|done]|lia|].
    replace (acc ++ a :: l) with ((acc ++ [a]) ++ l) by by rewrite <- app_assoc.
    apply IH; [|lia]. rewrite zlen_app, zlen_cons, zlen_nil. lia.
Qed.

End reads.

Context `{!DecSafe dec}.

Lemma post_linked_step acc d :
  dec_wf d → zlen acc ≤ max →
  post (linked_step acc) d
    (λ r d', dec_step d d' ∧
       match r with
       | inl acc' => zlen acc' = zlen acc + 1 ∧ zlen acc < max
       | inr l => zlen l ≤ max
       end)
    (λ _ d', dec_step d d').
Proof using Hfull DecSafe0.
  intros Hd Hl. unfold linked_step. apply post_bind.
  eapply post_mono; [by apply post_dec_safe; [apply _|]|cbv beta|done]. intros more d1 Hd1.
  destruct more; [|by apply post_ret].
  rewrite Hfull by done. destruct (Z.eqb_spec (zlen acc) max); [by apply post_throw|].
  apply post_bind. eapply post_mono; [apply post_dec_safe; [apply _|apply Hd1]|cbv beta|].
  - intros a d2 Hd2. apply post_ret. split; [by etrans|]. rewrite zlen_app, zlen_cons, zlen_nil. lia.
  - intros e d2 Hd2. by etrans.
Qed.

(** The loop ends on every input, within its limit. *)
Lemma post_linked fuel d :
  dec_wf d → 0 ≤ max < Zpos fuel →
  post (loop fuel linked_step []) d (λ l d', dec_step d d' ∧ zlen l ≤ max) (λ _ d', dec_step d d').
Proof using Hfull DecSafe0.
  intros Hd Hmax.
  apply (post_loop (λ l d', dec_step d d' ∧ zlen l ≤ max) (λ l _, max - zlen l)).
  - intros l d' [_ H]. lia.
  - intros l d' [Hs Hl].
    eapply post_mono; [apply post_linked_step; [apply Hs|done]|cbv beta|].
    + intros [l'|l'] d2 [Hs2 Hl2]; [|split; [by etrans|done]].
      split; [split; [by etrans|lia]|lia].
    + intros e d2 Hs2. by etrans.
  - split; [by apply dec_step_refl|]. rewrite zlen_nil. lia.
  - rewrite zlen_nil. lia.
Qed.

Lemma dec_safe_linked fuel : 0 ≤ max < Zpos fuel → DecSafe (loop fuel linked_step []).
Proof using Hfull DecSafe0.
  intros Hmax. apply dec_safe_post. intros d Hd.
  eapply post_mono; [by apply post_linked| |done]. by intros l d' [? _].
Qed.

Lemma linked_bounded fuel d d' l :
  0 ≤ max < Zpos fuel → dec_wf d → loop fuel linked_step [] d = (d', Ok l) → zlen l ≤ max.
Proof using Hfull DecSafe0.
  intros Hmax Hd H. pose proof (post_linked fuel d Hd Hmax) as Hp. unfold post in Hp.
  rewrite H in Hp. apply Hp.
Qed.

End linked.
