(* ===== verification/Status.v ===== *)
(** * Status codes and operation numbers

    The protocol enumerations with their conversions to and from the numbers
    on the wire: NFSv4 [Status] and [OpCode] (src/src/v4/proto.rs), NFSv3
    [NfsStatus] (src/src/v3/proto.rs) and MOUNT [MountStatus]
    (src/src/v3/mount.rs).  Numbers the client does not know are kept in
    [Unknown], so no status is lost. *)

From Stdlib Require Import Strings.String.
From S2P Require Import Prelude.

#[local] Open Scope Z_scope.

Module Status.

Inductive Status :=
  | Ok | Perm | NoEnt | Io | Nxio | Access | Exist | Xdev | NotDir | IsDir | Inval | Fbig
  | NoSpc | ReadOnlyFs | Mlink | NameTooLong | NotEmpty | Dquot | Stale | Same | Denied
  | Expired | Locked | Grace | FhExpired | ShareDenied | BadHandle | BadCookie
  | NotSupported | TooSmall | ServerFault | BadType | Delay | ClidInUse | Resource
  | Moved | StaleClientId | StaleStateId | OldStateId | BadStateId | BadSeqId | NotSame
  | LockRange | Symlink | RestoreFh | LeaseMoved | AttrNotSupp | NoGrace | ReclaimBad
  | ReclaimConflict | BadXdr | LocksHeld | OpenMode | BadOwner | BadChar | BadName
  | BadRange | LockNotSupp | OpIllegal | Deadlock | FileOpen | WrongSec | NoFileHandle
  | MinorVersionMismatch | AdminRevoked | CbPathDown | BadIoMode | BadLayout
  | BadSessionDigest | BadSession | BadSlot | CompleteAlready | ConnNotBoundToSession
  | DelegAlreadyWanted | BackChanBusy | LayoutTryLater | LayoutUnavailable
  | NoMatchingLayout | RecallConflict | UnknownLayoutType | SeqMisordered | SequencePos
  | ReqTooBig | RepTooBig | RepTooBigToCache | RetryUncachedRep | UnsafeCompound
  | TooManyOps | SeqFalseRetry | OpNotInSession | HashAlgUnsupported | ClientIdBusy
  | BadHighSlot | DeadSession | EncrAlgUnsupported | PnfsIoHole | PnfsNoLayout
  | NotOnlyOp | WrongCred | WrongType | DirDelegUnavailable | RejectDeleg
  | ReturnConflict | DelegRevoked | PartnerNotSupp | PartnerNoAuth | UnionNotSupported
  | OffloadDenied | WrongLfs | BadLabel | OffloadNoReqs | Unknown (value : Z).

Definition from_u32 (value : Z) : Status :=
  match value with
  | 0 => Ok
  | 1 => Perm
  | 2 => NoEnt
  | 5 => Io
  | 6 => Nxio
  | 13 => Access
  | 17 => Exist
  | 18 => Xdev
  | 20 => NotDir
  | 21 => IsDir
  | 22 => Inval
  | 27 => Fbig
  | 28 => NoSpc
  | 30 => ReadOnlyFs
  | 31 => Mlink
  | 63 => NameTooLong
  | 66 => NotEmpty
  | 69 => Dquot
  | 70 => Stale
  | 10009 => Same
  | 10010 => Denied
  | 10011 => Expired
  | 10012 => Locked
  | 10013 => Grace
  | 10014 => FhExpired
  | 10015 => ShareDenied
  | 10001 => BadHandle
  | 10003 => BadCookie
  | 10004 => NotSupported
  | 10005 => TooSmall
  | 10006 => ServerFault
  | 10007 => BadType
  | 10008 => Delay
  | 10017 => ClidInUse
  | 10018 => Resource
  | 10019 => Moved
  | 10022 => StaleClientId
  | 10023 => StaleStateId
  | 10024 => OldStateId
  | 10025 => BadStateId
  | 10026 => BadSeqId
  | 10027 => NotSame
  | 10028 => LockRange
  | 10029 => Symlink
  | 10030 => RestoreFh
  | 10031 => LeaseMoved
  | 10032 => AttrNotSupp
  | 10033 => NoGrace
  | 10034 => ReclaimBad
  | 10035 => ReclaimConflict
  | 10036 => BadXdr
  | 10037 => LocksHeld
  | 10038 => OpenMode
  | 10039 => BadOwner
  | 10040 => BadChar
  | 10041 => BadName
  | 10042 => BadRange
  | 10043 => LockNotSupp
  | 10044 => OpIllegal
  | 10045 => Deadlock
  | 10046 => FileOpen
  | 10016 => WrongSec
  | 10020 => NoFileHandle
  | 10021 => MinorVersionMismatch
  | 10047 => AdminRevoked
  | 10048 => CbPathDown
  | 10049 => BadIoMode
  | 10050 => BadLayout
  | 10051 => BadSessionDigest
  | 10052 => BadSession
  | 10053 => BadSlot
  | 10054 => CompleteAlready
  | 10055 => ConnNotBoundToSession
  | 10056 => DelegAlreadyWanted
  | 10057 => BackChanBusy
  | 10058 => LayoutTryLater
  | 10059 => LayoutUnavailable
  | 10060 => NoMatchingLayout
  | 10061 => RecallConflict
  | 10062 => UnknownLayoutType
  | 10063 => SeqMisordered
  | 10064 => SequencePos
  | 10065 => ReqTooBig
  | 10066 => RepTooBig
  | 10067 => RepTooBigToCache
  | 10068 => RetryUncachedRep
  | 10069 => UnsafeCompound
  | 10070 => TooManyOps
  | 10076 => SeqFalseRetry
  | 10071 => OpNotInSession
  | 10072 => HashAlgUnsupported
  | 10074 => ClientIdBusy
  | 10077 => BadHighSlot
  | 10078 => DeadSession
  | 10079 => EncrAlgUnsupported
  | 10075 => PnfsIoHole
  | 10080 => PnfsNoLayout
  | 10081 => NotOnlyOp
  | 10082 => WrongCred
  | 10083 => WrongType
  | 10084 => DirDelegUnavailable
  | 10085 => RejectDeleg
  | 10086 => ReturnConflict
  | 10087 => DelegRevoked
  | 10088 => PartnerNotSupp
  | 10089 => PartnerNoAuth
  | 10090 => UnionNotSupported
  | 10091 => OffloadDenied
  | 10092 => WrongLfs
  | 10093 => BadLabel
  | 10094 => OffloadNoReqs
  | _ => Unknown value
  end.

Definition as_u32 (self : Status) : Z :=
  match self with
  | Ok => 0
  | Perm => 1
  | NoEnt => 2
  | Io => 5
  | Nxio => 6
  | Access => 13
  | Exist => 17
  | Xdev => 18
  | NotDir => 20
  | IsDir => 21
  | Inval => 22
  | Fbig => 27
  | NoSpc => 28
  | ReadOnlyFs => 30
  | Mlink => 31
  | NameTooLong => 63
  | NotEmpty => 66
  | Dquot => 69
  | Stale => 70
  | Same => 10009
  | Denied => 10010
  | Expired => 10011
  | Locked => 10012
  | Grace => 10013
  | FhExpired => 10014
  | ShareDenied => 10015
  | BadHandle => 10001
  | BadCookie => 10003
  | NotSupported => 10004
  | TooSmall => 10005
  | ServerFault => 10006
  | BadType => 10007
  | Delay => 10008
  | ClidInUse => 10017
  | Resource => 10018
  | Moved => 10019
  | StaleClientId => 10022
  | StaleStateId => 10023
  | OldStateId => 10024
  | BadStateId => 10025
  | BadSeqId => 10026
  | NotSame => 10027
  | LockRange => 10028
  | Symlink => 10029
  | RestoreFh => 10030
  | LeaseMoved => 10031
  | AttrNotSupp => 10032
  | NoGrace => 10033
  | ReclaimBad => 10034
  | ReclaimConflict => 10035
  | BadXdr => 10036
  | LocksHeld => 10037
  | OpenMode => 10038
  | BadOwner => 10039
  | BadChar => 10040
  | BadName => 10041
  | BadRange => 10042
  | LockNotSupp => 10043
  | OpIllegal => 10044
  | Deadlock => 10045
  | FileOpen => 10046
  | WrongSec => 10016
  | NoFileHandle => 10020
  | MinorVersionMismatch => 10021
  | AdminRevoked => 10047
  | CbPathDown => 10048
  | BadIoMode => 10049
  | BadLayout => 10050
  | BadSessionDigest => 10051
  | BadSession => 10052
  | BadSlot => 10053
  | CompleteAlready => 10054
  | ConnNotBoundToSession => 10055
  | DelegAlreadyWanted => 10056
  | BackChanBusy => 10057
  | LayoutTryLater => 10058
  | LayoutUnavailable => 10059
  | NoMatchingLayout => 10060
  | RecallConflict => 10061
  | UnknownLayoutType => 10062
  | SeqMisordered => 10063
  | SequencePos => 10064
  | ReqTooBig => 10065
  | RepTooBig => 10066
  | RepTooBigToCache => 10067
  | RetryUncachedRep => 10068
  | UnsafeCompound => 10069
  | TooManyOps => 10070
  | SeqFalseRetry => 10076
  | OpNotInSession => 10071
  | HashAlgUnsupported => 10072
  | ClientIdBusy => 10074
  | BadHighSlot => 10077
  | DeadSession => 10078
  | EncrAlgUnsupported => 10079
  | PnfsIoHole => 10075
  | PnfsNoLayout => 10080
  | NotOnlyOp => 10081
  | WrongCred => 10082
  | WrongType => 10083
  | DirDelegUnavailable => 10084
  | RejectDeleg => 10085
  | ReturnConflict => 10086
  | DelegRevoked => 10087
  | PartnerNotSupp => 10088
  | PartnerNoAuth => 10089
  | UnionNotSupported => 10090
  | OffloadDenied => 10091
  | WrongLfs => 10092
  | BadLabel => 10093
  | OffloadNoReqs => 10094
  | Unknown value => value
  end.

(** A status as a pair that determines it: its number, and whether it is [Unknown]. *)
Definition tag (self : Status) : bool * Z :=
  (match self with Unknown _ => true | _ => false end, as_u32 self).

Lemma untag_tag s : (if (tag s).1 then Unknown (tag s).2 else from_u32 (tag s).2) = s.
Proof. by destruct s. Qed.

#[global] Instance Status_eq_dec : EqDecision Status.
Proof.
  intros s t. refine (cast_if (decide (tag s = tag t))); [|congruence].
  rewrite <- (untag_tag s), <- (untag_tag t). by match goal with H : tag s = tag t |- _ => rewrite H end.
Defined.

Definition is_ok (self : Status) : bool := bool_decide (self = Ok).

Definition is_retryable (self : Status) : bool :=
  match self with
  | Delay | Grace => true
  | _ => false
  end.

Definition requires_session_recovery (self : Status) : bool :=
  match self with
  | BadSession | ConnNotBoundToSession | DeadSession | StaleClientId
  | Expired => true
  | _ => false
  end.

Definition indicates_lost_state (self : Status) : bool :=
  match self with
  | AdminRevoked | BadStateId | DelegRevoked | Expired
  | LeaseMoved | NoGrace | OldStateId | ReclaimBad
  | ReclaimConflict | StaleClientId | StaleStateId => true
  | _ => false
  end.

End Status.

Module OpCode.

Inductive OpCode :=
  | Access | Close | Commit | Create | DelegPurge | DelegReturn | GetAttr | GetFh | Link
  | Lock | Lockt | Locku | Lookup | Lookupp | NVerify | Open | OpenAttr | OpenConfirm
  | OpenDowngrade | PutFh | PutPubFh | PutRootFh | Read | ReadDir | ReadLink | Remove
  | Rename | Renew | RestoreFh | SaveFh | SecInfo | SetAttr | SetClientId
  | SetClientIdConfirm | Verify | Write | ReleaseLockOwner | BackchannelCtl
  | BindConnToSession | ExchangeId | CreateSession | DestroySession | FreeStateId
  | GetDirDelegation | GetDeviceInfo | GetDeviceList | LayoutCommit | LayoutGet
  | LayoutReturn | SecInfoNoName | Sequence | SetSsv | TestStateId | WantDelegation
  | DestroyClientId | ReclaimComplete | Allocate | Copy | CopyNotify | Deallocate
  | IoAdvise | LayoutError | LayoutStats | OffloadCancel | OffloadStatus | ReadPlus
  | Seek | WriteSame | Clone | Illegal.

Definition from_u32 (value : Z) : option OpCode :=
  match value with
  | 3 => Some Access
  | 4 => Some Close
  | 5 => Some Commit
  | 6 => Some Create
  | 7 => Some DelegPurge
  | 8 => Some DelegReturn
  | 9 => Some GetAttr
  | 10 => Some GetFh
  | 11 => Some Link
  | 12 => Some Lock
  | 13 => Some Lockt
  | 14 => Some Locku
  | 15 => Some Lookup
  | 16 => Some Lookupp
  | 17 => Some NVerify
  | 18 => Some Open
  | 19 => Some OpenAttr
  | 20 => Some OpenConfirm
  | 21 => Some OpenDowngrade
  | 22 => Some PutFh
  | 23 => Some PutPubFh
  | 24 => Some PutRootFh
  | 25 => Some Read
  | 26 => Some ReadDir
  | 27 => Some ReadLink
  | 28 => Some Remove
  | 29 => Some Rename
  | 30 => Some Renew
  | 31 => Some RestoreFh
  | 32 => Some SaveFh
  | 33 => Some SecInfo
  | 34 => Some SetAttr
  | 35 => Some SetClientId
  | 36 => Some SetClientIdConfirm
  | 37 => Some Verify
  | 38 => Some Write
  | 39 => Some ReleaseLockOwner
  | 40 => Some BackchannelCtl
  | 41 => Some BindConnToSession
  | 42 => Some ExchangeId
  | 43 => Some CreateSession
  | 44 => Some DestroySession
  | 45 => Some FreeStateId
  | 46 => Some GetDirDelegation
  | 47 => Some GetDeviceInfo
  | 48 => Some GetDeviceList
  | 49 => Some LayoutCommit
  | 50 => Some LayoutGet
  | 51 => Some LayoutReturn
  | 52 => Some SecInfoNoName
  | 53 => Some Sequence
  | 54 => Some SetSsv
  | 55 => Some TestStateId
  | 56 => Some WantDelegation
  | 57 => Some DestroyClientId
  | 58 => Some ReclaimComplete
  | 59 => Some Allocate
  | 60 => Some Copy
  | 61 => Some CopyNotify
  | 62 => Some Deallocate
  | 63 => Some IoAdvise
  | 64 => Some LayoutError
  | 65 => Some LayoutStats
  | 66 => Some OffloadCancel
  | 67 => Some OffloadStatus
  | 68 => Some ReadPlus
  | 69 => Some Seek
  | 70 => Some WriteSame
  | 71 => Some Clone
  | 10044 => Some Illegal
  | _ => None
  end.

(** [self as u32]: the declared discriminants. *)
Definition as_u32 (self : OpCode) : Z :=
  match self with
  | Access => 3
  | Close => 4
  | Commit => 5
  | Create => 6
  | DelegPurge => 7
  | DelegReturn => 8
  | GetAttr => 9
  | GetFh => 10
  | Link => 11
  | Lock => 12
  | Lockt => 13
  | Locku => 14
  | Lookup => 15
  | Lookupp => 16
  | NVerify => 17
  | Open => 18
  | OpenAttr => 19
  | OpenConfirm => 20
  | OpenDowngrade => 21
  | PutFh => 22
  | PutPubFh => 23
  | PutRootFh => 24
  | Read => 25
  | ReadDir => 26
  | ReadLink => 27
  | Remove => 28
  | Rename => 29
  | Renew => 30
  | RestoreFh => 31
  | SaveFh => 32
  | SecInfo => 33
  | SetAttr => 34
  | SetClientId => 35
  | SetClientIdConfirm => 36
  | Verify => 37
  | Write => 38
  | ReleaseLockOwner => 39
  | BackchannelCtl => 40
  | BindConnToSession => 41
  | ExchangeId => 42
  | CreateSession => 43
  | DestroySession => 44
  | FreeStateId => 45
  | GetDirDelegation => 46
  | GetDeviceInfo => 47
  | GetDeviceList => 48
  | LayoutCommit => 49
  | LayoutGet => 50
  | LayoutReturn => 51
  | SecInfoNoName => 52
  | Sequence => 53
  | SetSsv => 54
  | TestStateId => 55
  | WantDelegation => 56
  | DestroyClientId => 57
  | ReclaimComplete => 58
  | Allocate => 59
  | Copy => 60
  | CopyNotify => 61
  | Deallocate => 62
  | IoAdvise => 63
  | LayoutError => 64
  | LayoutStats => 65
  | OffloadCancel => 66
  | OffloadStatus => 67
  | ReadPlus => 68
  | Seek => 69
  | WriteSame => 70
  | Clone => 71
  | Illegal => 10044
  end.

#[local] Open Scope string_scope.

Definition name (self : OpCode) : string :=
  match self with
  | Access => "ACCESS"
  | Close => "CLOSE"
  | Commit => "COMMIT"
  | Create => "CREATE"
  | DelegPurge => "DELEGPURGE"
  | DelegReturn => "DELEGRETURN"
  | GetAttr => "GETATTR"
  | GetFh => "GETFH"
  | Link => "LINK"
  | Lock => "LOCK"
  | Lockt => "LOCKT"
  | Locku => "LOCKU"
  | Lookup => "LOOKUP"
  | Lookupp => "LOOKUPP"
  | NVerify => "NVERIFY"
  | Open => "OPEN"
  | OpenAttr => "OPENATTR"
  | OpenConfirm => "OPEN_CONFIRM"
  | OpenDowngrade => "OPEN_DOWNGRADE"
  | PutFh => "PUTFH"
  | PutPubFh => "PUTPUBFH"
  | PutRootFh => "PUTROOTFH"
  | Read => "READ"
  | ReadDir => "READDIR"
  | ReadLink => "READLINK"
  | Remove => "REMOVE"
  | Rename => "RENAME"
  | Renew => "RENEW"
  | RestoreFh => "RESTOREFH"
  | SaveFh => "SAVEFH"
  | SecInfo => "SECINFO"
  | SetAttr => "SETATTR"
  | SetClientId => "SETCLIENTID"
  | SetClientIdConfirm => "SETCLIENTID_CONFIRM"
  | Verify => "VERIFY"
  | Write => "WRITE"
  | ReleaseLockOwner => "RELEASE_LOCKOWNER"
  | BackchannelCtl => "BACKCHANNEL_CTL"
  | BindConnToSession => "BIND_CONN_TO_SESSION"
  | ExchangeId => "EXCHANGE_ID"
  | CreateSession => "CREATE_SESSION"
  | DestroySession => "DESTROY_SESSION"
  | FreeStateId => "FREE_STATEID"
  | GetDirDelegation => "GET_DIR_DELEGATION"
  | GetDeviceInfo => "GETDEVICEINFO"
  | GetDeviceList => "GETDEVICELIST"
  | LayoutCommit => "LAYOUTCOMMIT"
  | LayoutGet => "LAYOUTGET"
  | LayoutReturn => "LAYOUTRETURN"
  | SecInfoNoName => "SECINFO_NO_NAME"
  | Sequence => "SEQUENCE"
  | SetSsv => "SET_SSV"
  | TestStateId => "TEST_STATEID"
  | WantDelegation => "WANT_DELEGATION"
  | DestroyClientId => "DESTROY_CLIENTID"
  | ReclaimComplete => "RECLAIM_COMPLETE"
  | Allocate => "ALLOCATE"
  | Copy => "COPY"
  | CopyNotify => "COPY_NOTIFY"
  | Deallocate => "DEALLOCATE"
  | IoAdvise => "IO_ADVISE"
  | LayoutError => "LAYOUTERROR"
  | LayoutStats => "LAYOUTSTATS"
  | OffloadCancel => "OFFLOAD_CANCEL"
  | OffloadStatus => "OFFLOAD_STATUS"
  | ReadPlus => "READ_PLUS"
  | Seek => "SEEK"
  | WriteSame => "WRITE_SAME"
  | Clone => "CLONE"
  | Illegal => "ILLEGAL"
  end.

Lemma from_as_u32 op : from_u32 (as_u32 op) = Some op.
Proof. by destruct op. Qed.

#[global] Instance OpCode_eq_dec : EqDecision OpCode.
Proof.
  intros a b. refine (cast_if (decide (as_u32 a = as_u32 b))); [|congruence].
  pose proof (from_as_u32 a). pose proof (from_as_u32 b). congruence.
Defined.

End OpCode.

Module NfsStatus.

Inductive NfsStatus :=
  | Ok | Perm | NoEnt | Io | Nxio | Access | Exist | Xdev | Nodev | NotDir | IsDir
  | Inval | Fbig | NoSpc | ReadOnlyFs | Mlink | NameTooLong | NotEmpty | Dquot | Stale
  | Remote | BadHandle | NotSync | BadCookie | NotSupported | TooSmall | ServerFault
  | BadType | Jukebox | Unknown (value : Z).

Definition from_u32 (value : Z) : NfsStatus :=
  match value with
  | 0 => Ok
  | 1 => Perm
  | 2 => NoEnt
  | 5 => Io
  | 6 => Nxio
  | 13 => Access
  | 17 => Exist
  | 18 => Xdev
  | 19 => Nodev
  | 20 => NotDir
  | 21 => IsDir
  | 22 => Inval
  | 27 => Fbig
  | 28 => NoSpc
  | 30 => ReadOnlyFs
  | 31 => Mlink
  | 63 => NameTooLong
  | 66 => NotEmpty
  | 69 => Dquot
  | 70 => Stale
  | 71 => Remote
  | 10001 => BadHandle
  | 10002 => NotSync
  | 10003 => BadCookie
  | 10004 => NotSupported
  | 10005 => TooSmall
  | 10006 => ServerFault
  | 10007 => BadType
  | 10008 => Jukebox
  | _ => Unknown value
  end.

Definition as_u32 (self : NfsStatus) : Z :=
  match self with
  | Ok => 0
  | Perm => 1
  | NoEnt => 2
  | Io => 5
  | Nxio => 6
  | Access => 13
  | Exist => 17
  | Xdev => 18
  | Nodev => 19
  | NotDir => 20
  | IsDir => 21
  | Inval => 22
  | Fbig => 27
  | NoSpc => 28
  | ReadOnlyFs => 30
  | Mlink => 31
  | NameTooLong => 63
  | NotEmpty => 66
  | Dquot => 69
  | Stale => 70
  | Remote => 71
  | BadHandle => 10001
  | NotSync => 10002
  | BadCookie => 10003
  | NotSupported => 10004
  | TooSmall => 10005
  | ServerFault => 10006
  | BadType => 10007
  | Jukebox => 10008
  | Unknown value => value
  end.

#[global] Instance NfsStatus_eq_dec : EqDecision NfsStatus.
Proof. solve_decision. Defined.

End NfsStatus.

Module MountStatus.

Inductive MountStatus :=
  | Ok | Perm | NoEnt | Io | Access | NotDir | Invalid | NameTooLong | NotSupported
  | ServerFault | Unknown (value : Z).

Definition from_u32 (value : Z) : MountStatus :=
  match value with
  | 0 => Ok
  | 1 => Perm
  | 2 => NoEnt
  | 5 => Io
  | 13 => Access
  | 20 => NotDir
  | 22 => Invalid
  | 63 => NameTooLong
  | 10004 => NotSupported
  | 10006 => ServerFault
  | _ => Unknown value
  end.

(** The declared discriminants ([#[repr(u32)]]), [Unknown] carrying its number. *)
Definition code (self : MountStatus) : Z :=
  match self with
  | Ok => 0
  | Perm => 1
  | NoEnt => 2
  | Io => 5
  | Access => 13
  | NotDir => 20
  | Invalid => 22
  | NameTooLong => 63
  | NotSupported => 10004
  | ServerFault => 10006
  | Unknown value => value
  end.

#[global] Instance MountStatus_eq_dec : EqDecision MountStatus.
Proof. solve_decision. Defined.

End MountStatus.

(** ** Conversions *)

(** Case analysis on a number below [2 ^ 15]: every arm of a conversion. *)
Ltac code_cases v :=
  let p := fresh "p" in
  destruct v as [|p|p]; [done| |done];
  do 15 (try (destruct p as [p|p|]; try done)).

Lemma Status_as_from v : Status.as_u32 (Status.from_u32 v) = v.
Proof. code_cases v. Qed.

Lemma NfsStatus_as_from v : NfsStatus.as_u32 (NfsStatus.from_u32 v) = v.
Proof. code_cases v. Qed.

Lemma MountStatus_code_from v : MountStatus.code (MountStatus.from_u32 v) = v.
Proof. code_cases v. Qed.

Lemma OpCode_as_from v op : OpCode.from_u32 v = Some op → OpCode.as_u32 op = v.
Proof. intros H. revert H. code_cases v; by intros [= <-]. Qed.

Lemma NfsStatus_from_as s :
  (∀ v, s ≠ NfsStatus.Unknown v) → NfsStatus.from_u32 (NfsStatus.as_u32 s) = s.
Proof. intros H. destruct s; try done. by destruct (H value). Qed.

Lemma Status_from_as s :
  (∀ v, s ≠ Status.Unknown v) → Status.from_u32 (Status.as_u32 s) = s.
Proof. intros H. destruct s; try done. by destruct (H value). Qed.

Lemma NfsStatus_from_Ok v : NfsStatus.from_u32 v = NfsStatus.Ok ↔ v = 0.
Proof.
  split; [|by intros ->]. intros H. rewrite <- (NfsStatus_as_from v), H. done.
Qed.

(** A status that only asks for a delay never asks for a new session, and
    neither does it report lost state. *)
Lemma Status_classes_disjoint s :
  Status.is_retryable s = true →
  Status.requires_session_recovery s = false ∧ Status.indicates_lost_state s = false.
Proof. by destruct s. Qed.
