(* ===== verification/Errors.v ===== *)
(** * Errors and retry policy (src/src/error.rs, src/src/retry.rs)

    The crate's [Error] with every variant, and the predicates applications
    branch on.  [io::Error] is represented by its kind, the only part of it
    the code looks at.  [RetryPolicy] is the backoff policy the clients retry
    with; a [Duration] is its number of nanoseconds. *)

From Stdlib Require Import Strings.String.
From stdpp Require Import strings.
From S2P Require Import Prelude Text Xdr Status.

#[local] Open Scope Z_scope.

(** [std::io::ErrorKind]: the kinds the code names, and the others. *)
Inductive ErrorKind :=
  | NotFound | PermissionDenied | AlreadyExists | InvalidInput
  | Interrupted | TimedOut | WouldBlock | UnexpectedEofKind
  | ConnectionAborted | ConnectionReset | ConnectionRefused | BrokenPipe | NotConnected
  | OtherKind (code : Z).

#[export] Instance ErrorKind_eq_dec : EqDecision ErrorKind.
Proof. solve_decision. Defined.

Inductive Error :=
  | Io (kind : ErrorKind)
  | Xdr (e : XdrError)
  | InvalidTarget (target : message)
  | InvalidPath (path : str)
  | NameTooLong (name : str) (max : Z)
  | LengthOutOfRange (len : Z)
  | Protocol (msg : message)
  | RpcConnectionInvalid
  | OutcomeUnknown (err : Error)
  | LockLost (status : Status.Status)
  | Cleanup (context : string) (primary cleanup : Error)
  | RpcMismatch (expected actual : Z)
  | RpcUnexpectedMessageType (value : Z)
  | RpcDenied (reject_stat detail : Z)
  | RpcAcceptedError (accept_stat : Z)
  | RpcProgramMismatch (low high : Z)
  | RpcRecordTooLarge (len max : Z)
  | PortUnavailable (program version : Z)
  | MountError (status : MountStatus.MountStatus)
  | Nfs (procedure : string) (status : NfsStatus.NfsStatus)
  | NfsV4 (operation : string) (status : Status.Status).

Definition is_retryable_io_error (kind : ErrorKind) : bool :=
  match kind with
  | Interrupted | TimedOut | WouldBlock | UnexpectedEofKind | ConnectionAborted
  | ConnectionReset | ConnectionRefused | BrokenPipe | NotConnected => true
  | _ => false
  end.

Fixpoint is_outcome_unknown (self : Error) : bool :=
  match self with
  | OutcomeUnknown _ => true
  | Cleanup _ primary _ => is_outcome_unknown primary
  | _ => false
  end.

Fixpoint is_transport_failure (self : Error) : bool :=
  match self with
  | RpcConnectionInvalid => true
  | Io kind => is_retryable_io_error kind
  | OutcomeUnknown err => is_transport_failure err
  | _ => false
  end.

Fixpoint is_not_found (self : Error) : bool :=
  match self with
  | Cleanup _ primary _ => is_not_found primary
  | Io kind => bool_decide (kind = NotFound)
  | MountError MountStatus.NoEnt => true
  | Nfs _ NfsStatus.NoEnt => true
  | NfsV4 _ Status.NoEnt => true
  | _ => false
  end.

Fixpoint is_permission_denied (self : Error) : bool :=
  match self with
  | Cleanup _ primary _ => is_permission_denied primary
  | Io kind => bool_decide (kind = PermissionDenied)
  | MountError (MountStatus.Perm | MountStatus.Access) => true
  | Nfs _ (NfsStatus.Perm | NfsStatus.Access) => true
  | NfsV4 _ (Status.Perm | Status.Access | Status.PartnerNoAuth | Status.WrongCred
            | Status.WrongSec) => true
  | _ => false
  end.

Fixpoint is_retryable (self : Error) : bool :=
  match self with
  | Cleanup _ primary _ => is_retryable primary
  | Io kind => is_retryable_io_error kind
  | Nfs _ NfsStatus.Jukebox => true
  | NfsV4 _ status => Status.is_retryable status
  | _ => false
  end.

Fixpoint requires_session_recovery (self : Error) : bool :=
  match self with
  | Cleanup _ primary cleanup =>
      requires_session_recovery primary || requires_session_recovery cleanup
  | NfsV4 _ status => Status.requires_session_recovery status
  | _ => false
  end.

Fixpoint is_no_space (self : Error) : bool :=
  match self with
  | Cleanup _ primary _ => is_no_space primary
  | Nfs _ (NfsStatus.NoSpc | NfsStatus.Dquot) => true
  | NfsV4 _ (Status.NoSpc | Status.Dquot) => true
  | _ => false
  end.

Fixpoint is_read_only (self : Error) : bool :=
  match self with
  | Cleanup _ primary _ => is_read_only primary
  | Nfs _ NfsStatus.ReadOnlyFs => true
  | NfsV4 _ Status.ReadOnlyFs => true
  | _ => false
  end.

Fixpoint is_stale_handle (self : Error) : bool :=
  match self with
  | Cleanup _ primary _ => is_stale_handle primary
  | Nfs _ (NfsStatus.Stale | NfsStatus.BadHandle) => true
  | NfsV4 _ (Status.Stale | Status.BadHandle | Status.FhExpired) => true
  | _ => false
  end.

Fixpoint is_lost_state (self : Error) : bool :=
  match self with
  | LockLost _ => true
  | Cleanup _ primary cleanup => is_lost_state primary || is_lost_state cleanup
  | NfsV4 _ status => Status.indicates_lost_state status
  | _ => false
  end.

Fixpoint is_session_recoverable (self : Error) : bool :=
  match self with
  | Cleanup _ primary cleanup =>
      is_session_recoverable primary || is_session_recoverable cleanup
  | NfsV4 _ status => Status.requires_session_recovery status
  | _ => false
  end.

Fixpoint is_already_exists (self : Error) : bool :=
  match self with
  | Cleanup _ primary _ => is_already_exists primary
  | Io kind => bool_decide (kind = AlreadyExists)
  | Nfs _ NfsStatus.Exist => true
  | NfsV4 _ Status.Exist => true
  | _ => false
  end.

(** ** Retry policy *)

(** [Duration::MAX], in nanoseconds. *)
Definition duration_max : Z := u64_max * 10 ^ 9 + 999999999.

Definition from_millis (ms : Z) : Z := ms * 10 ^ 6.
Definition from_secs (s : Z) : Z := s * 10 ^ 9.

(** [Duration::saturating_mul]. *)
Definition duration_saturating_mul (d k : Z) : Z := Z.min (d * k) duration_max.

(** [1_u32.checked_shl(n).unwrap_or(u32::MAX)]. *)
Definition shl_or_max (n : Z) : Z := if n <? 32 then wrap_u32 (Z.shiftl 1 n) else u32_max.

Record RetryPolicy := mkRetryPolicy {
  max_retries : Z;
  initial_delay : Z;
  max_delay : Z;
}.

#[export] Instance RetryPolicy_eq_dec : EqDecision RetryPolicy.
Proof. solve_decision. Defined.

Definition RetryPolicy_new (max_retries initial_delay max_delay : Z) : RetryPolicy :=
  mkRetryPolicy max_retries initial_delay max_delay.
Definition RetryPolicy_disabled : RetryPolicy := mkRetryPolicy 0 0 0.

Definition RetryPolicy_default : RetryPolicy := mkRetryPolicy 3 (from_millis 50) (from_secs 1).

Definition delay_for_retry (self : RetryPolicy) (retry : Z) : option Z :=
  if retry >=? max_retries self then None else
  let multiplier := shl_or_max (Z.min retry 31) in
  Some (Z.min (duration_saturating_mul (initial_delay self) multiplier) (max_delay self)).

(** ** Classification *)

Lemma outcome_unknown_not_retryable e : is_outcome_unknown e = true → is_retryable e = false.
Proof. induction e; simpl; try done; auto. Qed.

(** The two session-recovery predicates are the same function. *)
Lemma session_recovery_predicates_agree e :
  is_session_recoverable e = requires_session_recovery e.
Proof. induction e; simpl; congruence. Qed.

Fixpoint primary_error (e : Error) : Error :=
  match e with Cleanup _ primary _ => primary_error primary | _ => e end.

Lemma primary_error_spec e :
  is_not_found e = is_not_found (primary_error e)
  ∧ is_retryable e = is_retryable (primary_error e)
  ∧ is_permission_denied e = is_permission_denied (primary_error e)
  ∧ is_already_exists e = is_already_exists (primary_error e)
  ∧ is_outcome_unknown e = is_outcome_unknown (primary_error e).
Proof. induction e; simpl; auto. Qed.

Lemma retryable_exclusive e :
  is_retryable e = true →
  is_not_found e = false ∧ is_permission_denied e = false ∧ is_already_exists e = false
  ∧ is_stale_handle e = false ∧ is_no_space e = false ∧ is_read_only e = false.
Proof.
  induction e; simpl; try done; auto.
  - by destruct kind.
  - by destruct status.
  - by destruct status.
Qed.

(** ** Backoff *)

Definition policy_ok (p : RetryPolicy) : Prop :=
  is_u32 (max_retries p) ∧ 0 ≤ initial_delay p ≤ duration_max ∧ 0 ≤ max_delay p ≤ duration_max.

Lemma shl_or_max_pow n : 0 ≤ n ≤ 31 → shl_or_max n = 2 ^ n.
Proof.
  intros Hn. unfold shl_or_max, wrap_u32. destruct (Z.ltb_spec n 32); [|lia].
  rewrite Z.shiftl_mul_pow2, Z.mul_1_l by lia. apply Z.mod_small.
  split; [by apply Z.pow_nonneg|]. apply Z.pow_lt_mono_r; lia.
Qed.

(** The closed form of the delay before retry number [retry]. *)
Lemma delay_for_retry_spec p retry :
  policy_ok p → 0 ≤ retry →
  delay_for_retry p retry =
    if retry <? max_retries p
    then Some (Z.min (initial_delay p * 2 ^ Z.min retry 31) (max_delay p))
    else None.
Proof.
  intros (_ & _ & Hm) Hr. unfold delay_for_retry.
  rewrite Z.geb_leb, Z.leb_antisym. destruct (Z.ltb_spec retry (max_retries p)); simpl; [|done].
  rewrite shl_or_max_pow by lia. unfold duration_saturating_mul. f_equal. lia.
Qed.

Lemma delay_for_retry_mono p r1 r2 d1 d2 :
  policy_ok p → 0 ≤ r1 ≤ r2 →
  delay_for_retry p r1 = Some d1 → delay_for_retry p r2 = Some d2 → d1 ≤ d2.
Proof.
  intros Hp Hr H1 H2. rewrite delay_for_retry_spec in H1, H2 by (done || lia).
  destruct (r1 <? _); [|done]. destruct (r2 <? _); [|done]. injection H1 as <-. injection H2 as <-.
  destruct Hp as (_ & [Hi _] & _).
  assert (2 ^ Z.min r1 31 ≤ 2 ^ Z.min r2 31) by (apply Z.pow_le_mono_r; lia). nia.
Qed.
