(* ===== verification/Rpc.v ===== *)
(** * ONC RPC (src/src/rpc.rs)

    Credentials, call and reply messages, record marking, and the blocking
    [RpcClient].  The socket is a [Transport]: any state with the three
    operations of a TCP stream the client uses.  Everything proved about the
    client without further hypotheses holds for every behaviour of the peer
    and of the operating system. *)

From Stdlib Require Import Strings.String Strings.Byte.
From S2P Require Import Prelude Text Xdr Status Errors.

#[local] Open Scope Z_scope.

Definition RPC_VERSION : Z := 2.
Definition AUTH_NONE : Z := 0.
Definition AUTH_SYS : Z := 1.
Definition AUTH_SYS_MACHINE_NAME_MAX : Z := 255.
Definition AUTH_SYS_MAX_GROUPS : Z := 16.

Definition MSG_CALL : Z := 0.
Definition MSG_REPLY : Z := 1.
Definition REPLY_ACCEPTED : Z := 0.
Definition REPLY_DENIED : Z := 1.
Definition ACCEPT_SUCCESS : Z := 0.
Definition ACCEPT_PROG_MISMATCH : Z := 2.
Definition REJECT_RPC_MISMATCH : Z := 0.
Definition REJECT_AUTH_ERROR : Z := 1.
Definition LAST_FRAGMENT : Z := 0x80000000.
Definition FRAGMENT_LEN_MASK : Z := 0x7fffffff.
Definition DEFAULT_MAX_RECORD_SIZE : Z := 64 * 1024 * 1024.
Definition MAX_RECORD_HEADROOM : Z := 1024 * 1024.

(** ** Credentials *)

Record AuthSys := mkAuthSys {
  stamp : Z;
  machine_name : str;
  uid : Z;
  gid : Z;
  gids : list Z;
}.

Inductive Auth :=
  | Auth_None
  | Auth_Sys (auth : AuthSys).

(** [(duration.as_secs() as u32) ^ duration.subsec_nanos()], given the time
    since the epoch. *)
Definition default_stamp (secs subsec_nanos : Z) : Z := Z.lxor (wrap_u32 secs) subsec_nanos.

Fixpoint normalize_gids_loop (primary_gid : Z) (normalized groups : list Z) : list Z :=
  match groups with
  | [] => normalized
  | g :: rest =>
      if (g =? primary_gid) || bool_decide (g ∈ normalized)
      then normalize_gids_loop primary_gid normalized rest
      else
        let normalized := normalized ++ [g] in
        if zlen normalized =? AUTH_SYS_MAX_GROUPS then normalized
        else normalize_gids_loop primary_gid normalized rest
  end.

Definition normalize_auxiliary_gids (primary_gid : Z) (groups : list Z) : list Z :=
  normalize_gids_loop primary_gid [] groups.

(** [while !machine_name.is_char_boundary(len) { len -= 1 }]; position 0 is
    always a boundary. *)
Fixpoint floor_boundary (s : str) (len : nat) : nat :=
  if is_char_boundary s len then len else
  match len with
  | O => O
  | S n => floor_boundary s n
  end.

Definition normalized_machine_name_len (machine_name : str) : nat :=
  if zlen machine_name <=? AUTH_SYS_MACHINE_NAME_MAX then length machine_name
  else floor_boundary machine_name (Z.to_nat AUTH_SYS_MACHINE_NAME_MAX).

Definition normalize_machine_name (machine_name : str) : str :=
  take (normalized_machine_name_len machine_name) machine_name.

Definition normalized_machine_name_ref (machine_name : str) : str :=
  take (normalized_machine_name_len machine_name) machine_name.

Definition AuthSys_new (stamp : Z) (machine_name : str) (uid gid : Z) (gids : list Z) : AuthSys :=
  mkAuthSys stamp (normalize_machine_name machine_name) uid gid
    (normalize_auxiliary_gids gid gids).

Definition AuthSys_encode (self : AuthSys) : M Encoder XdrError unit :=
  let gids := normalize_auxiliary_gids (gid self) (gids self) in
  write_u32 (stamp self) ;;
  write_string (normalized_machine_name_ref (machine_name self)) AUTH_SYS_MACHINE_NAME_MAX ;;
  write_u32 (uid self) ;;
  write_u32 (gid self) ;;
  write_array write_u32 gids AUTH_SYS_MAX_GROUPS.

(** The [?] operator on an XDR result in a function returning [Error]. *)
Definition xdr {S A} (m : M S XdrError A) : M S Error A := map_err Xdr m.

Definition encode_opaque_auth (self : Auth) : M Encoder Error unit :=
  match self with
  | Auth_None =>
      xdr (write_u32 AUTH_NONE) ;;
      xdr (write_opaque [] 400)
  | Auth_Sys auth =>
      body ← lift (outcome_map_err Xdr (to_bytes AuthSys_encode auth));
      xdr (write_u32 AUTH_SYS) ;;
      xdr (write_opaque body 400)
  end.

(** ** Messages *)

Definition encode_call {A} (xid program version procedure : Z) (auth : Auth)
    (enc : A → M Encoder XdrError unit) (args : A) : outcome Error (list byte) :=
  let write : M Encoder Error unit :=
    xdr (write_u32 xid) ;;
    xdr (write_u32 MSG_CALL) ;;
    xdr (write_u32 RPC_VERSION) ;;
    xdr (write_u32 program) ;;
    xdr (write_u32 version) ;;
    xdr (write_u32 procedure) ;;
    encode_opaque_auth auth ;;
    encode_opaque_auth Auth_None ;;
    xdr (enc args) in
  match write Encoder_new with
  | (e, Ok _) => Ok (enc_bytes e)
  | (_, Err err) => Err err
  | (_, Fault f) => Fault f
  end.

Definition ensure_rpc_reply_consumed : M Decoder Error unit := λ d,
  if is_finished d then (d, Ok tt) else (d, Err (Xdr (TrailingBytes (remaining d)))).

Definition read_opaque_auth : M Decoder Error (Z * list byte) :=
  flavor ← xdr read_u32;
  body ← xdr (read_opaque 400);
  mret (flavor, body).

Definition decode_accepted_reply : M Decoder Error (list byte) :=
  _ ← read_opaque_auth;
  accept_stat ← xdr read_u32;
  if accept_stat =? ACCEPT_SUCCESS then
    remaining ← gets remaining;
    xdr (read_fixed_opaque_unpadded remaining)
  else if accept_stat =? ACCEPT_PROG_MISMATCH then
    low ← xdr read_u32;
    high ← xdr read_u32;
    ensure_rpc_reply_consumed ;;
    throw (RpcProgramMismatch low high)
  else
    ensure_rpc_reply_consumed ;;
    throw (RpcAcceptedError accept_stat).

Definition decode_denied_reply : M Decoder Error (list byte) :=
  reject_stat ← xdr read_u32;
  if reject_stat =? REJECT_RPC_MISMATCH then
    low ← xdr read_u32;
    high ← xdr read_u32;
    ensure_rpc_reply_consumed ;;
    throw (RpcProgramMismatch low high)
  else if reject_stat =? REJECT_AUTH_ERROR then
    auth_stat ← xdr read_u32;
    ensure_rpc_reply_consumed ;;
    throw (RpcDenied REJECT_AUTH_ERROR auth_stat)
  else
    ensure_rpc_reply_consumed ;;
    throw (RpcDenied reject_stat 0).

Definition decode_reply (expected_xid : Z) (reply : list byte) : outcome Error (list byte) :=
  let decode : M Decoder Error (list byte) :=
    actual_xid ← xdr read_u32;
    if negb (actual_xid =? expected_xid) then throw (RpcMismatch expected_xid actual_xid) else
    message_type ← xdr read_u32;
    if negb (message_type =? MSG_REPLY) then throw (RpcUnexpectedMessageType message_type) else
    reply_stat ← xdr read_u32;
    if reply_stat =? REPLY_ACCEPTED then decode_accepted_reply
    else if reply_stat =? REPLY_DENIED then decode_denied_reply
    else
      ensure_rpc_reply_consumed ;;
      throw (RpcDenied reply_stat 0) in
  (decode (Decoder_new reply)).2.

Definition max_record_size_for_payloads (payload_sizes : list Z) : Z :=
  let configured :=
    saturating_add usize_max (foldr Z.max 0 payload_sizes) MAX_RECORD_HEADROOM in
  Z.max configured DEFAULT_MAX_RECORD_SIZE.

Definition validate_max_record_size (max_record_size : Z) : outcome Error unit :=
  if max_record_size =? 0
  then Err (Protocol [PLit "RPC max_record_size must be greater than zero"])
  else Ok tt.

(** ** The transport *)

(** What [TcpStream] offers the client.  [read_exact] fills a buffer of the
    given length or fails. *)
Class Transport (St : Type) := {
  write_all : list byte → M St ErrorKind unit;
  flush : M St ErrorKind unit;
  read_exact : Z → M St ErrorKind (list byte);
  write_all_fault_free : ∀ bs s, fault_free (write_all bs s).2;
  flush_fault_free : ∀ s, fault_free (flush s).2;
  read_exact_fault_free : ∀ n s, fault_free (read_exact n s).2;
  read_exact_length : ∀ n s s' bs, 0 ≤ n → read_exact n s = (s', Ok bs) → zlen bs = n;
}.

Section client.
Context {St : Type} `{!Transport St}.

Record RpcClient := mkRpcClient {
  stream : St;
  xid : Z;
  rpc_auth : Auth;
  max_record_size : Z;
  interrupted : bool;
}.

Definition with_stream (st : St) (c : RpcClient) : RpcClient :=
  mkRpcClient st (xid c) (rpc_auth c) (max_record_size c) (interrupted c).
Definition with_interrupted (b : bool) (c : RpcClient) : RpcClient :=
  mkRpcClient (stream c) (xid c) (rpc_auth c) (max_record_size c) b.
Definition with_xid (x : Z) (c : RpcClient) : RpcClient :=
  mkRpcClient (stream c) x (rpc_auth c) (max_record_size c) (interrupted c).

(** [RpcClient::new], given the current time stamp. *)
Definition RpcClient_new (st : St) (auth : Auth) (now_stamp : Z) : RpcClient :=
  mkRpcClient st now_stamp auth DEFAULT_MAX_RECORD_SIZE false.

(** A socket operation followed by [?]. *)
Definition io {A} (m : M St ErrorKind A) : M RpcClient Error A :=
  map_err Io (zoom stream with_stream m).

Definition set_max_record_size (size : Z) : M RpcClient Error unit :=
  lift (validate_max_record_size size) ;;
  modify (λ c, mkRpcClient (stream c) (xid c) (rpc_auth c) size (interrupted c)).

Definition next_xid : M RpcClient Error Z := λ c,
  let x := wrapping_add_u32 (xid c) 1 in
  let x := if x =? 0 then 1 else x in
  (with_xid x c, Ok x).

Definition write_record (payload : list byte) : M RpcClient Error unit :=
  if zlen payload >? FRAGMENT_LEN_MASK
  then throw (RpcRecordTooLarge (zlen payload) FRAGMENT_LEN_MASK) else
  if zlen payload >? u32_max
  then throw (RpcRecordTooLarge (zlen payload) FRAGMENT_LEN_MASK) else
  let header := Z.lor LAST_FRAGMENT (zlen payload) in
  io (write_all (be_bytes 4 header)) ;;
  io (write_all payload) ;;
  io flush.

(** One turn of the loop of [read_record]; the loop variable is [record]. *)
Definition read_fragment (record : list byte) : M RpcClient Error (list byte + list byte) :=
  header_bytes ← io (read_exact 4);
  let header := be_Z header_bytes in
  let is_last := negb (Z.land header LAST_FRAGMENT =? 0) in
  let fragment_len := Z.land header FRAGMENT_LEN_MASK in
  if (fragment_len =? 0) && negb is_last
  then throw (Protocol [PLit "RPC record contained zero-length non-final fragment"]) else
  max ← gets max_record_size;
  match checked_add usize_max (zlen record) fragment_len with
  | None => throw (RpcRecordTooLarge usize_max max)
  | Some next_len =>
      if next_len >? max then throw (RpcRecordTooLarge next_len max) else
      fragment ← io (read_exact (next_len - zlen record));
      let record := record ++ fragment in
      if is_last then break_ record else continue_ record
  end.

(** Every turn but the last adds at least one byte to a record of at most
    [max_record_size] bytes, so [max_record_size + 1] turns are enough. *)
Definition read_record : M RpcClient Error (list byte) :=
  max ← gets max_record_size;
  loop (Z.to_pos (max + 1)) read_fragment [].

(** The replies after which the connection is known to be in step. *)
Definition definite_error (e : Error) : bool :=
  match e with
  | RpcDenied _ _ | RpcAcceptedError _ | RpcProgramMismatch _ _ => true
  | _ => false
  end.

Definition call {A} (program version procedure : Z) (enc : A → M Encoder XdrError unit) (args : A)
    : M RpcClient Error (list byte) :=
  interrupted ← gets interrupted;
  if (interrupted : bool) then throw RpcConnectionInvalid else
  xid ← next_xid;
  auth ← gets rpc_auth;
  request ← lift (encode_call xid program version procedure auth enc args);
  modify (with_interrupted true) ;;
  map_err OutcomeUnknown (write_record request) ;;
  reply ← map_err OutcomeUnknown read_record;
  match decode_reply xid reply with
  | Ok payload => modify (with_interrupted false) ;; mret payload
  | Err err =>
      if definite_error err
      then modify (with_interrupted false) ;; throw err
      else throw (OutcomeUnknown err)
  | Fault f => lift (Fault f)
  end.

End client.

Arguments RpcClient : clear implicits.
Arguments mkRpcClient {St}.

(** [connect_tcp_stream] with a timeout: the resolved addresses are tried in
    order; the error of the last one is reported. *)
Fixpoint connect_tcp_stream {W Addr Stream} (connect_timeout : Addr → M W ErrorKind Stream)
    (last_error : option ErrorKind) (addrs : list Addr) : M W Error Stream :=
  match addrs with
  | [] => throw (Io (match last_error with Some e => e | None => InvalidInput end))
  | addr :: rest =>
      r ← attempt (connect_timeout addr);
      match r with
      | inl stream => mret stream
      | inr err => connect_tcp_stream connect_timeout (Some err) rest
      end
  end.
