(* ===== verification/RpcSpec.v ===== *)
(** * Correctness of the RPC layer

    Credentials respect the wire limits whatever they are built from; a call
    message is the RFC 5531 message of its fields; a reply is accepted exactly
    when it answers the call; record reading terminates within its fuel and
    its size limit; and the [interrupted] flag of a connection is set exactly
    when a request's fate is unknown. *)

From Stdlib Require Import Strings.String Strings.Byte.
From stdpp Require Import sets.
From S2P Require Import Prelude Text Xdr XdrSpec Status Errors Rpc.

#[local] Open Scope Z_scope.

(** ** Credentials *)

(** The reference for group normalization: first occurrences, in order, of
    what is not in [seen]. *)
Fixpoint fresh (seen groups : list Z) : list Z :=
  match groups with
  | [] => []
  | g :: rest =>
      if bool_decide (g ∈ seen) then fresh seen rest else g :: fresh (g :: seen) rest
  end.

Lemma fresh_ext seen seen' groups :
  (∀ g, g ∈ seen ↔ g ∈ seen') → fresh seen groups = fresh seen' groups.
Proof.
  revert seen seen'; induction groups as [|g rest IH]; intros seen seen' H; simpl; [done|].
  rewrite (bool_decide_ext _ _ (H g)). case_bool_decide; [by apply IH|].
  f_equal. apply IH. set_solver.
Qed.

Lemma fresh_spec seen groups :
  NoDup (fresh seen groups) ∧ (∀ g, g ∈ fresh seen groups ↔ g ∈ groups ∧ g ∉ seen).
Proof.
  revert seen; induction groups as [|g rest IH]; intros seen; simpl.
  { split; [constructor|set_solver]. }
  case_bool_decide as Hg.
  - destruct (IH seen) as [Hd Hin]. split; [done|]. intros h. rewrite Hin. set_solver.
  - destruct (IH (g :: seen)) as [Hd Hin]. split.
    + constructor; [|done]. rewrite Hin. set_solver.
    + intros h. rewrite elem_of_cons, Hin. destruct (decide (h = g)); set_solver.
Qed.

Lemma normalize_gids_loop_spec primary acc groups :
  zlen acc < AUTH_SYS_MAX_GROUPS →
  normalize_gids_loop primary acc groups = take 16 (acc ++ fresh (primary :: acc) groups).
Proof.
  revert acc; induction groups as [|g rest IH]; intros acc Hlen; cbn [normalize_gids_loop fresh].
  { rewrite app_nil_r, take_ge; [done|]. unfold zlen, AUTH_SYS_MAX_GROUPS in Hlen. lia. }
  assert ((g =? primary) || bool_decide (g ∈ acc) = bool_decide (g ∈ primary :: acc)) as ->.
  { destruct (Z.eqb_spec g primary); repeat case_bool_decide; set_solver. }
  case_bool_decide as Hg; [by apply IH|].
  assert (acc ++ g :: fresh (g :: primary :: acc) rest
          = (acc ++ [g]) ++ fresh (primary :: acc ++ [g]) rest) as ->.
  { rewrite <- app_assoc. simpl. do 2 f_equal. apply fresh_ext. set_solver. }
  destruct (Z.eqb_spec (zlen (acc ++ [g])) AUTH_SYS_MAX_GROUPS) as [He|Hne].
  - unfold zlen, AUTH_SYS_MAX_GROUPS in He.
    rewrite take_app_le, take_ge by lia. done.
  - apply IH. unfold zlen, AUTH_SYS_MAX_GROUPS in *. rewrite length_app in *. simpl in *. lia.
Qed.

Lemma normalize_auxiliary_gids_spec primary groups :
  normalize_auxiliary_gids primary groups = take 16 (fresh [primary] groups).
Proof. apply (normalize_gids_loop_spec primary []). done. Qed.

Lemma fresh_id seen groups :
  NoDup groups → (∀ g, g ∈ groups → g ∉ seen) → fresh seen groups = groups.
Proof.
  intros Hd. revert seen; induction Hd as [|g rest Hg Hd IH]; intros seen Hs; simpl; [done|].
  rewrite bool_decide_false by set_solver. f_equal. apply IH. set_solver.
Qed.

Lemma take_elem_of {A} n (l : list A) x : x ∈ take n l → x ∈ l.
Proof. intros H. rewrite <- (take_drop n l). apply elem_of_app. by left. Qed.

Lemma NoDup_take {A} n (l : list A) : NoDup l → NoDup (take n l).
Proof. intros H. eapply sublist_NoDup; [done|apply sublist_take]. Qed.

Lemma normalize_auxiliary_gids_props primary groups :
  let r := normalize_auxiliary_gids primary groups in
  NoDup r ∧ primary ∉ r ∧ (∀ g, g ∈ r → g ∈ groups) ∧ zlen r ≤ AUTH_SYS_MAX_GROUPS.
Proof.
  cbn. rewrite normalize_auxiliary_gids_spec.
  destruct (fresh_spec [primary] groups) as [Hd Hin]. split_and!.
  - by apply NoDup_take.
  - intros H%take_elem_of%Hin. set_solver.
  - by intros g [? _]%take_elem_of%Hin.
  - unfold zlen, AUTH_SYS_MAX_GROUPS. rewrite length_take. lia.
Qed.

Lemma normalize_auxiliary_gids_idem primary groups :
  normalize_auxiliary_gids primary (normalize_auxiliary_gids primary groups)
  = normalize_auxiliary_gids primary groups.
Proof.
  rewrite !normalize_auxiliary_gids_spec.
  destruct (fresh_spec [primary] groups) as [Hd Hin].
  rewrite fresh_id; [by rewrite take_take, Nat.min_id|by apply NoDup_take|].
  intros g H%take_elem_of%Hin. apply H.
Qed.

Lemma floor_boundary_spec s n :
  (floor_boundary s n ≤ n)%nat ∧ is_char_boundary s (floor_boundary s n) = true
  ∧ ∀ j, (floor_boundary s n < j ≤ n)%nat → is_char_boundary s j = false.
Proof.
  induction n as [|n IH]; cbn [floor_boundary].
  { simpl. split_and!; [done|done|]. intros j; lia. }
  destruct (is_char_boundary s (S n)) eqn:E.
  { split_and!; [done|done|]. intros j; lia. }
  destruct IH as (Hle & Hb & Hmax). split_and!; [lia|done|].
  intros j Hj. destruct (decide (j = S n)) as [->|]; [done|]. apply Hmax. lia.
Qed.

Lemma normalized_machine_name_len_le s :
  (normalized_machine_name_len s ≤ length s)%nat ∧ (normalized_machine_name_len s ≤ 255)%nat.
Proof.
  unfold normalized_machine_name_len, AUTH_SYS_MACHINE_NAME_MAX, zlen.
  destruct (Z.leb_spec (Z.of_nat (length s)) 255); [lia|].
  destruct (floor_boundary_spec s (Z.to_nat 255)) as [Hle _]. lia.
Qed.

Lemma zlen_normalized_machine_name s :
  zlen (normalized_machine_name_ref s) ≤ AUTH_SYS_MACHINE_NAME_MAX.
Proof.
  unfold normalized_machine_name_ref, zlen, AUTH_SYS_MACHINE_NAME_MAX. rewrite length_take.
  pose proof (normalized_machine_name_len_le s). lia.
Qed.

(** A valid name stays valid, and is cut by at most three bytes more than the
    limit requires. *)
Lemma normalize_machine_name_valid s :
  utf8_valid s = true →
  utf8_valid (normalize_machine_name s) = true
  ∧ Z.min (zlen s) 252 ≤ zlen (normalize_machine_name s) ≤ 255.
Proof.
  intros Hs%utf8_valid_text. unfold normalize_machine_name.
  pose proof (normalized_machine_name_len_le s) as [Hle1 Hle2].
  assert (is_char_boundary s (normalized_machine_name_len s) = true
    ∧ (min (length s) 252 ≤ normalized_machine_name_len s)%nat) as [Hb Hlow].
  { unfold normalized_machine_name_len, AUTH_SYS_MACHINE_NAME_MAX, zlen.
    destruct (Z.leb_spec (Z.of_nat (length s)) 255).
    - split; [|lia]. destruct s as [|b s]; [done|].
      unfold is_char_boundary; cbn [length]. rewrite lookup_ge_None_2 by (simpl; lia).
      by apply Nat.eqb_eq.
    - destruct (floor_boundary_spec s (Z.to_nat 255)) as (Hfle & Hfb & Hmax).
      split; [done|].
      destruct (utf8_text_boundary_near s 255 Hs ltac:(lia)) as (j & Hj & Hjb).
      change (Z.to_nat 255) with 255%nat in *.
      destruct (decide (j ≤ floor_boundary s 255)%nat); [lia|].
      rewrite Hmax in Hjb by lia. done. }
  split.
  - apply utf8_valid_text. by apply utf8_text_cut.
  - unfold zlen. rewrite length_take. lia.
Qed.

Definition wire_auth_sys (a : AuthSys) : list byte :=
  wire_u32 (stamp a) ++ wire_opaque (normalized_machine_name_ref (machine_name a))
  ++ wire_u32 (uid a) ++ wire_u32 (gid a)
  ++ wire_array wire_u32 (normalize_auxiliary_gids (gid a) (gids a)).

Lemma zlen_wire_each_u32 l : zlen (wire_each wire_u32 l) = 4 * zlen l.
Proof.
  induction l as [|z l IH]; [done|]. rewrite wire_each_cons. autorewrite with zlen. lia.
Qed.

Lemma zlen_wire_fixed bs : zlen (wire_fixed bs) = zlen bs + padding_len (zlen bs).
Proof. unfold wire_fixed. by autorewrite with zlen. Qed.

Lemma zlen_wire_opaque bs : zlen (wire_opaque bs) = 4 + zlen bs + padding_len (zlen bs).
Proof. unfold wire_opaque, wire_fixed. autorewrite with zlen. lia. Qed.
#[export] Hint Rewrite zlen_wire_each_u32 zlen_wire_fixed zlen_wire_opaque : zlen.

(** The credential body always fits the 400 bytes RFC 5531 allows. *)
Lemma zlen_wire_auth_sys a : zlen (wire_auth_sys a) ≤ 343.
Proof.
  unfold wire_auth_sys, wire_array. autorewrite with zlen.
  pose proof (zlen_normalized_machine_name (machine_name a)).
  pose proof (padding_len_range (zlen (normalized_machine_name_ref (machine_name a)))).
  destruct (normalize_auxiliary_gids_props (gid a) (gids a)) as (_ & _ & _ & Hg).
  unfold AUTH_SYS_MACHINE_NAME_MAX, AUTH_SYS_MAX_GROUPS in *. lia.
Qed.

Lemma Forall_True {A} (l : list A) : Forall (λ _, True) l.
Proof. by apply Forall_forall. Qed.

#[export] Instance AuthSys_encode_to : EncodesTo AuthSys_encode wire_auth_sys (λ _, True).
Proof.
  intros a e _. unfold AuthSys_encode, wire_auth_sys.
  destruct (normalize_auxiliary_gids_props (gid a) (gids a)) as (_ & _ & _ & Hg).
  pose proof (zlen_normalized_machine_name (machine_name a)) as Hn.
  eapply writes_bind; [apply writes_extend|].
  eapply writes_bind.
  { intros e'. apply write_string_to. split; [done|].
    unfold AUTH_SYS_MACHINE_NAME_MAX in Hn. int_unfold; lia. }
  eapply writes_bind; [apply writes_extend|].
  eapply writes_bind; [apply writes_extend|].
  intros e'. apply (write_array_to _ wire_u32 (λ _, True)); [apply _|].
  split_and!; [done|unfold AUTH_SYS_MAX_GROUPS in Hg; int_unfold; lia|apply Forall_True].
Qed.

(** ** Messages *)

Lemma writes_xdr m bs : writes m bs → writes (xdr m) bs.
Proof. intros H e. unfold xdr, map_err. by rewrite H. Qed.

Lemma writes_seq {E} (m k : M Encoder E unit) bs1 bs2 :
  writes m bs1 → writes k bs2 → writes (m ;; k) (bs1 ++ bs2).
Proof. intros Hm Hk. by eapply (writes_bind m (λ _, k)). Qed.

Definition wire_auth (a : Auth) : list byte :=
  match a with
  | Auth_None => wire_u32 AUTH_NONE ++ wire_opaque []
  | Auth_Sys a => wire_u32 AUTH_SYS ++ wire_opaque (wire_auth_sys a)
  end.

(** No credential makes [encode_opaque_auth] fail. *)
Lemma writes_auth a : writes (encode_opaque_auth a) (wire_auth a).
Proof.
  destruct a as [|a]; unfold encode_opaque_auth, wire_auth.
  - apply writes_seq; apply writes_xdr; [apply writes_extend|].
    intros e. apply write_opaque_to. split; int_unfold; rewrite zlen_nil; lia.
  - intros e. rewrite (to_bytes_wire _ wire_auth_sys (λ _, True) _ _ I). cbn.
    revert e. apply writes_seq; apply writes_xdr; [apply writes_extend|].
    pose proof (zlen_wire_auth_sys a).
    intros e. apply write_opaque_to. split; int_unfold; lia.
Qed.

(** The RFC 5531 call message. *)
Definition wire_call (xid program version procedure : Z) (auth : Auth) (args : list byte)
    : list byte :=
  wire_u32 xid ++ wire_u32 MSG_CALL ++ wire_u32 RPC_VERSION ++ wire_u32 program
  ++ wire_u32 version ++ wire_u32 procedure ++ wire_auth auth ++ wire_auth Auth_None ++ args.

Definition wire_call_header (xid program version procedure : Z) (auth : Auth) : list byte :=
  wire_call xid program version procedure auth [].

Lemma wire_call_app xid program version procedure auth args :
  wire_call xid program version procedure auth args
  = wire_call_header xid program version procedure auth ++ args.
Proof. unfold wire_call_header, wire_call. by rewrite ?app_nil_r, <- ?app_assoc. Qed.

Lemma writes_u32 z : writes (write_u32 z) (wire_u32 z).
Proof. apply writes_extend. Qed.

(** [encode_call] on every branch: the header never fails, so the outcome is
    that of encoding the arguments behind it. *)
Lemma encode_call_run {A} x program version procedure auth (enc : A → M Encoder XdrError unit) args :
  encode_call x program version procedure auth enc args
  = match enc args (mkEncoder (wire_call_header x program version procedure auth)) with
    | (e, Ok _) => Ok (enc_bytes e)
    | (_, Err err) => Err (Xdr err)
    | (_, Fault f) => Fault f
    end.
Proof.
  unfold encode_call, wire_call_header, wire_call.
  do 6 (rewrite (bind_run _ _ _ _ _ (writes_xdr _ _ (writes_u32 _) _));
        cbn [enc_bytes Encoder_new]).
  do 2 (rewrite (bind_run _ _ _ _ _ (writes_auth _ _)); cbn [enc_bytes]).
  rewrite !app_nil_r, <- !app_assoc. unfold xdr, map_err. cbn [app].
  by destruct (enc args _) as [e [[]|err|f]].
Qed.

Lemma encode_call_wire {A} x program version procedure auth (enc : A → M Encoder XdrError unit)
    wire ok args :
  EncodesTo enc wire ok → ok args →
  encode_call x program version procedure auth enc args
  = Ok (wire_call x program version procedure auth (wire args)).
Proof.
  intros He Ha. rewrite encode_call_run, wire_call_app. by rewrite (He args _ Ha).
Qed.

(** ** Replies *)

Lemma reads_xdr {A} (m : M Decoder XdrError A) bs a : reads m bs a → reads (xdr m) bs a.
Proof. intros H pre after Hl. unfold xdr, map_err. by rewrite H. Qed.

#[export] Instance dec_safe_xdr {A} (m : M Decoder XdrError A) : DecSafe m → DecSafe (xdr m).
Proof.
  intros Hm d Hd. destruct (Hm d Hd) as [Hs Hf]. unfold xdr, map_err.
  destruct (m d) as [d' [a|e|f]]; simpl in *; [done|done|by destruct (Hf f)].
Qed.

#[export] Instance decode_sound_xdr {A} (m : M Decoder XdrError A) wire ok :
  DecodeSound m wire ok → DecodeSound (xdr m) wire ok.
Proof.
  intros Hm d d' a Hd H. unfold xdr, map_err in H.
  destruct (m d) as [d1 [b|e|f]] eqn:Heq; [|done..]. injection H as <- <-. by apply Hm.
Qed.

Lemma xdr_Ok_inv {S A} (m : M S XdrError A) s s' a : xdr m s = (s', Ok a) → m s = (s', Ok a).
Proof. unfold xdr, map_err. destruct (m s) as [s1 [b|e|f]]; naive_solver. Qed.

#[export] Instance dec_safe_ensure_consumed : DecSafe ensure_rpc_reply_consumed.
Proof.
  intros d Hd. unfold ensure_rpc_reply_consumed.
  destruct (is_finished d); (split; [by apply dec_step_refl|done]).
Qed.

Lemma dec_safe_rest {B} (k : Z → M Decoder Error B) :
  (∀ n, 0 ≤ n → DecSafe (k n)) → DecSafe (n ← gets remaining; k n).
Proof.
  intros Hk d Hd. unfold mbind, M_bind, gets. apply Hk; [|done].
  destruct Hd. unfold remaining. lia.
Qed.

#[export] Instance dec_safe_accepted : DecSafe decode_accepted_reply.
Proof.
  unfold decode_accepted_reply, read_opaque_auth.
  apply dec_safe_bind; [apply _|intros _]. apply dec_safe_bind; [apply _|intros st].
  apply dec_safe_if; [|apply _]. apply dec_safe_rest. intros n Hn.
  by apply dec_safe_xdr, dec_safe_read_bytes.
Qed.

#[export] Instance dec_safe_denied : DecSafe decode_denied_reply.
Proof. unfold decode_denied_reply. apply _. Qed.

(** Decoding a reply never faults, whatever the peer sent. *)
Lemma decode_reply_fault_free xid reply :
  zlen reply ≤ isize_max → fault_free (decode_reply xid reply).
Proof.
  intros Hl. unfold decode_reply. apply dec_safe. by apply dec_wf_new.
Qed.

(** The RFC 5531 reply that carries a result. *)
Definition wire_accepted (xid flavor : Z) (verifier pad payload : list byte) : list byte :=
  wire_u32 xid ++ wire_u32 MSG_REPLY ++ wire_u32 REPLY_ACCEPTED ++ wire_u32 flavor
  ++ (wire_u32 (zlen verifier) ++ verifier ++ pad) ++ wire_u32 ACCEPT_SUCCESS ++ payload.

Lemma read_rest pre rest :
  zlen (pre ++ rest) ≤ isize_max →
  (n ← gets remaining; xdr (read_fixed_opaque_unpadded n)) (dec_at pre rest)
  = (dec_at (pre ++ rest) [], Ok rest).
Proof.
  intros Hl. unfold gets, mbind, M_bind, remaining, xdr, map_err, read_fixed_opaque_unpadded, dec_at; cbn.
  rewrite read_bytes_run by zlen_lia. cbn. rewrite zdrop_app.
  rewrite ztake_all by zlen_lia. rewrite app_nil_r. do 2 f_equal. zlen_lia.
Qed.

Lemma reads_u32 z : is_u32 z → reads (xdr read_u32) (wire_u32 z) z.
Proof. intros H. by apply reads_xdr, read_u32_from. Qed.

Lemma reads_opaque_auth flavor verifier pad :
  is_u32 flavor → zlen verifier ≤ 400 → zlen pad = padding_len (zlen verifier) →
  reads read_opaque_auth (wire_u32 flavor ++ wire_u32 (zlen verifier) ++ verifier ++ pad)
    (flavor, verifier).
Proof.
  intros Hf Hv Hp. unfold read_opaque_auth. eapply reads_bind; [by apply reads_u32|].
  apply reads_bind_ret, reads_xdr, reads_read_opaque; [|done].
  split; [done|int_unfold; lia].
Qed.

Lemma decode_reply_accepted x flavor verifier pad payload :
  is_u32 x → is_u32 flavor → zlen verifier ≤ 400 → zlen pad = padding_len (zlen verifier) →
  zlen (wire_accepted x flavor verifier pad payload) ≤ isize_max →
  decode_reply x (wire_accepted x flavor verifier pad payload) = Ok payload.
Proof.
  intros Hx Hf Hv Hp Hl. unfold decode_reply, wire_accepted in *. rewrite dec_at_new.
  rewrite (reads_step _ _ _ _ _ _ (reads_u32 x Hx)) by zlen_lia. rewrite Z.eqb_refl. cbn [negb].
  rewrite (reads_step _ _ _ _ _ _ (reads_u32 MSG_REPLY ltac:(done))) by zlen_lia.
  cbn [negb MSG_REPLY Z.eqb Pos.eqb].
  rewrite (reads_step _ _ _ _ _ _ (reads_u32 REPLY_ACCEPTED ltac:(done))) by zlen_lia.
  cbn [REPLY_ACCEPTED Z.eqb]. unfold decode_accepted_reply.
  rewrite (app_assoc (wire_u32 flavor)).
  rewrite (reads_step _ _ _ _ _ _ (reads_opaque_auth flavor verifier pad Hf Hv Hp)) by zlen_lia.
  rewrite (reads_step _ _ _ _ _ _ (reads_u32 ACCEPT_SUCCESS ltac:(done))) by zlen_lia.
  cbn [ACCEPT_SUCCESS Z.eqb]. by rewrite read_rest by zlen_lia.
Qed.

Lemma read_opaque_auth_unread d d' r :
  dec_wf d → read_opaque_auth d = (d', Ok r) →
  ∃ pad, unread d = wire_u32 r.1 ++ (wire_u32 (zlen r.2) ++ r.2 ++ pad) ++ unread d'
    ∧ is_u32 r.1 ∧ zlen r.2 ≤ 400 ∧ zlen pad = padding_len (zlen r.2) ∧ dec_wf d'.
Proof.
  intros Hd H. unfold read_opaque_auth in H.
  apply bind_Ok_inv in H as (d1 & fl & H1 & H). apply xdr_Ok_inv in H1.
  apply bind_Ok_inv in H as (d2 & body & H2 & H). apply xdr_Ok_inv in H2.
  injection H as <- <-.
  apply read_u32_unread in H1 as (Hu1 & Hfl & Hd1); [|done].
  apply read_opaque_unread in H2 as (pad & Hu2 & Hpad & Hmax & Hd2); [|done].
  exists pad. cbn. rewrite Hu1, Hu2, <- !app_assoc. done.
Qed.

Lemma decode_accepted_reply_Ok d d' payload :
  dec_wf d → decode_accepted_reply d = (d', Ok payload) →
  ∃ flavor verifier pad, is_u32 flavor ∧ zlen verifier ≤ 400
    ∧ zlen pad = padding_len (zlen verifier)
    ∧ unread d = wire_u32 flavor ++ (wire_u32 (zlen verifier) ++ verifier ++ pad)
                 ++ wire_u32 ACCEPT_SUCCESS ++ payload.
Proof.
  intros Hd H. unfold decode_accepted_reply in H.
  apply bind_Ok_inv in H as (d1 & [fl body] & H1 & H).
  apply read_opaque_auth_unread in H1 as (pad & Hu1 & Hfl & Hb & Hpad & Hd1); [|done].
  apply bind_Ok_inv in H as (d2 & st & H2 & H). apply xdr_Ok_inv in H2.
  apply read_u32_unread in H2 as (Hu2 & Hst & Hd2); [|done].
  destruct (Z.eqb_spec st ACCEPT_SUCCESS) as [->|_].
  - apply bind_Ok_inv in H as (d3 & n & Hn & H). injection Hn as <- <-.
    apply xdr_Ok_inv in H. unfold read_fixed_opaque_unpadded in H.
    assert (remaining d2 = zlen (unread d2)) as Hrem by by rewrite zlen_unread.
    apply read_bytes_unread in H as (Hu3 & Hl & Hd3); [|rewrite Hrem; apply zlen_nonneg|done].
    assert (unread d' = []) as Hnil.
    { apply zlen_zero. rewrite Hrem, Hu3 in Hl. autorewrite with zlen in Hl. lia. }
    rewrite Hnil, app_nil_r in Hu3. exists fl, body, pad. cbn in *.
    rewrite Hu1, Hu2, Hu3. done.
  - destruct (st =? ACCEPT_PROG_MISMATCH); exfalso;
      repeat (apply bind_Ok_inv in H as (? & ? & _ & H)); done.
Qed.

Lemma decode_denied_reply_not_Ok d d' payload : decode_denied_reply d ≠ (d', Ok payload).
Proof.
  intros H. unfold decode_denied_reply in H.
  apply bind_Ok_inv in H as (? & st & _ & H).
  destruct (st =? REJECT_RPC_MISMATCH); [|destruct (st =? REJECT_AUTH_ERROR)];
    repeat (apply bind_Ok_inv in H as (? & ? & _ & H)); done.
Qed.

(** Only an accepted, successful reply to the call with this xid is taken, and
    its payload is everything after the header. *)
Lemma decode_reply_Ok_inv x reply payload :
  zlen reply ≤ isize_max → decode_reply x reply = Ok payload →
  ∃ flavor verifier pad, is_u32 flavor ∧ zlen verifier ≤ 400
    ∧ zlen pad = padding_len (zlen verifier)
    ∧ reply = wire_accepted x flavor verifier pad payload.
Proof.
  intros Hl H. unfold decode_reply in H.
  match type of H with (?m ?d).2 = _ => destruct (m d) as [d' o] eqn:Hrun end.
  cbn in H. subst o. pose proof (dec_wf_new _ Hl) as Hd.
  apply bind_Ok_inv in Hrun as (d1 & x' & H1 & H). apply xdr_Ok_inv in H1.
  apply read_u32_unread in H1 as (Hu1 & _ & Hd1); [|done]. rewrite unread_new in Hu1.
  destruct (Z.eqb_spec x' x) as [->|]; [|done]. cbn [negb] in H.
  apply bind_Ok_inv in H as (d2 & mt & H2 & H). apply xdr_Ok_inv in H2.
  apply read_u32_unread in H2 as (Hu2 & _ & Hd2); [|done].
  destruct (Z.eqb_spec mt MSG_REPLY) as [->|]; [|done]. cbn [negb] in H.
  apply bind_Ok_inv in H as (d3 & st & H3 & H). apply xdr_Ok_inv in H3.
  apply read_u32_unread in H3 as (Hu3 & _ & Hd3); [|done].
  destruct (Z.eqb_spec st REPLY_ACCEPTED) as [->|].
  - apply decode_accepted_reply_Ok in H as (fl & v & pad & Hfl & Hv & Hpad & Hu4); [|done].
    exists fl, v, pad. split_and!; try done; [apply Hfl..|].
    unfold wire_accepted. by rewrite Hu1, Hu2, Hu3, Hu4.
  - destruct (st =? REPLY_DENIED); [by apply decode_denied_reply_not_Ok in H|].
    by apply bind_Ok_inv in H as (? & ? & _ & H).
Qed.

(** ** Error replies *)

Definition wire_reply_header (xid reply_stat : Z) : list byte :=
  wire_u32 xid ++ wire_u32 MSG_REPLY ++ wire_u32 reply_stat.

Lemma ensure_consumed_at pre rest :
  ensure_rpc_reply_consumed (dec_at pre rest)
  = (dec_at pre rest,
     match rest with [] => Ok tt | _ => Err (Xdr (TrailingBytes (zlen rest))) end).
Proof.
  unfold ensure_rpc_reply_consumed, is_finished, remaining, dec_at; cbn.
  rewrite zlen_app. replace (zlen pre + zlen rest - zlen pre) with (zlen rest) by lia.
  destruct rest as [|b rest]; [done|]. destruct (Z.eqb_spec (zlen (b :: rest)) 0); [|done].
  rewrite zlen_cons in *. pose proof (zlen_nonneg rest). lia.
Qed.

(** What a denied reply body is reported as. *)
Definition denied_error (reject_stat : Z) (args : list Z) : option Error :=
  match reject_stat, args with
  | 0, [low; high] => Some (RpcProgramMismatch low high)
  | 1, [auth_stat] => Some (RpcDenied 1 auth_stat)
  | 0, _ | 1, _ => None
  | _, [] => Some (RpcDenied reject_stat 0)
  | _, _ => None
  end.

Lemma decode_reply_denied x reject_stat args err :
  is_u32 x → is_u32 reject_stat → Forall is_u32 args → denied_error reject_stat args = Some err →
  decode_reply x (wire_reply_header x REPLY_DENIED ++ wire_u32 reject_stat ++ wire_each wire_u32 args)
  = Err err.
Proof.
  intros Hx Hr Hargs Herr. unfold decode_reply, wire_reply_header. rewrite dec_at_new.
  assert (zlen (wire_each wire_u32 args) ≤ 8) as Hlen.
  { rewrite zlen_wire_each_u32. unfold denied_error in Herr.
    destruct reject_stat as [|[p|p|]|p]; destruct args as [|a [|b [|c args]]]; try done;
      rewrite ?zlen_cons, ?zlen_nil; lia. }
  rewrite <- !app_assoc.
  rewrite (reads_step _ _ _ _ _ _ (reads_u32 x Hx)) by zlen_lia. rewrite Z.eqb_refl. cbn [negb].
  rewrite (reads_step _ _ _ _ _ _ (reads_u32 MSG_REPLY ltac:(done))) by zlen_lia.
  cbn [negb MSG_REPLY Z.eqb Pos.eqb].
  rewrite (reads_step _ _ _ _ _ _ (reads_u32 REPLY_DENIED ltac:(done))) by zlen_lia.
  cbn [REPLY_DENIED REPLY_ACCEPTED Z.eqb Pos.eqb]. unfold decode_denied_reply.
  rewrite (reads_step _ _ _ _ _ _ (reads_u32 _ Hr)) by zlen_lia.
  set (pre := ((([] ++ wire_u32 x) ++ wire_u32 MSG_REPLY) ++ wire_u32 REPLY_DENIED) ++ wire_u32 reject_stat).
  assert (zlen pre = 16) as Hpre by (unfold pre; autorewrite with zlen; lia).
  unfold denied_error in Herr.
  destruct (decide (reject_stat = 0)) as [->|]; [|destruct (decide (reject_stat = 1)) as [->|]].
  - destruct args as [|low [|high [|? ?]]]; try done. injection Herr as <-.
    apply Forall_cons_1 in Hargs as [Hlow [Hhigh _]%Forall_cons_1].
    cbn [REJECT_RPC_MISMATCH Z.eqb].
    change (wire_each wire_u32 [low; high]) with (wire_u32 low ++ wire_u32 high ++ []).
    rewrite (reads_step _ _ _ _ _ _ (reads_u32 _ Hlow)) by zlen_lia.
    rewrite (reads_step _ _ _ _ _ _ (reads_u32 _ Hhigh)) by zlen_lia.
    by rewrite (bind_run _ _ _ _ _ (ensure_consumed_at _ [])).
  - destruct args as [|st [|? ?]]; try done. injection Herr as <-.
    apply Forall_cons_1 in Hargs as [Hst _].
    cbn [REJECT_RPC_MISMATCH REJECT_AUTH_ERROR Z.eqb Pos.eqb].
    change (wire_each wire_u32 [st]) with (wire_u32 st ++ []).
    rewrite (reads_step _ _ _ _ _ _ (reads_u32 _ Hst)) by zlen_lia.
    by rewrite (bind_run _ _ _ _ _ (ensure_consumed_at _ [])).
  - assert (args = [] ∧ err = RpcDenied reject_stat 0) as [-> ->].
    { destruct reject_stat as [|[p|p|]|p]; destruct args; naive_solver. }
    unfold REJECT_RPC_MISMATCH, REJECT_AUTH_ERROR.
    destruct (Z.eqb_spec reject_stat 0); [done|]. destruct (Z.eqb_spec reject_stat 1); [done|].
    by rewrite (bind_run _ _ _ _ _ (ensure_consumed_at _ [])).
Qed.
