(* ===== verification/RpcClientSpec.v ===== *)
(** * The RPC connection as a state machine

    For every transport: reading a record ends within its fuel and respects
    the record limit; [call] leaves the connection marked [interrupted] exactly
    when it reports an unknown outcome, and an interrupted connection refuses
    every further call without touching the socket.  Transaction ids do not
    repeat within [2 ^ 32 - 1] calls. *)

From Stdlib Require Import Strings.String Strings.Byte.
From S2P Require Import Prelude Text Xdr XdrSpec Status Errors Rpc RpcSpec.

#[local] Open Scope Z_scope.

Section any_transport.
Context {St : Type} `{!Transport St}.
#[local] Abbreviation Client := (RpcClient St).

(** Only the socket changed. *)
Definition frame (c c' : Client) : Prop :=
  xid c' = xid c ∧ rpc_auth c' = rpc_auth c ∧ max_record_size c' = max_record_size c
  ∧ interrupted c' = interrupted c.

#[export] Instance frame_preorder : PreOrder frame.
Proof. split; [done|]. unfold frame. intros c1 c2 c3. intuition congruence. Qed.

Lemma frame_trans c1 c2 c3 : frame c1 c2 → frame c2 c3 → frame c1 c3.
Proof. by intros; etrans. Qed.

Lemma post_io {A} (m : M St ErrorKind A) c (Q : A → Prop) :
  (∀ s, fault_free (m s).2) → (∀ s s' a, m s = (s', Ok a) → Q a) →
  post (io m) c (λ a c', Q a ∧ frame c c') (λ e c', (∃ k, e = Io k) ∧ frame c c').
Proof.
  intros Hf HQ. unfold post, io, map_err, zoom. specialize (Hf (stream c)) as Hf'.
  destruct (m (stream c)) as [st [a|e|f]] eqn:Heq; cbn; [| |by destruct (Hf' f)].
  - split; [by eapply HQ|]. by repeat split.
  - split; [by eexists|]. by repeat split.
Qed.

Lemma post_io_read n c :
  0 ≤ n →
  post (io (read_exact n)) c (λ bs c', zlen bs = n ∧ frame c c')
    (λ e c', (∃ k, e = Io k) ∧ frame c c').
Proof.
  intros Hn. apply post_io; [apply read_exact_fault_free|]. intros s s' a.
  by apply read_exact_length.
Qed.

Lemma land_mask_range h : 0 ≤ h → 0 ≤ Z.land h FRAGMENT_LEN_MASK ≤ FRAGMENT_LEN_MASK.
Proof.
  intros Hh. change FRAGMENT_LEN_MASK with (Z.ones 31). rewrite Z.land_ones by lia.
  pose proof (Z.mod_pos_bound h (2 ^ 31) ltac:(lia)). change (Z.ones 31) with (2 ^ 31 - 1). lia.
Qed.

(** One fragment: the record grows (unless this was the last fragment) and
    stays within the limit. *)
Lemma post_read_fragment c0 record c :
  frame c0 c → zlen record ≤ max_record_size c0 →
  post (read_fragment record) c
    (λ r c', frame c0 c' ∧
       match r with
       | inl record' => zlen record < zlen record' ≤ max_record_size c0
       | inr record' => zlen record' ≤ max_record_size c0
       end)
    (λ _ c', frame c0 c').
Proof.
  intros Hc Hrec. unfold read_fragment. apply post_bind.
  eapply post_mono; [apply (post_io_read 4); lia| |intros e c' [_ ?]; by etrans].
  intros hb c1 [Hhb Hc1]. assert (frame c0 c1) as Hc01 by by etrans.
  assert (0 ≤ be_Z hb) as Hh by apply be_Z_range.
  pose proof (land_mask_range _ Hh) as Hm.
  destruct ((Z.land (be_Z hb) FRAGMENT_LEN_MASK =? 0) && _) eqn:Hz; [by apply post_throw|].
  apply post_bind, post_gets. unfold checked_add.
  destruct (Z.leb_spec (zlen record + Z.land (be_Z hb) FRAGMENT_LEN_MASK) usize_max);
    [|by apply post_throw].
  destruct (Z.gtb_spec (zlen record + Z.land (be_Z hb) FRAGMENT_LEN_MASK) (max_record_size c1));
    [by apply post_throw|].
  apply post_bind.
  eapply post_mono; [apply post_io_read; lia| |intros e c' [_ ?]; by etrans].
  intros frag c2 [Hfrag Hc2]. assert (frame c0 c2) as Hc02 by by etrans.
  assert (max_record_size c1 = max_record_size c0) as Hmax by apply Hc01.
  destruct (negb (Z.land (be_Z hb) LAST_FRAGMENT =? 0)) eqn:Hlast.
  - apply post_ret. split; [done|]. autorewrite with zlen. lia.
  - apply post_ret. split; [done|]. rewrite andb_true_r in Hz.
    apply Z.eqb_neq in Hz. autorewrite with zlen. lia.
Qed.

(** Reading a record terminates, and the record respects the limit. *)
Lemma post_read_record c :
  0 ≤ max_record_size c →
  post read_record c (λ r c', zlen r ≤ max_record_size c ∧ frame c c') (λ _ c', frame c c').
Proof.
  intros Hmax. unfold read_record. apply post_bind, post_gets.
  apply (post_loop (λ record c', frame c c' ∧ zlen record ≤ max_record_size c)
                   (λ record _, max_record_size c - zlen record)).
  - intros record c' [_ ?]. lia.
  - intros record c' [Hc' Hrec].
    eapply post_mono; [by apply post_read_fragment| |done].
    intros [record'|record'] c2 [Hc2 Hlen]; [split; [split; [done|lia]|lia]|done].
  - split; [done|]. rewrite zlen_nil. lia.
  - rewrite zlen_nil. lia.
Qed.

Lemma post_write_record payload c :
  post (write_record payload) c (λ _ c', frame c c') (λ _ c', frame c c').
Proof.
  unfold write_record.
  destruct (zlen payload >? FRAGMENT_LEN_MASK); [by apply post_throw|].
  destruct (zlen payload >? u32_max); [by apply post_throw|].
  assert (∀ bs c1, post (io (write_all bs)) c1 (λ _ c', frame c1 c') (λ _ c', frame c1 c')) as Hw.
  { intros bs c1. eapply post_mono; [apply (post_io _ _ (λ _, True))| |]; [|done|..].
    - apply write_all_fault_free.
    - by intros a c' [_ ?].
    - by intros e c' [_ ?]. }
  apply post_bind. eapply post_mono; [apply Hw| |done]. intros u1 c1 Hc1.
  apply post_bind. eapply post_mono; [apply Hw| |intros e c' ?; by apply (frame_trans c c1)]. intros u2 c2 Hc2.
  eapply post_mono; [apply (post_io _ _ (λ _, True))| |]; [apply flush_fault_free|done|..].
  - intros a c' [_ ?]. by apply (frame_trans c c1), (frame_trans c1 c2).
  - intros e c' [_ ?]. by apply (frame_trans c c1), (frame_trans c1 c2).
Qed.

(** The xid after [c]'s. *)
Definition succ_xid (x : Z) : Z :=
  let x := wrapping_add_u32 x 1 in if x =? 0 then 1 else x.

(** [after c c']: what a call leaves unchanged. *)
Definition call_frame (c c' : Client) : Prop :=
  xid c' = succ_xid (xid c) ∧ rpc_auth c' = rpc_auth c
  ∧ max_record_size c' = max_record_size c.

(** A connection whose record limit is one the client can hold in memory. *)
Definition client_ok (c : Client) : Prop := 0 ≤ max_record_size c ≤ isize_max.

Lemma call_refused {A} program version procedure (enc : A → M Encoder XdrError unit) args c :
  interrupted c = true →
  call program version procedure enc args c = (c, Err RpcConnectionInvalid).
Proof.
  intros Hi. unfold call, gets, mbind, M_bind. by rewrite Hi.
Qed.

Lemma call_frame_step c c1 c2 :
  call_frame c c1 → frame c1 c2 → call_frame c c2 ∧ interrupted c2 = interrupted c1.
Proof. unfold call_frame, frame. intuition congruence. Qed.

(** The outcome of a call on a connection in step. *)
Lemma post_call {A} program version procedure (enc : A → M Encoder XdrError unit) args c :
  interrupted c = false → client_ok c → (∀ e, fault_free (enc args e).2) →
  post (call program version procedure enc args) c
    (λ payload c', interrupted c' = false ∧ call_frame c c' ∧ zlen payload ≤ max_record_size c)
    (λ err c', interrupted c' = is_outcome_unknown err ∧ call_frame c c').
Proof.
  intros Hi Hok Hf. unfold call. apply post_bind, post_gets. rewrite Hi. apply post_bind.
  set (x := succ_xid (xid c)). unfold post at 1.
  change (next_xid c) with (with_xid x c, @Ok Error Z x). cbv iota beta.
  set (c1 := with_xid x c).
  assert (call_frame c c1 ∧ interrupted c1 = false) as [Hc1 Hi1] by done.
  apply post_bind, post_gets, post_bind. unfold post at 1, lift. rewrite encode_call_run.
  specialize (Hf (mkEncoder (wire_call_header x program version procedure (rpc_auth c1)))).
  destruct (enc args _) as [e [[]|err|f]]; [|done|by destruct (Hf f)].
  apply post_bind. unfold post at 1, modify. set (c2 := with_interrupted true c1).
  assert (call_frame c c2 ∧ interrupted c2 = true) as [Hc2 Hi2] by done.
  apply post_bind, post_map_err.
  eapply post_mono; [apply post_write_record| |].
  2: { intros err c' Hfr. destruct (call_frame_step _ _ _ Hc2 Hfr) as [? ->]. by rewrite Hi2. }
  intros u c3 Hfr3. destruct (call_frame_step _ _ _ Hc2 Hfr3) as [Hc3 Hi3].
  assert (max_record_size c3 = max_record_size c) as Hmax by apply Hc3.
  apply post_bind, post_map_err.
  eapply post_mono; [apply post_read_record; rewrite Hmax; apply Hok| |].
  2: { intros err c' Hfr. destruct (call_frame_step _ _ _ Hc3 Hfr) as [? ->].
       by rewrite Hi3, Hi2. }
  intros reply c4 [Hlen Hfr4]. destruct (call_frame_step _ _ _ Hc3 Hfr4) as [Hc4 Hi4].
  assert (zlen reply ≤ isize_max) as Hl by (destruct Hok; lia).
  pose proof (decode_reply_fault_free x reply Hl) as Hdf.
  destruct (decode_reply x reply) as [payload|err|f] eqn:Hdec; [| |by destruct (Hdf f)].
  { apply decode_reply_Ok_inv in Hdec as (fl & v & pad & _ & _ & _ & ->); [|done].
    apply post_bind, post_ret. split_and!; [done|apply Hc4|].
    unfold wire_accepted in Hlen. zlen_lia. }
  destruct (definite_error err) eqn:Hd.
  - apply post_bind. unfold post at 1, modify. apply post_throw. by destruct err.
  - apply post_throw. by rewrite Hi4, Hi3, Hi2.
Qed.

(** A call on any connection, in step or not. *)
Lemma post_call_any {A} program version procedure (enc : A → M Encoder XdrError unit) args c :
  client_ok c → (∀ e, fault_free (enc args e).2) →
  post (call program version procedure enc args) c
    (λ payload c', max_record_size c' = max_record_size c ∧ zlen payload ≤ max_record_size c)
    (λ _ c', max_record_size c' = max_record_size c).
Proof.
  intros Hok Hf. destruct (interrupted c) eqn:Hi.
  - unfold post. by rewrite call_refused.
  - eapply post_mono; [by apply post_call| |].
    + intros payload c' (_ & (_ & _ & Hm) & Hl). done.
    + intros err c' (_ & _ & _ & Hm). done.
Qed.

(** ** Sequences of calls *)

(** A call with its arguments, as a caller would issue it. *)
Record request := mkRequest {
  req_program : Z;
  req_version : Z;
  req_procedure : Z;
  req_args : list byte;
}.

Definition issue (r : request) : M Client Error (list byte) :=
  call (req_program r) (req_version r) (req_procedure r) (λ a, extend_from_slice a) (req_args r).

(** The outcomes of a sequence of calls made one after the other, errors
    included, and the connection they leave. *)
Fixpoint issue_all (rs : list request) (c : Client) : Client * list (outcome Error (list byte)) :=
  match rs with
  | [] => (c, [])
  | r :: rest =>
      let '(c1, o) := issue r c in
      let '(c2, os) := issue_all rest c1 in
      (c2, o :: os)
  end.

Lemma issue_all_refused rs c :
  interrupted c = true →
  issue_all rs c = (c, replicate (length rs) (Err RpcConnectionInvalid)).
Proof.
  intros Hi. induction rs as [|r rs IH]; simpl; [done|].
  unfold issue. rewrite call_refused by done. by rewrite IH.
Qed.

(** ** Transaction ids *)

Lemma succ_xid_closed x :
  is_u32 x → succ_xid x = x mod u32_max + 1.
Proof.
  intros Hx. unfold succ_xid, wrapping_add_u32. int_unfold.
  destruct (decide (x = 2 ^ 32 - 1)) as [->|]; [done|].
  rewrite !Z.mod_small by lia. destruct (Z.eqb_spec (x + 1) 0); lia.
Qed.

(** The [n]-th transaction id after [x]. *)
Fixpoint nth_xid (x : Z) (n : nat) : Z :=
  match n with O => x | S k => succ_xid (nth_xid x k) end.

Lemma nth_xid_closed x n :
  is_u32 x → (0 < n)%nat → nth_xid x n = (x + Z.of_nat n - 1) mod u32_max + 1.
Proof.
  intros Hx Hn. induction n as [|n IH]; [lia|]. cbn [nth_xid].
  destruct (decide (n = 0%nat)) as [->|Hn0].
  - cbn [nth_xid]. rewrite succ_xid_closed by done. do 2 f_equal. lia.
  - rewrite IH by lia. rewrite succ_xid_closed.
    + f_equal. rewrite Zplus_mod_idemp_l. f_equal. lia.
    + pose proof (Z.mod_pos_bound (x + Z.of_nat n - 1) u32_max ltac:(done)). int_unfold; lia.
Qed.

Lemma nth_xid_inj x i j :
  is_u32 x → (0 < i < j)%nat → Z.of_nat j - Z.of_nat i < u32_max → nth_xid x i ≠ nth_xid x j.
Proof.
  intros Hx Hij Hlt Heq. rewrite !nth_xid_closed in Heq by (done || lia).
  assert ((x + Z.of_nat j - 1) mod u32_max = (x + Z.of_nat i - 1) mod u32_max) as H by lia.
  apply Z.cong_iff_0 in H.
  replace (x + Z.of_nat j - 1 - (x + Z.of_nat i - 1)) with (Z.of_nat j - Z.of_nat i) in H by lia.
  rewrite Z.mod_small in H; lia.
Qed.

End any_transport.
