(* ===== verification/RpcPeer.v ===== *)
(** * A peer that speaks record marking

    [Peer] is a [Transport] built from a server: what the client writes is
    collected until [flush], which hands the record to the server and makes
    the bytes it answers with available to [read_exact].  Against it, records
    survive any fragmentation, and a call delivers the message of RFC 5531 and
    returns the payload of the reply (src/src/rpc.rs). *)

From Stdlib Require Import Strings.String Strings.Byte.
From S2P Require Import Prelude Text Xdr XdrSpec Status Errors Rpc RpcSpec RpcClientSpec.

#[local] Open Scope Z_scope.

(** ** Record marking *)

Definition wire_fragment (last : bool) (data : list byte) : list byte :=
  wire_u32 (if last then Z.lor LAST_FRAGMENT (zlen data) else zlen data) ++ data.

(** A record as the fragments [init] followed by the final fragment [last]. *)
Definition wire_record (init : list (list byte)) (last : list byte) : list byte :=
  mjoin (wire_fragment false <$> init) ++ wire_fragment true last.

(** Fragment lengths have 31 bits, and only the final one may be empty. *)
Definition fragments_ok (init : list (list byte)) (last : list byte) : Prop :=
  Forall (λ f, 0 < zlen f ≤ FRAGMENT_LEN_MASK) init ∧ zlen last ≤ FRAGMENT_LEN_MASK.

Lemma land_mask_small n : 0 ≤ n ≤ FRAGMENT_LEN_MASK → Z.land n FRAGMENT_LEN_MASK = n.
Proof.
  intros Hn. change FRAGMENT_LEN_MASK with (Z.ones 31) in *. rewrite Z.land_ones by lia.
  apply Z.mod_small. change (Z.ones 31) with (2 ^ 31 - 1) in Hn. lia.
Qed.

Lemma land_last_small n : 0 ≤ n ≤ FRAGMENT_LEN_MASK → Z.land n LAST_FRAGMENT = 0.
Proof.
  intros Hn. rewrite <- (land_mask_small n) by done. rewrite <- Z.land_assoc.
  change (Z.land FRAGMENT_LEN_MASK LAST_FRAGMENT) with 0. apply Z.land_0_r.
Qed.

(** What the reader finds in a fragment header. *)
Lemma fragment_header last n (h := if last : bool then Z.lor LAST_FRAGMENT n else n) :
  0 ≤ n ≤ FRAGMENT_LEN_MASK →
  is_u32 h ∧ Z.land h FRAGMENT_LEN_MASK = n ∧ negb (Z.land h LAST_FRAGMENT =? 0) = last.
Proof.
  intros Hn. subst h. destruct last.
  - split_and!.
    + pose proof (Z.add_lor_land LAST_FRAGMENT n) as H. rewrite (Z.land_comm _ n) in H.
      rewrite land_last_small in H by done. unfold LAST_FRAGMENT, FRAGMENT_LEN_MASK in *.
      int_unfold; lia.
    + rewrite Z.land_lor_distr_l. change (Z.land LAST_FRAGMENT FRAGMENT_LEN_MASK) with 0.
      rewrite Z.lor_0_l. by apply land_mask_small.
    + rewrite Z.land_lor_distr_l, Z.land_diag, land_last_small by done. done.
  - rewrite land_last_small, land_mask_small by done. split_and!; [|done..].
    unfold FRAGMENT_LEN_MASK in *. int_unfold; lia.
Qed.

(** ** The peer *)

Class Server (Srv : Type) := serve : Srv → list byte → Srv * list byte.

Record Peer (Srv : Type) := mkPeer {
  peer_server : Srv;
  peer_rx : list byte;
  peer_tx : list byte;
}.
Arguments mkPeer {Srv}.
Arguments peer_server {Srv}.
Arguments peer_rx {Srv}.
Arguments peer_tx {Srv}.

Section peer.
Context {Srv : Type} `{!Server Srv}.

Definition peer_write_all (bs : list byte) : M (Peer Srv) ErrorKind unit := λ p,
  (mkPeer (peer_server p) (peer_rx p) (peer_tx p ++ bs), Ok tt).

(** The record is complete when its length is what its header says. *)
Definition peer_flush : M (Peer Srv) ErrorKind unit := λ p,
  let header := be_Z (ztake 4 (peer_tx p)) in
  let request := zdrop 4 (peer_tx p) in
  if header =? Z.lor LAST_FRAGMENT (zlen request) then
    let '(srv, reply) := serve (peer_server p) request in
    (mkPeer srv (peer_rx p ++ reply) [], Ok tt)
  else (p, Err ConnectionReset).

Definition peer_read_exact (n : Z) : M (Peer Srv) ErrorKind (list byte) := λ p,
  if n <=? zlen (peer_rx p)
  then (mkPeer (peer_server p) (zdrop n (peer_rx p)) (peer_tx p), Ok (ztake n (peer_rx p)))
  else (mkPeer (peer_server p) [] (peer_tx p), Err UnexpectedEofKind).

#[export] Program Instance peer_transport : Transport (Peer Srv) := {
  write_all := peer_write_all;
  flush := peer_flush;
  read_exact := peer_read_exact;
}.
Next Obligation. done. Qed.
Next Obligation.
  intros p. unfold peer_flush. destruct (_ =? _); [|done]. by destruct (serve _ _).
Qed.
Next Obligation. intros n p. unfold peer_read_exact. by destruct (_ <=? _). Qed.
Next Obligation.
  intros n p p' bs Hn H. unfold peer_read_exact in H.
  destruct (Z.leb_spec n (zlen (peer_rx p))); [|done]. injection H as <- <-.
  by apply zlen_take.
Qed.

#[local] Abbreviation Client := (RpcClient (Peer Srv)).

(** [c] with [rx] waiting to be read. *)
Definition with_rx (rx : list byte) (c : Client) : Client :=
  with_stream (mkPeer (peer_server (stream c)) rx (peer_tx (stream c))) c.

Lemma read_exact_rx bs rest (c : Client) :
  peer_rx (stream c) = bs ++ rest →
  io (read_exact (zlen bs)) c = (with_rx rest c, Ok bs).
Proof.
  intros Hrx. unfold io, map_err, zoom. cbn [read_exact peer_transport]. unfold peer_read_exact.
  rewrite Hrx. destruct (Z.leb_spec (zlen bs) (zlen (bs ++ rest))) as [|Hlt]; [|zlen_lia].
  by rewrite ztake_app, zdrop_app.
Qed.

(** One fragment, whatever has been read before it. *)
Lemma read_fragment_rx last data rest record (c : Client) :
  (last = false → 0 < zlen data) → zlen data ≤ FRAGMENT_LEN_MASK →
  zlen (record ++ data) ≤ max_record_size c ≤ usize_max →
  peer_rx (stream c) = wire_fragment last data ++ rest →
  read_fragment record c
  = (with_rx rest c, Ok (if last then inr (record ++ data) else inl (record ++ data))).
Proof.
  intros Hne Hmask Hmax Hrx. pose proof (zlen_nonneg data) as Hd.
  destruct (fragment_header last (zlen data)) as (Hu & Hl & Hb); [lia|].
  unfold read_fragment, wire_fragment in *. rewrite <- app_assoc in Hrx.
  set (h := if last then Z.lor LAST_FRAGMENT (zlen data) else zlen data) in *.
  rewrite <- (zlen_wire_u32 h) at 1. rewrite (bind_run _ _ _ _ _ (read_exact_rx _ _ _ Hrx)).
  assert (be_Z (wire_u32 h) = h) as ->.
  { unfold wire_u32. rewrite be_Z_be_bytes. apply Z.mod_small. int_unfold; lia. }
  rewrite Hl, Hb.
  destruct ((zlen data =? 0) && negb last) eqn:Hz.
  { apply andb_true_iff in Hz as [Hz Hnl]. apply Z.eqb_eq in Hz. destruct last; [done|].
    specialize (Hne eq_refl). lia. }
  rewrite (bind_run _ _ _ (with_rx (data ++ rest) c) (max_record_size c)) by done.
  unfold checked_add. autorewrite with zlen in Hmax.
  destruct (Z.leb_spec (zlen record + zlen data) usize_max); [|lia].
  destruct (Z.gtb_spec (zlen record + zlen data) (max_record_size c)); [lia|].
  replace (zlen record + zlen data - zlen record) with (zlen data) by lia.
  rewrite (bind_run _ _ _ _ _ (read_exact_rx data rest (with_rx (data ++ rest) c) eq_refl)).
  by destruct last.
Qed.

Lemma read_fragments_rx init last rest record fuel (c : Client) :
  fragments_ok init last →
  zlen (record ++ mjoin init ++ last) ≤ max_record_size c ≤ usize_max →
  max_record_size c - zlen record < Zpos fuel →
  peer_rx (stream c) = wire_record init last ++ rest →
  loop fuel read_fragment record c = (with_rx rest c, Ok (record ++ mjoin init ++ last)).
Proof.
  intros [Hinit Hlast]. revert record fuel c.
  induction Hinit as [|f init Hf Hinit IH]; intros record fuel c Hmax Hfuel Hrx.
  - apply loop_break. by rewrite (read_fragment_rx true last rest).
  - unfold wire_record in Hrx. cbn [fmap list_fmap mjoin list_join] in *.
    rewrite <- !app_assoc in *.
    assert (zlen (record ++ f) ≤ max_record_size c ≤ usize_max) by zlen_lia.
    assert (1 < Zpos fuel) as Hfuel1 by (clear IH; zlen_lia).
    erewrite loop_continue; [| |exact Hfuel1].
    2: { apply (read_fragment_rx false f); [intros _; lia|lia|done|exact Hrx]. }
    rewrite IH; [| | |unfold wire_record; cbn; by rewrite <- app_assoc].
    + unfold with_rx. cbn. by rewrite <- !app_assoc.
    + cbn [max_record_size with_rx with_stream]. by rewrite <- !app_assoc.
    + cbn [max_record_size with_rx with_stream]. clear IH. zlen_lia.
Qed.

(** A record is read back whole, however the peer fragmented it. *)
Lemma read_record_rx init last rest (c : Client) :
  fragments_ok init last →
  zlen (mjoin init ++ last) ≤ max_record_size c ≤ usize_max →
  peer_rx (stream c) = wire_record init last ++ rest →
  read_record c = (with_rx rest c, Ok (mjoin init ++ last)).
Proof.
  intros Hok Hmax Hrx. unfold read_record. rewrite (bind_run _ _ _ c (max_record_size c)) by done.
  apply (read_fragments_rx init last rest []); [done|done| |done]. zlen_lia.
Qed.

(** Writing a record makes the peer serve it. *)
Lemma write_record_serves payload (c : Client) srv reply :
  zlen payload ≤ FRAGMENT_LEN_MASK → peer_tx (stream c) = [] →
  serve (peer_server (stream c)) payload = (srv, reply) →
  write_record payload c
  = (with_stream (mkPeer srv (peer_rx (stream c) ++ reply) []) c, Ok tt).
Proof.
  intros Hl Htx Hs. unfold write_record.
  destruct (Z.gtb_spec (zlen payload) FRAGMENT_LEN_MASK); [lia|].
  destruct (Z.gtb_spec (zlen payload) u32_max); [unfold FRAGMENT_LEN_MASK in *; int_unfold; lia|].
  unfold io, map_err, zoom, mbind, M_bind.
  cbn [write_all flush peer_transport peer_write_all stream with_stream peer_tx peer_server peer_rx
       outcome_map_err].
  rewrite Htx. cbn [app]. unfold peer_flush. cbn [peer_tx peer_server peer_rx].
  pose proof (zlen_nonneg payload).
  destruct (fragment_header true (zlen payload)) as (Hu & _ & _); [lia|].
  change (be_bytes 4 ?h) with (wire_u32 h).
  rewrite ztake_app_eq, zdrop_app_eq by apply zlen_wire_u32.
  assert (be_Z (wire_u32 (Z.lor LAST_FRAGMENT (zlen payload)))
          = Z.lor LAST_FRAGMENT (zlen payload)) as ->.
  { unfold wire_u32. rewrite be_Z_be_bytes. apply Z.mod_small. int_unfold; lia. }
  rewrite Z.eqb_refl, Hs. done.
Qed.

(** Nothing in flight in either direction. *)
Definition quiet (c : Client) : Prop := peer_rx (stream c) = [] ∧ peer_tx (stream c) = [].

(** [c] after a call that used transaction id [x] and left the server in [srv]. *)
Definition after_call (x : Z) (srv : Srv) (intr : bool) (c : Client) : Client :=
  mkRpcClient (mkPeer srv [] []) x (rpc_auth c) (max_record_size c) intr.

(** A call whose reply arrives: the server got the RFC 5531 message for the
    arguments, and the outcome is that of decoding its reply. *)
Lemma call_served {A} program version procedure (enc : A → M Encoder XdrError unit) wire ok args
    (c : Client) srv init last (x := succ_xid (xid c)) (reply := mjoin init ++ last) :
  EncodesTo enc wire ok → ok args →
  interrupted c = false → quiet c → zlen reply ≤ max_record_size c ≤ usize_max →
  zlen (wire_call x program version procedure (rpc_auth c) (wire args)) ≤ FRAGMENT_LEN_MASK →
  fragments_ok init last →
  serve (peer_server (stream c)) (wire_call x program version procedure (rpc_auth c) (wire args))
    = (srv, wire_record init last) →
  call program version procedure enc args c =
  match decode_reply x reply with
  | Ok payload => (after_call x srv false c, Ok payload)
  | Err err =>
      if definite_error err then (after_call x srv false c, Err err)
      else (after_call x srv true c, Err (OutcomeUnknown err))
  | Fault f => (after_call x srv true c, Fault f)
  end.
Proof.
  intros He Ha Hi [Hrx Htx] Hmax Hlen Hfr Hs. unfold call.
  rewrite (bind_run _ _ _ c false) by (unfold gets; by rewrite Hi). cbv beta iota.
  rewrite (bind_run _ _ _ (with_xid x c) x) by done.
  rewrite (bind_run _ _ _ (with_xid x c) (rpc_auth c)) by done.
  rewrite (bind_run _ _ _ (with_xid x c) (wire_call x program version procedure (rpc_auth c) (wire args)))
    by (unfold lift; by rewrite (encode_call_wire _ _ _ _ _ _ _ _ _ He Ha)).
  set (c1 := with_interrupted true (with_xid x c)).
  rewrite (bind_run _ _ _ c1 tt) by done.
  set (c2 := with_stream (mkPeer srv (wire_record init last) []) c1).
  rewrite (bind_run _ _ _ c2 tt).
  2: { unfold map_err. rewrite (write_record_serves _ c1 srv (wire_record init last) Hlen Htx Hs).
       subst c2. cbn [stream c1 with_interrupted with_xid]. by rewrite Hrx. }
  set (c3 := with_stream (mkPeer srv [] []) c1).
  rewrite (bind_run _ _ _ c3 reply).
  2: { unfold map_err. rewrite (read_record_rx init last []); [done..|].
       by rewrite app_nil_r. }
  destruct (decode_reply x reply) as [payload|err|f]; [done| |done].
  by destruct (definite_error err).
Qed.

End peer.
