(* ===== verification/Cut.v ===== *)
(** * Runs cut off at an await point

    [upto m s Q X D]: [m] ends with a value, an error, or by being dropped; it
    neither panics nor runs out of fuel.

    [Cut m b]: every run of [m] is a run of [b] with the same outcome, or it is
    dropped and has done no more than [b] would have done.  [erase] forgets
    what only the asynchronous side keeps; [hist] is the part of the state in
    which progress shows, and it only grows.  The instances follow the code. *)

From stdpp Require Import list.
From S2P Require Import Prelude Errors.

#[local] Open Scope Z_scope.

(** ** Methods that may be dropped *)

Definition upto {S E A} (m : M S E A) (s : S) (Q : A → S → Prop) (X : E → S → Prop) (D : S → Prop) : Prop :=
  match m s with
  | (s', Ok a) => Q a s'
  | (s', Err e) => X e s'
  | (s', Fault Dropped) => D s'
  | (_, Fault _) => False
  end.

Section upto.
Context {S E : Type}.
Implicit Types (s : S).

Lemma upto_mono {A} (m : M S E A) s (Q Q' : A → S → Prop) (X X' : E → S → Prop) (D D' : S → Prop) :
  upto m s Q X D → (∀ a s', Q a s' → Q' a s') → (∀ e s', X e s' → X' e s') → (∀ s', D s' → D' s') →
  upto m s Q' X' D'.
Proof. unfold upto. destruct (m s) as [s' [a|e|[]]]; eauto. Qed.

Lemma upto_bind {A B} (m : M S E A) (k : A → M S E B) s Q X D :
  upto m s (λ a s', upto (k a) s' Q X D) X D → upto (m ≫= k) s Q X D.
Proof. unfold upto, mbind, M_bind. destruct (m s) as [s' [a|e|[]]]; done. Qed.

Lemma upto_bind_assoc {A B C} (m1 : M S E A) (m2 : A → M S E B) (k : B → M S E C) s Q X D :
  upto (m1 ≫= m2) s (λ b s', upto (k b) s' Q X D) X D → upto (a ← m1; b ← m2 a; k b) s Q X D.
Proof.
  unfold upto, mbind, M_bind. destruct (m1 s) as [s1 [a|e|[]]]; [|done..]. by destruct (m2 a s1) as [s2 [b|e|[]]].
Qed.

Lemma upto_map_err {F A} (g : E → F) (m : M S E A) s Q (X : F → S → Prop) D :
  upto m s Q (λ e, X (g e)) D → upto (map_err g m) s Q X D.
Proof. unfold upto, map_err. by destruct (m s) as [s' [a|e|[]]]. Qed.

Lemma upto_lift {A} (o : outcome E A) s (Q : A → S → Prop) (X : E → S → Prop) D :
  fault_free o → (∀ a, o = Ok a → Q a s) → (∀ e, o = Err e → X e s) → upto (lift o) s Q X D.
Proof. intros Hf HQ HX. unfold upto, lift. destruct o as [a|e|f]; [by apply HQ|by apply HX|by destruct (Hf f)]. Qed.

Lemma upto_loop {L A} (I : L → S → Prop) (μ : L → S → Z) (body : L → M S E (L + A)) Q X D :
  (∀ l s, I l s → 0 ≤ μ l s) →
  (∀ l s, I l s →
     upto (body l) s (λ r s', match r with inl l' => I l' s' ∧ μ l' s' < μ l s | inr a => Q a s' end) X D) →
  ∀ fuel l s, I l s → μ l s < Zpos fuel → upto (loop fuel body l) s Q X D.
Proof.
  intros Hnn Hbody fuel. induction fuel as [|p IH] using Pos.peano_ind; intros l s HI Hm;
    specialize (Hbody _ _ HI); unfold upto in *.
  - specialize (Hnn _ _ HI) as Hn. unfold loop, loop_step; simpl.
    destruct (body l s) as [s' [[l'|a]|e|[]]]; try done.
    destruct Hbody as [HI' Hlt]. specialize (Hnn _ _ HI'). lia.
  - rewrite loop_succ. destruct (body l s) as [s' [[l'|a]|e|[]]]; try done.
    destruct Hbody as [HI' Hlt]. apply IH; [done|lia].
Qed.

(** What holds of every state in which the method may end. *)
Lemma upto_always {A} (m : M S E A) s (I : S → Prop) :
  upto m s (λ _, I) (λ _, I) I → I (m s).1.
Proof. unfold upto. by destruct (m s) as [s' [a|e|[]]]. Qed.

End upto.

(** ** Methods that follow another one *)

Class Erasure (S S' : Type) := erase : S → S'.
Class History (S H : Type) := hist : S → list H.

Section cut.
Context {S S' H : Type} `{!Erasure S S', !History S' H}.

Definition dropped_within {E A} (b : M S' E A) (s s' : S) : Prop :=
  hist (erase s) `prefix_of` hist (erase s') ∧ hist (erase s') `prefix_of` hist (b (erase s)).1.

Class Cut {E A} (m : M S E A) (b : M S' E A) : Prop := {
  cut_grows t : hist t `prefix_of` hist (b t).1;
  cut_run s :
    match m s with
    | (s', Fault Dropped) => dropped_within b s s'
    | (s', o) => b (erase s) = (erase s', o)
    end;
}.

(** The same for methods whose values correspond by [V]. *)
Definition same_outcome {E A A'} (V : A → A' → Prop) (o : outcome E A) (o' : outcome E A') : Prop :=
  match o, o' with
  | Ok a, Ok a' => V a a'
  | Err e, Err e' => e = e'
  | Fault f, Fault f' => f = f'
  | _, _ => False
  end.

Record CutR {E A A'} (V : A → A' → Prop) (m : M S E A) (b : M S' E A') : Prop := {
  cutR_grows t : hist t `prefix_of` hist (b t).1;
  cutR_run s :
    match m s with
    | (s', Fault Dropped) => dropped_within b s s'
    | (s', o) => (b (erase s)).1 = erase s' ∧ same_outcome V o (b (erase s)).2
    end;
}.

Lemma cut_rel {E A} (m : M S E A) b : Cut m b ↔ CutR eq m b.
Proof.
  split; intros [Hg Hr]; (split; [done|]; intros s; specialize (Hr s); unfold same_outcome in *;
    destruct (m s) as [s' [a|e|[]]]; try done; destruct (b (erase s)) as [t [a'|e'|f']]; naive_solver).
Qed.

Lemma cutR_ext {E A A'} (V : A → A' → Prop) (m : M S E A) (b b' : M S' E A') :
  (∀ t, b t = b' t) → CutR V m b → CutR V m b'.
Proof.
  intros Heq [Hg Hr]. split; [intros t; rewrite <- Heq; apply Hg|]. intros s. specialize (Hr s).
  unfold dropped_within in *. by rewrite Heq in Hr.
Qed.
Lemma cut_ext {E A} (m : M S E A) (b b' : M S' E A) : (∀ t, b t = b' t) → Cut m b → Cut m b'.
Proof. intros Heq Hm%cut_rel. by eapply cut_rel, cutR_ext. Qed.

Lemma cutR_bind {E A A' B B'} (V : A → A' → Prop) (U : B → B' → Prop) (m : M S E A) b (k : A → M S E B) k' :
  CutR V m b → (∀ a a', V a a' → CutR U (k a) (k' a')) → (∀ a' t, hist t `prefix_of` hist (k' a' t).1) →
  CutR U (m ≫= k) (b ≫= k').
Proof.
  intros [Hg Hr] Hk Hk'. assert (∀ t, hist (b t).1 `prefix_of` hist ((b ≫= k') t).1) as Hbk.
  { intros t. unfold mbind, M_bind. destruct (b t) as [t' [a|e|f]]; [apply Hk'|done..]. }
  split; [intros t; etrans; [apply Hg|apply Hbk]|]. intros s. specialize (Hr s). specialize (Hg (erase s)).
  specialize (Hbk (erase s)). unfold dropped_within in *. unfold mbind at 1, M_bind at 1.
  destruct (m s) as [s1 [a|e|[]]].
  2-4: (destruct Hr as [Hs Ho]; unfold mbind, M_bind; destruct (b (erase s)) as [t [a'|e'|f']]; done).
  2: { destruct Hr as [H1 H2]. split; [done|]. by etrans. }
  destruct Hr as [Hs Ho]. unfold mbind, M_bind in *. destruct (b (erase s)) as [t [a'|e'|f']]; [|done..].
  simpl in Hs, Ho, Hg. subst t. specialize (Hk a a' Ho) as [_ Hk]. specialize (Hk s1).
  destruct (k a s1) as [s2 [a2|e|[]]]; try done. destruct Hk as [H1 H2]. split; [by etrans|done].
Qed.

Lemma cutR_grows_of {E A A' B'} (V : A → A' → Prop) (m : B' → M S E A) (b : B' → M S' E A') :
  (∀ x, CutR V (m x) (b x)) → ∀ x t, hist t `prefix_of` hist (b x t).1.
Proof. intros Hm x. apply (Hm x). Qed.

Lemma cutR_ret {E A A'} (V : A → A' → Prop) a a' : V a a' → CutR (E := E) V (mret a) (mret a').
Proof. by split. Qed.
Lemma cutR_throw {E A A'} (V : A → A' → Prop) (e : E) : CutR V (throw e) (throw e).
Proof. by split. Qed.
Lemma cutR_gets {E A A'} (V : A → A' → Prop) (g : S → A) g' :
  (∀ s, V (g s) (g' (erase s))) → CutR (E := E) V (gets g) (gets g').
Proof. intros Hg. split; [done|]. intros s. by split; [|apply Hg]. Qed.

Definition sum_rel {A A' B B'} (V : A → A' → Prop) (U : B → B' → Prop) (x : A + B) (y : A' + B') : Prop :=
  match x, y with inl a, inl a' => V a a' | inr c, inr c' => U c c' | _, _ => False end.

Lemma cutR_attempt {E F A A'} (V : A → A' → Prop) (m : M S E A) b :
  CutR V m b → CutR (E := F) (sum_rel V eq) (attempt m) (attempt b).
Proof.
  intros [Hg Hr]. assert (∀ t, (attempt (F := F) b t).1 = (b t).1) as Heq
    by (intros t; unfold attempt; by destruct (b t) as [t' [a|e|f]]).
  split; [intros t; by rewrite Heq|]. intros s. specialize (Hr s). unfold dropped_within in *. rewrite Heq.
  unfold attempt. destruct (m s) as [s1 [a|e|[]]]; simpl; try done; destruct Hr as [Hs Ho];
    by destruct (b (erase s)) as [t [a'|e'|f']].
Qed.

Lemma loop_grows {E L A} (body : L → M S' E (L + A)) :
  (∀ l t, hist t `prefix_of` hist (body l t).1) → ∀ fuel l t, hist t `prefix_of` hist (loop fuel body l t).1.
Proof.
  intros Hb fuel. induction fuel as [|p IH] using Pos.peano_ind; intros l t; specialize (Hb l t).
  - unfold loop, loop_step; simpl. by destruct (body l t) as [t1 [[l'|a]|e|f]].
  - rewrite loop_succ. destruct (body l t) as [t1 [[l'|a]|e|f]]; [|done..]. by etrans.
Qed.

Lemma cutR_loop {E L A A'} (V : A → A' → Prop) (body : L → M S E (L + A)) body' fuel l :
  (∀ l, CutR (sum_rel eq V) (body l) (body' l)) → CutR V (loop fuel body l) (loop fuel body' l).
Proof.
  intros Hb. pose proof (loop_grows body' (cutR_grows_of _ _ _ Hb)) as Hg. split; [apply Hg|]. intros s. revert l s.
  induction fuel as [|p IH] using Pos.peano_ind; intros l s; destruct (Hb l) as [H2 H1]; specialize (H1 s);
    specialize (H2 (erase s)); unfold dropped_within in *.
  - unfold loop, loop_step; simpl. destruct (body l s) as [s1 [[l'|a]|e|[]]]; destruct H1 as [H1 H3];
      destruct (body' l (erase s)) as [t1 [[l2|a2]|e2|f2]]; try done.
  - rewrite !loop_succ. destruct (body l s) as [s1 [[l'|a]|e|[]]]; destruct H1 as [H1 H3];
      destruct (body' l (erase s)) as [t1 [[l2|a2]|e2|f2]]; try done; simpl in *.
    + subst l2 t1. specialize (IH l' s1). destruct (loop p body l' s1) as [s2 [a|e|[]]]; try done.
      destruct IH as [IH1 IH2]. split; [by etrans|done].
    + split; [done|]. etrans; [done|apply Hg].
Qed.

#[export] Instance cut_ret {E A} (a : A) : Cut (E := E) (mret a) (mret a).
Proof. by split. Qed.
#[export] Instance cut_throw {E A} (e : E) : Cut (A := A) (throw e) (throw e).
Proof. by split. Qed.
#[export] Instance cut_lift {E A} (o : outcome E A) : Cut (lift o) (lift o).
Proof. split; [done|]. intros s. unfold lift. by destruct o as [a|e|[]]. Qed.
#[export] Instance cut_bind {E A B} (m : M S E A) b (k : A → M S E B) k' :
  Cut m b → (∀ a, Cut (k a) (k' a)) → Cut (m ≫= k) (b ≫= k').
Proof.
  rewrite !cut_rel. intros Hm Hk. eapply cutR_bind; [exact Hm| |intros a'; apply cut_grows].
  intros a ? <-. apply cut_rel, Hk.
Qed.
#[export] Instance cut_if {E A} (c : bool) (m1 m2 : M S E A) b1 b2 :
  Cut m1 b1 → Cut m2 b2 → Cut (if c then m1 else m2) (if c then b1 else b2).
Proof. by destruct c. Qed.
#[export] Instance cut_map_err {E F A} (g : E → F) (m : M S E A) b : Cut m b → Cut (map_err g m) (map_err g b).
Proof.
  intros [Hg Hr]. assert (∀ t, (map_err g b t).1 = (b t).1) as Heq
    by (intros t; unfold map_err; by destruct (b t)).
  split; [intros t; by rewrite Heq|]. intros s. specialize (Hr s). unfold map_err at 1, dropped_within. rewrite Heq.
  destruct (m s) as [s1 [a|e|[]]]; simpl; try done; unfold map_err; by rewrite Hr.
Qed.
Lemma sum_rel_eq {A B} (x y : A + B) : sum_rel eq eq x y ↔ x = y.
Proof. destruct x, y; simpl; naive_solver. Qed.
Lemma cutR_mono {E A A'} (V U : A → A' → Prop) (m : M S E A) b : CutR V m b → (∀ a a', V a a' → U a a') → CutR U m b.
Proof.
  intros [Hg Hr] HV. split; [done|]. intros s. specialize (Hr s). destruct (m s) as [s' [a|e|[]]]; try done.
  destruct Hr as [Hs Ho]. split; [done|]. destruct (b (erase s)) as [t [a'|e'|f']]; simpl in *; auto.
Qed.
#[export] Instance cut_attempt {E F A} (m : M S E A) b : Cut m b → Cut (E := F) (attempt m) (attempt b).
Proof. rewrite !cut_rel. intros Hm. eapply cutR_mono; [by apply cutR_attempt|]. intros x y. apply sum_rel_eq. Qed.
#[export] Instance cut_gets {E A} (g : S → A) g' : (∀ s, g s = g' (erase s)) → Cut (E := E) (gets g) (gets g').
Proof. intros Hg. by apply cut_rel, cutR_gets. Qed.
Lemma cut_modify {E} (g : S → S) g' :
  (∀ s, erase (g s) = g' (erase s)) → (∀ t, hist (g' t) = hist t) → Cut (E := E) (modify g) (modify g').
Proof. intros Hg Hh. split; intros s; unfold modify; simpl; [by rewrite Hh|by rewrite Hg]. Qed.
#[export] Instance cut_loop {E L A} (body : L → M S E (L + A)) body' fuel l :
  (∀ l, Cut (body l) (body' l)) → Cut (loop fuel body l) (loop fuel body' l).
Proof.
  intros Hb. apply cut_rel, cutR_loop. intros l0. eapply cutR_mono; [apply cut_rel, Hb|].
  intros x y. apply sum_rel_eq.
Qed.
#[export] Instance cut_break {L A E} (a : A) : Cut (break_ (E := E) (L := L) a) (break_ a).
Proof. apply cut_ret. Qed.
#[export] Instance cut_continue {L A E} (l : L) : Cut (continue_ (E := E) (A := A) l) (continue_ l).
Proof. apply cut_ret. Qed.

(** What is known of [b] holds of [m] unless it is dropped. *)
Lemma cut_upto {E A} (m : M S E A) b s Q X :
  Cut m b → post b (erase s) Q X →
  upto m s (λ a s', Q a (erase s')) (λ e s', X e (erase s')) (dropped_within b s).
Proof.
  intros [_ Hr] Hb. specialize (Hr s). unfold upto, post in *.
  destruct (m s) as [s' [a|e|[]]]; try done; by rewrite Hr in Hb.
Qed.

End cut.
#[global] Hint Mode Erasure ! ! : typeclass_instances.
#[global] Hint Mode History ! - : typeclass_instances.

(** A method of a field. *)
Lemma cutR_zoom {S S' T T' H E A A'} `{!Erasure S S', !History S' H, !Erasure T T', !History T' H} (V : A → A' → Prop)
    (p : S → T) u (p' : S' → T') u' (m : M T E A) b :
  (∀ s, erase (p s) = p' (erase s)) → (∀ t s, erase (u t s) = u' (erase t) (erase s)) →
  (∀ s, hist s = hist (p' s)) → (∀ t s, hist (u' t s) = hist t) →
  CutR V m b → CutR V (zoom p u m) (zoom p' u' b).
Proof.
  intros Hp Hu Hh Hh' [Hg Hr]. assert (∀ t, zoom p' u' b t = (u' (b (p' t)).1 t, (b (p' t)).2)) as Heq
    by (intros t; unfold zoom; by destruct (b (p' t))).
  split; [intros t; rewrite Heq; cbn [fst]; by rewrite Hh', Hh|]. intros s. specialize (Hr (p s)). unfold dropped_within in *.
  rewrite Heq. cbn [fst snd]. unfold zoom at 1. rewrite Hp in *. destruct (m (p s)) as [t1 [a|e|[]]];
    try (rewrite Hu; destruct Hr as [-> ?]; done).
  rewrite Hu, !Hh', Hh. done.
Qed.

Lemma cut_zoom {S S' T T' H E A} `{!Erasure S S', !History S' H, !Erasure T T', !History T' H} (p : S → T) u (p' : S' → T') u'
    (m : M T E A) b :
  (∀ s, erase (p s) = p' (erase s)) → (∀ t s, erase (u t s) = u' (erase t) (erase s)) →
  (∀ s, hist s = hist (p' s)) → (∀ t s, hist (u' t s) = hist t) →
  Cut m b → Cut (zoom p u m) (zoom p' u' b).
Proof. intros ????. rewrite !cut_rel. by apply cutR_zoom. Qed.

(** ** Next to the state *)

(** What a run carries along: a local reader or writer, or a flag. *)
Class Carried (R R' : Type) := carry : R → R'.
#[export] Instance bool_carried : Carried bool bool := id.
#[export] Instance bytes_carried {A} : Carried (list A) (list A) := id.

#[export] Instance pair_erasure {S S' R R'} `{!Erasure S S', !Carried R R'} : Erasure (S * R) (S' * R') :=
  λ s, (erase s.1, carry s.2).
#[export] Instance pair_history {S R H} `{!History S H} : History (S * R) H := λ t, hist t.1.

Section carried.
Context {S S' R R' H : Type} `{!Erasure S S', !History S' H, !Carried R R'}.

#[export] Instance cut_fst {E A} (m : M S E A) b :
  Cut m b → Cut (S := S * R) (S' := S' * R') (zoom fst (λ s p, (s, p.2)) m) (zoom fst (λ s p, (s, p.2)) b).
Proof. by apply cut_zoom. Qed.

(** An operation on what is carried. *)
Lemma cut_snd {E A} (m : M R E A) (b : M R' E A) :
  (∀ r, match m r with (_, Fault Dropped) => True | (r', o) => b (carry r) = (carry r', o) end) →
  Cut (S := S * R) (S' := S' * R') (zoom snd (λ r s, (s.1, r)) m) (zoom snd (λ r s, (s.1, r)) b).
Proof.
  intros Hm. split; [intros [t r]; unfold zoom; by destruct (b _)|]. intros [s r]. specialize (Hm r).
  unfold dropped_within, zoom; simpl. destruct (m r) as [r' [a|e|[]]]; simpl; try by rewrite Hm.
  by destruct (b (carry r)).
Qed.

(** The result of a run, carried value included, as a value. *)
Lemma cut_with {E F A B} (r : R) (m : M (S * R) E A) (b : M (S' * R') E A)
    (out : R' → outcome E A → outcome F B) (mS : M S F B) (bS : M S' F B) :
  (∀ s, mS s = let '((s', r'), o) := m (s, r) in (s', out (carry r') o)) →
  (∀ s, bS s = let '((s', r'), o) := b (s, carry r) in (s', out r' o)) →
  (∀ r o, out r o = Fault Dropped ↔ o = Fault Dropped) →
  Cut m b → Cut mS bS.
Proof.
  intros Hm Hb Hout [Hg Hr]. assert (∀ t, (bS t).1 = (b (t, carry r)).1.1) as Heq.
  { intros t. rewrite Hb. by destruct (b (t, carry r)) as [[t' r'] o]. }
  split; [intros t; rewrite Heq; apply (Hg (t, carry r))|]. intros s. specialize (Hr (s, r)).
  unfold dropped_within in *. rewrite Heq, Hb, Hm. unfold erase at 1, pair_erasure in Hr. cbn [fst snd] in Hr.
  destruct (m (s, r)) as [[s' r'] o].
  assert (o = Fault Dropped ∨ b (erase s, carry r) = ((erase s', carry r'), o)) as [->|Hb']
    by (destruct o as [a|e|[]]; auto).
  - by rewrite (proj2 (Hout (carry r') (Fault Dropped)) eq_refl).
  - destruct (out (carry r') o) as [x|e|f] eqn:Ho; [by rewrite Hb', Ho..|]. destruct f; [by rewrite Hb', Ho..|].
    apply Hout in Ho. by subst o.
Qed.

End carried.
