(* ===== verification/TokioRpc.v ===== *)
(** * The asynchronous RPC connection (src/src/tokio_rpc.rs)

    A future goes from one await point to the next and may be dropped at each
    of them: then the method ends with [Fault Dropped], the state is the one at
    that point, and no code behind it runs.  What the socket does, when a
    timeout elapses and where the future is dropped is up to [AsyncStream]. *)

From Stdlib Require Import Strings.String Strings.Byte.
From S2P Require Import Prelude Text Xdr Errors Rpc.

#[local] Open Scope Z_scope.

(** ** Sockets and timeouts *)

(** [tokio::time::timeout(limit, future).await]: the result of the future in
    time, or [Err ()] when the time has elapsed; the future is dropped then,
    and what it had done so far stays. *)
Definition Timeout (S : Type) : Type := ∀ A, Z → M S ErrorKind A → M S unit (A + ErrorKind).

Definition timeout_law {S} (timeout : Timeout S) : Prop :=
  ∀ A limit (m : M S ErrorKind A) s,
    match timeout A limit m s with
    | (s', Ok r) => attempt (F := unit) m s = (s', Ok r)
    | (_, Err _) => True
    | (s', Fault f) => f = Dropped ∨ attempt (F := unit) m s = (s', Fault f)
    end.

(** What [tokio::net::TcpStream] offers; every operation is an await point. *)
Class AsyncStream (St : Type) := {
  stream_write_all : list byte → M St ErrorKind unit;
  stream_flush : M St ErrorKind unit;
  stream_read_exact : Z → M St ErrorKind (list byte);
  stream_timeout : Timeout St;
  stream_write_all_drop bs s f : (stream_write_all bs s).2 = Fault f → f = Dropped;
  stream_flush_drop s f : (stream_flush s).2 = Fault f → f = Dropped;
  stream_read_exact_drop n s f : (stream_read_exact n s).2 = Fault f → f = Dropped;
  stream_read_exact_length n s s' bs : 0 ≤ n → stream_read_exact n s = (s', Ok bs) → zlen bs = n;
  stream_timeout_law : timeout_law stream_timeout;
}.

(** [TcpStream::connect], the clock behind [default_stamp], and timeouts. *)
Class AsyncNetwork (W St : Type) := {
  async_connect : str → Z → M W ErrorKind St;
  async_set_nodelay : St → M W ErrorKind unit;
  async_timeout : Timeout W;
  async_stamp : W → Z;
}.

Definition timeout_error : Error := Io TimedOut.

(** [if let Some(timeout) = timeout { timeout(timeout, m).await.map_err(..)?? } else { m.await? }]. *)
Definition within {S A} (time_out : Timeout S) (timeout : option Z) (m : M S ErrorKind A) : M S Error A :=
  match timeout with
  | Some timeout =>
      result ← map_err (λ _, timeout_error) (time_out A timeout m);
      match result with
      | inl a => mret a
      | inr kind => throw (Io kind)
      end
  | None => map_err Io m
  end.

(** ** The connection *)

Module TokioRpc.
Section client.
Context {St : Type} `{!AsyncStream St}.

Record RpcClient := mkRpcClient {
  stream : St;
  xid : Z;
  auth : Auth;
  max_record_size : Z;
  timeout : option Z;
  interrupted : bool;
}.

Definition with_stream (st : St) (c : RpcClient) : RpcClient :=
  mkRpcClient st (xid c) (auth c) (max_record_size c) (timeout c) (interrupted c).
Definition with_interrupted (b : bool) (c : RpcClient) : RpcClient :=
  mkRpcClient (stream c) (xid c) (auth c) (max_record_size c) (timeout c) b.
Definition with_xid (x : Z) (c : RpcClient) : RpcClient :=
  mkRpcClient (stream c) x (auth c) (max_record_size c) (timeout c) (interrupted c).

Definition set_timeout (timeout : option Z) : M RpcClient Error unit :=
  modify (λ c, mkRpcClient (stream c) (xid c) (auth c) (max_record_size c) timeout (interrupted c)).
Definition set_max_record_size (size : Z) : M RpcClient Error unit :=
  lift (validate_max_record_size size) ;;
  modify (λ c, mkRpcClient (stream c) (xid c) (auth c) size (timeout c) (interrupted c)).

(** An operation on [self.stream] within [self.timeout]. *)
Definition io {A} (m : M St ErrorKind A) : M RpcClient Error A :=
  timeout ← gets timeout;
  zoom stream with_stream (within stream_timeout timeout m).

Definition write_all (buf : list byte) : M RpcClient Error unit := io (stream_write_all buf).
Definition flush : M RpcClient Error unit := io stream_flush.
Definition read_exact (len : Z) : M RpcClient Error (list byte) := io (stream_read_exact len).

Definition next_xid : M RpcClient Error Z := λ c,
  let x := wrapping_add_u32 (xid c) 1 in
  let x := if x =? 0 then 1 else x in
  (with_xid x c, Ok x).

Definition write_record (payload : list byte) : M RpcClient Error unit :=
  if zlen payload >? FRAGMENT_LEN_MASK
  then throw (RpcRecordTooLarge (zlen payload) FRAGMENT_LEN_MASK) else
  if zlen payload >? u32_max
  then throw (RpcRecordTooLarge (zlen payload) FRAGMENT_LEN_MASK) else
  let header := Z.lor LAST_FRAGMENT (zlen payload) in
  write_all (be_bytes 4 header) ;;
  write_all payload ;;
  flush.

(** One turn of the loop of [read_record]; the loop variable is [record]. *)
Definition read_fragment (record : list byte) : M RpcClient Error (list byte + list byte) :=
  header_bytes ← read_exact 4;
  let header := be_Z header_bytes in
  let is_last := negb (Z.land header LAST_FRAGMENT =? 0) in
  let fragment_len := Z.land header FRAGMENT_LEN_MASK in
  if (fragment_len =? 0) && negb is_last
  then throw (Protocol [PLit "RPC record contained zero-length non-final fragment"]) else
  max ← gets max_record_size;
  match checked_add usize_max (zlen record) fragment_len with
  | None => throw (RpcRecordTooLarge usize_max max)
  | Some next_len =>
      if next_len >? max then throw (RpcRecordTooLarge next_len max) else
      fragment ← read_exact (next_len - zlen record);
      let record := record ++ fragment in
      if is_last then break_ record else continue_ record
  end.

(** Every turn but the last adds at least one byte. *)
Definition read_record : M RpcClient Error (list byte) :=
  max ← gets max_record_size;
  loop (Z.to_pos (max + 1)) read_fragment [].

Definition call {A} (program version procedure : Z) (enc : A → M Encoder XdrError unit) (args : A)
    : M RpcClient Error (list byte) :=
  interrupted ← gets interrupted;
  if (interrupted : bool) then throw RpcConnectionInvalid else
  xid ← next_xid;
  auth ← gets auth;
  request ← lift (encode_call xid program version procedure auth enc args);
  modify (with_interrupted true) ;;
  map_err OutcomeUnknown (write_record request) ;;
  reply ← map_err OutcomeUnknown read_record;
  match decode_reply xid reply with
  | Ok payload => modify (with_interrupted false) ;; mret payload
  | Err err =>
      if definite_error err
      then modify (with_interrupted false) ;; throw err
      else throw (OutcomeUnknown err)
  | Fault f => lift (Fault f)
  end.

End client.
Arguments RpcClient : clear implicits.
Arguments mkRpcClient {St}.

Section connecting.
Context {W St : Type} `{!AsyncNetwork W St}.

Definition connect_tcp_stream (host : str) (port : Z) (timeout : option Z) : M W Error St :=
  within async_timeout timeout (async_connect host port).

Definition connect_with_timeout (host : str) (port : Z) (auth : Auth) (timeout : option Z)
    : M W Error (RpcClient St) :=
  stream ← connect_tcp_stream host port timeout;
  map_err Io (async_set_nodelay stream) ;;
  stamp ← gets async_stamp;
  mret (mkRpcClient stream stamp auth DEFAULT_MAX_RECORD_SIZE timeout false).

End connecting.
End TokioRpc.
