(* ===== verification/TokioRpcSpec.v ===== *)
(** * The asynchronous connection, dropped anywhere (laws of [TokioRpc])

    Over every socket, with timeouts and drops at every await point, a
    connection that still accepts calls is at a message boundary: each request
    written on it was written whole and its reply has been read whole.  As long
    as no timeout elapses, a call is a call of the blocking connection, cut off
    where the future is dropped. *)

From Stdlib Require Import Strings.String Strings.Byte.
From S2P Require Import Prelude Text Xdr XdrSpec Errors Rpc RpcSpec RpcClientSpec Cut TokioRpc.

#[local] Open Scope Z_scope.

(** ** What went over a socket *)

Inductive event := Wrote (bs : list byte) | Got (bs : list byte).

(** [trace] is the history of the operations that succeeded. *)
Class Observed (St : Type) `{!AsyncStream St} := {
  trace : St → list event;
  trace_write bs s s' : stream_write_all bs s = (s', Ok tt) → trace s' = trace s ++ [Wrote bs];
  trace_flush s s' : stream_flush s = (s', Ok tt) → trace s' = trace s;
  trace_read n s s' bs : stream_read_exact n s = (s', Ok bs) → trace s' = trace s ++ [Got bs];
}.

(** A record read whole: its fragments in order, each behind its header, the last one marked. *)
Inductive whole_record : list byte → list event → Prop :=
  | whole_last header body :
      Z.land (be_Z header) LAST_FRAGMENT ≠ 0 → Z.land (be_Z header) FRAGMENT_LEN_MASK = zlen body →
      whole_record body [Got header; Got body]
  | whole_more header body record t :
      Z.land (be_Z header) LAST_FRAGMENT = 0 → Z.land (be_Z header) FRAGMENT_LEN_MASK = zlen body →
      whole_record record t → whole_record (body ++ record) (Got header :: Got body :: t).

(** A request written whole as one fragment, and a reply with its transaction id read whole. *)
Definition exchange (x : Z) (request : list byte) (t : list event) : Prop :=
  ∃ reply reads,
    t = [Wrote (be_bytes 4 (Z.lor LAST_FRAGMENT (zlen request))); Wrote request] ++ reads
    ∧ whole_record reply reads ∧ take 4 reply = be_bytes 4 x.

(** [request] is the message of a call with transaction id [x]. *)
Definition call_message (x : Z) (request : list byte) : Prop :=
  ∃ A program version procedure auth (enc : A → M Encoder XdrError unit) args,
    encode_call x program version procedure auth enc args = Ok request.

(** Nothing but exchanges, one after the other. *)
Inductive exchanges : list event → Prop :=
  | exchanges_nil : exchanges []
  | exchanges_snoc t x request e :
      exchanges t → call_message x request → exchange x request e → exchanges (t ++ e).

(** A reply that settles a call carries its transaction id. *)
Lemma decode_reply_xid x reply :
  zlen reply ≤ isize_max →
  match decode_reply x reply with
  | Ok _ => take 4 reply = be_bytes 4 x
  | Err err => definite_error err = true → take 4 reply = be_bytes 4 x
  | Fault _ => True
  end.
Proof.
  intros Hl. pose proof (dec_wf_new _ Hl) as Hd. unfold decode_reply. cbv zeta.
  destruct (xdr read_u32 (Decoder_new reply)) as [d1 [x'|err|f]] eqn:H1;
    unfold mbind at 1, M_bind at 1; rewrite H1; [|..|done].
  - apply xdr_Ok_inv in H1. apply read_u32_unread in H1 as (Hu & _ & _); [|done]. rewrite unread_new in Hu.
    destruct (Z.eqb_spec x' x) as [->|]; [|done]. cbn [negb].
    assert (take 4 reply = be_bytes 4 x) as Htake.
    { rewrite Hu. unfold wire_u32. rewrite <- (length_be_bytes 4 x) at 1. apply take_app_length. }
    by destruct (snd _).
  - unfold xdr, map_err in H1. destruct (read_u32 (Decoder_new reply)) as [d [v|e|f]]; [done| |done]. by injection H1 as <- <-.
Qed.

Section any_stream.
Context {St : Type} `{!AsyncStream St, !Observed St}.
#[local] Abbreviation Client := (TokioRpc.RpcClient St).

(** ** The steps of a call *)

Definition restreamed (c c' : Client) : Prop := ∃ st, c' = TokioRpc.with_stream st c.

Lemma restreamed_trans c c1 c2 : restreamed c c1 → restreamed c1 c2 → restreamed c c2.
Proof. intros [st ->] [st' ->]. by exists st'. Qed.

Lemma upto_within {A} limit (m : M St ErrorKind A) s (Q : A → St → Prop) :
  (∀ f, (m s).2 = Fault f → f = Dropped) → (∀ s' a, m s = (s', Ok a) → Q a s') →
  upto (within stream_timeout limit m) s Q (λ _ _, True) (λ _, True).
Proof.
  intros Hf HQ. destruct limit as [limit|]; cbn [within].
  - apply upto_bind, upto_map_err. pose proof (stream_timeout_law A limit m s) as Hl. unfold upto.
    unfold attempt in Hl. destruct (stream_timeout A limit m s) as [s' [r|e|f]]; [|done|].
    2: { assert (f = Dropped) as -> by (destruct Hl as [->|Hl]; [done|];
           destruct (m s) as [s1 [a|k|f']]; simplify_eq; by apply Hf). done. }
    destruct (m s) as [s1 [a|k|f]]; [|by injection Hl as <- <-|done]. injection Hl as <- <-. by apply HQ.
  - apply upto_map_err. unfold upto. destruct (m s) as [s' [a|e|f]]; [by apply HQ|done|by rewrite (Hf f)].
Qed.

Lemma upto_io {A} (m : M St ErrorKind A) (c : Client) :
  (∀ f, (m (TokioRpc.stream c)).2 = Fault f → f = Dropped) →
  upto (TokioRpc.io m) c
    (λ a c', ∃ st, m (TokioRpc.stream c) = (st, Ok a) ∧ c' = TokioRpc.with_stream st c)
    (λ _ c', restreamed c c') (λ c', restreamed c c').
Proof.
  intros Hf. apply upto_bind. unfold upto at 1, gets. cbn. unfold upto, zoom.
  pose proof (upto_within (TokioRpc.timeout c) m (TokioRpc.stream c) (λ a st, m (TokioRpc.stream c) = (st, Ok a)) Hf ltac:(done)) as H.
  unfold upto in H. destruct (within _ _ _ _) as [st [a|e|[]]]; [by exists st|by exists st|done|done|by exists st].
Qed.

Lemma upto_write_record payload (c : Client) :
  upto (TokioRpc.write_record payload) c
    (λ _ c', restreamed c c' ∧ trace (TokioRpc.stream c') = trace (TokioRpc.stream c)
       ++ [Wrote (be_bytes 4 (Z.lor LAST_FRAGMENT (zlen payload))); Wrote payload])
    (λ _ c', restreamed c c') (λ c', restreamed c c').
Proof.
  assert (restreamed c c) as Hc by (exists (TokioRpc.stream c); by destruct c).
  unfold TokioRpc.write_record. do 2 (case_match; [done|]). cbv zeta. unfold TokioRpc.write_all, TokioRpc.flush.
  apply upto_bind. eapply upto_mono; [apply upto_io, stream_write_all_drop| |done..].
  intros [] c1 (s1 & H1 & ->). apply trace_write in H1. apply upto_bind.
  eapply upto_mono; [apply upto_io, stream_write_all_drop| |intros; (eapply restreamed_trans; [by exists s1|done])..].
  intros [] c2 (s2 & H2 & ->). apply trace_write in H2. cbn [TokioRpc.stream TokioRpc.with_stream] in H2.
  eapply upto_mono; [apply upto_io, stream_flush_drop| |intros; (eapply restreamed_trans; [by exists s2|done])..].
  intros [] c3 (s3 & H3 & ->). apply trace_flush in H3. cbn [TokioRpc.stream TokioRpc.with_stream] in H3 |- *.
  split; [by exists s3|]. by rewrite H3, H2, H1, <- app_assoc.
Qed.

(** Fragments read so far, none of them the last. *)
Definition opens_record (record : list byte) (reads : list event) : Prop :=
  ∀ rest t, whole_record rest t → whole_record (record ++ rest) (reads ++ t).

Lemma upto_read_fragment (c : Client) record reads c1 :
  restreamed c c1 → trace (TokioRpc.stream c1) = trace (TokioRpc.stream c) ++ reads → opens_record record reads →
  zlen record ≤ TokioRpc.max_record_size c →
  upto (TokioRpc.read_fragment record) c1
    (λ r c2, restreamed c c2 ∧ ∃ more, trace (TokioRpc.stream c2) = trace (TokioRpc.stream c) ++ reads ++ more ∧
       match r with
       | inl record' => opens_record record' (reads ++ more) ∧ zlen record < zlen record' ≤ TokioRpc.max_record_size c
       | inr record' => whole_record record' (reads ++ more) ∧ zlen record' ≤ TokioRpc.max_record_size c
       end)
    (λ _ c2, restreamed c c2) (λ c2, restreamed c c2).
Proof.
  intros [s1 ->] Ht Hopen Hlen. cbn [TokioRpc.stream TokioRpc.with_stream] in Ht.
  unfold TokioRpc.read_fragment, TokioRpc.read_exact. apply upto_bind.
  eapply upto_mono; [apply upto_io, stream_read_exact_drop| |intros e c' [st ->]; by exists st|intros c' [st ->]; by exists st].
  intros hb c2 (s2 & H2 & ->). cbn [TokioRpc.stream TokioRpc.with_stream] in H2.
  apply trace_read in H2.
  pose proof (land_mask_range (be_Z hb) ltac:(apply be_Z_range)) as Hm. cbv zeta.
  destruct ((Z.land (be_Z hb) FRAGMENT_LEN_MASK =? 0) && _) eqn:Hz; [by exists s2|].
  apply upto_bind. unfold upto at 1, gets. cbv iota beta. unfold checked_add.
  destruct (Z.leb_spec (zlen record + Z.land (be_Z hb) FRAGMENT_LEN_MASK) usize_max); [|by exists s2].
  cbn [TokioRpc.max_record_size TokioRpc.with_stream].
  destruct (Z.gtb_spec (zlen record + Z.land (be_Z hb) FRAGMENT_LEN_MASK) (TokioRpc.max_record_size c)); [by exists s2|].
  apply upto_bind.
  eapply upto_mono; [apply upto_io, stream_read_exact_drop| |intros e c' [st ->]; by exists st|intros c' [st ->]; by exists st].
  intros frag c3 (s3 & H3 & ->). cbn [TokioRpc.stream TokioRpc.with_stream] in H3.
  assert (zlen frag = zlen record + Z.land (be_Z hb) FRAGMENT_LEN_MASK - zlen record) as Hfrag.
  { apply (stream_read_exact_length _ _ _ _) in H3; [done|lia]. }
  apply trace_read in H3.
  assert (trace s3 = trace (TokioRpc.stream c) ++ reads ++ [Got hb; Got frag]) as Htrace.
  { by rewrite H3, H2, Ht, <- !app_assoc. }
  assert (Z.land (be_Z hb) FRAGMENT_LEN_MASK = zlen frag) as Hbody by lia.
  destruct (negb (Z.land (be_Z hb) LAST_FRAGMENT =? 0)) eqn:Hlast; cbn [upto break_ continue_ mret M_ret].
  - apply negb_true_iff, Z.eqb_neq in Hlast. split; [by exists s3|]. exists [Got hb; Got frag]. split; [done|].
    split; [by apply Hopen, whole_last|]. autorewrite with zlen. lia.
  - apply negb_false_iff, Z.eqb_eq in Hlast. split; [by exists s3|]. exists [Got hb; Got frag]. split; [done|].
    rewrite andb_true_r in Hz. apply Z.eqb_neq in Hz. split; [|autorewrite with zlen; lia].
    intros rest t Hrest. rewrite <- !app_assoc. by apply Hopen, whole_more.
Qed.

Lemma upto_read_record (c : Client) :
  0 ≤ TokioRpc.max_record_size c →
  upto TokioRpc.read_record c
    (λ record c', restreamed c c' ∧ zlen record ≤ TokioRpc.max_record_size c
       ∧ ∃ reads, trace (TokioRpc.stream c') = trace (TokioRpc.stream c) ++ reads ∧ whole_record record reads)
    (λ _ c', restreamed c c') (λ c', restreamed c c').
Proof.
  intros Hmax. unfold TokioRpc.read_record. apply upto_bind. unfold upto at 1, gets. cbv iota beta.
  apply (upto_loop (λ record c', restreamed c c' ∧ zlen record ≤ TokioRpc.max_record_size c
      ∧ ∃ reads, trace (TokioRpc.stream c') = trace (TokioRpc.stream c) ++ reads ∧ opens_record record reads)
    (λ record _, TokioRpc.max_record_size c - zlen record)).
  - intros record c' (_ & ? & _). lia.
  - intros record c1 (Hc & Hlen & reads & Ht & Hopen).
    eapply upto_mono; [by apply (upto_read_fragment c record reads c1)| |done..].
    intros r c2 (Hc2 & more & Ht2 & Hr). destruct r as [record'|record']; destruct Hr as [Hr Hl].
    + split; [split_and!; [done|lia|]|lia]. by exists (reads ++ more).
    + split_and!; [done|done|]. by exists (reads ++ more).
  - split; [exists (TokioRpc.stream c); by destruct c|]. split; [done|]. exists []. split; [by rewrite app_nil_r|].
    by intros rest t.
  - rewrite zlen_nil. lia.
Qed.

(** ** A call *)

Lemma encode_call_fault_free {A} x program version procedure auth (enc : A → M Encoder XdrError unit) args :
  (∀ e, fault_free (enc args e).2) → fault_free (encode_call x program version procedure auth enc args).
Proof.
  intros Hf. rewrite encode_call_run. specialize (Hf (mkEncoder (wire_call_header x program version procedure auth))).
  destruct (enc args _) as [e [[]|err|f]]; [done..|by destruct (Hf f)].
Qed.

(** What a call leaves unchanged, whichever way it ends. *)
Definition kept (c c' : Client) : Prop :=
  TokioRpc.xid c' = succ_xid (TokioRpc.xid c) ∧ TokioRpc.auth c' = TokioRpc.auth c
  ∧ TokioRpc.max_record_size c' = TokioRpc.max_record_size c ∧ TokioRpc.timeout c' = TokioRpc.timeout c.

(** The socket has seen one more exchange, of the message [request] with transaction id [x]. *)
Definition exchanged (x : Z) (request : list byte) (c c' : Client) : Prop :=
  ∃ e, exchange x request e ∧ trace (TokioRpc.stream c') = trace (TokioRpc.stream c) ++ e.

Definition async_ok (c : Client) : Prop := 0 ≤ TokioRpc.max_record_size c ≤ isize_max.

Lemma tokio_call_refused {A} program version procedure (enc : A → M Encoder XdrError unit) args (c : Client) :
  TokioRpc.interrupted c = true →
  TokioRpc.call program version procedure enc args c = (c, Err RpcConnectionInvalid).
Proof. intros Hi. unfold TokioRpc.call, mbind, M_bind, gets. by rewrite Hi. Qed.

(** From the moment the connection is marked to the end of the call. *)
Lemma upto_marked x request (c : Client) :
  TokioRpc.interrupted c = true → async_ok c →
  upto (map_err OutcomeUnknown (TokioRpc.write_record request) ;; map_err OutcomeUnknown TokioRpc.read_record) c
    (λ reply c', restreamed c c' ∧ zlen reply ≤ isize_max
       ∧ (take 4 reply = be_bytes 4 x → exchanged x request c c'))
    (λ err c', is_outcome_unknown err = true ∧ restreamed c c') (λ c', restreamed c c').
Proof.
  intros Hi Hok. apply upto_bind, upto_map_err. eapply upto_mono; [apply upto_write_record| |done..].
  intros _ c1 [[st ->] Ht1]. apply upto_map_err.
  eapply upto_mono; [apply upto_read_record; apply Hok| | |]; cbv beta.
  - intros reply c2 ([st2 ->] & Hlen & reads & Ht2 & Hw). split; [by exists st2|].
    split; [cbn in Hlen; unfold async_ok in Hok; lia|].
    intros Hx. eexists; split; [by exists reply, reads|]. by rewrite Ht2, Ht1, <- app_assoc.
  - intros err c2 [st2 ->]. split; [done|by exists st2].
  - intros c2 [st2 ->]. by exists st2.
Qed.

Lemma upto_call {A} program version procedure (enc : A → M Encoder XdrError unit) args (c : Client)
    (x := succ_xid (TokioRpc.xid c))
    (request := encode_call x program version procedure (TokioRpc.auth c) enc args) :
  TokioRpc.interrupted c = false → async_ok c → (∀ e, fault_free (enc args e).2) →
  upto (TokioRpc.call program version procedure enc args) c
    (λ _ c', TokioRpc.interrupted c' = false ∧ kept c c' ∧ ∃ r, request = Ok r ∧ exchanged x r c c')
    (λ err c', TokioRpc.interrupted c' = is_outcome_unknown err ∧ kept c c'
       ∧ (TokioRpc.interrupted c' = false →
          (∃ e, request = Err e) ∧ TokioRpc.stream c' = TokioRpc.stream c
          ∨ ∃ r, request = Ok r ∧ exchanged x r c c'))
    (λ c', TokioRpc.interrupted c' = true ∧ kept c c').
Proof.
  intros Hi Hok Hf. unfold TokioRpc.call. apply upto_bind. unfold upto at 1, gets. rewrite Hi. apply upto_bind.
  unfold upto at 1. change (TokioRpc.next_xid c) with (TokioRpc.with_xid x c, @Ok Error Z x). cbv iota beta.
  apply upto_bind. unfold upto at 1, gets. cbv iota beta. cbn [TokioRpc.auth TokioRpc.with_xid].
  apply upto_bind, upto_lift; fold request.
  { apply encode_call_fault_free, Hf. }
  2: { intros err Herr. assert (is_outcome_unknown err = false) as ->.
       { revert Herr. subst request. rewrite encode_call_run. by destruct (enc args _) as [? [?|?|?]]; intros; simplify_eq. }
       split; [done|]. split; [done|]. intros _. left. by split; [exists err|]. }
  intros r Hr. apply upto_bind. unfold upto at 1, modify.
  set (c1 := TokioRpc.with_interrupted true (TokioRpc.with_xid x c)).
  assert (∀ c', restreamed c1 c' → TokioRpc.interrupted c' = true ∧ kept c c') as Hc1.
  { by intros c' [st ->]. }
  apply upto_bind_assoc. eapply upto_mono; [by apply (upto_marked x r c1)| | |by intros c' ?%Hc1]; cbv beta.
  2: { intros err c' [-> Hc'%Hc1]. destruct Hc' as [-> ?]. by split_and!. }
  intros reply c2 (Hc2 & Hlen & Hex). pose proof (decode_reply_xid x reply Hlen) as Hx.
  pose proof (decode_reply_fault_free x reply Hlen) as Hdf. destruct Hc2 as [st ->].
  destruct (decode_reply x reply) as [payload|err|f]; [| |by destruct (Hdf f)].
  - apply upto_bind. unfold upto, modify. split; [done|]. split; [done|]. exists r. by split; [|apply Hex].
  - destruct (definite_error err) eqn:Hd.
    + apply upto_bind. unfold upto, modify, throw. split; [by destruct err|]. split; [done|].
      intros _. right. exists r. by split; [|apply Hex, Hx].
    + by unfold upto, throw.
Qed.

(** ** Sequences of calls *)

(** What a program may do to a connection: calls, whichever way they end, and settings. *)
Inductive step : Client → Client → Prop :=
  | step_call A program version procedure (enc : A → M Encoder XdrError unit) args c :
      (∀ e, fault_free (enc args e).2) → step c (TokioRpc.call program version procedure enc args c).1
  | step_timeout timeout c : step c (TokioRpc.set_timeout timeout c).1
  | step_max_record_size size c : 0 ≤ size ≤ isize_max → step c (TokioRpc.set_max_record_size size c).1.

(** The invariant: a connection that takes calls is at a message boundary. *)
Definition at_boundary (c : Client) : Prop :=
  async_ok c ∧ (TokioRpc.interrupted c = false → exchanges (trace (TokioRpc.stream c))).

Lemma call_at_boundary {A} program version procedure (enc : A → M Encoder XdrError unit) args (c : Client) :
  (∀ e, fault_free (enc args e).2) → at_boundary c →
  at_boundary (TokioRpc.call program version procedure enc args c).1.
Proof.
  intros Hf [Hok Ht]. destruct (TokioRpc.interrupted c) eqn:Hi.
  { rewrite tokio_call_refused by done. split; [done|]. intros Hi'. cbn in Hi'. congruence. }
  specialize (Ht eq_refl). pose proof (upto_call program version procedure enc args c Hi Hok Hf) as H.
  assert (∀ c' r, encode_call (succ_xid (TokioRpc.xid c)) program version procedure (TokioRpc.auth c) enc args = Ok r →
    exchanged (succ_xid (TokioRpc.xid c)) r c c' → exchanges (trace (TokioRpc.stream c'))) as Hx.
  { intros c' r Hr (e & He & ->). eapply exchanges_snoc; [done| |done]. by eexists _, _, _, _, _, _, _. }
  apply (upto_always _ _ at_boundary). eapply upto_mono; [exact H|cbv beta..]; unfold at_boundary, async_ok in *.
  - intros _ c' (_ & (_ & _ & -> & _) & r & Hr & He). split; [done|]. eauto.
  - intros err c' (_ & (_ & _ & -> & _) & He). split; [done|]. intros Hi'. destruct (He Hi') as [[_ ->]|(r & Hr & Hr')]; eauto.
  - intros c' (-> & (_ & _ & -> & _)). by split.
Qed.

Lemma step_at_boundary c c' : step c c' → at_boundary c → at_boundary c'.
Proof.
  intros [A program version procedure enc args c0 Hf|timeout c0|size c0 Hs]; [by apply call_at_boundary|done|].
  unfold TokioRpc.set_max_record_size, validate_max_record_size, mbind, M_bind, lift. intros [Hok Ht].
  by destruct (size =? 0).
Qed.

Lemma step_interrupted c c' :
  step c c' → TokioRpc.interrupted c = true →
  TokioRpc.interrupted c' = true ∧ TokioRpc.stream c' = TokioRpc.stream c.
Proof.
  intros [A program version procedure enc args c0 Hf|timeout c0|size c0 Hs] Hi; [by rewrite tokio_call_refused|done|].
  unfold TokioRpc.set_max_record_size, mbind, M_bind, lift. by destruct (validate_max_record_size size).
Qed.

End any_stream.

(** ** The blocking connection *)

(** [St] is a socket of the asynchronous client, [St'] the same socket in the
    hands of the blocking one: each operation does what the blocking one does,
    or the future is dropped in it, and no timeout elapses. *)
Class CutStream (St St' H : Type) `{!AsyncStream St, !Transport St', !Erasure St St', !History St' H} := {
  cut_stream_write bs :: Cut (stream_write_all bs) (write_all bs);
  cut_stream_flush :: Cut stream_flush flush;
  cut_stream_read n :: Cut (stream_read_exact n) (read_exact n);
  cut_stream_timeout A limit (m : M St ErrorKind A) (b : M St' ErrorKind A) :: Cut m b → Cut (stream_timeout A limit m) (attempt b);
}.

(** The blocking connection in the same state. *)
#[export] Instance rpc_erasure {St St'} `{!Erasure St St'} : Erasure (TokioRpc.RpcClient St) (RpcClient St') := λ c,
  mkRpcClient (erase (TokioRpc.stream c)) (TokioRpc.xid c) (TokioRpc.auth c) (TokioRpc.max_record_size c)
    (TokioRpc.interrupted c).
#[export] Instance rpc_history {St H} `{!History St H} : History (RpcClient St) H := λ c, hist (stream c).

Section cut.
Context {St St' H : Type} `{CutStream St St' H}.
#[local] Abbreviation cut m b := (Cut (S := TokioRpc.RpcClient St) (S' := RpcClient St') m b).

Lemma cut_within {A} limit (m : M St ErrorKind A) (b : M St' ErrorKind A) :
  Cut m b → Cut (within stream_timeout limit m) (map_err Io b).
Proof.
  intros Hm. destruct limit as [limit|]; [|apply _].
  apply (cut_ext _ (result ← map_err (λ _ : unit, timeout_error) (attempt b);
                    match result with inl a => mret a | inr kind => throw (Io kind) end)).
  - intros t. unfold mbind, M_bind, map_err, attempt. by destruct (b t) as [t' [a|k|f]].
  - apply cut_bind; [apply _|]. intros [a|k]; apply _.
Qed.

#[export] Instance cut_io {A} (m : M St ErrorKind A) (b : M St' ErrorKind A) : Cut m b → cut (TokioRpc.io m) (io b).
Proof.
  intros Hm. assert (∀ limit, cut (zoom TokioRpc.stream TokioRpc.with_stream (within stream_timeout limit m)) (io b)) as Hz.
  { intros limit. apply (cut_ext _ (zoom stream with_stream (map_err Io b))); [|apply cut_zoom; [done..|by apply cut_within]].
    intros t. unfold io, zoom, map_err. by destruct (b (stream t)) as [t' [a|k|f]]. }
  split; [apply (Hz None)|]. intros s. apply (Hz (TokioRpc.timeout s)).
Qed.

#[export] Instance cut_write_record payload : cut (TokioRpc.write_record payload) (write_record payload).
Proof. unfold TokioRpc.write_record, write_record, TokioRpc.write_all, TokioRpc.flush. apply _. Qed.

#[export] Instance cut_read_fragment record : cut (TokioRpc.read_fragment record) (read_fragment record).
Proof.
  unfold TokioRpc.read_fragment, read_fragment, TokioRpc.read_exact, break_, continue_. apply cut_bind; [apply _|intros hb].
  cbv zeta. apply cut_if; [apply _|]. apply cut_bind; [by apply cut_gets|intros max]. destruct (checked_add _ _ _); apply _.
Qed.

#[export] Instance cut_read_record : cut TokioRpc.read_record read_record.
Proof. unfold TokioRpc.read_record, read_record. apply cut_bind; [by apply cut_gets|]. apply _. Qed.

#[export] Instance cut_next_xid : cut TokioRpc.next_xid next_xid.
Proof. by split. Qed.

#[export] Instance cut_set_interrupted b :
  cut (modify (E := Error) (TokioRpc.with_interrupted b)) (modify (with_interrupted b)).
Proof. by apply cut_modify. Qed.

#[export] Instance cut_call {A} program version procedure (enc : A → M Encoder XdrError unit) args :
  cut (TokioRpc.call program version procedure enc args) (call program version procedure enc args).
Proof.
  unfold TokioRpc.call, call. apply cut_bind; [by apply cut_gets|intros []; [apply _|]].
  apply cut_bind; [apply _|intros xid]. apply cut_bind; [by apply cut_gets|intros auth].
  apply cut_bind; [apply _|intros request]. apply cut_bind; [apply _|intros _].
  apply cut_bind; [apply _|intros _]. apply cut_bind; [apply _|intros reply].
  destruct (decode_reply xid reply); apply _.
Qed.

End cut.
