(* ===== verification/V3Proto.v ===== *)
(** * NFSv3 protocol data (src/src/v3/proto.rs)

    The types of RFC 1813 as the crate declares them, their XDR codecs, the
    argument encoders of every procedure and the reply decoders of every
    [Nfs3Client] method.  A decoder of a method's reply is the part of the
    method after [Decoder::new(&payload)]; [V3Calls] puts the call in front. *)

From Stdlib Require Import Strings.String Strings.Byte.
From S2P Require Import Prelude Text Xdr Status Errors Rpc.

#[local] Open Scope Z_scope.

Definition NFS_PROGRAM : Z := 100003.
Definition NFS_VERSION : Z := 3.
Definition NFS_PORT : Z := 2049.

Definition NFS3_FHSIZE : Z := 64.
Definition NFS3_COOKIEVERFSIZE : Z := 8.
Definition NFS3_CREATEVERFSIZE : Z := 8.
Definition NFS3_WRITEVERFSIZE : Z := 8.

Definition NFSPROC3_NULL : Z := 0.
Definition NFSPROC3_GETATTR : Z := 1.
Definition NFSPROC3_SETATTR : Z := 2.
Definition NFSPROC3_LOOKUP : Z := 3.
Definition NFSPROC3_ACCESS : Z := 4.
Definition NFSPROC3_READLINK : Z := 5.
Definition NFSPROC3_READ : Z := 6.
Definition NFSPROC3_WRITE : Z := 7.
Definition NFSPROC3_CREATE : Z := 8.
Definition NFSPROC3_MKDIR : Z := 9.
Definition NFSPROC3_SYMLINK : Z := 10.
Definition NFSPROC3_MKNOD : Z := 11.
Definition NFSPROC3_REMOVE : Z := 12.
Definition NFSPROC3_RMDIR : Z := 13.
Definition NFSPROC3_RENAME : Z := 14.
Definition NFSPROC3_LINK : Z := 15.
Definition NFSPROC3_READDIR : Z := 16.
Definition NFSPROC3_READDIRPLUS : Z := 17.
Definition NFSPROC3_FSSTAT : Z := 18.
Definition NFSPROC3_FSINFO : Z := 19.
Definition NFSPROC3_PATHCONF : Z := 20.
Definition NFSPROC3_COMMIT : Z := 21.

Definition MAX_NAME_BYTES : Z := 1024 * 1024.
Definition MAX_PATH_BYTES : Z := 1024 * 1024.
Definition MAX_IO_BYTES : Z := 64 * 1024 * 1024.
Definition MAX_DIR_ENTRIES : Z := 1000000.
Definition NFS3_NSECONDS_PER_SECOND : Z := 1000000000.

(** ** Types and codecs *)

Module FileType.

Inductive FileType :=
  | Regular | Directory | BlockDevice | CharacterDevice | Symlink | Socket | Fifo.

#[global] Instance FileType_eq_dec : EqDecision FileType.
Proof. solve_decision. Defined.

Definition is_file (self : FileType) : bool := bool_decide (self = Regular).
Definition is_dir (self : FileType) : bool := bool_decide (self = Directory).
Definition is_symlink (self : FileType) : bool := bool_decide (self = Symlink).

Definition from_i32 (value : Z) : outcome XdrError FileType :=
  match value with
  | 1 => Ok Regular
  | 2 => Ok Directory
  | 3 => Ok BlockDevice
  | 4 => Ok CharacterDevice
  | 5 => Ok Symlink
  | 6 => Ok Socket
  | 7 => Ok Fifo
  | value => Err (InvalidDiscriminant "ftype3" value)
  end.

Definition as_i32 (self : FileType) : Z :=
  match self with
  | Regular => 1
  | Directory => 2
  | BlockDevice => 3
  | CharacterDevice => 4
  | Symlink => 5
  | Socket => 6
  | Fifo => 7
  end.

Definition encode (self : FileType) : M Encoder XdrError unit :=
  write_discriminant (as_i32 self) ;;
  mret tt.

Definition decode : M Decoder XdrError FileType :=
  value ← read_discriminant;
  lift (from_i32 value).

End FileType.

Module FileHandle.

Record FileHandle := mkFileHandle { data : list byte }.

#[global] Instance FileHandle_eq_dec : EqDecision FileHandle.
Proof. solve_decision. Defined.

Definition new (data : list byte) : outcome Error FileHandle :=
  if zlen data >? NFS3_FHSIZE
  then Err (Protocol [PLit "NFS file handle is "; PNum (zlen data); PLit " bytes, maximum is ";
                      PNum NFS3_FHSIZE])
  else Ok (mkFileHandle data).

Definition as_bytes (self : FileHandle) : list byte := data self.

Definition encode (self : FileHandle) : M Encoder XdrError unit := write_opaque (data self) NFS3_FHSIZE.

Definition decode : M Decoder XdrError FileHandle :=
  data ← read_opaque_vec NFS3_FHSIZE;
  mret (mkFileHandle data).

End FileHandle.
Import FileHandle (FileHandle).

Module SpecData.

Record SpecData := mkSpecData { specdata1 : Z; specdata2 : Z }.

Definition decode : M Decoder XdrError SpecData :=
  specdata1 ← read_u32;
  specdata2 ← read_u32;
  mret (mkSpecData specdata1 specdata2).

Definition encode (self : SpecData) : M Encoder XdrError unit :=
  write_u32 (specdata1 self) ;;
  write_u32 (specdata2 self).

End SpecData.
Import SpecData (SpecData).

Definition validate_nseconds (nseconds : Z) : outcome XdrError unit :=
  if nseconds >=? NFS3_NSECONDS_PER_SECOND
  then Err (LengthLimitExceeded nseconds (NFS3_NSECONDS_PER_SECOND - 1))
  else Ok tt.

Module NfsTime.

Record NfsTime := mkNfsTime { seconds : Z; nseconds : Z }.

Definition validate (self : NfsTime) : outcome XdrError unit := validate_nseconds (nseconds self).

Definition decode : M Decoder XdrError NfsTime :=
  seconds ← read_u32;
  nseconds ← read_u32;
  let time := mkNfsTime seconds nseconds in
  lift (validate time) ;;
  mret time.

Definition encode (self : NfsTime) : M Encoder XdrError unit :=
  lift (validate self) ;;
  write_u32 (seconds self) ;;
  write_u32 (nseconds self).

End NfsTime.
Import NfsTime (NfsTime).

Module FileAttr.

Record FileAttr := mkFileAttr {
  file_type : FileType.FileType;
  mode : Z;
  nlink : Z;
  uid : Z;
  gid : Z;
  size : Z;
  used : Z;
  rdev : SpecData;
  fsid : Z;
  fileid : Z;
  atime : NfsTime;
  mtime : NfsTime;
  ctime : NfsTime;
}.

Definition is_file (self : FileAttr) : bool := FileType.is_file (file_type self).
Definition is_dir (self : FileAttr) : bool := FileType.is_dir (file_type self).
Definition is_symlink (self : FileAttr) : bool := FileType.is_symlink (file_type self).

Definition decode : M Decoder XdrError FileAttr :=
  file_type ← FileType.decode;
  mode ← read_u32;
  nlink ← read_u32;
  uid ← read_u32;
  gid ← read_u32;
  size ← read_u64;
  used ← read_u64;
  rdev ← SpecData.decode;
  fsid ← read_u64;
  fileid ← read_u64;
  atime ← NfsTime.decode;
  mtime ← NfsTime.decode;
  ctime ← NfsTime.decode;
  mret (mkFileAttr file_type mode nlink uid gid size used rdev fsid fileid atime mtime ctime).

End FileAttr.
Import FileAttr (FileAttr).

Module WccAttr.

Record WccAttr := mkWccAttr { size : Z; mtime : NfsTime; ctime : NfsTime }.

Definition decode : M Decoder XdrError WccAttr :=
  size ← read_u64;
  mtime ← NfsTime.decode;
  ctime ← NfsTime.decode;
  mret (mkWccAttr size mtime ctime).

End WccAttr.
Import WccAttr (WccAttr).

Definition PostOpAttr : Type := option FileAttr.
Definition PreOpAttr : Type := option WccAttr.
Definition PostOpFileHandle : Type := option FileHandle.

Definition decode_post_op_attr : M Decoder XdrError PostOpAttr :=
  present ← read_bool;
  if (present : bool) then (attr ← FileAttr.decode; mret (Some attr)) else mret None.

Definition decode_pre_op_attr : M Decoder XdrError PreOpAttr :=
  present ← read_bool;
  if (present : bool) then (attr ← WccAttr.decode; mret (Some attr)) else mret None.

Definition decode_post_op_fh : M Decoder XdrError PostOpFileHandle :=
  present ← read_bool;
  if (present : bool) then (handle ← FileHandle.decode; mret (Some handle)) else mret None.

Module WccData.

Record WccData := mkWccData { before : PreOpAttr; after : PostOpAttr }.

Definition decode : M Decoder XdrError WccData :=
  before ← decode_pre_op_attr;
  after ← decode_post_op_attr;
  mret (mkWccData before after).

End WccData.
Import WccData (WccData).

Module SetTime.

Inductive SetTime :=
  | DontChange
  | ServerTime
  | ClientTime (time : NfsTime).

End SetTime.
Import SetTime (SetTime).

Definition encode_optional_u32 (value : option Z) : M Encoder XdrError unit :=
  write_bool (match value with Some _ => true | None => false end) ;;
  match value with
  | Some value => write_u32 value
  | None => mret tt
  end.

Definition encode_optional_u64 (value : option Z) : M Encoder XdrError unit :=
  write_bool (match value with Some _ => true | None => false end) ;;
  match value with
  | Some value => write_u64 value
  | None => mret tt
  end.

Definition encode_set_time (value : SetTime) : M Encoder XdrError unit :=
  match value with
  | SetTime.DontChange => write_discriminant 0
  | SetTime.ServerTime => write_discriminant 1
  | SetTime.ClientTime time =>
      lift (NfsTime.validate time) ;;
      write_discriminant 2 ;;
      NfsTime.encode time
  end.

Module SetAttr.

Record SetAttr := mkSetAttr {
  sa_mode : option Z;
  sa_uid : option Z;
  sa_gid : option Z;
  sa_size : option Z;
  sa_atime : SetTime;
  sa_mtime : SetTime;
}.

Definition default : SetAttr :=
  mkSetAttr None None None None SetTime.DontChange SetTime.DontChange.

Definition mode (mode : Z) : SetAttr :=
  mkSetAttr (Some mode) None None None SetTime.DontChange SetTime.DontChange.
Definition uid (uid : Z) : SetAttr :=
  mkSetAttr None (Some uid) None None SetTime.DontChange SetTime.DontChange.
Definition gid (gid : Z) : SetAttr :=
  mkSetAttr None None (Some gid) None SetTime.DontChange SetTime.DontChange.
Definition ownership (uid gid : Z) : SetAttr :=
  mkSetAttr None (Some uid) (Some gid) None SetTime.DontChange SetTime.DontChange.
Definition size (size : Z) : SetAttr :=
  mkSetAttr None None None (Some size) SetTime.DontChange SetTime.DontChange.
Definition times (atime mtime : option NfsTime) : SetAttr :=
  mkSetAttr None None None None
    (from_option SetTime.ClientTime SetTime.DontChange atime)
    (from_option SetTime.ClientTime SetTime.DontChange mtime).
Definition touch : SetAttr :=
  mkSetAttr None None None None SetTime.ServerTime SetTime.ServerTime.

Definition encode (self : SetAttr) : M Encoder XdrError unit :=
  encode_optional_u32 (sa_mode self) ;;
  encode_optional_u32 (sa_uid self) ;;
  encode_optional_u32 (sa_gid self) ;;
  encode_optional_u64 (sa_size self) ;;
  encode_set_time (sa_atime self) ;;
  encode_set_time (sa_mtime self) ;;
  mret tt.

End SetAttr.
Import SetAttr (SetAttr).

Module StableHow.

Inductive StableHow := Unstable | DataSync | FileSync.

#[global] Instance StableHow_eq_dec : EqDecision StableHow.
Proof. solve_decision. Defined.

Definition from_i32 (value : Z) : outcome XdrError StableHow :=
  match value with
  | 0 => Ok Unstable
  | 1 => Ok DataSync
  | 2 => Ok FileSync
  | value => Err (InvalidDiscriminant "stable_how" value)
  end.

Definition as_i32 (self : StableHow) : Z :=
  match self with
  | Unstable => 0
  | DataSync => 1
  | FileSync => 2
  end.

(** [self >= requested], for the derived [Ord]: declaration order. *)
Definition satisfies (self requested : StableHow) : bool :=
  match self, requested with
  | _, Unstable => true
  | (DataSync | FileSync), DataSync => true
  | FileSync, FileSync => true
  | _, _ => false
  end.

Definition encode (self : StableHow) : M Encoder XdrError unit :=
  write_discriminant (as_i32 self) ;;
  mret tt.

Definition decode : M Decoder XdrError StableHow :=
  value ← read_discriminant;
  lift (from_i32 value).

End StableHow.
Import StableHow (StableHow).

Module CreateHow.

Inductive CreateHow :=
  | Unchecked (attr : SetAttr)
  | Guarded (attr : SetAttr)
  | Exclusive (verf : list byte).

Definition encode (self : CreateHow) : M Encoder XdrError unit :=
  match self with
  | Unchecked attr =>
      write_discriminant 0 ;;
      SetAttr.encode attr
  | Guarded attr =>
      write_discriminant 1 ;;
      SetAttr.encode attr
  | Exclusive verf =>
      write_discriminant 2 ;;
      write_fixed_opaque verf ;;
      mret tt
  end.

End CreateHow.
Import CreateHow (CreateHow).

Module MknodData.

Inductive MknodData :=
  | CharacterDevice (attributes : SetAttr) (spec : SpecData)
  | BlockDevice (attributes : SetAttr) (spec : SpecData)
  | Socket (attributes : SetAttr)
  | Fifo (attributes : SetAttr).

Definition encode (self : MknodData) : M Encoder XdrError unit :=
  match self with
  | CharacterDevice attributes spec =>
      FileType.encode FileType.CharacterDevice ;;
      SetAttr.encode attributes ;;
      SpecData.encode spec
  | BlockDevice attributes spec =>
      FileType.encode FileType.BlockDevice ;;
      SetAttr.encode attributes ;;
      SpecData.encode spec
  | Socket attributes =>
      FileType.encode FileType.Socket ;;
      SetAttr.encode attributes
  | Fifo attributes =>
      FileType.encode FileType.Fifo ;;
      SetAttr.encode attributes
  end.

End MknodData.
Import MknodData (MknodData).

(** ** Results *)

Record LookupResult := mkLookupResult {
  lookup_object : FileHandle;
  lookup_object_attributes : PostOpAttr;
  lookup_directory_attributes : PostOpAttr;
}.

Record AccessResult := mkAccessResult {
  access_object_attributes : PostOpAttr;
  access_access : Z;
}.

Record ReadResult := mkReadResult {
  read_file_attributes : PostOpAttr;
  read_count : Z;
  read_eof : bool;
  read_data : list byte;
}.

Record WriteResult := mkWriteResult {
  write_file_wcc : WccData;
  write_count : Z;
  write_committed : StableHow;
  write_verifier : list byte;
}.

Record CreateResult := mkCreateResult {
  create_object : PostOpFileHandle;
  create_object_attributes : PostOpAttr;
  create_directory_wcc : WccData;
}.

Record RenameResult := mkRenameResult {
  rename_fromdir_wcc : WccData;
  rename_todir_wcc : WccData;
}.

Record LinkResult := mkLinkResult {
  link_file_attributes : PostOpAttr;
  link_linkdir_wcc : WccData;
}.

Record DirectoryEntry := mkDirectoryEntry {
  entry_fileid : Z;
  entry_name : str;
  entry_cookie : Z;
  entry_attributes : PostOpAttr;
  entry_handle : PostOpFileHandle;
}.

Record ReadDirResult := mkReadDirResult {
  readdir_directory_attributes : PostOpAttr;
  readdir_cookieverf : list byte;
  readdir_entries : list DirectoryEntry;
  readdir_eof : bool;
}.

Record FsStat := mkFsStat {
  fsstat_object_attributes : PostOpAttr;
  total_bytes : Z;
  free_bytes : Z;
  available_bytes : Z;
  total_files : Z;
  free_files : Z;
  available_files : Z;
  invariant_seconds : Z;
}.

Record FsInfo := mkFsInfo {
  fsinfo_object_attributes : PostOpAttr;
  read_max : Z;
  read_preferred : Z;
  read_multiple : Z;
  write_max : Z;
  write_preferred : Z;
  write_multiple : Z;
  dir_preferred : Z;
  max_file_size : Z;
  time_delta : NfsTime;
  properties : Z;
}.

Record PathConf := mkPathConf {
  pathconf_object_attributes : PostOpAttr;
  link_max : Z;
  name_max : Z;
  no_trunc : bool;
  chown_restricted : bool;
  case_insensitive : bool;
  case_preserving : bool;
}.

Record CommitResult := mkCommitResult {
  commit_file_wcc : WccData;
  commit_verifier : list byte;
}.

(** ** Shared pieces of the reply decoders *)

Definition payload_has_status (payload : list byte) (expected : NfsStatus.NfsStatus) : bool :=
  if 4 <=? zlen payload
  then bool_decide (NfsStatus.from_u32 (be_Z (ztake 4 payload)) = expected)
  else false.

Definition decode_status : M Decoder XdrError NfsStatus.NfsStatus :=
  value ← read_u32;
  mret (NfsStatus.from_u32 value).

Definition require_ok (procedure : string) : M Decoder Error unit :=
  status ← xdr decode_status;
  if bool_decide (status = NfsStatus.Ok) then mret tt else throw (Nfs procedure status).

(** [bytes.try_into()] succeeds on exactly the length read. *)
Definition decode_cookieverf : M Decoder XdrError (list byte) :=
  bytes ← read_fixed_opaque NFS3_COOKIEVERFSIZE;
  if zlen bytes =? NFS3_COOKIEVERFSIZE then mret bytes
  else throw (UnexpectedEof NFS3_COOKIEVERFSIZE (zlen bytes)).

Definition decode_writeverf : M Decoder XdrError (list byte) :=
  bytes ← read_fixed_opaque NFS3_WRITEVERFSIZE;
  if zlen bytes =? NFS3_WRITEVERFSIZE then mret bytes
  else throw (UnexpectedEof NFS3_WRITEVERFSIZE (zlen bytes)).

Definition validate_read_result_size (requested_count returned_count data_len : Z) (eof : bool)
    : outcome Error unit :=
  if negb (data_len =? returned_count)
  then Err (Protocol [PLit "READ returned count "; PNum returned_count; PLit " but ";
                      PNum data_len; PLit " data bytes"])
  else if returned_count >? requested_count
  then Err (Protocol [PLit "READ returned "; PNum returned_count; PLit " bytes for a ";
                      PNum requested_count; PLit " byte request"])
  else if (requested_count >? 0) && (returned_count =? 0) && negb eof
  then Err (Protocol [PLit "READ returned no data before EOF"])
  else Ok tt.

Definition validate_write_result_count (requested_count returned_count : Z) : outcome Error unit :=
  if returned_count >? requested_count
  then Err (Protocol [PLit "WRITE reported "; PNum returned_count; PLit " bytes for a ";
                      PNum requested_count; PLit " byte request"])
  else if (requested_count >? 0) && (returned_count =? 0)
  then Err (Protocol [PLit "WRITE accepted zero bytes"])
  else Ok tt.

(** The fields of one entry, after its presence flag. *)
Definition decode_dir_entry (plus : bool) : M Decoder XdrError DirectoryEntry :=
  fileid ← read_u64;
  name ← read_string MAX_NAME_BYTES;
  cookie ← read_u64;
  '(attributes, handle) ←
    (if plus then
       attributes ← decode_post_op_attr;
       handle ← decode_post_op_fh;
       mret (attributes, handle)
     else mret (None, None));
  mret (mkDirectoryEntry fileid name cookie attributes handle).

(** One turn of [while bool::decode(decoder)?]. *)
Definition decode_dir_entries_step (plus : bool) (entries : list DirectoryEntry)
    : M Decoder XdrError (list DirectoryEntry + list DirectoryEntry) :=
  more ← read_bool;
  if (more : bool) then
    if zlen entries >=? MAX_DIR_ENTRIES
    then throw (LengthLimitExceeded (zlen entries + 1) MAX_DIR_ENTRIES) else
    entry ← decode_dir_entry plus;
    continue_ (entries ++ [entry])
  else break_ entries.

(** At most [MAX_DIR_ENTRIES] turns add an entry, and one more ends the loop. *)
Definition decode_dir_entries (plus : bool) : M Decoder XdrError (list DirectoryEntry) :=
  loop (Z.to_pos (MAX_DIR_ENTRIES + 2)) (decode_dir_entries_step plus) [].

(** ** Arguments *)

Record Diropargs := mkDiropargs { dirop_dir : FileHandle; dirop_name : str }.

Definition Diropargs_encode (self : Diropargs) : M Encoder XdrError unit :=
  FileHandle.encode (dirop_dir self) ;;
  write_string (dirop_name self) MAX_NAME_BYTES.

Record SetattrArgs := mkSetattrArgs {
  setattr_object : FileHandle;
  setattr_attr : SetAttr;
  setattr_guard : option NfsTime;
}.

Definition SetattrArgs_encode (self : SetattrArgs) : M Encoder XdrError unit :=
  FileHandle.encode (setattr_object self) ;;
  SetAttr.encode (setattr_attr self) ;;
  write_bool (match setattr_guard self with Some _ => true | None => false end) ;;
  match setattr_guard self with
  | Some guard => NfsTime.encode guard
  | None => mret tt
  end.

Record AccessArgs := mkAccessArgs { access_args_object : FileHandle; access_args_access : Z }.

Definition AccessArgs_encode (self : AccessArgs) : M Encoder XdrError unit :=
  FileHandle.encode (access_args_object self) ;;
  write_u32 (access_args_access self).

Record ReadArgs := mkReadArgs {
  read_args_file : FileHandle;
  read_args_offset : Z;
  read_args_count : Z;
}.

Definition ReadArgs_encode (self : ReadArgs) : M Encoder XdrError unit :=
  FileHandle.encode (read_args_file self) ;;
  write_u64 (read_args_offset self) ;;
  write_u32 (read_args_count self).

Record WriteArgs := mkWriteArgs {
  write_args_file : FileHandle;
  write_args_offset : Z;
  write_args_count : Z;
  write_args_stable : StableHow;
  write_args_data : list byte;
}.

Definition WriteArgs_encode (self : WriteArgs) : M Encoder XdrError unit :=
  FileHandle.encode (write_args_file self) ;;
  write_u64 (write_args_offset self) ;;
  write_u32 (write_args_count self) ;;
  StableHow.encode (write_args_stable self) ;;
  write_opaque (write_args_data self) MAX_IO_BYTES.

Record CreateArgs := mkCreateArgs { create_where : Diropargs; create_how : CreateHow }.

Definition CreateArgs_encode (self : CreateArgs) : M Encoder XdrError unit :=
  Diropargs_encode (create_where self) ;;
  CreateHow.encode (create_how self).

Record MkdirArgs := mkMkdirArgs { mkdir_where : Diropargs; mkdir_attributes : SetAttr }.

Definition MkdirArgs_encode (self : MkdirArgs) : M Encoder XdrError unit :=
  Diropargs_encode (mkdir_where self) ;;
  SetAttr.encode (mkdir_attributes self).

Record SymlinkArgs := mkSymlinkArgs {
  symlink_where : Diropargs;
  symlink_target : str;
  symlink_attributes : SetAttr;
}.

Definition SymlinkArgs_encode (self : SymlinkArgs) : M Encoder XdrError unit :=
  Diropargs_encode (symlink_where self) ;;
  SetAttr.encode (symlink_attributes self) ;;
  write_string (symlink_target self) MAX_PATH_BYTES.

Record MknodArgs := mkMknodArgs { mknod_where : Diropargs; mknod_what : MknodData }.

Definition MknodArgs_encode (self : MknodArgs) : M Encoder XdrError unit :=
  Diropargs_encode (mknod_where self) ;;
  MknodData.encode (mknod_what self).

Record RenameArgs := mkRenameArgs { rename_from : Diropargs; rename_to : Diropargs }.

Definition RenameArgs_encode (self : RenameArgs) : M Encoder XdrError unit :=
  Diropargs_encode (rename_from self) ;;
  Diropargs_encode (rename_to self).

Record LinkArgs := mkLinkArgs { link_file : FileHandle; link_link : Diropargs }.

Definition LinkArgs_encode (self : LinkArgs) : M Encoder XdrError unit :=
  FileHandle.encode (link_file self) ;;
  Diropargs_encode (link_link self).

Record ReadDirArgs := mkReadDirArgs {
  readdir_dir : FileHandle;
  readdir_cookie : Z;
  readdir_args_cookieverf : list byte;
  readdir_count : Z;
}.

Definition ReadDirArgs_encode (self : ReadDirArgs) : M Encoder XdrError unit :=
  FileHandle.encode (readdir_dir self) ;;
  write_u64 (readdir_cookie self) ;;
  write_fixed_opaque (readdir_args_cookieverf self) ;;
  write_u32 (readdir_count self).

Record ReadDirPlusArgs := mkReadDirPlusArgs {
  readdirplus_dir : FileHandle;
  readdirplus_cookie : Z;
  readdirplus_cookieverf : list byte;
  readdirplus_dircount : Z;
  readdirplus_maxcount : Z;
}.

Definition ReadDirPlusArgs_encode (self : ReadDirPlusArgs) : M Encoder XdrError unit :=
  FileHandle.encode (readdirplus_dir self) ;;
  write_u64 (readdirplus_cookie self) ;;
  write_fixed_opaque (readdirplus_cookieverf self) ;;
  write_u32 (readdirplus_dircount self) ;;
  write_u32 (readdirplus_maxcount self).

Record CommitArgs := mkCommitArgs {
  commit_file : FileHandle;
  commit_offset : Z;
  commit_count : Z;
}.

Definition CommitArgs_encode (self : CommitArgs) : M Encoder XdrError unit :=
  FileHandle.encode (commit_file self) ;;
  write_u64 (commit_offset self) ;;
  write_u32 (commit_count self).

(** ** Replies

    What each [Nfs3Client] method does with the payload of its call. *)

(** [decoder.finish()?]. *)
Definition finish_reply : M Decoder Error unit := xdr finish.

Definition null_reply : M Decoder Error unit :=
  finish_reply ;;
  mret tt.

Definition getattr_reply : M Decoder Error FileAttr :=
  require_ok "GETATTR" ;;
  attr ← xdr FileAttr.decode;
  finish_reply ;;
  mret attr.

(** [setattr], and [wcc_only] for the procedures REMOVE and RMDIR. *)
Definition wcc_only_reply (procedure_name : string) : M Decoder Error WccData :=
  status ← xdr decode_status;
  wcc ← xdr WccData.decode;
  finish_reply ;;
  if bool_decide (status = NfsStatus.Ok) then mret wcc
  else throw (Nfs procedure_name status).

Definition lookup_reply : M Decoder Error LookupResult :=
  status ← xdr decode_status;
  if bool_decide (status = NfsStatus.Ok) then
    object ← xdr FileHandle.decode;
    object_attributes ← xdr decode_post_op_attr;
    directory_attributes ← xdr decode_post_op_attr;
    finish_reply ;;
    mret (mkLookupResult object object_attributes directory_attributes)
  else
    _ ← xdr decode_post_op_attr;
    finish_reply ;;
    throw (Nfs "LOOKUP" status).

Definition access_reply : M Decoder Error AccessResult :=
  status ← xdr decode_status;
  object_attributes ← xdr decode_post_op_attr;
  if bool_decide (status = NfsStatus.Ok) then
    access ← xdr read_u32;
    finish_reply ;;
    mret (mkAccessResult object_attributes access)
  else
    finish_reply ;;
    throw (Nfs "ACCESS" status).

Definition readlink_reply : M Decoder Error str :=
  status ← xdr decode_status;
  _ ← xdr decode_post_op_attr;
  if bool_decide (status = NfsStatus.Ok) then
    data ← xdr (read_string MAX_PATH_BYTES);
    finish_reply ;;
    mret data
  else
    finish_reply ;;
    throw (Nfs "READLINK" status).

Definition read_reply (requested_count : Z) : M Decoder Error ReadResult :=
  status ← xdr decode_status;
  file_attributes ← xdr decode_post_op_attr;
  if bool_decide (status = NfsStatus.Ok) then
    returned_count ← xdr read_u32;
    eof ← xdr read_bool;
    data ← xdr (read_opaque_vec MAX_IO_BYTES);
    finish_reply ;;
    lift (validate_read_result_size requested_count returned_count (zlen data) eof) ;;
    mret (mkReadResult file_attributes returned_count eof data)
  else
    finish_reply ;;
    throw (Nfs "READ" status).

Definition write_reply (requested_count : Z) : M Decoder Error WriteResult :=
  status ← xdr decode_status;
  file_wcc ← xdr WccData.decode;
  if bool_decide (status = NfsStatus.Ok) then
    returned_count ← xdr read_u32;
    committed ← xdr StableHow.decode;
    verifier ← xdr decode_writeverf;
    finish_reply ;;
    lift (validate_write_result_count requested_count returned_count) ;;
    mret (mkWriteResult file_wcc returned_count committed verifier)
  else
    finish_reply ;;
    throw (Nfs "WRITE" status).

Definition create_like_reply (procedure_name : string) : M Decoder Error CreateResult :=
  status ← xdr decode_status;
  if bool_decide (status = NfsStatus.Ok) then
    object ← xdr decode_post_op_fh;
    object_attributes ← xdr decode_post_op_attr;
    directory_wcc ← xdr WccData.decode;
    finish_reply ;;
    mret (mkCreateResult object object_attributes directory_wcc)
  else
    _ ← xdr WccData.decode;
    finish_reply ;;
    throw (Nfs procedure_name status).

Definition rename_reply : M Decoder Error RenameResult :=
  status ← xdr decode_status;
  fromdir_wcc ← xdr WccData.decode;
  todir_wcc ← xdr WccData.decode;
  finish_reply ;;
  if bool_decide (status = NfsStatus.Ok) then mret (mkRenameResult fromdir_wcc todir_wcc)
  else throw (Nfs "RENAME" status).

Definition link_reply : M Decoder Error LinkResult :=
  status ← xdr decode_status;
  file_attributes ← xdr decode_post_op_attr;
  linkdir_wcc ← xdr WccData.decode;
  finish_reply ;;
  if bool_decide (status = NfsStatus.Ok) then mret (mkLinkResult file_attributes linkdir_wcc)
  else throw (Nfs "LINK" status).

(** [readdir] ([plus = false]) and [readdirplus] ([plus = true]). *)
Definition readdir_reply (procedure_name : string) (plus : bool) : M Decoder Error ReadDirResult :=
  status ← xdr decode_status;
  directory_attributes ← xdr decode_post_op_attr;
  if negb (bool_decide (status = NfsStatus.Ok)) then
    finish_reply ;;
    throw (Nfs procedure_name status)
  else
    cookieverf ← xdr decode_cookieverf;
    entries ← xdr (decode_dir_entries plus);
    eof ← xdr read_bool;
    finish_reply ;;
    mret (mkReadDirResult directory_attributes cookieverf entries eof).

Definition fsstat_reply : M Decoder Error FsStat :=
  status ← xdr decode_status;
  object_attributes ← xdr decode_post_op_attr;
  if bool_decide (status = NfsStatus.Ok) then
    total_bytes ← xdr read_u64;
    free_bytes ← xdr read_u64;
    available_bytes ← xdr read_u64;
    total_files ← xdr read_u64;
    free_files ← xdr read_u64;
    available_files ← xdr read_u64;
    invariant_seconds ← xdr read_u32;
    finish_reply ;;
    mret (mkFsStat object_attributes total_bytes free_bytes available_bytes total_files
            free_files available_files invariant_seconds)
  else
    finish_reply ;;
    throw (Nfs "FSSTAT" status).

Definition fsinfo_reply : M Decoder Error FsInfo :=
  status ← xdr decode_status;
  object_attributes ← xdr decode_post_op_attr;
  if bool_decide (status = NfsStatus.Ok) then
    read_max ← xdr read_u32;
    read_preferred ← xdr read_u32;
    read_multiple ← xdr read_u32;
    write_max ← xdr read_u32;
    write_preferred ← xdr read_u32;
    write_multiple ← xdr read_u32;
    dir_preferred ← xdr read_u32;
    max_file_size ← xdr read_u64;
    time_delta ← xdr NfsTime.decode;
    properties ← xdr read_u32;
    finish_reply ;;
    mret (mkFsInfo object_attributes read_max read_preferred read_multiple write_max
            write_preferred write_multiple dir_preferred max_file_size time_delta properties)
  else
    finish_reply ;;
    throw (Nfs "FSINFO" status).

Definition pathconf_reply : M Decoder Error PathConf :=
  status ← xdr decode_status;
  object_attributes ← xdr decode_post_op_attr;
  if bool_decide (status = NfsStatus.Ok) then
    link_max ← xdr read_u32;
    name_max ← xdr read_u32;
    no_trunc ← xdr read_bool;
    chown_restricted ← xdr read_bool;
    case_insensitive ← xdr read_bool;
    case_preserving ← xdr read_bool;
    finish_reply ;;
    mret (mkPathConf object_attributes link_max name_max no_trunc chown_restricted
            case_insensitive case_preserving)
  else
    finish_reply ;;
    throw (Nfs "PATHCONF" status).

Definition commit_reply : M Decoder Error CommitResult :=
  status ← xdr decode_status;
  file_wcc ← xdr WccData.decode;
  verifier ←
    (if bool_decide (status = NfsStatus.Ok) then xdr decode_writeverf
     else mret (replicate (Z.to_nat NFS3_WRITEVERFSIZE) x00));
  finish_reply ;;
  if bool_decide (status = NfsStatus.Ok) then mret (mkCommitResult file_wcc verifier)
  else throw (Nfs "COMMIT" status).
