(* ===== verification/V3Wire.v ===== *)
(** * The NFSv3 wire format (RFC 1813), and that the codecs implement it

    For each type of [V3Proto] the bytes the protocol assigns to it
    ([wire_*]), the values that have a wire form ([*_ok]), and the laws of
    [XdrSpec] for the code's encoder and decoder; then the same for the
    arguments and the replies of every procedure.  A reply is specified by
    what the server means ([reply]: a status with the body of its arm) and
    the decoder of the method has to return it. *)

From Stdlib Require Import Strings.String Strings.Byte.
From S2P Require Import Prelude Text Xdr XdrSpec XdrList Status Errors Rpc RpcSpec V3Proto.
Import FileHandle (FileHandle, mkFileHandle).
Import FileAttr (FileAttr).
Import NfsTime (NfsTime).
Import SpecData (SpecData).
Import WccAttr (WccAttr).
Import WccData (WccData).
Import SetTime (SetTime).
Import SetAttr (SetAttr).
Import StableHow (StableHow).
Import CreateHow (CreateHow).
Import MknodData (MknodData).

#[local] Open Scope Z_scope.

(** ** Automation *)

Lemma reads_lift {E A} (a : A) : reads (E := E) (lift (Ok a)) [] a.
Proof. apply reads_ret. Qed.

#[export] Instance dec_safe_lift {E A} (o : outcome E A) : fault_free o → DecSafe (lift o).
Proof. intros Ho d Hd. split; [by apply dec_step_refl|done]. Qed.

Lemma encodes_writes {A} (enc : A → M Encoder XdrError unit) wire ok :
  (∀ a, ok a → writes (enc a) (wire a)) → EncodesTo enc wire ok.
Proof. intros H a e Ha. by apply H. Qed.

Lemma writes_of {A} (enc : A → M Encoder XdrError unit) wire ok a :
  EncodesTo enc wire ok → ok a → writes (enc a) (wire a).
Proof. intros He Ha e. by apply He. Qed.

Lemma writes_seq_ret {E} (m : M Encoder E unit) bs : writes m bs → writes (m ;; mret tt) bs.
Proof. intros H. rewrite <- (app_nil_r bs). apply writes_seq; [done|apply writes_ret]. Qed.

Lemma writes_lift_ok {E} (o : outcome E unit) (m : M Encoder E unit) bs :
  o = Ok tt → writes m bs → writes (lift o ;; m) bs.
Proof. intros -> H e. apply H. Qed.

Lemma writes_opaque bs max : opaque_ok max bs → writes (write_opaque bs max) (wire_opaque bs).
Proof. intros H e. by apply write_opaque_to. Qed.

Lemma writes_array {A} (enc : A → M Encoder XdrError unit) wire ok l max :
  EncodesTo enc wire ok → array_ok ok max l → writes (write_array enc l max) (wire_array wire l).
Proof. intros He Hl e. by apply (write_array_to enc wire ok max He). Qed.

Lemma writes_string s max : opaque_ok max s → writes (write_string s max) (wire_opaque s).
Proof. intros H e. by apply write_string_to. Qed.

Create HintDb wire.
#[export] Hint Resolve writes_ret writes_u32 writes_extend writes_write_fixed_opaque : wire.

(** Follow the code of an encoder, piece by piece. *)
Ltac writes_solve :=
  lazymatch goal with
  | |- writes (_ ;; mret tt) _ => apply writes_seq_ret; writes_solve
  | |- writes (lift _ ;; _) _ => apply writes_lift_ok; [|writes_solve]
  | |- writes (_ ;; _) _ => apply writes_seq; writes_solve
  | |- writes ?m _ =>
      first [ solve [auto with wire]
            | eapply writes_of; [apply _|try done]
            | apply writes_opaque; try done
            | apply writes_string; try done
            | eapply writes_array; [apply _|try done] ]
  end.

(** Follow the code of a decoder, piece by piece. *)
Ltac reads_leaf :=
  lazymatch goal with
  | |- reads (xdr _) _ _ => apply reads_xdr; reads_leaf
  | |- reads ?m _ ?a =>
      let H := fresh in
      epose proof (_ : DecodesFrom m _ _) as H; apply (H a); clear H; try done
  end.

Ltac reads_solve :=
  lazymatch goal with
  | |- reads (mret _) [] _ => apply reads_ret
  | |- reads (lift (Ok _)) [] _ => apply reads_lift
  | |- reads (mbind _ _) (_ ++ _) _ => eapply reads_bind; [reads_leaf|cbv beta; reads_solve]
  | |- reads (mbind _ _) _ _ => eapply reads_bind_last; [reads_leaf|cbv beta; reads_solve]
  | |- _ => idtac
  end.

(** ** Types *)

Definition wire_FileType (t : FileType.FileType) : list byte := wire_u32 (FileType.as_i32 t).

#[export] Instance FileType_encode_to : EncodesTo FileType.encode wire_FileType (λ _, True).
Proof. apply encodes_writes. intros t _. unfold FileType.encode. writes_solve. Qed.

Lemma FileType_from_as t : FileType.from_i32 (FileType.as_i32 t) = Ok t.
Proof. by destruct t. Qed.

#[export] Instance FileType_decode_from : DecodesFrom FileType.decode wire_FileType (λ _, True).
Proof.
  intros t _. unfold FileType.decode, wire_FileType, read_discriminant.
  eapply reads_bind_last; [reads_leaf; by destruct t|]. rewrite FileType_from_as. reads_solve.
Qed.

Lemma FileType_from_i32_safe v : fault_free (FileType.from_i32 v).
Proof. unfold FileType.from_i32. by repeat case_match. Qed.

#[export] Instance dec_safe_FileType : DecSafe FileType.decode.
Proof. apply dec_safe_bind; [apply _|]. intros v. apply dec_safe_lift, FileType_from_i32_safe. Qed.

Definition FileHandle_ok (fh : FileHandle) : Prop := zlen (FileHandle.data fh) ≤ NFS3_FHSIZE.
Definition wire_FileHandle (fh : FileHandle) : list byte := wire_opaque (FileHandle.data fh).

Lemma opaque_ok_small max bs : zlen bs ≤ max → max ≤ u32_max → opaque_ok max bs.
Proof. split; lia. Qed.

#[export] Instance FileHandle_encode_to : EncodesTo FileHandle.encode wire_FileHandle FileHandle_ok.
Proof.
  apply encodes_writes. intros fh Hfh. apply writes_opaque. by apply opaque_ok_small.
Qed.

#[export] Instance FileHandle_decode_from :
  DecodesFrom FileHandle.decode wire_FileHandle FileHandle_ok.
Proof.
  intros [bs] Hfh. unfold FileHandle.decode, read_opaque_vec, wire_FileHandle.
  reads_solve. by apply opaque_ok_small.
Qed.

#[export] Instance dec_safe_FileHandle : DecSafe FileHandle.decode.
Proof. unfold FileHandle.decode, read_opaque_vec. apply _. Qed.

Definition SpecData_ok (s : SpecData) : Prop :=
  is_u32 (SpecData.specdata1 s) ∧ is_u32 (SpecData.specdata2 s).
Definition wire_SpecData (s : SpecData) : list byte :=
  wire_u32 (SpecData.specdata1 s) ++ wire_u32 (SpecData.specdata2 s).

#[export] Instance SpecData_encode_to : EncodesTo SpecData.encode wire_SpecData (λ _, True).
Proof. apply encodes_writes. intros s _. unfold SpecData.encode. writes_solve. Qed.

#[export] Instance SpecData_decode_from : DecodesFrom SpecData.decode wire_SpecData SpecData_ok.
Proof. intros [s1 s2] [H1 H2]. unfold SpecData.decode, wire_SpecData. reads_solve. Qed.

#[export] Instance dec_safe_SpecData : DecSafe SpecData.decode.
Proof. unfold SpecData.decode. apply _. Qed.

Definition NfsTime_ok (t : NfsTime) : Prop :=
  is_u32 (NfsTime.seconds t) ∧ 0 ≤ NfsTime.nseconds t < NFS3_NSECONDS_PER_SECOND.
Definition wire_NfsTime (t : NfsTime) : list byte :=
  wire_u32 (NfsTime.seconds t) ++ wire_u32 (NfsTime.nseconds t).

Lemma validate_nseconds_ok n : n < NFS3_NSECONDS_PER_SECOND → validate_nseconds n = Ok tt.
Proof. intros H. unfold validate_nseconds. by destruct (Z.geb_spec n NFS3_NSECONDS_PER_SECOND); [lia|]. Qed.

Lemma NfsTime_validate_ok t : NfsTime_ok t → NfsTime.validate t = Ok tt.
Proof. intros [_ H]. apply validate_nseconds_ok. lia. Qed.
#[export] Hint Resolve NfsTime_validate_ok : wire.

Lemma validate_nseconds_safe n : fault_free (validate_nseconds n).
Proof. unfold validate_nseconds. by destruct (_ >=? _). Qed.

#[export] Instance NfsTime_encode_to : EncodesTo NfsTime.encode wire_NfsTime NfsTime_ok.
Proof.
  apply encodes_writes. intros t Ht. unfold NfsTime.encode. writes_solve. auto with wire.
Qed.

#[export] Instance NfsTime_decode_from : DecodesFrom NfsTime.decode wire_NfsTime NfsTime_ok.
Proof.
  intros [s n] Ht. pose proof Ht as [Hs Hn]. unfold NfsTime.decode, wire_NfsTime. cbn in *.
  unfold NFS3_NSECONDS_PER_SECOND in Hn.
  eapply reads_bind; [reads_leaf|]. cbv beta. eapply reads_bind_last; [reads_leaf; int_unfold; lia|].
  cbv beta. rewrite (NfsTime_validate_ok _ Ht). apply (reads_bind_last _ _ _ tt); reads_solve.
Qed.

#[export] Instance dec_safe_NfsTime : DecSafe NfsTime.decode.
Proof.
  unfold NfsTime.decode. repeat (apply dec_safe_bind; [apply _|intros ?]).
  apply dec_safe_bind; [apply dec_safe_lift, validate_nseconds_safe|apply _].
Qed.

(** A timestamp the client was given or is about to send has a valid
    nanosecond part, or the codec fails. *)
#[export] Instance NfsTime_decode_sound : DecodeSound NfsTime.decode wire_NfsTime NfsTime_ok.
Proof.
  intros d d' t Hd H. unfold NfsTime.decode in H.
  sound_step H as (d1 & s & Hs & Hd1 & _ & Hp1 & H).
  sound_step H as (d2 & n & Hn & Hd2 & _ & Hp2 & H).
  apply bind_Ok_inv in H as (d3 & [] & Hv & H). injection H as <- <-.
  unfold lift, NfsTime.validate, validate_nseconds in Hv. cbn in Hv.
  destruct (Z.geb_spec n NFS3_NSECONDS_PER_SECOND); [done|]. injection Hv as <-.
  unfold NfsTime_ok, wire_NfsTime; cbn. autorewrite with zlen in *. destruct Hn. split; [done|lia].
Qed.

Record FileAttr_ok (a : FileAttr) : Prop := mkFileAttr_ok {
  fa_mode_ok : is_u32 (FileAttr.mode a);
  fa_nlink_ok : is_u32 (FileAttr.nlink a);
  fa_uid_ok : is_u32 (FileAttr.uid a);
  fa_gid_ok : is_u32 (FileAttr.gid a);
  fa_size_ok : is_u64 (FileAttr.size a);
  fa_used_ok : is_u64 (FileAttr.used a);
  fa_rdev_ok : SpecData_ok (FileAttr.rdev a);
  fa_fsid_ok : is_u64 (FileAttr.fsid a);
  fa_fileid_ok : is_u64 (FileAttr.fileid a);
  fa_atime_ok : NfsTime_ok (FileAttr.atime a);
  fa_mtime_ok : NfsTime_ok (FileAttr.mtime a);
  fa_ctime_ok : NfsTime_ok (FileAttr.ctime a);
}.

Definition wire_FileAttr (a : FileAttr) : list byte :=
  wire_FileType (FileAttr.file_type a) ++ wire_u32 (FileAttr.mode a)
  ++ wire_u32 (FileAttr.nlink a) ++ wire_u32 (FileAttr.uid a) ++ wire_u32 (FileAttr.gid a)
  ++ wire_u64 (FileAttr.size a) ++ wire_u64 (FileAttr.used a) ++ wire_SpecData (FileAttr.rdev a)
  ++ wire_u64 (FileAttr.fsid a) ++ wire_u64 (FileAttr.fileid a)
  ++ wire_NfsTime (FileAttr.atime a) ++ wire_NfsTime (FileAttr.mtime a)
  ++ wire_NfsTime (FileAttr.ctime a).

#[export] Instance FileAttr_decode_from : DecodesFrom FileAttr.decode wire_FileAttr FileAttr_ok.
Proof. intros [] []. unfold FileAttr.decode, wire_FileAttr. reads_solve. Qed.

#[export] Instance dec_safe_FileAttr : DecSafe FileAttr.decode.
Proof. unfold FileAttr.decode. apply _. Qed.

Definition WccAttr_ok (a : WccAttr) : Prop :=
  is_u64 (WccAttr.size a) ∧ NfsTime_ok (WccAttr.mtime a) ∧ NfsTime_ok (WccAttr.ctime a).
Definition wire_WccAttr (a : WccAttr) : list byte :=
  wire_u64 (WccAttr.size a) ++ wire_NfsTime (WccAttr.mtime a) ++ wire_NfsTime (WccAttr.ctime a).

#[export] Instance WccAttr_decode_from : DecodesFrom WccAttr.decode wire_WccAttr WccAttr_ok.
Proof. intros [] (?&?&?). unfold WccAttr.decode, wire_WccAttr. reads_solve. Qed.
#[export] Instance dec_safe_WccAttr : DecSafe WccAttr.decode.
Proof. unfold WccAttr.decode. apply _. Qed.

(** The three [decode_*_op_*] helpers are [read_optional]. *)
#[export] Instance post_op_attr_from :
  DecodesFrom decode_post_op_attr (wire_optional wire_FileAttr) (option_ok FileAttr_ok).
Proof. apply (read_optional_from (A := FileAttr) _ _ _). Qed.
#[export] Instance pre_op_attr_from :
  DecodesFrom decode_pre_op_attr (wire_optional wire_WccAttr) (option_ok WccAttr_ok).
Proof. apply (read_optional_from (A := WccAttr) _ _ _). Qed.
#[export] Instance post_op_fh_from :
  DecodesFrom decode_post_op_fh (wire_optional wire_FileHandle) (option_ok FileHandle_ok).
Proof. apply (read_optional_from (A := FileHandle) _ _ _). Qed.

#[export] Instance dec_safe_post_op_attr : DecSafe decode_post_op_attr.
Proof. unfold decode_post_op_attr. apply _. Qed.
#[export] Instance dec_safe_pre_op_attr : DecSafe decode_pre_op_attr.
Proof. unfold decode_pre_op_attr. apply _. Qed.
#[export] Instance dec_safe_post_op_fh : DecSafe decode_post_op_fh.
Proof. unfold decode_post_op_fh. apply _. Qed.

Definition WccData_ok (w : WccData) : Prop :=
  option_ok WccAttr_ok (WccData.before w) ∧ option_ok FileAttr_ok (WccData.after w).
Definition wire_WccData (w : WccData) : list byte :=
  wire_optional wire_WccAttr (WccData.before w) ++ wire_optional wire_FileAttr (WccData.after w).

#[export] Instance WccData_decode_from : DecodesFrom WccData.decode wire_WccData WccData_ok.
Proof. intros [] []. unfold WccData.decode, wire_WccData. reads_solve. Qed.
#[export] Instance dec_safe_WccData : DecSafe WccData.decode.
Proof. unfold WccData.decode. apply _. Qed.

Definition SetTime_ok (t : SetTime) : Prop :=
  match t with SetTime.ClientTime time => NfsTime_ok time | _ => True end.
Definition wire_SetTime (t : SetTime) : list byte :=
  match t with
  | SetTime.DontChange => wire_u32 0
  | SetTime.ServerTime => wire_u32 1
  | SetTime.ClientTime time => wire_u32 2 ++ wire_NfsTime time
  end.

#[export] Instance encode_set_time_to : EncodesTo encode_set_time wire_SetTime SetTime_ok.
Proof.
  apply encodes_writes. intros [| |t] Ht; cbn [encode_set_time wire_SetTime];
    unfold write_discriminant; writes_solve. auto with wire.
Qed.

#[export] Instance encode_optional_u32_to :
  EncodesTo encode_optional_u32 (wire_optional wire_u32) (λ _, True).
Proof.
  intros o e _. apply (write_optional_to write_u32 wire_u32 (λ _, True)); [apply _|by destruct o].
Qed.
#[export] Instance encode_optional_u64_to :
  EncodesTo encode_optional_u64 (wire_optional wire_u64) (λ _, True).
Proof.
  intros o e _. apply (write_optional_to write_u64 wire_u64 (λ _, True)); [apply _|by destruct o].
Qed.

Definition SetAttr_ok (a : SetAttr) : Prop :=
  SetTime_ok (SetAttr.sa_atime a) ∧ SetTime_ok (SetAttr.sa_mtime a).
Definition wire_SetAttr (a : SetAttr) : list byte :=
  wire_optional wire_u32 (SetAttr.sa_mode a) ++ wire_optional wire_u32 (SetAttr.sa_uid a)
  ++ wire_optional wire_u32 (SetAttr.sa_gid a) ++ wire_optional wire_u64 (SetAttr.sa_size a)
  ++ wire_SetTime (SetAttr.sa_atime a) ++ wire_SetTime (SetAttr.sa_mtime a).

#[export] Instance SetAttr_encode_to : EncodesTo SetAttr.encode wire_SetAttr SetAttr_ok.
Proof.
  apply encodes_writes. intros a [Ha Hm]. unfold SetAttr.encode, wire_SetAttr.
  do 5 (apply writes_seq; [writes_solve|]). writes_solve.
Qed.

Definition wire_StableHow (s : StableHow) : list byte := wire_u32 (StableHow.as_i32 s).

#[export] Instance StableHow_encode_to : EncodesTo StableHow.encode wire_StableHow (λ _, True).
Proof. apply encodes_writes. intros s _. unfold StableHow.encode. writes_solve. Qed.

Lemma StableHow_from_as s : StableHow.from_i32 (StableHow.as_i32 s) = Ok s.
Proof. by destruct s. Qed.

#[export] Instance StableHow_decode_from : DecodesFrom StableHow.decode wire_StableHow (λ _, True).
Proof.
  intros s _. unfold StableHow.decode, wire_StableHow, read_discriminant.
  eapply reads_bind_last; [reads_leaf; by destruct s|]. rewrite StableHow_from_as. reads_solve.
Qed.

Lemma StableHow_from_i32_safe v : fault_free (StableHow.from_i32 v).
Proof. unfold StableHow.from_i32. by repeat case_match. Qed.

#[export] Instance dec_safe_StableHow : DecSafe StableHow.decode.
Proof. apply dec_safe_bind; [apply _|]. intros v. apply dec_safe_lift, StableHow_from_i32_safe. Qed.

(** [satisfies] is the order of the wire values. *)
Lemma satisfies_spec a b :
  StableHow.satisfies a b = true ↔ StableHow.as_i32 b ≤ StableHow.as_i32 a.
Proof. by destruct a, b. Qed.

Definition CreateHow_ok (h : CreateHow) : Prop :=
  match h with
  | CreateHow.Unchecked attr | CreateHow.Guarded attr => SetAttr_ok attr
  | CreateHow.Exclusive verf => True
  end.
Definition wire_CreateHow (h : CreateHow) : list byte :=
  match h with
  | CreateHow.Unchecked attr => wire_u32 0 ++ wire_SetAttr attr
  | CreateHow.Guarded attr => wire_u32 1 ++ wire_SetAttr attr
  | CreateHow.Exclusive verf => wire_u32 2 ++ wire_fixed verf
  end.

Lemma writes_discriminant z : writes (write_discriminant z) (wire_u32 z).
Proof. apply writes_extend. Qed.
#[export] Hint Resolve writes_discriminant : wire.

#[export] Instance CreateHow_encode_to : EncodesTo CreateHow.encode wire_CreateHow CreateHow_ok.
Proof.
  apply encodes_writes. intros [a|a|v] Ha; cbn [CreateHow.encode wire_CreateHow]; writes_solve.
Qed.

Definition MknodData_attributes (d : MknodData) : SetAttr :=
  match d with
  | MknodData.CharacterDevice a _ | MknodData.BlockDevice a _
  | MknodData.Socket a | MknodData.Fifo a => a
  end.
Definition wire_MknodData (d : MknodData) : list byte :=
  match d with
  | MknodData.CharacterDevice a s =>
      wire_FileType FileType.CharacterDevice ++ wire_SetAttr a ++ wire_SpecData s
  | MknodData.BlockDevice a s =>
      wire_FileType FileType.BlockDevice ++ wire_SetAttr a ++ wire_SpecData s
  | MknodData.Socket a => wire_FileType FileType.Socket ++ wire_SetAttr a
  | MknodData.Fifo a => wire_FileType FileType.Fifo ++ wire_SetAttr a
  end.

#[export] Instance MknodData_encode_to :
  EncodesTo MknodData.encode wire_MknodData (λ d, SetAttr_ok (MknodData_attributes d)).
Proof.
  apply encodes_writes. intros [a s|a s|a|a] Ha; cbn [MknodData.encode wire_MknodData]; writes_solve.
Qed.

(** ** Arguments *)

Definition name_ok (name : str) : Prop := zlen name ≤ MAX_NAME_BYTES.

Lemma writes_name name : name_ok name → writes (write_string name MAX_NAME_BYTES) (wire_opaque name).
Proof. intros H. apply writes_opaque. by apply opaque_ok_small. Qed.
#[export] Hint Resolve writes_name : wire.

Definition Diropargs_ok (a : Diropargs) : Prop :=
  FileHandle_ok (dirop_dir a) ∧ name_ok (dirop_name a).
Definition wire_Diropargs (a : Diropargs) : list byte :=
  wire_FileHandle (dirop_dir a) ++ wire_opaque (dirop_name a).
#[export] Instance Diropargs_encode_to : EncodesTo Diropargs_encode wire_Diropargs Diropargs_ok.
Proof. apply encodes_writes. intros [] []. unfold Diropargs_encode. writes_solve. Qed.

Definition SetattrArgs_ok (a : SetattrArgs) : Prop :=
  FileHandle_ok (setattr_object a) ∧ SetAttr_ok (setattr_attr a)
  ∧ option_ok NfsTime_ok (setattr_guard a).
Definition wire_SetattrArgs (a : SetattrArgs) : list byte :=
  wire_FileHandle (setattr_object a) ++ wire_SetAttr (setattr_attr a)
  ++ wire_optional wire_NfsTime (setattr_guard a).
#[export] Instance SetattrArgs_encode_to : EncodesTo SetattrArgs_encode wire_SetattrArgs SetattrArgs_ok.
Proof.
  apply encodes_writes. intros [fh attr g] (Hfh & Ha & Hg). unfold SetattrArgs_encode.
  do 2 (apply writes_seq; [writes_solve|]).
  intros e. by apply (write_optional_to NfsTime.encode wire_NfsTime NfsTime_ok _).
Qed.

Definition wire_AccessArgs (a : AccessArgs) : list byte :=
  wire_FileHandle (access_args_object a) ++ wire_u32 (access_args_access a).
#[export] Instance AccessArgs_encode_to :
  EncodesTo AccessArgs_encode wire_AccessArgs (λ a, FileHandle_ok (access_args_object a)).
Proof. apply encodes_writes. intros [] ?. unfold AccessArgs_encode. writes_solve. Qed.

Lemma writes_u64 z : writes (write_u64 z) (wire_u64 z).
Proof. apply writes_extend. Qed.
#[export] Hint Resolve writes_u64 : wire.

Definition wire_ReadArgs (a : ReadArgs) : list byte :=
  wire_FileHandle (read_args_file a) ++ wire_u64 (read_args_offset a) ++ wire_u32 (read_args_count a).
#[export] Instance ReadArgs_encode_to :
  EncodesTo ReadArgs_encode wire_ReadArgs (λ a, FileHandle_ok (read_args_file a)).
Proof. apply encodes_writes. intros [] ?. unfold ReadArgs_encode. writes_solve. Qed.

Definition WriteArgs_ok (a : WriteArgs) : Prop :=
  FileHandle_ok (write_args_file a) ∧ zlen (write_args_data a) ≤ MAX_IO_BYTES.
Definition wire_WriteArgs (a : WriteArgs) : list byte :=
  wire_FileHandle (write_args_file a) ++ wire_u64 (write_args_offset a)
  ++ wire_u32 (write_args_count a) ++ wire_StableHow (write_args_stable a)
  ++ wire_opaque (write_args_data a).

Lemma writes_io_data data :
  zlen data ≤ MAX_IO_BYTES → writes (write_opaque data MAX_IO_BYTES) (wire_opaque data).
Proof. intros H. apply writes_opaque. by apply opaque_ok_small. Qed.
#[export] Hint Resolve writes_io_data : wire.

#[export] Instance WriteArgs_encode_to : EncodesTo WriteArgs_encode wire_WriteArgs WriteArgs_ok.
Proof. apply encodes_writes. intros [] []. unfold WriteArgs_encode. writes_solve. Qed.

Definition CreateArgs_ok (a : CreateArgs) : Prop :=
  Diropargs_ok (create_where a) ∧ CreateHow_ok (create_how a).
Definition wire_CreateArgs (a : CreateArgs) : list byte :=
  wire_Diropargs (create_where a) ++ wire_CreateHow (create_how a).
#[export] Instance CreateArgs_encode_to : EncodesTo CreateArgs_encode wire_CreateArgs CreateArgs_ok.
Proof. apply encodes_writes. intros [] []. unfold CreateArgs_encode. writes_solve. Qed.

Definition MkdirArgs_ok (a : MkdirArgs) : Prop :=
  Diropargs_ok (mkdir_where a) ∧ SetAttr_ok (mkdir_attributes a).
Definition wire_MkdirArgs (a : MkdirArgs) : list byte :=
  wire_Diropargs (mkdir_where a) ++ wire_SetAttr (mkdir_attributes a).
#[export] Instance MkdirArgs_encode_to : EncodesTo MkdirArgs_encode wire_MkdirArgs MkdirArgs_ok.
Proof. apply encodes_writes. intros [] []. unfold MkdirArgs_encode. writes_solve. Qed.

Definition SymlinkArgs_ok (a : SymlinkArgs) : Prop :=
  Diropargs_ok (symlink_where a) ∧ SetAttr_ok (symlink_attributes a)
  ∧ zlen (symlink_target a) ≤ MAX_PATH_BYTES.
Definition wire_SymlinkArgs (a : SymlinkArgs) : list byte :=
  wire_Diropargs (symlink_where a) ++ wire_SetAttr (symlink_attributes a)
  ++ wire_opaque (symlink_target a).
#[export] Instance SymlinkArgs_encode_to : EncodesTo SymlinkArgs_encode wire_SymlinkArgs SymlinkArgs_ok.
Proof. apply encodes_writes. intros [] (?&?&?). unfold SymlinkArgs_encode. writes_solve. Qed.

Definition MknodArgs_ok (a : MknodArgs) : Prop :=
  Diropargs_ok (mknod_where a) ∧ SetAttr_ok (MknodData_attributes (mknod_what a)).
Definition wire_MknodArgs (a : MknodArgs) : list byte :=
  wire_Diropargs (mknod_where a) ++ wire_MknodData (mknod_what a).
#[export] Instance MknodArgs_encode_to : EncodesTo MknodArgs_encode wire_MknodArgs MknodArgs_ok.
Proof. apply encodes_writes. intros [] []. unfold MknodArgs_encode. writes_solve. Qed.

Definition RenameArgs_ok (a : RenameArgs) : Prop :=
  Diropargs_ok (rename_from a) ∧ Diropargs_ok (rename_to a).
Definition wire_RenameArgs (a : RenameArgs) : list byte :=
  wire_Diropargs (rename_from a) ++ wire_Diropargs (rename_to a).
#[export] Instance RenameArgs_encode_to : EncodesTo RenameArgs_encode wire_RenameArgs RenameArgs_ok.
Proof. apply encodes_writes. intros [] []. unfold RenameArgs_encode. writes_solve. Qed.

Definition LinkArgs_ok (a : LinkArgs) : Prop :=
  FileHandle_ok (link_file a) ∧ Diropargs_ok (link_link a).
Definition wire_LinkArgs (a : LinkArgs) : list byte :=
  wire_FileHandle (link_file a) ++ wire_Diropargs (link_link a).
#[export] Instance LinkArgs_encode_to : EncodesTo LinkArgs_encode wire_LinkArgs LinkArgs_ok.
Proof. apply encodes_writes. intros [] []. unfold LinkArgs_encode. writes_solve. Qed.

Definition wire_ReadDirArgs (a : ReadDirArgs) : list byte :=
  wire_FileHandle (readdir_dir a) ++ wire_u64 (readdir_cookie a)
  ++ wire_fixed (readdir_args_cookieverf a) ++ wire_u32 (readdir_count a).
#[export] Instance ReadDirArgs_encode_to :
  EncodesTo ReadDirArgs_encode wire_ReadDirArgs (λ a, FileHandle_ok (readdir_dir a)).
Proof. apply encodes_writes. intros [] ?. unfold ReadDirArgs_encode. writes_solve. Qed.

Definition wire_ReadDirPlusArgs (a : ReadDirPlusArgs) : list byte :=
  wire_FileHandle (readdirplus_dir a) ++ wire_u64 (readdirplus_cookie a)
  ++ wire_fixed (readdirplus_cookieverf a) ++ wire_u32 (readdirplus_dircount a)
  ++ wire_u32 (readdirplus_maxcount a).
#[export] Instance ReadDirPlusArgs_encode_to :
  EncodesTo ReadDirPlusArgs_encode wire_ReadDirPlusArgs (λ a, FileHandle_ok (readdirplus_dir a)).
Proof. apply encodes_writes. intros [] ?. unfold ReadDirPlusArgs_encode. writes_solve. Qed.

Definition wire_CommitArgs (a : CommitArgs) : list byte :=
  wire_FileHandle (commit_file a) ++ wire_u64 (commit_offset a) ++ wire_u32 (commit_count a).
#[export] Instance CommitArgs_encode_to :
  EncodesTo CommitArgs_encode wire_CommitArgs (λ a, FileHandle_ok (commit_file a)).
Proof. apply encodes_writes. intros [] ?. unfold CommitArgs_encode. writes_solve. Qed.

(** ** Directory listings *)

Record entry_ok (plus : bool) (e : DirectoryEntry) : Prop := mkentry_ok {
  entry_fileid_ok : is_u64 (entry_fileid e);
  entry_name_ok : name_ok (entry_name e);
  entry_utf8_ok : utf8_valid (entry_name e) = true;
  entry_cookie_ok : is_u64 (entry_cookie e);
  entry_plus_ok :
    if plus then option_ok FileAttr_ok (entry_attributes e) ∧ option_ok FileHandle_ok (entry_handle e)
    else entry_attributes e = None ∧ entry_handle e = None;
}.

Definition wire_entry (plus : bool) (e : DirectoryEntry) : list byte :=
  wire_u64 (entry_fileid e) ++ wire_opaque (entry_name e) ++ wire_u64 (entry_cookie e)
  ++ if plus then wire_optional wire_FileAttr (entry_attributes e)
                  ++ wire_optional wire_FileHandle (entry_handle e)
     else [].

Definition wire_entries (plus : bool) : list DirectoryEntry → list byte :=
  wire_linked (wire_entry plus).

#[export] Instance dir_entry_from plus :
  DecodesFrom (decode_dir_entry plus) (wire_entry plus) (entry_ok plus).
Proof.
  intros e He. destruct e as [fid name cookie attrs fh], He as [Hid Hn Hu Hc Hp]. cbn in *.
  unfold decode_dir_entry, wire_entry; cbn [entry_fileid entry_name entry_cookie entry_attributes
                                            entry_handle].
  eapply reads_bind; [reads_leaf|]. cbv beta.
  eapply reads_bind; [reads_leaf; split; [by apply opaque_ok_small|done]|]. cbv beta.
  eapply reads_bind; [reads_leaf|]. cbv beta.
  apply (reads_bind_last _ _ _ (attrs, fh)); [|apply reads_ret].
  destruct plus, Hp as [Ha Hf].
  - reads_solve.
  - rewrite Ha, Hf. apply reads_ret.
Qed.

#[export] Instance dec_safe_dir_entry plus : DecSafe (decode_dir_entry plus).
Proof.
  unfold decode_dir_entry. do 3 (apply dec_safe_bind; [apply _|intros ?]).
  apply dec_safe_bind; [destruct plus; apply _|]. intros [attrs fh]. apply _.
Qed.

(** The loop of [decode_dir_entries] reads a linked list. *)
Lemma dir_entries_full (entries : list DirectoryEntry) :
  zlen entries ≤ MAX_DIR_ENTRIES →
  (zlen entries >=? MAX_DIR_ENTRIES) = (zlen entries =? MAX_DIR_ENTRIES).
Proof.
  intros H. destruct (Z.geb_spec (zlen entries) MAX_DIR_ENTRIES),
    (Z.eqb_spec (zlen entries) MAX_DIR_ENTRIES); lia || done.
Qed.

Definition entries_ok (plus : bool) (l : list DirectoryEntry) : Prop :=
  Forall (entry_ok plus) l ∧ zlen l ≤ MAX_DIR_ENTRIES.

#[export] Instance dir_entries_from plus :
  DecodesFrom (decode_dir_entries plus) (wire_entries plus) (entries_ok plus).
Proof.
  intros l [Hl Hmax]. unfold decode_dir_entries.
  apply (reads_linked (decode_dir_entry plus) _ _ _ dir_entries_full (wire_entry plus) (entry_ok plus) l []);
    [done|done|]. unfold MAX_DIR_ENTRIES in *. lia.
Qed.

#[export] Instance dec_safe_dir_entries plus : DecSafe (decode_dir_entries plus).
Proof. by apply (dec_safe_linked (decode_dir_entry plus) _ _ _ dir_entries_full). Qed.

(** A listing is never longer than the limit. *)
Lemma decode_dir_entries_bounded plus d d' l :
  dec_wf d → decode_dir_entries plus d = (d', Ok l) → zlen l ≤ MAX_DIR_ENTRIES.
Proof. by apply (linked_bounded (decode_dir_entry plus) _ _ _ dir_entries_full). Qed.
