(* ===== verification/V3Calls.v ===== *)
(** * The NFSv3 procedure client (src/src/v3/proto.rs, [Nfs3Client])

    [Nfs3Client] sends one procedure call at a time over its RPC connection
    and repeats it while the server answers JUKEBOX and the retry policy
    allows.  [nfs_slept] records the delays of [thread::sleep], oldest first.

    [Nfs3] is the interface the path-oriented client is written against: the
    procedures, and what their results promise whatever the server does. *)

From Stdlib Require Import Strings.String Strings.Byte.
From S2P Require Import Prelude Text Xdr Status Errors Rpc V3Proto.
Import FileHandle (FileHandle).
Import FileAttr (FileAttr).
Import WccData (WccData).
Import SetAttr (SetAttr).
Import StableHow (StableHow).
Import CreateHow (CreateHow).
Import MknodData (MknodData).

#[local] Open Scope Z_scope.

Module Nfs3Client.

Section nfs3_client.
Context {St : Type} `{!Transport St}.

Record Nfs3Client := mkNfs3Client {
  nfs_rpc : RpcClient St;
  nfs_retry_policy : RetryPolicy;
  nfs_slept : list Z;
}.

Definition with_rpc (rpc : RpcClient St) (c : Nfs3Client) : Nfs3Client :=
  mkNfs3Client rpc (nfs_retry_policy c) (nfs_slept c).

(** A method of [self.rpc]. *)
Definition rpc {A} (m : M (RpcClient St) Error A) : M Nfs3Client Error A := zoom nfs_rpc with_rpc m.

Definition thread_sleep (delay : Z) : M Nfs3Client Error unit :=
  modify (λ c, mkNfs3Client (nfs_rpc c) (nfs_retry_policy c) (nfs_slept c ++ [delay])).

Definition set_max_record_size (max_record_size : Z) : M Nfs3Client Error unit :=
  rpc (Rpc.set_max_record_size max_record_size).

Definition set_retry_policy (retry_policy : RetryPolicy) : M Nfs3Client Error unit :=
  modify (λ c, mkNfs3Client (nfs_rpc c) retry_policy (nfs_slept c)).

(** One turn of the loop of [call]; the loop variable is [retry]. *)
Definition call_step {A} (procedure : Z) (enc : A → M Encoder XdrError unit) (args : A) (retry : Z)
    : M Nfs3Client Error (Z + list byte) :=
  payload ← rpc (Rpc.call NFS_PROGRAM NFS_VERSION procedure enc args);
  policy ← gets nfs_retry_policy;
  if negb (procedure =? NFSPROC3_NULL) && payload_has_status payload NfsStatus.Jukebox then
    match delay_for_retry policy retry with
    | Some delay =>
        let retry := retry + 1 in
        thread_sleep delay ;;
        continue_ retry
    | None => break_ payload
    end
  else break_ payload.

(** [delay_for_retry] gives up after [max_retries] retries. *)
Definition call {A} (procedure : Z) (enc : A → M Encoder XdrError unit) (args : A)
    : M Nfs3Client Error (list byte) :=
  policy ← gets nfs_retry_policy;
  loop (Z.to_pos (max_retries policy + 1)) (call_step procedure enc args) 0.

(** [let mut decoder = Decoder::new(&payload); ..]. *)
Definition decoding {A} (m : M Decoder Error A) (payload : list byte) : M Nfs3Client Error A :=
  lift (m (Decoder_new payload)).2.

Definition null : M Nfs3Client Error unit :=
  payload ← rpc (Rpc.call NFS_PROGRAM NFS_VERSION NFSPROC3_NULL encode_unit tt);
  decoding null_reply payload.

Definition getattr (object : FileHandle) : M Nfs3Client Error FileAttr :=
  payload ← call NFSPROC3_GETATTR FileHandle.encode object;
  decoding getattr_reply payload.

Definition setattr (object : FileHandle) (attr : SetAttr) : M Nfs3Client Error WccData :=
  payload ← call NFSPROC3_SETATTR SetattrArgs_encode (mkSetattrArgs object attr None);
  decoding (wcc_only_reply "SETATTR") payload.

Definition lookup (dir : FileHandle) (name : str) : M Nfs3Client Error LookupResult :=
  payload ← call NFSPROC3_LOOKUP Diropargs_encode (mkDiropargs dir name);
  decoding lookup_reply payload.

Definition access (object : FileHandle) (access : Z) : M Nfs3Client Error AccessResult :=
  payload ← call NFSPROC3_ACCESS AccessArgs_encode (mkAccessArgs object access);
  decoding access_reply payload.

Definition readlink (symlink : FileHandle) : M Nfs3Client Error str :=
  payload ← call NFSPROC3_READLINK FileHandle.encode symlink;
  decoding readlink_reply payload.

Definition read (file : FileHandle) (offset count : Z) : M Nfs3Client Error ReadResult :=
  let requested_count := count in
  payload ← call NFSPROC3_READ ReadArgs_encode (mkReadArgs file offset count);
  decoding (read_reply requested_count) payload.

Definition write (file : FileHandle) (offset : Z) (stable : StableHow) (data : list byte)
    : M Nfs3Client Error WriteResult :=
  if zlen data >? u32_max then throw (LengthOutOfRange (zlen data)) else
  let requested_count := zlen data in
  payload ← call NFSPROC3_WRITE WriteArgs_encode
              (mkWriteArgs file offset requested_count stable data);
  decoding (write_reply requested_count) payload.

Definition create_like {A} (procedure_id : Z) (procedure_name : string)
    (enc : A → M Encoder XdrError unit) (args : A) : M Nfs3Client Error CreateResult :=
  payload ← call procedure_id enc args;
  decoding (create_like_reply procedure_name) payload.

Definition wcc_only {A} (procedure_id : Z) (procedure_name : string)
    (enc : A → M Encoder XdrError unit) (args : A) : M Nfs3Client Error WccData :=
  payload ← call procedure_id enc args;
  decoding (wcc_only_reply procedure_name) payload.

Definition create (dir : FileHandle) (name : str) (how : CreateHow) : M Nfs3Client Error CreateResult :=
  create_like NFSPROC3_CREATE "CREATE" CreateArgs_encode (mkCreateArgs (mkDiropargs dir name) how).

Definition mkdir (dir : FileHandle) (name : str) (attributes : SetAttr)
    : M Nfs3Client Error CreateResult :=
  create_like NFSPROC3_MKDIR "MKDIR" MkdirArgs_encode (mkMkdirArgs (mkDiropargs dir name) attributes).

Definition symlink (dir : FileHandle) (name target : str) (attributes : SetAttr)
    : M Nfs3Client Error CreateResult :=
  create_like NFSPROC3_SYMLINK "SYMLINK" SymlinkArgs_encode
    (mkSymlinkArgs (mkDiropargs dir name) target attributes).

Definition mknod (dir : FileHandle) (name : str) (what : MknodData) : M Nfs3Client Error CreateResult :=
  create_like NFSPROC3_MKNOD "MKNOD" MknodArgs_encode (mkMknodArgs (mkDiropargs dir name) what).

Definition remove (dir : FileHandle) (name : str) : M Nfs3Client Error WccData :=
  wcc_only NFSPROC3_REMOVE "REMOVE" Diropargs_encode (mkDiropargs dir name).

Definition rmdir (dir : FileHandle) (name : str) : M Nfs3Client Error WccData :=
  wcc_only NFSPROC3_RMDIR "RMDIR" Diropargs_encode (mkDiropargs dir name).

Definition rename (from_dir : FileHandle) (from_name : str) (to_dir : FileHandle) (to_name : str)
    : M Nfs3Client Error RenameResult :=
  payload ← call NFSPROC3_RENAME RenameArgs_encode
              (mkRenameArgs (mkDiropargs from_dir from_name) (mkDiropargs to_dir to_name));
  decoding rename_reply payload.

Definition link (file link_dir : FileHandle) (link_name : str) : M Nfs3Client Error LinkResult :=
  payload ← call NFSPROC3_LINK LinkArgs_encode (mkLinkArgs file (mkDiropargs link_dir link_name));
  decoding link_reply payload.

Definition readdir (dir : FileHandle) (cookie : Z) (cookieverf : list byte) (count : Z)
    : M Nfs3Client Error ReadDirResult :=
  payload ← call NFSPROC3_READDIR ReadDirArgs_encode (mkReadDirArgs dir cookie cookieverf count);
  decoding (readdir_reply "READDIR" false) payload.

Definition readdirplus (dir : FileHandle) (cookie : Z) (cookieverf : list byte)
    (dircount maxcount : Z) : M Nfs3Client Error ReadDirResult :=
  payload ← call NFSPROC3_READDIRPLUS ReadDirPlusArgs_encode
              (mkReadDirPlusArgs dir cookie cookieverf dircount maxcount);
  decoding (readdir_reply "READDIRPLUS" true) payload.

Definition fsstat (fsroot : FileHandle) : M Nfs3Client Error FsStat :=
  payload ← call NFSPROC3_FSSTAT FileHandle.encode fsroot;
  decoding fsstat_reply payload.

Definition fsinfo (fsroot : FileHandle) : M Nfs3Client Error FsInfo :=
  payload ← call NFSPROC3_FSINFO FileHandle.encode fsroot;
  decoding fsinfo_reply payload.

Definition pathconf (object : FileHandle) : M Nfs3Client Error PathConf :=
  payload ← call NFSPROC3_PATHCONF FileHandle.encode object;
  decoding pathconf_reply payload.

Definition commit (file : FileHandle) (offset count : Z) : M Nfs3Client Error CommitResult :=
  payload ← call NFSPROC3_COMMIT CommitArgs_encode (mkCommitArgs file offset count);
  decoding commit_reply payload.

End nfs3_client.

Arguments Nfs3Client : clear implicits.
Arguments mkNfs3Client {St}.

End Nfs3Client.

(** ** The interface *)

(** What a caller of the procedures can rely on for every server: a READ
    returns no more than was asked for, and something unless at the end of the
    file; a WRITE accepts part of the data, and at least one byte of it. *)
Definition read_ok (count : Z) (r : ReadResult) : Prop :=
  zlen (read_data r) = read_count r ∧ read_count r ≤ count
  ∧ (0 < count → read_count r = 0 → read_eof r = true).

Definition write_ok (requested : Z) (r : WriteResult) : Prop :=
  0 ≤ write_count r ≤ requested ∧ (0 < requested → 0 < write_count r).

Class Nfs3 (N : Type) := {
  nfs_inv : N → Prop;
  nfs_getattr : FileHandle → M N Error FileAttr;
  nfs_setattr : FileHandle → SetAttr → M N Error WccData;
  nfs_lookup : FileHandle → str → M N Error LookupResult;
  nfs_access : FileHandle → Z → M N Error AccessResult;
  nfs_readlink : FileHandle → M N Error str;
  nfs_read : FileHandle → Z → Z → M N Error ReadResult;
  nfs_write : FileHandle → Z → StableHow → list byte → M N Error WriteResult;
  nfs_create : FileHandle → str → CreateHow → M N Error CreateResult;
  nfs_mkdir : FileHandle → str → SetAttr → M N Error CreateResult;
  nfs_symlink : FileHandle → str → str → SetAttr → M N Error CreateResult;
  nfs_mknod : FileHandle → str → MknodData → M N Error CreateResult;
  nfs_remove : FileHandle → str → M N Error WccData;
  nfs_rmdir : FileHandle → str → M N Error WccData;
  nfs_rename : FileHandle → str → FileHandle → str → M N Error RenameResult;
  nfs_link : FileHandle → FileHandle → str → M N Error LinkResult;
  nfs_readdir : FileHandle → Z → list byte → Z → M N Error ReadDirResult;
  nfs_readdirplus : FileHandle → Z → list byte → Z → Z → M N Error ReadDirResult;
  nfs_fsstat : FileHandle → M N Error FsStat;
  nfs_fsinfo : FileHandle → M N Error FsInfo;
  nfs_pathconf : FileHandle → M N Error PathConf;
  nfs_commit : FileHandle → Z → Z → M N Error CommitResult;
}.

(** [keeps m Q]: [m] keeps the invariant, does not fault, and what it returns
    satisfies [Q]. *)
Definition keeps {N A} `{!Nfs3 N} (m : M N Error A) (Q : A → Prop) : Prop :=
  ∀ s, nfs_inv s → post m s (λ a s', Q a ∧ nfs_inv s') (λ _ s', nfs_inv s').

(** The promises of the interface. *)
Class Nfs3Laws (N : Type) `{!Nfs3 N} := {
  keeps_getattr fh : keeps (nfs_getattr fh) (λ _, True);
  keeps_setattr fh attr : keeps (nfs_setattr fh attr) (λ _, True);
  keeps_lookup dir name : keeps (nfs_lookup dir name) (λ _, True);
  keeps_read fh offset count : 0 ≤ count → keeps (nfs_read fh offset count) (read_ok count);
  keeps_write fh offset stable data :
    keeps (nfs_write fh offset stable data) (write_ok (zlen data));
  keeps_create dir name how : keeps (nfs_create dir name how) (λ _, True);
  keeps_mkdir dir name attr : keeps (nfs_mkdir dir name attr) (λ _, True);
  keeps_remove dir name : keeps (nfs_remove dir name) (λ _, True);
  keeps_rmdir dir name : keeps (nfs_rmdir dir name) (λ _, True);
  keeps_rename d1 n1 d2 n2 : keeps (nfs_rename d1 n1 d2 n2) (λ _, True);
  keeps_readdir dir cookie verf count : keeps (nfs_readdir dir cookie verf count) (λ _, True);
  keeps_readdirplus dir cookie verf dircount maxcount :
    keeps (nfs_readdirplus dir cookie verf dircount maxcount) (λ _, True);
  keeps_commit fh offset count : keeps (nfs_commit fh offset count) (λ _, True);
}.

#[export] Instance Nfs3Client_nfs3 {St} `{!Transport St} : Nfs3 (Nfs3Client.Nfs3Client St) := {
  nfs_inv c := 0 ≤ max_record_size (Nfs3Client.nfs_rpc c) ≤ isize_max
               ∧ 0 ≤ max_retries (Nfs3Client.nfs_retry_policy c) ≤ u32_max;
  nfs_getattr := Nfs3Client.getattr;
  nfs_setattr := Nfs3Client.setattr;
  nfs_lookup := Nfs3Client.lookup;
  nfs_access := Nfs3Client.access;
  nfs_readlink := Nfs3Client.readlink;
  nfs_read := Nfs3Client.read;
  nfs_write := Nfs3Client.write;
  nfs_create := Nfs3Client.create;
  nfs_mkdir := Nfs3Client.mkdir;
  nfs_symlink := Nfs3Client.symlink;
  nfs_mknod := Nfs3Client.mknod;
  nfs_remove := Nfs3Client.remove;
  nfs_rmdir := Nfs3Client.rmdir;
  nfs_rename := Nfs3Client.rename;
  nfs_link := Nfs3Client.link;
  nfs_readdir := Nfs3Client.readdir;
  nfs_readdirplus := Nfs3Client.readdirplus;
  nfs_fsstat := Nfs3Client.fsstat;
  nfs_fsinfo := Nfs3Client.fsinfo;
  nfs_pathconf := Nfs3Client.pathconf;
  nfs_commit := Nfs3Client.commit;
}.
