(* ===== verification/V3Replies.v ===== *)
(** * The replies of the NFSv3 procedures

    What a server says ([reply]) and what the method of [Nfs3Client] makes of
    it: the body of a success is returned, a failure becomes [Error::Nfs] with
    the procedure's name and the server's status, and nothing may follow.  On
    any other payload the decoders fail without faulting ([DecSafe]), and what
    [read] and [write] accept satisfies the promises of the interface. *)

From Stdlib Require Import Strings.String Strings.Byte.
From S2P Require Import Prelude Text Xdr XdrSpec XdrList Status Errors Rpc RpcSpec V3Proto V3Wire.
From S2P Require Import V3Calls.
Import FileHandle (FileHandle).
Import FileAttr (FileAttr).
Import WccData (WccData).

#[local] Open Scope Z_scope.

(** ** Whole payloads *)

(** [replies m bs o]: when [bs] is all there is left to read, [m] ends in [o]. *)
Definition replies {A} (m : M Decoder Error A) (bs : list byte) (o : outcome Error A) : Prop :=
  ∀ pre, zlen (pre ++ bs) ≤ isize_max → (m (dec_at pre bs)).2 = o.

Lemma replies_bind {A B} (m : M Decoder Error A) (k : A → M Decoder Error B) bs1 bs2 a o :
  reads m bs1 a → replies (k a) bs2 o → replies (m ≫= k) (bs1 ++ bs2) o.
Proof.
  intros Hm Hk pre Hl. rewrite (reads_step _ _ _ _ _ _ Hm) by done.
  apply Hk. by rewrite <- app_assoc.
Qed.

Lemma replies_bind_last {A B} (m : M Decoder Error A) (k : A → M Decoder Error B) bs a o :
  reads m bs a → replies (k a) [] o → replies (m ≫= k) bs o.
Proof. intros Hm Hk. rewrite <- (app_nil_r bs). by eapply replies_bind. Qed.

Lemma replies_finish {B} (k : M Decoder Error B) o :
  replies k [] o → replies (finish_reply ;; k) [] o.
Proof.
  intros Hk pre Hl. rewrite (bind_run _ _ _ (dec_at pre []) tt); [by apply Hk|].
  unfold finish_reply, xdr, map_err. by rewrite finish_dec_at.
Qed.

Lemma replies_ret {A} (a : A) : replies (mret a) [] (Ok a).
Proof. done. Qed.

Lemma replies_throw {A} e bs : replies (A := A) (throw e) bs (Err e).
Proof. done. Qed.

Lemma replies_lift {B} o (k : M Decoder Error B) bs r :
  o = Ok tt → replies k bs r → replies (lift o ;; k) bs r.
Proof. by intros -> Hk. Qed.

Lemma replies_whole {A} (m : M Decoder Error A) bs o :
  replies m bs o → zlen bs ≤ isize_max → (m (Decoder_new bs)).2 = o.
Proof. intros H Hl. rewrite dec_at_new. by apply H. Qed.

(** ** Replies *)

Inductive reply (R F : Type) :=
  | Success (r : R)
  | Failure (status : NfsStatus.NfsStatus) (f : F).
Arguments Success {R F} r.
Arguments Failure {R F} status f.

(** A status a server sends for an error: not OK, and one of the protocol's
    codes or a number the client does not know. *)
Definition failure_status (s : NfsStatus.NfsStatus) : Prop :=
  s ≠ NfsStatus.Ok ∧ is_u32 (NfsStatus.as_u32 s) ∧ NfsStatus.from_u32 (NfsStatus.as_u32 s) = s.

Definition reply_ok {R F} (okR : R → Prop) (okF : F → Prop) (r : reply R F) : Prop :=
  match r with
  | Success r => okR r
  | Failure s f => failure_status s ∧ okF f
  end.

Definition wire_reply {R F} (wireR : R → list byte) (wireF : F → list byte) (r : reply R F)
    : list byte :=
  match r with
  | Success r => wire_u32 (NfsStatus.as_u32 NfsStatus.Ok) ++ wireR r
  | Failure s f => wire_u32 (NfsStatus.as_u32 s) ++ wireF f
  end.

Definition reply_result {R F} (procedure : string) (r : reply R F) : outcome Error R :=
  match r with
  | Success r => Ok r
  | Failure s _ => Err (Nfs procedure s)
  end.

Lemma reads_status_ok :
  reads (xdr decode_status) (wire_u32 (NfsStatus.as_u32 NfsStatus.Ok)) NfsStatus.Ok.
Proof. apply reads_xdr. unfold decode_status. eapply reads_bind_last; [reads_leaf|]. apply reads_ret. Qed.

Lemma reads_status s :
  failure_status s → reads (xdr decode_status) (wire_u32 (NfsStatus.as_u32 s)) s.
Proof.
  intros (_ & Hu & Hs). apply reads_xdr. unfold decode_status.
  eapply reads_bind_last; [reads_leaf|]. cbv beta. rewrite Hs. apply reads_ret.
Qed.

Lemma failure_not_ok s : failure_status s → s ≠ NfsStatus.Ok.
Proof. by intros [? _]. Qed.

(** Follow the code of a reply decoder. *)
Ltac replies_solve :=
  cbv beta;
  lazymatch goal with
  | |- replies (finish_reply ;; _) [] _ => apply replies_finish; replies_solve
  | |- replies (mret _) [] _ => apply replies_ret
  | |- replies (throw _) _ _ => apply replies_throw
  | |- replies (lift _ ;; _) _ _ => apply replies_lift; [try done|replies_solve]
  | |- replies (if bool_decide (NfsStatus.Ok = NfsStatus.Ok) then _ else _) _ _ =>
      rewrite bool_decide_true by done; replies_solve
  | |- replies (if negb (bool_decide (NfsStatus.Ok = NfsStatus.Ok)) then _ else _) _ _ =>
      rewrite bool_decide_true by done; cbn [negb]; replies_solve
  | |- replies (if bool_decide (_ = NfsStatus.Ok) then _ else _) _ _ =>
      rewrite bool_decide_false by (by apply failure_not_ok); replies_solve
  | |- replies (if negb (bool_decide (_ = NfsStatus.Ok)) then _ else _) _ _ =>
      rewrite bool_decide_false by (by apply failure_not_ok); cbn [negb]; replies_solve
  | |- replies (mbind _ _) (_ ++ _) _ => eapply replies_bind; [replies_leaf|replies_solve]
  | |- replies (mbind _ _) _ _ => eapply replies_bind_last; [replies_leaf|replies_solve]
  | |- _ => idtac
  end
with replies_leaf :=
  lazymatch goal with
  | |- reads (xdr decode_status) (wire_u32 (NfsStatus.as_u32 NfsStatus.Ok)) _ =>
      apply reads_status_ok
  | |- reads (xdr decode_status) _ _ => apply reads_status; assumption
  | |- _ => reads_leaf
  end.

(** GETATTR. *)
Lemma getattr_reply_spec (r : reply FileAttr unit) :
  reply_ok FileAttr_ok (λ _, True) r →
  replies getattr_reply (wire_reply wire_FileAttr (λ _, []) r) (reply_result "GETATTR" r).
Proof.
  destruct r as [r|s f]; cbn [reply_ok wire_reply reply_result]; unfold getattr_reply, require_ok.
  - intros Hr pre Hl.
    rewrite (reads_step (require_ok "GETATTR") _ _ tt).
    + revert pre Hl. assert (replies (attr ← xdr FileAttr.decode; finish_reply ;; mret attr)
        (wire_FileAttr r) (Ok r)) as H by replies_solve.
      intros pre Hl. apply H. by rewrite <- app_assoc.
    + unfold require_ok. eapply reads_bind_last; [apply reads_status_ok|].
      rewrite bool_decide_true by done. apply reads_ret.
    + done.
  - intros [Hs _] pre Hl. unfold mbind at 1, M_bind at 1.
    assert (replies (require_ok "GETATTR") (wire_u32 (NfsStatus.as_u32 s) ++ [])
              (Err (Nfs "GETATTR" s))) as H by (unfold require_ok; replies_solve).
    specialize (H pre Hl). unfold require_ok in H.
    match type of H with (?m ?d).2 = _ => destruct (m d) as [d' o] eqn:Heq end.
    cbn in H. by subst o.
Qed.

(** SETATTR, REMOVE and RMDIR. *)
Lemma wcc_only_reply_spec procedure (r : reply WccData WccData) :
  reply_ok WccData_ok WccData_ok r →
  replies (wcc_only_reply procedure) (wire_reply wire_WccData wire_WccData r)
    (reply_result procedure r).
Proof. destruct r as [r|s f]; cbn [reply_ok wire_reply reply_result]; [intros ?|intros [??]]; unfold wcc_only_reply; replies_solve. Qed.

Definition LookupResult_ok (r : LookupResult) : Prop :=
  FileHandle_ok (lookup_object r) ∧ option_ok FileAttr_ok (lookup_object_attributes r)
  ∧ option_ok FileAttr_ok (lookup_directory_attributes r).
Definition wire_LookupResult (r : LookupResult) : list byte :=
  wire_FileHandle (lookup_object r) ++ wire_optional wire_FileAttr (lookup_object_attributes r)
  ++ wire_optional wire_FileAttr (lookup_directory_attributes r).

Lemma lookup_reply_spec r :
  reply_ok LookupResult_ok (option_ok FileAttr_ok) r →
  replies lookup_reply (wire_reply wire_LookupResult (wire_optional wire_FileAttr) r)
    (reply_result "LOOKUP" r).
Proof.
  destruct r as [[]|s f]; cbn [reply_ok wire_reply reply_result]; [intros (?&?&?)|intros [??]]; unfold lookup_reply, wire_LookupResult;
    replies_solve.
Qed.

Definition AccessResult_ok (r : AccessResult) : Prop :=
  option_ok FileAttr_ok (access_object_attributes r) ∧ is_u32 (access_access r).
Definition wire_AccessResult (r : AccessResult) : list byte :=
  wire_optional wire_FileAttr (access_object_attributes r) ++ wire_u32 (access_access r).

Lemma access_reply_spec r :
  reply_ok AccessResult_ok (option_ok FileAttr_ok) r →
  replies access_reply (wire_reply wire_AccessResult (wire_optional wire_FileAttr) r)
    (reply_result "ACCESS" r).
Proof.
  destruct r as [[]|s f]; cbn [reply_ok wire_reply reply_result]; [intros (?&?)|intros [??]]; unfold access_reply, wire_AccessResult;
    replies_solve.
Qed.

(** READLINK: the attributes are dropped, the target is returned. *)
Lemma readlink_reply_spec (r : reply (PostOpAttr * str) PostOpAttr) :
  reply_ok (λ r, option_ok FileAttr_ok r.1 ∧ string_ok MAX_PATH_BYTES r.2) (option_ok FileAttr_ok) r →
  replies readlink_reply
    (wire_reply (λ r, wire_optional wire_FileAttr r.1 ++ wire_opaque r.2) (wire_optional wire_FileAttr) r)
    (match r with Success r => Ok r.2 | Failure s _ => Err (Nfs "READLINK" s) end).
Proof.
  destruct r as [[attrs data]|s f]; cbn [reply_ok wire_reply reply_result]; [intros (?&?)|intros [??]]; unfold readlink_reply;
    replies_solve.
Qed.

(** READ: an answer within the request. *)
Definition ReadResult_ok (requested : Z) (r : ReadResult) : Prop :=
  option_ok FileAttr_ok (read_file_attributes r) ∧ read_ok requested r
  ∧ requested ≤ MAX_IO_BYTES.
Definition wire_ReadResult (r : ReadResult) : list byte :=
  wire_optional wire_FileAttr (read_file_attributes r) ++ wire_u32 (read_count r)
  ++ wire_bool (read_eof r) ++ wire_opaque (read_data r).

Lemma validate_read_ok requested r :
  read_ok requested r ↔
  validate_read_result_size requested (read_count r) (zlen (read_data r)) (read_eof r) = Ok tt.
Proof.
  unfold read_ok, validate_read_result_size. pose proof (zlen_nonneg (read_data r)).
  destruct (Z.eqb_spec (zlen (read_data r)) (read_count r)); cbn [negb]; [|split; [lia|done]].
  destruct (Z.gtb_spec (read_count r) requested); [split; [lia|done]|].
  destruct (Z.gtb_spec requested 0); cbn [andb]; [|split; [done|lia]].
  destruct (Z.eqb_spec (read_count r) 0); cbn [andb]; [|split; [done|lia]].
  destruct (read_eof r); cbn [negb]; [by split|].
  split; [intros (_ & _ & H'); specialize (H' ltac:(lia) ltac:(lia)); done|done].
Qed.

Lemma read_reply_spec requested r :
  reply_ok (ReadResult_ok requested) (option_ok FileAttr_ok) r →
  replies (read_reply requested) (wire_reply wire_ReadResult (wire_optional wire_FileAttr) r)
    (reply_result "READ" r).
Proof.
  destruct r as [[attrs count eof data]|s f]; cbn [reply_ok wire_reply reply_result];
    [intros (Ha & Hr & Hreq)|intros [??]]; unfold read_reply, wire_ReadResult; [|replies_solve].
  pose proof Hr as (Hc & Hle & _). pose proof (zlen_nonneg data) as Hd. cbn in Hc, Hle.
  unfold MAX_IO_BYTES in Hreq.
  assert (is_u32 count) by (int_unfold; lia).
  assert (opaque_ok MAX_IO_BYTES data) by (apply opaque_ok_small; unfold MAX_IO_BYTES; int_unfold; lia).
  unfold read_opaque_vec. replies_solve. by apply (validate_read_ok _ (mkReadResult attrs count eof data)).
Qed.

Definition verf_ok (verf : list byte) : Prop := zlen verf = NFS3_WRITEVERFSIZE.

#[export] Instance writeverf_from : DecodesFrom decode_writeverf wire_fixed verf_ok.
Proof.
  intros v Hv. unfold decode_writeverf. eapply reads_bind_last; [reads_leaf|].
  cbv beta. rewrite Hv. apply reads_ret.
Qed.
#[export] Instance cookieverf_from : DecodesFrom decode_cookieverf wire_fixed verf_ok.
Proof. apply writeverf_from. Qed.
#[export] Instance dec_safe_writeverf : DecSafe decode_writeverf.
Proof.
  unfold decode_writeverf. apply dec_safe_bind; [by apply dec_safe_read_fixed_opaque|apply _].
Qed.
#[export] Instance dec_safe_cookieverf : DecSafe decode_cookieverf.
Proof. apply dec_safe_writeverf. Qed.

Definition WriteResult_ok (requested : Z) (r : WriteResult) : Prop :=
  WccData_ok (write_file_wcc r) ∧ write_ok requested r ∧ requested ≤ u32_max
  ∧ verf_ok (write_verifier r).
Definition wire_WriteResult (r : WriteResult) : list byte :=
  wire_WccData (write_file_wcc r) ++ wire_u32 (write_count r) ++ wire_StableHow (write_committed r)
  ++ wire_fixed (write_verifier r).

Lemma validate_write_ok requested r :
  0 ≤ write_count r →
  write_ok requested r ↔ validate_write_result_count requested (write_count r) = Ok tt.
Proof.
  intros Hnn. unfold write_ok, validate_write_result_count.
  destruct (Z.gtb_spec (write_count r) requested); [split; [lia|done]|].
  destruct (Z.gtb_spec requested 0); cbn [andb]; [|split; [done|lia]].
  destruct (Z.eqb_spec (write_count r) 0); [split; [lia|done]|split; [done|lia]].
Qed.

Lemma write_reply_spec requested r :
  reply_ok (WriteResult_ok requested) WccData_ok r →
  replies (write_reply requested) (wire_reply wire_WriteResult wire_WccData r)
    (reply_result "WRITE" r).
Proof.
  destruct r as [[wcc count committed verf]|s f]; cbn [reply_ok wire_reply reply_result];
    [intros (Hw & Hr & Hreq & Hv)|intros [??]]; unfold write_reply, wire_WriteResult; [|replies_solve].
  pose proof Hr as (Hc & _). cbn in Hc. assert (is_u32 count) by (int_unfold; lia).
  replies_solve. apply (validate_write_ok _ (mkWriteResult wcc count committed verf)); [apply Hc|done].
Qed.

Definition CreateResult_ok (r : CreateResult) : Prop :=
  option_ok FileHandle_ok (create_object r) ∧ option_ok FileAttr_ok (create_object_attributes r)
  ∧ WccData_ok (create_directory_wcc r).
Definition wire_CreateResult (r : CreateResult) : list byte :=
  wire_optional wire_FileHandle (create_object r)
  ++ wire_optional wire_FileAttr (create_object_attributes r) ++ wire_WccData (create_directory_wcc r).

(** CREATE, MKDIR, SYMLINK and MKNOD. *)
Lemma create_like_reply_spec procedure r :
  reply_ok CreateResult_ok WccData_ok r →
  replies (create_like_reply procedure) (wire_reply wire_CreateResult wire_WccData r)
    (reply_result procedure r).
Proof.
  destruct r as [[]|s f]; cbn [reply_ok wire_reply reply_result]; [intros (?&?&?)|intros [??]];
    unfold create_like_reply, wire_CreateResult; replies_solve.
Qed.

Definition wire_RenameResult (r : RenameResult) : list byte :=
  wire_WccData (rename_fromdir_wcc r) ++ wire_WccData (rename_todir_wcc r).
Definition RenameResult_ok (r : RenameResult) : Prop :=
  WccData_ok (rename_fromdir_wcc r) ∧ WccData_ok (rename_todir_wcc r).

Lemma rename_reply_spec (r : reply RenameResult RenameResult) :
  reply_ok RenameResult_ok RenameResult_ok r →
  replies rename_reply (wire_reply wire_RenameResult wire_RenameResult r) (reply_result "RENAME" r).
Proof.
  destruct r as [[]|s []]; cbn [reply_ok wire_reply reply_result]; [intros (?&?)|intros [? [??]]];
    unfold rename_reply, wire_RenameResult; replies_solve.
Qed.

Definition wire_LinkResult (r : LinkResult) : list byte :=
  wire_optional wire_FileAttr (link_file_attributes r) ++ wire_WccData (link_linkdir_wcc r).
Definition LinkResult_ok (r : LinkResult) : Prop :=
  option_ok FileAttr_ok (link_file_attributes r) ∧ WccData_ok (link_linkdir_wcc r).

Lemma link_reply_spec (r : reply LinkResult LinkResult) :
  reply_ok LinkResult_ok LinkResult_ok r →
  replies link_reply (wire_reply wire_LinkResult wire_LinkResult r) (reply_result "LINK" r).
Proof.
  destruct r as [[]|s []]; cbn [reply_ok wire_reply reply_result]; [intros (?&?)|intros [? [??]]];
    unfold link_reply, wire_LinkResult; replies_solve.
Qed.

Definition ReadDirResult_ok (plus : bool) (r : ReadDirResult) : Prop :=
  option_ok FileAttr_ok (readdir_directory_attributes r) ∧ verf_ok (readdir_cookieverf r)
  ∧ entries_ok plus (readdir_entries r).
Definition wire_ReadDirResult (plus : bool) (r : ReadDirResult) : list byte :=
  wire_optional wire_FileAttr (readdir_directory_attributes r) ++ wire_fixed (readdir_cookieverf r)
  ++ wire_entries plus (readdir_entries r) ++ wire_bool (readdir_eof r).

(** READDIR and READDIRPLUS. *)
Lemma readdir_reply_spec procedure plus r :
  reply_ok (ReadDirResult_ok plus) (option_ok FileAttr_ok) r →
  replies (readdir_reply procedure plus)
    (wire_reply (wire_ReadDirResult plus) (wire_optional wire_FileAttr) r)
    (reply_result procedure r).
Proof.
  destruct r as [[]|s f]; cbn [reply_ok wire_reply reply_result]; [intros (?&?&?)|intros [??]];
    unfold readdir_reply, wire_ReadDirResult; replies_solve.
Qed.

Record FsStat_ok (r : FsStat) : Prop := mkFsStat_ok {
  fs_attrs_ok : option_ok FileAttr_ok (fsstat_object_attributes r);
  fs_tbytes_ok : is_u64 (total_bytes r);
  fs_fbytes_ok : is_u64 (free_bytes r);
  fs_abytes_ok : is_u64 (available_bytes r);
  fs_tfiles_ok : is_u64 (total_files r);
  fs_ffiles_ok : is_u64 (free_files r);
  fs_afiles_ok : is_u64 (available_files r);
  fs_invarsec_ok : is_u32 (invariant_seconds r);
}.
Definition wire_FsStat (r : FsStat) : list byte :=
  wire_optional wire_FileAttr (fsstat_object_attributes r) ++ wire_u64 (total_bytes r)
  ++ wire_u64 (free_bytes r) ++ wire_u64 (available_bytes r) ++ wire_u64 (total_files r)
  ++ wire_u64 (free_files r) ++ wire_u64 (available_files r) ++ wire_u32 (invariant_seconds r).

Lemma fsstat_reply_spec r :
  reply_ok FsStat_ok (option_ok FileAttr_ok) r →
  replies fsstat_reply (wire_reply wire_FsStat (wire_optional wire_FileAttr) r)
    (reply_result "FSSTAT" r).
Proof.
  destruct r as [[]|s f]; cbn [reply_ok wire_reply reply_result]; [intros []|intros [??]];
    unfold fsstat_reply, wire_FsStat; replies_solve.
Qed.

Record FsInfo_ok (r : FsInfo) : Prop := mkFsInfo_ok {
  fi_attrs_ok : option_ok FileAttr_ok (fsinfo_object_attributes r);
  fi_rtmax_ok : is_u32 (read_max r);
  fi_rtpref_ok : is_u32 (read_preferred r);
  fi_rtmult_ok : is_u32 (read_multiple r);
  fi_wtmax_ok : is_u32 (write_max r);
  fi_wtpref_ok : is_u32 (write_preferred r);
  fi_wtmult_ok : is_u32 (write_multiple r);
  fi_dtpref_ok : is_u32 (dir_preferred r);
  fi_maxfilesize_ok : is_u64 (max_file_size r);
  fi_time_delta_ok : NfsTime_ok (time_delta r);
  fi_properties_ok : is_u32 (properties r);
}.
Definition wire_FsInfo (r : FsInfo) : list byte :=
  wire_optional wire_FileAttr (fsinfo_object_attributes r) ++ wire_u32 (read_max r)
  ++ wire_u32 (read_preferred r) ++ wire_u32 (read_multiple r) ++ wire_u32 (write_max r)
  ++ wire_u32 (write_preferred r) ++ wire_u32 (write_multiple r) ++ wire_u32 (dir_preferred r)
  ++ wire_u64 (max_file_size r) ++ wire_NfsTime (time_delta r) ++ wire_u32 (properties r).

Lemma fsinfo_reply_spec r :
  reply_ok FsInfo_ok (option_ok FileAttr_ok) r →
  replies fsinfo_reply (wire_reply wire_FsInfo (wire_optional wire_FileAttr) r)
    (reply_result "FSINFO" r).
Proof.
  destruct r as [[]|s f]; cbn [reply_ok wire_reply reply_result]; [intros []|intros [??]];
    unfold fsinfo_reply, wire_FsInfo; replies_solve.
Qed.

Definition PathConf_ok (r : PathConf) : Prop :=
  option_ok FileAttr_ok (pathconf_object_attributes r) ∧ is_u32 (link_max r) ∧ is_u32 (name_max r).
Definition wire_PathConf (r : PathConf) : list byte :=
  wire_optional wire_FileAttr (pathconf_object_attributes r) ++ wire_u32 (link_max r)
  ++ wire_u32 (name_max r) ++ wire_bool (no_trunc r) ++ wire_bool (chown_restricted r)
  ++ wire_bool (case_insensitive r) ++ wire_bool (case_preserving r).

Lemma pathconf_reply_spec r :
  reply_ok PathConf_ok (option_ok FileAttr_ok) r →
  replies pathconf_reply (wire_reply wire_PathConf (wire_optional wire_FileAttr) r)
    (reply_result "PATHCONF" r).
Proof.
  destruct r as [[]|s f]; cbn [reply_ok wire_reply reply_result]; [intros (?&?&?)|intros [??]];
    unfold pathconf_reply, wire_PathConf; replies_solve.
Qed.

Definition CommitResult_ok (r : CommitResult) : Prop :=
  WccData_ok (commit_file_wcc r) ∧ verf_ok (commit_verifier r).
Definition wire_CommitResult (r : CommitResult) : list byte :=
  wire_WccData (commit_file_wcc r) ++ wire_fixed (commit_verifier r).

Lemma commit_reply_spec r :
  reply_ok CommitResult_ok WccData_ok r →
  replies commit_reply (wire_reply wire_CommitResult wire_WccData r) (reply_result "COMMIT" r).
Proof.
  destruct r as [[wcc verf]|s f]; cbn [reply_ok wire_reply reply_result]; [intros (?&?)|intros [??]];
    unfold commit_reply, wire_CommitResult.
  - do 2 (eapply replies_bind; [replies_leaf|]; cbv beta). rewrite !bool_decide_true by done.
    replies_solve.
  - eapply replies_bind; [replies_leaf|]; cbv beta.
    eapply replies_bind_last; [replies_leaf|]; cbv beta.
    rewrite !bool_decide_false by (by apply failure_not_ok).
    eapply replies_bind_last; [apply reads_ret|]. replies_solve.
Qed.
