(* ===== verification/V3CallsSpec.v ===== *)
(** * What [Nfs3Client] promises, for every server

    Over every transport and against every peer: no method of [Nfs3Client]
    faults, each ends (the JUKEBOX loop within the retry policy), and the
    results of READ and WRITE satisfy the interface of [V3Calls], whose laws
    are discharged here ([Nfs3Client_laws]). *)

From Stdlib Require Import Strings.String Strings.Byte.
From S2P Require Import Prelude Text Xdr XdrSpec Status Errors Rpc RpcSpec RpcClientSpec V3Proto.
From S2P Require Import V3Wire V3Calls V3Replies.
Import FileHandle (FileHandle).
Import Nfs3Client (Nfs3Client, nfs_rpc, nfs_retry_policy, nfs_slept, mkNfs3Client).

#[local] Open Scope Z_scope.

(** ** Encoders never fault *)

Class EncSafe (m : M Encoder XdrError unit) := enc_safe : ∀ e, fault_free (m e).2.

#[export] Instance enc_safe_ret : EncSafe (mret tt).
Proof. done. Qed.
#[export] Instance enc_safe_throw e : EncSafe (throw e).
Proof. done. Qed.
#[export] Instance enc_safe_extend bs : EncSafe (extend_from_slice bs).
Proof. done. Qed.
#[export] Instance enc_safe_bind {A} (m : M Encoder XdrError A) (k : A → M Encoder XdrError unit) :
  (∀ e, fault_free (m e).2) → (∀ a, EncSafe (k a)) → EncSafe (m ≫= k).
Proof.
  intros Hm Hk e. specialize (Hm e). unfold mbind, M_bind.
  destruct (m e) as [e' [a|x|f]]; [apply Hk|done|by destruct (Hm f)].
Qed.
Lemma enc_safe_seq (m k : M Encoder XdrError unit) : EncSafe m → EncSafe k → EncSafe (m ;; k).
Proof. intros Hm Hk. by apply enc_safe_bind. Qed.
Lemma enc_safe_lift o (k : M Encoder XdrError unit) :
  fault_free o → EncSafe k → EncSafe (lift (A := unit) o ;; k).
Proof. intros Ho Hk. by apply enc_safe_bind. Qed.

#[export] Instance enc_safe_write_len len max : EncSafe (write_len len max).
Proof.
  unfold write_len, checked_u32_len. destruct (len >? max); [done|].
  apply enc_safe_bind; [intros e; by destruct (len <=? u32_max)|done].
Qed.
#[export] Instance enc_safe_write_fixed bs : EncSafe (write_fixed_opaque bs).
Proof. by apply enc_safe_seq. Qed.
#[export] Instance enc_safe_write_opaque bs max : EncSafe (write_opaque bs max).
Proof. apply enc_safe_seq; apply _. Qed.

(** Follow the code of an encoder. *)
Ltac enc_safe_solve :=
  lazymatch goal with
  | |- EncSafe (lift (NfsTime.validate _) ;; _) =>
      apply enc_safe_lift; [apply validate_nseconds_safe|enc_safe_solve]
  | |- EncSafe (_ ;; _) => apply enc_safe_seq; enc_safe_solve
  | |- EncSafe (match _ with _ => _ end) => case_match; enc_safe_solve
  | |- EncSafe (write_u32 _) => apply enc_safe_extend
  | |- EncSafe (write_u64 _) => apply enc_safe_extend
  | |- EncSafe (write_bool _) => apply enc_safe_extend
  | |- EncSafe (write_discriminant _) => apply enc_safe_extend
  | |- EncSafe (write_string _ _) => apply enc_safe_write_opaque
  | |- EncSafe _ => first [done|apply _|idtac]
  end.

#[export] Instance enc_safe_FileHandle fh : EncSafe (FileHandle.encode fh).
Proof. apply enc_safe_write_opaque. Qed.
#[export] Instance enc_safe_FileType t : EncSafe (FileType.encode t).
Proof. done. Qed.
#[export] Instance enc_safe_SpecData s : EncSafe (SpecData.encode s).
Proof. done. Qed.
#[export] Instance enc_safe_NfsTime t : EncSafe (NfsTime.encode t).
Proof. unfold NfsTime.encode. enc_safe_solve. Qed.
#[export] Instance enc_safe_set_time t : EncSafe (encode_set_time t).
Proof. unfold encode_set_time. enc_safe_solve. Qed.
#[export] Instance enc_safe_optional_u32 o : EncSafe (encode_optional_u32 o).
Proof. by destruct o. Qed.
#[export] Instance enc_safe_optional_u64 o : EncSafe (encode_optional_u64 o).
Proof. by destruct o. Qed.
#[export] Instance enc_safe_SetAttr a : EncSafe (SetAttr.encode a).
Proof. unfold SetAttr.encode. enc_safe_solve. Qed.
#[export] Instance enc_safe_StableHow s : EncSafe (StableHow.encode s).
Proof. done. Qed.
#[export] Instance enc_safe_CreateHow h : EncSafe (CreateHow.encode h).
Proof. unfold CreateHow.encode. enc_safe_solve. Qed.
#[export] Instance enc_safe_MknodData d : EncSafe (MknodData.encode d).
Proof. unfold MknodData.encode. enc_safe_solve. Qed.
#[export] Instance enc_safe_Diropargs a : EncSafe (Diropargs_encode a).
Proof. unfold Diropargs_encode. enc_safe_solve. Qed.
#[export] Instance enc_safe_SetattrArgs a : EncSafe (SetattrArgs_encode a).
Proof. unfold SetattrArgs_encode. enc_safe_solve. Qed.
#[export] Instance enc_safe_AccessArgs a : EncSafe (AccessArgs_encode a).
Proof. unfold AccessArgs_encode. enc_safe_solve. Qed.
#[export] Instance enc_safe_ReadArgs a : EncSafe (ReadArgs_encode a).
Proof. unfold ReadArgs_encode. enc_safe_solve. Qed.
#[export] Instance enc_safe_WriteArgs a : EncSafe (WriteArgs_encode a).
Proof. unfold WriteArgs_encode. enc_safe_solve. Qed.
#[export] Instance enc_safe_CreateArgs a : EncSafe (CreateArgs_encode a).
Proof. unfold CreateArgs_encode. enc_safe_solve. Qed.
#[export] Instance enc_safe_MkdirArgs a : EncSafe (MkdirArgs_encode a).
Proof. unfold MkdirArgs_encode. enc_safe_solve. Qed.
#[export] Instance enc_safe_SymlinkArgs a : EncSafe (SymlinkArgs_encode a).
Proof. unfold SymlinkArgs_encode. enc_safe_solve. Qed.
#[export] Instance enc_safe_MknodArgs a : EncSafe (MknodArgs_encode a).
Proof. unfold MknodArgs_encode. enc_safe_solve. Qed.
#[export] Instance enc_safe_RenameArgs a : EncSafe (RenameArgs_encode a).
Proof. unfold RenameArgs_encode. enc_safe_solve. Qed.
#[export] Instance enc_safe_LinkArgs a : EncSafe (LinkArgs_encode a).
Proof. unfold LinkArgs_encode. enc_safe_solve. Qed.
#[export] Instance enc_safe_ReadDirArgs a : EncSafe (ReadDirArgs_encode a).
Proof. unfold ReadDirArgs_encode. enc_safe_solve. Qed.
#[export] Instance enc_safe_ReadDirPlusArgs a : EncSafe (ReadDirPlusArgs_encode a).
Proof. unfold ReadDirPlusArgs_encode. enc_safe_solve. Qed.
#[export] Instance enc_safe_CommitArgs a : EncSafe (CommitArgs_encode a).
Proof. unfold CommitArgs_encode. enc_safe_solve. Qed.

(** ** Reply decoders never fault *)

#[export] Instance dec_safe_finish : DecSafe finish_reply.
Proof.
  apply dec_safe_xdr. intros d Hd. unfold finish.
  destruct (is_finished d); (split; [by apply dec_step_refl|done]).
Qed.
#[export] Instance dec_safe_status : DecSafe decode_status.
Proof. unfold decode_status. apply _. Qed.
#[export] Instance dec_safe_require_ok procedure : DecSafe (require_ok procedure).
Proof. unfold require_ok. apply _. Qed.
#[export] Instance dec_safe_validate_read r c l e : DecSafe (lift (validate_read_result_size r c l e)).
Proof. apply dec_safe_lift. unfold validate_read_result_size. by repeat case_match. Qed.
#[export] Instance dec_safe_validate_write r c : DecSafe (lift (validate_write_result_count r c)).
Proof. apply dec_safe_lift. unfold validate_write_result_count. by repeat case_match. Qed.
#[export] Instance dec_safe_read_opaque_vec max : DecSafe (read_opaque_vec max).
Proof. apply dec_safe_read_opaque. Qed.

#[export] Instance getattr_reply_safe : DecSafe getattr_reply.
Proof. unfold getattr_reply. apply _. Qed.
#[export] Instance wcc_only_reply_safe p : DecSafe (wcc_only_reply p).
Proof. unfold wcc_only_reply. apply _. Qed.
#[export] Instance lookup_reply_safe : DecSafe lookup_reply.
Proof. unfold lookup_reply. apply _. Qed.
#[export] Instance access_reply_safe : DecSafe access_reply.
Proof. unfold access_reply. apply _. Qed.
#[export] Instance readlink_reply_safe : DecSafe readlink_reply.
Proof. unfold readlink_reply. apply _. Qed.
#[export] Instance read_reply_safe n : DecSafe (read_reply n).
Proof. unfold read_reply. apply _. Qed.
#[export] Instance write_reply_safe n : DecSafe (write_reply n).
Proof. unfold write_reply. apply _. Qed.
#[export] Instance create_like_reply_safe p : DecSafe (create_like_reply p).
Proof. unfold create_like_reply. apply _. Qed.
#[export] Instance rename_reply_safe : DecSafe rename_reply.
Proof. unfold rename_reply. apply _. Qed.
#[export] Instance link_reply_safe : DecSafe link_reply.
Proof. unfold link_reply. apply _. Qed.
#[export] Instance readdir_reply_safe p plus : DecSafe (readdir_reply p plus).
Proof. unfold readdir_reply. apply _. Qed.
#[export] Instance fsstat_reply_safe : DecSafe fsstat_reply.
Proof. unfold fsstat_reply. apply _. Qed.
#[export] Instance fsinfo_reply_safe : DecSafe fsinfo_reply.
Proof. unfold fsinfo_reply. apply _. Qed.
#[export] Instance pathconf_reply_safe : DecSafe pathconf_reply.
Proof. unfold pathconf_reply. apply _. Qed.
#[export] Instance commit_reply_safe : DecSafe commit_reply.
Proof. unfold commit_reply. apply _. Qed.

(** ** What accepted READ and WRITE replies satisfy *)

Lemma read_reply_Ok n d d' r :
  read_reply n d = (d', Ok r) → read_ok n r.
Proof.
  unfold read_reply. intros H.
  apply bind_Ok_inv in H as (d1 & status & _ & H).
  apply bind_Ok_inv in H as (d2 & attrs & _ & H).
  destruct (bool_decide _); [|by inv_bind].
  apply bind_Ok_inv in H as (d3 & count & _ & H).
  apply bind_Ok_inv in H as (d4 & eof & _ & H).
  apply bind_Ok_inv in H as (d5 & data & _ & H).
  apply bind_Ok_inv in H as (d6 & [] & _ & H).
  apply bind_Ok_inv in H as (d7 & [] & Hv & H). injection H as <- <-.
  apply (validate_read_ok n (mkReadResult attrs count eof data)). by injection Hv.
Qed.

Lemma write_reply_Ok n d d' r :
  dec_wf d → write_reply n d = (d', Ok r) → write_ok n r.
Proof.
  unfold write_reply. intros Hd H.
  apply bind_Ok_inv in H as (d1 & status & H1 & H).
  assert (dec_wf d1) as Hd1 by exact (proj1 (dec_safe_Ok _ _ _ _ _ Hd H1)).
  apply bind_Ok_inv in H as (d2 & wcc & H2 & H).
  assert (dec_wf d2) as Hd2 by exact (proj1 (dec_safe_Ok _ _ _ _ _ Hd1 H2)).
  destruct (bool_decide _); [|by inv_bind].
  sound_step H as (d3 & count & Hc & Hd3 & _ & _ & H).
  apply bind_Ok_inv in H as (d4 & committed & _ & H).
  apply bind_Ok_inv in H as (d5 & verf & _ & H).
  apply bind_Ok_inv in H as (d6 & [] & _ & H).
  apply bind_Ok_inv in H as (d7 & [] & Hv & H). injection H as <- <-.
  apply validate_write_ok; [apply Hc|]. by injection Hv.
Qed.

(** ** Calls *)

Section nfs3_client.
Context {St : Type} `{!Transport St}.
#[local] Abbreviation Client := (Nfs3Client St).

(** Nothing but the connection and the sleeps changes. *)
Definition nfs_frame (c c' : Client) : Prop :=
  max_record_size (nfs_rpc c') = max_record_size (nfs_rpc c)
  ∧ nfs_retry_policy c' = nfs_retry_policy c.

#[export] Instance nfs_frame_preorder : PreOrder nfs_frame.
Proof. split; [done|]. unfold nfs_frame. intros c1 c2 c3. intuition congruence. Qed.

Lemma nfs_frame_inv c c' : nfs_frame c c' → nfs_inv c → nfs_inv c'.
Proof. cbn. unfold nfs_frame. intros [-> ->]. done. Qed.

Lemma post_rpc_call {A} procedure (enc : A → M Encoder XdrError unit) args c :
  nfs_inv c → EncSafe (enc args) →
  post (Nfs3Client.rpc (Rpc.call NFS_PROGRAM NFS_VERSION procedure enc args)) c
    (λ payload c', nfs_frame c c' ∧ zlen payload ≤ isize_max ∧ nfs_slept c' = nfs_slept c)
    (λ _ c', nfs_frame c c').
Proof.
  intros [Hmax _] Hf.
  pose proof (post_call_any NFS_PROGRAM NFS_VERSION procedure enc args (nfs_rpc c) Hmax Hf) as H.
  unfold post, Nfs3Client.rpc, zoom in *.
  destruct (Rpc.call _ _ _ _ _ _) as [r [payload|e|f]]; [|done|done].
  destruct H as [Hm Hl]. split_and!; [done|lia|done].
Qed.

(** The JUKEBOX loop: at most [max_retries] further calls. *)
Lemma post_nfs_call {A} procedure (enc : A → M Encoder XdrError unit) args c :
  nfs_inv c → EncSafe (enc args) →
  post (Nfs3Client.call procedure enc args) c
    (λ payload c', nfs_frame c c' ∧ zlen payload ≤ isize_max) (λ _ c', nfs_frame c c').
Proof.
  intros Hc Hf. unfold Nfs3Client.call. apply post_bind, post_gets.
  set (max := max_retries (nfs_retry_policy c)).
  assert (0 ≤ max) as Hmax by apply Hc.
  apply (post_loop (λ retry c', nfs_frame c c' ∧ 0 ≤ retry ≤ max) (λ retry _, max - retry)).
  - intros retry c' [_ H]. lia.
  - intros retry c' [Hfr Hr]. unfold Nfs3Client.call_step. apply post_bind.
    eapply post_mono; [apply post_rpc_call; [by eapply nfs_frame_inv|done]|cbv beta|].
    2: { intros e c2 Hfr2. by etrans. }
    intros payload c2 (Hfr2 & Hl & _). assert (nfs_frame c c2) as Hfrc by by etrans.
    apply post_bind, post_gets. destruct (negb _ && _); [|by apply post_ret].
    replace (nfs_retry_policy c2) with (nfs_retry_policy c) by (symmetry; apply Hfrc).
    unfold delay_for_retry. fold max.
    destruct (Z.geb_spec retry max); [by apply post_ret|].
    apply post_bind. unfold post, Nfs3Client.thread_sleep, modify. cbn.
    split; [|lia]. split; [done|lia].
  - split; [done|lia].
  - lia.
Qed.

(** The delays before retries [0 .. n - 1]. *)
Definition delays (p : RetryPolicy) (n : nat) : list Z :=
  (λ i, default 0 (delay_for_retry p (Z.of_nat i))) <$> seq 0 n.

Lemma delays_succ p n d :
  delay_for_retry p (Z.of_nat n) = Some d → delays p (S n) = delays p n ++ [d].
Proof. intros H. unfold delays. rewrite seq_S, fmap_app. cbn. by rewrite H. Qed.

(** The backoff of the JUKEBOX loop: after [k] retries the thread has slept
    through the first [k] delays of the policy, and only the end of the policy
    makes the client return a JUKEBOX answer. *)
Lemma post_nfs_call_backoff {A} procedure (enc : A → M Encoder XdrError unit) args c :
  nfs_inv c → EncSafe (enc args) → procedure ≠ NFSPROC3_NULL →
  post (Nfs3Client.call procedure enc args) c
    (λ payload c', ∃ k, nfs_slept c' = nfs_slept c ++ delays (nfs_retry_policy c) k
       ∧ Z.of_nat k ≤ max_retries (nfs_retry_policy c)
       ∧ (payload_has_status payload NfsStatus.Jukebox = true →
          Z.of_nat k = max_retries (nfs_retry_policy c)))
    (λ _ _, True).
Proof.
  intros Hc Hf Hp. unfold Nfs3Client.call. apply post_bind, post_gets.
  set (policy := nfs_retry_policy c). set (max := max_retries policy).
  assert (0 ≤ max) as Hmax by apply Hc.
  apply (post_loop (λ retry c', nfs_frame c c' ∧ 0 ≤ retry ≤ max
                      ∧ nfs_slept c' = nfs_slept c ++ delays policy (Z.to_nat retry))
                   (λ retry _, max - retry)); [intros; lia| | |lia].
  2: { split_and!; [done|lia..|]. cbn. by rewrite app_nil_r. }
  intros retry c' (Hfr & Hr & Hsl). unfold Nfs3Client.call_step. apply post_bind.
  eapply post_mono; [apply post_rpc_call; [by eapply nfs_frame_inv|done]|cbv beta|done].
  intros payload c2 (Hfr2 & Hl & Hsl2). assert (nfs_frame c c2) as Hfrc by by etrans.
  apply post_bind, post_gets.
  replace (nfs_retry_policy c2) with policy by (symmetry; apply Hfrc).
  destruct (Z.eqb_spec procedure NFSPROC3_NULL); [done|]. cbn [negb andb].
  destruct (payload_has_status payload NfsStatus.Jukebox) eqn:Hj.
  2: { apply post_ret. exists (Z.to_nat retry). rewrite Hsl2, Hj, Hsl. split_and!; [done|lia|done]. }
  destruct (delay_for_retry policy retry) as [d|] eqn:Hd.
  - apply post_bind. unfold post, Nfs3Client.thread_sleep, modify. cbn.
    assert (retry < max).
    { unfold delay_for_retry in Hd. fold max in Hd. destruct (Z.geb_spec retry max); [done|lia]. }
    split; [|lia]. split_and!; [done|lia..|].
    rewrite Hsl2, Hsl, <- app_assoc. f_equal. rewrite <- (delays_succ _ _ d).
    + f_equal. lia.
    + by rewrite Z2Nat.id by lia.
  - apply post_ret. exists (Z.to_nat retry). rewrite Hsl2, Hj, Hsl.
    unfold delay_for_retry in Hd. fold max in Hd. destruct (Z.geb_spec retry max); [|done].
    split_and!; [done|lia|lia].
Qed.

Lemma post_decoding {A} (m : M Decoder Error A) `{!DecSafe m} payload (c : Client) (Q : A → Prop) :
  zlen payload ≤ isize_max →
  (∀ d' a, m (Decoder_new payload) = (d', Ok a) → Q a) →
  post (Nfs3Client.decoding m payload) c (λ a c', Q a ∧ c' = c) (λ _ c', c' = c).
Proof.
  intros Hl HQ. unfold post, Nfs3Client.decoding, lift.
  destruct (dec_safe _ (dec_wf_new _ Hl)) as [_ Hf].
  destruct (m (Decoder_new payload)) as [d' [a|e|f]] eqn:Heq; cbn in *;
    [|done|by destruct (Hf f)]. eauto.
Qed.

(** A method: a call, then the decoding of its payload. *)
Lemma keeps_method {A B} procedure (enc : B → M Encoder XdrError unit) args
    (m : M Decoder Error A) (Q : A → Prop) `{!EncSafe (enc args), !DecSafe m} :
  (∀ d d' a, dec_wf d → m d = (d', Ok a) → Q a) →
  keeps (N := Client)
    (payload ← Nfs3Client.call procedure enc args; Nfs3Client.decoding m payload) Q.
Proof.
  intros HQ c Hc. apply post_bind. eapply post_mono; [by apply post_nfs_call|cbv beta|].
  - intros payload c1 [Hfr Hl].
    eapply post_mono; [apply (post_decoding m payload c1 Q Hl)| |].
    + intros d' a Hm. eapply HQ; [by apply dec_wf_new|done].
    + intros a c2 [Ha ->]. split; [done|by eapply nfs_frame_inv].
    + intros e c2 ->. by eapply nfs_frame_inv.
  - cbv beta. intros e c1 Hfr. by eapply nfs_frame_inv.
Qed.

#[export] Instance Nfs3Client_laws : Nfs3Laws Client.
Proof.
  split; intros; try (apply keeps_method; [apply _|apply _|done]).
  - apply keeps_method; [apply _..|]. intros d d' r _. apply read_reply_Ok.
  - intros c Hc. cbn [nfs_write Nfs3Client_nfs3]. unfold Nfs3Client.write.
    destruct (zlen data >? u32_max); [by apply post_throw|].
    revert c Hc. apply keeps_method; [apply _..|]. intros d d' r Hd. by apply write_reply_Ok.
Qed.

End nfs3_client.
