(* ===== verification/V3Peer.v ===== *)
(** * NFSv3 procedures end to end

    [Nfs3Client] (src/src/v3/proto.rs) over the peer of [RpcPeer]: the bytes a
    method puts on the wire, the bytes the server answers with, and what the
    method returns.  [answered k] is a server that answers JUKEBOX [k] times
    before it gives its final reply; the client then sleeps through the first
    [k] delays of its retry policy and uses [k + 1] transaction ids. *)

From Stdlib Require Import Strings.String Strings.Byte.
From S2P Require Import Prelude Text Xdr XdrSpec Status Errors Rpc RpcSpec RpcClientSpec RpcPeer.
From S2P Require Import V3Proto V3Wire V3Calls V3Replies V3CallsSpec.
Import FileHandle (FileHandle).
Import FileAttr (FileAttr).
Import Nfs3Client (Nfs3Client, nfs_rpc, nfs_retry_policy, nfs_slept, mkNfs3Client).

#[local] Open Scope Z_scope.

Lemma is_u32_nth_xid x n : is_u32 x → (0 < n)%nat → is_u32 (nth_xid x n).
Proof.
  intros Hx Hn. rewrite nth_xid_closed by done.
  pose proof (Z.mod_pos_bound (x + Z.of_nat n - 1) u32_max). unfold is_u32, u32_max in *. lia.
Qed.

Lemma nth_xid_shift x n : nth_xid (succ_xid x) n = nth_xid x (S n).
Proof. induction n as [|n IH]; [done|]. cbn [nth_xid] in *. by rewrite IH. Qed.

Lemma zlen_wire_auth a : zlen (wire_auth a) ≤ 356.
Proof.
  destruct a as [|a]; cbn [wire_auth]; autorewrite with zlen.
  - pose proof (padding_len_range (zlen (@nil byte))). autorewrite with zlen in *. lia.
  - pose proof (padding_len_range (zlen (wire_auth_sys a))). pose proof (zlen_wire_auth_sys a). lia.
Qed.

(** The header of a call is small. *)
Lemma zlen_wire_call x program version procedure auth args :
  zlen (wire_call x program version procedure auth args) ≤ 736 + zlen args.
Proof.
  unfold wire_call. autorewrite with zlen.
  pose proof (zlen_wire_auth auth). pose proof (zlen_wire_auth Auth_None). lia.
Qed.

(** The successful reply to transaction [x], with the empty verifier. *)
Definition accepted (x : Z) (payload : list byte) : list byte :=
  wire_accepted x AUTH_NONE [] [] payload.

Lemma zlen_accepted x payload : zlen (accepted x payload) = 24 + zlen payload.
Proof. unfold accepted, wire_accepted. autorewrite with zlen. lia. Qed.

(** The status a reply starts with. *)
Definition reply_status {R F} (r : reply R F) : NfsStatus.NfsStatus :=
  match r with Success _ => NfsStatus.Ok | Failure s _ => s end.

(** [payload_has_status] sees the status of the reply. *)
Lemma payload_has_status_reply {R F} wireR wireF (okR : R → Prop) (okF : F → Prop) (r : reply R F) s :
  reply_ok okR okF r →
  payload_has_status (wire_reply wireR wireF r) s = bool_decide (reply_status r = s).
Proof.
  intros Hr. assert (∃ rest, wire_reply wireR wireF r = wire_u32 (NfsStatus.as_u32 (reply_status r)) ++ rest
    ∧ is_u32 (NfsStatus.as_u32 (reply_status r))
    ∧ NfsStatus.from_u32 (NfsStatus.as_u32 (reply_status r)) = reply_status r) as (rest & -> & Hu & Hs).
  { destruct r as [r|st f]; cbn; eexists; split; [done| |done|]; [by vm_compute|].
    destruct Hr as [(_ & ? & ?) _]. done. }
  unfold payload_has_status. autorewrite with zlen. pose proof (zlen_nonneg rest).
  destruct (Z.leb_spec 4 (4 + zlen rest)); [|lia].
  rewrite ztake_app_eq by apply zlen_wire_u32. unfold wire_u32.
  rewrite be_Z_be_bytes, Z.mod_small by (int_unfold; lia). by rewrite Hs.
Qed.

Section served.
Context {Srv : Type} `{!Server Srv}.
#[local] Abbreviation Client := (Nfs3Client (Peer Srv)).

(** In state [srv] the server answers a call of [procedure] with these encoded
    arguments by [payload], in whatever fragments, and goes to [srv']. *)
Definition answers (limit : Z) (auth : Auth) (procedure : Z) (args : list byte) (srv : Srv)
    (payload : list byte) (srv' : Srv) : Prop :=
  zlen payload ≤ limit ∧
  ∀ x, is_u32 x → ∃ init last,
    fragments_ok init last ∧ mjoin init ++ last = accepted x payload
    ∧ serve srv (wire_call x NFS_PROGRAM NFS_VERSION procedure auth args)
      = (srv', wire_record init last).

(** [k] JUKEBOX answers, then [payload]. *)
Inductive answered limit auth procedure args : nat → Srv → list byte → Srv → Prop :=
  | answered_now srv payload srv' :
      answers limit auth procedure args srv payload srv' →
      answered limit auth procedure args 0 srv payload srv'
  | answered_later k srv busy srv1 payload srv' :
      answers limit auth procedure args srv busy srv1 →
      payload_has_status busy NfsStatus.Jukebox = true →
      answered limit auth procedure args k srv1 payload srv' →
      answered limit auth procedure args (S k) srv payload srv'.

(** A connection in step, with nothing in flight. *)
Record ready (c : Client) : Prop := mk_ready {
  ready_step : interrupted (nfs_rpc c) = false;
  ready_quiet : quiet (nfs_rpc c);
  ready_xid : is_u32 (xid (nfs_rpc c));
  ready_limit : 1024 ≤ max_record_size (nfs_rpc c) ≤ FRAGMENT_LEN_MASK;
  ready_policy : is_u32 (max_retries (nfs_retry_policy c));
}.

(** The longest result the client takes. *)
Definition payload_limit (c : Client) : Z := max_record_size (nfs_rpc c) - 24.

(** [c] after [n] calls that left the server in [srv] and slept [slept]. *)
Definition after_calls (n : nat) (srv : Srv) (slept : list Z) (c : Client) : Client :=
  mkNfs3Client (after_call (nth_xid (xid (nfs_rpc c)) n) srv false (nfs_rpc c))
    (nfs_retry_policy c) (nfs_slept c ++ slept).

Lemma after_calls_ready n srv slept c : (0 < n)%nat → ready c → ready (after_calls n srv slept c).
Proof.
  intros Hn [H1 H2 H3 H4 H5]. split; cbn; [done|done| |done|done]. by apply is_u32_nth_xid.
Qed.

(** One RPC call against a server that answers. *)
Lemma rpc_call_served {A} procedure (enc : A → M Encoder XdrError unit) wire ok args c payload srv' :
  EncodesTo enc wire ok → ok args → zlen (wire args) ≤ MAX_IO_BYTES + 4096 → ready c →
  answers (payload_limit c) (rpc_auth (nfs_rpc c)) procedure (wire args)
    (peer_server (stream (nfs_rpc c))) payload srv' →
  Nfs3Client.rpc (Rpc.call NFS_PROGRAM NFS_VERSION procedure enc args) c
  = (after_calls 1 srv' [] c, Ok payload).
Proof.
  intros He Ha Hlen [H1 H2 H3 H4 H5] [Hpl Hans]. set (x := succ_xid (xid (nfs_rpc c))).
  assert (is_u32 x) as Hx by (apply (is_u32_nth_xid _ 1); [done|lia]).
  pose proof (zlen_accepted x payload) as Hacc. unfold payload_limit in Hpl.
  destruct (Hans x Hx) as (init & last & Hfr & Hjoin & Hserve).
  unfold Nfs3Client.rpc, zoom.
  erewrite (call_served _ _ _ enc wire ok args _ srv' init last He Ha H1 H2); [|..|exact Hfr|exact Hserve].
  - rewrite Hjoin. fold x. unfold accepted at 1.
    rewrite decode_reply_accepted; [|done|done|done|done|].
    + unfold after_calls, Nfs3Client.with_rpc. cbn [nth_xid]. by rewrite app_nil_r.
    + fold (accepted x payload). unfold FRAGMENT_LEN_MASK in *. int_unfold. lia.
  - rewrite Hjoin. unfold FRAGMENT_LEN_MASK in *. int_unfold. lia.
  - pose proof (zlen_wire_call x NFS_PROGRAM NFS_VERSION procedure (rpc_auth (nfs_rpc c)) (wire args)).
    unfold MAX_IO_BYTES, FRAGMENT_LEN_MASK in *. fold x. lia.
Qed.

(** One turn of the JUKEBOX loop. *)
Lemma call_step_served {A} procedure (enc : A → M Encoder XdrError unit) wire ok args c payload srv' retry :
  EncodesTo enc wire ok → ok args → zlen (wire args) ≤ MAX_IO_BYTES + 4096 → ready c →
  procedure ≠ NFSPROC3_NULL →
  answers (payload_limit c) (rpc_auth (nfs_rpc c)) procedure (wire args)
    (peer_server (stream (nfs_rpc c))) payload srv' →
  Nfs3Client.call_step procedure enc args retry c =
  if payload_has_status payload NfsStatus.Jukebox then
    match delay_for_retry (nfs_retry_policy c) retry with
    | Some delay => (after_calls 1 srv' [delay] c, Ok (inl (retry + 1)))
    | None => (after_calls 1 srv' [] c, Ok (inr payload))
    end
  else (after_calls 1 srv' [] c, Ok (inr payload)).
Proof.
  intros He Ha Hlen Hr Hp Hans. unfold Nfs3Client.call_step.
  rewrite (bind_run _ _ _ _ _ (rpc_call_served _ _ _ _ _ _ _ _ He Ha Hlen Hr Hans)).
  rewrite (bind_run _ _ _ (after_calls 1 srv' [] c) (nfs_retry_policy c)) by done.
  destruct (Z.eqb_spec procedure NFSPROC3_NULL); [done|]. cbn [negb andb].
  destruct (payload_has_status payload NfsStatus.Jukebox); [|done].
  destruct (delay_for_retry (nfs_retry_policy c) retry); [|done].
  unfold Nfs3Client.thread_sleep, modify, mbind, M_bind, continue_, mret, M_ret.
  unfold after_calls. cbn. by rewrite app_nil_r.
Qed.

(** The delays before retries [r .. r + k - 1]. *)
Definition delays_from (p : RetryPolicy) (r : nat) (k : nat) : list Z :=
  (λ i, default 0 (delay_for_retry p (Z.of_nat i))) <$> seq r k.

Lemma after_calls_compose n srv1 s1 srv2 s2 c :
  after_calls n srv2 s2 (after_calls 1 srv1 s1 c) = after_calls (S n) srv2 (s1 ++ s2) c.
Proof.
  unfold after_calls, after_call. cbn [nfs_rpc xid nfs_retry_policy nfs_slept rpc_auth max_record_size].
  change (nth_xid (xid (nfs_rpc c)) 1) with (succ_xid (xid (nfs_rpc c))).
  by rewrite nth_xid_shift, app_assoc.
Qed.

Lemma call_loop_served {A} procedure (enc : A → M Encoder XdrError unit) wire ok args
    limit auth k srv payload srv' :
  EncodesTo enc wire ok → ok args → zlen (wire args) ≤ MAX_IO_BYTES + 4096 →
  procedure ≠ NFSPROC3_NULL → answered limit auth procedure (wire args) k srv payload srv' →
  ∀ c r fuel (max := max_retries (nfs_retry_policy c)),
  ready c → payload_limit c = limit → rpc_auth (nfs_rpc c) = auth →
  peer_server (stream (nfs_rpc c)) = srv →
  Z.of_nat (r + k) ≤ max →
  payload_has_status payload NfsStatus.Jukebox = false ∨ Z.of_nat (r + k) = max →
  Z.of_nat k < Zpos fuel →
  loop fuel (Nfs3Client.call_step procedure enc args) (Z.of_nat r) c
  = (after_calls (S k) srv' (delays_from (nfs_retry_policy c) r k) c, Ok payload).
Proof.
  intros He Ha Hlen Hp Hans.
  induction Hans as [srv payload srv' Hans|k srv busy srv1 payload srv' Hans Hbusy Hrest IH];
    intros c r fuel max Hr Hl Hau Hsrv Hk Hend Hfuel; subst limit auth srv;
    pose proof (call_step_served _ _ _ _ _ _ _ _ (Z.of_nat r) He Ha Hlen Hr Hp Hans) as Hstep.
  - apply loop_break. rewrite Hstep. destruct Hend as [->|Hend]; [done|].
    assert (delay_for_retry (nfs_retry_policy c) (Z.of_nat r) = None) as ->.
    { unfold delay_for_retry. fold max. destruct (Z.geb_spec (Z.of_nat r) max); [done|lia]. }
    by destruct (payload_has_status _ _).
  - rewrite Hbusy in Hstep.
    destruct (delay_for_retry (nfs_retry_policy c) (Z.of_nat r)) as [d|] eqn:Hd.
    2: { unfold delay_for_retry in Hd. fold max in Hd.
         destruct (Z.geb_spec (Z.of_nat r) max); [lia|done]. }
    rewrite (loop_continue _ _ _ _ _ _ Hstep) by lia.
    replace (Z.of_nat r + 1) with (Z.of_nat (S r)) by lia.
    rewrite IH; [|by apply after_calls_ready; [lia|]|done|done|done| | |lia].
    + rewrite after_calls_compose. cbn [after_calls nfs_retry_policy delays_from seq fmap list_fmap].
      by rewrite Hd.
    + cbn [after_calls nfs_retry_policy]. fold max. lia.
    + cbn [after_calls nfs_retry_policy]. fold max.
      destruct Hend; [by left|right; lia].
Qed.

Lemma answered_limit limit auth procedure args k srv payload srv' :
  answered limit auth procedure args k srv payload srv' → zlen payload ≤ limit.
Proof. induction 1 as [??? H|]; [apply H|done]. Qed.

(** A procedure call that is answered after [k] JUKEBOX replies, or that gives
    up when the policy ends. *)
Lemma nfs_call_served {A} procedure (enc : A → M Encoder XdrError unit) wire ok args
    c k payload srv' (max := max_retries (nfs_retry_policy c)) :
  EncodesTo enc wire ok → ok args → zlen (wire args) ≤ MAX_IO_BYTES + 4096 →
  procedure ≠ NFSPROC3_NULL → ready c →
  answered (payload_limit c) (rpc_auth (nfs_rpc c)) procedure (wire args) k
    (peer_server (stream (nfs_rpc c))) payload srv' →
  Z.of_nat k ≤ max →
  payload_has_status payload NfsStatus.Jukebox = false ∨ Z.of_nat k = max →
  Nfs3Client.call procedure enc args c
  = (after_calls (S k) srv' (delays (nfs_retry_policy c) k) c, Ok payload).
Proof.
  intros He Ha Hlen Hp Hr Hans Hk Hend. unfold Nfs3Client.call.
  rewrite (bind_run _ _ _ c (nfs_retry_policy c)) by done.
  apply (call_loop_served procedure enc wire ok args _ _ k _ payload srv' He Ha Hlen Hp Hans c 0);
    [done..|fold max; lia].
Qed.

(** A whole method: the decoded reply, after [k] retries. *)
Lemma method_served {A B} procedure (enc : A → M Encoder XdrError unit) wire ok args
    (m : M Decoder Error B) c k payload o srv' (max := max_retries (nfs_retry_policy c)) :
  EncodesTo enc wire ok → ok args → zlen (wire args) ≤ MAX_IO_BYTES + 4096 →
  procedure ≠ NFSPROC3_NULL → ready c →
  answered (payload_limit c) (rpc_auth (nfs_rpc c)) procedure (wire args) k
    (peer_server (stream (nfs_rpc c))) payload srv' →
  Z.of_nat k ≤ max →
  payload_has_status payload NfsStatus.Jukebox = false ∨ Z.of_nat k = max →
  replies m payload o →
  (payload ← Nfs3Client.call procedure enc args; Nfs3Client.decoding m payload) c
  = (after_calls (S k) srv' (delays (nfs_retry_policy c) k) c, o).
Proof.
  intros He Ha Hlen Hp Hr Hans Hk Hend Hm.
  assert (zlen payload ≤ isize_max) as Hpl.
  { pose proof (answered_limit _ _ _ _ _ _ _ _ Hans) as H. pose proof (ready_limit _ Hr).
    unfold payload_limit, FRAGMENT_LEN_MASK in *. int_unfold. lia. }
  rewrite (bind_run _ _ _ _ _ (nfs_call_served _ _ _ _ _ _ _ _ _ He Ha Hlen Hp Hr Hans Hk Hend)).
  unfold Nfs3Client.decoding, lift. by rewrite (replies_whole m payload o Hm Hpl).
Qed.

(** The same for a reply in the sense of [V3Replies]: the client returns what
    the server said. *)
Lemma reply_served {A R F} procedure name (enc : A → M Encoder XdrError unit) wire ok args
    (m : M Decoder Error R) wireR wireF okR okF (r : reply R F) c k srv'
    (max := max_retries (nfs_retry_policy c)) :
  EncodesTo enc wire ok → ok args → zlen (wire args) ≤ MAX_IO_BYTES + 4096 →
  procedure ≠ NFSPROC3_NULL → ready c → reply_ok okR okF r →
  replies m (wire_reply wireR wireF r) (reply_result name r) →
  answered (payload_limit c) (rpc_auth (nfs_rpc c)) procedure (wire args) k
    (peer_server (stream (nfs_rpc c))) (wire_reply wireR wireF r) srv' →
  Z.of_nat k ≤ max →
  reply_status r ≠ NfsStatus.Jukebox ∨ Z.of_nat k = max →
  (payload ← Nfs3Client.call procedure enc args; Nfs3Client.decoding m payload) c
  = (after_calls (S k) srv' (delays (nfs_retry_policy c) k) c, reply_result name r).
Proof.
  intros He Ha Hlen Hp Hr Hok Hm Hans Hk Hend.
  apply (method_served procedure enc wire ok args m c k (wire_reply wireR wireF r));
    [done..| |done].
  rewrite (payload_has_status_reply _ _ _ _ _ _ Hok). destruct Hend; [left|by right].
  by apply bool_decide_eq_false.
Qed.

End served.

(** ** A server with prepared answers *)

(** The payloads to answer with, in order; each reply is cut into two
    fragments. *)
Definition Canned : Type := list (list byte).

#[export] Instance canned_server : Server Canned := λ srv request,
  match srv with
  | [] => ([], [])
  | payload :: srv' =>
      let reply := accepted (be_Z (ztake 4 request)) payload in
      (srv', wire_record [ztake 9 reply] (zdrop 9 reply))
  end.

Lemma canned_answers limit auth procedure args payload (srv : Canned) :
  zlen payload ≤ limit → limit ≤ FRAGMENT_LEN_MASK - 24 →
  answers (Srv := Canned) limit auth procedure args (payload :: srv) payload srv.
Proof.
  intros Hl Hm. split; [done|]. intros x Hx. pose proof (zlen_accepted x payload) as Ha.
  pose proof (zlen_nonneg payload).
  exists [ztake 9 (accepted x payload)], (zdrop 9 (accepted x payload)). split_and!.
  - split; [constructor; [|constructor]|]; rewrite ?zlen_take, ?zlen_drop by lia;
      unfold FRAGMENT_LEN_MASK in *; lia.
  - cbn. rewrite app_nil_r. apply ztake_zdrop.
  - unfold serve, canned_server. unfold wire_call. rewrite ztake_app_eq by apply zlen_wire_u32.
    replace (be_Z (wire_u32 x)) with x; [done|]. unfold wire_u32.
    rewrite be_Z_be_bytes, Z.mod_small by (int_unfold; lia). done.
Qed.
