(* ===== verification/V3Client.v ===== *)
(** * Paths, targets and limits of the NFSv3 client (src/src/v3/client.rs)

    The pure helpers of the path-oriented client.  [temporary_name] reads the
    process id, the clock and a global counter: its state is [TempEnv]. *)

From Stdlib Require Import Strings.String Strings.Byte.
From S2P Require Import Prelude Text Xdr Status Errors Rpc V3Proto.
Import FileHandle (FileHandle).
Import FileAttr (FileAttr).

#[local] Open Scope Z_scope.

Definition slash : byte := "/"%byte.
Definition dot : byte := "."%byte.
Definition colon : byte := ":"%byte.
Definition dash : byte := "-"%byte.

(** ** Targets *)

Record RemoteTarget := mkRemoteTarget { host : str; export : str }.

#[export] Instance RemoteTarget_eq_dec : EqDecision RemoteTarget.
Proof. solve_decision. Defined.

Definition starts_with_slash (s : str) : bool :=
  match strip_prefix slash s with Some _ => true | None => false end.

Definition is_empty {A} (l : list A) : bool := match l with [] => true | _ => false end.

Definition validate_remote_target (target : RemoteTarget) : outcome Error unit :=
  if trim_is_empty (host target) || is_empty (export target)
     || negb (starts_with_slash (export target))
  then Err (InvalidTarget [PStr (host target); PLit ":"; PStr (export target)])
  else Ok tt.

Definition validate_host (host : str) : outcome Error unit :=
  if trim_is_empty host then Err (InvalidTarget [PStr host]) else Ok tt.

Definition validate_port (name : string) (port : Z) : outcome Error unit :=
  if port =? 0 then Err (Protocol [PLit name; PLit " must be non-zero"]) else Ok tt.

(** [opt.ok_or_else(|| err)]. *)
Definition ok_or {A} (err : Error) (o : option A) : outcome Error A :=
  match o with Some a => Ok a | None => Err err end.

Definition RemoteTarget_parse (target : str) : outcome Error RemoteTarget :=
  '(host, export) ←
    match strip_prefix "["%byte target with
    | Some rest =>
        '(host, rest) ← ok_or (InvalidTarget [PStr target]) (split_once "]"%byte rest);
        export ← ok_or (InvalidTarget [PStr target]) (strip_prefix colon rest);
        Ok (host, export)
    | None => ok_or (InvalidTarget [PStr target]) (split_once colon target)
    end;
  let parsed := mkRemoteTarget host export in
  outcome_map_err (λ _, InvalidTarget [PStr target]) (validate_remote_target parsed) ;;
  Ok parsed.

(** ** Offsets *)

(** [advance_offset(&mut offset, amount, operation)?]: the new offset. *)
Definition advance_offset (offset amount : Z) (operation : string) : outcome Error Z :=
  if amount >? u64_max then Err (LengthOutOfRange amount) else
  ok_or (Protocol [PLit operation; PLit " offset overflow"]) (checked_add u64_max offset amount).

(** ** Paths *)

(** The loop over [path.split('/')]. *)
Fixpoint normalize_components (path : str) (components : list str) : outcome Error (list str) :=
  match components with
  | [] => Ok []
  | component :: rest =>
      if bool_decide (component = []) || bool_decide (component = [dot])
      then normalize_components path rest
      else if bool_decide (component = [dot; dot])
      then Err (InvalidPath path)
      else if zlen component >? MAX_NAME_BYTES
      then Err (NameTooLong component MAX_NAME_BYTES)
      else
        components ← normalize_components path rest;
        Ok (component :: components)
  end.

Definition normalize_path (path : str) : outcome Error (list str) :=
  if is_empty path then Err (InvalidPath path)
  else normalize_components path (split_on slash path).

Definition join_path (parent name : str) : str :=
  if bool_decide (parent = [slash]) then slash :: name
  else if is_empty parent then name
  else trim_end_matches slash parent ++ slash :: name.

(** What [temporary_name] reads: the process id, the clock (as a function of
    the value drawn from the counter) and the static counter. *)
Record TempEnv := mkTempEnv {
  env_pid : Z;
  env_nanos : Z → Z;
  env_counter : Z;
}.

Definition temporary_name : M TempEnv Error str := λ env,
  let counter := env_counter env in
  (mkTempEnv (env_pid env) (env_nanos env) ((counter + 1) mod 2 ^ 64),
   Ok (lit_bytes ".nfs-rs-tmp-" ++ decimal (env_pid env) ++ dash :: decimal (env_nanos env counter)
       ++ dash :: decimal counter)).

(** [components.pop()]: all but the last component, and the last. *)
Definition pop {A} (l : list A) : option (list A * A) :=
  match list.last l with
  | Some x => Some (take (length l - 1) l, x)
  | None => None
  end.

Definition temporary_sibling_path (path : str) : M TempEnv Error str :=
  components ← lift (normalize_path path);
  '(components, _) ← lift (ok_or (InvalidPath path) (pop components));
  let parent := fold_left join_path components [slash] in
  name ← temporary_name;
  mret (join_path parent name).

(** ** Directory pages *)

Record DirEntry := mkDirEntry {
  dir_name : str;
  dir_fileid : Z;
  dir_attributes : option FileAttr;
}.

Record DirPageCursor := mkDirPageCursor { cursor_cookie : Z; cursor_cookieverf : list byte }.

(** [DirPageCursor::default()]. *)
Definition DirPageCursor_default : DirPageCursor :=
  mkDirPageCursor 0 (replicate (Z.to_nat NFS3_COOKIEVERFSIZE) x00).

Record DirPage := mkDirPage { page_entries : list DirEntry; page_next_cursor : option DirPageCursor }.

Definition is_eof (self : DirPage) : bool :=
  match page_next_cursor self with Some _ => false | None => true end.

Definition to_dir_entry (entry : DirectoryEntry) : DirEntry :=
  mkDirEntry (entry_name entry) (entry_fileid entry) (entry_attributes entry).

(** [append_dir_entries(&mut out, batch, max)?]: the new [out]. *)
Definition append_dir_entries (out : list DirEntry) (batch : ReadDirResult) (max_dir_entries : Z)
    : outcome Error (list DirEntry) :=
  if saturating_add usize_max (zlen out) (zlen (readdir_entries batch)) >? max_dir_entries
  then Err (Protocol [PLit "READDIR exceeded configured limit of "; PNum max_dir_entries;
                      PLit " entries"])
  else Ok (out ++ (to_dir_entry <$> readdir_entries batch)).

Definition next_dir_cursor (batch : ReadDirResult) (previous_cookie : Z)
    : outcome Error (option DirPageCursor) :=
  if readdir_eof batch then Ok None else
  last ← ok_or (Protocol [PLit "READDIR returned no entries before EOF"])
           (list.last (readdir_entries batch));
  if entry_cookie last =? previous_cookie
  then Err (Protocol [PLit "READDIR did not advance directory cookie "; PNum previous_cookie])
  else Ok (Some (mkDirPageCursor (entry_cookie last) (readdir_cookieverf batch))).

Definition dir_page_from_batch (batch : ReadDirResult) (previous_cookie max_entries : Z)
    : outcome Error DirPage :=
  entries ← append_dir_entries [] batch max_entries;
  next_cursor ← next_dir_cursor batch previous_cookie;
  Ok (mkDirPage entries next_cursor).

(** ** Limits *)

Definition validate_transfer_size (name : string) (size : Z) : outcome Error Z :=
  if (size =? 0) || (size >? MAX_IO_BYTES)
  then Err (Protocol [PLit name; PLit " must be in 1..="; PNum MAX_IO_BYTES; PLit " bytes"])
  else Ok size.

Definition validate_max_dir_entries (max_dir_entries : Z) : outcome Error unit :=
  if max_dir_entries =? 0
  then Err (Protocol [PLit "max_dir_entries must be greater than zero"])
  else Ok tt.

(** [v.clamp(lo, hi)], which panics unless [lo <= hi]. *)
Definition clamp (v lo hi : Z) : outcome Error Z :=
  if lo >? hi then Fault Panic
  else Ok (if v <? lo then lo else if v >? hi then hi else v).

Definition clamp_io_size (preferred max limit : Z) : outcome Error Z :=
  let size := if preferred =? 0 then max else preferred in
  let size := if max =? 0 then size else Z.min size max in
  clamp size 1 limit.

Definition clamp_dir_size (preferred limit : Z) : outcome Error Z :=
  if preferred =? 0 then Ok limit else clamp preferred 1 limit.

Definition ensure_distinct_copy_handles (source target : FileHandle) : outcome Error unit :=
  if bool_decide (source = target)
  then Err (Protocol [PLit "copy source and destination refer to the same file handle"])
  else Ok tt.

(** The error to report for [error] once its cleanup ended in [cleanup_result]. *)
Definition cleanup_error (error : Error) (cleanup_context : string) (cleanup_result : unit + Error)
    : Error :=
  match cleanup_result with
  | inl _ => error
  | inr cleanup_error => Cleanup cleanup_context error cleanup_error
  end.
