(* ===== verification/V3ClientSpec.v ===== *)
(** * Properties of paths, targets, pages and limits (src/src/v3/client.rs)

    Path normalisation against its specification ([components]), its
    interaction with [join_path], the temporary names of atomic writes, the
    grammar of targets, and the bounds the validated and clamped limits keep. *)

From Stdlib Require Import Strings.String Strings.Byte.
From stdpp Require Import sets.
From S2P Require Import Prelude Text Xdr Status Errors Rpc V3Proto V3Client.

#[local] Open Scope Z_scope.

(** ** Paths *)

(** A component that names something: not empty and not ["."]. *)
Definition significant (c : str) : Prop := c ≠ [] ∧ c ≠ [dot].

#[export] Instance significant_dec c : Decision (significant c).
Proof. unfold significant. apply _. Defined.

(** The significant components of a path, in order. *)
Definition components (path : str) : list str := filter significant (split_on slash path).

(** A component the server may be asked about. *)
Definition allowed (c : str) : Prop := c ≠ [dot; dot] ∧ zlen c ≤ MAX_NAME_BYTES.

(** A name of a directory entry as the client accepts it. *)
Definition clean (c : str) : Prop := significant c ∧ allowed c ∧ slash ∉ c.

Lemma normalize_components_spec path cs l :
  normalize_components path cs = Ok l ↔
  l = filter significant cs ∧ Forall allowed (filter significant cs).
Proof.
  revert l; induction cs as [|c cs IH]; intros l; cbn [normalize_components].
  { rewrite filter_nil. split; [by intros [= <-]|by intros [-> _]]. }
  destruct (decide (significant c)) as [[Hne Hdot]|Hs].
  - rewrite filter_cons_True by done.
    rewrite (bool_decide_false (c = [])), (bool_decide_false (c = [dot])) by done. cbn [orb].
    destruct (decide (c = [dot; dot])) as [->|Hdd].
    { rewrite bool_decide_true by done. split; [done|].
      intros [_ Hf]. inversion_clear Hf as [|?? [? _]]. done. }
    rewrite bool_decide_false by done. destruct (Z.gtb_spec (zlen c) MAX_NAME_BYTES).
    { split; [done|]. intros [_ Hf]. inversion_clear Hf as [|?? [_ ?]]. lia. }
    destruct (normalize_components path cs) as [l'|e|f]; cbn.
    + destruct (IH l') as [IH1 _]. destruct (IH1 eq_refl) as [-> Hf].
      split; [intros [= <-]|intros [-> _]; done].
      split; [done|]. constructor; [by split|done].
    + split; [done|]. intros [_ Hf]. inversion_clear Hf.
      destruct (IH (filter significant cs)) as [_ IH2]. by discriminate IH2.
    + split; [done|]. intros [_ Hf]. inversion_clear Hf.
      destruct (IH (filter significant cs)) as [_ IH2]. by discriminate IH2.
  - rewrite filter_cons_False by done. rewrite <- IH.
    destruct (decide (c = [])) as [->|Hn]; [done|].
    destruct (decide (c = [dot])) as [->|Hd]; [by rewrite bool_decide_false|].
    by destruct Hs.
Qed.

Lemma normalize_path_Ok path l :
  normalize_path path = Ok l ↔
  path ≠ [] ∧ l = components path ∧ Forall allowed (components path).
Proof.
  unfold normalize_path, components. destruct path as [|b path]; cbn [is_empty].
  - split; [done|]. by intros [? _].
  - rewrite normalize_components_spec. naive_solver.
Qed.

(** What is returned are clean names. *)
Lemma components_clean path : Forall allowed (components path) → Forall clean (components path).
Proof.
  unfold components. pose proof (split_on_no_sep slash path) as Hns. intros Ha.
  induction Hns as [|w ws Hw _ IH]; [done|]. rewrite filter_cons in Ha |- *.
  case_decide; [|by apply IH]. inversion_clear Ha. constructor; [by split_and!|by apply IH].
Qed.

Lemma normalize_path_fault_free path : fault_free (normalize_path path).
Proof.
  unfold normalize_path. destruct (is_empty path); [done|].
  induction (split_on slash path) as [|c cs IH]; cbn [normalize_components]; [done|].
  destruct (_ || _); [done|]. destruct (bool_decide _); [done|]. destruct (_ >? _); [done|].
  by destruct (normalize_components path cs).
Qed.

Lemma filter_replicate_nil n : filter significant (replicate n []) = [].
Proof.
  induction n as [|n IH]; [done|]. cbn [replicate]. rewrite filter_cons_False; [done|].
  by intros [? _].
Qed.

(** Joining appends components, whatever slashes the parent ends in. *)
Lemma components_join parent name :
  parent ≠ [] → components (join_path parent name) = components parent ++ components name.
Proof.
  intros Hp. unfold join_path. case_bool_decide as Hs; [by subst|].
  destruct parent as [|b parent]; [done|]. cbn [is_empty]. set (p := b :: parent) in *.
  unfold components. rewrite split_on_app_any, list.filter_app. f_equal.
  destruct (trim_end_matches_spec slash p) as [n Hn]. rewrite Hn at 2.
  by rewrite split_on_trailing, list.filter_app, filter_replicate_nil, app_nil_r.
Qed.

Lemma join_path_nonempty parent name : parent ≠ [] → join_path parent name ≠ [].
Proof.
  intros Hp. unfold join_path. case_bool_decide; [done|]. destruct parent; [done|].
  cbn [is_empty]. by destruct (trim_end_matches _ _).
Qed.

Lemma components_clean_name name : clean name → components name = [name].
Proof.
  intros (Hs & _ & Hn). unfold components. rewrite split_on_plain by done.
  by rewrite filter_cons_True.
Qed.

Lemma normalize_path_join parent name cs :
  normalize_path parent = Ok cs → clean name →
  normalize_path (join_path parent name) = Ok (cs ++ [name]).
Proof.
  intros (Hne & -> & Ha)%normalize_path_Ok Hn. apply normalize_path_Ok.
  rewrite components_join, (components_clean_name name) by done.
  split_and!; [by apply join_path_nonempty|done|].
  apply Forall_app. split; [done|]. constructor; [apply Hn|done].
Qed.

(** Printing components as an absolute path and normalising it gives them back. *)
Lemma normalize_join_all cs parent pcs :
  normalize_path parent = Ok pcs → Forall clean cs →
  normalize_path (fold_left join_path cs parent) = Ok (pcs ++ cs).
Proof.
  intros Hp Hcs. revert parent pcs Hp.
  induction Hcs as [|c cs Hc _ IH]; intros parent pcs Hp; cbn [fold_left].
  - by rewrite app_nil_r.
  - rewrite (IH _ (pcs ++ [c])) by (by apply normalize_path_join). by rewrite <- app_assoc.
Qed.

(** ** Popping *)

Lemma pop_Some {A} (l l' : list A) x : pop l = Some (l', x) ↔ l = l' ++ [x].
Proof.
  unfold pop. split.
  - destruct l as [|y l _] using rev_ind; [done|]. rewrite last_snoc, length_app.
    cbn [length]. rewrite Nat.add_sub, take_app_length. by intros [= <- <-].
  - intros ->. rewrite last_snoc, length_app. cbn [length]. by rewrite Nat.add_sub, take_app_length.
Qed.

Lemma pop_None {A} (l : list A) : pop l = None ↔ l = [].
Proof.
  rewrite <- last_None. unfold pop. by destruct (list.last l).
Qed.

(** ** Temporary names *)

(** The machine's process ids, clock and counter. *)
Definition env_ok (env : TempEnv) : Prop :=
  is_u32 (env_pid env) ∧ (∀ c, 0 ≤ env_nanos env c < 2 ^ 128) ∧ is_u64 (env_counter env).

Definition temp_name (env : TempEnv) : str :=
  lit_bytes ".nfs-rs-tmp-" ++ decimal (env_pid env)
  ++ dash :: decimal (env_nanos env (env_counter env)) ++ dash :: decimal (env_counter env).

Definition next_env (env : TempEnv) : TempEnv :=
  mkTempEnv (env_pid env) (env_nanos env) ((env_counter env + 1) mod 2 ^ 64).

Lemma temporary_name_run env : temporary_name env = (next_env env, Ok (temp_name env)).
Proof. done. Qed.

Lemma next_env_ok env : env_ok env → env_ok (next_env env).
Proof.
  intros (Hp & Hn & Hc). split_and!; [done..|].
  cbn. pose proof (Z.mod_pos_bound (env_counter env + 1) (2 ^ 64) ltac:(lia)). int_unfold; lia.
Qed.

Lemma not_digit_slash : ¬ is_digit slash.
Proof. unfold is_digit. change (byte_to_Z slash) with 47. lia. Qed.
Lemma not_digit_dash : ¬ is_digit dash.
Proof. unfold is_digit. change (byte_to_Z dash) with 45. lia. Qed.

Lemma temp_name_clean env : env_ok env → clean (temp_name env).
Proof.
  intros (Hp & Hn & Hc). unfold temp_name. split_and!.
  - split; done.
  - split; [done|].
    pose proof (zlen_decimal (env_pid env) 32 ltac:(int_unfold; lia) ltac:(lia)).
    pose proof (zlen_decimal _ 128 (Hn (env_counter env)) ltac:(lia)).
    pose proof (zlen_decimal (env_counter env) 64 ltac:(int_unfold; lia) ltac:(lia)).
    unfold MAX_NAME_BYTES. rewrite !zlen_app, !zlen_cons, zlen_app, !zlen_cons.
    change (zlen (lit_bytes ".nfs-rs-tmp-")) with 12. lia.
  - rewrite !not_elem_of_app, !not_elem_of_cons, not_elem_of_app, not_elem_of_cons.
    pose proof not_digit_slash.
    split_and!; try (by apply not_elem_of_decimal); [|done..].
    by apply (bool_decide_unpack (slash ∉ lit_bytes ".nfs-rs-tmp-")).
Qed.

(** Two draws of one process differ whenever the counter differs, whatever the
    clock says. *)
Lemma temp_name_inj env1 env2 :
  env_ok env1 → env_ok env2 → env_pid env1 = env_pid env2 →
  temp_name env1 = temp_name env2 → env_counter env1 = env_counter env2.
Proof.
  intros (_ & _ & Hc1) (_ & _ & Hc2) Hpid H. unfold temp_name in H. rewrite Hpid in H.
  do 2 apply app_inv_head in H. injection H as H.
  assert (∀ n, dash ∉ decimal n) as Hd by (intros n; apply not_elem_of_decimal, not_digit_dash).
  pose proof (split_once_app dash _ (decimal (env_counter env1)) (Hd (env_nanos env1 (env_counter env1)))) as H1.
  rewrite H, split_once_app in H1 by done. injection H1 as _ H1.
  symmetry in H1. apply decimal_inj in H1; [done|apply Hc1|apply Hc2].
Qed.

(** [temporary_sibling_path] on every branch: the result names a fresh entry of
    the directory that holds [path]. *)
Lemma temporary_sibling_path_spec path env :
  env_ok env →
  match normalize_path path with
  | Ok cs =>
      match pop cs with
      | Some (parent, _) => ∃ temp,
          temporary_sibling_path path env = (next_env env, Ok temp)
          ∧ normalize_path temp = Ok (parent ++ [temp_name env])
      | None => temporary_sibling_path path env = (env, Err (InvalidPath path))
      end
  | Err e => temporary_sibling_path path env = (env, Err e)
  | Fault f => False
  end.
Proof.
  intros Henv. unfold temporary_sibling_path.
  pose proof (normalize_path_fault_free path) as Hff.
  destruct (normalize_path path) as [cs|e|f] eqn:Hn; [|done|by destruct (Hff f)].
  rewrite (bind_run _ _ _ env cs) by done.
  destruct (pop cs) as [[parent name]|] eqn:Hpop; [|done].
  exists (join_path (fold_left join_path parent [slash]) (temp_name env)). split; [done|].
  apply normalize_path_join; [|by apply temp_name_clean].
  apply (normalize_join_all parent [slash] []); [done|].
  apply normalize_path_Ok in Hn as (_ & -> & Ha). apply components_clean in Ha.
  apply pop_Some in Hpop. rewrite Hpop in Ha. by apply Forall_app in Ha as [? _].
Qed.

(** ** Targets *)

Definition valid_target (t : RemoteTarget) : Prop :=
  trim_is_empty (host t) = false ∧ ∃ rest, export t = slash :: rest.

Lemma validate_remote_target_Ok t : validate_remote_target t = Ok tt ↔ valid_target t.
Proof.
  unfold validate_remote_target, valid_target, starts_with_slash, strip_prefix.
  destruct (trim_is_empty (host t)); cbn [orb]; [split; [done|naive_solver]|].
  destruct (export t) as [|b rest]; cbn [is_empty orb]; [split; [done|naive_solver]|].
  case_decide as Hb; cbn [negb]; [subst; naive_solver|].
  split; [done|]. intros (_ & r & [= -> _]). done.
Qed.

(** The grammar of targets: [host:/export], or [[host]:/export] with brackets. *)
Definition target_syntax (target : str) (t : RemoteTarget) : Prop :=
  (target = "["%byte :: host t ++ "]"%byte :: colon :: export t ∧ "]"%byte ∉ host t)
  ∨ (strip_prefix "["%byte target = None ∧ target = host t ++ colon :: export t ∧ colon ∉ host t).

Lemma strip_prefix_Some c s rest : strip_prefix c s = Some rest ↔ s = c :: rest.
Proof.
  destruct s as [|b s]; cbn; [done|]. case_decide as Hb; [subst; naive_solver|].
  split; [done|naive_solver].
Qed.

(** How [RemoteTarget::parse] cuts the target. *)
Definition cut_target (target : str) : option RemoteTarget :=
  match strip_prefix "["%byte target with
  | Some rest =>
      '(h, rest) ← split_once "]"%byte rest;
      e ← strip_prefix colon rest;
      Some (mkRemoteTarget h e)
  | None => '(h, e) ← split_once colon target; Some (mkRemoteTarget h e)
  end.

Definition valid_targetb (t : RemoteTarget) : bool :=
  match validate_remote_target t with Ok _ => true | _ => false end.

Lemma valid_targetb_spec t : valid_targetb t = true ↔ valid_target t.
Proof.
  rewrite <- validate_remote_target_Ok. unfold valid_targetb.
  destruct (validate_remote_target t) as [[]|e|f]; [done|by split..].
Qed.

Lemma RemoteTarget_parse_cut target :
  RemoteTarget_parse target =
  match cut_target target with
  | Some t => if valid_targetb t then Ok t else Err (InvalidTarget [PStr target])
  | None => Err (InvalidTarget [PStr target])
  end.
Proof.
  assert (∀ h e, (outcome_map_err (λ _, InvalidTarget [PStr target])
             (validate_remote_target (mkRemoteTarget h e)) ;; Ok (mkRemoteTarget h e))
           = if valid_targetb (mkRemoteTarget h e)
             then Ok (mkRemoteTarget h e) else Err (InvalidTarget [PStr target])) as Hv.
  { intros h e. unfold valid_targetb, validate_remote_target. by destruct (_ || _). }
  unfold RemoteTarget_parse, cut_target.
  destruct (strip_prefix _ target) as [rest|]; cbn.
  - destruct (split_once _ rest) as [[h rest2]|]; cbn; [|done].
    destruct (strip_prefix colon rest2) as [e|]; cbn; [apply Hv|done].
  - destruct (split_once colon target) as [[h e]|]; cbn; [apply Hv|done].
Qed.

Lemma cut_target_spec target t : cut_target target = Some t ↔ target_syntax target t.
Proof.
  unfold cut_target, target_syntax. destruct (strip_prefix "["%byte target) as [rest|] eqn:Hp.
  - apply strip_prefix_Some in Hp as ->. split.
    + destruct (split_once "]"%byte rest) as [[h rest2]|] eqn:Hs; cbn; [|done].
      destruct (strip_prefix colon rest2) as [e|] eqn:He; cbn; [|done]. intros [= <-].
      apply split_once_Some in Hs as [-> Hn]. apply strip_prefix_Some in He as ->. by left.
    + intros [[[= ->] Hn]|[? _]]; [|done].
      rewrite split_once_app by done. cbn. rewrite decide_True by done. by destruct t.
  - split.
    + destruct (split_once colon target) as [[h e]|] eqn:Hs; cbn; [|done]. intros [= <-].
      apply split_once_Some in Hs as [-> Hn]. by right.
    + intros [[-> _]|(_ & -> & Hn)]; [done|]. rewrite split_once_app by done. by destruct t.
Qed.

(** ** Directory pages *)

Lemma next_dir_cursor_advances batch previous cursor :
  next_dir_cursor batch previous = Ok (Some cursor) →
  readdir_entries batch ≠ [] ∧ cursor_cookie cursor ≠ previous.
Proof.
  unfold next_dir_cursor. destruct (readdir_eof batch); [done|].
  destruct (list.last (readdir_entries batch)) as [e|] eqn:Hl; cbn; [|done].
  destruct (Z.eqb_spec (entry_cookie e) previous); [done|]. intros [= <-]. split; [|done].
  intros Hn. by rewrite Hn in Hl.
Qed.

Lemma next_dir_cursor_fault_free batch previous : fault_free (next_dir_cursor batch previous).
Proof.
  unfold next_dir_cursor. destruct (readdir_eof batch); [done|].
  destruct (list.last _); cbn; [|done]. by destruct (_ =? _).
Qed.

Lemma append_dir_entries_Ok out batch max out' :
  zlen out + zlen (readdir_entries batch) ≤ usize_max →
  append_dir_entries out batch max = Ok out' ↔
  zlen out + zlen (readdir_entries batch) ≤ max
  ∧ out' = out ++ (to_dir_entry <$> readdir_entries batch).
Proof.
  intros Hu. unfold append_dir_entries, saturating_add. rewrite Z.min_l by lia.
  destruct (Z.gtb_spec (zlen out + zlen (readdir_entries batch)) max); [split; [done|lia]|].
  split; [by intros [= <-]|by intros [_ ->]].
Qed.

(** ** Limits *)

Lemma clamp_Ok v lo hi : lo ≤ hi → ∃ r, clamp v lo hi = Ok r ∧ lo ≤ r ≤ hi ∧ (lo ≤ v ≤ hi → r = v).
Proof.
  intros Hle. unfold clamp. destruct (Z.gtb_spec lo hi); [lia|].
  eexists; split; [done|]. destruct (Z.ltb_spec v lo); [lia|].
  destruct (Z.gtb_spec v hi); lia.
Qed.

(** A transfer size within the configured limit, and within what the server
    said it accepts. *)
Lemma clamp_io_size_spec preferred max limit :
  is_u32 preferred → is_u32 max → 1 ≤ limit →
  ∃ size, clamp_io_size preferred max limit = Ok size ∧ 1 ≤ size ≤ limit
    ∧ (max ≠ 0 → size ≤ max) ∧ (1 ≤ preferred ≤ limit → max = 0 ∨ preferred ≤ max → size = preferred).
Proof.
  intros Hp Hm Hl. unfold clamp_io_size.
  set (s := if max =? 0 then _ else _).
  destruct (clamp_Ok s 1 limit Hl) as (r & -> & Hr & Hin). exists r. split; [done|]. split; [done|].
  subst s. split.
  - intros Hne. destruct (Z.eqb_spec max 0); [done|].
    destruct (Z.eqb_spec preferred 0); destruct (decide (1 ≤ Z.min max max ≤ limit)); int_unfold;
      destruct (decide (1 ≤ Z.min preferred max ≤ limit)); try lia.
  - intros Hpl Hmp. destruct (Z.eqb_spec preferred 0); [lia|].
    destruct (Z.eqb_spec max 0); [by apply Hin|]. rewrite Z.min_l in Hin by lia. by apply Hin.
Qed.

Lemma clamp_dir_size_spec preferred limit :
  1 ≤ limit → ∃ size, clamp_dir_size preferred limit = Ok size ∧ 1 ≤ size ≤ limit.
Proof.
  intros Hl. unfold clamp_dir_size. destruct (preferred =? 0); [by exists limit|].
  destruct (clamp_Ok preferred 1 limit Hl) as (r & -> & Hr & _). by exists r.
Qed.

Lemma validate_transfer_size_Ok name size s :
  0 ≤ size → validate_transfer_size name size = Ok s ↔ s = size ∧ 1 ≤ size ≤ MAX_IO_BYTES.
Proof.
  intros Hn. unfold validate_transfer_size.
  destruct (Z.eqb_spec size 0); cbn [orb]; [split; [done|lia]|].
  destruct (Z.gtb_spec size MAX_IO_BYTES); [split; [done|lia]|].
  split; [intros [= <-]; split; [done|lia]|by intros [-> _]].
Qed.

Lemma advance_offset_Ok offset amount operation o :
  0 ≤ amount ≤ usize_max →
  advance_offset offset amount operation = Ok o ↔ o = offset + amount ∧ offset + amount ≤ u64_max.
Proof.
  intros Ha. unfold advance_offset, checked_add.
  destruct (Z.gtb_spec amount u64_max); [int_unfold; lia|].
  destruct (Z.leb_spec (offset + amount) u64_max); cbn; [|split; [done|lia]].
  split; [by intros [= <-]|by intros [-> _]].
Qed.

Lemma advance_offset_cases offset amount operation :
  0 ≤ amount ≤ usize_max →
  (offset + amount ≤ u64_max ∧ advance_offset offset amount operation = Ok (offset + amount))
  ∨ (u64_max < offset + amount
     ∧ advance_offset offset amount operation = Err (Protocol [PLit operation; PLit " offset overflow"])).
Proof.
  intros Ha. unfold advance_offset, checked_add.
  destruct (Z.gtb_spec amount u64_max); [int_unfold; lia|].
  destruct (Z.leb_spec (offset + amount) u64_max); cbn; auto.
Qed.
