(* ===== verification/Mount.v ===== *)
(** * The MOUNT and portmapper clients (src/src/v3/mount.rs, src/src/v3/portmap.rs)

    Both are one RPC connection with a few procedures.  [MountClient] and
    [PortmapperClient] are the RPC client they wrap. *)

From Stdlib Require Import Strings.String Strings.Byte.
From S2P Require Import Prelude Text Xdr XdrSpec XdrList Status Errors Rpc RpcSpec RpcClientSpec.
From S2P Require Import V3Proto V3Wire V3Replies V3CallsSpec.
Import FileHandle (FileHandle).

#[local] Open Scope Z_scope.

(** ** Data *)

Definition MOUNT_PROGRAM : Z := 100005.
Definition MOUNT_VERSION : Z := 3.
Definition MNTPATHLEN : Z := 1024.
Definition MNTNAMLEN : Z := 255.
Definition MOUNTPROC3_MNT : Z := 1.
Definition MOUNTPROC3_DUMP : Z := 2.
Definition MOUNTPROC3_UMNT : Z := 3.
Definition MOUNTPROC3_UMNTALL : Z := 4.
Definition MOUNTPROC3_EXPORT : Z := 5.
Definition MOUNT_MAX_LIST_ENTRIES : Z := 4096.

Record MountInfo := mkMountInfo { mount_file_handle : FileHandle; mount_auth_flavors : list Z }.

Record MountEntry := mkMountEntry { mount_host : str; mount_directory : str }.

Record Export := mkExport { export_directory : str; export_groups : list str }.

Definition DirPath_encode (self : str) : M Encoder XdrError unit := write_string self MNTPATHLEN.

(** [while decoder.read_bool()? { .. }] of [decode_linked_list]. *)
Definition decode_linked_list_step {T} (decode_entry : M Decoder XdrError T) (entries : list T)
    : M Decoder XdrError (list T + list T) :=
  more ← read_bool;
  if (more : bool) then
    if zlen entries =? MOUNT_MAX_LIST_ENTRIES
    then throw (LengthLimitExceeded (MOUNT_MAX_LIST_ENTRIES + 1) MOUNT_MAX_LIST_ENTRIES) else
    entry ← decode_entry;
    continue_ (entries ++ [entry])
  else break_ entries.

(** At most [MOUNT_MAX_LIST_ENTRIES] turns add an entry, and one more ends the loop. *)
Definition decode_linked_list {T} (decode_entry : M Decoder XdrError T)
    : M Decoder XdrError (list T) :=
  loop (Z.to_pos (MOUNT_MAX_LIST_ENTRIES + 2)) (decode_linked_list_step decode_entry) [].

Definition decode_mount_entry : M Decoder XdrError MountEntry :=
  host ← read_string MNTNAMLEN;
  directory ← read_string MNTPATHLEN;
  mret (mkMountEntry host directory).

Definition decode_mount_list : M Decoder XdrError (list MountEntry) :=
  decode_linked_list decode_mount_entry.

Definition decode_group_list : M Decoder XdrError (list str) :=
  decode_linked_list (read_string MNTNAMLEN).

Definition decode_export : M Decoder XdrError Export :=
  directory ← read_string MNTPATHLEN;
  groups ← decode_group_list;
  mret (mkExport directory groups).

Definition decode_export_list : M Decoder XdrError (list Export) := decode_linked_list decode_export.

Definition mount_reply : M Decoder Error MountInfo :=
  value ← xdr read_u32;
  let status := MountStatus.from_u32 value in
  if negb (bool_decide (status = MountStatus.Ok)) then
    finish_reply ;;
    throw (MountError status)
  else
    file_handle ← xdr FileHandle.decode;
    auth_flavors ← xdr (read_array read_u32 128);
    finish_reply ;;
    mret (mkMountInfo file_handle auth_flavors).

Definition dump_reply : M Decoder Error (list MountEntry) :=
  mounts ← xdr decode_mount_list;
  finish_reply ;;
  mret mounts.

Definition exports_reply : M Decoder Error (list Export) :=
  exports ← xdr decode_export_list;
  finish_reply ;;
  mret exports.

(** ** Portmapper data *)

Definition PMAP_PROGRAM : Z := 100000.
Definition PMAP_VERSION : Z := 2.
Definition PMAP_PORT : Z := 111.
Definition IPPROTO_TCP : Z := 6.
Definition PMAPPROC_GETPORT : Z := 3.

Record Mapping := mkMapping {
  map_program : Z;
  map_version : Z;
  map_protocol : Z;
  map_port : Z;
}.

Definition Mapping_tcp (program version : Z) : Mapping := mkMapping program version IPPROTO_TCP 0.

Definition Mapping_encode (self : Mapping) : M Encoder XdrError unit :=
  write_u32 (map_program self) ;;
  write_u32 (map_version self) ;;
  write_u32 (map_protocol self) ;;
  write_u32 (map_port self) ;;
  mret tt.

Definition get_port_reply (mapping : Mapping) : M Decoder Error Z :=
  port ← xdr read_u32;
  finish_reply ;;
  if port >? u16_max
  then throw (Protocol [PLit "portmapper returned out-of-range port "; PNum port;
                        PLit " for program "; PNum (map_program mapping); PLit " version ";
                        PNum (map_version mapping)])
  else mret port.

(** ** The clients *)

Section clients.
Context {St : Type} `{!Transport St}.
#[local] Abbreviation MountClient := (RpcClient St).
#[local] Abbreviation PortmapperClient := (RpcClient St).

Definition decoding {A} (m : M Decoder Error A) (payload : list byte) : M (RpcClient St) Error A :=
  lift (m (Decoder_new payload)).2.

Definition mount (export_path : str) : M MountClient Error MountInfo :=
  payload ← call MOUNT_PROGRAM MOUNT_VERSION MOUNTPROC3_MNT DirPath_encode export_path;
  decoding mount_reply payload.

Definition dump : M MountClient Error (list MountEntry) :=
  payload ← call MOUNT_PROGRAM MOUNT_VERSION MOUNTPROC3_DUMP encode_unit tt;
  decoding dump_reply payload.

Definition unmount (export_path : str) : M MountClient Error unit :=
  payload ← call MOUNT_PROGRAM MOUNT_VERSION MOUNTPROC3_UMNT DirPath_encode export_path;
  decoding null_reply payload.

Definition unmount_all : M MountClient Error unit :=
  payload ← call MOUNT_PROGRAM MOUNT_VERSION MOUNTPROC3_UMNTALL encode_unit tt;
  decoding null_reply payload.

Definition exports : M MountClient Error (list Export) :=
  payload ← call MOUNT_PROGRAM MOUNT_VERSION MOUNTPROC3_EXPORT encode_unit tt;
  decoding exports_reply payload.

Definition get_port (mapping : Mapping) : M PortmapperClient Error Z :=
  payload ← call PMAP_PROGRAM PMAP_VERSION PMAPPROC_GETPORT Mapping_encode mapping;
  decoding (get_port_reply mapping) payload.

End clients.

(** ** Wire format *)

Definition path_ok (p : str) : Prop := zlen p ≤ MNTPATHLEN.

#[export] Instance DirPath_encode_to : EncodesTo DirPath_encode wire_opaque path_ok.
Proof.
  apply encodes_writes. intros p Hp. unfold DirPath_encode. apply writes_opaque.
  by apply opaque_ok_small.
Qed.

(** An export path the protocol cannot carry is refused before it is sent. *)
Lemma DirPath_encode_long p e :
  MNTPATHLEN < zlen p → DirPath_encode p e = (e, Err (LengthLimitExceeded (zlen p) MNTPATHLEN)).
Proof.
  intros Hp. unfold DirPath_encode, write_string, write_opaque, write_len.
  destruct (Z.gtb_spec (zlen p) MNTPATHLEN); [done|lia].
Qed.

Definition wire_Mapping (m : Mapping) : list byte :=
  wire_u32 (map_program m) ++ wire_u32 (map_version m) ++ wire_u32 (map_protocol m)
  ++ wire_u32 (map_port m).
#[export] Instance Mapping_encode_to : EncodesTo Mapping_encode wire_Mapping (λ _, True).
Proof.
  apply encodes_writes. intros m _. unfold Mapping_encode, wire_Mapping.
  do 3 (apply writes_seq; [writes_solve|]). writes_solve.
Qed.

Section linked.
Context {T : Type} (dec : M Decoder XdrError T) (wire : T → list byte) (ok : T → Prop).

Definition linked_ok (l : list T) : Prop := Forall ok l ∧ zlen l ≤ MOUNT_MAX_LIST_ENTRIES.

#[export] Instance linked_list_from `{!DecodesFrom dec wire ok} :
  DecodesFrom (decode_linked_list dec) (wire_linked wire) linked_ok.
Proof.
  intros l [Hl Hmax]. unfold decode_linked_list.
  apply (reads_linked dec (λ acc, zlen acc =? MOUNT_MAX_LIST_ENTRIES) _ _ (λ _ _, eq_refl) wire ok l []);
    [done|done|]. unfold MOUNT_MAX_LIST_ENTRIES in *. lia.
Qed.

#[export] Instance dec_safe_linked_list `{!DecSafe dec} : DecSafe (decode_linked_list dec).
Proof.
  by apply (dec_safe_linked dec (λ acc, zlen acc =? MOUNT_MAX_LIST_ENTRIES) _ _ (λ _ _, eq_refl)).
Qed.

End linked.

Definition MountEntry_ok (e : MountEntry) : Prop :=
  string_ok MNTNAMLEN (mount_host e) ∧ string_ok MNTPATHLEN (mount_directory e).
Definition wire_MountEntry (e : MountEntry) : list byte :=
  wire_opaque (mount_host e) ++ wire_opaque (mount_directory e).
#[export] Instance mount_entry_from : DecodesFrom decode_mount_entry wire_MountEntry MountEntry_ok.
Proof. intros [] []. unfold decode_mount_entry, wire_MountEntry. reads_solve. Qed.
#[export] Instance dec_safe_mount_entry : DecSafe decode_mount_entry.
Proof. unfold decode_mount_entry. apply _. Qed.

Definition Export_ok (e : Export) : Prop :=
  string_ok MNTPATHLEN (export_directory e) ∧ linked_ok (string_ok MNTNAMLEN) (export_groups e).
Definition wire_Export (e : Export) : list byte :=
  wire_opaque (export_directory e) ++ wire_linked wire_opaque (export_groups e).
#[export] Instance export_from : DecodesFrom decode_export wire_Export Export_ok.
Proof. intros [] []. unfold decode_export, decode_group_list, wire_Export. reads_solve. Qed.
#[export] Instance dec_safe_export : DecSafe decode_export.
Proof. unfold decode_export, decode_group_list. apply _. Qed.

(** DUMP and EXPORT: the lists come back as the server sent them. *)
Lemma dump_reply_spec l :
  linked_ok MountEntry_ok l → replies dump_reply (wire_linked wire_MountEntry l) (Ok l).
Proof. intros Hl. unfold dump_reply, decode_mount_list. replies_solve. Qed.

Lemma exports_reply_spec l :
  linked_ok Export_ok l → replies exports_reply (wire_linked wire_Export l) (Ok l).
Proof. intros Hl. unfold exports_reply, decode_export_list. replies_solve. Qed.

(** MNT: the root handle and the flavors, or the server's status. *)
Definition MountInfo_ok (i : MountInfo) : Prop :=
  FileHandle_ok (mount_file_handle i) ∧ array_ok is_u32 128 (mount_auth_flavors i).
Definition wire_MountInfo (i : MountInfo) : list byte :=
  wire_FileHandle (mount_file_handle i) ++ wire_array wire_u32 (mount_auth_flavors i).

Lemma mount_reply_spec (r : MountInfo + Z) :
  match r with inl i => MountInfo_ok i | inr v => is_u32 v ∧ v ≠ 0 end →
  replies mount_reply
    (match r with inl i => wire_u32 0 ++ wire_MountInfo i | inr v => wire_u32 v end)
    (match r with inl i => Ok i | inr v => Err (MountError (MountStatus.from_u32 v)) end).
Proof.
  destruct r as [[]|v].
  - intros [Hf Ha]. unfold mount_reply, wire_MountInfo. eapply replies_bind; [by apply reads_u32|].
    cbv beta zeta. rewrite bool_decide_true by done. cbn [negb]. replies_solve.
  - intros [Hv Hne]. unfold mount_reply. eapply replies_bind_last; [by apply reads_u32|].
    cbv beta zeta. rewrite bool_decide_false; [cbn [negb]; replies_solve|].
    intros H. apply Hne. rewrite <- (MountStatus_code_from v), H. done.
Qed.

(** GETPORT: a port that fits 16 bits, or an error. *)
Lemma get_port_reply_spec mapping port :
  is_u32 port →
  replies (get_port_reply mapping) (wire_u32 port)
    (if port >? u16_max
     then Err (Protocol [PLit "portmapper returned out-of-range port "; PNum port;
                         PLit " for program "; PNum (map_program mapping); PLit " version ";
                         PNum (map_version mapping)])
     else Ok port).
Proof.
  intros Hp. unfold get_port_reply. eapply replies_bind_last; [by apply reads_u32|]. cbv beta.
  apply replies_finish. destruct (port >? u16_max); [apply replies_throw|apply replies_ret].
Qed.

(** ** Every peer *)

#[export] Instance mount_reply_safe : DecSafe mount_reply.
Proof. unfold mount_reply. apply _. Qed.
#[export] Instance dump_reply_safe : DecSafe dump_reply.
Proof. unfold dump_reply, decode_mount_list. apply _. Qed.
#[export] Instance exports_reply_safe : DecSafe exports_reply.
Proof. unfold exports_reply, decode_export_list. apply _. Qed.
#[export] Instance null_reply_safe : DecSafe null_reply.
Proof. unfold null_reply. apply _. Qed.
#[export] Instance get_port_reply_safe m : DecSafe (get_port_reply m).
Proof. unfold get_port_reply. apply _. Qed.
