(* ===== verification/V3Blocking.v ===== *)
(** * The path-oriented NFSv3 client (src/src/v3/blocking.rs)

    [Client] with every operation after connecting ([V3Connect] has the rest),
    written against the interface [Nfs3].  [World] is what a method can change:
    the client itself and the process-wide state behind temporary names.
    Methods that stream take a local reader or writer, which is part of the
    state they run on. *)

From Stdlib Require Import Strings.String Strings.Byte.
From S2P Require Import Prelude Text Xdr Status Errors Rpc V3Proto V3Calls V3Client.
Import FileHandle (FileHandle).
Import FileAttr (FileAttr).
Import NfsTime (NfsTime).
Import SpecData (SpecData, mkSpecData).
Import SetAttr (SetAttr).
Import StableHow (StableHow).
Import CreateHow (CreateHow).
Import MknodData (MknodData).

#[local] Open Scope Z_scope.

Definition DEFAULT_IO_SIZE : Z := 128 * 1024.
Definition DEFAULT_DIR_SIZE : Z := 128 * 1024.

(** [0o644] and [0o7777]. *)
Definition mode_0644 : Z := 6 * 64 + 4 * 8 + 4.
Definition mode_bits : Z := 7 * 512 + 7 * 64 + 7 * 8 + 7.

(** ** Builder *)

Module ClientBuilder.

Record ClientBuilder := mkClientBuilder {
  target : RemoteTarget;
  auth : AuthSys;
  timeout : option Z;
  mount_port : option Z;
  nfs_port : option Z;
  read_size_limit : Z;
  write_size_limit : Z;
  dir_size_limit : Z;
  max_dir_entries : Z;
  retry_policy : RetryPolicy;
}.

(** [ClientBuilder::new], given the credentials of the current process. *)
Definition new (current : AuthSys) (host export : str) : ClientBuilder :=
  mkClientBuilder (mkRemoteTarget host export) current (Some (from_secs 30)) None None
    DEFAULT_IO_SIZE DEFAULT_IO_SIZE DEFAULT_DIR_SIZE MAX_DIR_ENTRIES RetryPolicy_default.

Definition from_target (current : AuthSys) (target : str) : outcome Error ClientBuilder :=
  target ← RemoteTarget_parse target;
  Ok (mkClientBuilder target current (Some (from_secs 30)) None None
        DEFAULT_IO_SIZE DEFAULT_IO_SIZE DEFAULT_DIR_SIZE MAX_DIR_ENTRIES RetryPolicy_default).

Definition set_auth_sys (auth : AuthSys) (b : ClientBuilder) : ClientBuilder :=
  mkClientBuilder (target b) auth (timeout b) (mount_port b) (nfs_port b) (read_size_limit b)
    (write_size_limit b) (dir_size_limit b) (max_dir_entries b) (retry_policy b).
Definition set_timeout (timeout : option Z) (b : ClientBuilder) : ClientBuilder :=
  mkClientBuilder (target b) (auth b) timeout (mount_port b) (nfs_port b) (read_size_limit b)
    (write_size_limit b) (dir_size_limit b) (max_dir_entries b) (retry_policy b).
Definition set_mount_port (port : Z) (b : ClientBuilder) : ClientBuilder :=
  mkClientBuilder (target b) (auth b) (timeout b) (Some port) (nfs_port b) (read_size_limit b)
    (write_size_limit b) (dir_size_limit b) (max_dir_entries b) (retry_policy b).
Definition set_nfs_port (port : Z) (b : ClientBuilder) : ClientBuilder :=
  mkClientBuilder (target b) (auth b) (timeout b) (mount_port b) (Some port) (read_size_limit b)
    (write_size_limit b) (dir_size_limit b) (max_dir_entries b) (retry_policy b).
Definition io_size (size : Z) (b : ClientBuilder) : ClientBuilder :=
  mkClientBuilder (target b) (auth b) (timeout b) (mount_port b) (nfs_port b) size
    size (dir_size_limit b) (max_dir_entries b) (retry_policy b).
Definition read_size (size : Z) (b : ClientBuilder) : ClientBuilder :=
  mkClientBuilder (target b) (auth b) (timeout b) (mount_port b) (nfs_port b) size
    (write_size_limit b) (dir_size_limit b) (max_dir_entries b) (retry_policy b).
Definition write_size (size : Z) (b : ClientBuilder) : ClientBuilder :=
  mkClientBuilder (target b) (auth b) (timeout b) (mount_port b) (nfs_port b) (read_size_limit b)
    size (dir_size_limit b) (max_dir_entries b) (retry_policy b).
Definition dir_size (size : Z) (b : ClientBuilder) : ClientBuilder :=
  mkClientBuilder (target b) (auth b) (timeout b) (mount_port b) (nfs_port b) (read_size_limit b)
    (write_size_limit b) size (max_dir_entries b) (retry_policy b).
Definition set_max_dir_entries (n : Z) (b : ClientBuilder) : ClientBuilder :=
  mkClientBuilder (target b) (auth b) (timeout b) (mount_port b) (nfs_port b) (read_size_limit b)
    (write_size_limit b) (dir_size_limit b) n (retry_policy b).
Definition set_retry_policy (policy : RetryPolicy) (b : ClientBuilder) : ClientBuilder :=
  mkClientBuilder (target b) (auth b) (timeout b) (mount_port b) (nfs_port b) (read_size_limit b)
    (write_size_limit b) (dir_size_limit b) (max_dir_entries b) policy.

End ClientBuilder.
Import ClientBuilder (ClientBuilder).

(** ** Local readers and writers *)

(** [std::io::Write::write_all] and [std::io::Read::read]: at most as many
    bytes as the buffer has. *)
Class Writer (Wr : Type) := writer_write_all : list byte → M Wr ErrorKind unit.
Class Reader (Rd : Type) := reader_read : Z → M Rd ErrorKind (list byte).

(** Blocking ones return. *)
Class WriterLaws (Wr : Type) `{!Writer Wr} := writer_fault_free : ∀ bs s, fault_free (writer_write_all bs s).2.

Class ReaderLaws (Rd : Type) `{!Reader Rd} := {
  reader_fault_free : ∀ n s, fault_free (reader_read n s).2;
  reader_bound : ∀ n s s' bs, 0 ≤ n → reader_read n s = (s', Ok bs) → zlen bs ≤ n;
}.

(** [impl Write for Vec<u8>]. *)
#[export] Instance Vec_writer : Writer (list byte) := λ bs v, (v ++ bs, Ok tt).
#[export] Instance Vec_writer_laws : WriterLaws (list byte).
Proof. done. Qed.

(** ** The client *)

Record Client (N : Type) := mkClient {
  builder : ClientBuilder;
  target : RemoteTarget;
  auth : AuthSys;
  mount_port : Z;
  root : FileHandle;
  nfs : N;
  fsinfo : option FsInfo;
  read_size : Z;
  write_size : Z;
  dir_size : Z;
  max_dir_entries : Z;
}.
Arguments mkClient {N}.
Arguments builder {N}.
Arguments target {N}.
Arguments auth {N}.
Arguments mount_port {N}.
Arguments root {N}.
Arguments nfs {N}.
Arguments fsinfo {N}.
Arguments read_size {N}.
Arguments write_size {N}.
Arguments dir_size {N}.
Arguments max_dir_entries {N}.

Record World (N : Type) := mkWorld { client : Client N; env : TempEnv }.
Arguments mkWorld {N}.
Arguments client {N}.
Arguments env {N}.

(** [Error::Nfs { status, .. }] with this status. *)
Definition is_nfs_status (status : NfsStatus.NfsStatus) (err : Error) : bool :=
  match err with
  | Nfs _ s => bool_decide (s = status)
  | _ => false
  end.

Module Client.

Section client.
Context {N : Type} `{!Nfs3 N}.

(** A method of [self.nfs]. *)
Definition self_nfs {A} (m : M N Error A) : M (World N) Error A :=
  zoom (λ w, nfs (client w))
    (λ n w, let c := client w in
       mkWorld (mkClient (builder c) (target c) (auth c) (mount_port c) (root c) n (fsinfo c)
                  (read_size c) (write_size c) (dir_size c) (max_dir_entries c)) (env w)) m.

Definition self_env {A} (m : M TempEnv Error A) : M (World N) Error A :=
  zoom env (λ e w, mkWorld (client w) e) m.

(** A field of [self]. *)
Definition self {A} (g : Client N → A) : M (World N) Error A := gets (λ w, g (client w)).

(** *** Resolution *)

Fixpoint walk (current : FileHandle) (components : list str) : M (World N) Error FileHandle :=
  match components with
  | [] => mret current
  | component :: rest =>
      r ← self_nfs (nfs_lookup current component);
      walk (lookup_object r) rest
  end.

Definition resolve (path : str) : M (World N) Error FileHandle :=
  components ← lift (normalize_path path);
  current ← self root;
  walk current components.

Definition resolve_parent (path : str) : M (World N) Error (FileHandle * str) :=
  components ← lift (normalize_path path);
  '(components, name) ← lift (ok_or (InvalidPath path) (pop components));
  current ← self root;
  current ← walk current components;
  mret (current, name).

Definition ensure_directory (path : str) (handle : FileHandle) (attr : option FileAttr)
    : M (World N) Error unit :=
  attr ← match attr with
         | Some attr => mret attr
         | None => self_nfs (nfs_getattr handle)
         end;
  if bool_decide (FileAttr.file_type attr = FileType.Directory) then mret tt
  else throw (Protocol [PDebug path; PLit " exists but is not a directory"]).

(** *** Metadata *)

Definition path_fsinfo (path : str) : M (World N) Error FsInfo :=
  handle ← resolve path; self_nfs (nfs_fsinfo handle).
Definition fsstat (path : str) : M (World N) Error FsStat :=
  handle ← resolve path; self_nfs (nfs_fsstat handle).
Definition pathconf (path : str) : M (World N) Error PathConf :=
  handle ← resolve path; self_nfs (nfs_pathconf handle).
Definition file_handle (path : str) : M (World N) Error FileHandle := resolve path.
Definition parent_file_handle (path : str) : M (World N) Error FileHandle :=
  '(handle, _) ← resolve_parent path; mret handle.
Definition getattr (path : str) : M (World N) Error FileAttr :=
  handle ← resolve path; self_nfs (nfs_getattr handle).
Definition metadata (path : str) : M (World N) Error FileAttr := getattr path.
Definition parent_getattr (path : str) : M (World N) Error FileAttr :=
  handle ← parent_file_handle path; self_nfs (nfs_getattr handle).
Definition parent_metadata (path : str) : M (World N) Error FileAttr := parent_getattr path.
Definition file_type (path : str) : M (World N) Error FileType.FileType :=
  attr ← metadata path; mret (FileAttr.file_type attr).
Definition is_file (path : str) : M (World N) Error bool :=
  t ← file_type path; mret (FileType.is_file t).
Definition is_dir (path : str) : M (World N) Error bool :=
  t ← file_type path; mret (FileType.is_dir t).
Definition is_symlink (path : str) : M (World N) Error bool :=
  t ← file_type path; mret (FileType.is_symlink t).
Definition access (path : str) (access : Z) : M (World N) Error AccessResult :=
  handle ← resolve path; self_nfs (nfs_access handle access).
Definition lookup (path : str) : M (World N) Error unit := _ ← resolve path; mret tt.

(** [exists]. *)
Definition path_exists (path : str) : M (World N) Error bool :=
  r ← attempt (resolve path);
  match r with
  | inl _ => mret true
  | inr err => if is_nfs_status NfsStatus.NoEnt err then mret false else throw err
  end.

Definition read_link (path : str) : M (World N) Error str :=
  handle ← resolve path; self_nfs (nfs_readlink handle).

Definition setattr (path : str) (attr : SetAttr) : M (World N) Error unit :=
  handle ← resolve path;
  _ ← self_nfs (nfs_setattr handle attr);
  mret tt.
Definition truncate (path : str) (size : Z) : M (World N) Error unit :=
  handle ← resolve path;
  _ ← self_nfs (nfs_setattr handle (SetAttr.size size));
  mret tt.
Definition set_mode (path : str) (mode : Z) : M (World N) Error unit := setattr path (SetAttr.mode mode).
Definition set_uid (path : str) (uid : Z) : M (World N) Error unit := setattr path (SetAttr.uid uid).
Definition set_gid (path : str) (gid : Z) : M (World N) Error unit := setattr path (SetAttr.gid gid).
Definition set_ownership (path : str) (uid gid : Z) : M (World N) Error unit :=
  setattr path (SetAttr.ownership uid gid).
Definition set_times (path : str) (atime mtime : option NfsTime) : M (World N) Error unit :=
  setattr path (SetAttr.times atime mtime).
Definition touch (path : str) : M (World N) Error unit := setattr path SetAttr.touch.

Definition commit (path : str) (offset count : Z) : M (World N) Error CommitResult :=
  handle ← resolve path; self_nfs (nfs_commit handle offset count).

(** *** Reading *)

Definition read_too_long (len size : Z) : Error :=
  Protocol [PLit "READ returned "; PNum len; PLit " bytes for a "; PNum size; PLit " byte request"].

Definition read_no_data : Error := Protocol [PLit "READ returned no data before EOF"].

(** One turn of [read_handle_to_end]. *)
Definition read_handle_to_end_step (handle : FileHandle) (l : Z * list byte)
    : M (World N) Error (Z * list byte + list byte) :=
  let '(offset, out) := l in
  read_size ← self read_size;
  chunk ← self_nfs (nfs_read handle offset read_size);
  if zlen (read_data chunk) >? read_size
  then throw (read_too_long (zlen (read_data chunk)) read_size) else
  if is_empty (read_data chunk) then
    if read_eof chunk then break_ out else throw read_no_data
  else
    offset ← lift (advance_offset offset (zlen (read_data chunk)) "READ");
    let out := out ++ read_data chunk in
    if read_eof chunk then break_ out else continue_ (offset, out).

(** Each turn advances the 64-bit offset, so [2 ^ 64] turns are enough. *)
Definition offset_fuel : positive := Z.to_pos (u64_max + 2).

Definition read_handle_to_end (handle : FileHandle) : M (World N) Error (list byte) :=
  loop offset_fuel (read_handle_to_end_step handle) (0, []).

Definition read (path : str) : M (World N) Error (list byte) :=
  handle ← resolve path;
  read_handle_to_end handle.

Section writer.
Context {Wr : Type} `{!Writer Wr}.

(** A method of [self], and [writer.write_all(..)?], next to each other. *)
Definition on_self {A} (m : M (World N) Error A) : M (World N * Wr) Error A :=
  zoom fst (λ w s, (w, s.2)) m.
Definition write_out (bs : list byte) : M (World N * Wr) Error unit :=
  map_err Io (zoom snd (λ wr s, (s.1, wr)) (writer_write_all bs)).

Definition read_handle_to_writer_step (handle : FileHandle) (l : Z * Z)
    : M (World N * Wr) Error (Z * Z + Z) :=
  let '(offset, total) := l in
  read_size ← on_self (self read_size);
  chunk ← on_self (self_nfs (nfs_read handle offset read_size));
  if zlen (read_data chunk) >? read_size
  then throw (read_too_long (zlen (read_data chunk)) read_size) else
  if is_empty (read_data chunk) then
    if read_eof chunk then break_ total else throw read_no_data
  else
    write_out (read_data chunk) ;;
    offset ← lift (advance_offset offset (zlen (read_data chunk)) "READ");
    total ← lift (advance_offset total (zlen (read_data chunk)) "READ total");
    if read_eof chunk then break_ total else continue_ (offset, total).

Definition read_handle_to_writer (handle : FileHandle) : M (World N * Wr) Error Z :=
  loop offset_fuel (read_handle_to_writer_step handle) (0, 0).

Definition read_handle_range_to_writer_step (handle : FileHandle) (l : Z * Z * Z)
    : M (World N * Wr) Error (Z * Z * Z + Z) :=
  let '(offset, remaining, total) := l in
  if negb (remaining >? 0) then break_ total else
  read_size ← on_self (self read_size);
  let request := wrap_u32 (Z.min read_size remaining) in
  chunk ← on_self (self_nfs (nfs_read handle offset request));
  if zlen (read_data chunk) >? request
  then throw (read_too_long (zlen (read_data chunk)) request) else
  if is_empty (read_data chunk) then
    if read_eof chunk then break_ total else throw read_no_data
  else
    write_out (read_data chunk) ;;
    offset ← lift (advance_offset offset (zlen (read_data chunk)) "READ");
    total ← lift (advance_offset total (zlen (read_data chunk)) "READ total");
    let remaining := remaining - zlen (read_data chunk) in
    if read_eof chunk then break_ total else continue_ (offset, remaining, total).

(** Each turn takes at least one byte off [remaining]. *)
Definition read_handle_range_to_writer (handle : FileHandle) (offset remaining : Z)
    : M (World N * Wr) Error Z :=
  loop (Z.to_pos (remaining + 1)) (read_handle_range_to_writer_step handle) (offset, remaining, 0).

Definition read_to_writer (path : str) : M (World N * Wr) Error Z :=
  handle ← on_self (resolve path);
  read_handle_to_writer handle.

Definition read_range_to_writer (path : str) (offset count : Z) : M (World N * Wr) Error Z :=
  handle ← on_self (resolve path);
  read_handle_range_to_writer handle offset count.

End writer.

(** [let mut out = Vec::new(); self.m(&mut out)?; Ok(out)]. *)
Definition into_vec (m : M (World N * list byte) Error Z) : M (World N) Error (list byte) := λ w,
  match m (w, []) with
  | ((w', out), Ok _) => (w', Ok out)
  | ((w', _), Err e) => (w', Err e)
  | ((w', _), Fault f) => (w', Fault f)
  end.

Definition read_handle_range (handle : FileHandle) (offset count : Z)
    : M (World N) Error (list byte) :=
  into_vec (read_handle_range_to_writer handle offset count).

Definition read_handle_at (handle : FileHandle) (offset count : Z) : M (World N) Error (list byte) :=
  read_handle_range handle offset count.

Definition read_range (path : str) (offset count : Z) : M (World N) Error (list byte) :=
  handle ← resolve path;
  read_handle_range handle offset count.

Definition read_at (path : str) (offset count : Z) : M (World N) Error (list byte) :=
  handle ← resolve path;
  read_handle_at handle offset count.

Definition read_exact_at (path : str) (offset count : Z) : M (World N) Error (list byte) :=
  data ← read_at path offset count;
  if negb (zlen data =? count)
  then throw (Protocol [PLit "READ returned "; PNum (zlen data); PLit " bytes before EOF; expected ";
                        PNum count])
  else mret data.

(** *** Writing *)

(** One turn of [write_handle_all]. *)
Definition write_handle_all_step (handle : FileHandle) (stable : StableHow) (l : Z * list byte)
    : M (World N) Error (Z * list byte + unit) :=
  let '(offset, data) := l in
  if is_empty data then break_ tt else
  let chunk_offset := offset in
  write_size ← self write_size;
  let chunk_len := Z.min (zlen data) write_size in
  result ← self_nfs (nfs_write handle chunk_offset stable (ztake chunk_len data));
  let written := write_count result in
  if written =? 0 then throw (Protocol [PLit "WRITE accepted zero bytes"]) else
  if written >? chunk_len
  then throw (Protocol [PLit "WRITE reported "; PNum written; PLit " bytes for a "; PNum chunk_len;
                        PLit " byte request"]) else
  (if negb (StableHow.satisfies (write_committed result) stable) then
     commit ← self_nfs (nfs_commit handle chunk_offset (write_count result));
     if negb (bool_decide (commit_verifier commit = write_verifier result))
     then throw (Protocol [PLit "COMMIT verifier changed after unstable WRITE"])
     else mret tt
   else mret tt) ;;
  offset ← lift (advance_offset offset written "WRITE");
  continue_ (offset, zdrop written data).

(** Each turn takes at least one byte off [data]. *)
Definition write_handle_all (handle : FileHandle) (offset : Z) (data : list byte) (stable : StableHow)
    : M (World N) Error unit :=
  loop (Z.to_pos (zlen data + 1)) (write_handle_all_step handle stable) (offset, data).

Definition handle_from_create_result (parent : FileHandle) (name : str) (result : CreateResult)
    : M (World N) Error FileHandle :=
  match create_object result with
  | Some handle => mret handle
  | None =>
      r ← self_nfs (nfs_lookup parent name);
      mret (lookup_object r)
  end.

Definition create_handle_with_how (path : str) (how : CreateHow) : M (World N) Error FileHandle :=
  '(parent, name) ← resolve_parent path;
  result ← self_nfs (nfs_create parent name how);
  handle_from_create_result parent name result.

(** [match self.resolve(path) { Ok(h) => h, NoEnt => create, Err(e) => return Err(e) }]. *)
Definition resolve_or_create (path : str) (mode : Z) : M (World N) Error FileHandle :=
  r ← attempt (resolve path);
  match r with
  | inl handle => mret handle
  | inr err =>
      if is_nfs_status NfsStatus.NoEnt err
      then create_handle_with_how path (CreateHow.Unchecked (SetAttr.mode mode))
      else throw err
  end.

Definition write_with_stability (path : str) (data : list byte) (stable : StableHow)
    : M (World N) Error unit :=
  handle ← resolve_or_create path mode_0644;
  _ ← self_nfs (nfs_setattr handle (SetAttr.size 0));
  write_handle_all handle 0 data stable.

Definition write (path : str) (data : list byte) : M (World N) Error unit :=
  write_with_stability path data StableHow.FileSync.

Definition write_at_with_stability (path : str) (offset : Z) (data : list byte) (stable : StableHow)
    : M (World N) Error unit :=
  handle ← resolve path;
  write_handle_all handle offset data stable.

Definition write_at (path : str) (offset : Z) (data : list byte) : M (World N) Error unit :=
  write_at_with_stability path offset data StableHow.FileSync.

Definition append_with_stability (path : str) (data : list byte) (stable : StableHow)
    : M (World N) Error Z :=
  handle ← resolve path;
  attr ← self_nfs (nfs_getattr handle);
  write_handle_all handle (FileAttr.size attr) data stable ;;
  lift (advance_offset 0 (zlen data) "APPEND").

Definition append (path : str) (data : list byte) : M (World N) Error Z :=
  append_with_stability path data StableHow.FileSync.

Section reader.
Context {Rd : Type} `{!Reader Rd}.

Definition read_in (n : Z) : M (World N * Rd) Error (list byte) :=
  map_err Io (zoom snd (λ rd s, (s.1, rd)) (reader_read n)).

Definition write_handle_from_reader_at_step (handle : FileHandle) (stable : StableHow) (l : Z * Z)
    : M (World N * Rd) Error (Z * Z + Z) :=
  let '(offset, written) := l in
  write_size ← on_self (self write_size);
  buffer ← read_in write_size;
  if zlen buffer =? 0 then break_ written else
  on_self (write_handle_all handle offset buffer stable) ;;
  offset ← lift (advance_offset offset (zlen buffer) "WRITE reader");
  written ← lift (advance_offset written (zlen buffer) "WRITE reader total");
  continue_ (offset, written).

Definition write_handle_from_reader_at (handle : FileHandle) (offset : Z) (stable : StableHow)
    : M (World N * Rd) Error Z :=
  loop offset_fuel (write_handle_from_reader_at_step handle stable) (offset, 0).

Definition write_handle_from_reader (handle : FileHandle) (stable : StableHow)
    : M (World N * Rd) Error Z :=
  write_handle_from_reader_at handle 0 stable.

Definition write_from_reader_with_stability (path : str) (stable : StableHow)
    : M (World N * Rd) Error Z :=
  handle ← on_self (resolve_or_create path mode_0644);
  _ ← on_self (self_nfs (nfs_setattr handle (SetAttr.size 0)));
  write_handle_from_reader handle stable.

Definition write_from_reader (path : str) : M (World N * Rd) Error Z :=
  write_from_reader_with_stability path StableHow.FileSync.

Definition append_from_reader_with_stability (path : str) (stable : StableHow)
    : M (World N * Rd) Error Z :=
  handle ← on_self (resolve path);
  attr ← on_self (self_nfs (nfs_getattr handle));
  write_handle_from_reader_at handle (FileAttr.size attr) stable.

Definition append_from_reader (path : str) : M (World N * Rd) Error Z :=
  append_from_reader_with_stability path StableHow.FileSync.

End reader.

(** *** Removing and renaming *)

Definition remove (path : str) : M (World N) Error unit :=
  '(parent, name) ← resolve_parent path;
  _ ← self_nfs (nfs_remove parent name);
  mret tt.

Definition rmdir (path : str) : M (World N) Error unit :=
  '(parent, name) ← resolve_parent path;
  _ ← self_nfs (nfs_rmdir parent name);
  mret tt.

(** [match m { Ok(()) => Ok(true), not found => Ok(false), Err(e) => Err(e) }]. *)
Definition if_exists (m : M (World N) Error unit) : M (World N) Error bool :=
  r ← attempt m;
  match r with
  | inl _ => mret true
  | inr err => if is_not_found err then mret false else throw err
  end.

Definition remove_if_exists (path : str) : M (World N) Error bool := if_exists (remove path).
Definition rmdir_if_exists (path : str) : M (World N) Error bool := if_exists (rmdir path).

Definition rename (from to : str) : M (World N) Error unit :=
  '(from_parent, from_name) ← resolve_parent from;
  '(to_parent, to_name) ← resolve_parent to;
  _ ← self_nfs (nfs_rename from_parent from_name to_parent to_name);
  mret tt.

Definition hard_link (existing link : str) : M (World N) Error unit :=
  file ← resolve existing;
  '(link_dir, link_name) ← resolve_parent link;
  _ ← self_nfs (nfs_link file link_dir link_name);
  mret tt.

(** *** Atomic writes *)

(** [let mut created = false; let result = (|| { .. })();]: the body runs on
    the flag too, and its result is kept as a value. *)
Definition run_created {S A} (m : M (S * bool) Error A) : M S Error ((A + Error) * bool) := λ s,
  match m (s, false) with
  | ((s', created), Ok a) => (s', Ok (inl a, created))
  | ((s', created), Err e) => (s', Ok (inr e, created))
  | ((s', _), Fault f) => (s', Fault f)
  end.

(** A method that does not touch the flag. *)
Definition untouched {S A} (m : M S Error A) : M (S * bool) Error A :=
  zoom fst (λ s p, (s, p.2)) m.

Definition create_guarded_handle (path : str) (mode : Z) : M (World N * bool) Error FileHandle :=
  '(parent, name) ← untouched (resolve_parent path);
  result ← untouched (self_nfs (nfs_create parent name (CreateHow.Guarded (SetAttr.mode mode))));
  modify (λ s, (s.1, true)) ;;
  untouched (handle_from_create_result parent name result).

Definition finish_with_temp_cleanup {A} (result : A + Error) (created : bool) (temp : str)
    (cleanup_context : string) : M (World N) Error A :=
  match result with
  | inl value => mret value
  | inr err =>
      if created then
        r ← attempt (remove temp);
        throw (cleanup_error err cleanup_context r)
      else throw err
  end.

Definition write_atomic_with_mode_and_stability (path : str) (data : list byte) (mode : Z)
    (stable : StableHow) : M (World N) Error unit :=
  temp ← self_env (temporary_sibling_path path);
  '(result, created) ← run_created
    (handle ← create_guarded_handle temp mode;
     untouched (write_handle_all handle 0 data stable) ;;
     untouched (rename temp path));
  finish_with_temp_cleanup result created temp "cleanup REMOVE after failed atomic write".

Definition write_atomic (path : str) (data : list byte) : M (World N) Error unit :=
  write_atomic_with_mode_and_stability path data mode_0644 StableHow.FileSync.
Definition write_atomic_with_mode (path : str) (data : list byte) (mode : Z) : M (World N) Error unit :=
  write_atomic_with_mode_and_stability path data mode StableHow.FileSync.
Definition write_atomic_with_stability (path : str) (data : list byte) (stable : StableHow)
    : M (World N) Error unit :=
  write_atomic_with_mode_and_stability path data mode_0644 stable.

Section atomic_reader.
Context {Rd : Type} `{!Reader Rd}.

(** [create_guarded_handle] next to a local reader. *)
Definition beside {A} (m : M (World N * bool) Error A) : M (World N * Rd * bool) Error A := λ s,
  let '(w, rd, created) := s in
  let '((w', created'), o) := m (w, created) in ((w', rd, created'), o).

Definition write_atomic_from_reader_with_mode_and_stability (path : str) (mode : Z)
    (stable : StableHow) : M (World N * Rd) Error Z :=
  temp ← on_self (self_env (temporary_sibling_path path));
  '(result, created) ← run_created
    (handle ← beside (create_guarded_handle temp mode);
     written ← untouched (write_handle_from_reader handle stable);
     untouched (on_self (rename temp path)) ;;
     mret written);
  on_self (finish_with_temp_cleanup result created temp
             "cleanup REMOVE after failed atomic reader write").

Definition write_atomic_from_reader (path : str) : M (World N * Rd) Error Z :=
  write_atomic_from_reader_with_mode_and_stability path mode_0644 StableHow.FileSync.
Definition write_atomic_from_reader_with_mode (path : str) (mode : Z) : M (World N * Rd) Error Z :=
  write_atomic_from_reader_with_mode_and_stability path mode StableHow.FileSync.
Definition write_atomic_from_reader_with_stability (path : str) (stable : StableHow)
    : M (World N * Rd) Error Z :=
  write_atomic_from_reader_with_mode_and_stability path mode_0644 stable.

End atomic_reader.

(** *** Copying *)

Definition copy_handles_step (source dest : FileHandle) (stable : StableHow) (offset : Z)
    : M (World N) Error (Z + Z) :=
  read_size ← self read_size;
  chunk ← self_nfs (nfs_read source offset read_size);
  if zlen (read_data chunk) >? read_size
  then throw (read_too_long (zlen (read_data chunk)) read_size) else
  if is_empty (read_data chunk) then
    if read_eof chunk then break_ offset else throw read_no_data
  else
    write_handle_all dest offset (read_data chunk) stable ;;
    offset ← lift (advance_offset offset (zlen (read_data chunk)) "COPY");
    if read_eof chunk then break_ offset else continue_ offset.

Definition copy_handles (source dest : FileHandle) (stable : StableHow) : M (World N) Error Z :=
  loop offset_fuel (copy_handles_step source dest stable) 0.

(** [normalize_path(from)? == normalize_path(to)?]. *)
Definition ensure_distinct_paths (from to : str) : M (World N) Error unit :=
  from_components ← lift (normalize_path from);
  to_components ← lift (normalize_path to);
  if bool_decide (from_components = to_components)
  then throw (Protocol [PLit "copy source and destination must differ"])
  else mret tt.

Definition copy_with_stability (from to : str) (stable : StableHow) : M (World N) Error Z :=
  ensure_distinct_paths from to ;;
  source ← resolve from;
  source_attr ← self_nfs (nfs_getattr source);
  dest ← resolve_or_create to (Z.land (FileAttr.mode source_attr) mode_bits);
  lift (ensure_distinct_copy_handles source dest) ;;
  _ ← self_nfs (nfs_setattr dest (SetAttr.size 0));
  copy_handles source dest stable.

Definition copy (from to : str) : M (World N) Error Z := copy_with_stability from to StableHow.FileSync.

Definition copy_atomic_with_stability (from to : str) (stable : StableHow) : M (World N) Error Z :=
  ensure_distinct_paths from to ;;
  source ← resolve from;
  source_attr ← self_nfs (nfs_getattr source);
  temp ← self_env (temporary_sibling_path to);
  '(result, created) ← run_created
    (dest ← create_guarded_handle temp (Z.land (FileAttr.mode source_attr) mode_bits);
     copied ← untouched (copy_handles source dest stable);
     untouched (rename temp to) ;;
     mret copied);
  finish_with_temp_cleanup result created temp "cleanup REMOVE after failed atomic copy".

Definition copy_atomic (from to : str) : M (World N) Error Z :=
  copy_atomic_with_stability from to StableHow.FileSync.

(** *** Creating *)

Definition create_handle_new (path : str) (mode : Z) : M (World N) Error FileHandle := λ w,
  let '((w', _), o) := create_guarded_handle path mode (w, false) in (w', o).
Definition create_new (path : str) (mode : Z) : M (World N) Error unit :=
  _ ← create_handle_new path mode; mret tt.
Definition create (path : str) (mode : Z) : M (World N) Error unit := create_new path mode.
Definition create_unchecked (path : str) (mode : Z) : M (World N) Error unit :=
  _ ← create_handle_with_how path (CreateHow.Unchecked (SetAttr.mode mode)); mret tt.

Definition mkdir (path : str) (mode : Z) : M (World N) Error unit :=
  '(parent, name) ← resolve_parent path;
  _ ← self_nfs (nfs_mkdir parent name (SetAttr.mode mode));
  mret tt.

(** One component of [create_dir_all]: the handle of the directory [component]
    of [current], created if it is missing. *)
Definition create_dir_component (mode : Z) (current_path : str) (current : FileHandle)
    (component : str) : M (World N) Error FileHandle :=
  r ← attempt (self_nfs (nfs_lookup current component));
  match r with
  | inl lookup =>
      ensure_directory current_path (lookup_object lookup) (lookup_object_attributes lookup) ;;
      mret (lookup_object lookup)
  | inr err =>
      if is_nfs_status NfsStatus.NoEnt err then
        r ← attempt (self_nfs (nfs_mkdir current component (SetAttr.mode mode)));
        match r with
        | inl created =>
            match create_object created with
            | Some handle => mret handle
            | None =>
                r ← self_nfs (nfs_lookup current component);
                mret (lookup_object r)
            end
        | inr err =>
            if is_nfs_status NfsStatus.Exist err then
              lookup ← self_nfs (nfs_lookup current component);
              ensure_directory current_path (lookup_object lookup)
                (lookup_object_attributes lookup) ;;
              mret (lookup_object lookup)
            else throw err
        end
      else throw err
  end.

Fixpoint create_dirs (mode : Z) (current_path : str) (current : FileHandle) (components : list str)
    : M (World N) Error unit :=
  match components with
  | [] => mret tt
  | component :: rest =>
      let current_path := join_path current_path component in
      current ← create_dir_component mode current_path current component;
      create_dirs mode current_path current rest
  end.

Definition create_dir_all (path : str) (mode : Z) : M (World N) Error unit :=
  components ← lift (normalize_path path);
  current ← self root;
  create_dirs mode [slash] current components.

Definition symlink (path link_target : str) : M (World N) Error unit :=
  '(parent, name) ← resolve_parent path;
  _ ← self_nfs (nfs_symlink parent name link_target SetAttr.default);
  mret tt.

Definition mknod (path : str) (what : MknodData) : M (World N) Error unit :=
  '(parent, name) ← resolve_parent path;
  _ ← self_nfs (nfs_mknod parent name what);
  mret tt.

Definition create_fifo (path : str) (mode : Z) : M (World N) Error unit :=
  mknod path (MknodData.Fifo (SetAttr.mode mode)).
Definition create_socket (path : str) (mode : Z) : M (World N) Error unit :=
  mknod path (MknodData.Socket (SetAttr.mode mode)).
Definition create_block_device (path : str) (major minor mode : Z) : M (World N) Error unit :=
  mknod path (MknodData.BlockDevice (SetAttr.mode mode) (mkSpecData major minor)).
Definition create_character_device (path : str) (major minor mode : Z) : M (World N) Error unit :=
  mknod path (MknodData.CharacterDevice (SetAttr.mode mode) (mkSpecData major minor)).

(** *** Directories *)

(** READDIRPLUS, or READDIR where the server does not support it. *)
Definition read_dir_batch (dir : FileHandle) (cookie : Z) (cookieverf : list byte)
    : M (World N) Error ReadDirResult :=
  dir_size ← self dir_size;
  r ← attempt (self_nfs (nfs_readdirplus dir cookie cookieverf dir_size dir_size));
  match r with
  | inl batch => mret batch
  | inr err =>
      if is_nfs_status NfsStatus.NotSupported err
      then self_nfs (nfs_readdir dir cookie cookieverf dir_size)
      else throw err
  end.

Definition read_dir_step (dir : FileHandle) (max_entries : Z) (l : list DirEntry * DirPageCursor)
    : M (World N) Error (list DirEntry * DirPageCursor + list DirEntry) :=
  let '(entries, cursor) := l in
  batch ← read_dir_batch dir (cursor_cookie cursor) (cursor_cookieverf cursor);
  entries ← lift (append_dir_entries entries batch max_entries);
  next ← lift (next_dir_cursor batch (cursor_cookie cursor));
  match next with
  | Some next => continue_ (entries, next)
  | None => break_ entries
  end.

(** Every turn but the last adds an entry, and there are at most
    [max_entries] of them. *)
Definition read_dir_with_limit (path : str) (max_entries : Z) : M (World N) Error (list DirEntry) :=
  dir ← resolve path;
  loop (Z.to_pos (max_entries + 2)) (read_dir_step dir max_entries) ([], DirPageCursor_default).

Definition read_dir (path : str) : M (World N) Error (list DirEntry) :=
  max ← self max_dir_entries;
  read_dir_with_limit path max.

Definition read_dir_limited (path : str) (max_entries : Z) : M (World N) Error (list DirEntry) :=
  lift (validate_max_dir_entries max_entries) ;;
  max ← self max_dir_entries;
  read_dir_with_limit path (Z.min max_entries max).

Definition read_dir_page_limited (path : str) (cursor : option DirPageCursor) (max_entries : Z)
    : M (World N) Error DirPage :=
  lift (validate_max_dir_entries max_entries) ;;
  max ← self max_dir_entries;
  let max_entries := Z.min max_entries max in
  dir ← resolve path;
  let cursor := default DirPageCursor_default cursor in
  batch ← read_dir_batch dir (cursor_cookie cursor) (cursor_cookieverf cursor);
  lift (dir_page_from_batch batch (cursor_cookie cursor) max_entries).

Definition read_dir_page (path : str) (cursor : option DirPageCursor) : M (World N) Error DirPage :=
  max ← self max_dir_entries;
  read_dir_page_limited path cursor max.

(** *** Recursive removal *)

Inductive RemoveTask :=
  | Visit (path : str) (file_type : option FileType.FileType)
  | RemoveDir (path : str).

(** The children of [path], pushed in reverse so that the first is on top. *)
Definition push_children (path : str) (entries : list DirEntry) (stack : list RemoveTask)
    : list RemoveTask :=
  fold_left (λ stack entry,
    if bool_decide (dir_name entry = [dot]) || bool_decide (dir_name entry = [dot; dot]) then stack
    else Visit (join_path path (dir_name entry)) (FileAttr.file_type <$> dir_attributes entry) :: stack)
    (rev entries) stack.

(** One turn of the loop; the top of the stack is its head. *)
Definition remove_all_step (stack : list RemoveTask) : M (World N) Error (list RemoveTask + unit) :=
  match stack with
  | [] => break_ tt
  | Visit path t :: stack =>
      t ← match t with
          | Some t => mret t
          | None => attr ← metadata path; mret (FileAttr.file_type attr)
          end;
      if bool_decide (t = FileType.Directory) then
        entries ← read_dir path;
        continue_ (push_children path entries (RemoveDir path :: stack))
      else
        remove path ;;
        continue_ stack
  | RemoveDir path :: stack =>
      rmdir path ;;
      continue_ stack
  end.

(** [fuel] bounds the number of tasks: how many there are is up to the server. *)
Definition remove_all (fuel : positive) (path : str) : M (World N) Error unit :=
  components ← lift (normalize_path path);
  if is_empty components then throw (InvalidPath path) else
  attr ← metadata path;
  loop fuel remove_all_step [Visit path (Some (FileAttr.file_type attr))].

Definition remove_all_if_exists (fuel : positive) (path : str) : M (World N) Error bool :=
  if_exists (remove_all fuel path).

End client.

End Client.
