(* ===== verification/V3BlockingSpec.v ===== *)
(** * The path-oriented client against every server

    Proved from the promises of the interface alone ([Nfs3Laws]), so for
    every behaviour of the server: no method faults, every transfer loop ends
    within its fuel, the client's configuration is never changed, and ranges
    and listings respect their limits. *)

From Stdlib Require Import Strings.String Strings.Byte.
From S2P Require Import Prelude Text Xdr Status Errors Rpc V3Proto V3Calls V3Client V3ClientSpec.
From S2P Require Import V3Blocking.
Import FileHandle (FileHandle).
Import StableHow (StableHow).

#[local] Open Scope Z_scope.

(** ** Methods that keep the client well-formed *)

Definition set_nfs {N} (n : N) (w : World N) : World N :=
  let c := client w in
  mkWorld (mkClient (builder c) (target c) (auth c) (mount_port c) (root c) n (fsinfo c)
             (read_size c) (write_size c) (dir_size c) (max_dir_entries c)) (env w).

Lemma set_nfs_set {N} (n n' : N) w : set_nfs n (set_nfs n' w) = set_nfs n w.
Proof. done. Qed.

Lemma set_nfs_same {N} (w : World N) : set_nfs (nfs (client w)) w = w.
Proof. by destruct w as [[] ?]. Qed.

Lemma post_self_nfs {N A} (m : M N Error A) (w : World N) Q X :
  post m (nfs (client w)) (λ a n, Q a (set_nfs n w)) (λ e n, X e (set_nfs n w)) →
  post (Client.self_nfs m) w Q X.
Proof.
  unfold post, Client.self_nfs, zoom. by destruct (m (nfs (client w))) as [n [a|e|f]].
Qed.

Lemma post_lift {S E A} (o : outcome E A) (s : S) Q (X : E → S → Prop) :
  match o with Ok a => Q a s | Err e => X e s | Fault _ => False end → post (lift o) s Q X.
Proof. unfold post, lift. by destruct o. Qed.

Lemma post_attempt {S E F A} (m : M S E A) s (Q : A + E → S → Prop) (X : F → S → Prop) :
  post m s (λ a s', Q (inl a) s') (λ e s', Q (inr e) s') → post (attempt m) s Q X.
Proof. unfold post, attempt. by destruct (m s) as [s' [a|e|f]]. Qed.

Section any_server.
Context {N : Type} `{!Nfs3 N, !Nfs3Laws N}.

(** The sizes a connected client works with. *)
Record sizes_ok (c : Client N) : Prop := mk_sizes_ok {
  read_size_ok : 1 ≤ read_size c ≤ MAX_IO_BYTES;
  write_size_ok : 1 ≤ write_size c ≤ MAX_IO_BYTES;
  max_dir_entries_ok : 1 ≤ max_dir_entries c < usize_max;
}.

Definition world_ok (w : World N) : Prop := nfs_inv (nfs (client w)) ∧ sizes_ok (client w).

(** [w'] differs from [w] in the connection and the temporary-name state only. *)
Definition same_client (w w' : World N) : Prop :=
  client w' = client (set_nfs (nfs (client w')) w).

#[export] Instance same_client_preorder : PreOrder same_client.
Proof.
  split.
  - intros w. unfold same_client. by rewrite set_nfs_same.
  - intros w1 w2 w3 H12 H23. unfold same_client in *. rewrite H23. cbn. by rewrite H12.
Qed.

Definition step_ok (w w' : World N) : Prop := same_client w w' ∧ world_ok w'.

#[export] Instance step_ok_trans : Transitive step_ok.
Proof. intros w1 w2 w3 [H1 _] [H2 ?]. split; [by etrans|done]. Qed.

Lemma step_ok_refl w : world_ok w → step_ok w w.
Proof. by split. Qed.

Lemma step_ok_set_nfs w n : world_ok w → nfs_inv n → step_ok w (set_nfs n w).
Proof. intros [_ Hs] Hn. split; [done|]. split; [done|]. destruct Hs. by split. Qed.

Lemma same_client_sizes w w' :
  same_client w w' →
  read_size (client w') = read_size (client w) ∧ write_size (client w') = write_size (client w)
  ∧ max_dir_entries (client w') = max_dir_entries (client w) ∧ root (client w') = root (client w)
  ∧ dir_size (client w') = dir_size (client w).
Proof. unfold same_client. by intros ->. Qed.

(** [safe_at π m Q]: started in a state whose world [π s] is good, [m] does not
    fault, keeps the client and returns a value in [Q]. *)
Definition safe_at {S A} (π : S → World N) (m : M S Error A) (Q : A → Prop) : Prop :=
  ∀ s, world_ok (π s) →
    post m s (λ a s', Q a ∧ step_ok (π s) (π s')) (λ _ s', step_ok (π s) (π s')).

Section combinators.
Context {S : Type} {π : S → World N}.

Lemma safe_ret {A} (a : A) (Q : A → Prop) : Q a → safe_at π (mret a) Q.
Proof. intros Ha s Hs. by split; [|apply step_ok_refl]. Qed.

Lemma safe_throw {A} e (Q : A → Prop) : safe_at π (throw e) Q.
Proof. intros s Hs. by apply step_ok_refl. Qed.

Lemma safe_bind {A B} (m : M S Error A) (k : A → M S Error B) Q R :
  safe_at π m Q → (∀ a, Q a → safe_at π (k a) R) → safe_at π (m ≫= k) R.
Proof.
  intros Hm Hk s Hs. apply post_bind. eapply post_mono; [by apply Hm|cbv beta|done].
  intros a s1 [Ha Hs1]. eapply post_mono; [apply (Hk a Ha s1), Hs1|cbv beta|].
  - intros b s2 [Hb Hs2]. split; [done|by etrans].
  - intros e s2 Hs2. by etrans.
Qed.

Lemma safe_mono {A} (m : M S Error A) (Q R : A → Prop) :
  safe_at π m Q → (∀ a, Q a → R a) → safe_at π m R.
Proof. intros Hm HQ s Hs. eapply post_mono; [by apply Hm| |done]. intros a s' []. auto. Qed.

Lemma safe_lift {A} (o : outcome Error A) (Q : A → Prop) :
  fault_free o → (∀ a, o = Ok a → Q a) → safe_at π (lift o) Q.
Proof.
  intros Hf HQ s Hs. apply post_lift. pose proof (step_ok_refl _ Hs).
  destruct o as [a|e|f]; [by split; [apply HQ|]|done|by destruct (Hf f)].
Qed.

Lemma safe_attempt {A} (m : M S Error A) (Q : A → Prop) :
  safe_at π m Q → safe_at π (attempt m) (λ r, match r with inl a => Q a | inr _ => True end).
Proof.
  intros Hm s Hs. apply post_attempt. eapply post_mono; [by apply Hm| |]; cbv beta; intros; naive_solver.
Qed.

Lemma safe_if {A} (b : bool) (m1 m2 : M S Error A) Q :
  safe_at π m1 Q → safe_at π m2 Q → safe_at π (if b then m1 else m2) Q.
Proof. by destruct b. Qed.

(** A loop whose variables satisfy [I] and whose measure decreases. *)
Lemma safe_loop {L A} (I : L → Prop) (μ : L → Z) (body : L → M S Error (L + A)) Q fuel l :
  (∀ l, I l → 0 ≤ μ l) →
  (∀ l, I l → safe_at π (body l) (λ r, match r with inl l' => I l' ∧ μ l' < μ l | inr a => Q a end)) →
  I l → μ l < Zpos fuel → safe_at π (loop fuel body l) Q.
Proof.
  intros Hnn Hbody Hl Hf s Hs.
  apply (post_loop (λ l s', I l ∧ step_ok (π s) (π s')) (λ l _, μ l)).
  - intros l' s' [? _]. auto.
  - intros l' s' [Hl' Hs']. eapply post_mono; [apply (Hbody l' Hl' s'), Hs'|cbv beta|].
    + intros [l2|a] s2 [Hr Hs2]; [|split; [done|by etrans]].
      destruct Hr. split; [split; [done|by etrans]|done].
    + intros e s2 Hs2. by etrans.
  - split; [done|by apply step_ok_refl].
  - done.
Qed.

Lemma advance_offset_fault_free o a op : fault_free (advance_offset o a op).
Proof. unfold advance_offset, checked_add. by repeat case_match. Qed.

Lemma safe_advance o a op :
  0 ≤ a ≤ usize_max → safe_at π (lift (advance_offset o a op)) (λ o', o' = o + a ∧ o + a ≤ u64_max).
Proof.
  intros Ha. apply safe_lift; [apply advance_offset_fault_free|].
  intros o' H. by apply advance_offset_Ok in H.
Qed.

End combinators.

(** Methods of the client alone. *)
Definition safe {A} (m : M (World N) Error A) (Q : A → Prop) : Prop := safe_at (λ w, w) m Q.

Lemma safe_nfs {A} (m : M N Error A) (Q : A → Prop) : keeps m Q → safe (Client.self_nfs m) Q.
Proof.
  intros Hm w Hw. apply post_self_nfs. eapply post_mono; [apply Hm, Hw|cbv beta|].
  - intros a n [Ha Hn]. split; [done|by apply step_ok_set_nfs].
  - intros e n Hn. by apply step_ok_set_nfs.
Qed.

(** The value of a field, and its bounds. *)
Lemma safe_self {A} (g : Client N → A) (Q : A → Prop) :
  (∀ w, world_ok w → Q (g (client w))) → safe (Client.self g) Q.
Proof. intros HQ w Hw. split; [by apply HQ|by apply step_ok_refl]. Qed.

Lemma safe_env {A} (m : M TempEnv Error A) (Q : A → Prop) :
  (∀ e, post m e (λ a _, Q a) (λ _ _, True)) → safe (Client.self_env m) Q.
Proof.
  intros Hm w Hw. specialize (Hm (env w)). unfold post, Client.self_env, zoom in *.
  assert (∀ e', step_ok w (mkWorld (client w) e')) as Hs.
  { intros e'. split; [|done]. unfold same_client. cbn. by destruct (client w). }
  by destruct (m (env w)) as [e' [a|e|f]].
Qed.

(** Next to a local reader or writer. *)
Lemma safe_on_self {Wr A} (m : M (World N) Error A) (Q : A → Prop) :
  safe m Q → safe_at (S := World N * Wr) fst (Client.on_self m) Q.
Proof.
  intros Hm [w wr] Hw. specialize (Hm w Hw). unfold post, Client.on_self, zoom in *. cbn in *.
  by destruct (m w) as [w' [a|e|f]].
Qed.

(** ** Resolution *)

Lemma safe_walk components current : safe (Client.walk current components) (λ _, True).
Proof.
  revert current; induction components as [|c cs IH]; intros current; cbn [Client.walk].
  - by apply safe_ret.
  - eapply safe_bind; [apply safe_nfs, keeps_lookup|]. intros r _. apply IH.
Qed.

Lemma safe_normalize path : safe (lift (normalize_path path)) (λ cs, Forall clean cs ∧ path ≠ []).
Proof.
  apply safe_lift; [apply normalize_path_fault_free|].
  intros cs (Hne & -> & Ha)%normalize_path_Ok. split; [by apply components_clean|done].
Qed.

Lemma safe_resolve path : safe (Client.resolve path) (λ _, True).
Proof.
  unfold Client.resolve. eapply safe_bind; [apply safe_normalize|]. intros cs _.
  eapply safe_bind; [by apply (safe_self _ (λ _, True))|]. intros fh _. apply safe_walk.
Qed.

Lemma safe_ok_or {A} e (o : option A) : safe (lift (ok_or e o)) (λ a, o = Some a).
Proof. apply safe_lift; destruct o; cbn; try done. by intros a' [= <-]. Qed.

Lemma safe_resolve_parent path : safe (Client.resolve_parent path) (λ r, clean r.2).
Proof.
  unfold Client.resolve_parent. eapply safe_bind; [apply safe_normalize|]. intros cs [Hcs _].
  eapply safe_bind; [apply safe_ok_or|]. intros [parent name] Hp.
  apply pop_Some in Hp. subst cs. apply Forall_app in Hcs as [_ Hn].
  inversion_clear Hn as [|?? Hname _].
  eapply safe_bind; [by apply (safe_self _ (λ _, True))|]. intros fh _.
  eapply safe_bind; [apply safe_walk|]. intros fh' _. by apply safe_ret.
Qed.

(** ** Reading *)

Lemma is_empty_spec {A} (l : list A) : is_empty l = true ↔ l = [].
Proof. by destruct l. Qed.

Lemma is_empty_false {A} (l : list A) : is_empty l = false → 0 < zlen l.
Proof. destruct l; [done|]. rewrite zlen_cons. pose proof (zlen_nonneg l). lia. Qed.

Lemma safe_read_size : safe (Client.self read_size) (λ s, 1 ≤ s ≤ MAX_IO_BYTES).
Proof. apply safe_self. intros w [_ []]. done. Qed.
Lemma safe_write_size : safe (Client.self write_size) (λ s, 1 ≤ s ≤ MAX_IO_BYTES).
Proof. apply safe_self. intros w [_ []]. done. Qed.

Lemma safe_read_handle_to_end handle : safe (Client.read_handle_to_end handle) (λ _, True).
Proof.
  unfold Client.read_handle_to_end.
  apply (safe_loop (λ l, 0 ≤ l.1 ≤ u64_max) (λ l, u64_max - l.1)); [intros l Hl; cbv beta in *; lia| |done|done].
  intros [offset out] Hl. unfold Client.read_handle_to_end_step.
  eapply safe_bind; [apply safe_read_size|]. intros size Hsize. cbv beta in Hsize.
  eapply safe_bind; [apply safe_nfs, keeps_read; lia|]. intros chunk (Hc & Hle & Heof).
  destruct (_ >? size); [apply safe_throw|].
  destruct (is_empty (read_data chunk)) eqn:He.
  { destruct (read_eof chunk); [by apply safe_ret|apply safe_throw]. }
  apply is_empty_false in He. unfold MAX_IO_BYTES in Hsize.
  eapply safe_bind; [apply safe_advance; int_unfold; lia|]. intros o' [-> Ho]. cbn in Hl.
  destruct (read_eof chunk); apply safe_ret; [done|cbn; lia].
Qed.

(** ** Writing *)

Lemma safe_write_handle_all handle offset data stable :
  zlen data ≤ isize_max → safe (Client.write_handle_all handle offset data stable) (λ _, True).
Proof.
  intros Hlen. unfold Client.write_handle_all. pose proof (zlen_nonneg data).
  apply (safe_loop (λ l, zlen l.2 ≤ isize_max) (λ l, zlen l.2)); [|  |done|cbn; lia].
  { intros l _. apply zlen_nonneg. }
  intros [off d] Hd. cbn in Hd. unfold Client.write_handle_all_step.
  destruct (is_empty d) eqn:He; [by apply safe_ret|]. apply is_empty_false in He.
  eapply safe_bind; [apply safe_write_size|]. intros size Hsize. cbv beta in Hsize.
  eapply safe_bind; [apply safe_nfs, keeps_write|]. intros r Hr.
  assert (zlen (ztake (Z.min (zlen d) size) d) = Z.min (zlen d) size) as Hz by (apply zlen_take; lia).
  unfold write_ok in Hr. rewrite Hz in Hr. destruct Hr as [Hc Hpos].
  destruct (_ =? 0); [apply safe_throw|]. destruct (_ >? _); [apply safe_throw|].
  apply (safe_bind _ _ (λ _, True)).
  { apply safe_if; [|by apply safe_ret].
    eapply safe_bind; [apply safe_nfs, keeps_commit|]. intros commit _.
    apply safe_if; [apply safe_throw|by apply safe_ret]. }
  intros _ _. eapply safe_bind; [apply safe_advance; int_unfold; lia|]. intros o' [-> Ho].
  apply safe_ret. cbn. rewrite zlen_drop by lia. lia.
Qed.

Lemma safe_copy_handles source dest stable : safe (Client.copy_handles source dest stable) (λ _, True).
Proof.
  unfold Client.copy_handles.
  apply (safe_loop (λ o, 0 ≤ o ≤ u64_max) (λ o, u64_max - o)); [intros l Hl; cbv beta in *; lia| |done|done].
  intros offset Hl. unfold Client.copy_handles_step.
  eapply safe_bind; [apply safe_read_size|]. intros size Hsize. cbv beta in Hsize.
  eapply safe_bind; [apply safe_nfs, keeps_read; lia|]. intros chunk (Hc & Hle & Heof).
  destruct (_ >? size); [apply safe_throw|].
  destruct (is_empty (read_data chunk)) eqn:He.
  { destruct (read_eof chunk); [by apply safe_ret|apply safe_throw]. }
  apply is_empty_false in He. unfold MAX_IO_BYTES in Hsize.
  eapply safe_bind; [apply safe_write_handle_all; int_unfold; lia|]. intros _ _.
  eapply safe_bind; [apply safe_advance; int_unfold; lia|]. intros o' [-> Ho].
  destruct (read_eof chunk); apply safe_ret; [done|lia].
Qed.

Lemma post_on_self {Wr A} (m : M (World N) Error A) (Q : A → Prop) w (wr : Wr) :
  safe m Q → world_ok w →
  post (Client.on_self m) (w, wr) (λ a s, Q a ∧ step_ok w s.1 ∧ s.2 = wr) (λ _ s, step_ok w s.1).
Proof.
  intros Hm Hw. specialize (Hm w Hw). unfold post, Client.on_self, zoom in *. cbn in *.
  destruct (m w) as [w' [a|e|f]]; [|done|done]. naive_solver.
Qed.

Section writers.
Context {Wr : Type} `{!Writer Wr, !WriterLaws Wr}.

Lemma safe_write_out bs : safe_at (S := World N * Wr) fst (Client.write_out bs) (λ _, True).
Proof.
  intros [w wr] Hw. pose proof (writer_fault_free bs wr) as Hf.
  unfold post, Client.write_out, map_err, zoom. cbn.
  pose proof (step_ok_refl _ Hw).
  by destruct (writer_write_all bs wr) as [wr' [[]|e|f]]; [| |destruct (Hf f)].
Qed.

(** Streaming a whole file ends, whatever the server sends. *)
Lemma safe_read_handle_to_writer handle :
  safe_at (S := World N * Wr) fst (Client.read_handle_to_writer handle) (λ _, True).
Proof.
  unfold Client.read_handle_to_writer.
  apply (safe_loop (λ l, 0 ≤ l.1 ≤ u64_max ∧ l.2 = l.1) (λ l, u64_max - l.1));
    [intros l Hl; cbv beta in *; lia| |done|done].
  intros [offset total] [Hl Heq]. cbn in Hl, Heq. unfold Client.read_handle_to_writer_step.
  eapply safe_bind; [apply safe_on_self, safe_read_size|]. intros size Hsize. cbv beta in Hsize.
  eapply safe_bind; [apply safe_on_self, safe_nfs, keeps_read; lia|]. intros chunk (Hc & Hle & Heof).
  destruct (_ >? size); [apply safe_throw|].
  destruct (is_empty (read_data chunk)) eqn:He.
  { destruct (read_eof chunk); [by apply safe_ret|apply safe_throw]. }
  apply is_empty_false in He. unfold MAX_IO_BYTES in Hsize.
  eapply safe_bind; [apply safe_write_out|]. intros _ _.
  eapply safe_bind; [apply safe_advance; int_unfold; lia|]. intros o' [-> Ho].
  eapply safe_bind; [apply safe_advance; int_unfold; lia|]. intros t' [-> Ht].
  destruct (read_eof chunk); apply safe_ret; [done|cbn; lia].
Qed.

End writers.

Lemma wrap_u32_small z : is_u32 z → wrap_u32 z = z.
Proof. intros H. apply Z.mod_small. int_unfold; lia. Qed.

(** Reading a range into memory: at most [count] bytes come back. *)
Lemma post_read_handle_range handle offset count w :
  world_ok w → 0 ≤ count ≤ u64_max →
  post (Client.read_handle_range handle offset count) w
    (λ data w', zlen data ≤ count ∧ step_ok w w') (λ _ w', step_ok w w').
Proof.
  intros Hw Hcount.
  assert (post (Client.read_handle_range_to_writer handle offset count) (w, [])
            (λ _ s, zlen s.2 ≤ count ∧ step_ok w s.1) (λ _ s, step_ok w s.1)) as H.
  2: { unfold post, Client.read_handle_range, Client.into_vec in *.
       destruct (Client.read_handle_range_to_writer _ _ _ _) as [[w' out] [a|e|f]]; naive_solver. }
  unfold Client.read_handle_range_to_writer.
  apply (post_loop (λ l s, step_ok w s.1 ∧ 0 ≤ l.1.2 ∧ zlen s.2 + l.1.2 = count) (λ l _, l.1.2));
    [intros; cbv beta in *; lia| | |cbn; lia].
  2: { split; [by apply step_ok_refl|]. cbn. change (zlen (@nil byte)) with 0. lia. }
  intros [[off rem] total] [w1 out] (Hs & Hrem & Hsum). cbn in Hs, Hrem, Hsum.
  unfold Client.read_handle_range_to_writer_step.
  destruct (Z.gtb_spec rem 0); cbn [negb].
  2: { apply post_ret. cbn. split; [lia|done]. }
  apply post_bind. eapply post_mono; [apply post_on_self; [apply safe_read_size|apply Hs]| |].
  2: { intros e s Hs'. by etrans. }
  intros size [w2 out2] (Hsize & Hs2 & Hout2). cbn in *. subst out2.
  unfold MAX_IO_BYTES in Hsize. rewrite wrap_u32_small by (int_unfold; lia).
  apply post_bind.
  eapply post_mono; [apply post_on_self; [apply safe_nfs, keeps_read; lia|apply Hs2]| |].
  2: { intros e s Hs'. etrans; [exact Hs|]. by etrans. }
  intros chunk [w3 out3] ((Hc & Hle & Heof) & Hs3 & Hout3). cbn in Hs3, Hout3. subst out3.
  assert (step_ok w w3) as Hw3 by (etrans; [exact Hs|]; by etrans).
  destruct (_ >? _); [by apply post_throw|].
  destruct (is_empty (read_data chunk)) eqn:He.
  { destruct (read_eof chunk); [apply post_ret; cbn; split; [lia|done]|by apply post_throw]. }
  apply is_empty_false in He.
  apply post_bind. unfold post at 1, Client.write_out, map_err, zoom. cbn.
  apply post_bind, post_lift.
  destruct (advance_offset_cases off (zlen (read_data chunk)) "READ") as [[_ ->]|[_ ->]];
    [int_unfold; lia| |done].
  apply post_bind, post_lift.
  destruct (advance_offset_cases total (zlen (read_data chunk)) "READ total") as [[_ ->]|[_ ->]];
    [int_unfold; lia| |done].
  destruct (read_eof chunk); apply post_ret; cbn; rewrite zlen_app; [split; [lia|done]|].
  split; [split; [done|lia]|lia].
Qed.

Section readers.
Context {Rd : Type} `{!Reader Rd, !ReaderLaws Rd}.

Lemma safe_read_in n : 0 ≤ n → safe_at (S := World N * Rd) fst (Client.read_in n) (λ bs, zlen bs ≤ n).
Proof.
  intros Hn [w rd] Hw. pose proof (reader_fault_free n rd) as Hf. pose proof (step_ok_refl _ Hw).
  unfold post, Client.read_in, map_err, zoom. cbn.
  destruct (reader_read n rd) as [rd' [bs|e|f]] eqn:Heq; [|done|by destruct (Hf f)].
  split; [by eapply reader_bound|done].
Qed.

(** Uploading from a reader ends: the 64-bit offset runs out before an endless
    reader does. *)
Lemma safe_write_handle_from_reader_at handle offset stable :
  0 ≤ offset ≤ u64_max →
  safe_at (S := World N * Rd) fst (Client.write_handle_from_reader_at handle offset stable) (λ _, True).
Proof.
  intros Hoff. unfold Client.write_handle_from_reader_at.
  apply (safe_loop (λ l, 0 ≤ l.1 ≤ u64_max ∧ 0 ≤ l.2 ≤ l.1) (λ l, u64_max - l.1));
    [intros l Hl; cbv beta in *; lia| |cbn; lia|cbn; unfold Client.offset_fuel; int_unfold; lia].
  intros [off written] [Hl Hwr]. cbn in Hl, Hwr. unfold Client.write_handle_from_reader_at_step.
  eapply safe_bind; [apply safe_on_self, safe_write_size|]. intros size Hsize.
  cbv beta in *. eapply safe_bind; [apply safe_read_in; lia|]. intros buffer Hb. cbv beta in *.
  unfold MAX_IO_BYTES in Hsize. pose proof (zlen_nonneg buffer).
  destruct (Z.eqb_spec (zlen buffer) 0); [by apply safe_ret|].
  eapply safe_bind; [apply safe_on_self, safe_write_handle_all; int_unfold; lia|]. intros _ _.
  eapply safe_bind; [apply safe_advance; int_unfold; lia|]. intros o' [-> Ho].
  eapply safe_bind; [apply safe_advance; int_unfold; lia|]. intros t' [-> Ht].
  apply safe_ret. cbn. lia.
Qed.

End readers.

(** ** Directories *)

Lemma safe_read_dir_batch dir cookie verf : safe (Client.read_dir_batch dir cookie verf) (λ _, True).
Proof.
  unfold Client.read_dir_batch.
  eapply safe_bind; [by apply (safe_self _ (λ _, True))|]. intros size _.
  eapply safe_bind; [apply safe_attempt, safe_nfs, keeps_readdirplus|].
  intros [batch|err] _; [by apply safe_ret|].
  apply safe_if; [apply safe_nfs, keeps_readdir|apply safe_throw].
Qed.

Lemma append_dir_entries_fault_free out batch max : fault_free (append_dir_entries out batch max).
Proof. unfold append_dir_entries. by case_match. Qed.

(** A listing ends and respects its limit, whatever the server sends. *)
Lemma safe_read_dir_with_limit path max :
  0 ≤ max < usize_max → safe (Client.read_dir_with_limit path max) (λ l, zlen l ≤ max).
Proof.
  intros Hmax. unfold Client.read_dir_with_limit.
  eapply safe_bind; [apply safe_resolve|]. intros dir _.
  apply (safe_loop (λ l, zlen l.1 ≤ max) (λ l, max - zlen l.1));
    [intros l Hl; cbv beta in *; lia| |cbn; rewrite zlen_nil; lia|cbn; rewrite zlen_nil; lia].
  intros [entries cursor] Hl. cbn in Hl. unfold Client.read_dir_step.
  eapply safe_bind; [apply safe_read_dir_batch|]. intros batch _.
  apply (safe_bind _ _ (λ out, zlen out ≤ max
                         ∧ zlen out = zlen entries + zlen (readdir_entries batch))).
  { apply safe_lift; [apply append_dir_entries_fault_free|]. intros out Hout.
    unfold append_dir_entries, saturating_add in Hout.
    destruct (Z.gtb_spec (Z.min (zlen entries + zlen (readdir_entries batch)) usize_max) max); [done|].
    injection Hout as <-. rewrite zlen_app, zlen_fmap. lia. }
  intros out [Hout Hlen].
  apply (safe_bind _ _ (λ next, next ≠ None → readdir_entries batch ≠ [])).
  { apply safe_lift; [apply next_dir_cursor_fault_free|]. intros [next|] Hn; [|done].
    apply next_dir_cursor_advances in Hn as [Hn _]. done. }
  intros [next|] Hne; [|by apply safe_ret]. apply safe_ret. cbn. specialize (Hne ltac:(done)).
  assert (zlen (readdir_entries batch) ≠ 0) by (intros ?%zlen_zero; done).
  pose proof (zlen_nonneg (readdir_entries batch)). lia.
Qed.

Lemma safe_read_dir path : safe (Client.read_dir path) (λ _, True).
Proof.
  unfold Client.read_dir.
  eapply safe_bind; [apply (safe_self max_dir_entries (λ m, 0 ≤ m < usize_max))|].
  { intros w [_ []]. lia. }
  intros m Hm. eapply safe_mono; [by apply safe_read_dir_with_limit|done].
Qed.

(** ** Recursive removal *)

Lemma safe_remove path : safe (Client.remove path) (λ _, True).
Proof.
  unfold Client.remove. eapply safe_bind; [apply safe_resolve_parent|]. intros [parent name] _.
  eapply safe_bind; [apply safe_nfs, keeps_remove|]. intros r _. by apply safe_ret.
Qed.

Lemma safe_rmdir path : safe (Client.rmdir path) (λ _, True).
Proof.
  unfold Client.rmdir. eapply safe_bind; [apply safe_resolve_parent|]. intros [parent name] _.
  eapply safe_bind; [apply safe_nfs, keeps_rmdir|]. intros r _. by apply safe_ret.
Qed.

(** Every task of a run that has not failed before keeps the client good. *)
Lemma safe_remove_all_step stack :
  safe (Client.remove_all_step stack) (λ _, True).
Proof.
  destruct stack as [|[p t|p] stack]; cbn [Client.remove_all_step].
  - by apply safe_ret.
  - apply (safe_bind _ _ (λ _, True)).
    { destruct t; [by apply safe_ret|]. unfold Client.metadata, Client.getattr.
      eapply safe_bind; [|intros; by apply safe_ret].
      eapply safe_bind; [apply safe_resolve|]. intros fh _. apply safe_nfs, keeps_getattr. }
    intros t' _. apply safe_if.
    + eapply safe_bind; [apply safe_read_dir|intros; by apply safe_ret].
    + eapply safe_bind; [apply safe_remove|intros; by apply safe_ret].
  - eapply safe_bind; [apply safe_rmdir|intros; by apply safe_ret].
Qed.

End any_server.
