(* ===== verification/V3Store.v ===== *)
(** * Whole-file operations against a file store

    [FileStore] is what an NFSv3 server promises about file contents: a READ
    returns a prefix of what lies behind the offset and flags the end, a WRITE
    stores a non-empty prefix of the data at the offset, COMMIT and LOOKUP
    change nothing.  It leaves the server free to serve and accept fewer bytes
    than asked, to report any stability, and to fail with errors of its own
    ([store_fails]).  Against it, [read_handle_to_end] returns the contents,
    [write_handle_all] stores the data at its place, [copy_handles] makes the
    target equal to the source, and writing then reading a path gives the data
    back (src/src/v3/blocking.rs).  With [store_fails := λ _, False] these are
    total-correctness statements. *)

From Stdlib Require Import Strings.String Strings.Byte.
From S2P Require Import Prelude Text Xdr Status Errors Rpc V3Proto V3Calls V3Client V3ClientSpec.
From S2P Require Import V3Blocking V3BlockingSpec.
Import FileHandle (FileHandle).
Import StableHow (StableHow).

#[local] Open Scope Z_scope.

(** ** Contents *)

Definition zeros (n : Z) : list byte := replicate (Z.to_nat n) x00.

(** [c] with [d] written at [off]; a gap before [off] reads as zeros. *)
Definition splice (c : list byte) (off : Z) (d : list byte) : list byte :=
  match d with
  | [] => c
  | _ => ztake off c ++ zeros (off - zlen c) ++ d ++ zdrop (off + zlen d) c
  end.

Lemma splice_cons c off b d :
  splice c off (b :: d)
  = (ztake off c ++ zeros (off - zlen c)) ++ (b :: d) ++ zdrop (off + zlen (b :: d)) c.
Proof. unfold splice. by rewrite <- app_assoc. Qed.

Lemma zlen_zeros n : zlen (zeros n) = Z.max 0 n.
Proof. unfold zeros. rewrite zlen_replicate. lia. Qed.

Lemma zlen_ztake_min {A} n (l : list A) : 0 ≤ n → zlen (ztake n l) = Z.min n (zlen l).
Proof. intros Hn. unfold zlen, ztake. rewrite length_take. lia. Qed.

Lemma zlen_gap c off : 0 ≤ off → zlen (ztake off c ++ zeros (off - zlen c)) = off.
Proof.
  intros Ho. rewrite zlen_app, zlen_zeros, zlen_ztake_min by done. pose proof (zlen_nonneg c). lia.
Qed.

Lemma zdrop_app_ge {A} n (l k : list A) : zlen l ≤ n → zdrop n (l ++ k) = zdrop (n - zlen l) k.
Proof.
  intros Hn. unfold zdrop, zlen in *. rewrite drop_app_ge by lia. f_equal. lia.
Qed.

(** Writing in two pieces is writing at once. *)
Lemma splice_app c off d1 d2 :
  0 ≤ off → splice (splice c off d1) (off + zlen d1) d2 = splice c off (d1 ++ d2).
Proof.
  intros Ho. destruct d1 as [|b1 d1]; [cbn; by rewrite Z.add_0_r|].
  destruct d2 as [|b2 d2]; [by rewrite app_nil_r|].
  rewrite (splice_cons c). set (pre := ztake off c ++ zeros (off - zlen c)).
  assert (zlen pre = off) as Hpre by by apply zlen_gap.
  set (p1 := b1 :: d1). set (p2 := b2 :: d2).
  change (splice c off (p1 ++ p2))
    with (ztake off c ++ zeros (off - zlen c) ++ (p1 ++ p2) ++ zdrop (off + zlen (p1 ++ p2)) c).
  set (tl := zdrop (off + zlen p1) c).
  change (splice ?c' ?o p2) with (ztake o c' ++ zeros (o - zlen c') ++ p2 ++ zdrop (o + zlen p2) c').
  rewrite (app_assoc pre p1 tl).
  rewrite (ztake_app_eq _ (pre ++ p1)) by (rewrite zlen_app; lia).
  assert (zeros (off + zlen p1 - zlen ((pre ++ p1) ++ tl)) = []) as ->.
  { unfold zeros. rewrite !zlen_app. pose proof (zlen_nonneg tl).
    by replace (Z.to_nat _) with 0%nat by lia. }
  rewrite (zdrop_app_ge _ (pre ++ p1)) by (rewrite zlen_app; pose proof (zlen_nonneg p2); lia).
  subst tl. pose proof (zlen_nonneg p1). pose proof (zlen_nonneg p2).
  rewrite zdrop_zdrop by (rewrite ?zlen_app; lia).
  replace (off + zlen p1 + (off + zlen p1 + zlen p2 - zlen (pre ++ p1)))
    with (off + zlen (p1 ++ p2)) by (rewrite !zlen_app; lia).
  subst pre. by rewrite <- !app_assoc.
Qed.

(** Writing over an empty file. *)
Lemma splice_empty d : splice [] 0 d = d.
Proof. destruct d as [|b d]; [done|]. unfold splice. rewrite zdrop_all by (rewrite zlen_nil; zlen_lia). by rewrite app_nil_r. Qed.

(** Appending at the end. *)
Lemma splice_end c d : splice c (zlen c) d = c ++ d.
Proof.
  destruct d as [|b d]; [by rewrite app_nil_r|]. unfold splice.
  rewrite ztake_all, zdrop_all, Z.sub_diag, app_nil_r by zlen_lia. done.
Qed.

(** ** The contract *)

Class FileStore (N : Type) `{!Nfs3 N} := {
  store_inv : N → Prop;
  contents : N → FileHandle → option (list byte);
  entries_of : N → FileHandle → str → option FileHandle;
  boot_verf : N → list byte;
  store_fails : Error → Prop;

  store_read n fh off count c :
    store_inv n → contents n fh = Some c → 0 ≤ off → 0 < count →
    post (nfs_read fh off count) n
      (λ r n', (store_inv n' ∧ contents n' = contents n ∧ entries_of n' = entries_of n
                ∧ boot_verf n' = boot_verf n)
         ∧ zlen (read_data r) ≤ count
         ∧ read_data r = ztake (zlen (read_data r)) (zdrop off c)
         ∧ (read_data r = [] → read_eof r = true)
         ∧ (read_eof r = true → zlen c ≤ off + zlen (read_data r)))
      (λ e _, store_fails e);

  store_write n fh off stable data c :
    store_inv n → contents n fh = Some c → 0 ≤ off → 0 < zlen data ≤ MAX_IO_BYTES →
    post (nfs_write fh off stable data) n
      (λ r n', (store_inv n' ∧ entries_of n' = entries_of n ∧ boot_verf n' = boot_verf n)
         ∧ 0 < write_count r ≤ zlen data
         ∧ write_verifier r = boot_verf n
         ∧ contents n' fh = Some (splice c off (ztake (write_count r) data))
         ∧ ∀ g, g ≠ fh → contents n' g = contents n g)
      (λ e _, store_fails e);

  store_commit n fh off count :
    store_inv n →
    post (nfs_commit fh off count) n
      (λ r n', (store_inv n' ∧ contents n' = contents n ∧ entries_of n' = entries_of n
                ∧ boot_verf n' = boot_verf n) ∧ commit_verifier r = boot_verf n)
      (λ e _, store_fails e);

  store_truncate n fh :
    store_inv n →
    post (nfs_setattr fh (SetAttr.size 0)) n
      (λ _ n', (store_inv n' ∧ entries_of n' = entries_of n ∧ boot_verf n' = boot_verf n)
         ∧ contents n' fh = Some [] ∧ ∀ g, g ≠ fh → contents n' g = contents n g)
      (λ e _, store_fails e);

  store_lookup n dir name fh :
    store_inv n → entries_of n dir name = Some fh →
    post (nfs_lookup dir name) n
      (λ r n', (store_inv n' ∧ contents n' = contents n ∧ entries_of n' = entries_of n
                ∧ boot_verf n' = boot_verf n) ∧ lookup_object r = fh)
      (λ e _, store_fails e);
}.

Section store.
Context {N : Type} `{!Nfs3 N, !FileStore N}.
#[local] Abbreviation store w := (nfs (client w)).

Definition store_ok (w : World N) : Prop := store_inv (store w) ∧ sizes_ok (client w).

(** Nothing about the files changed. *)
Definition same_files (w w' : World N) : Prop :=
  same_client w w' ∧ store_inv (store w') ∧ contents (store w') = contents (store w)
  ∧ entries_of (store w') = entries_of (store w) ∧ boot_verf (store w') = boot_verf (store w).

(** Only the contents of [fh] changed, to [c]. *)
Definition file_set (fh : FileHandle) (c : list byte) (w w' : World N) : Prop :=
  same_client w w' ∧ store_inv (store w') ∧ entries_of (store w') = entries_of (store w)
  ∧ boot_verf (store w') = boot_verf (store w) ∧ contents (store w') fh = Some c
  ∧ ∀ g, g ≠ fh → contents (store w') g = contents (store w) g.

Lemma same_client_sizes_ok (w w' : World N) : same_client w w' → sizes_ok (client w) → sizes_ok (client w').
Proof.
  intros (Hr & Hw & Hm & _)%same_client_sizes []. split; congruence || (rewrite ?Hr, ?Hw, ?Hm; done).
Qed.

Lemma same_files_trans w1 w2 w3 : same_files w1 w2 → same_files w2 w3 → same_files w1 w3.
Proof. intros (?&?&?&?&?) (?&?&?&?&?). split_and!; [by etrans|done|congruence..]. Qed.

Lemma file_set_same fh c w1 w2 w3 : file_set fh c w1 w2 → same_files w2 w3 → file_set fh c w1 w3.
Proof.
  intros (?&?&?&?&?&Ho) (?&?&Hc&?&?). split_and!; [by etrans|done|congruence|congruence| |].
  - by rewrite Hc.
  - intros g Hg. rewrite Hc. by apply Ho.
Qed.

Lemma file_set_trans fh c c' w1 w2 w3 : file_set fh c w1 w2 → file_set fh c' w2 w3 → file_set fh c' w1 w3.
Proof.
  intros (?&?&?&?&?&Ho) (?&?&?&?&?&Ho'). split_and!; [by etrans|done|congruence|congruence|done|].
  intros g Hg. rewrite Ho' by done. by apply Ho.
Qed.

Lemma same_files_refl w : store_ok w → same_files w w.
Proof. intros [Hi _]. by split_and!. Qed.

Lemma file_set_refl fh c w : store_ok w → contents (store w) fh = Some c → file_set fh c w w.
Proof. intros [Hi _] Hc. by split_and!. Qed.

Lemma store_ok_same w w' : store_ok w → same_files w w' → store_ok w'.
Proof. intros [_ Hs] (?&?&_). split; [done|by eapply same_client_sizes_ok]. Qed.

Lemma store_ok_set fh c w w' : store_ok w → file_set fh c w w' → store_ok w'.
Proof. intros [_ Hs] (?&?&_). split; [done|by eapply same_client_sizes_ok]. Qed.

(** ** Reading *)

(** The part of the file read so far. *)
Lemma ztake_extend {A} off n (c : list A) :
  0 ≤ off → 0 ≤ n → off + n ≤ zlen c → ztake off c ++ ztake n (zdrop off c) = ztake (off + n) c.
Proof.
  intros Ho Hn Hle. unfold ztake, zdrop, zlen in *.
  rewrite Z2Nat.inj_add by done. rewrite <- (take_drop (Z.to_nat off) c) at 3.
  rewrite take_app_add'; [done|]. rewrite length_take. lia.
Qed.

Lemma post_store_read w handle off count c :
  store_ok w → contents (store w) handle = Some c → 0 ≤ off ≤ zlen c → 0 < count →
  post (Client.self_nfs (nfs_read handle off count)) w
    (λ r w', same_files w w' ∧ zlen (read_data r) ≤ count
       ∧ off + zlen (read_data r) ≤ zlen c
       ∧ ztake off c ++ read_data r = ztake (off + zlen (read_data r)) c
       ∧ (read_data r = [] → read_eof r = true)
       ∧ (read_eof r = true → off + zlen (read_data r) = zlen c))
    (λ e _, store_fails e).
Proof.
  intros [Hi Hs] Hc Ho Hn. apply post_self_nfs.
  eapply post_mono; [by eapply store_read; [| |lia|]|cbv beta|done].
  intros r n' (Hst & Hle & Hd & Hne & Heof).
  assert (off + zlen (read_data r) ≤ zlen c) as Hlen.
  { rewrite Hd, zlen_ztake_min, zlen_drop by (apply zlen_nonneg || lia). lia. }
  split; [by split|]. split_and!; [done..| |done|].
  - rewrite Hd at 1. apply ztake_extend; [lia|apply zlen_nonneg|done].
  - intros He. specialize (Heof He). lia.
Qed.

(** [read_handle_to_end] returns exactly the contents of the file. *)
Lemma post_read_handle_to_end w handle c :
  store_ok w → contents (store w) handle = Some c → zlen c ≤ u64_max →
  post (Client.read_handle_to_end handle) w (λ out w', out = c ∧ same_files w w')
    (λ e _, store_fails e).
Proof.
  intros Hw Hc Hlen. unfold Client.read_handle_to_end. pose proof (zlen_nonneg c).
  apply (post_loop (λ l w', same_files w w' ∧ 0 ≤ l.1 ≤ zlen c ∧ l.2 = ztake l.1 c)
                   (λ l _, zlen c - l.1)).
  - intros [off out] w' (_ & Ho & _). lia.
  - intros [off out] w1 (Hs1 & Ho & Hout). cbn in Ho, Hout.
    pose proof (store_ok_same _ _ Hw Hs1) as Hw1. unfold Client.read_handle_to_end_step.
    apply post_bind, post_gets. destruct Hw1 as [Hi1 Hsz]. pose proof (read_size_ok _ Hsz) as Hrs.
    apply post_bind. eapply post_mono; [apply (post_store_read w1 handle off _ c)| |done].
    { by split. } { destruct Hs1 as (_&_&Hcc&_). by rewrite Hcc. } { done. } { lia. }
    cbv beta. intros chunk w2 (Hs2 & Hle & Hbound & Happ & Hne & Heof).
    assert (same_files w w2) as Hs by by eapply same_files_trans.
    destruct (Z.gtb_spec (zlen (read_data chunk)) (read_size (client w1))); [lia|].
    destruct (is_empty (read_data chunk)) eqn:He.
    { apply is_empty_spec in He. rewrite (Hne He). apply post_ret. split; [|done].
      specialize (Heof (Hne He)). rewrite He, zlen_nil in Heof.
      rewrite Hout. apply ztake_all. lia. }
    apply is_empty_false in He. apply post_bind, post_lift.
    destruct (advance_offset_cases off (zlen (read_data chunk)) "READ") as [[_ ->]|[Hbad _]];
      [unfold MAX_IO_BYTES in Hrs; int_unfold; lia| |lia].
    rewrite Hout, Happ. destruct (read_eof chunk) eqn:Hf; apply post_ret.
    + split; [|done]. apply ztake_all. specialize (Heof eq_refl). lia.
    + cbn. split; [split_and!; [done|lia|lia|done]|lia].
  - split_and!; [by apply same_files_refl|cbn; lia..|done].
  - cbn. unfold Client.offset_fuel. int_unfold. lia.
Qed.

(** A byte range: what the file has there, and nothing else. *)
Lemma post_read_handle_range_store w handle off count c :
  store_ok w → contents (store w) handle = Some c → zlen c ≤ u64_max →
  0 ≤ off ≤ zlen c → 0 ≤ count ≤ u64_max →
  post (Client.read_handle_range handle off count) w
    (λ out w', out = ztake count (zdrop off c) ∧ same_files w w') (λ e _, store_fails e).
Proof.
  intros Hw Hc Hlen Hoff Hcount.
  assert (post (Client.read_handle_range_to_writer handle off count) (w, [])
            (λ _ s, s.2 = ztake count (zdrop off c) ∧ same_files w s.1) (λ e _, store_fails e)) as H.
  2: { unfold post, Client.read_handle_range, Client.into_vec in *.
       destruct (Client.read_handle_range_to_writer _ _ _ _) as [[w' out] [a|e|f]]; naive_solver. }
  unfold Client.read_handle_range_to_writer.
  apply (post_loop (λ l s, same_files w s.1 ∧ off ≤ l.1.1 ≤ zlen c ∧ 0 ≤ l.1.2
                      ∧ l.1.1 - off + l.1.2 = count ∧ s.2 = ztake (l.1.1 - off) (zdrop off c)
                      ∧ 0 ≤ l.2 ≤ l.1.1)
                   (λ l _, l.1.2)); [intros; cbv beta in *; lia| | |cbn; lia].
  2: { cbn. rewrite Z.sub_diag. split_and!; [by apply same_files_refl|lia..|done|lia|lia]. }
  intros [[o rem] total] [w1 out] (Hs1 & Ho & Hrem & Hsum & Hout & Htot). cbn in *.
  unfold Client.read_handle_range_to_writer_step.
  destruct (Z.gtb_spec rem 0); cbn [negb].
  2: { apply post_ret. cbn. split; [|done]. rewrite Hout. f_equal. lia. }
  pose proof (store_ok_same _ _ Hw Hs1) as Hw1. pose proof (read_size_ok _ (proj2 Hw1)) as Hrs.
  apply post_bind. unfold post at 1, Client.on_self, zoom, Client.self, gets. cbn.
  unfold MAX_IO_BYTES in Hrs. rewrite wrap_u32_small by (int_unfold; lia).
  set (request := Z.min (read_size (client w1)) rem).
  assert (post (Client.on_self (Client.self_nfs (nfs_read handle o request))) (w1, out)
    (λ r s, same_files w s.1 ∧ s.2 = out ∧ zlen (read_data r) ≤ request
       ∧ o + zlen (read_data r) ≤ zlen c
       ∧ ztake o c ++ read_data r = ztake (o + zlen (read_data r)) c
       ∧ (read_data r = [] → read_eof r = true)
       ∧ (read_eof r = true → o + zlen (read_data r) = zlen c)) (λ e _, store_fails e)) as Hread.
  { pose proof (post_store_read w1 handle o request c Hw1) as Hp.
    unfold post, Client.on_self, zoom in *. cbn.
    destruct (Client.self_nfs (nfs_read handle o request) w1) as [w2 [r|e|f]];
      specialize (Hp ltac:(by destruct Hs1 as (_&_&->&_)) ltac:(lia) ltac:(subst request; lia)); [|done|done].
    destruct Hp as (Hs2 & Hrest). split_and!; try apply Hrest; [by eapply same_files_trans|done]. }
  apply post_bind. eapply post_mono; [exact Hread| |done].
  cbv beta. intros chunk [w2 out2] (Hs2 & Hout2 & Hle & Hbound & Happ & Hne & Heof). cbn in Hs2, Hout2. subst out2.
  destruct (Z.gtb_spec (zlen (read_data chunk)) request); [lia|].
  assert (read_data chunk = ztake (zlen (read_data chunk)) (zdrop (o - off) (zdrop off c))) as Hdata.
  { rewrite zdrop_zdrop by lia. replace (off + (o - off)) with o by lia.
    rewrite <- ztake_extend in Happ by (apply zlen_nonneg || lia). by apply app_inv_head in Happ. }
  assert (out ++ read_data chunk = ztake (o + zlen (read_data chunk) - off) (zdrop off c)) as Hout'.
  { rewrite Hout. rewrite Hdata at 1. rewrite ztake_extend; [f_equal; lia|lia|apply zlen_nonneg|].
    rewrite zlen_drop by lia. lia. }
  destruct (is_empty (read_data chunk)) eqn:He.
  { apply is_empty_spec in He. rewrite (Hne He). apply post_ret. cbn. split; [|done].
    specialize (Heof (Hne He)). rewrite He, zlen_nil in Heof.
    rewrite Hout, !ztake_all; [done|rewrite zlen_drop by lia; lia..]. }
  apply is_empty_false in He.
  apply post_bind. unfold post at 1, Client.write_out, map_err, zoom. cbn.
  apply post_bind, post_lift.
  destruct (advance_offset_cases o (zlen (read_data chunk)) "READ") as [[_ ->]|[Hbad _]];
    [subst request; int_unfold; lia| |lia].
  apply post_bind, post_lift.
  destruct (advance_offset_cases total (zlen (read_data chunk)) "READ total") as [[_ ->]|[Hbad _]];
    [subst request; int_unfold; lia| |lia].
  destruct (read_eof chunk) eqn:Hf; apply post_ret; cbn; rewrite Hout'.
  - split; [|done]. specialize (Heof eq_refl).
    rewrite !ztake_all; [done|rewrite zlen_drop by lia; subst request; lia..].
  - split; [split_and!; [done|lia..|done|lia|lia]|lia].
Qed.

(** ** Writing *)

Lemma post_store_write w handle off stable data c :
  store_ok w → contents (store w) handle = Some c → 0 ≤ off → 0 < zlen data ≤ MAX_IO_BYTES →
  post (Client.self_nfs (nfs_write handle off stable data)) w
    (λ r w', file_set handle (splice c off (ztake (write_count r) data)) w w'
       ∧ 0 < write_count r ≤ zlen data ∧ write_verifier r = boot_verf (store w))
    (λ e _, store_fails e).
Proof.
  intros [Hi Hs] Hc Ho Hd. apply post_self_nfs.
  eapply post_mono; [by eapply store_write|cbv beta|done].
  intros r n' ((?&?&?) & Hn & Hv & Hset & Hoth). split; [|done]. unfold file_set. by split_and!.
Qed.

Lemma post_store_commit w handle off count :
  store_ok w →
  post (Client.self_nfs (nfs_commit handle off count)) w
    (λ r w', same_files w w' ∧ commit_verifier r = boot_verf (store w)) (λ e _, store_fails e).
Proof.
  intros [Hi Hs]. apply post_self_nfs. eapply post_mono; [by eapply store_commit|cbv beta|done].
  intros r n' (Hst & Hv). by split.
Qed.

(** [write_handle_all] puts all of [data] at [offset] and touches nothing else. *)
Lemma post_write_handle_all w handle offset data stable c :
  store_ok w → contents (store w) handle = Some c → 0 ≤ offset →
  offset + zlen data ≤ u64_max → zlen data ≤ isize_max →
  post (Client.write_handle_all handle offset data stable) w
    (λ _ w', file_set handle (splice c offset data) w w') (λ e _, store_fails e).
Proof.
  intros Hw Hc Ho Hmax Hlen. unfold Client.write_handle_all. pose proof (zlen_nonneg data).
  apply (post_loop
    (λ l w', ∃ done_, data = done_ ++ l.2 ∧ l.1 = offset + zlen done_
                      ∧ file_set handle (splice c offset done_) w w')
    (λ l _, zlen l.2)); [intros; apply zlen_nonneg| | |cbn; lia].
  2: { exists []. cbn. split_and!; [done|by rewrite zlen_nil, Z.add_0_r|]. by apply file_set_refl. }
  intros [off rest] w1 (done_ & Hdata & Hoff & Hset). cbn in Hdata, Hoff. subst off.
  assert (zlen data = zlen done_ + zlen rest) as Hsplit by (rewrite Hdata; apply zlen_app).
  pose proof (zlen_nonneg done_). unfold Client.write_handle_all_step.
  destruct (is_empty rest) eqn:He.
  { apply is_empty_spec in He. subst rest. rewrite app_nil_r in Hdata. subst done_.
    by apply post_ret. }
  apply is_empty_false in He. pose proof (store_ok_set _ _ _ _ Hw Hset) as Hw1.
  pose proof (write_size_ok _ (proj2 Hw1)) as Hws.
  apply post_bind, post_gets. set (len := Z.min (zlen rest) (write_size (client w1))).
  assert (zlen (ztake len rest) = len) as Htl by (apply zlen_take; subst len; lia).
  assert (contents (store w1) handle = Some (splice c offset done_)) as Hc1 by apply Hset.
  apply post_bind. eapply post_mono;
    [apply (post_store_write w1 handle _ stable (ztake len rest) _ Hw1 Hc1); [lia|subst len; lia]| |done].
  cbv beta. intros r w2 (Hset2 & Hcount & Hverf). rewrite Htl in Hcount.
  assert (file_set handle (splice c offset (done_ ++ ztake (write_count r) rest)) w w2) as Hset'.
  { rewrite <- splice_app by done.
    replace (ztake (write_count r) (ztake len rest)) with (ztake (write_count r) rest) in Hset2.
    - by eapply file_set_trans.
    - unfold ztake. rewrite take_take. f_equal. lia. }
  destruct (Z.eqb_spec (write_count r) 0); [lia|].
  destruct (Z.gtb_spec (write_count r) len); [lia|].
  apply post_bind.
  apply (post_mono _ _ (λ _ w3, same_files w2 w3) _ (λ e _, store_fails e)); [| |done].
  { pose proof (store_ok_set _ _ _ _ Hw Hset') as Hw2.
    destruct (negb _); [|by apply post_ret, same_files_refl].
    apply post_bind. eapply post_mono; [by apply post_store_commit| |done].
    cbv beta. intros cm w3 [Hs3 Hv3]. rewrite Hverf, Hv3.
    assert (boot_verf (store w2) = boot_verf (store w1)) as -> by apply Hset2.
    rewrite bool_decide_true by done. by apply post_ret. }
  intros [] w3 Hs3. apply post_bind, post_lift.
  destruct (advance_offset_cases (offset + zlen done_) (write_count r) "WRITE") as [[_ ->]|[Hbad _]];
    [int_unfold; lia| |lia].
  apply post_ret. cbn. rewrite zlen_drop by lia. split; [|lia].
  exists (done_ ++ ztake (write_count r) rest).
  rewrite zlen_app, zlen_take by lia. split_and!; [|lia|by eapply file_set_same].
  by rewrite <- app_assoc, ztake_zdrop.
Qed.

(** ** Copying *)

(** [copy_handles] writes the contents of [source] over the start of [dest] and
    returns their length. *)
Lemma post_copy_handles w source dest stable c d :
  store_ok w → contents (store w) source = Some c → contents (store w) dest = Some d →
  source ≠ dest → zlen c ≤ u64_max →
  post (Client.copy_handles source dest stable) w
    (λ n w', n = zlen c ∧ file_set dest (splice d 0 c) w w') (λ e _, store_fails e).
Proof.
  intros Hw Hc Hd Hne Hlen. unfold Client.copy_handles. pose proof (zlen_nonneg c).
  apply (post_loop (λ off w', 0 ≤ off ≤ zlen c ∧ file_set dest (splice d 0 (ztake off c)) w w')
                   (λ off _, zlen c - off)); [intros; cbv beta in *; lia| | |].
  2: { split; [lia|]. by apply file_set_refl. }
  2: { unfold Client.offset_fuel. int_unfold. lia. }
  intros off w1 [Ho Hset]. pose proof (store_ok_set _ _ _ _ Hw Hset) as Hw1.
  pose proof (read_size_ok _ (proj2 Hw1)) as Hrs. unfold Client.copy_handles_step.
  assert (contents (store w1) source = Some c) as Hc1.
  { destruct Hset as (_&_&_&_&_&Hoth). by rewrite Hoth. }
  apply post_bind, post_gets, post_bind.
  eapply post_mono; [apply (post_store_read w1 source off _ c Hw1 Hc1 Ho); lia| |done].
  cbv beta. intros chunk w2 (Hs2 & Hle & Hbound & Happ & Hempty & Heof).
  destruct (Z.gtb_spec (zlen (read_data chunk)) (read_size (client w1))); [lia|].
  destruct (is_empty (read_data chunk)) eqn:He.
  { apply is_empty_spec in He. rewrite (Hempty He). apply post_ret.
    specialize (Heof (Hempty He)). rewrite He, zlen_nil in Heof.
    split; [lia|]. rewrite ztake_all in Hset by lia. by eapply file_set_same. }
  apply is_empty_false in He. unfold MAX_IO_BYTES in Hrs.
  assert (file_set dest (splice d 0 (ztake off c)) w w2) as Hset2 by by eapply file_set_same.
  pose proof (store_ok_set _ _ _ _ Hw Hset2) as Hw2.
  apply post_bind. eapply post_mono.
  { apply (post_write_handle_all w2 dest off (read_data chunk) stable (splice d 0 (ztake off c)));
      [done|apply Hset2|lia|lia|int_unfold; lia]. }
  2: done.
  cbv beta. intros [] w3 Hset3.
  replace (splice (splice d 0 (ztake off c)) off (read_data chunk))
    with (splice d 0 (ztake (off + zlen (read_data chunk)) c)) in Hset3.
  2: { rewrite <- Happ, <- splice_app by done. by rewrite zlen_take, Z.add_0_l. }
  assert (file_set dest (splice d 0 (ztake (off + zlen (read_data chunk)) c)) w w3) as Hset'
    by by eapply file_set_trans.
  apply post_bind, post_lift.
  destruct (advance_offset_cases off (zlen (read_data chunk)) "COPY") as [[_ ->]|[Hbad _]];
    [int_unfold; lia| |lia].
  destruct (read_eof chunk) eqn:Hf; apply post_ret.
  - specialize (Heof eq_refl). split; [done|]. by rewrite ztake_all in Hset' by lia.
  - split; [split; [lia|done]|lia].
Qed.

(** ** Paths *)

(** The handle a list of components leads to. *)
Fixpoint walk_entries (n : N) (current : FileHandle) (cs : list str) : option FileHandle :=
  match cs with
  | [] => Some current
  | c :: cs => next ← entries_of n current c; walk_entries n next cs
  end.

Lemma walk_entries_ext n n' current cs :
  entries_of n' = entries_of n → walk_entries n' current cs = walk_entries n current cs.
Proof.
  intros He. revert current; induction cs as [|c cs IH]; intros current; cbn; [done|].
  rewrite He. by destruct (entries_of n current c); cbn.
Qed.

Lemma post_walk w current cs fh :
  store_ok w → walk_entries (store w) current cs = Some fh →
  post (Client.walk current cs) w (λ r w', r = fh ∧ same_files w w') (λ e _, store_fails e).
Proof.
  revert w current. induction cs as [|c cs IH]; intros w current Hw Hwalk; cbn [Client.walk walk_entries] in *.
  { injection Hwalk as <-. apply post_ret. split; [done|by apply same_files_refl]. }
  destruct (entries_of (store w) current c) as [next|] eqn:He; cbn in Hwalk; [|done].
  apply post_bind, post_self_nfs.
  eapply post_mono; [apply (store_lookup _ _ _ _ (proj1 Hw) He)| |done].
  cbv beta. intros r n' (Hst & ->).
  assert (same_files w (set_nfs n' w)) as Hs by (split; done).
  eapply post_mono; [apply IH; [by eapply store_ok_same|]| |done].
  - rewrite (walk_entries_ext (store w)); [done|apply Hst].
  - intros fh' w2 [-> Hs2]. split; [done|by eapply same_files_trans].
Qed.

(** [path] names the file [fh]. *)
Definition names (w : World N) (path : str) (fh : FileHandle) : Prop :=
  ∃ cs, normalize_path path = Ok cs ∧ walk_entries (store w) (root (client w)) cs = Some fh.

Lemma names_same w w' path fh :
  same_client w w' → entries_of (store w') = entries_of (store w) →
  names w path fh → names w' path fh.
Proof.
  intros Hc He (cs & Hn & Hwalk). exists cs. split; [done|].
  apply same_client_sizes in Hc as (_ & _ & _ & -> & _). by rewrite (walk_entries_ext (store w)).
Qed.

Lemma post_resolve w path fh :
  store_ok w → names w path fh →
  post (Client.resolve path) w (λ r w', r = fh ∧ same_files w w') (λ e _, store_fails e).
Proof.
  intros Hw (cs & Hn & Hwalk). unfold Client.resolve. apply post_bind, post_lift. rewrite Hn.
  apply post_bind, post_gets. by apply post_walk.
Qed.

(** Reading a path gives the contents of the file it names. *)
Lemma post_read w path fh c :
  store_ok w → names w path fh → contents (store w) fh = Some c → zlen c ≤ u64_max →
  post (Client.read path) w (λ out w', out = c ∧ same_files w w') (λ e _, store_fails e).
Proof.
  intros Hw Hn Hc Hlen. unfold Client.read. apply post_bind.
  eapply post_mono; [by apply post_resolve| |done]. cbv beta. intros r w1 [-> Hs1].
  eapply post_mono; [apply post_read_handle_to_end; [by eapply store_ok_same| |done]| |done].
  - destruct Hs1 as (_&_&->&_). done.
  - cbv beta. intros out w2 [-> Hs2]. split; [done|by eapply same_files_trans].
Qed.

Lemma post_truncate w handle :
  store_ok w →
  post (Client.self_nfs (nfs_setattr handle (SetAttr.size 0))) w
    (λ _ w', file_set handle [] w w') (λ e _, store_fails e).
Proof.
  intros [Hi Hs]. apply post_self_nfs. eapply post_mono; [by eapply store_truncate|cbv beta|done].
  intros r n' ((?&?&?) & Hset & Hoth). unfold file_set. by split_and!.
Qed.

(** Writing an existing path replaces its contents, and nothing else: as long
    as the store has no errors of its own, whatever chunks it accepts. *)
Lemma post_write_with_stability w path fh c data stable :
  store_ok w → names w path fh → contents (store w) fh = Some c → zlen data ≤ isize_max →
  (∀ e, store_fails e → is_nfs_status NfsStatus.NoEnt e = false) →
  post (Client.write_with_stability path data stable) w
    (λ _ w', file_set fh data w w') (λ e _, store_fails e).
Proof.
  intros Hw Hn Hc Hlen Hnoent. unfold Client.write_with_stability, Client.resolve_or_create.
  apply post_bind, post_bind, post_attempt.
  eapply post_mono; [by apply post_resolve| |].
  2: { intros e w1 He. cbv beta iota. rewrite (Hnoent e He). by apply post_throw. }
  cbv beta iota. intros r w1 [-> Hs1]. apply post_ret.
  pose proof (store_ok_same _ _ Hw Hs1) as Hw1.
  apply post_bind. eapply post_mono; [by apply post_truncate| |done]. intros u w2 Hset.
  pose proof (store_ok_set _ _ _ _ Hw1 Hset) as Hw2. pose proof (zlen_nonneg data).
  eapply post_mono; [apply (post_write_handle_all w2 fh 0 data stable []); [done|apply Hset|lia|int_unfold; lia|done]| |done].
  cbv beta. intros [] w3 Hset3. rewrite splice_empty in Hset3.
  destruct Hs1 as (Hc1 & _ & Hcont & Hent & Hbv), Hset as (Hc2 & _ & Hent2 & Hbv2 & _ & Hoth2),
    Hset3 as (Hc3 & Hi3 & Hent3 & Hbv3 & Hfh3 & Hoth3).
  unfold file_set. split_and!; [by do 2 (etrans; [done|])|done|congruence|congruence|done|].
  intros g Hg. by rewrite Hoth3, Hoth2, Hcont.
Qed.

End store.
