(* ===== verification/V3Durable.v ===== *)
(** * Durability of synchronous writes

    NFSv3 servers may keep unstable data in memory and lose it in a restart;
    the write verifier changes when they do.  [StableStore] is that contract,
    restarts between any two calls included: [on_disk] is what survives, and
    [promised] is data a COMMIT answered with the same verifier makes durable.
    Against it, [write_handle_all] asked for DATA_SYNC or FILE_SYNC returns
    [Ok] only when all of the data is on disk, whatever stability the server
    reported for each chunk and whenever it restarted
    (src/src/v3/blocking.rs). *)

From Stdlib Require Import Strings.String Strings.Byte.
From S2P Require Import Prelude Text Xdr Status Errors Rpc V3Proto V3Calls V3Client V3ClientSpec.
From S2P Require Import V3Blocking V3BlockingSpec V3Store.
Import FileHandle (FileHandle).
Import StableHow (StableHow).

#[local] Open Scope Z_scope.

Lemma ztake_app_ge {A} n (l k : list A) : zlen l ≤ n → ztake n (l ++ k) = l ++ ztake (n - zlen l) k.
Proof.
  intros Hn. unfold ztake, zlen in *. rewrite take_app_ge by lia. do 2 f_equal. lia.
Qed.

(** Reading back what was written. *)
Lemma slice_splice c off d :
  0 ≤ off → ztake (zlen d) (zdrop off (splice c off d)) = d.
Proof.
  intros Ho. destruct d as [|b d]; [done|]. rewrite splice_cons.
  rewrite zdrop_app_eq by by apply zlen_gap. apply ztake_app.
Qed.

Lemma splice_idem c off d : 0 ≤ off → splice (splice c off d) off d = splice c off d.
Proof.
  intros Ho. destruct d as [|b d]; [done|].
  rewrite (splice_cons c off b d). set (p := b :: d). set (pre := ztake off c ++ zeros (off - zlen c)).
  assert (zlen pre = off) as Hpre by by apply zlen_gap.
  change (splice ?c' off p) with (ztake off c' ++ zeros (off - zlen c') ++ p ++ zdrop (off + zlen p) c').
  rewrite (ztake_app_eq off pre) by done. pose proof (zlen_nonneg p).
  rewrite (app_assoc pre p). rewrite (zdrop_app_eq _ (pre ++ p)) by (rewrite zlen_app; lia).
  rewrite !zlen_app. pose proof (zlen_nonneg (zdrop (off + zlen p) c)).
  assert (zeros (off - (zlen pre + zlen p + zlen (zdrop (off + zlen p) c))) = []) as ->.
  { unfold zeros. by replace (Z.to_nat _) with 0%nat by lia. }
  by rewrite <- app_assoc.
Qed.

Class StableStore (N : Type) `{!Nfs3 N} := {
  stable_inv : N → Prop;
  on_disk : N → FileHandle → list byte;
  promised : N → FileHandle → Z → list byte → list byte → Prop;

  stable_write n fh off stable data :
    stable_inv n → 0 ≤ off → 0 < zlen data →
    post (nfs_write fh off stable data) n
      (λ r n', stable_inv n' ∧ 0 < write_count r ≤ zlen data
         ∧ promised n' fh off (ztake (write_count r) data) (write_verifier r)
         ∧ (∀ g, g ≠ fh → on_disk n' g = on_disk n g)
         ∧ on_disk n' fh =
             if StableHow.satisfies (write_committed r) StableHow.DataSync
             then splice (on_disk n fh) off (ztake (write_count r) data) else on_disk n fh)
      (λ _ _, True);

  stable_commit n fh off d verf :
    stable_inv n → 0 ≤ off → promised n fh off d verf →
    post (nfs_commit fh off (zlen d)) n
      (λ r n', stable_inv n' ∧ (∀ g, g ≠ fh → on_disk n' g = on_disk n g)
         ∧ (commit_verifier r = verf → on_disk n' fh = splice (on_disk n fh) off d))
      (λ _ _, True);
}.

Section durable.
Context {N : Type} `{!Nfs3 N, !StableStore N}.
#[local] Abbreviation store w := (nfs (client w)).

Definition durable_ok (w : World N) : Prop := stable_inv (store w) ∧ sizes_ok (client w).

(** [w'] has [c] on disk for [fh], and the disk of [w] otherwise. *)
Definition disk_set (fh : FileHandle) (c : list byte) (w w' : World N) : Prop :=
  same_client w w' ∧ stable_inv (store w') ∧ on_disk (store w') fh = c
  ∧ ∀ g, g ≠ fh → on_disk (store w') g = on_disk (store w) g.

Lemma durable_ok_set fh c w w' : durable_ok w → disk_set fh c w w' → durable_ok w'.
Proof. intros [_ Hs] (?&?&_). split; [done|by eapply same_client_sizes_ok]. Qed.

Lemma disk_set_trans fh c c' w1 w2 w3 : disk_set fh c w1 w2 → disk_set fh c' w2 w3 → disk_set fh c' w1 w3.
Proof.
  intros (?&?&?&Ho) (?&?&?&Ho'). split_and!; [by etrans|done|done|].
  intros g Hg. rewrite Ho' by done. by apply Ho.
Qed.

(** One chunk, with the COMMIT it may need: on success it is on disk. *)
Lemma post_durable_chunk w handle off stable data :
  durable_ok w → 0 ≤ off → 0 < zlen data →
  StableHow.satisfies stable StableHow.DataSync = true →
  post (result ← Client.self_nfs (nfs_write handle off stable data);
        (if negb (StableHow.satisfies (write_committed result) stable) then
           commit ← Client.self_nfs (nfs_commit handle off (write_count result));
           if negb (bool_decide (commit_verifier commit = write_verifier result))
           then throw (Protocol [PLit "COMMIT verifier changed after unstable WRITE"])
           else mret tt
         else mret tt) ;;
        mret (write_count result)) w
    (λ n w', 0 < n ≤ zlen data
       ∧ disk_set handle (splice (on_disk (store w) handle) off (ztake n data)) w w')
    (λ _ _, True).
Proof.
  intros Hw Ho Hd Hst. apply post_bind, post_self_nfs.
  eapply post_mono; [by apply stable_write; [apply Hw| |]|cbv beta|done].
  intros r n1 (Hi1 & Hn & Hprom & Hoth & Hdisk).
  assert (zlen (ztake (write_count r) data) = write_count r) as Hlen by (apply zlen_take; lia).
  apply post_bind. destruct (StableHow.satisfies (write_committed r) stable) eqn:Hsat; cbn [negb].
  - apply post_ret, post_ret. split; [done|]. unfold disk_set. split_and!; [done|done| |done].
    cbn. rewrite Hdisk.
    assert (StableHow.satisfies (write_committed r) StableHow.DataSync = true) as ->; [|done].
    by destruct (write_committed r), stable.
  - apply post_bind, post_self_nfs. cbn [nfs client set_nfs].
    rewrite <- Hlen at 1. eapply post_mono; [by eapply stable_commit|cbv beta|done].
    intros cm n2 (Hi2 & Hoth2 & Hcommit).
    destruct (bool_decide _) eqn:Hv; cbn [negb]; [|by apply post_throw].
    apply bool_decide_eq_true in Hv. apply post_ret, post_ret. split; [done|].
    unfold disk_set. split_and!; [done|done| |].
    + cbn. rewrite (Hcommit Hv), Hdisk.
      destruct (StableHow.satisfies (write_committed r) StableHow.DataSync); [by apply splice_idem|done].
    + cbn. intros g Hg. by rewrite Hoth2, Hoth.
Qed.

(** All of the data is on disk when [write_handle_all] says so. *)
Lemma post_write_handle_all_durable w handle offset data stable :
  durable_ok w → 0 ≤ offset → offset + zlen data ≤ u64_max →
  StableHow.satisfies stable StableHow.DataSync = true →
  post (Client.write_handle_all handle offset data stable) w
    (λ _ w', disk_set handle (splice (on_disk (store w) handle) offset data) w w') (λ _ _, True).
Proof.
  intros Hw Ho Hmax Hst. unfold Client.write_handle_all. pose proof (zlen_nonneg data).
  apply (post_loop
    (λ l w', ∃ done_, data = done_ ++ l.2 ∧ l.1 = offset + zlen done_
       ∧ disk_set handle (splice (on_disk (store w) handle) offset done_) w w')
    (λ l _, zlen l.2)); [intros; apply zlen_nonneg| | |cbn; lia].
  2: { exists []. cbn. split_and!; [done|by rewrite zlen_nil, Z.add_0_r|].
       unfold disk_set. by split_and!; [|apply Hw|..]. }
  intros [off rest] w1 (done_ & Hdata & Hoff & Hset). cbn in Hdata, Hoff. subst off.
  assert (zlen data = zlen done_ + zlen rest) as Hsplit by (rewrite Hdata; apply zlen_app).
  pose proof (zlen_nonneg done_). unfold Client.write_handle_all_step.
  destruct (is_empty rest) eqn:He.
  { apply is_empty_spec in He. subst rest. rewrite app_nil_r in Hdata. subst done_.
    by apply post_ret. }
  apply is_empty_false in He. pose proof (durable_ok_set _ _ _ _ Hw Hset) as Hw1.
  pose proof (write_size_ok _ (proj2 Hw1)) as Hws. unfold MAX_IO_BYTES in Hws.
  apply post_bind, post_gets. set (len := Z.min (zlen rest) (write_size (client w1))).
  assert (zlen (ztake len rest) = len) as Htl by (apply zlen_take; subst len; lia).
  pose proof (post_durable_chunk w1 handle (offset + zlen done_) stable (ztake len rest) Hw1
                ltac:(lia) ltac:(subst len; lia) Hst) as Hchunk.
  unfold post in Hchunk |- *. unfold mbind, M_bind in *.
  destruct (Client.self_nfs (nfs_write _ _ _ _) w1) as [w2 [r|e|f]]; [|done|done].
  destruct (Z.eqb_spec (write_count r) 0) as [Hz|Hz]; [done|].
  destruct (Z.gtb_spec (write_count r) len); [done|].
  match goal with |- context [?m w2] =>
    lazymatch m with (if _ then _ else _) => destruct (m w2) as [w3 [[]|e|f]] end end;
    [|done|done].
  destruct Hchunk as [Hn Hset3]. cbv beta in Hn, Hset3. rewrite Htl in Hn.
  unfold lift. destruct (advance_offset_cases (offset + zlen done_) (write_count r) "WRITE")
    as [[_ ->]|[_ ->]]; [subst len; int_unfold; lia| |done].
  cbn. rewrite zlen_drop by lia. split; [|lia].
  exists (done_ ++ ztake (write_count r) rest).
  rewrite zlen_app, zlen_take by lia. split_and!; [by rewrite <- app_assoc, ztake_zdrop|lia|].
  assert (on_disk (store w1) handle = splice (on_disk (store w) handle) offset done_) as Hd1 by apply Hset.
  rewrite Hd1, splice_app in Hset3 by done.
  replace (ztake (write_count r) (ztake len rest)) with (ztake (write_count r) rest) in Hset3
    by (unfold ztake; rewrite take_take; f_equal; lia).
  by eapply disk_set_trans.
Qed.

End durable.
