(* ===== verification/V3Atomic.v ===== *)
(** * What atomic writes ask the server to do

    [Traced] runs any implementation of [Nfs3] and records every request with
    what matters of its answer.  For every server, [write_atomic] creates one
    temporary entry in the directory of the target, which it reaches from the
    root of the export component by component, writes the data to the handle
    that entry got, piece behind piece, and touches the target once: by the
    rename that ends a successful run, sent when the server has taken all of
    the data.  A failed run that had created the temporary entry has it
    removed, or reports that it could not (src/src/v3/blocking.rs). *)

From Stdlib Require Import Strings.String Strings.Byte.
From S2P Require Import Prelude Text Xdr Status Errors Rpc V3Proto V3Calls V3Client V3ClientSpec.
From S2P Require Import V3Blocking V3BlockingSpec.
Import FileHandle (FileHandle).
Import StableHow (StableHow).

#[local] Open Scope Z_scope.

(** ** Traces *)

(** A request and what matters of its answer: the handle a LOOKUP found, whether
    a CREATE made the entry ([Some]) and with which handle, if any, it was
    answered, how many bytes a WRITE took, whether a REMOVE or a RENAME was done. *)
Inductive event :=
  | ELookup (dir : FileHandle) (name : str) (found : option FileHandle)
  | ECreate (dir : FileHandle) (name : str) (made : option (option FileHandle))
  | EWrite (fh : FileHandle) (offset : Z) (data : list byte) (taken : option Z)
  | ECommit (fh : FileHandle)
  | ESetattr (fh : FileHandle)
  | EMkdir (dir : FileHandle) (name : str)
  | ESymlink (dir : FileHandle) (name : str)
  | EMknod (dir : FileHandle) (name : str)
  | ERemove (dir : FileHandle) (name : str) (done : bool)
  | ERmdir (dir : FileHandle) (name : str)
  | ERename (from_dir : FileHandle) (from_name : str) (to_dir : FileHandle) (to_name : str) (done : bool)
  | ELink (file dir : FileHandle) (name : str)
  | EQuery.

(** Requests that change what other clients see of files or names. *)
Definition mutates (e : event) : bool :=
  match e with ELookup _ _ _ | ECommit _ | EQuery => false | _ => true end.

Definition mutations (ev : list event) : list event := filter (λ e, mutates e = true) ev.

Lemma mutations_app ev1 ev2 : mutations (ev1 ++ ev2) = mutations ev1 ++ mutations ev2.
Proof. apply list.filter_app. Qed.

Lemma mutations_none ev : Forall (λ e, mutates e = false) ev → mutations ev = [].
Proof.
  induction 1 as [|e ev He _ IH]; [done|]. unfold mutations. rewrite filter_cons_False; [done|congruence].
Qed.

Record Traced (N : Type) := mkTraced { tr_inner : N; tr_log : list event }.
Arguments mkTraced {N}.
Arguments tr_inner {N}.
Arguments tr_log {N}.

Section traced.
Context {N : Type} `{!Nfs3 N}.

Definition traced {A} (ev : A + Error → event) (m : M N Error A) : M (Traced N) Error A := λ t,
  match m (tr_inner t) with
  | (n, Ok a) => (mkTraced n (tr_log t ++ [ev (inl a)]), Ok a)
  | (n, Err e) => (mkTraced n (tr_log t ++ [ev (inr e)]), Err e)
  | (n, Fault f) => (mkTraced n (tr_log t), Fault f)
  end.

Definition from_answer {A B} (g : A → B) (o : A + Error) : option B :=
  match o with inl a => Some (g a) | inr _ => None end.
Definition answered {A} (o : A + Error) : bool := match o with inl _ => true | inr _ => false end.

#[export] Instance Traced_nfs3 : Nfs3 (Traced N) := {
  nfs_inv t := nfs_inv (tr_inner t);
  nfs_getattr fh := traced (λ _, EQuery) (nfs_getattr fh);
  nfs_setattr fh attr := traced (λ _, ESetattr fh) (nfs_setattr fh attr);
  nfs_lookup dir name :=
    traced (λ o, ELookup dir name (from_answer lookup_object o)) (nfs_lookup dir name);
  nfs_access fh a := traced (λ _, EQuery) (nfs_access fh a);
  nfs_readlink fh := traced (λ _, EQuery) (nfs_readlink fh);
  nfs_read fh off count := traced (λ _, EQuery) (nfs_read fh off count);
  nfs_write fh off stable data := traced (λ o, EWrite fh off data (from_answer write_count o)) (nfs_write fh off stable data);
  nfs_create dir name how :=
    traced (λ o, ECreate dir name (from_answer create_object o)) (nfs_create dir name how);
  nfs_mkdir dir name attr := traced (λ _, EMkdir dir name) (nfs_mkdir dir name attr);
  nfs_symlink dir name tgt attr := traced (λ _, ESymlink dir name) (nfs_symlink dir name tgt attr);
  nfs_mknod dir name what := traced (λ _, EMknod dir name) (nfs_mknod dir name what);
  nfs_remove dir name := traced (λ o, ERemove dir name (answered o)) (nfs_remove dir name);
  nfs_rmdir dir name := traced (λ _, ERmdir dir name) (nfs_rmdir dir name);
  nfs_rename d n d' n' := traced (λ o, ERename d n d' n' (answered o)) (nfs_rename d n d' n');
  nfs_link file dir name := traced (λ _, ELink file dir name) (nfs_link file dir name);
  nfs_readdir dir cookie verf count := traced (λ _, EQuery) (nfs_readdir dir cookie verf count);
  nfs_readdirplus dir cookie verf dc mc := traced (λ _, EQuery) (nfs_readdirplus dir cookie verf dc mc);
  nfs_fsstat fh := traced (λ _, EQuery) (nfs_fsstat fh);
  nfs_fsinfo fh := traced (λ _, EQuery) (nfs_fsinfo fh);
  nfs_pathconf fh := traced (λ _, EQuery) (nfs_pathconf fh);
  nfs_commit fh off count := traced (λ _, ECommit fh) (nfs_commit fh off count);
}.

Context `{!Nfs3Laws N}.

Lemma keeps_traced {A} ev (m : M N Error A) Q : keeps m Q → keeps (traced ev m) Q.
Proof.
  intros Hm t Ht. specialize (Hm (tr_inner t) Ht). unfold post, traced in *.
  by destruct (m (tr_inner t)) as [n [a|e|f]].
Qed.

#[export] Instance Traced_laws : Nfs3Laws (Traced N).
Proof using All.
  split; intros; apply keeps_traced; first [by apply keeps_read|apply keeps_getattr|apply keeps_setattr
    |apply keeps_lookup|apply keeps_write|apply keeps_create|apply keeps_mkdir|apply keeps_remove
    |apply keeps_rmdir|apply keeps_rename|apply keeps_readdir|apply keeps_readdirplus|apply keeps_commit].
Qed.

#[local] Abbreviation log w := (tr_log (nfs (client w))).

(** [w'] is [w] after the requests [ev]. *)
Definition after (w : World (Traced N)) (ev : list event) (w' : World (Traced N)) : Prop :=
  (world_ok w' ∧ root (client w') = root (client w)) ∧ log w' = log w ++ ev.

Lemma after_refl w : world_ok w → after w [] w.
Proof. intros Hw. split; [done|]. by rewrite app_nil_r. Qed.

Lemma after_trans w1 ev1 w2 ev2 w3 : after w1 ev1 w2 → after w2 ev2 w3 → after w1 (ev1 ++ ev2) w3.
Proof. intros [[_ R1] H1] [[Hw R2] H2]. split; [split; [done|congruence]|]. by rewrite H2, H1, app_assoc. Qed.

(** A client of the export whose root is [rt]. *)
Context (rt : FileHandle).
Definition rooted (w : World (Traced N)) : Prop := world_ok w ∧ root (client w) = rt.

Lemma after_rooted w ev w' : rooted w → after w ev w' → rooted w'.
Proof. intros [_ Hr] [[Hw' Hr'] _]. split; [done|congruence]. Qed.

(** [m] adds a trace that, with what it returns, satisfies [P]. *)
Definition emits {A} (m : M (World (Traced N)) Error A) (P : A + Error → list event → Prop) : Prop :=
  ∀ w, rooted w →
    post m w (λ a w', ∃ ev, after w ev w' ∧ P (inl a) ev) (λ e w', ∃ ev, after w ev w' ∧ P (inr e) ev).

Lemma emits_mono {A} (m : M (World (Traced N)) Error A) (P Q : A + Error → list event → Prop) :
  emits m P → (∀ o ev, P o ev → Q o ev) → emits m Q.
Proof. intros Hm HPQ w Hw. eapply post_mono; [by apply Hm|naive_solver|naive_solver]. Qed.

Lemma emits_ret {A} (a : A) (P : A + Error → list event → Prop) : P (inl a) [] → emits (mret a) P.
Proof. intros HP w [Hw _]. apply post_ret. exists []. split; [by apply after_refl|done]. Qed.

Lemma emits_throw {A} e (P : A + Error → list event → Prop) : P (inr e) [] → emits (throw e) P.
Proof. intros HP w [Hw _]. apply post_throw. exists []. split; [by apply after_refl|done]. Qed.

Lemma emits_lift {A} (o : outcome Error A) (P : A + Error → list event → Prop) :
  match o with Ok a => P (inl a) [] | Err e => P (inr e) [] | Fault _ => False end → emits (lift o) P.
Proof. intros HP w [Hw _]. apply post_lift. by destruct o; [exists []; split; [by apply after_refl|done]..|]. Qed.

Lemma emits_self {A} (g : Client (Traced N) → A) (P : A + Error → list event → Prop) :
  (∀ w, rooted w → P (inl (g (client w))) []) → emits (Client.self g) P.
Proof. intros HP w Hw. apply post_gets. exists []. split; [apply after_refl, Hw|auto]. Qed.

Lemma emits_bind {A B} (m : M (World (Traced N)) Error A) (k : A → M (World (Traced N)) Error B)
    P (R : B + Error → list event → Prop) :
  emits m P → (∀ e ev, P (inr e) ev → R (inr e) ev) →
  (∀ a ev1, P (inl a) ev1 → emits (k a) (λ o ev2, R o (ev1 ++ ev2))) →
  emits (m ≫= k) R.
Proof.
  intros Hm HE HK w Hw. apply post_bind. eapply post_mono; [by apply Hm|cbv beta|naive_solver].
  intros a w1 (ev1 & Ha1 & HP). eapply post_mono; [apply (HK a ev1 HP w1); by eapply after_rooted|cbv beta..].
  - intros b w2 (ev2 & Ha2 & HR). exists (ev1 ++ ev2). split; [by eapply after_trans|done].
  - intros e w2 (ev2 & Ha2 & HR). exists (ev1 ++ ev2). split; [by eapply after_trans|done].
Qed.

(** A request is one event. *)
Lemma emits_nfs {A} ev (m : M N Error A) Q :
  keeps m Q →
  emits (Client.self_nfs (traced ev m))
    (λ o evs, evs = [ev o] ∧ match o with inl a => Q a | inr _ => True end).
Proof.
  intros Hm w [[Hi Hs] Hr]. apply post_self_nfs. specialize (Hm (tr_inner (nfs (client w))) Hi).
  unfold post, traced in *. destruct (m _) as [n [a|e|f]]; [| |done].
  - destruct Hm as [HQ Hn]. exists [ev (inl a)]. split_and!; [split; [split; [split; [done|by destruct Hs]|done]|done]|done..].
  - exists [ev (inr e)]. split_and!; [split; [split; [split; [done|by destruct Hs]|done]|done]|done..].
Qed.

(** A loop: [P l] is what its turns from [l] on emit. *)
Lemma emits_loop {L A} (I : L → Prop) (μ : L → Z) (P : L → A + Error → list event → Prop)
    (body : L → M (World (Traced N)) Error (L + A)) fuel l :
  (∀ l, I l → 0 ≤ μ l) →
  (∀ l, I l → emits (body l) (λ o ev,
     match o with
     | inl (inl l') => (I l' ∧ μ l' < μ l) ∧ ∀ o2 ev2, P l' o2 ev2 → P l o2 (ev ++ ev2)
     | inl (inr a) => P l (inl a) ev
     | inr e => P l (inr e) ev
     end)) →
  I l → μ l < Zpos fuel → emits (loop fuel body l) (P l).
Proof.
  intros Hμ Hbody Hl Hfuel w0 Hw0.
  apply (post_loop (λ l' w, I l' ∧ ∃ ev, after w0 ev w ∧ ∀ o2 ev2, P l' o2 ev2 → P l o2 (ev ++ ev2)) (λ l _, μ l)).
  - intros l' w [HI _]. by apply Hμ.
  - intros l' w (HI & ev & Ha & Hev).
    eapply post_mono; [apply (Hbody l' HI w); by eapply after_rooted|cbv beta..].
    + intros [l2|a] w2 (ev2 & Ha2 & Hnext); [destruct Hnext as [[HI2 Hμ2] Hnext]; split; [split; [done|]|done]|];
        exists (ev ++ ev2); (split; [by eapply after_trans|]); [|by apply Hev].
      intros o3 ev3 H3. rewrite <- app_assoc. by apply Hev, Hnext.
    + intros e w2 (ev2 & Ha2 & Hnext). exists (ev ++ ev2). split; [by eapply after_trans|by apply Hev].
  - split; [done|]. exists []. split; [apply after_refl, Hw0|done].
  - done.
Qed.

(** ** Directories *)

(** A trace that changes nothing. *)
Definition silent (ev : list event) : Prop := Forall (λ e, mutates e = false) ev.

(** [d] is where the LOOKUPs of [ev] lead from [current] along [cs]. *)
Fixpoint walked (ev : list event) (current : FileHandle) (cs : list str) (d : FileHandle) : Prop :=
  match cs with
  | [] => d = current
  | c :: cs => ∃ next, ELookup current c (Some next) ∈ ev ∧ walked ev next cs d
  end.

Lemma walked_mono ev ev' current cs d : ev ⊆ ev' → walked ev current cs d → walked ev' current cs d.
Proof.
  intros Hev. revert current. induction cs as [|c cs IH]; intros current; cbn; [done|].
  intros (next & Hin & Hw). exists next. split; [by apply Hev|by apply IH].
Qed.

Lemma emits_walk cs current :
  emits (Client.walk current cs)
    (λ o ev, silent ev ∧ match o with inl d => walked ev current cs d | inr _ => True end).
Proof using All.
  revert current. induction cs as [|c cs IH]; intros current; cbn [Client.walk].
  - apply emits_ret. split; [constructor|done].
  - eapply emits_bind; [apply emits_nfs, keeps_lookup| |].
    + cbv beta. intros e ev [-> _]. split; [by constructor|done].
    + cbv beta. intros r ev1 [-> _]. eapply emits_mono; [apply IH|]. cbv beta. intros o ev2 [Hev Hd].
      split; [by constructor|]. destruct o as [d|e]; [|done]. exists (lookup_object r).
      split; [by left|]. eapply walked_mono; [|exact Hd]. intros e ?. by right.
Qed.

(** The parent directory of [parent ++ [name]] is reached along [parent]. *)
Lemma emits_resolve_parent path parent name :
  normalize_path path = Ok (parent ++ [name]) →
  emits (Client.resolve_parent path)
    (λ o ev, silent ev ∧ match o with inl r => walked ev rt parent r.1 ∧ r.2 = name | inr _ => True end).
Proof using All.
  intros Hpath. unfold Client.resolve_parent. rewrite Hpath.
  apply (emits_bind _ _ (λ o ev, o = inl (parent ++ [name]) ∧ ev = [])); [by apply emits_lift|by intros ?? []|].
  intros cs ev [[= ->] ->]. cbn [app]. rewrite (proj2 (pop_Some (parent ++ [name]) parent name) eq_refl).
  apply (emits_bind _ _ (λ o ev, o = inl (parent, name) ∧ ev = [])); [by apply emits_lift|by intros ?? []|].
  intros a ev [[= ->] ->]. cbn [app].
  apply (emits_bind _ _ (λ o ev, o = inl rt ∧ ev = [])); [apply emits_self; intros w [_ Hr]; by rewrite Hr|by intros ?? []|].
  intros r0 ev [[= ->] ->]. cbn [app]. eapply emits_bind; [apply emits_walk| |]; cbv beta.
  - done.
  - intros d ev [Hev Hd]. apply emits_ret. rewrite app_nil_r. done.
Qed.

(** ** Writing *)

(** WRITEs of [data] to [h] from [offset] on: each sends what comes behind the
    bytes the ones before it took; [rest] is what no answer has said was
    taken.  Behind a WRITE that was refused, or whose answer makes no sense,
    there is none. *)
Inductive writes (h : FileHandle) : Z → list byte → list event → list byte → Prop :=
  | writes_done offset data : writes h offset data [] data
  | writes_took offset data bs n ev rest :
      bs `prefix_of` data → 0 < n ≤ zlen bs → writes h (offset + n) (zdrop n data) ev rest →
      writes h offset data (EWrite h offset bs (Some n) :: ev) rest
  | writes_failed offset data bs taken :
      bs `prefix_of` data → bs ≠ [] → writes h offset data [EWrite h offset bs taken] data.

(** What [write_handle_all] emits: when it returns, everything was taken. *)
Definition writes_all (h : FileHandle) (l : Z * list byte) (o : unit + Error) (ev : list event) : Prop :=
  ∃ rest, writes h l.1 l.2 (mutations ev) rest ∧ match o with inl _ => rest = [] | inr _ => True end.

Lemma writes_all_failed h offset data bs taken e ev :
  mutations ev = [EWrite h offset bs taken] → bs `prefix_of` data → bs ≠ [] → writes_all h (offset, data) (inr e) ev.
Proof. intros Hm Hbs Hne. exists data. split; [|done]. rewrite Hm. by constructor. Qed.

Lemma writes_all_took h offset data bs n ev1 o ev2 :
  mutations ev1 = [EWrite h offset bs (Some n)] → bs `prefix_of` data → 0 < n ≤ zlen bs →
  writes_all h (offset + n, zdrop n data) o ev2 → writes_all h (offset, data) o (ev1 ++ ev2).
Proof.
  intros Hm Hbs Hn (rest & Hw & Ho). exists rest. split; [|done]. rewrite mutations_app, Hm. by constructor.
Qed.

Lemma writes_all_stopped h offset data e : writes_all h (offset, data) (inr e) [].
Proof. exists data. split; [constructor|done]. Qed.

Lemma ztake_prefix {A} n (l : list A) : ztake n l `prefix_of` l.
Proof. exists (zdrop n l). symmetry. apply take_drop. Qed.

(** The COMMIT behind a WRITE changes nothing. *)
Lemma emits_commit_written handle offset r stable :
  emits (if negb (StableHow.satisfies (write_committed r) stable) then
           commit ← Client.self_nfs (nfs_commit handle offset (write_count r));
           if negb (bool_decide (commit_verifier commit = write_verifier r))
           then throw (Protocol [PLit "COMMIT verifier changed after unstable WRITE"])
           else mret tt
         else mret tt) (λ _ ev, mutations ev = []).
Proof using All.
  destruct (negb _); [|by apply emits_ret]. eapply emits_bind; [apply emits_nfs, keeps_commit| |]; cbv beta.
  - by intros e ev [-> _].
  - intros commit ev [-> _]. destruct (negb _); [by apply emits_throw|by apply emits_ret].
Qed.

Lemma emits_write_handle_all handle offset data stable :
  zlen data ≤ isize_max →
  emits (Client.write_handle_all handle offset data stable) (writes_all handle (offset, data)).
Proof using All.
  intros Hlen. unfold Client.write_handle_all. pose proof (zlen_nonneg data).
  apply (emits_loop (λ l, zlen l.2 ≤ isize_max) (λ l, zlen l.2)); [|  |done|cbn; lia].
  { intros l _. apply zlen_nonneg. }
  intros [off d] Hd. cbn in Hd. unfold Client.write_handle_all_step.
  destruct (is_empty d) eqn:He.
  { apply emits_ret. destruct d; [|done]. exists []. split; [constructor|done]. }
  apply is_empty_false in He.
  apply (emits_bind _ _ (λ o ev, ev = [] ∧ ∃ size, o = inl size ∧ 1 ≤ size ≤ MAX_IO_BYTES));
    [apply emits_self; intros w [[_ Hs] _]; split; [done|]; eexists; split; [done|apply Hs]|by intros ?? (_ & ? & ? & _)|].
  intros size ev (-> & ? & [= <-] & Hsize). cbn [app].
  set (bs := ztake (Z.min (zlen d) size) d).
  assert (zlen bs = Z.min (zlen d) size) as Hz by (apply zlen_take; lia).
  assert (bs `prefix_of` d) as Hbs by apply ztake_prefix.
  assert (bs ≠ []) as Hne by (intros ->; unfold zlen in Hz at 1; cbn in Hz; lia).
  eapply emits_bind; [apply emits_nfs, keeps_write| |]; cbv beta.
  { intros e ev [-> _]. by eapply writes_all_failed. }
  intros r ev [-> Hr]. unfold write_ok in Hr. rewrite Hz in Hr. destruct Hr as [Hc Hpos]. cbn [from_answer].
  destruct (_ =? 0); [apply emits_throw; by eapply writes_all_failed|].
  destruct (_ >? _); [apply emits_throw; by eapply writes_all_failed|].
  eapply emits_bind; [apply emits_commit_written| |]; cbv beta.
  { intros e ev Hev. apply (writes_all_took _ _ _ bs (write_count r)); [done|done|lia|]. 
    exists (zdrop (write_count r) d). rewrite Hev. split; [constructor|done]. }
  intros [] ev Hev.
  assert (∀ o ev2, writes_all handle (off + write_count r, zdrop (write_count r) d) o ev2 →
    writes_all handle (off, d) o (([EWrite handle off bs (Some (write_count r))] ++ ev) ++ ev2)) as Hnext.
  { intros o ev2. eapply writes_all_took; [by rewrite mutations_app, Hev|done|lia]. }
  destruct (advance_offset_cases off (write_count r) "WRITE") as [[Ho ->]|[Ho ->]]; [int_unfold; lia| |].
  - apply (emits_bind _ _ (λ o ev, o = inl (off + write_count r) ∧ ev = [])); [by apply emits_lift|by intros ?? []|].
    intros a ev2 [[= ->] ->]. apply emits_ret. rewrite !app_assoc, !app_nil_r. split; [|exact Hnext].
    cbn. rewrite zlen_drop by lia. lia.
  - apply (emits_bind _ _ (λ o ev, (∃ e, o = inr e) ∧ ev = [])); [apply emits_lift; by eauto| |by intros ?? [[]]].
    intros e ev2 [_ ->]. rewrite app_assoc. apply Hnext, writes_all_stopped.
Qed.

(** ** Atomic writes *)

(** [h] is the handle the server gave for [name] in [dir]. *)
Definition obtained (dir : FileHandle) (name : str) (h : FileHandle) (ev : list event) : Prop :=
  ECreate dir name (Some (Some h)) ∈ ev ∨ ELookup dir name (Some h) ∈ ev.

Lemma obtained_app_l dir name h ev1 ev2 : obtained dir name h ev1 → obtained dir name h (ev1 ++ ev2).
Proof. unfold obtained. rewrite !elem_of_app. tauto. Qed.

Lemma walked_app_l ev1 ev2 current cs d : walked ev1 current cs d → walked (ev1 ++ ev2) current cs d.
Proof. apply walked_mono. intros e ?. apply elem_of_app. by left. Qed.
Lemma walked_app_r ev1 ev2 current cs d : walked ev2 current cs d → walked (ev1 ++ ev2) current cs d.
Proof. apply walked_mono. intros e ?. apply elem_of_app. by right. Qed.

Lemma emits_handle_from_create parent name result :
  emits (Client.handle_from_create_result parent name result)
    (λ o ev, silent ev ∧ match o with
       | inl h => create_object result = Some h ∨ ELookup parent name (Some h) ∈ ev
       | inr _ => True end).
Proof using All.
  unfold Client.handle_from_create_result. destruct (create_object result) as [h|].
  { apply emits_ret. split; [constructor|by left]. }
  eapply emits_bind; [apply emits_nfs, keeps_lookup| |]; cbv beta.
  - intros e ev [-> _]. split; [by constructor|done].
  - intros r ev [-> _]. apply emits_ret. split; [by constructor|]. right. by left.
Qed.

Lemma post_untouched {S A} (m : M S Error A) s (b : bool) Q X :
  post m s (λ a s', Q a (s', b)) (λ e s', X e (s', b)) → post (Client.untouched m) (s, b) Q X.
Proof. unfold post, Client.untouched, zoom. cbn. by destruct (m s) as [s' [a|e|f]]. Qed.

(** No file was created: at most a CREATE was sent, and it failed. *)
Definition not_created (parent : list str) (tn : str) (ev : list event) : Prop :=
  mutations ev = [] ∨ ∃ d, walked ev rt parent d ∧ mutations ev = [ECreate d tn None].

(** The creation of the temporary file [parent ++ [tn]], and the flag it sets. *)
Lemma post_create_guarded temp parent tn mode w :
  normalize_path temp = Ok (parent ++ [tn]) → rooted w →
  post (Client.create_guarded_handle temp mode) (w, false)
    (λ h s, ∃ ev d made, after w ev s.1 ∧ s.2 = true ∧ walked ev rt parent d
       ∧ mutations ev = [ECreate d tn (Some made)] ∧ obtained d tn h ev)
    (λ _ s, ∃ ev, after w ev s.1 ∧
       ((s.2 = false ∧ not_created parent tn ev)
        ∨ (s.2 = true ∧ ∃ d made, walked ev rt parent d ∧ mutations ev = [ECreate d tn (Some made)]))).
Proof using All.
  intros Htn Hw. unfold Client.create_guarded_handle.
  apply post_bind, post_untouched. eapply post_mono; [by apply (emits_resolve_parent temp parent tn)|cbv beta|cbv beta].
  2: { intros e w1 (ev & Haft & Hs & _). exists ev. split; [done|]. left. split; [done|left; by apply mutations_none]. }
  intros [d name] w1 (ev1 & Ha1 & Hs1 & Hd & Hn). cbn in Hd, Hn. subst name.
  apply post_bind, post_untouched.
  eapply post_mono; [apply (emits_nfs _ _ _ (keeps_create d tn _)); by eapply after_rooted|cbv beta|cbv beta].
  2: { intros e w2 (ev2 & Ha2 & -> & _). exists (ev1 ++ [ECreate d tn None]).
       split; [by eapply after_trans|]. left. split; [done|]. right. exists d. split; [by apply walked_app_l|].
       by rewrite mutations_app, (mutations_none ev1 Hs1). }
  intros r w2 (ev2 & Ha2 & -> & _). cbn [from_answer] in Ha2.
  apply post_bind. unfold post at 1, modify. cbn [fst].
  set (ev2 := [ECreate d tn (Some (create_object r))]) in *.
  assert (after w (ev1 ++ ev2) w2) as Ha12 by by eapply after_trans.
  assert (∀ ev3, silent ev3 → mutations ((ev1 ++ ev2) ++ ev3) = ev2) as Hm.
  { intros ev3 H3. by rewrite !mutations_app, (mutations_none ev1 Hs1), (mutations_none ev3 H3). }
  assert (∀ ev3, walked ((ev1 ++ ev2) ++ ev3) rt parent d) as Hwd by (intros; by do 2 apply walked_app_l).
  apply post_untouched.
  eapply post_mono; [apply (emits_handle_from_create d tn r); by eapply after_rooted; [exact Hw|]|cbv beta..].
  - intros h w3 (ev3 & Ha3 & Hs3 & Hh). exists ((ev1 ++ ev2) ++ ev3), d, (create_object r).
    split_and!; [by eapply after_trans|done|done|by apply Hm|].
    unfold obtained, ev2. destruct Hh as [<-|Hh]; [left|right]; rewrite !elem_of_app, ?list_elem_of_singleton; tauto.
  - intros e w3 (ev3 & Ha3 & Hs3 & _). exists ((ev1 ++ ev2) ++ ev3).
    split; [by eapply after_trans|]. right. split; [done|]. exists d, (create_object r). split; [done|by apply Hm].
Qed.

Lemma emits_rename from to parent1 n1 parent2 n2 :
  normalize_path from = Ok (parent1 ++ [n1]) → normalize_path to = Ok (parent2 ++ [n2]) →
  emits (Client.rename from to)
    (λ o ev, (mutations ev = [] ∧ answered o = false) ∨ ∃ d1 d2, walked ev rt parent1 d1 ∧ walked ev rt parent2 d2
       ∧ mutations ev = [ERename d1 n1 d2 n2 (answered o)]).
Proof using All.
  intros Hfrom Hto. unfold Client.rename. eapply emits_bind; [by apply emits_resolve_parent| |]; cbv beta.
  { intros e ev [Hs _]. left. split; [by apply mutations_none|done]. }
  intros [d1 n] ev1 (Hs1 & Hd1 & Hn). cbn in Hd1, Hn. subst n.
  eapply emits_bind; [by apply emits_resolve_parent| |]; cbv beta.
  { intros e ev [Hs _]. left. rewrite mutations_app, !mutations_none by done. split; done. }
  intros [d2 n] ev2 (Hs2 & Hd2 & Hn). cbn in Hd2, Hn. subst n.
  assert (∀ ev3, mutations (ev1 ++ ev2 ++ ev3) = mutations ev3) as Hm.
  { intros ev3. by rewrite !mutations_app, (mutations_none ev1 Hs1), (mutations_none ev2 Hs2). }
  eapply emits_bind; [apply emits_nfs, keeps_rename| |]; cbv beta.
  - intros e ev [-> _]. right. exists d1, d2. rewrite Hm.
    split_and!; [by apply walked_app_l|by apply walked_app_r, walked_app_l|done].
  - intros r ev [-> _]. apply emits_ret. right. exists d1, d2. rewrite app_nil_r, Hm.
    split_and!; [by apply walked_app_l|by apply walked_app_r, walked_app_l|done].
Qed.

Lemma emits_remove path parent n :
  normalize_path path = Ok (parent ++ [n]) →
  emits (Client.remove path)
    (λ o ev, (mutations ev = [] ∧ answered o = false)
       ∨ ∃ d, walked ev rt parent d ∧ mutations ev = [ERemove d n (answered o)]).
Proof using All.
  intros Hpath. unfold Client.remove. eapply emits_bind; [by apply emits_resolve_parent| |]; cbv beta.
  { intros e ev [Hs _]. left. split; [by apply mutations_none|done]. }
  intros [d n'] ev1 (Hs1 & Hd & Hn). cbn in Hd, Hn. subst n'.
  eapply emits_bind; [apply emits_nfs, keeps_remove| |]; cbv beta.
  - intros e ev [-> _]. right. exists d. split; [by apply walked_app_l|]. by rewrite mutations_app, mutations_none by done.
  - intros r ev [-> _]. apply emits_ret. right. exists d. rewrite app_nil_r. split; [by apply walked_app_l|].
    by rewrite mutations_app, (mutations_none _ Hs1).
Qed.

(** What a run of an atomic write of [data] over [parent ++ [name]], with the
    temporary name [tn], asked for when it got as far as creating the
    temporary file in a directory reached along [parent]: writes of the data,
    in order, to the handle of that file; perhaps ([renamed], with the answer)
    the rename over [name], and only when all data was taken; perhaps
    ([removed]) the removal of the temporary file. *)
Definition atomic_requests (parent : list str) (tn name : str) (data : list byte)
    (renamed removed : option bool) (ev : list event) : Prop :=
  ∃ d made h chunks rest ren rem,
    mutations ev = ECreate d tn (Some made) :: chunks ++ ren ++ rem
    ∧ walked ev rt parent d
    ∧ (writes h 0 data chunks rest ∧ (chunks ≠ [] → obtained d tn h ev))
    ∧ match renamed with
      | Some done => rest = [] ∧ ∃ d1 d2, walked ev rt parent d1 ∧ walked ev rt parent d2
          ∧ ren = [ERename d1 tn d2 name done]
      | None => ren = []
      end
    ∧ match removed with
      | Some done => ∃ d3, walked ev rt parent d3 ∧ rem = [ERemove d3 tn done]
      | None => rem = []
      end.

(** More requests: none that change anything, or the removal. *)
Lemma atomic_requests_app parent tn name data renamed removed ev1 ev2 :
  atomic_requests parent tn name data renamed None ev1 →
  match removed with
  | Some done => ∃ d3, walked ev2 rt parent d3 ∧ mutations ev2 = [ERemove d3 tn done]
  | None => mutations ev2 = []
  end →
  atomic_requests parent tn name data renamed removed (ev1 ++ ev2).
Proof.
  intros (d & made & h & chunks & rest & ren & rem & Hm & Hd & [Hc Ho] & Hren & ->) H2.
  exists d, made, h, chunks, rest, ren, (mutations ev2). rewrite mutations_app, Hm.
  split_and!; [by rewrite app_nil_r; cbn; rewrite app_assoc|by apply walked_app_l|done| | |].
  - intros Hne. by apply obtained_app_l, Ho.
  - destruct renamed as [r|]; [|done]. destruct Hren as (Hr & d1 & d2 & H1 & H3 & ->). split; [done|].
    exists d1, d2. split_and!; [by apply walked_app_l..|done].
  - destruct removed as [r|]; [|done]. destruct H2 as (d3 & H3 & ->). exists d3. split; [by apply walked_app_r|done].
Qed.

(** The closure of an atomic write: what it asked for, and the flag. *)
Definition atomic_body (temp path : str) (data : list byte) (mode : Z) (stable : StableHow)
    : M (World (Traced N) * bool) Error unit :=
  handle ← Client.create_guarded_handle temp mode;
  Client.untouched (Client.write_handle_all handle 0 data stable) ;;
  Client.untouched (Client.rename temp path).

Lemma post_atomic_body temp path parent tn name data mode stable w :
  normalize_path temp = Ok (parent ++ [tn]) → normalize_path path = Ok (parent ++ [name]) →
  zlen data ≤ isize_max → rooted w →
  post (atomic_body temp path data mode stable) (w, false)
    (λ _ s, ∃ ev, after w ev s.1 ∧ atomic_requests parent tn name data (Some true) None ev)
    (λ _ s, ∃ ev, after w ev s.1 ∧
       ((s.2 = false ∧ not_created parent tn ev)
        ∨ (s.2 = true ∧ ∃ renamed, renamed ≠ Some true ∧ atomic_requests parent tn name data renamed None ev))).
Proof using All.
  intros Htn Hname Hlen Hw. unfold atomic_body. apply post_bind.
  eapply post_mono; [by apply (post_create_guarded temp parent tn)|cbv beta|cbv beta].
  2: { intros e s (ev & Ha & [Hs|(Hs & d & made & Hd & Hm)]); exists ev; (split; [done|]); [by left|right; split; [done|]].
       exists None. split; [done|]. exists d, made, d, [], data, [], []. rewrite Hm. by split_and!; [..|constructor| | |]. }
  intros h [w1 b] (ev1 & d & made & Ha1 & Hb & Hd & Hm1 & Ho1). cbn in Hb, Ha1. subst b.
  pose proof (after_rooted _ _ _ Hw Ha1) as Hw1. apply post_bind, post_untouched.
  assert (∀ o ev2, writes_all h (0, data) o ev2 →
    atomic_requests parent tn name data None None (ev1 ++ ev2)) as Hwritten.
  { intros o ev2 (rest & Hw2 & _). exists d, made, h, (mutations ev2), rest, [], [].
    rewrite mutations_app, Hm1, !app_nil_r. split_and!; [done|by apply walked_app_l|done|by intros _; apply obtained_app_l|done..]. }
  eapply post_mono; [by apply (emits_write_handle_all h 0 data stable Hlen)|cbv beta|cbv beta].
  2: { intros e w2 (ev2 & Ha2 & Hw2). exists (ev1 ++ ev2). split; [by eapply after_trans|]. right. split; [done|].
       exists None. split; [done|]. by eapply Hwritten. }
  intros [] w2 (ev2 & Ha2 & Hw2). assert (after w (ev1 ++ ev2) w2) as Ha12 by by eapply after_trans.
  pose proof (after_rooted _ _ _ Hw Ha12) as Hw12.
  assert (∀ ev3 d1 d2 done, walked ev3 rt parent d1 → walked ev3 rt parent d2 → mutations ev3 = [ERename d1 tn d2 name done] →
    atomic_requests parent tn name data (Some done) None ((ev1 ++ ev2) ++ ev3)) as Hdone.
  { intros ev3 d1 d2 done H1 H2 Hm3. destruct Hw2 as (rest & Hw2 & ->).
    exists d, made, h, (mutations ev2), [], [ERename d1 tn d2 name done], [].
    rewrite !mutations_app, Hm1, Hm3. split_and!; [done|by do 2 apply walked_app_l|done| |done| |done].
    - intros _. by do 2 apply obtained_app_l.
    - exists d1, d2. by split_and!; [apply walked_app_r..|]. }
  apply post_untouched. eapply post_mono; [by apply (emits_rename temp path parent tn parent name)|cbv beta..].
  - intros [] w3 (ev3 & Ha3 & [[_ ?]|(d1 & d2 & H1 & H2 & Hm3)]); [done|].
    exists ((ev1 ++ ev2) ++ ev3). split; [by eapply after_trans|]. by apply (Hdone ev3 d1 d2).
  - intros e w3 (ev3 & Ha3 & [[Hm3 _]|(d1 & d2 & H1 & H2 & Hm3)]);
      exists ((ev1 ++ ev2) ++ ev3); (split; [by eapply after_trans|]); right; (split; [done|]);
      [exists None|exists (Some false)]; (split; [done|]).
    + apply atomic_requests_app; [by eapply Hwritten|done].
    + by apply (Hdone ev3 d1 d2).
Qed.

End traced.

Section atomic.
Context {N : Type} `{!Nfs3 N, !Nfs3Laws N}.

(** A whole atomic write. *)
Lemma post_write_atomic path parent name data mode stable (w : World (Traced N))
    (tn := temp_name (env w)) (rt := root (client w)) :
  world_ok w → env_ok (env w) → normalize_path path = Ok (parent ++ [name]) → zlen data ≤ isize_max →
  post (Client.write_atomic_with_mode_and_stability path data mode stable) w
    (λ _ w', ∃ ev, after w ev w' ∧ atomic_requests rt parent tn name data (Some true) None ev)
    (λ e w', ∃ ev, after w ev w' ∧
       (not_created rt parent tn ev
        ∨ ∃ renamed removed, renamed ≠ Some true ∧ atomic_requests rt parent tn name data renamed removed ev
            ∧ (removed = Some true ∨ ∃ ctx e1 e2, e = Cleanup ctx e1 e2))).
Proof using All.
  intros Hw Henv Hname Hlen. unfold Client.write_atomic_with_mode_and_stability.
  pose proof (temporary_sibling_path_spec path (env w) Henv) as Ht. rewrite Hname in Ht.
  rewrite (proj2 (pop_Some (parent ++ [name]) parent name) eq_refl) in Ht.
  destruct Ht as (temp & Htemp & Hnorm). fold tn in Hnorm.
  set (w1 := mkWorld (client w) (next_env (env w))).
  apply post_bind. unfold post at 1, Client.self_env, zoom. rewrite Htemp. fold w1.
  assert (rooted rt w1) as Hw1 by done.
  pose proof (post_atomic_body rt temp path parent tn name data mode stable w1 Hnorm Hname Hlen Hw1) as Hbody.
  apply post_bind. unfold post at 1, Client.run_created.
  fold (atomic_body temp path data mode stable). unfold post in Hbody.
  destruct (atomic_body temp path data mode stable (w1, false)) as [[w2 b] [[]|e|f]]; [| |done].
  - by apply post_ret.
  - destruct Hbody as (ev & Ha & [[Hb Hno]|(Hb & renamed & Hne & Hreq)]); cbn in Hb, Ha; subst b; cbn [Client.finish_with_temp_cleanup].
    { apply post_throw. exists ev. split; [done|by left]. }
    apply post_bind, post_attempt.
    eapply post_mono; [apply (emits_remove rt temp parent tn Hnorm); by eapply after_rooted|cbv beta..].
    + intros [] w3 (ev3 & Ha3 & [[_ ?]|(d3 & Hd3 & Hm3)]); [done|].
      apply post_throw. exists (ev ++ ev3). split; [by eapply after_trans|]. right.
      exists renamed, (Some true). split_and!; [done| |by left].
      apply atomic_requests_app; [done|]. by exists d3.
    + intros e' w3 (ev3 & Ha3 & Hm3); apply post_throw; exists (ev ++ ev3).
      split; [by eapply after_trans|]. right. destruct Hm3 as [[Hm3 _]|(d3 & Hd3 & Hm3)].
      * exists renamed, None. split_and!; [done| |right; by eexists _, _, _]. by apply atomic_requests_app.
      * exists renamed, (Some false). split_and!; [done| |right; by eexists _, _, _].
        apply atomic_requests_app; [done|]. by exists d3.
Qed.

End atomic.
