(* ===== verification/V3Remove.v ===== *)
(** * Recursive removal (src/src/v3/blocking.rs, [remove_all])

    Over a server that records its requests ([V3Atomic.Traced]): whatever the
    server lists, everything [remove_all] asks it to remove lies at or below
    the path it was given, in a directory reached from the root of the export
    through proper names, neither "." nor "..".  A directory is replaced by one
    visit for each of its entries but these two, ahead of its own removal. *)

From Stdlib Require Import Strings.String Strings.Byte.
From S2P Require Import Prelude Text Xdr Status Errors Rpc V3Proto V3Calls V3Client V3ClientSpec.
From S2P Require Import V3Blocking V3BlockingSpec V3Atomic.
Import FileHandle (FileHandle).

#[local] Open Scope Z_scope.

(** ** Paths of tasks *)

Definition task_path (t : Client.RemoveTask) : str :=
  match t with Client.Visit p _ | Client.RemoveDir p => p end.

(** The components of [p] begin with [cs].  What [p] names is decided where it
    is used: [normalize_path] refuses it if a component is ".." *)
Definition extends (cs : list str) (p : str) : Prop :=
  p ≠ [] ∧ ∃ suffix, components p = cs ++ suffix.

Lemma extends_join cs p name : extends cs p → extends cs (join_path p name).
Proof.
  intros [Hne [suffix Hs]]. split; [by apply join_path_nonempty|].
  exists (suffix ++ components name). rewrite components_join, Hs by done. by rewrite <- app_assoc.
Qed.

(** A task whose path is accepted names [cs] or something below it. *)
Lemma extends_normalize cs p l :
  extends cs p → normalize_path p = Ok l → Forall clean l ∧ ∃ suffix, l = cs ++ suffix.
Proof.
  intros [_ Hs] (_ & -> & Ha)%normalize_path_Ok. split; [by apply components_clean|done].
Qed.

Section entries.
Context {N : Type} `{!Nfs3 N}.

Lemma push_children_extends cs p entries stack :
  extends cs p → Forall (λ t, extends cs (task_path t)) stack →
  Forall (λ t, extends cs (task_path t)) (Client.push_children p entries stack).
Proof.
  intros Hp. unfold Client.push_children. generalize (rev entries) as l. intros l. revert stack.
  induction l as [|e l IH]; intros stack Hst; cbn [fold_left]; [done|]. apply IH.
  destruct (_ || _); [done|]. constructor; [by apply extends_join|done].
Qed.

(** One task, on every branch: what is left to do still extends [cs]. *)
Lemma remove_all_step_extends cs stack w w' stack' :
  Forall (λ t, extends cs (task_path t)) stack →
  Client.remove_all_step stack w = (w', Ok (inl stack')) →
  Forall (λ t, extends cs (task_path t)) stack'.
Proof.
  intros Hst H. destruct stack as [|[p t|p] stack]; cbn [Client.remove_all_step] in H.
  - done.
  - inversion_clear Hst as [|?? Hp Hst'].
    apply bind_Ok_inv in H as (w1 & t' & _ & H). destruct (bool_decide _).
    + apply bind_Ok_inv in H as (w2 & entries & _ & H). injection H as <- <-.
      apply push_children_extends; [done|]. by constructor.
    + apply bind_Ok_inv in H as (w2 & u & _ & H). by injection H as <- <-.
  - inversion_clear Hst as [|?? Hp Hst'].
    apply bind_Ok_inv in H as (w2 & u & _ & H). by injection H as <- <-.
Qed.

(** The entries of a directory other than itself and its parent. *)
Definition proper (e : DirEntry) : Prop := dir_name e ≠ [dot] ∧ dir_name e ≠ [dot; dot].
#[global] Instance proper_dec e : Decision (proper e).
Proof. unfold proper. apply _. Defined.

(** [t] visits exactly the entry [e] of the directory [pcs]. *)
Definition visit_of (pcs : list str) (t : Client.RemoveTask) (e : DirEntry) : Prop :=
  ∃ child, t = Client.Visit child (FileAttr.file_type <$> dir_attributes e)
    ∧ normalize_path child = Ok (pcs ++ [dir_name e]).

Lemma push_children_app p l1 l2 stack :
  Client.push_children p (l1 ++ l2) stack = Client.push_children p l1 (Client.push_children p l2 stack).
Proof. unfold Client.push_children. by rewrite rev_app_distr, fold_left_app. Qed.

Lemma push_children_cons p e l stack :
  Client.push_children p (e :: l) stack =
  if bool_decide (proper e)
  then Client.Visit (join_path p (dir_name e)) (FileAttr.file_type <$> dir_attributes e)
         :: Client.push_children p l stack
  else Client.push_children p l stack.
Proof.
  etrans; [apply (push_children_app p [e] l stack)|]. unfold Client.push_children at 1. cbn [rev app fold_left].
  unfold proper. repeat case_bool_decide; naive_solver.
Qed.

Lemma push_children_visits p pcs entries stack :
  normalize_path p = Ok pcs → Forall (λ e, proper e → clean (dir_name e)) entries →
  ∃ visits, Client.push_children p entries stack = visits ++ stack
    ∧ Forall2 (visit_of pcs) visits (filter proper entries).
Proof.
  intros Hp. induction 1 as [|e entries He _ (visits & IH & Hv)]; [exists []; by split; [|constructor]|].
  rewrite push_children_cons, filter_cons, IH. case_bool_decide as Hpr; case_decide; try done.
  - eexists (_ :: visits). split; [done|]. constructor; [|done].
    eexists. split; [done|]. by apply normalize_path_join; [|apply He].
  - by exists visits.
Qed.

(** A directory whose listing holds proper names. *)
Lemma remove_all_step_directory p pcs entries stack w w' :
  normalize_path p = Ok pcs → Client.read_dir p w = (w', Ok entries) →
  Forall (λ e, proper e → clean (dir_name e)) entries →
  ∃ visits,
    Client.remove_all_step (Client.Visit p (Some FileType.Directory) :: stack) w
      = (w', Ok (inl (visits ++ Client.RemoveDir p :: stack)))
    ∧ Forall2 (visit_of pcs) visits (filter proper entries).
Proof.
  intros Hp Hl He. destruct (push_children_visits p pcs entries (Client.RemoveDir p :: stack) Hp He) as (visits & Hv & Hf).
  exists visits. split; [|done]. cbn [Client.remove_all_step].
  rewrite (bind_run _ _ w w FileType.Directory eq_refl), bool_decide_eq_true_2 by done.
  rewrite (bind_run _ _ w w' entries Hl). by rewrite Hv.
Qed.

(** [remove_all] never removes the root: it is refused before anything is sent. *)
Lemma remove_all_root fuel path w :
  normalize_path path = Ok [] → Client.remove_all fuel path w = (w, Err (InvalidPath path)).
Proof.
  intros Hn. unfold Client.remove_all. rewrite (bind_run _ _ _ w []); [done|]. unfold lift. by rewrite Hn.
Qed.

End entries.

(** ** Requests of runs that may still be going on *)

Section removal.
Context {N : Type} `{!Nfs3 N, !Nfs3Laws N}.
Context (rt : FileHandle).

(** Traces that can be put together. *)
Class Additive (P : list event → Prop) := {
  additive_nil : P [];
  additive_app ev1 ev2 : P ev1 → P ev2 → P (ev1 ++ ev2);
}.

(** However it ends, and also when it runs out of fuel, [m] has added a trace in [P]. *)
Definition asks {A} (m : M (World (Traced N)) Error A) (P : list event → Prop) : Prop :=
  ∀ w, rooted rt w → ∃ ev, after w ev (m w).1 ∧ P ev.

Lemma emits_asks {A} (m : M (World (Traced N)) Error A) Q P :
  emits rt m Q → (∀ o ev, Q o ev → P ev) → asks m P.
Proof.
  intros Hm HP w Hw. specialize (Hm w Hw). unfold post in Hm.
  destruct (m w) as [w' [a|e|f]]; [| |done]; destruct Hm as (ev & Ha & Hev); exists ev; eauto.
Qed.

Section additive.
Context (P : list event → Prop) `{!Additive P}.

Lemma asks_ret {A} (a : A) : asks (mret a) P.
Proof using Type*. intros w [Hw _]. exists []. split; [by apply after_refl|apply additive_nil]. Qed.
Lemma asks_throw {A} e : asks (A := A) (throw e) P.
Proof using Type*. intros w [Hw _]. exists []. split; [by apply after_refl|apply additive_nil]. Qed.
Lemma asks_lift {A} (o : outcome Error A) : asks (lift o) P.
Proof using Type*. intros w [Hw _]. exists []. split; [by apply after_refl|apply additive_nil]. Qed.
Lemma asks_self {A} (g : Client (Traced N) → A) : asks (Client.self g) P.
Proof using Type*. intros w [Hw _]. exists []. split; [by apply after_refl|apply additive_nil]. Qed.

Lemma asks_bind {A B} (m : M (World (Traced N)) Error A) (k : A → M (World (Traced N)) Error B) :
  asks m P → (∀ a, asks (k a) P) → asks (m ≫= k) P.
Proof using Type*.
  intros Hm Hk w Hw. destruct (Hm w Hw) as (ev1 & Ha1 & H1). unfold mbind, M_bind.
  destruct (m w) as [w1 [a|e|f]]; cbn in Ha1 |- *; [|by exists ev1..].
  destruct (Hk a w1 (after_rooted _ _ _ _ Hw Ha1)) as (ev2 & Ha2 & H2). exists (ev1 ++ ev2).
  split; [by eapply after_trans|by apply additive_app].
Qed.

Lemma asks_attempt {A} (m : M (World (Traced N)) Error A) : asks m P → asks (attempt m) P.
Proof using Type*.
  intros Hm w Hw. destruct (Hm w Hw) as (ev & Ha & H). exists ev. unfold attempt.
  by destruct (m w) as [w1 [a|e|f]].
Qed.

(** A loop, with any fuel: also what it has asked for so far. *)
Lemma asks_loop {L A} (I : L → Prop) (body : L → M (World (Traced N)) Error (L + A)) fuel l :
  (∀ l, I l → asks (body l) P) → (∀ l w w' l', I l → body l w = (w', Ok (inl l')) → I l') →
  I l → asks (loop fuel body l) P.
Proof using Type*.
  intros Hbody HI. revert l. induction fuel as [|p IH] using Pos.peano_ind; intros l Hl w Hw;
    destruct (Hbody l Hl w Hw) as (ev1 & Ha1 & H1).
  - unfold loop, loop_step. simpl. destruct (body l w) as [w1 [[l'|a]|e|f]]; by exists ev1.
  - rewrite loop_succ. destruct (body l w) as [w1 [[l'|a]|e|f]] eqn:Hb; cbn in Ha1 |- *; [|by exists ev1..].
    destruct (IH l' (HI _ _ _ _ Hl Hb) w1 (after_rooted _ _ _ _ Hw Ha1)) as (ev2 & Ha2 & H2).
    exists (ev1 ++ ev2). split; [by eapply after_trans|by apply additive_app].
Qed.

End additive.

(** Changing nothing. *)
Definition changes_nothing (ev : list event) : Prop := mutations ev = [].
#[local] Instance changes_nothing_additive : Additive changes_nothing.
Proof. split; [done|]. unfold changes_nothing. intros ev1 ev2 H1 H2. by rewrite mutations_app, H1, H2. Qed.

(** A request to remove an entry at or below [cs]: the directory was reached by
    LOOKUPs from the root of the export, and all names on the way are proper. *)
Definition removes_inside (cs : list str) (ev : list event) (e : event) : Prop :=
  ∃ parent name d, walked ev rt parent d
    ∧ ((∃ done, e = ERemove d name done) ∨ e = ERmdir d name)
    ∧ Forall clean (parent ++ [name]) ∧ ∃ suffix, parent ++ [name] = cs ++ suffix.

(** All that [ev] changes. *)
Definition inside (cs : list str) (ev : list event) : Prop := Forall (removes_inside cs ev) (mutations ev).

#[local] Instance inside_additive cs : Additive (inside cs).
Proof.
  split; [constructor|]. intros ev1 ev2 H1 H2. unfold inside. rewrite mutations_app.
  apply Forall_app; split; (eapply list.Forall_impl; [eassumption|]); intros e (parent & name & d & Hw & He);
    exists parent, name, d; (split; [|done]); [by apply walked_app_l|by apply walked_app_r].
Qed.

Lemma inside_silent cs ev : changes_nothing ev → inside cs ev.
Proof. unfold inside. by intros ->. Qed.

Lemma asks_quietly {A} (m : M (World (Traced N)) Error A) cs : asks m changes_nothing → asks m (inside cs).
Proof. intros Hm w Hw. destruct (Hm w Hw) as (ev & Ha & Hs). exists ev. split; [done|by apply inside_silent]. Qed.

(** One request that changes nothing. *)
Lemma asks_query {A} ev (m : M N Error A) Q :
  keeps m Q → (∀ o, mutates (ev o) = false) → asks (Client.self_nfs (traced ev m)) changes_nothing.
Proof.
  intros Hm He. eapply emits_asks; [by apply emits_nfs|]. cbv beta. intros o ev' [-> _].
  apply mutations_none. constructor; [apply He|constructor].
Qed.

Lemma asks_resolve path : asks (Client.resolve path) changes_nothing.
Proof using All.
  unfold Client.resolve. apply asks_bind; [apply _|apply asks_lift, _|intros cs].
  apply asks_bind; [apply _|apply asks_self, _|intros fh].
  eapply emits_asks; [apply emits_walk|]. cbv beta. intros o ev [Hs _]. by apply mutations_none.
Qed.

Lemma asks_metadata path : asks (Client.metadata path) changes_nothing.
Proof using All.
  unfold Client.metadata, Client.getattr. apply asks_bind; [apply _|apply asks_resolve|intros fh].
  eapply asks_query; [apply keeps_getattr|done].
Qed.

Lemma asks_read_dir path : asks (Client.read_dir path) changes_nothing.
Proof using All.
  unfold Client.read_dir. apply asks_bind; [apply _|apply asks_self, _|intros max].
  unfold Client.read_dir_with_limit. apply asks_bind; [apply _|apply asks_resolve|intros dir].
  apply (asks_loop _ (λ _, True)); [|done|done]. intros [entries cursor] _. unfold Client.read_dir_step.
  apply asks_bind; [apply _| |intros batch].
  - unfold Client.read_dir_batch. apply asks_bind; [apply _|apply asks_self, _|intros size].
    apply asks_bind; [apply _|apply asks_attempt; [apply _|]; eapply asks_query; [apply keeps_readdirplus|done]|].
    intros [batch|err]; [apply asks_ret, _|]. destruct (is_nfs_status _ _); [|apply asks_throw, _].
    eapply asks_query; [apply keeps_readdir|done].
  - apply asks_bind; [apply _|apply asks_lift, _|intros out].
    apply asks_bind; [apply _|apply asks_lift, _|intros [next|]]; apply asks_ret, _.
Qed.

(** Resolving the parent of a path that extends [cs]. *)
Lemma emits_resolve_parent_of cs path :
  extends cs path →
  emits rt (Client.resolve_parent path) (λ o ev, changes_nothing ev ∧
    match o with
    | inl (d, name) => ∃ parent, walked ev rt parent d ∧ Forall clean (parent ++ [name])
        ∧ ∃ suffix, parent ++ [name] = cs ++ suffix
    | inr _ => True
    end).
Proof using All.
  intros Hp. destruct (normalize_path path) as [l|e|f] eqn:Hn.
  - destruct (extends_normalize _ _ _ Hp Hn) as [Hc Hs].
    destruct l as [|name parent _] using rev_ind.
    + unfold Client.resolve_parent. rewrite Hn.
      apply (emits_bind _ _ _ (λ o ev, o = inl [] ∧ ev = [])); [by apply emits_lift|by intros ?? []|].
      intros cs' ev [[= ->] ->].
      apply (emits_bind _ _ _ (λ o ev, answered o = false ∧ ev = [])); [by apply emits_lift| |by intros ?? []].
      by intros e ev [_ ->].
    + eapply emits_mono; [by apply emits_resolve_parent|]. cbv beta. intros [[d n]|e] ev [Hev Hd].
      * destruct Hd as [Hd Hnm]. cbn in Hd, Hnm. subst n. split; [by apply mutations_none|]. by exists parent.
      * split; [by apply mutations_none|done].
  - unfold Client.resolve_parent. rewrite Hn.
    apply (emits_bind _ _ _ (λ o ev, answered o = false ∧ ev = [])); [by apply emits_lift| |by intros ?? []].
    by intros e' ev [_ ->].
  - by destruct (normalize_path_fault_free path f).
Qed.

(** REMOVE and RMDIR of a path that extends [cs]. *)
Lemma emits_entry {A} cs path (op : FileHandle → str → M (World (Traced N)) Error A) (ev : FileHandle → str → A + Error → event) :
  extends cs path →
  (∀ d name, emits rt (op d name) (λ o evs, evs = [ev d name o])) →
  (∀ d name o, (∃ done, ev d name o = ERemove d name done) ∨ ev d name o = ERmdir d name) →
  emits rt ('(d, name) ← Client.resolve_parent path; op d name ;; mret tt) (λ _ evs, inside cs evs).
Proof using All.
  intros Hp Hop Hev. eapply emits_bind; [by apply emits_resolve_parent_of| |]; cbv beta.
  { intros e evs [Hs _]. by apply inside_silent. }
  intros [d name] ev1 (Hs1 & parent & Hd & Hc & Hsuf).
  assert (∀ o, inside cs (ev1 ++ [ev d name o])) as Hin.
  { intros o. unfold inside. rewrite mutations_app, Hs1. cbn [app].
    apply list.Forall_forall. intros e He. apply list_elem_of_filter in He as [_ ->%list_elem_of_singleton].
    exists parent, name, d. split; [by apply walked_app_l|]. by split; [apply Hev|]. }
  eapply emits_bind; [apply Hop| |]; cbv beta.
  - intros e evs ->. apply Hin.
  - intros r evs ->. apply emits_ret. rewrite app_nil_r. apply Hin.
Qed.

Lemma asks_remove cs path : extends cs path → asks (Client.remove path) (inside cs).
Proof using All.
  intros Hp. unfold Client.remove. eapply emits_asks; [|intros o ev H; exact H].
  eapply (emits_entry cs path _ (λ d name o, ERemove d name (answered o))); [done| |by eauto].
  intros d name. eapply emits_mono; [apply emits_nfs, keeps_remove|]. by intros o ev [-> _].
Qed.

Lemma asks_rmdir cs path : extends cs path → asks (Client.rmdir path) (inside cs).
Proof using All.
  intros Hp. unfold Client.rmdir. eapply emits_asks; [|intros o ev H; exact H].
  eapply (emits_entry cs path _ (λ d name o, ERmdir d name)); [done| |by eauto].
  intros d name. eapply emits_mono; [apply emits_nfs, keeps_rmdir|]. by intros o ev [-> _].
Qed.

(** One task. *)
Lemma asks_remove_all_step cs stack :
  Forall (λ t, extends cs (task_path t)) stack → asks (Client.remove_all_step stack) (inside cs).
Proof using All.
  intros Hst. destruct stack as [|[p t|p] stack]; cbn [Client.remove_all_step].
  - apply asks_ret, _.
  - inversion_clear Hst as [|?? Hp _]. apply asks_bind; [apply _| |intros t'].
    + destruct t; [apply asks_ret, _|]. apply asks_bind; [apply _|apply asks_quietly, asks_metadata|].
      intros attr. apply asks_ret, _.
    + destruct (bool_decide _).
      * apply asks_bind; [apply _|apply asks_quietly, asks_read_dir|]. intros entries. apply asks_ret, _.
      * apply asks_bind; [apply _|by apply asks_remove|]. intros []. apply asks_ret, _.
  - inversion_clear Hst as [|?? Hp _].
    apply asks_bind; [apply _|by apply asks_rmdir|]. intros []. apply asks_ret, _.
Qed.

(** A whole removal, also one that is still going on. *)
Lemma asks_remove_all fuel path cs : normalize_path path = Ok cs → asks (Client.remove_all fuel path) (inside cs).
Proof using All.
  intros Hn. unfold Client.remove_all. apply asks_bind; [apply _|apply asks_lift, _|intros l].
  destruct (is_empty l); [apply asks_throw, _|].
  apply asks_bind; [apply _|apply asks_quietly, asks_metadata|intros attr].
  apply (asks_loop _ (Forall (λ t, extends cs (task_path t)))).
  - apply asks_remove_all_step.
  - intros st w w' st' Hst Hs. exact (remove_all_step_extends cs st w w' st' Hst Hs).
  - constructor; [|constructor]. apply normalize_path_Ok in Hn as (Hne & -> & _). split; [done|].
    exists []. by rewrite app_nil_r.
Qed.

End removal.
