(* ===== verification/V3Mem.v ===== *)
(** * A file server in memory

    [Mem] is a server that implements the interface [Nfs3] with a disk, a cache
    in front of it and a boot counter, driven by a plan that decides for each
    call whether the server restarts before it, whether it fails, how many
    bytes it serves and how stable it makes a write.  It satisfies the laws of
    [V3Calls], the contract of [V3Store] (with plans without restarts) and the
    contract of [V3Durable] (with any plan): the theorems about the client
    apply to it, and their witnesses run on it. *)

From Stdlib Require Import Strings.String Strings.Byte.
From S2P Require Import Prelude Text Xdr Status Errors Rpc V3Proto V3Calls V3Client V3ClientSpec.
From S2P Require Import V3Blocking V3BlockingSpec V3Store V3Durable.
Import FileHandle (FileHandle, mkFileHandle).
Import FileAttr (FileAttr).
Import WccData (WccData, mkWccData).
Import SetAttr (SetAttr).
Import StableHow (StableHow).
Import CreateHow (CreateHow).

#[local] Open Scope Z_scope.

Record choice := mkChoice {
  ch_crash : bool;
  ch_fail : bool;
  ch_quota : Z;
  ch_level : StableHow;
}.

Definition calm : choice := mkChoice false false MAX_IO_BYTES StableHow.FileSync.

Record Mem := mkMem {
  mem_disk : FileHandle → option (list byte);
  mem_cache : FileHandle → option (list byte);
  mem_dirs : FileHandle → str → option FileHandle;
  mem_boot : Z;
  mem_plan : list choice;
}.

Definition mem_restart (m : Mem) : Mem :=
  mkMem (mem_disk m) (mem_disk m) (mem_dirs m) (mem_boot m + 1) (mem_plan m).

Definition put_file (fh : FileHandle) (c : list byte) (f : FileHandle → option (list byte))
    : FileHandle → option (list byte) :=
  λ g, if decide (g = fh) then Some c else f g.

(** Take the next choice, restarting first if it says so. *)
Definition mem_next (m : Mem) : Mem * choice :=
  match mem_plan m with
  | [] => (m, calm)
  | ch :: plan =>
      let m := mkMem (mem_disk m) (mem_cache m) (mem_dirs m) (mem_boot m) plan in
      (if ch_crash ch then mem_restart m else m, ch)
  end.

Definition mem_verf (m : Mem) : list byte := be_bytes 8 (mem_boot m).

Definition no_wcc : WccData := mkWccData None None.

(** A call: fail if the plan says so, else run [body] on the state and choice. *)
Definition mem_call {A} (procedure : string) (body : choice → M Mem Error A) : M Mem Error A := λ m,
  let '(m, ch) := mem_next m in
  if ch_fail ch then (m, Err (Nfs procedure NfsStatus.ServerFault)) else body ch m.

Definition mem_quota (ch : choice) : Z := Z.max 1 (ch_quota ch).

Definition mem_read (fh : FileHandle) (off count : Z) : M Mem Error ReadResult :=
  mem_call "READ" (λ ch m,
    match mem_cache m fh with
    | None => (m, Err (Nfs "READ" NfsStatus.Stale))
    | Some c =>
        let data := ztake (Z.min count (mem_quota ch)) (zdrop off c) in
        (m, Ok (mkReadResult None (zlen data) (zlen data =? zlen (zdrop off c)) data))
    end).

Definition mem_write (fh : FileHandle) (off : Z) (stable : StableHow) (data : list byte)
    : M Mem Error WriteResult :=
  mem_call "WRITE" (λ ch m,
    match mem_cache m fh, mem_disk m fh with
    | Some c, Some d =>
        let n := Z.min (zlen data) (mem_quota ch) in
        let cache := put_file fh (splice c off (ztake n data)) (mem_cache m) in
        let disk := if StableHow.satisfies (ch_level ch) StableHow.DataSync
                    then put_file fh (splice d off (ztake n data)) (mem_disk m) else mem_disk m in
        let m := mkMem disk cache (mem_dirs m) (mem_boot m) (mem_plan m) in
        (m, Ok (mkWriteResult no_wcc n (ch_level ch) (mem_verf m)))
    | _, _ => (m, Err (Nfs "WRITE" NfsStatus.Stale))
    end).

Definition mem_commit (fh : FileHandle) (off count : Z) : M Mem Error CommitResult :=
  mem_call "COMMIT" (λ ch m,
    match mem_cache m fh, mem_disk m fh with
    | Some c, Some d =>
        let disk := put_file fh (splice d off (ztake count (zdrop off c))) (mem_disk m) in
        (mkMem disk (mem_cache m) (mem_dirs m) (mem_boot m) (mem_plan m),
         Ok (mkCommitResult no_wcc (mem_verf m)))
    | _, _ => (m, Err (Nfs "COMMIT" NfsStatus.Stale))
    end).

Definition resize (n : Z) (c : list byte) : list byte := ztake n c ++ zeros (n - zlen c).

Definition mem_setattr (fh : FileHandle) (attr : SetAttr) : M Mem Error WccData :=
  mem_call "SETATTR" (λ ch m,
    match mem_cache m fh, mem_disk m fh, SetAttr.sa_size attr with
    | Some c, Some d, Some n =>
        (mkMem (put_file fh (resize n d) (mem_disk m)) (put_file fh (resize n c) (mem_cache m))
           (mem_dirs m) (mem_boot m) (mem_plan m), Ok no_wcc)
    | Some _, Some _, None => (m, Ok no_wcc)
    | _, _, _ => (m, Err (Nfs "SETATTR" NfsStatus.Stale))
    end).

Definition mem_lookup (dir : FileHandle) (name : str) : M Mem Error LookupResult :=
  mem_call "LOOKUP" (λ ch m,
    match mem_dirs m dir name with
    | Some fh => (m, Ok (mkLookupResult fh None None))
    | None => (m, Err (Nfs "LOOKUP" NfsStatus.NoEnt))
    end).

Definition put_entry (dir : FileHandle) (name : str) (fh : option FileHandle)
    (f : FileHandle → str → option FileHandle) : FileHandle → str → option FileHandle :=
  λ d n, if decide (d = dir ∧ n = name) then fh else f d n.

(** A new empty file; its handle is made from where it was created. *)
Definition mem_create (dir : FileHandle) (name : str) (how : CreateHow) : M Mem Error CreateResult :=
  mem_call "CREATE" (λ ch m,
    match mem_dirs m dir name with
    | Some fh => (m, Err (Nfs "CREATE" NfsStatus.Exist))
    | None =>
        let fh := mkFileHandle (FileHandle.data dir ++ name) in
        (mkMem (put_file fh [] (mem_disk m)) (put_file fh [] (mem_cache m))
           (put_entry dir name (Some fh) (mem_dirs m)) (mem_boot m) (mem_plan m),
         Ok (mkCreateResult (Some fh) None no_wcc))
    end).

Definition mem_remove (dir : FileHandle) (name : str) : M Mem Error WccData :=
  mem_call "REMOVE" (λ ch m,
    match mem_dirs m dir name with
    | Some _ =>
        (mkMem (mem_disk m) (mem_cache m) (put_entry dir name None (mem_dirs m)) (mem_boot m) (mem_plan m),
         Ok no_wcc)
    | None => (m, Err (Nfs "REMOVE" NfsStatus.NoEnt))
    end).

Definition mem_rename (d : FileHandle) (n : str) (d' : FileHandle) (n' : str) : M Mem Error RenameResult :=
  mem_call "RENAME" (λ ch m,
    match mem_dirs m d n with
    | Some fh =>
        (mkMem (mem_disk m) (mem_cache m)
           (put_entry d' n' (Some fh) (put_entry d n None (mem_dirs m))) (mem_boot m) (mem_plan m),
         Ok (mkRenameResult no_wcc no_wcc))
    | None => (m, Err (Nfs "RENAME" NfsStatus.NoEnt))
    end).

Definition unsupported {A} (procedure : string) : M Mem Error A :=
  throw (Nfs procedure NfsStatus.NotSupported).

#[export] Instance Mem_nfs3 : Nfs3 Mem := {
  nfs_inv _ := True;
  nfs_getattr _ := unsupported "GETATTR";
  nfs_setattr := mem_setattr;
  nfs_lookup := mem_lookup;
  nfs_access _ _ := unsupported "ACCESS";
  nfs_readlink _ := unsupported "READLINK";
  nfs_read := mem_read;
  nfs_write := mem_write;
  nfs_create := mem_create;
  nfs_mkdir _ _ _ := unsupported "MKDIR";
  nfs_symlink _ _ _ _ := unsupported "SYMLINK";
  nfs_mknod _ _ _ := unsupported "MKNOD";
  nfs_remove := mem_remove;
  nfs_rmdir _ _ := unsupported "RMDIR";
  nfs_rename := mem_rename;
  nfs_link _ _ _ := unsupported "LINK";
  nfs_readdir _ _ _ _ := unsupported "READDIR";
  nfs_readdirplus _ _ _ _ _ := unsupported "READDIRPLUS";
  nfs_fsstat _ := unsupported "FSSTAT";
  nfs_fsinfo _ := unsupported "FSINFO";
  nfs_pathconf _ := unsupported "PATHCONF";
  nfs_commit := mem_commit;
}.

(** ** The contract of [V3Store] *)

Definition no_crash (m : Mem) : Prop := Forall (λ ch, ch_crash ch = false) (mem_plan m).

Lemma mem_next_calm m :
  no_crash m →
  ∃ ch plan, mem_next m = (mkMem (mem_disk m) (mem_cache m) (mem_dirs m) (mem_boot m) plan, ch)
    ∧ Forall (λ ch, ch_crash ch = false) plan.
Proof.
  unfold no_crash, mem_next. destruct m as [d c dirs b [|ch plan]]; cbn; intros Hp.
  - by exists calm, [].
  - inversion_clear Hp as [|?? Hch Hplan]. rewrite Hch. by exists ch, plan.
Qed.

(** Both views of every file exist. *)
Definition mem_paired (m : Mem) : Prop := ∀ fh, is_Some (mem_disk m fh) ↔ is_Some (mem_cache m fh).

Definition mem_fails (e : Error) : Prop :=
  ∃ p s, e = Nfs p s ∧ (s = NfsStatus.ServerFault ∨ s = NfsStatus.Stale).

Lemma put_file_same fh c f : put_file fh c f fh = Some c.
Proof. unfold put_file. by rewrite decide_True. Qed.
Lemma put_file_other fh g c f : g ≠ fh → put_file fh c f g = f g.
Proof. intros H. unfold put_file. by rewrite decide_False. Qed.

Lemma put_file_paired fh c c' (f g : FileHandle → option (list byte)) :
  (∀ x, is_Some (f x) ↔ is_Some (g x)) →
  ∀ x, is_Some (put_file fh c f x) ↔ is_Some (put_file fh c' g x).
Proof. intros H x. unfold put_file. case_decide; [by split; intros _; eexists|apply H]. Qed.

Lemma put_file_paired_l fh c (f g : FileHandle → option (list byte)) :
  (∀ x, is_Some (f x) ↔ is_Some (g x)) → is_Some (g fh) →
  ∀ x, is_Some (put_file fh c f x) ↔ is_Some (g x).
Proof.
  intros H Hg x. unfold put_file. case_decide; [subst|apply H]. split; [done|]. intros _. by eexists.
Qed.

Lemma put_file_paired_r fh c (f g : FileHandle → option (list byte)) :
  (∀ x, is_Some (f x) ↔ is_Some (g x)) → is_Some (f fh) →
  ∀ x, is_Some (f x) ↔ is_Some (put_file fh c g x).
Proof.
  intros H Hg x. unfold put_file. case_decide; [subst|apply H]. split; [by eexists|done].
Qed.

Lemma paired_disk m fh c : mem_paired m → mem_cache m fh = Some c → ∃ d, mem_disk m fh = Some d.
Proof. intros Hp Hc. destruct (Hp fh) as [_ H]. destruct H as [d Hd]; [by eexists|by exists d]. Qed.

Lemma resize_0 c : resize 0 c = [].
Proof.
  unfold resize, zeros. pose proof (zlen_nonneg c). by replace (Z.to_nat (0 - zlen c)) with 0%nat by lia.
Qed.

Lemma ztake_zlen {A} k (l : list A) : 0 ≤ k → ztake (zlen (ztake k l)) l = ztake k l.
Proof.
  intros Hk. rewrite zlen_ztake_min by done. destruct (decide (k ≤ zlen l)).
  - by rewrite Z.min_l.
  - by rewrite !ztake_all by lia.
Qed.

#[export] Program Instance Mem_store : FileStore Mem := {
  store_inv m := no_crash m ∧ mem_paired m;
  contents := mem_cache;
  entries_of := mem_dirs;
  boot_verf := mem_verf;
  store_fails := mem_fails;
}.
Next Obligation.
  intros m fh off count c [Hnc Hp] Hc Ho Hn. cbn [nfs_read Mem_nfs3].
  destruct (mem_next_calm m Hnc) as (ch & plan & Heq & Hplan).
  unfold post, mem_read, mem_call. rewrite Heq. destruct (ch_fail ch); [by eexists _, _; eauto|].
  cbn. rewrite Hc. set (k := Z.min count (mem_quota ch)).
  assert (0 < k ≤ count) as Hk by (unfold k, mem_quota; lia).
  set (data := ztake k (zdrop off c)).
  assert (zlen data = Z.min k (zlen (zdrop off c))) as Hd by (apply zlen_ztake_min; lia).
  assert (zlen (zdrop off c) = Z.max 0 (zlen c - off)) as Hdr
    by (unfold zlen, zdrop; rewrite length_drop; lia).
  split; [done|]. cbn [read_data read_eof]. split; [lia|]. split_and!.
  - symmetry. apply ztake_zlen. lia.
  - intros He. apply Z.eqb_eq. rewrite He, zlen_nil in Hd |- *. lia.
  - intros He. apply Z.eqb_eq in He. lia.
Qed.
Next Obligation.
  intros m fh off stable data c [Hnc Hp] Hc Ho Hd. cbn [nfs_write Mem_nfs3].
  destruct (mem_next_calm m Hnc) as (ch & plan & Heq & Hplan).
  destruct (paired_disk m fh c Hp Hc) as [d Hdisk].
  unfold post, mem_write, mem_call. rewrite Heq. destruct (ch_fail ch); [by eexists _, _; eauto|].
  cbn. rewrite Hc, Hdisk. cbn. split_and!; [done| |done|done|unfold mem_quota; lia|lia|done| |].
  - destruct (StableHow.satisfies _ _); unfold mem_paired; cbn.
    + by apply put_file_paired.
    + apply put_file_paired_r; [done|]. by eexists.
  - apply put_file_same.
  - intros g Hg. by apply put_file_other.
Qed.
Next Obligation.
  intros m fh off count [Hnc Hp]. cbn [nfs_commit Mem_nfs3].
  destruct (mem_next_calm m Hnc) as (ch & plan & Heq & Hplan).
  unfold post, mem_commit, mem_call. rewrite Heq. destruct (ch_fail ch); [by eexists _, _; eauto|].
  cbn. destruct (mem_cache m fh) as [c|] eqn:Hc; [|by eexists _, _; eauto].
  destruct (paired_disk m fh c Hp Hc) as [d Hdisk]. rewrite Hdisk. cbn.
  split; [|done]. split_and!; [done| |done..]. unfold mem_paired; cbn.
  apply put_file_paired_l; [done|]. rewrite Hc. by eexists.
Qed.
Next Obligation.
  intros m fh [Hnc Hp]. cbn [nfs_setattr Mem_nfs3].
  destruct (mem_next_calm m Hnc) as (ch & plan & Heq & Hplan).
  unfold post, mem_setattr, mem_call. rewrite Heq. destruct (ch_fail ch); [by eexists _, _; eauto|].
  cbn. destruct (mem_cache m fh) as [c|] eqn:Hc; [|by eexists _, _; eauto].
  destruct (paired_disk m fh c Hp Hc) as [d Hdisk]. rewrite Hdisk. cbn.
  split_and!; [done| |done|done| |].
  - unfold mem_paired; cbn. by apply put_file_paired.
  - by rewrite put_file_same, resize_0.
  - intros g Hg. by apply put_file_other.
Qed.
Next Obligation.
  intros m dir name fh [Hnc Hp] He. cbn [nfs_lookup Mem_nfs3].
  destruct (mem_next_calm m Hnc) as (ch & plan & Heq & Hplan).
  unfold post, mem_lookup, mem_call. rewrite Heq. destruct (ch_fail ch); [by eexists _, _; eauto|].
  cbn. by rewrite He.
Qed.

(** ** The contract of [V3Durable] *)

(** Restarts never bring an old verifier back. *)
Definition mem_stable_inv (m : Mem) : Prop :=
  mem_paired m ∧ 0 ≤ mem_boot m ∧ mem_boot m + zlen (mem_plan m) ≤ u64_max.

Lemma mem_next_stable m m' ch :
  mem_stable_inv m → mem_next m = (m', ch) →
  mem_stable_inv m' ∧ mem_disk m' = mem_disk m ∧ mem_boot m ≤ mem_boot m'
  ∧ (mem_boot m' = mem_boot m → mem_cache m' = mem_cache m).
Proof.
  intros (Hp & Hb & Hmax) Heq. unfold mem_next in Heq. destruct (mem_plan m) as [|c plan] eqn:Hpl.
  - injection Heq as <- <-. split_and!; [|done|lia|done]. by rewrite <- Hpl in Hmax.
  - rewrite zlen_cons in Hmax. pose proof (zlen_nonneg plan). injection Heq as <- <-.
    unfold mem_stable_inv, mem_paired. destruct (ch_crash c); cbn; split_and!; try done; lia.
Qed.

Lemma verf_inj b b' : is_u64 b → is_u64 b' → be_bytes 8 b = be_bytes 8 b' → b = b'.
Proof.
  intros Hb Hb' H. apply (f_equal be_Z) in H. rewrite !be_Z_be_bytes in H.
  rewrite !Z.mod_small in H by (int_unfold; lia). done.
Qed.

(** [d] was put in the cache at [off] when the server had this verifier, and is
    still there unless the server has restarted. *)
Definition mem_promised (m : Mem) (fh : FileHandle) (off : Z) (d verf : list byte) : Prop :=
  ∃ b, verf = be_bytes 8 b ∧ 0 ≤ b ≤ mem_boot m
    ∧ (b = mem_boot m → ∃ c, mem_cache m fh = Some c ∧ ztake (zlen d) (zdrop off c) = d).

#[export] Program Instance Mem_stable : StableStore Mem := {
  stable_inv := mem_stable_inv;
  on_disk m fh := default [] (mem_disk m fh);
  promised := mem_promised;
}.
Next Obligation.
  intros m fh off stable data Hinv Ho Hd. cbn [nfs_write Mem_nfs3].
  unfold post, mem_write, mem_call. destruct (mem_next m) as [m1 ch] eqn:Heq.
  destruct (mem_next_stable m m1 ch Hinv Heq) as ((Hp & Hb & Hmax) & Hdisk & _ & _).
  destruct (ch_fail ch); [done|].
  destruct (mem_cache m1 fh) as [c|] eqn:Hc; [|done].
  destruct (mem_disk m1 fh) as [d|] eqn:Hd1; [|done]. cbn.
  set (n := Z.min (zlen data) (mem_quota ch)).
  assert (0 < n ≤ zlen data) as Hn by (unfold n, mem_quota; lia).
  split_and!; [split_and!; [|done|done]|lia|lia| | |].
  - unfold mem_paired; cbn. destruct (StableHow.satisfies _ _); [by apply put_file_paired|].
    apply put_file_paired_r; [done|by eexists].
  - exists (mem_boot m1). split_and!; [done|done|cbn; lia|]. intros _. cbn.
    eexists. split; [apply put_file_same|]. by apply slice_splice.
  - intros g Hg. destruct (StableHow.satisfies _ _); [rewrite put_file_other by done|]; by rewrite Hdisk.
  - destruct (StableHow.satisfies _ _); [rewrite put_file_same|]; rewrite <- Hdisk, Hd1; done.
Qed.
Next Obligation.
  intros m fh off d verf Hinv Ho (b & -> & Hb & Hpr). cbn [nfs_commit Mem_nfs3].
  unfold post, mem_commit, mem_call. destruct (mem_next m) as [m1 ch] eqn:Heq.
  destruct (mem_next_stable m m1 ch Hinv Heq) as ((Hp & Hb1 & Hmax) & Hdisk & Hle & Hcache).
  destruct (ch_fail ch); [done|].
  destruct (mem_cache m1 fh) as [c|] eqn:Hc; [|done].
  destruct (mem_disk m1 fh) as [dd|] eqn:Hd1; [|done]. cbn.
  pose proof (zlen_nonneg (mem_plan m1)). split_and!; [split_and!; [|done|done]| |].
  - unfold mem_paired; cbn. apply put_file_paired_l; [done|]. rewrite Hc. by eexists.
  - intros g Hg. by rewrite put_file_other, Hdisk.
  - intros Hv. unfold mem_verf in Hv. apply verf_inj in Hv; [|unfold is_u64; lia..]. rewrite put_file_same.
    assert (b = mem_boot m) as Hbm by lia.
    destruct (Hpr Hbm) as (c' & Hc' & Hslice). rewrite Hcache, Hc' in Hc by lia.
    injection Hc as <-. rewrite Hslice. by rewrite <- Hdisk, Hd1.
Qed.

(** ** The laws of the interface *)

Lemma keeps_mem_call {A} procedure (body : choice → M Mem Error A) (Q : A → Prop) :
  (∀ ch m, match (body ch m).2 with Ok a => Q a | Err _ => True | Fault _ => False end) →
  keeps (mem_call procedure body) Q.
Proof.
  intros Hb m _. unfold post, mem_call. destruct (mem_next m) as [m1 ch].
  destruct (ch_fail ch); [done|]. specialize (Hb ch m1).
  by destruct (body ch m1) as [m2 [a|e|f]].
Qed.

Lemma keeps_unsupported {A} procedure (Q : A → Prop) : keeps (N := Mem) (unsupported procedure) Q.
Proof. by intros m _. Qed.

#[export] Instance Mem_laws : Nfs3Laws Mem.
Proof.
  split; intros; try apply keeps_unsupported; apply keeps_mem_call; intros ch m.
  - by destruct (mem_cache m fh), (mem_disk m fh), (SetAttr.sa_size attr).
  - by destruct (mem_dirs m dir name).
  - destruct (mem_cache m fh) as [c|]; [|done]. cbn.
    set (data := ztake (Z.min count (mem_quota ch)) (zdrop offset c)).
    assert (zlen data = Z.min (Z.min count (mem_quota ch)) (zlen (zdrop offset c))) as Hd
      by (apply zlen_ztake_min; unfold mem_quota; lia).
    unfold read_ok; cbn. split_and!; [done|lia|]. intros Hpos Hz. apply Z.eqb_eq.
    unfold mem_quota in Hd. pose proof (zlen_nonneg (zdrop offset c)). lia.
  - destruct (mem_cache m fh), (mem_disk m fh); try done. cbn. unfold write_ok, mem_quota; cbn.
    pose proof (zlen_nonneg data). lia.
  - by destruct (mem_dirs m dir name).
  - by destruct (mem_dirs m dir name).
  - by destruct (mem_dirs m d1 n1).
  - by destruct (mem_cache m fh), (mem_disk m fh).
Qed.
