(* ===== verification/V3Connect.v ===== *)
(** * Connecting (src/src/v3/blocking.rs, src/src/v3/portmap.rs, src/src/rpc.rs)

    [RpcClient::connect_with_timeout] and [get_tcp_port_with_timeout] over the
    operating system's sockets ([Network]); [Client::connect_with_builder] and
    the free functions around MOUNT over the services they use ([Services]).
    [Conns], a table of open RPC connections, implements the services with the
    clients of [Mount] and [V3Calls]. *)

From Stdlib Require Import Strings.String Strings.Byte.
From S2P Require Import Prelude Text Xdr Status Errors Rpc V3Proto V3Calls V3Client V3ClientSpec.
From S2P Require Import Mount V3Blocking V3BlockingSpec.
Import FileHandle (FileHandle).
Import ClientBuilder (ClientBuilder).
Import Nfs3Client (Nfs3Client, mkNfs3Client).

#[local] Open Scope Z_scope.

(** ** Sockets *)

Class Network (W Addr St : Type) := {
  net_resolve : str → Z → M W ErrorKind (list Addr);
  net_connect : str → Z → M W ErrorKind St;
  net_connect_timeout : Z → Addr → M W ErrorKind St;
  net_set_nodelay : St → M W ErrorKind unit;
  net_set_read_timeout : St → option Z → M W ErrorKind unit;
  net_set_write_timeout : St → option Z → M W ErrorKind unit;
  net_stamp : W → Z;
}.

Section sockets.
Context {W Addr St : Type} `{!Network W Addr St, !Transport St}.

Definition connect_stream (host : str) (port : Z) (timeout : option Z) : M W Error St :=
  match timeout with
  | None => map_err Io (net_connect host port)
  | Some timeout =>
      addrs ← map_err Io (net_resolve host port);
      connect_tcp_stream (net_connect_timeout timeout) None addrs
  end.

Definition RpcClient_create (stream : St) (auth : Auth) : M W Error (RpcClient St) :=
  map_err Io (net_set_nodelay stream) ;;
  stamp ← gets net_stamp;
  mret (RpcClient_new stream auth stamp).

Definition RpcClient_set_timeout (client : RpcClient St) (timeout : option Z) : M W Error unit :=
  map_err Io (net_set_read_timeout (stream client) timeout) ;;
  map_err Io (net_set_write_timeout (stream client) timeout).

Definition RpcClient_connect_with_timeout (host : str) (port : Z) (auth : Auth) (timeout : option Z)
    : M W Error (RpcClient St) :=
  stream ← connect_stream host port timeout;
  client ← RpcClient_create stream auth;
  RpcClient_set_timeout client timeout ;;
  mret client.

(** [let mut client = ..; client.get_port(..)?]. *)
Definition get_tcp_port_with_timeout (host : str) (program version : Z) (timeout : option Z)
    : M W Error Z :=
  client ← RpcClient_connect_with_timeout host PMAP_PORT Auth_None timeout;
  port ← lift (get_port (Mapping_tcp program version) client).2;
  if port =? 0 then throw (PortUnavailable program version) else mret port.

End sockets.

(** ** Services *)

(** What connecting uses: the portmapper, MOUNT connections (behind handles)
    and NFS connections. *)
Class Services (W Mnt N : Type) := {
  sv_get_tcp_port : str → Z → Z → option Z → M W Error Z;
  sv_mount_connect : str → Z → AuthSys → option Z → M W Error Mnt;
  sv_mount_set_timeout : Mnt → option Z → M W Error unit;
  sv_mount : Mnt → str → M W Error MountInfo;
  sv_unmount : Mnt → str → M W Error unit;
  sv_unmount_all : Mnt → M W Error unit;
  sv_exports : Mnt → M W Error (list Export);
  sv_dump : Mnt → M W Error (list MountEntry);
  sv_nfs_connect : str → Z → AuthSys → option Z → M W Error N;
  sv_nfs_set_timeout : N → option Z → M W Error unit;
  sv_nfs_set_retry_policy : RetryPolicy → N → N;
  sv_nfs_fsinfo : FileHandle → M N Error FsInfo;
  sv_nfs_set_max_record_size : Z → M N Error unit;
}.

Section connect.
Context {W Mnt N : Type} `{!Services W Mnt N}.

(** The port given, or the one the portmapper knows. *)
Definition mount_port_of (host : str) (mount_port : option Z) (timeout : option Z) : M W Error Z :=
  match mount_port with
  | Some port =>
      lift (validate_port "mount_port" port) ;;
      mret port
  | None => sv_get_tcp_port host MOUNT_PROGRAM MOUNT_VERSION timeout
  end.

Definition connect_mount_client (current : AuthSys) (host : str) (mount_port timeout : option Z)
    : M W Error Mnt :=
  lift (validate_host host) ;;
  mount_port ← mount_port_of host mount_port timeout;
  mount ← sv_mount_connect host mount_port current timeout;
  sv_mount_set_timeout mount timeout ;;
  mret mount.

Definition list_exports_with_optional_mount_port (current : AuthSys) (host : str)
    (mount_port timeout : option Z) : M W Error (list Export) :=
  mount ← connect_mount_client current host mount_port timeout;
  sv_exports mount.

Definition list_mounts_with_optional_mount_port (current : AuthSys) (host : str)
    (mount_port timeout : option Z) : M W Error (list MountEntry) :=
  mount ← connect_mount_client current host mount_port timeout;
  sv_dump mount.

Definition unmount_with_optional_mount_port (current : AuthSys) (target : str)
    (mount_port timeout : option Z) : M W Error unit :=
  target ← lift (RemoteTarget_parse target);
  mount ← connect_mount_client current (host target) mount_port timeout;
  sv_unmount mount (export target).

Definition unmount_all_with_optional_mount_port (current : AuthSys) (host : str)
    (mount_port timeout : option Z) : M W Error unit :=
  mount ← connect_mount_client current host mount_port timeout;
  sv_unmount_all mount.

(** The variants with a default or an explicit port and timeout; the free
    function [unmount] is [unmount_target], next to the method of [Client]. *)
Definition default_timeout : option Z := Some (from_secs 30).

Definition list_exports_with_timeout (current : AuthSys) (host : str) (timeout : option Z)
    : M W Error (list Export) :=
  list_exports_with_optional_mount_port current host None timeout.
Definition list_exports (current : AuthSys) (host : str) : M W Error (list Export) :=
  list_exports_with_timeout current host default_timeout.
Definition list_exports_with_mount_port (current : AuthSys) (host : str) (mount_port : Z)
    (timeout : option Z) : M W Error (list Export) :=
  mount ← connect_mount_client current host (Some mount_port) timeout;
  sv_exports mount.

Definition list_mounts_with_timeout (current : AuthSys) (host : str) (timeout : option Z)
    : M W Error (list MountEntry) :=
  list_mounts_with_optional_mount_port current host None timeout.
Definition list_mounts (current : AuthSys) (host : str) : M W Error (list MountEntry) :=
  list_mounts_with_timeout current host default_timeout.
Definition list_mounts_with_mount_port (current : AuthSys) (host : str) (mount_port : Z)
    (timeout : option Z) : M W Error (list MountEntry) :=
  mount ← connect_mount_client current host (Some mount_port) timeout;
  sv_dump mount.

Definition unmount_with_timeout (current : AuthSys) (target : str) (timeout : option Z)
    : M W Error unit :=
  unmount_with_optional_mount_port current target None timeout.
Definition unmount_target (current : AuthSys) (target : str) : M W Error unit :=
  unmount_with_timeout current target default_timeout.
Definition unmount_with_mount_port (current : AuthSys) (target : str) (mount_port : Z)
    (timeout : option Z) : M W Error unit :=
  unmount_with_optional_mount_port current target (Some mount_port) timeout.

Definition unmount_all_with_timeout (current : AuthSys) (host : str) (timeout : option Z)
    : M W Error unit :=
  unmount_all_with_optional_mount_port current host None timeout.
Definition unmount_all (current : AuthSys) (host : str) : M W Error unit :=
  unmount_all_with_timeout current host default_timeout.
Definition unmount_all_with_mount_port (current : AuthSys) (host : str) (mount_port : Z)
    (timeout : option Z) : M W Error unit :=
  unmount_all_with_optional_mount_port current host (Some mount_port) timeout.

Definition cleanup_mount_context : string := "cleanup UMOUNT after failed NFSv3 connect".

(** [if let Err(err) = m { return Err(cleanup_error(err, ctx, mount.unmount(export))) }]. *)
Definition or_unmount {A} (mount : Mnt) (export : str) (m : M W Error A) : M W Error A :=
  r ← attempt m;
  match r with
  | inl a => mret a
  | inr err =>
      u ← attempt (sv_unmount mount export);
      throw (cleanup_error err cleanup_mount_context u)
  end.

(** A method of the local variable [nfs]: its result and the new value. *)
Definition on_nfs {A} (nfs : N) (m : M N Error A) : M W Error (A * N) :=
  lift (match m nfs with
        | (nfs', Ok a) => Ok (a, nfs')
        | (_, Err e) => Err e
        | (_, Fault f) => Fault f
        end).

(** [.unwrap_or(NFS_PORT)]. *)
Definition nfs_port_or_default (m : M W Error Z) : M W Error Z :=
  r ← attempt m;
  match r with inl port => mret port | inr _ => mret NFS_PORT end.

Definition connect_with_builder (b : ClientBuilder) : M W Error (Client N) :=
  let tgt := ClientBuilder.target b in
  lift (validate_remote_target tgt) ;;
  read_size_limit ← lift (validate_transfer_size "read_size" (ClientBuilder.read_size_limit b));
  write_size_limit ← lift (validate_transfer_size "write_size" (ClientBuilder.write_size_limit b));
  dir_size_limit ← lift (validate_transfer_size "dir_size" (ClientBuilder.dir_size_limit b));
  lift (validate_max_dir_entries (ClientBuilder.max_dir_entries b)) ;;
  mount_port ← mount_port_of (host tgt) (ClientBuilder.mount_port b) (ClientBuilder.timeout b);
  mount ← sv_mount_connect (host tgt) mount_port (ClientBuilder.auth b) (ClientBuilder.timeout b);
  sv_mount_set_timeout mount (ClientBuilder.timeout b) ;;
  mount_info ← sv_mount mount (export tgt);
  nfs_port ←
    match ClientBuilder.nfs_port b with
    | Some port =>
        or_unmount mount (export tgt) (lift (validate_port "nfs_port" port)) ;;
        mret port
    | None =>
        nfs_port_or_default
          (sv_get_tcp_port (host tgt) NFS_PROGRAM NFS_VERSION (ClientBuilder.timeout b))
    end;
  nfs ← or_unmount mount (export tgt)
          (sv_nfs_connect (host tgt) nfs_port (ClientBuilder.auth b) (ClientBuilder.timeout b));
  or_unmount mount (export tgt) (sv_nfs_set_timeout nfs (ClientBuilder.timeout b)) ;;
  let nfs := sv_nfs_set_retry_policy (ClientBuilder.retry_policy b) nfs in
  '(fsinfo, nfs) ← or_unmount mount (export tgt)
                     (on_nfs nfs (sv_nfs_fsinfo (mount_file_handle mount_info)));
  read_size ← lift (clamp_io_size (read_preferred fsinfo) (read_max fsinfo) read_size_limit);
  write_size ← lift (clamp_io_size (write_preferred fsinfo) (write_max fsinfo) write_size_limit);
  dir_size ← lift (clamp_dir_size (dir_preferred fsinfo) dir_size_limit);
  '(_, nfs) ← or_unmount mount (export tgt)
    (on_nfs nfs (sv_nfs_set_max_record_size
                   (max_record_size_for_payloads [read_size; write_size; dir_size])));
  mret (mkClient b tgt (ClientBuilder.auth b) mount_port (mount_file_handle mount_info) nfs
          (Some fsinfo) read_size write_size dir_size (ClientBuilder.max_dir_entries b)).

(** [Client::connect], [Client::reconnect] and [Client::unmount]. *)
Definition connect (current : AuthSys) (target : str) : M W Error (Client N) :=
  b ← lift (ClientBuilder.from_target current target);
  connect_with_builder b.

(** On failure the old client stays in place. *)
Definition reconnect (self : Client N) : M W Error (Client N) := connect_with_builder (builder self).

Definition unmount (self : Client N) : M W Error unit :=
  mount ← sv_mount_connect (host (target self)) (mount_port self) (auth self)
            (ClientBuilder.timeout (builder self));
  sv_mount_set_timeout mount (ClientBuilder.timeout (builder self)) ;;
  sv_unmount mount (export (target self)).

End connect.

(** ** The services over RPC connections *)

Record Conns (W St : Type) := mkConns { conn_net : W; conn_table : list (RpcClient St) }.
Arguments mkConns {W St}.
Arguments conn_net {W St}.
Arguments conn_table {W St}.

Section conns.
Context {W Addr St : Type} `{!Network W Addr St, !Transport St}.

Definition on_net {A} (m : M W Error A) : M (Conns W St) Error A :=
  zoom conn_net (λ n c, mkConns n (conn_table c)) m.

(** A method of connection number [i]; handles are only made by [open_conn]. *)
Definition on_conn {A} (i : nat) (m : M (RpcClient St) Error A) : M (Conns W St) Error A := λ c,
  match conn_table c !! i with
  | Some rpc =>
      let '(rpc', o) := m rpc in (mkConns (conn_net c) (<[i := rpc']> (conn_table c)), o)
  | None => (c, Err RpcConnectionInvalid)
  end.

Definition open_conn (host : str) (port : Z) (auth : Auth) (timeout : option Z)
    : M (Conns W St) Error nat :=
  rpc ← on_net (RpcClient_connect_with_timeout host port auth timeout);
  i ← gets (λ c, length (conn_table c));
  modify (λ c, mkConns (conn_net c) (conn_table c ++ [rpc])) ;;
  mret i.

Definition conn_set_timeout (i : nat) (timeout : option Z) : M (Conns W St) Error unit :=
  table ← gets conn_table;
  match table !! i with
  | Some rpc => on_net (RpcClient_set_timeout rpc timeout)
  | None => throw RpcConnectionInvalid
  end.

#[export] Instance Conns_services : Services (Conns W St) nat (Nfs3Client St) := {
  sv_get_tcp_port host program version timeout :=
    on_net (get_tcp_port_with_timeout host program version timeout);
  sv_mount_connect host port auth timeout := open_conn host port (Auth_Sys auth) timeout;
  sv_mount_set_timeout := conn_set_timeout;
  sv_mount i path := on_conn i (Mount.mount path);
  sv_unmount i path := on_conn i (Mount.unmount path);
  sv_unmount_all i := on_conn i Mount.unmount_all;
  sv_exports i := on_conn i Mount.exports;
  sv_dump i := on_conn i Mount.dump;
  sv_nfs_connect host port auth timeout :=
    rpc ← on_net (RpcClient_connect_with_timeout host port (Auth_Sys auth) timeout);
    mret (mkNfs3Client rpc RetryPolicy_default []);
  sv_nfs_set_timeout nfs timeout := on_net (RpcClient_set_timeout (Nfs3Client.nfs_rpc nfs) timeout);
  sv_nfs_set_retry_policy policy nfs :=
    mkNfs3Client (Nfs3Client.nfs_rpc nfs) policy (Nfs3Client.nfs_slept nfs);
  sv_nfs_fsinfo := Nfs3Client.fsinfo;
  sv_nfs_set_max_record_size := Nfs3Client.set_max_record_size;
}.

End conns.
