(* ===== verification/V3ConnectSpec.v ===== *)
(** * Connecting leaves no mount behind

    [Logged] runs any implementation of the services and records the MNT
    requests that succeeded and the UMNT requests that were sent.  For every
    behaviour of the services, a failed [connect_with_builder] has sent a UMNT
    for each successful MNT, a successful one has mounted exactly once, and the
    client it returns has usable transfer sizes (src/src/v3/blocking.rs). *)

From Stdlib Require Import Strings.String Strings.Byte.
From S2P Require Import Prelude Text Xdr Status Errors Rpc V3Proto V3Wire V3Replies V3Calls.
From S2P Require Import V3Client V3ClientSpec Mount V3Blocking V3BlockingSpec V3Connect.
Import FileHandle (FileHandle).
Import ClientBuilder (ClientBuilder).

#[local] Open Scope Z_scope.

Inductive mount_event := Mounted (path : str) | Unmounted (path : str).

Record Logged (W : Type) := mkLogged { log_inner : W; log_events : list mount_event }.
Arguments mkLogged {W}.
Arguments log_inner {W}.
Arguments log_events {W}.

(** What is kept by the services, and what holds of an NFS connection. *)
Class ServicesInv (W N : Type) := {
  services_inv : W → Prop;
  nfs_good : N → Prop;
}.

(** [steady m Q]: [m] does not fault, keeps the invariant and returns a value in [Q]. *)
Definition steady {W N A} `{!ServicesInv W N} (m : M W Error A) (Q : A → Prop) : Prop :=
  ∀ s, services_inv s → post m s (λ a s', Q a ∧ services_inv s') (λ _ s', services_inv s').

(** The transfer sizes of an FSINFO reply are 32-bit numbers. *)
Definition fsinfo_u32 (i : FsInfo) : Prop :=
  is_u32 (read_preferred i) ∧ is_u32 (read_max i) ∧ is_u32 (write_preferred i) ∧ is_u32 (write_max i).

(** What connecting relies on: the services return, whatever they return. *)
Class ServicesLaws (W Mnt N : Type) `{!Services W Mnt N, !ServicesInv W N} := {
  steady_port h p v t : steady (sv_get_tcp_port h p v t) (λ _, True);
  steady_mount_connect h p a t : steady (sv_mount_connect h p a t) (λ _, True);
  steady_mount_set_timeout m t : steady (sv_mount_set_timeout m t) (λ _, True);
  steady_mount m p : steady (sv_mount m p) (λ _, True);
  steady_unmount m p : steady (sv_unmount m p) (λ _, True);
  steady_nfs_connect h p a t : steady (sv_nfs_connect h p a t) nfs_good;
  steady_nfs_set_timeout n t : steady (sv_nfs_set_timeout n t) (λ _, True);
  good_retry_policy policy n :
    is_u32 (max_retries policy) → nfs_good n → nfs_good (sv_nfs_set_retry_policy policy n);
  good_fsinfo fh n :
    nfs_good n → post (sv_nfs_fsinfo fh) n (λ i n', fsinfo_u32 i ∧ nfs_good n') (λ _ _, True);
  good_set_max_record_size z n :
    0 < z ≤ isize_max → nfs_good n →
    post (sv_nfs_set_max_record_size z) n (λ _ n', nfs_good n') (λ _ _, True);
}.

Section logged.
Context {W Mnt N : Type} `{!Services W Mnt N}.

Definition inner {A} (m : M W Error A) : M (Logged W) Error A :=
  zoom log_inner (λ w s, mkLogged w (log_events s)) m.

Definition note (e : mount_event) : M (Logged W) Error unit :=
  modify (λ s, mkLogged (log_inner s) (log_events s ++ [e])).

#[export] Instance Logged_services : Services (Logged W) Mnt N := {
  sv_get_tcp_port h p v t := inner (sv_get_tcp_port h p v t);
  sv_mount_connect h p a t := inner (sv_mount_connect h p a t);
  sv_mount_set_timeout m t := inner (sv_mount_set_timeout m t);
  sv_mount m path := info ← inner (sv_mount m path); note (Mounted path) ;; mret info;
  sv_unmount m path := note (Unmounted path) ;; inner (sv_unmount m path);
  sv_unmount_all m := inner (sv_unmount_all m);
  sv_exports m := inner (sv_exports m);
  sv_dump m := inner (sv_dump m);
  sv_nfs_connect h p a t := inner (sv_nfs_connect h p a t);
  sv_nfs_set_timeout n t := inner (sv_nfs_set_timeout n t);
  sv_nfs_set_retry_policy := sv_nfs_set_retry_policy;
  sv_nfs_fsinfo := sv_nfs_fsinfo;
  sv_nfs_set_max_record_size := sv_nfs_set_max_record_size;
}.

Context `{!ServicesInv W N, !ServicesLaws W Mnt N}.

(** [logs m ev Q R]: [m] keeps the invariant of the services; a successful [m]
    appends [ev] to the log and returns a value in [Q], a failed one appends a
    log in [R]. *)
Definition logs {A} (m : M (Logged W) Error A) (ev : list mount_event) (Q : A → Prop)
    (R : list mount_event → Prop) : Prop :=
  ∀ s, services_inv (log_inner s) →
    post m s (λ a s', services_inv (log_inner s') ∧ log_events s' = log_events s ++ ev ∧ Q a)
      (λ _ s', services_inv (log_inner s') ∧ ∃ ev', log_events s' = log_events s ++ ev' ∧ R ev').

Lemma logs_inner {A} (m : M W Error A) Q (R : list mount_event → Prop) :
  steady m Q → R [] → logs (inner m) [] Q R.
Proof.
  intros Hm HR s Hs. specialize (Hm (log_inner s) Hs). unfold post, inner, zoom in *.
  destruct (m (log_inner s)) as [w [a|e|f]]; cbn; [|split; [done|exists []]|done];
    rewrite app_nil_r; naive_solver.
Qed.

Lemma logs_lift {A} (o : outcome Error A) (Q : A → Prop) (R : list mount_event → Prop) :
  fault_free o → (∀ a, o = Ok a → Q a) → R [] → logs (lift o) [] Q R.
Proof.
  intros Hf HQ HR s Hs. apply post_lift. destruct o as [a|e|f]; [|split; [done|exists []]|by destruct (Hf f)];
    rewrite app_nil_r; auto.
Qed.

Lemma logs_bind {A B} (m : M (Logged W) Error A) (k : A → M (Logged W) Error B) ev1 ev2 Q1 Q2
    (R : list mount_event → Prop) :
  logs m ev1 Q1 R → (∀ a, Q1 a → logs (k a) ev2 Q2 (λ ev, R (ev1 ++ ev))) →
  logs (m ≫= k) (ev1 ++ ev2) Q2 R.
Proof.
  intros Hm Hk s Hs. apply post_bind. eapply post_mono; [by apply Hm|cbv beta|done].
  intros a s1 (Hs1 & Hev & Ha). eapply post_mono; [by apply (Hk a Ha)|cbv beta|].
  - intros b s2 (Hs2 & Hev2 & Hb). rewrite Hev2, Hev, app_assoc. done.
  - intros e s2 (Hs2 & ev & Hev2 & HR). split; [done|]. exists (ev1 ++ ev). rewrite Hev2, Hev, app_assoc. done.
Qed.

(** A quiet step followed by the rest. *)
Lemma logs_step {A B} (m : M (Logged W) Error A) (k : A → M (Logged W) Error B) ev Q1 Q2 R :
  logs m [] Q1 R → (∀ a, Q1 a → logs (k a) ev Q2 R) → logs (m ≫= k) ev Q2 R.
Proof. intros Hm Hk. by apply (logs_bind m k [] ev Q1 Q2 R). Qed.

Lemma logs_ret {A} (a : A) (Q : A → Prop) R : Q a → logs (mret a) [] Q R.
Proof. intros Ha s Hs. apply post_ret. by rewrite app_nil_r. Qed.

Lemma logs_weaken {A} (m : M (Logged W) Error A) ev Q (R R' : list mount_event → Prop) :
  logs m ev Q R → (∀ ev, R ev → R' ev) → logs m ev Q R'.
Proof. intros Hm HR s Hs. eapply post_mono; [by apply Hm|done|naive_solver]. Qed.

(** A step whose failure unmounts. *)
Lemma logs_or_unmount {A} (mount : Mnt) path (m : M (Logged W) Error A) Q :
  logs m [] Q (λ ev, ev = []) →
  logs (or_unmount mount path m) [] Q (λ ev, ev = [Unmounted path]).
Proof using All.
  intros Hm s Hs. unfold or_unmount. apply post_bind, post_attempt.
  eapply post_mono; [by apply Hm| |].
  - cbv beta iota. intros a s1 (Hs1 & Hev & Ha). by apply post_ret.
  - cbv beta iota. intros e s1 (Hs1 & ev & Hev & ->). rewrite app_nil_r in Hev.
    apply post_bind, post_attempt. unfold sv_unmount, Logged_services.
    apply post_bind. unfold post at 1, note, modify. cbn [log_inner log_events].
    pose proof (steady_unmount mount path (log_inner s1) Hs1) as Hu. unfold post, inner, zoom in *. cbn.
    destruct (sv_unmount mount path (log_inner s1)) as [w [[]|e'|f]]; cbn; [| |done];
      (split; [naive_solver|]; eexists; split; [by rewrite Hev|done]).
Qed.

Lemma logs_on_nfs {A} nfs (m : M N Error A) (Q : A → N → Prop) :
  post m nfs Q (λ _ _, True) →
  logs (on_nfs nfs m) [] (λ r, Q r.1 r.2) (λ ev, ev = []).
Proof.
  intros Hm. unfold on_nfs, post in *. apply logs_lift; [| |done].
  - by destruct (m nfs) as [n' [a|e|f]].
  - intros r Hr. destruct (m nfs) as [n' [a|e|f]]; [|done|done]. by injection Hr as <-.
Qed.

(** The log of a failed connect: nothing, or one mount that was undone. *)
Definition undone (path : str) (ev : list mount_event) : Prop :=
  ev = [] ∨ ev = [Mounted path; Unmounted path].

(** What the builder asked for is within range. *)
Definition builder_sizes (b : ClientBuilder) : Prop :=
  is_u32 (ClientBuilder.read_size_limit b) ∧ is_u32 (ClientBuilder.write_size_limit b)
  ∧ is_u32 (ClientBuilder.dir_size_limit b)
  ∧ is_u32 (max_retries (ClientBuilder.retry_policy b))
  ∧ 0 ≤ ClientBuilder.max_dir_entries b < usize_max.

(** What a connected client looks like. *)
Definition connected (b : ClientBuilder) (c : Client N) : Prop :=
  builder c = b ∧ target c = ClientBuilder.target b ∧ nfs_good (nfs c) ∧ sizes_ok c
  ∧ read_size c ≤ ClientBuilder.read_size_limit b ∧ write_size c ≤ ClientBuilder.write_size_limit b
  ∧ 1 ≤ dir_size c ≤ ClientBuilder.dir_size_limit b.

Lemma validate_transfer_size_safe name size : fault_free (validate_transfer_size name size).
Proof. unfold validate_transfer_size. by case_match. Qed.

(** A size check that passes returns the size, which is in range. *)
Lemma logs_validate_size {A} name size (k : Z → M (Logged W) Error A) ev Q (R : list mount_event → Prop) :
  0 ≤ size → R [] → (1 ≤ size ≤ MAX_IO_BYTES → logs (k size) ev Q R) →
  logs (lift (validate_transfer_size name size) ≫= k) ev Q R.
Proof.
  intros H0 HR Hk.
  eapply logs_step; [apply (logs_lift _ (λ s, s = size ∧ 1 ≤ s ≤ MAX_IO_BYTES)); [apply validate_transfer_size_safe| |done]|].
  { intros a Ha. apply validate_transfer_size_Ok in Ha; [naive_solver|done]. }
  intros a [-> Ha]. auto.
Qed.

(** Looking up a port, or checking the one given, logs nothing. *)
Lemma logs_mount_port_of host port timeout (R : list mount_event → Prop) :
  R [] → logs (mount_port_of host port timeout) [] (λ _, True) R.
Proof using All.
  intros HR. unfold mount_port_of. destruct port.
  - eapply logs_step; [apply (logs_lift _ (λ _, True)); [|done|done]|].
    + unfold validate_port. by case_match.
    + intros _ _. by apply logs_ret.
  - apply logs_inner; [apply steady_port|done].
Qed.

Lemma logs_nfs_port_or_default host program version timeout (R : list mount_event → Prop) :
  logs (nfs_port_or_default (sv_get_tcp_port host program version timeout)) [] (λ _, True) R.
Proof using All.
  intros s Hs. unfold nfs_port_or_default. apply post_bind, post_attempt.
  eapply post_mono; [by apply (logs_inner _ (λ _, True) (λ ev, ev = [])); [apply steady_port|done|]| |].
  - cbv beta iota. intros p s1 (Hs1 & Hev & _). by apply post_ret.
  - cbv beta iota. intros e s1 (Hs1 & ev & Hev & ->). by apply post_ret.
Qed.

(** MNT is noted when it succeeds. *)
Lemma logs_mount mount path (R : list mount_event → Prop) :
  R [] → logs (sv_mount mount path) [Mounted path] (λ _, True) R.
Proof using All.
  intros HR. apply (logs_bind _ _ [] [Mounted path] (λ _, True)).
  - apply logs_inner; [apply steady_mount|done].
  - intros info _ s Hs. apply post_bind. unfold post at 1, note, modify. by apply post_ret.
Qed.

Lemma max_record_size_range read write dir :
  1 ≤ read ≤ MAX_IO_BYTES → 1 ≤ write ≤ MAX_IO_BYTES → 1 ≤ dir ≤ MAX_IO_BYTES →
  0 < max_record_size_for_payloads [read; write; dir] ≤ isize_max.
Proof.
  unfold max_record_size_for_payloads, saturating_add, MAX_RECORD_HEADROOM, DEFAULT_MAX_RECORD_SIZE,
    MAX_IO_BYTES. cbn. int_unfold. lia.
Qed.

(** The part of [connect_with_builder] behind the NFS connection. *)
Lemma logs_negotiate b mount port root nfs0 rl wl dl (path := export (ClientBuilder.target b)) :
  1 ≤ rl ≤ MAX_IO_BYTES → 1 ≤ wl ≤ MAX_IO_BYTES → 1 ≤ dl ≤ MAX_IO_BYTES →
  rl = ClientBuilder.read_size_limit b → wl = ClientBuilder.write_size_limit b →
  dl = ClientBuilder.dir_size_limit b → 1 ≤ ClientBuilder.max_dir_entries b < usize_max → nfs_good nfs0 →
  logs ('(fsinfo, nfs) ← or_unmount mount path (on_nfs nfs0 (sv_nfs_fsinfo root));
        read_size ← lift (clamp_io_size (read_preferred fsinfo) (read_max fsinfo) rl);
        write_size ← lift (clamp_io_size (write_preferred fsinfo) (write_max fsinfo) wl);
        dir_size ← lift (clamp_dir_size (dir_preferred fsinfo) dl);
        '(_, nfs) ← or_unmount mount path
          (on_nfs nfs (sv_nfs_set_max_record_size
                         (max_record_size_for_payloads [read_size; write_size; dir_size])));
        mret (mkClient b (ClientBuilder.target b) (ClientBuilder.auth b) port root nfs
                (Some fsinfo) read_size write_size dir_size (ClientBuilder.max_dir_entries b)))
    [] (connected b) (λ ev, ev = [Unmounted path]).
Proof using All.
  intros Hrs Hws Hds -> -> -> Hmd Hgood.
  eapply logs_step; [apply logs_or_unmount, logs_on_nfs, (good_fsinfo (W:=W) (Mnt:=Mnt)), Hgood|].
  intros [fi nfs2] [(Hrp & Hrm & Hwp & Hwm) Hgood2]. cbn in Hrp, Hrm, Hwp, Hwm, Hgood2.
  destruct (clamp_io_size_spec _ _ _ Hrp Hrm (proj1 Hrs)) as (rsz & -> & Hrsz & _).
  destruct (clamp_io_size_spec _ _ _ Hwp Hwm (proj1 Hws)) as (wsz & -> & Hwsz & _).
  destruct (clamp_dir_size_spec (dir_preferred fi) _ (proj1 Hds)) as (dsz & -> & Hdsz).
  do 3 (change (lift (Ok ?x) ≫= ?k) with (k x); cbv beta).
  eapply logs_step; [apply logs_or_unmount, logs_on_nfs, (good_set_max_record_size (W:=W) (Mnt:=Mnt)); [|exact Hgood2]|].
  { apply max_record_size_range; lia. }
  intros [[] nfs3] Hgood3. cbn in Hgood3. apply logs_ret. unfold connected. cbn.
  split_and!; [done|done|done| |lia|lia|lia|lia]. split; cbn; lia.
Qed.

Lemma logs_connect_with_builder b :
  builder_sizes b →
  logs (connect_with_builder b) [Mounted (export (ClientBuilder.target b))] (connected b)
    (undone (export (ClientBuilder.target b))).
Proof using All.
  intros (Hr & Hwr & Hdr & Hpol & Hmd). unfold connect_with_builder.
  set (path := export (ClientBuilder.target b)).
  assert (undone path []) as Hnil by by left.
  eapply logs_step; [apply (logs_lift _ (λ _, True)); [|done|done]|intros _ _].
  { unfold validate_remote_target. by case_match. }
  apply logs_validate_size; [apply Hr|done|intros Hrs].
  apply logs_validate_size; [apply Hwr|done|intros Hws].
  apply logs_validate_size; [apply Hdr|done|intros Hds].
  eapply logs_step; [apply (logs_lift _ (λ _, 1 ≤ ClientBuilder.max_dir_entries b)); [| |done]|intros u Hmd1; cbv beta in Hmd1].
  { unfold validate_max_dir_entries. by case_match. }
  { intros [] Ha. unfold validate_max_dir_entries in Ha.
    destruct (Z.eqb_spec (ClientBuilder.max_dir_entries b) 0); [done|lia]. }
  eapply logs_step; [by apply logs_mount_port_of|]. intros port _.
  eapply logs_step; [apply logs_inner; [apply steady_mount_connect|done]|]. intros mount _.
  eapply logs_step; [apply logs_inner; [apply steady_mount_set_timeout|done]|]. intros _ _.
  change [Mounted path] with ([Mounted path] ++ []).
  eapply (logs_bind _ _ [Mounted path] []); [by apply logs_mount|]. intros info _.
  apply (logs_weaken _ _ _ (λ ev, ev = [Unmounted path])).
  2: { intros ev ->. by right. }
  apply (logs_step _ _ _ (λ _, True)).
  { destruct (ClientBuilder.nfs_port b); [|apply logs_nfs_port_or_default].
    eapply logs_step; [apply logs_or_unmount; apply (logs_lift _ (λ _, True)); [|done|done]|].
    + unfold validate_port. by case_match.
    + intros _ _. by apply logs_ret. }
  intros nport _.
  eapply logs_step; [apply logs_or_unmount, logs_inner; [apply steady_nfs_connect|done]|].
  intros nfs Hgood. cbv beta in Hgood.
  eapply logs_step; [apply logs_or_unmount, logs_inner; [apply steady_nfs_set_timeout|done]|].
  intros _ _. cbv zeta.
  apply logs_negotiate; [done..|lia|]. by apply (good_retry_policy (W:=W) (Mnt:=Mnt)).
Qed.

End logged.
