(* ===== verification/V3ConnectNet.v ===== *)
(** * The services over RPC connections keep their laws

    [Conns] (of [V3Connect]) implements the services of [connect_with_builder]
    with the MOUNT, portmapper and NFSv3 clients over RPC connections.  For
    every network whose operations return and every transport, it satisfies
    [ServicesLaws], so what [V3ConnectSpec] shows of connecting holds of the
    whole stack (src/src/v3/blocking.rs, mount.rs, portmap.rs, rpc.rs). *)

From Stdlib Require Import Strings.String Strings.Byte.
From S2P Require Import Prelude Text Xdr XdrSpec Status Errors Rpc RpcSpec RpcClientSpec V3Proto.
From S2P Require Import V3Wire V3Calls V3Replies V3CallsSpec V3Client V3ClientSpec Mount V3Blocking.
From S2P Require Import V3BlockingSpec V3Connect V3ConnectSpec.
Import FileHandle (FileHandle).
Import Nfs3Client (Nfs3Client, nfs_rpc, nfs_retry_policy, mkNfs3Client).

#[local] Open Scope Z_scope.

(** Socket operations return. *)
Class NetworkTotal (W Addr St : Type) `{!Network W Addr St} := {
  net_resolve_total h p s : fault_free (net_resolve h p s).2;
  net_connect_total h p s : fault_free (net_connect h p s).2;
  net_connect_timeout_total t a s : fault_free (net_connect_timeout t a s).2;
  net_set_nodelay_total st s : fault_free (net_set_nodelay st s).2;
  net_set_read_timeout_total st t s : fault_free (net_set_read_timeout st t s).2;
  net_set_write_timeout_total st t s : fault_free (net_set_write_timeout st t s).2;
}.

(** ** Replies *)

Lemma fsinfo_reply_u32 d d' i : dec_wf d → fsinfo_reply d = (d', Ok i) → fsinfo_u32 i.
Proof.
  unfold fsinfo_reply. intros Hd H.
  apply bind_Ok_inv in H as (d1 & status & H1 & H).
  assert (dec_wf d1) as Hd1 by exact (proj1 (dec_safe_Ok _ _ _ _ _ Hd H1)).
  apply bind_Ok_inv in H as (d2 & attrs & H2 & H).
  assert (dec_wf d2) as Hd2 by exact (proj1 (dec_safe_Ok _ _ _ _ _ Hd1 H2)).
  destruct (bool_decide _); [|by inv_bind].
  sound_step H as (d3 & rtmax & Hrtmax & Hd3 & _ & _ & H).
  sound_step H as (d4 & rtpref & Hrtpref & Hd4 & _ & _ & H).
  sound_step H as (d5 & rtmult & Hrtmult & Hd5 & _ & _ & H).
  sound_step H as (d6 & wtmax & Hwtmax & Hd6 & _ & _ & H).
  sound_step H as (d7 & wtpref & Hwtpref & Hd7 & _ & _ & H).
  inv_bind. done.
Qed.

Section conns_laws.
Context {W Addr St : Type} `{!Network W Addr St, !NetworkTotal W Addr St, !Transport St}.

#[export] Instance Conns_inv : ServicesInv (Conns W St) (Nfs3Client St) := {
  services_inv c := Forall client_ok (conn_table c);
  nfs_good := nfs_inv;
}.

(** ** The network *)

(** [returns m Q]: [m] does not fault and returns a value in [Q]. *)
Definition returns {S E A} (m : M S E A) (Q : A → Prop) : Prop :=
  ∀ s, post m s (λ a _, Q a) (λ _ _, True).

Lemma returns_bind {S E A B} (m : M S E A) (k : A → M S E B) Q R :
  returns m Q → (∀ a, Q a → returns (k a) R) → returns (m ≫= k) R.
Proof.
  intros Hm Hk s. apply post_bind. eapply post_mono; [apply Hm|cbv beta|done].
  intros a s' Ha. by apply Hk.
Qed.

Lemma returns_io {A} (m : M W ErrorKind A) :
  (∀ s, fault_free (m s).2) → returns (map_err Io m) (λ _, True).
Proof.
  intros Hf s. specialize (Hf s). unfold post, map_err. destruct (m s) as [s' [a|e|f]]; [done|done|].
  by destruct (Hf f).
Qed.

Lemma returns_connect_tcp {A} (connect : A → M W ErrorKind St) last addrs :
  (∀ a s, fault_free (connect a s).2) → returns (connect_tcp_stream connect last addrs) (λ _, True).
Proof.
  intros Hf. revert last. induction addrs as [|a addrs IH]; intros last; cbn [connect_tcp_stream].
  - by intros s.
  - intros s. apply post_bind, post_attempt. specialize (Hf a s). unfold post at 1.
    destruct (connect a s) as [s' [st|e|f]]; [done| |by destruct (Hf f)]. apply IH.
Qed.

Lemma returns_rpc_connect host port auth timeout :
  returns (RpcClient_connect_with_timeout host port auth timeout) client_ok.
Proof using All.
  unfold RpcClient_connect_with_timeout. apply (returns_bind _ _ (λ _, True)).
  { unfold connect_stream. destruct timeout as [t|].
    - eapply returns_bind; [apply returns_io, net_resolve_total|]. intros addrs _.
      apply returns_connect_tcp, net_connect_timeout_total.
    - apply returns_io, net_connect_total. }
  intros st _. apply (returns_bind _ _ client_ok).
  { eapply returns_bind; [apply returns_io, net_set_nodelay_total|]. intros _ _ s. cbn.
    split; cbn; unfold DEFAULT_MAX_RECORD_SIZE; int_unfold; lia. }
  intros c Hc. apply (returns_bind _ _ (λ _, True)); [|by intros _ _ s].
  eapply returns_bind; [apply returns_io, net_set_read_timeout_total|]. intros _ _.
  apply returns_io, net_set_write_timeout_total.
Qed.

(** ** Methods of a connection *)

(** A call and the decoding of its payload keep the connection good. *)
Lemma post_conn_method {A B} program version procedure (enc : A → M Encoder XdrError unit) args
    (m : M Decoder Error B) `{!EncSafe (enc args), !DecSafe m} (c : RpcClient St) :
  client_ok c →
  post (payload ← call program version procedure enc args; Mount.decoding m payload) c
    (λ _ c', client_ok c') (λ _ c', client_ok c').
Proof.
  intros Hc. apply post_bind. eapply post_mono; [by apply post_call_any|cbv beta..].
  2: { intros e c' Hm. unfold client_ok in *. by rewrite Hm. }
  intros payload c' [Hm Hl]. unfold post, Mount.decoding, lift.
  assert (zlen payload ≤ isize_max) as Hp by (destruct Hc; lia).
  destruct (dec_safe (dec := m) _ (dec_wf_new _ Hp)) as [_ Hf].
  assert (client_ok c') by (unfold client_ok in *; by rewrite Hm).
  destruct (m (Decoder_new payload)) as [d' [a|e|f]]; [done|done|by destruct (Hf f)].
Qed.

Lemma steady_on_net {A} (m : M W Error A) Q : returns m Q → steady (on_net (St := St) m) Q.
Proof.
  intros Hm c Hc. specialize (Hm (conn_net c)). unfold post, on_net, zoom in *.
  by destruct (m (conn_net c)) as [s' [a|e|f]].
Qed.

Lemma steady_on_conn {A} i (m : M (RpcClient St) Error A) :
  (∀ c, client_ok c → post m c (λ _, client_ok) (λ _, client_ok)) →
  steady (on_conn (W := W) i m) (λ _, True).
Proof.
  intros Hm c Hc. unfold post, on_conn. destruct (conn_table c !! i) as [rpc|] eqn:Hi; [|done].
  assert (client_ok rpc) as Hrpc by by exact (list.Forall_lookup_1 _ _ _ _ Hc Hi).
  specialize (Hm rpc Hrpc). unfold post in Hm.
  destruct (m rpc) as [rpc' [a|e|f]]; cbn; [split; [done|]| |done]; by apply Forall_insert.
Qed.

Lemma steady_open_conn host port auth timeout : steady (open_conn (St := St) host port auth timeout) (λ _, True).
Proof using All.
  intros c Hc. unfold open_conn. apply post_bind.
  eapply post_mono; [by apply (steady_on_net _ client_ok (returns_rpc_connect host port auth timeout))|cbv beta|done].
  intros rpc c1 [Hrpc Hc1]. cbn. split; [done|]. apply Forall_app. split; [done|]. by constructor.
Qed.

Lemma steady_conn_set_timeout i timeout : steady (conn_set_timeout (W := W) (St := St) i timeout) (λ _, True).
Proof using All.
  intros c Hc. unfold conn_set_timeout. apply post_bind, post_gets.
  destruct (conn_table c !! i) as [rpc|]; [|by apply post_throw].
  revert c Hc. apply steady_on_net. unfold RpcClient_set_timeout.
  eapply returns_bind; [apply returns_io, net_set_read_timeout_total|]. intros _ _.
  apply returns_io, net_set_write_timeout_total.
Qed.

Lemma returns_get_tcp_port host program version timeout :
  returns (get_tcp_port_with_timeout host program version timeout) (λ _, True).
Proof using All.
  unfold get_tcp_port_with_timeout. eapply returns_bind; [apply returns_rpc_connect|].
  intros c Hc s. apply post_bind, post_lift.
  assert (EncSafe (Mapping_encode (Mapping_tcp program version))) as He by by intros e.
  pose proof (post_conn_method PMAP_PROGRAM PMAP_VERSION PMAPPROC_GETPORT Mapping_encode
    (Mapping_tcp program version) (get_port_reply (Mapping_tcp program version)) c Hc) as H.
  change (post (get_port (Mapping_tcp program version)) c (λ _ c', client_ok c') (λ _ c', client_ok c')) in H.
  unfold post in H. destruct (get_port (Mapping_tcp program version) c) as [c' [port|e|f]]; cbn; [|done|done].
  by destruct (port =? 0).
Qed.

#[export] Instance enc_safe_DirPath p : EncSafe (DirPath_encode p).
Proof. apply enc_safe_write_opaque. Qed.

(** FSINFO, as a method of the NFS connection. *)
Lemma keeps_fsinfo fh : keeps (N := Nfs3Client St) (Nfs3Client.fsinfo fh) fsinfo_u32.
Proof. apply keeps_method; [apply _|apply _|]. apply fsinfo_reply_u32. Qed.

#[export] Instance Conns_laws : ServicesLaws (Conns W St) nat (Nfs3Client St).
Proof using All.
  split.
  - intros. apply steady_on_net, returns_get_tcp_port.
  - intros. apply steady_open_conn.
  - intros. apply steady_conn_set_timeout.
  - intros m p. apply steady_on_conn. intros c Hc. unfold Mount.mount.
    apply (post_conn_method MOUNT_PROGRAM MOUNT_VERSION MOUNTPROC3_MNT DirPath_encode p _ c Hc).
  - intros m p. apply steady_on_conn. intros c Hc.
    apply (post_conn_method MOUNT_PROGRAM MOUNT_VERSION MOUNTPROC3_UMNT DirPath_encode p _ c Hc).
  - intros host port auth timeout c Hc. apply post_bind.
    eapply post_mono; [by apply (steady_on_net _ client_ok (returns_rpc_connect _ _ _ _))|cbv beta|done].
    intros rpc c1 [Hrpc Hc1]. apply post_ret. split; [|done]. split; [exact Hrpc|]. cbn. int_unfold. lia.
  - intros n timeout. apply steady_on_net. unfold RpcClient_set_timeout.
    eapply returns_bind; [apply returns_io, net_set_read_timeout_total|]. intros _ _.
    apply returns_io, net_set_write_timeout_total.
  - intros policy n Hp Hn. cbn in Hn |- *. unfold is_u32 in Hp. int_unfold; lia.
  - intros fh n Hn. eapply post_mono; [by apply (keeps_fsinfo fh)|done|done].
  - intros z n Hz Hn. unfold post. cbn in Hn |- *.
    unfold Nfs3Client.set_max_record_size, Nfs3Client.rpc, Rpc.set_max_record_size. cbn.
    unfold validate_max_record_size. destruct (z =? 0) eqn:E; [done|]. change (0 ≤ z ≤ isize_max ∧ 0 ≤ max_retries (nfs_retry_policy n) ≤ u32_max).
    split; [lia|apply Hn].
Qed.
End conns_laws.
