(* ===== verification/TokioV3.v ===== *)
(** * The asynchronous NFSv3 client (src/src/v3/tokio.rs)

    [Mount] and [Nfs3Client] are written over [TokioRpc.RpcClient].  The
    methods of [Client] are translated from src/src/v3/tokio.rs, over a
    procedure client (and readers and writers) whose operations may end with
    [Fault Dropped]: every [.await] is a call of such an operation.  Where the
    blocking client runs a closure and looks at its result, the methods here
    are nested matches; setting a timeout cannot fail, which shortens
    connecting. *)

From Stdlib Require Import Strings.String Strings.Byte.
From S2P Require Import Prelude Text Xdr Status Errors Rpc V3Proto V3Calls V3Client Mount V3Blocking V3Connect TokioRpc.
Import FileHandle (FileHandle).
Import FileAttr (FileAttr).
Import WccData (WccData).
Import SpecData (mkSpecData).
Import NfsTime (NfsTime).
Import SetAttr (SetAttr).
Import StableHow (StableHow).
Import CreateHow (CreateHow).
Import MknodData (MknodData).
Import ClientBuilder (ClientBuilder).

#[local] Open Scope Z_scope.

(** [tokio::time::sleep(delay).await], an await point that cannot fail. *)
Class AsyncTimer (St : Type) := {
  stream_sleep : Z → M St Empty_set unit;
  stream_sleep_drop delay s f : (stream_sleep delay s).2 = Fault f → f = Dropped;
}.

Module TokioV3.

(** ** MOUNT and portmapper *)

Section mount.
Context {St : Type} `{!AsyncStream St}.
#[local] Abbreviation MountClient := (TokioRpc.RpcClient St).
#[local] Abbreviation PortmapperClient := (TokioRpc.RpcClient St).

Definition decoded {A} (m : M Decoder Error A) (payload : list byte) : M (TokioRpc.RpcClient St) Error A :=
  lift (m (Decoder_new payload)).2.

Definition mount_mount (export_path : str) : M MountClient Error MountInfo :=
  payload ← TokioRpc.call MOUNT_PROGRAM MOUNT_VERSION 1 DirPath_encode export_path;
  decoded mount_reply payload.

Definition mount_dump : M MountClient Error (list MountEntry) :=
  payload ← TokioRpc.call MOUNT_PROGRAM MOUNT_VERSION 2 encode_unit tt;
  decoded dump_reply payload.

Definition mount_unmount (export_path : str) : M MountClient Error unit :=
  payload ← TokioRpc.call MOUNT_PROGRAM MOUNT_VERSION 3 DirPath_encode export_path;
  decoded null_reply payload.

Definition mount_unmount_all : M MountClient Error unit :=
  payload ← TokioRpc.call MOUNT_PROGRAM MOUNT_VERSION 4 encode_unit tt;
  decoded null_reply payload.

Definition mount_exports : M MountClient Error (list Export) :=
  payload ← TokioRpc.call MOUNT_PROGRAM MOUNT_VERSION 5 encode_unit tt;
  decoded exports_reply payload.

Definition get_port (mapping : Mapping) : M PortmapperClient Error Z :=
  payload ← TokioRpc.call PMAP_PROGRAM PMAP_VERSION 3 Mapping_encode mapping;
  decoded (get_port_reply mapping) payload.

End mount.

(** ** Procedures *)

Module Nfs3Client.
Section nfs3_client.
Context {St : Type} `{!AsyncStream St, !AsyncTimer St}.

(** [nfs_slept] records the delays waited for, oldest first. *)
Record Nfs3Client := mkNfs3Client {
  nfs_rpc : TokioRpc.RpcClient St;
  nfs_retry_policy : RetryPolicy;
  nfs_slept : list Z;
}.

Definition with_rpc (rpc : TokioRpc.RpcClient St) (c : Nfs3Client) : Nfs3Client :=
  mkNfs3Client rpc (nfs_retry_policy c) (nfs_slept c).

(** A method of [self.rpc]. *)
Definition rpc {A} (m : M (TokioRpc.RpcClient St) Error A) : M Nfs3Client Error A := zoom nfs_rpc with_rpc m.

Definition sleep (delay : Z) : M Nfs3Client Error unit :=
  rpc (zoom TokioRpc.stream TokioRpc.with_stream
         (map_err (λ e : Empty_set, match e return Error with end) (stream_sleep delay))) ;;
  modify (λ c, mkNfs3Client (nfs_rpc c) (nfs_retry_policy c) (nfs_slept c ++ [delay])).

Definition set_timeout (timeout : option Z) : M Nfs3Client Error unit := rpc (TokioRpc.set_timeout timeout).

Definition set_max_record_size (max_record_size : Z) : M Nfs3Client Error unit :=
  rpc (TokioRpc.set_max_record_size max_record_size).

Definition set_retry_policy (retry_policy : RetryPolicy) : M Nfs3Client Error unit :=
  modify (λ c, mkNfs3Client (nfs_rpc c) retry_policy (nfs_slept c)).

(** One turn of the loop of [call]; the loop variable is [retry]. *)
Definition call_step {A} (procedure : Z) (enc : A → M Encoder XdrError unit) (args : A) (retry : Z)
    : M Nfs3Client Error (Z + list byte) :=
  payload ← rpc (TokioRpc.call NFS_PROGRAM NFS_VERSION procedure enc args);
  policy ← gets nfs_retry_policy;
  if negb (procedure =? NFSPROC3_NULL) && payload_has_status payload NfsStatus.Jukebox then
    match delay_for_retry policy retry with
    | Some delay =>
        let retry := retry + 1 in
        sleep delay ;;
        continue_ retry
    | None => break_ payload
    end
  else break_ payload.

(** [delay_for_retry] gives up after [max_retries] retries. *)
Definition call {A} (procedure : Z) (enc : A → M Encoder XdrError unit) (args : A)
    : M Nfs3Client Error (list byte) :=
  policy ← gets nfs_retry_policy;
  loop (Z.to_pos (max_retries policy + 1)) (call_step procedure enc args) 0.

(** [let mut decoder = Decoder::new(&payload); ..]. *)
Definition decoding {A} (m : M Decoder Error A) (payload : list byte) : M Nfs3Client Error A :=
  lift (m (Decoder_new payload)).2.

Definition null : M Nfs3Client Error unit :=
  payload ← rpc (TokioRpc.call NFS_PROGRAM NFS_VERSION NFSPROC3_NULL encode_unit tt);
  decoding null_reply payload.

Definition getattr (object : FileHandle) : M Nfs3Client Error FileAttr :=
  payload ← call NFSPROC3_GETATTR FileHandle.encode object;
  decoding getattr_reply payload.

Definition setattr (object : FileHandle) (attr : SetAttr) : M Nfs3Client Error WccData :=
  payload ← call NFSPROC3_SETATTR SetattrArgs_encode (mkSetattrArgs object attr None);
  decoding (wcc_only_reply "SETATTR") payload.

Definition lookup (dir : FileHandle) (name : str) : M Nfs3Client Error LookupResult :=
  payload ← call NFSPROC3_LOOKUP Diropargs_encode (mkDiropargs dir name);
  decoding lookup_reply payload.

Definition access (object : FileHandle) (access : Z) : M Nfs3Client Error AccessResult :=
  payload ← call NFSPROC3_ACCESS AccessArgs_encode (mkAccessArgs object access);
  decoding access_reply payload.

Definition readlink (symlink : FileHandle) : M Nfs3Client Error str :=
  payload ← call NFSPROC3_READLINK FileHandle.encode symlink;
  decoding readlink_reply payload.

Definition read (file : FileHandle) (offset count : Z) : M Nfs3Client Error ReadResult :=
  let requested_count := count in
  payload ← call NFSPROC3_READ ReadArgs_encode (mkReadArgs file offset count);
  decoding (read_reply requested_count) payload.

Definition write (file : FileHandle) (offset : Z) (stable : StableHow) (data : list byte)
    : M Nfs3Client Error WriteResult :=
  if zlen data >? u32_max then throw (LengthOutOfRange (zlen data)) else
  let requested_count := zlen data in
  payload ← call NFSPROC3_WRITE WriteArgs_encode
              (mkWriteArgs file offset requested_count stable data);
  decoding (write_reply requested_count) payload.

Definition create_like {A} (procedure_id : Z) (procedure_name : string)
    (enc : A → M Encoder XdrError unit) (args : A) : M Nfs3Client Error CreateResult :=
  payload ← call procedure_id enc args;
  decoding (create_like_reply procedure_name) payload.

Definition wcc_only {A} (procedure_id : Z) (procedure_name : string)
    (enc : A → M Encoder XdrError unit) (args : A) : M Nfs3Client Error WccData :=
  payload ← call procedure_id enc args;
  decoding (wcc_only_reply procedure_name) payload.

Definition create (dir : FileHandle) (name : str) (how : CreateHow) : M Nfs3Client Error CreateResult :=
  create_like NFSPROC3_CREATE "CREATE" CreateArgs_encode (mkCreateArgs (mkDiropargs dir name) how).

Definition mkdir (dir : FileHandle) (name : str) (attributes : SetAttr)
    : M Nfs3Client Error CreateResult :=
  create_like NFSPROC3_MKDIR "MKDIR" MkdirArgs_encode (mkMkdirArgs (mkDiropargs dir name) attributes).

Definition symlink (dir : FileHandle) (name target : str) (attributes : SetAttr)
    : M Nfs3Client Error CreateResult :=
  create_like NFSPROC3_SYMLINK "SYMLINK" SymlinkArgs_encode
    (mkSymlinkArgs (mkDiropargs dir name) target attributes).

Definition mknod (dir : FileHandle) (name : str) (what : MknodData) : M Nfs3Client Error CreateResult :=
  create_like NFSPROC3_MKNOD "MKNOD" MknodArgs_encode (mkMknodArgs (mkDiropargs dir name) what).

Definition remove (dir : FileHandle) (name : str) : M Nfs3Client Error WccData :=
  wcc_only NFSPROC3_REMOVE "REMOVE" Diropargs_encode (mkDiropargs dir name).

Definition rmdir (dir : FileHandle) (name : str) : M Nfs3Client Error WccData :=
  wcc_only NFSPROC3_RMDIR "RMDIR" Diropargs_encode (mkDiropargs dir name).

Definition rename (from_dir : FileHandle) (from_name : str) (to_dir : FileHandle) (to_name : str)
    : M Nfs3Client Error RenameResult :=
  payload ← call NFSPROC3_RENAME RenameArgs_encode
              (mkRenameArgs (mkDiropargs from_dir from_name) (mkDiropargs to_dir to_name));
  decoding rename_reply payload.

Definition link (file link_dir : FileHandle) (link_name : str) : M Nfs3Client Error LinkResult :=
  payload ← call NFSPROC3_LINK LinkArgs_encode (mkLinkArgs file (mkDiropargs link_dir link_name));
  decoding link_reply payload.

Definition readdir (dir : FileHandle) (cookie : Z) (cookieverf : list byte) (count : Z)
    : M Nfs3Client Error ReadDirResult :=
  payload ← call NFSPROC3_READDIR ReadDirArgs_encode (mkReadDirArgs dir cookie cookieverf count);
  decoding (readdir_reply "READDIR" false) payload.

Definition readdirplus (dir : FileHandle) (cookie : Z) (cookieverf : list byte)
    (dircount maxcount : Z) : M Nfs3Client Error ReadDirResult :=
  payload ← call NFSPROC3_READDIRPLUS ReadDirPlusArgs_encode
              (mkReadDirPlusArgs dir cookie cookieverf dircount maxcount);
  decoding (readdir_reply "READDIRPLUS" true) payload.

Definition fsstat (fsroot : FileHandle) : M Nfs3Client Error FsStat :=
  payload ← call NFSPROC3_FSSTAT FileHandle.encode fsroot;
  decoding fsstat_reply payload.

Definition fsinfo (fsroot : FileHandle) : M Nfs3Client Error FsInfo :=
  payload ← call NFSPROC3_FSINFO FileHandle.encode fsroot;
  decoding fsinfo_reply payload.

Definition pathconf (object : FileHandle) : M Nfs3Client Error PathConf :=
  payload ← call NFSPROC3_PATHCONF FileHandle.encode object;
  decoding pathconf_reply payload.

Definition commit (file : FileHandle) (offset count : Z) : M Nfs3Client Error CommitResult :=
  payload ← call NFSPROC3_COMMIT CommitArgs_encode (mkCommitArgs file offset count);
  decoding commit_reply payload.

End nfs3_client.
Arguments Nfs3Client : clear implicits.
Arguments mkNfs3Client {St}.
End Nfs3Client.
Import Nfs3Client (Nfs3Client, mkNfs3Client).

#[global] Instance Nfs3Client_nfs3 {St} `{!AsyncStream St, !AsyncTimer St} : Nfs3 (Nfs3Client St) := {
  nfs_inv c := 0 ≤ TokioRpc.max_record_size (Nfs3Client.nfs_rpc c) ≤ isize_max
               ∧ 0 ≤ max_retries (Nfs3Client.nfs_retry_policy c) ≤ u32_max;
  nfs_getattr := Nfs3Client.getattr;
  nfs_setattr := Nfs3Client.setattr;
  nfs_lookup := Nfs3Client.lookup;
  nfs_access := Nfs3Client.access;
  nfs_readlink := Nfs3Client.readlink;
  nfs_read := Nfs3Client.read;
  nfs_write := Nfs3Client.write;
  nfs_create := Nfs3Client.create;
  nfs_mkdir := Nfs3Client.mkdir;
  nfs_symlink := Nfs3Client.symlink;
  nfs_mknod := Nfs3Client.mknod;
  nfs_remove := Nfs3Client.remove;
  nfs_rmdir := Nfs3Client.rmdir;
  nfs_rename := Nfs3Client.rename;
  nfs_link := Nfs3Client.link;
  nfs_readdir := Nfs3Client.readdir;
  nfs_readdirplus := Nfs3Client.readdirplus;
  nfs_fsstat := Nfs3Client.fsstat;
  nfs_fsinfo := Nfs3Client.fsinfo;
  nfs_pathconf := Nfs3Client.pathconf;
  nfs_commit := Nfs3Client.commit;
}.

(** ** Connecting *)

(** The builder of src/src/v3/tokio.rs: the fields are those of the blocking one. *)
Module Builder.

(** [ClientBuilder::new], given the credentials of the current process. *)
Definition new (current : AuthSys) (host export : str) : ClientBuilder :=
  ClientBuilder.mkClientBuilder (mkRemoteTarget host export) current (Some (from_secs 30)) None None
    DEFAULT_IO_SIZE DEFAULT_IO_SIZE DEFAULT_DIR_SIZE MAX_DIR_ENTRIES RetryPolicy_default.

Definition from_target (current : AuthSys) (target : str) : outcome Error ClientBuilder :=
  target ← RemoteTarget_parse target;
  Ok (ClientBuilder.mkClientBuilder target current (Some (from_secs 30)) None None
        DEFAULT_IO_SIZE DEFAULT_IO_SIZE DEFAULT_DIR_SIZE MAX_DIR_ENTRIES RetryPolicy_default).

Definition auth_sys (auth : AuthSys) (b : ClientBuilder) : ClientBuilder :=
  ClientBuilder.mkClientBuilder (ClientBuilder.target b) auth (ClientBuilder.timeout b) (ClientBuilder.mount_port b) (ClientBuilder.nfs_port b) (ClientBuilder.read_size_limit b)
    (ClientBuilder.write_size_limit b) (ClientBuilder.dir_size_limit b) (ClientBuilder.max_dir_entries b) (ClientBuilder.retry_policy b).
Definition timeout (timeout : option Z) (b : ClientBuilder) : ClientBuilder :=
  ClientBuilder.mkClientBuilder (ClientBuilder.target b) (ClientBuilder.auth b) timeout (ClientBuilder.mount_port b) (ClientBuilder.nfs_port b) (ClientBuilder.read_size_limit b)
    (ClientBuilder.write_size_limit b) (ClientBuilder.dir_size_limit b) (ClientBuilder.max_dir_entries b) (ClientBuilder.retry_policy b).
Definition mount_port (port : Z) (b : ClientBuilder) : ClientBuilder :=
  ClientBuilder.mkClientBuilder (ClientBuilder.target b) (ClientBuilder.auth b) (ClientBuilder.timeout b) (Some port) (ClientBuilder.nfs_port b) (ClientBuilder.read_size_limit b)
    (ClientBuilder.write_size_limit b) (ClientBuilder.dir_size_limit b) (ClientBuilder.max_dir_entries b) (ClientBuilder.retry_policy b).
Definition nfs_port (port : Z) (b : ClientBuilder) : ClientBuilder :=
  ClientBuilder.mkClientBuilder (ClientBuilder.target b) (ClientBuilder.auth b) (ClientBuilder.timeout b) (ClientBuilder.mount_port b) (Some port) (ClientBuilder.read_size_limit b)
    (ClientBuilder.write_size_limit b) (ClientBuilder.dir_size_limit b) (ClientBuilder.max_dir_entries b) (ClientBuilder.retry_policy b).
Definition io_size (size : Z) (b : ClientBuilder) : ClientBuilder :=
  ClientBuilder.mkClientBuilder (ClientBuilder.target b) (ClientBuilder.auth b) (ClientBuilder.timeout b) (ClientBuilder.mount_port b) (ClientBuilder.nfs_port b) size
    size (ClientBuilder.dir_size_limit b) (ClientBuilder.max_dir_entries b) (ClientBuilder.retry_policy b).
Definition read_size (size : Z) (b : ClientBuilder) : ClientBuilder :=
  ClientBuilder.mkClientBuilder (ClientBuilder.target b) (ClientBuilder.auth b) (ClientBuilder.timeout b) (ClientBuilder.mount_port b) (ClientBuilder.nfs_port b) size
    (ClientBuilder.write_size_limit b) (ClientBuilder.dir_size_limit b) (ClientBuilder.max_dir_entries b) (ClientBuilder.retry_policy b).
Definition write_size (size : Z) (b : ClientBuilder) : ClientBuilder :=
  ClientBuilder.mkClientBuilder (ClientBuilder.target b) (ClientBuilder.auth b) (ClientBuilder.timeout b) (ClientBuilder.mount_port b) (ClientBuilder.nfs_port b) (ClientBuilder.read_size_limit b)
    size (ClientBuilder.dir_size_limit b) (ClientBuilder.max_dir_entries b) (ClientBuilder.retry_policy b).
Definition dir_size (size : Z) (b : ClientBuilder) : ClientBuilder :=
  ClientBuilder.mkClientBuilder (ClientBuilder.target b) (ClientBuilder.auth b) (ClientBuilder.timeout b) (ClientBuilder.mount_port b) (ClientBuilder.nfs_port b) (ClientBuilder.read_size_limit b)
    (ClientBuilder.write_size_limit b) size (ClientBuilder.max_dir_entries b) (ClientBuilder.retry_policy b).
Definition max_dir_entries (n : Z) (b : ClientBuilder) : ClientBuilder :=
  ClientBuilder.mkClientBuilder (ClientBuilder.target b) (ClientBuilder.auth b) (ClientBuilder.timeout b) (ClientBuilder.mount_port b) (ClientBuilder.nfs_port b) (ClientBuilder.read_size_limit b)
    (ClientBuilder.write_size_limit b) (ClientBuilder.dir_size_limit b) n (ClientBuilder.retry_policy b).
Definition retry_policy (policy : RetryPolicy) (b : ClientBuilder) : ClientBuilder :=
  ClientBuilder.mkClientBuilder (ClientBuilder.target b) (ClientBuilder.auth b) (ClientBuilder.timeout b) (ClientBuilder.mount_port b) (ClientBuilder.nfs_port b) (ClientBuilder.read_size_limit b)
    (ClientBuilder.write_size_limit b) (ClientBuilder.dir_size_limit b) (ClientBuilder.max_dir_entries b) policy.

End Builder.

Section connecting.
Context {W St : Type} `{!AsyncNetwork W St, !AsyncStream St, !AsyncTimer St}.

(** A method of a local variable [x]: its result and the new value. *)
Definition on_local {X A} (x : X) (m : M X Error A) : M W Error (A * X) :=
  lift (match m x with
        | (x', Ok a) => Ok (a, x')
        | (_, Err e) => Err e
        | (_, Fault f) => Fault f
        end).

Definition portmapper_connect_with_timeout (host : str) (port : Z) (timeout : option Z)
    : M W Error (TokioRpc.RpcClient St) :=
  TokioRpc.connect_with_timeout host port Auth_None timeout.

Definition mount_connect_with_timeout (host : str) (port : Z) (auth : AuthSys) (timeout : option Z)
    : M W Error (TokioRpc.RpcClient St) :=
  TokioRpc.connect_with_timeout host port (Auth_Sys auth) timeout.

Definition nfs_connect_with_timeout (host : str) (port : Z) (auth : AuthSys) (timeout : option Z)
    : M W Error (Nfs3Client St) :=
  rpc ← TokioRpc.connect_with_timeout host port (Auth_Sys auth) timeout;
  mret (mkNfs3Client rpc RetryPolicy_default []).

Definition get_tcp_port_with_timeout (host : str) (program version : Z) (timeout : option Z) : M W Error Z :=
  client ← portmapper_connect_with_timeout host PMAP_PORT timeout;
  '(port, _) ← on_local client (get_port (Mapping_tcp program version));
  if port =? 0 then throw (PortUnavailable program version) else mret port.

(** [match mount_port { Some(port) => { validate_port(..)?; port } None => .. }]. *)
Definition mount_port_of (host : str) (mount_port timeout : option Z) : M W Error Z :=
  match mount_port with
  | Some port =>
      lift (validate_port "mount_port" port) ;;
      mret port
  | None => get_tcp_port_with_timeout host MOUNT_PROGRAM MOUNT_VERSION timeout
  end.

(** [current] is [AuthSys::current()]. *)
Definition connect_mount_client (current : AuthSys) (host : str) (mount_port timeout : option Z)
    : M W Error (TokioRpc.RpcClient St) :=
  lift (validate_host host) ;;
  mount_port ← mount_port_of host mount_port timeout;
  mount ← mount_connect_with_timeout host mount_port current timeout;
  '(_, mount) ← on_local mount (TokioRpc.set_timeout timeout);
  mret mount.

Definition list_exports_with_optional_mount_port (current : AuthSys) (host : str) (mount_port timeout : option Z)
    : M W Error (list Export) :=
  mount ← connect_mount_client current host mount_port timeout;
  '(exports, _) ← on_local mount mount_exports;
  mret exports.

Definition list_mounts_with_optional_mount_port (current : AuthSys) (host : str) (mount_port timeout : option Z)
    : M W Error (list MountEntry) :=
  mount ← connect_mount_client current host mount_port timeout;
  '(mounts, _) ← on_local mount mount_dump;
  mret mounts.

Definition unmount_with_optional_mount_port (current : AuthSys) (target : str) (mount_port timeout : option Z)
    : M W Error unit :=
  target ← lift (RemoteTarget_parse target);
  mount ← connect_mount_client current (host target) mount_port timeout;
  _ ← on_local mount (mount_unmount (export target));
  mret tt.

Definition unmount_all_with_optional_mount_port (current : AuthSys) (host : str) (mount_port timeout : option Z)
    : M W Error unit :=
  mount ← connect_mount_client current host mount_port timeout;
  _ ← on_local mount mount_unmount_all;
  mret tt.

Definition list_exports_with_timeout (current : AuthSys) (host : str) (timeout : option Z) : M W Error (list Export) :=
  list_exports_with_optional_mount_port current host None timeout.
Definition list_exports (current : AuthSys) (host : str) : M W Error (list Export) :=
  list_exports_with_timeout current host (Some (from_secs 30)).
Definition list_exports_with_mount_port (current : AuthSys) (host : str) (mount_port : Z) (timeout : option Z)
    : M W Error (list Export) :=
  mount ← connect_mount_client current host (Some mount_port) timeout;
  '(exports, _) ← on_local mount mount_exports;
  mret exports.

Definition list_mounts_with_timeout (current : AuthSys) (host : str) (timeout : option Z)
    : M W Error (list MountEntry) :=
  list_mounts_with_optional_mount_port current host None timeout.
Definition list_mounts (current : AuthSys) (host : str) : M W Error (list MountEntry) :=
  list_mounts_with_timeout current host (Some (from_secs 30)).
Definition list_mounts_with_mount_port (current : AuthSys) (host : str) (mount_port : Z) (timeout : option Z)
    : M W Error (list MountEntry) :=
  mount ← connect_mount_client current host (Some mount_port) timeout;
  '(mounts, _) ← on_local mount mount_dump;
  mret mounts.

Definition unmount_with_timeout (current : AuthSys) (target : str) (timeout : option Z) : M W Error unit :=
  unmount_with_optional_mount_port current target None timeout.
(** The free function [unmount]. *)
Definition unmount_target (current : AuthSys) (target : str) : M W Error unit :=
  unmount_with_timeout current target (Some (from_secs 30)).
Definition unmount_with_mount_port (current : AuthSys) (target : str) (mount_port : Z) (timeout : option Z)
    : M W Error unit :=
  unmount_with_optional_mount_port current target (Some mount_port) timeout.

Definition unmount_all_with_timeout (current : AuthSys) (host : str) (timeout : option Z) : M W Error unit :=
  unmount_all_with_optional_mount_port current host None timeout.
Definition unmount_all (current : AuthSys) (host : str) : M W Error unit :=
  unmount_all_with_timeout current host (Some (from_secs 30)).
Definition unmount_all_with_mount_port (current : AuthSys) (host : str) (mount_port : Z) (timeout : option Z)
    : M W Error unit :=
  unmount_all_with_optional_mount_port current host (Some mount_port) timeout.

(** [Err(err) => return Err(cleanup_error(err, ctx, mount.unmount(export).await))]. *)
Definition or_unmount {A} (mount : TokioRpc.RpcClient St) (export : str) (m : M W Error A) : M W Error A :=
  r ← attempt m;
  match r with
  | inl a => mret a
  | inr err =>
      u ← attempt (_ ← on_local mount (mount_unmount export); mret tt);
      throw (cleanup_error err cleanup_mount_context u)
  end.

Definition connect_with_builder (b : ClientBuilder) : M W Error (Client (Nfs3Client St)) :=
  let tgt := ClientBuilder.target b in
  lift (validate_remote_target tgt) ;;
  read_size_limit ← lift (validate_transfer_size "read_size" (ClientBuilder.read_size_limit b));
  write_size_limit ← lift (validate_transfer_size "write_size" (ClientBuilder.write_size_limit b));
  dir_size_limit ← lift (validate_transfer_size "dir_size" (ClientBuilder.dir_size_limit b));
  lift (validate_max_dir_entries (ClientBuilder.max_dir_entries b)) ;;
  mount_port ← mount_port_of (host tgt) (ClientBuilder.mount_port b) (ClientBuilder.timeout b);
  mount ← mount_connect_with_timeout (host tgt) mount_port (ClientBuilder.auth b) (ClientBuilder.timeout b);
  '(_, mount) ← on_local mount (TokioRpc.set_timeout (ClientBuilder.timeout b));
  '(mount_info, mount) ← on_local mount (mount_mount (export tgt));
  nfs_port ←
    match ClientBuilder.nfs_port b with
    | Some port =>
        or_unmount mount (export tgt) (lift (validate_port "nfs_port" port)) ;;
        mret port
    | None =>
        r ← attempt (get_tcp_port_with_timeout (host tgt) NFS_PROGRAM NFS_VERSION (ClientBuilder.timeout b));
        match r with inl port => mret port | inr _ => mret NFS_PORT end
    end;
  nfs ← or_unmount mount (export tgt)
          (nfs_connect_with_timeout (host tgt) nfs_port (ClientBuilder.auth b) (ClientBuilder.timeout b));
  '(_, nfs) ← on_local nfs (Nfs3Client.set_timeout (ClientBuilder.timeout b));
  '(_, nfs) ← on_local nfs (Nfs3Client.set_retry_policy (ClientBuilder.retry_policy b));
  '(fsinfo, nfs) ← or_unmount mount (export tgt)
                     (on_local nfs (Nfs3Client.fsinfo (mount_file_handle mount_info)));
  read_size ← lift (clamp_io_size (read_preferred fsinfo) (read_max fsinfo) read_size_limit);
  write_size ← lift (clamp_io_size (write_preferred fsinfo) (write_max fsinfo) write_size_limit);
  dir_size ← lift (clamp_dir_size (dir_preferred fsinfo) dir_size_limit);
  '(_, nfs) ← or_unmount mount (export tgt)
    (on_local nfs (Nfs3Client.set_max_record_size
                     (max_record_size_for_payloads [read_size; write_size; dir_size])));
  mret (mkClient b tgt (ClientBuilder.auth b) mount_port (mount_file_handle mount_info) nfs
          (Some fsinfo) read_size write_size dir_size (ClientBuilder.max_dir_entries b)).

(** [Client::connect], [Client::reconnect] and [Client::unmount]. *)
Definition connect (current : AuthSys) (target : str) : M W Error (Client (Nfs3Client St)) :=
  b ← lift (Builder.from_target current target);
  connect_with_builder b.

(** On failure the old client stays in place. *)
Definition reconnect (self : Client (Nfs3Client St)) : M W Error (Client (Nfs3Client St)) :=
  connect_with_builder (builder self).

Definition unmount (self : Client (Nfs3Client St)) : M W Error unit :=
  mount ← mount_connect_with_timeout (host (target self)) (mount_port self) (auth self)
            (ClientBuilder.timeout (builder self));
  '(_, mount) ← on_local mount (TokioRpc.set_timeout (ClientBuilder.timeout (builder self)));
  _ ← on_local mount (mount_unmount (export (target self)));
  mret tt.

End connecting.

(** ** Operations on paths *)

Module Client.
(** What stands for Rust itself is shared with [V3Blocking]: calling a method
    of [self.nfs] or of a local reader or writer, reading a field of [self], a
    local flag or buffer, the bound on loops over 64-bit offsets, and the type of the
    tasks of [remove_all].  The methods are translated here from src/src/v3/tokio.rs. *)
Import V3Blocking.Client (self_nfs, self_env, self, on_self, write_out, read_in, into_vec, untouched, run_created,
  offset_fuel, RemoveTask(..)).

Section client.
Context {N : Type} `{!Nfs3 N}.

(** *** Resolution *)

Fixpoint walk (current : FileHandle) (components : list str) : M (World N) Error FileHandle :=
  match components with
  | [] => mret current
  | component :: rest =>
      r ← self_nfs (nfs_lookup current component);
      walk (lookup_object r) rest
  end.

Definition resolve (path : str) : M (World N) Error FileHandle :=
  components ← lift (normalize_path path);
  current ← self root;
  walk current components.

Definition resolve_parent (path : str) : M (World N) Error (FileHandle * str) :=
  components ← lift (normalize_path path);
  '(components, name) ← lift (ok_or (InvalidPath path) (pop components));
  current ← self root;
  current ← walk current components;
  mret (current, name).

Definition ensure_directory (path : str) (handle : FileHandle) (attr : option FileAttr)
    : M (World N) Error unit :=
  attr ← match attr with
         | Some attr => mret attr
         | None => self_nfs (nfs_getattr handle)
         end;
  if bool_decide (FileAttr.file_type attr = FileType.Directory) then mret tt
  else throw (Protocol [PDebug path; PLit " exists but is not a directory"]).

(** *** Metadata *)

Definition path_fsinfo (path : str) : M (World N) Error FsInfo :=
  handle ← resolve path; self_nfs (nfs_fsinfo handle).
Definition fsstat (path : str) : M (World N) Error FsStat :=
  handle ← resolve path; self_nfs (nfs_fsstat handle).
Definition pathconf (path : str) : M (World N) Error PathConf :=
  handle ← resolve path; self_nfs (nfs_pathconf handle).
Definition file_handle (path : str) : M (World N) Error FileHandle := resolve path.
Definition parent_file_handle (path : str) : M (World N) Error FileHandle :=
  '(handle, _) ← resolve_parent path; mret handle.
Definition getattr (path : str) : M (World N) Error FileAttr :=
  handle ← resolve path; self_nfs (nfs_getattr handle).
Definition metadata (path : str) : M (World N) Error FileAttr := getattr path.
Definition parent_getattr (path : str) : M (World N) Error FileAttr :=
  handle ← parent_file_handle path; self_nfs (nfs_getattr handle).
Definition parent_metadata (path : str) : M (World N) Error FileAttr := parent_getattr path.
Definition file_type (path : str) : M (World N) Error FileType.FileType :=
  attr ← metadata path; mret (FileAttr.file_type attr).
Definition is_file (path : str) : M (World N) Error bool :=
  t ← file_type path; mret (FileType.is_file t).
Definition is_dir (path : str) : M (World N) Error bool :=
  t ← file_type path; mret (FileType.is_dir t).
Definition is_symlink (path : str) : M (World N) Error bool :=
  t ← file_type path; mret (FileType.is_symlink t).
Definition access (path : str) (access : Z) : M (World N) Error AccessResult :=
  handle ← resolve path; self_nfs (nfs_access handle access).
Definition lookup (path : str) : M (World N) Error unit := _ ← resolve path; mret tt.

(** [exists]. *)
Definition path_exists (path : str) : M (World N) Error bool :=
  r ← attempt (resolve path);
  match r with
  | inl _ => mret true
  | inr err => if is_nfs_status NfsStatus.NoEnt err then mret false else throw err
  end.

Definition read_link (path : str) : M (World N) Error str :=
  handle ← resolve path; self_nfs (nfs_readlink handle).

Definition setattr (path : str) (attr : SetAttr) : M (World N) Error unit :=
  handle ← resolve path;
  _ ← self_nfs (nfs_setattr handle attr);
  mret tt.
Definition truncate (path : str) (size : Z) : M (World N) Error unit :=
  handle ← resolve path;
  _ ← self_nfs (nfs_setattr handle (SetAttr.size size));
  mret tt.
Definition set_mode (path : str) (mode : Z) : M (World N) Error unit := setattr path (SetAttr.mode mode).
Definition set_uid (path : str) (uid : Z) : M (World N) Error unit := setattr path (SetAttr.uid uid).
Definition set_gid (path : str) (gid : Z) : M (World N) Error unit := setattr path (SetAttr.gid gid).
Definition set_ownership (path : str) (uid gid : Z) : M (World N) Error unit :=
  setattr path (SetAttr.ownership uid gid).
Definition set_times (path : str) (atime mtime : option NfsTime) : M (World N) Error unit :=
  setattr path (SetAttr.times atime mtime).
Definition touch (path : str) : M (World N) Error unit := setattr path SetAttr.touch.

Definition commit (path : str) (offset count : Z) : M (World N) Error CommitResult :=
  handle ← resolve path; self_nfs (nfs_commit handle offset count).

(** *** Reading *)

Definition read_too_long (len size : Z) : Error :=
  Protocol [PLit "READ returned "; PNum len; PLit " bytes for a "; PNum size; PLit " byte request"].

Definition read_no_data : Error := Protocol [PLit "READ returned no data before EOF"].

(** One turn of [read_handle_to_end]. *)
Definition read_handle_to_end_step (handle : FileHandle) (l : Z * list byte)
    : M (World N) Error (Z * list byte + list byte) :=
  let '(offset, out) := l in
  read_size ← self read_size;
  chunk ← self_nfs (nfs_read handle offset read_size);
  if zlen (read_data chunk) >? read_size
  then throw (read_too_long (zlen (read_data chunk)) read_size) else
  if is_empty (read_data chunk) then
    if read_eof chunk then break_ out else throw read_no_data
  else
    offset ← lift (advance_offset offset (zlen (read_data chunk)) "READ");
    let out := out ++ read_data chunk in
    if read_eof chunk then break_ out else continue_ (offset, out).

Definition read_handle_to_end (handle : FileHandle) : M (World N) Error (list byte) :=
  loop offset_fuel (read_handle_to_end_step handle) (0, []).

Definition read (path : str) : M (World N) Error (list byte) :=
  handle ← resolve path;
  read_handle_to_end handle.

Section writer.
Context {Wr : Type} `{!Writer Wr}.

Definition read_handle_to_writer_step (handle : FileHandle) (l : Z * Z)
    : M (World N * Wr) Error (Z * Z + Z) :=
  let '(offset, total) := l in
  read_size ← on_self (self read_size);
  chunk ← on_self (self_nfs (nfs_read handle offset read_size));
  if zlen (read_data chunk) >? read_size
  then throw (read_too_long (zlen (read_data chunk)) read_size) else
  if is_empty (read_data chunk) then
    if read_eof chunk then break_ total else throw read_no_data
  else
    write_out (read_data chunk) ;;
    offset ← lift (advance_offset offset (zlen (read_data chunk)) "READ");
    total ← lift (advance_offset total (zlen (read_data chunk)) "READ total");
    if read_eof chunk then break_ total else continue_ (offset, total).

Definition read_handle_to_writer (handle : FileHandle) : M (World N * Wr) Error Z :=
  loop offset_fuel (read_handle_to_writer_step handle) (0, 0).

Definition read_handle_range_to_writer_step (handle : FileHandle) (l : Z * Z * Z)
    : M (World N * Wr) Error (Z * Z * Z + Z) :=
  let '(offset, remaining, total) := l in
  if negb (remaining >? 0) then break_ total else
  read_size ← on_self (self read_size);
  let request := wrap_u32 (Z.min read_size remaining) in
  chunk ← on_self (self_nfs (nfs_read handle offset request));
  if zlen (read_data chunk) >? request
  then throw (read_too_long (zlen (read_data chunk)) request) else
  if is_empty (read_data chunk) then
    if read_eof chunk then break_ total else throw read_no_data
  else
    write_out (read_data chunk) ;;
    offset ← lift (advance_offset offset (zlen (read_data chunk)) "READ");
    total ← lift (advance_offset total (zlen (read_data chunk)) "READ total");
    let remaining := remaining - zlen (read_data chunk) in
    if read_eof chunk then break_ total else continue_ (offset, remaining, total).

(** Each turn takes at least one byte off [remaining]. *)
Definition read_handle_range_to_writer (handle : FileHandle) (offset remaining : Z)
    : M (World N * Wr) Error Z :=
  loop (Z.to_pos (remaining + 1)) (read_handle_range_to_writer_step handle) (offset, remaining, 0).

Definition read_to_writer (path : str) : M (World N * Wr) Error Z :=
  handle ← on_self (resolve path);
  read_handle_to_writer handle.

Definition read_range_to_writer (path : str) (offset count : Z) : M (World N * Wr) Error Z :=
  handle ← on_self (resolve path);
  read_handle_range_to_writer handle offset count.

End writer.

Definition read_handle_range (handle : FileHandle) (offset count : Z)
    : M (World N) Error (list byte) :=
  into_vec (read_handle_range_to_writer handle offset count).

Definition read_handle_at (handle : FileHandle) (offset count : Z) : M (World N) Error (list byte) :=
  read_handle_range handle offset count.

Definition read_range (path : str) (offset count : Z) : M (World N) Error (list byte) :=
  handle ← resolve path;
  read_handle_range handle offset count.

Definition read_at (path : str) (offset count : Z) : M (World N) Error (list byte) :=
  handle ← resolve path;
  read_handle_at handle offset count.

Definition read_exact_at (path : str) (offset count : Z) : M (World N) Error (list byte) :=
  data ← read_at path offset count;
  if negb (zlen data =? count)
  then throw (Protocol [PLit "READ returned "; PNum (zlen data); PLit " bytes before EOF; expected ";
                        PNum count])
  else mret data.

(** *** Writing *)

(** One turn of [write_handle_all]. *)
Definition write_handle_all_step (handle : FileHandle) (stable : StableHow) (l : Z * list byte)
    : M (World N) Error (Z * list byte + unit) :=
  let '(offset, data) := l in
  if is_empty data then break_ tt else
  let chunk_offset := offset in
  write_size ← self write_size;
  let chunk_len := Z.min (zlen data) write_size in
  result ← self_nfs (nfs_write handle chunk_offset stable (ztake chunk_len data));
  let written := write_count result in
  if written =? 0 then throw (Protocol [PLit "WRITE accepted zero bytes"]) else
  if written >? chunk_len
  then throw (Protocol [PLit "WRITE reported "; PNum written; PLit " bytes for a "; PNum chunk_len;
                        PLit " byte request"]) else
  (if negb (StableHow.satisfies (write_committed result) stable) then
     commit ← self_nfs (nfs_commit handle chunk_offset (write_count result));
     if negb (bool_decide (commit_verifier commit = write_verifier result))
     then throw (Protocol [PLit "COMMIT verifier changed after unstable WRITE"])
     else mret tt
   else mret tt) ;;
  offset ← lift (advance_offset offset written "WRITE");
  continue_ (offset, zdrop written data).

(** Each turn takes at least one byte off [data]. *)
Definition write_handle_all (handle : FileHandle) (offset : Z) (data : list byte) (stable : StableHow)
    : M (World N) Error unit :=
  loop (Z.to_pos (zlen data + 1)) (write_handle_all_step handle stable) (offset, data).

Definition handle_from_create_result (parent : FileHandle) (name : str) (result : CreateResult)
    : M (World N) Error FileHandle :=
  match create_object result with
  | Some handle => mret handle
  | None =>
      r ← self_nfs (nfs_lookup parent name);
      mret (lookup_object r)
  end.

Definition create_handle_with_how (path : str) (how : CreateHow) : M (World N) Error FileHandle :=
  '(parent, name) ← resolve_parent path;
  result ← self_nfs (nfs_create parent name how);
  handle_from_create_result parent name result.

(** [match self.resolve(path) { Ok(h) => h, NoEnt => create, Err(e) => return Err(e) }]. *)
Definition resolve_or_create (path : str) (mode : Z) : M (World N) Error FileHandle :=
  r ← attempt (resolve path);
  match r with
  | inl handle => mret handle
  | inr err =>
      if is_nfs_status NfsStatus.NoEnt err
      then create_handle_with_how path (CreateHow.Unchecked (SetAttr.mode mode))
      else throw err
  end.

Definition write_with_stability (path : str) (data : list byte) (stable : StableHow)
    : M (World N) Error unit :=
  handle ← resolve_or_create path mode_0644;
  _ ← self_nfs (nfs_setattr handle (SetAttr.size 0));
  write_handle_all handle 0 data stable.

Definition write (path : str) (data : list byte) : M (World N) Error unit :=
  write_with_stability path data StableHow.FileSync.

Definition write_at_with_stability (path : str) (offset : Z) (data : list byte) (stable : StableHow)
    : M (World N) Error unit :=
  handle ← resolve path;
  write_handle_all handle offset data stable.

Definition write_at (path : str) (offset : Z) (data : list byte) : M (World N) Error unit :=
  write_at_with_stability path offset data StableHow.FileSync.

Definition append_with_stability (path : str) (data : list byte) (stable : StableHow)
    : M (World N) Error Z :=
  handle ← resolve path;
  attr ← self_nfs (nfs_getattr handle);
  write_handle_all handle (FileAttr.size attr) data stable ;;
  lift (advance_offset 0 (zlen data) "APPEND").

Definition append (path : str) (data : list byte) : M (World N) Error Z :=
  append_with_stability path data StableHow.FileSync.

Section reader.
Context {Rd : Type} `{!Reader Rd}.

Definition write_handle_from_reader_at_step (handle : FileHandle) (stable : StableHow) (l : Z * Z)
    : M (World N * Rd) Error (Z * Z + Z) :=
  let '(offset, written) := l in
  write_size ← on_self (self write_size);
  buffer ← read_in write_size;
  if zlen buffer =? 0 then break_ written else
  on_self (write_handle_all handle offset buffer stable) ;;
  offset ← lift (advance_offset offset (zlen buffer) "WRITE reader");
  written ← lift (advance_offset written (zlen buffer) "WRITE reader total");
  continue_ (offset, written).

Definition write_handle_from_reader_at (handle : FileHandle) (offset : Z) (stable : StableHow)
    : M (World N * Rd) Error Z :=
  loop offset_fuel (write_handle_from_reader_at_step handle stable) (offset, 0).

Definition write_handle_from_reader (handle : FileHandle) (stable : StableHow)
    : M (World N * Rd) Error Z :=
  write_handle_from_reader_at handle 0 stable.

Definition write_from_reader_with_stability (path : str) (stable : StableHow)
    : M (World N * Rd) Error Z :=
  handle ← on_self (resolve_or_create path mode_0644);
  _ ← on_self (self_nfs (nfs_setattr handle (SetAttr.size 0)));
  write_handle_from_reader handle stable.

Definition write_from_reader (path : str) : M (World N * Rd) Error Z :=
  write_from_reader_with_stability path StableHow.FileSync.

Definition append_from_reader_with_stability (path : str) (stable : StableHow)
    : M (World N * Rd) Error Z :=
  handle ← on_self (resolve path);
  attr ← on_self (self_nfs (nfs_getattr handle));
  write_handle_from_reader_at handle (FileAttr.size attr) stable.

Definition append_from_reader (path : str) : M (World N * Rd) Error Z :=
  append_from_reader_with_stability path StableHow.FileSync.

End reader.

(** *** Removing and renaming *)

Definition remove (path : str) : M (World N) Error unit :=
  '(parent, name) ← resolve_parent path;
  _ ← self_nfs (nfs_remove parent name);
  mret tt.

Definition rmdir (path : str) : M (World N) Error unit :=
  '(parent, name) ← resolve_parent path;
  _ ← self_nfs (nfs_rmdir parent name);
  mret tt.

(** [match m { Ok(()) => Ok(true), not found => Ok(false), Err(e) => Err(e) }]. *)
Definition if_exists (m : M (World N) Error unit) : M (World N) Error bool :=
  r ← attempt m;
  match r with
  | inl _ => mret true
  | inr err => if is_not_found err then mret false else throw err
  end.

Definition remove_if_exists (path : str) : M (World N) Error bool := if_exists (remove path).
Definition rmdir_if_exists (path : str) : M (World N) Error bool := if_exists (rmdir path).

Definition rename (from to : str) : M (World N) Error unit :=
  '(from_parent, from_name) ← resolve_parent from;
  '(to_parent, to_name) ← resolve_parent to;
  _ ← self_nfs (nfs_rename from_parent from_name to_parent to_name);
  mret tt.

Definition hard_link (existing link : str) : M (World N) Error unit :=
  file ← resolve existing;
  '(link_dir, link_name) ← resolve_parent link;
  _ ← self_nfs (nfs_link file link_dir link_name);
  mret tt.

(** *** Atomic writes *)

(** [let mut created = false;] and [create_guarded_handle(.., &mut created)]: the
    flag is set behind the CREATE; what follows is written as nested matches. *)

Definition create_guarded_handle (path : str) (mode : Z) : M (World N * bool) Error FileHandle :=
  '(parent, name) ← untouched (resolve_parent path);
  result ← untouched (self_nfs (nfs_create parent name (CreateHow.Guarded (SetAttr.mode mode))));
  modify (λ s, (s.1, true)) ;;
  untouched (handle_from_create_result parent name result).

Definition finish_with_temp_cleanup {A} (result : A + Error) (created : bool) (temp : str)
    (cleanup_context : string) : M (World N) Error A :=
  match result with
  | inl value => mret value
  | inr err =>
      if created then
        r ← attempt (remove temp);
        throw (cleanup_error err cleanup_context r)
      else throw err
  end.

Definition write_atomic_with_mode_and_stability (path : str) (data : list byte) (mode : Z)
    (stable : StableHow) : M (World N) Error unit :=
  temp ← self_env (temporary_sibling_path path);
  '(handle, created) ← run_created (create_guarded_handle temp mode);
  result ←
    match handle with
    | inl handle =>
        written ← attempt (write_handle_all handle 0 data stable);
        match written with
        | inl _ => attempt (rename temp path)
        | inr err => mret (inr err)
        end
    | inr err => mret (inr err)
    end;
  finish_with_temp_cleanup result created temp "cleanup REMOVE after failed atomic write".

Definition write_atomic (path : str) (data : list byte) : M (World N) Error unit :=
  write_atomic_with_mode_and_stability path data mode_0644 StableHow.FileSync.
Definition write_atomic_with_mode (path : str) (data : list byte) (mode : Z) : M (World N) Error unit :=
  write_atomic_with_mode_and_stability path data mode StableHow.FileSync.
Definition write_atomic_with_stability (path : str) (data : list byte) (stable : StableHow)
    : M (World N) Error unit :=
  write_atomic_with_mode_and_stability path data mode_0644 stable.

Section atomic_reader.
Context {Rd : Type} `{!Reader Rd}.

Definition write_atomic_from_reader_with_mode_and_stability (path : str) (mode : Z)
    (stable : StableHow) : M (World N * Rd) Error Z :=
  temp ← on_self (self_env (temporary_sibling_path path));
  '(handle, created) ← on_self (run_created (create_guarded_handle temp mode));
  result ←
    match handle with
    | inl handle =>
        written ← attempt (write_handle_from_reader handle stable);
        match written with
        | inl written =>
            renamed ← attempt (on_self (rename temp path));
            match renamed with
            | inl _ => mret (inl written)
            | inr err => mret (inr err)
            end
        | inr err => mret (inr err)
        end
    | inr err => mret (inr err)
    end;
  on_self (finish_with_temp_cleanup result created temp
             "cleanup REMOVE after failed atomic reader write").

Definition write_atomic_from_reader (path : str) : M (World N * Rd) Error Z :=
  write_atomic_from_reader_with_mode_and_stability path mode_0644 StableHow.FileSync.
Definition write_atomic_from_reader_with_mode (path : str) (mode : Z) : M (World N * Rd) Error Z :=
  write_atomic_from_reader_with_mode_and_stability path mode StableHow.FileSync.
Definition write_atomic_from_reader_with_stability (path : str) (stable : StableHow)
    : M (World N * Rd) Error Z :=
  write_atomic_from_reader_with_mode_and_stability path mode_0644 stable.

End atomic_reader.

(** *** Copying *)

Definition copy_handles_step (source dest : FileHandle) (stable : StableHow) (offset : Z)
    : M (World N) Error (Z + Z) :=
  read_size ← self read_size;
  chunk ← self_nfs (nfs_read source offset read_size);
  if zlen (read_data chunk) >? read_size
  then throw (read_too_long (zlen (read_data chunk)) read_size) else
  if is_empty (read_data chunk) then
    if read_eof chunk then break_ offset else throw read_no_data
  else
    write_handle_all dest offset (read_data chunk) stable ;;
    offset ← lift (advance_offset offset (zlen (read_data chunk)) "COPY");
    if read_eof chunk then break_ offset else continue_ offset.

Definition copy_handles (source dest : FileHandle) (stable : StableHow) : M (World N) Error Z :=
  loop offset_fuel (copy_handles_step source dest stable) 0.

(** [normalize_path(from)? == normalize_path(to)?]. *)
Definition ensure_distinct_paths (from to : str) : M (World N) Error unit :=
  from_components ← lift (normalize_path from);
  to_components ← lift (normalize_path to);
  if bool_decide (from_components = to_components)
  then throw (Protocol [PLit "copy source and destination must differ"])
  else mret tt.

Definition copy_with_stability (from to : str) (stable : StableHow) : M (World N) Error Z :=
  ensure_distinct_paths from to ;;
  source ← resolve from;
  source_attr ← self_nfs (nfs_getattr source);
  dest ← resolve_or_create to (Z.land (FileAttr.mode source_attr) mode_bits);
  lift (ensure_distinct_copy_handles source dest) ;;
  _ ← self_nfs (nfs_setattr dest (SetAttr.size 0));
  copy_handles source dest stable.

Definition copy (from to : str) : M (World N) Error Z := copy_with_stability from to StableHow.FileSync.

Definition copy_atomic_with_stability (from to : str) (stable : StableHow) : M (World N) Error Z :=
  ensure_distinct_paths from to ;;
  source ← resolve from;
  source_attr ← self_nfs (nfs_getattr source);
  temp ← self_env (temporary_sibling_path to);
  '(target, created) ← run_created (create_guarded_handle temp (Z.land (FileAttr.mode source_attr) mode_bits));
  result ←
    match target with
    | inl target =>
        copied ← attempt (copy_handles source target stable);
        match copied with
        | inl copied =>
            renamed ← attempt (rename temp to);
            match renamed with
            | inl _ => mret (inl copied)
            | inr err => mret (inr err)
            end
        | inr err => mret (inr err)
        end
    | inr err => mret (inr err)
    end;
  finish_with_temp_cleanup result created temp "cleanup REMOVE after failed atomic copy".

Definition copy_atomic (from to : str) : M (World N) Error Z :=
  copy_atomic_with_stability from to StableHow.FileSync.

(** *** Creating *)

Definition create_handle_new (path : str) (mode : Z) : M (World N) Error FileHandle := λ w,
  let '((w', _), o) := create_guarded_handle path mode (w, false) in (w', o).
Definition create_new (path : str) (mode : Z) : M (World N) Error unit :=
  _ ← create_handle_new path mode; mret tt.
Definition create (path : str) (mode : Z) : M (World N) Error unit := create_new path mode.
Definition create_unchecked (path : str) (mode : Z) : M (World N) Error unit :=
  _ ← create_handle_with_how path (CreateHow.Unchecked (SetAttr.mode mode)); mret tt.

Definition mkdir (path : str) (mode : Z) : M (World N) Error unit :=
  '(parent, name) ← resolve_parent path;
  _ ← self_nfs (nfs_mkdir parent name (SetAttr.mode mode));
  mret tt.

(** One component of [create_dir_all]: the handle of the directory [component]
    of [current], created if it is missing. *)
Definition create_dir_component (mode : Z) (current_path : str) (current : FileHandle)
    (component : str) : M (World N) Error FileHandle :=
  r ← attempt (self_nfs (nfs_lookup current component));
  match r with
  | inl lookup =>
      ensure_directory current_path (lookup_object lookup) (lookup_object_attributes lookup) ;;
      mret (lookup_object lookup)
  | inr err =>
      if is_nfs_status NfsStatus.NoEnt err then
        r ← attempt (self_nfs (nfs_mkdir current component (SetAttr.mode mode)));
        match r with
        | inl created =>
            match create_object created with
            | Some handle => mret handle
            | None =>
                r ← self_nfs (nfs_lookup current component);
                mret (lookup_object r)
            end
        | inr err =>
            if is_nfs_status NfsStatus.Exist err then
              lookup ← self_nfs (nfs_lookup current component);
              ensure_directory current_path (lookup_object lookup)
                (lookup_object_attributes lookup) ;;
              mret (lookup_object lookup)
            else throw err
        end
      else throw err
  end.

Fixpoint create_dirs (mode : Z) (current_path : str) (current : FileHandle) (components : list str)
    : M (World N) Error unit :=
  match components with
  | [] => mret tt
  | component :: rest =>
      let current_path := join_path current_path component in
      current ← create_dir_component mode current_path current component;
      create_dirs mode current_path current rest
  end.

Definition create_dir_all (path : str) (mode : Z) : M (World N) Error unit :=
  components ← lift (normalize_path path);
  current ← self root;
  create_dirs mode [slash] current components.

Definition symlink (path link_target : str) : M (World N) Error unit :=
  '(parent, name) ← resolve_parent path;
  _ ← self_nfs (nfs_symlink parent name link_target SetAttr.default);
  mret tt.

Definition mknod (path : str) (what : MknodData) : M (World N) Error unit :=
  '(parent, name) ← resolve_parent path;
  _ ← self_nfs (nfs_mknod parent name what);
  mret tt.

Definition create_fifo (path : str) (mode : Z) : M (World N) Error unit :=
  mknod path (MknodData.Fifo (SetAttr.mode mode)).
Definition create_socket (path : str) (mode : Z) : M (World N) Error unit :=
  mknod path (MknodData.Socket (SetAttr.mode mode)).
Definition create_block_device (path : str) (major minor mode : Z) : M (World N) Error unit :=
  mknod path (MknodData.BlockDevice (SetAttr.mode mode) (mkSpecData major minor)).
Definition create_character_device (path : str) (major minor mode : Z) : M (World N) Error unit :=
  mknod path (MknodData.CharacterDevice (SetAttr.mode mode) (mkSpecData major minor)).

(** *** Directories *)

(** READDIRPLUS, or READDIR where the server does not support it. *)
Definition read_dir_batch (dir : FileHandle) (cookie : Z) (cookieverf : list byte)
    : M (World N) Error ReadDirResult :=
  dir_size ← self dir_size;
  r ← attempt (self_nfs (nfs_readdirplus dir cookie cookieverf dir_size dir_size));
  match r with
  | inl batch => mret batch
  | inr err =>
      if is_nfs_status NfsStatus.NotSupported err
      then self_nfs (nfs_readdir dir cookie cookieverf dir_size)
      else throw err
  end.

Definition read_dir_step (dir : FileHandle) (max_entries : Z) (l : list DirEntry * DirPageCursor)
    : M (World N) Error (list DirEntry * DirPageCursor + list DirEntry) :=
  let '(entries, cursor) := l in
  batch ← read_dir_batch dir (cursor_cookie cursor) (cursor_cookieverf cursor);
  entries ← lift (append_dir_entries entries batch max_entries);
  next ← lift (next_dir_cursor batch (cursor_cookie cursor));
  match next with
  | Some next => continue_ (entries, next)
  | None => break_ entries
  end.

(** Every turn but the last adds an entry, and there are at most
    [max_entries] of them. *)
Definition read_dir_with_limit (path : str) (max_entries : Z) : M (World N) Error (list DirEntry) :=
  dir ← resolve path;
  loop (Z.to_pos (max_entries + 2)) (read_dir_step dir max_entries) ([], DirPageCursor_default).

Definition read_dir (path : str) : M (World N) Error (list DirEntry) :=
  max ← self max_dir_entries;
  read_dir_with_limit path max.

Definition read_dir_limited (path : str) (max_entries : Z) : M (World N) Error (list DirEntry) :=
  lift (validate_max_dir_entries max_entries) ;;
  max ← self max_dir_entries;
  read_dir_with_limit path (Z.min max_entries max).

Definition read_dir_page_limited (path : str) (cursor : option DirPageCursor) (max_entries : Z)
    : M (World N) Error DirPage :=
  lift (validate_max_dir_entries max_entries) ;;
  max ← self max_dir_entries;
  let max_entries := Z.min max_entries max in
  dir ← resolve path;
  let cursor := default DirPageCursor_default cursor in
  batch ← read_dir_batch dir (cursor_cookie cursor) (cursor_cookieverf cursor);
  lift (dir_page_from_batch batch (cursor_cookie cursor) max_entries).

Definition read_dir_page (path : str) (cursor : option DirPageCursor) : M (World N) Error DirPage :=
  max ← self max_dir_entries;
  read_dir_page_limited path cursor max.

(** *** Recursive removal *)

(** The children of [path], pushed in reverse so that the first is on top. *)
Definition push_children (path : str) (entries : list DirEntry) (stack : list RemoveTask)
    : list RemoveTask :=
  fold_left (λ stack entry,
    if bool_decide (dir_name entry = [dot]) || bool_decide (dir_name entry = [dot; dot]) then stack
    else Visit (join_path path (dir_name entry)) (FileAttr.file_type <$> dir_attributes entry) :: stack)
    (rev entries) stack.

(** One turn of the loop; the top of the stack is its head. *)
Definition remove_all_step (stack : list RemoveTask) : M (World N) Error (list RemoveTask + unit) :=
  match stack with
  | [] => break_ tt
  | Visit path t :: stack =>
      t ← match t with
          | Some t => mret t
          | None => attr ← metadata path; mret (FileAttr.file_type attr)
          end;
      if bool_decide (t = FileType.Directory) then
        entries ← read_dir path;
        continue_ (push_children path entries (RemoveDir path :: stack))
      else
        remove path ;;
        continue_ stack
  | RemoveDir path :: stack =>
      rmdir path ;;
      continue_ stack
  end.

(** [fuel] bounds the number of tasks: how many there are is up to the server. *)
Definition remove_all (fuel : positive) (path : str) : M (World N) Error unit :=
  components ← lift (normalize_path path);
  if is_empty components then throw (InvalidPath path) else
  attr ← metadata path;
  loop fuel remove_all_step [Visit path (Some (FileAttr.file_type attr))].

Definition remove_all_if_exists (fuel : positive) (path : str) : M (World N) Error bool :=
  if_exists (remove_all fuel path).

End client.
End Client.

End TokioV3.
