(* ===== verification/TokioV3Spec.v ===== *)
(** * The asynchronous NFSv3 client follows the blocking one (laws of [TokioV3])

    [Nfs3Cut N N'] is what the procedures of the asynchronous client promise:
    each does what the blocking one does or is dropped in between ([Cut]).  The
    operations on paths inherit it from the procedures, and [Nfs3Client] over
    any socket of [CutStream] has it. *)

From Stdlib Require Import Strings.String Strings.Byte.
From stdpp Require Import list.
From S2P Require Import Prelude Text Xdr Status Errors Rpc V3Proto V3Calls V3Client Mount V3Blocking V3Connect.
From S2P Require Import Cut TokioRpc TokioRpcSpec TokioV3.
Import FileHandle (FileHandle).
Import FileAttr (FileAttr).

#[local] Open Scope Z_scope.
#[local] Hint Constants Opaque : typeclass_instances.
#[local] Hint Transparent PostOpAttr : typeclass_instances.

(** ** The interface *)

Class Nfs3Cut (N N' H : Type) `{!Nfs3 N, !Nfs3 N', !Erasure N N', !History N' H} := {
  cut_nfs_getattr fh :: Cut (nfs_getattr fh) (nfs_getattr fh);
  cut_nfs_setattr fh attr :: Cut (nfs_setattr fh attr) (nfs_setattr fh attr);
  cut_nfs_lookup dir name :: Cut (nfs_lookup dir name) (nfs_lookup dir name);
  cut_nfs_access fh a :: Cut (nfs_access fh a) (nfs_access fh a);
  cut_nfs_readlink fh :: Cut (nfs_readlink fh) (nfs_readlink fh);
  cut_nfs_read fh offset count :: Cut (nfs_read fh offset count) (nfs_read fh offset count);
  cut_nfs_write fh offset stable data :: Cut (nfs_write fh offset stable data) (nfs_write fh offset stable data);
  cut_nfs_create dir name how :: Cut (nfs_create dir name how) (nfs_create dir name how);
  cut_nfs_mkdir dir name attr :: Cut (nfs_mkdir dir name attr) (nfs_mkdir dir name attr);
  cut_nfs_symlink dir name target attr :: Cut (nfs_symlink dir name target attr) (nfs_symlink dir name target attr);
  cut_nfs_mknod dir name what :: Cut (nfs_mknod dir name what) (nfs_mknod dir name what);
  cut_nfs_remove dir name :: Cut (nfs_remove dir name) (nfs_remove dir name);
  cut_nfs_rmdir dir name :: Cut (nfs_rmdir dir name) (nfs_rmdir dir name);
  cut_nfs_rename d1 n1 d2 n2 :: Cut (nfs_rename d1 n1 d2 n2) (nfs_rename d1 n1 d2 n2);
  cut_nfs_link file dir name :: Cut (nfs_link file dir name) (nfs_link file dir name);
  cut_nfs_readdir dir cookie verf count :: Cut (nfs_readdir dir cookie verf count) (nfs_readdir dir cookie verf count);
  cut_nfs_readdirplus dir cookie verf dircount maxcount :: Cut (nfs_readdirplus dir cookie verf dircount maxcount) (nfs_readdirplus dir cookie verf dircount maxcount);
  cut_nfs_fsstat fh :: Cut (nfs_fsstat fh) (nfs_fsstat fh);
  cut_nfs_fsinfo fh :: Cut (nfs_fsinfo fh) (nfs_fsinfo fh);
  cut_nfs_pathconf fh :: Cut (nfs_pathconf fh) (nfs_pathconf fh);
  cut_nfs_commit fh offset count :: Cut (nfs_commit fh offset count) (nfs_commit fh offset count);
}.

(** ** Procedures *)

#[export] Instance nfs_erasure {St St'} `{!Erasure St St'}
    : Erasure (TokioV3.Nfs3Client.Nfs3Client St) (Nfs3Client.Nfs3Client St') := λ c,
  Nfs3Client.mkNfs3Client (erase (TokioV3.Nfs3Client.nfs_rpc c)) (TokioV3.Nfs3Client.nfs_retry_policy c)
    (TokioV3.Nfs3Client.nfs_slept c).
#[export] Instance nfs_history {St H} `{!History St H} : History (Nfs3Client.Nfs3Client St) H :=
  λ c, hist (Nfs3Client.nfs_rpc c).

(** Waiting is no progress. *)
Class CutTimer (St St' H : Type) `{!AsyncTimer St, !Erasure St St', !History St' H} :=
  cut_timer delay :: Cut (stream_sleep delay) (mret tt : M St' Empty_set unit).

Section procedures.
Context {St St' H : Type} `{CutStream St St' H} `{!AsyncTimer St, !CutTimer St St' H}.
#[local] Abbreviation N := (TokioV3.Nfs3Client.Nfs3Client St).
#[local] Abbreviation N' := (Nfs3Client.Nfs3Client St').
#[local] Abbreviation cut m b := (Cut (S := N) (S' := N') m b).

#[export] Instance cut_rpc {A} (m : M (TokioRpc.RpcClient St) Error A) (b : M (RpcClient St') Error A) :
  Cut m b → cut (TokioV3.Nfs3Client.rpc m) (Nfs3Client.rpc b).
Proof. by apply cut_zoom. Qed.

Lemma cut_sleep delay : cut (TokioV3.Nfs3Client.sleep delay) (Nfs3Client.thread_sleep delay).
Proof.
  apply (cut_ext _ (Nfs3Client.rpc (zoom stream with_stream
       (map_err (λ e : Empty_set, match e return Error with end) (mret tt : M St' Empty_set unit))) ;;
     Nfs3Client.thread_sleep delay)); [by intros [[]]|].
  unfold TokioV3.Nfs3Client.sleep. apply cut_bind; [|intros _; by apply cut_modify].
  apply cut_rpc. apply cut_zoom; [done..|apply _].
Qed.

#[export] Instance cut_nfs_call {A} procedure (enc : A → M Encoder XdrError unit) args :
  cut (TokioV3.Nfs3Client.call procedure enc args) (Nfs3Client.call procedure enc args).
Proof.
  unfold TokioV3.Nfs3Client.call, Nfs3Client.call. apply cut_bind; [by apply cut_gets|intros policy].
  apply cut_loop. intros retry. unfold TokioV3.Nfs3Client.call_step, Nfs3Client.call_step, break_, continue_.
  apply cut_bind; [apply _|intros payload]. apply cut_bind; [by apply cut_gets|intros policy'].
  apply cut_if; [|apply _]. destruct (delay_for_retry policy' retry) as [delay|]; [|apply _].
  apply cut_bind; [apply cut_sleep|]. apply _.
Qed.

#[export] Instance cut_decoding {A} (m : M Decoder Error A) payload :
  cut (TokioV3.Nfs3Client.decoding m payload) (Nfs3Client.decoding m payload).
Proof. apply cut_lift. Qed.

#[export] Instance Nfs3Client_cut : Nfs3Cut N N' H.
Proof.
  split; intros;
    try (change (cut (TokioV3.Nfs3Client.write fh offset stable data) (Nfs3Client.write fh offset stable data));
         unfold TokioV3.Nfs3Client.write, Nfs3Client.write; apply cut_if; [apply cut_throw|]);
    (apply cut_bind; [apply cut_nfs_call|intros; apply cut_decoding]).
Qed.

End procedures.

(** ** Operations on paths *)

#[export] Instance world_erasure {N N'} `{!Erasure N N'} : Erasure (World N) (World N') := λ w,
  let c := client w in
  mkWorld (mkClient (builder c) (target c) (auth c) (mount_port c) (root c) (erase (nfs c)) (fsinfo c)
             (read_size c) (write_size c) (dir_size c) (max_dir_entries c)) (env w).
#[export] Instance world_history {N H} `{!History N H} : History (World N) H := λ w, hist (nfs (client w)).

(** Local readers and writers that do what the blocking ones do, or are dropped. *)
Class CutWriter (Wr Wr' : Type) `{!Writer Wr, !Writer Wr', !Carried Wr Wr'} := cut_writer bs (wr : Wr) :
  match writer_write_all bs wr with
  | (_, Fault Dropped) => True
  | (wr', o) => writer_write_all bs (carry wr) = (carry (R' := Wr') wr', o)
  end.
Class CutReader (Rd Rd' : Type) `{!Reader Rd, !Reader Rd', !Carried Rd Rd'} := cut_reader n (rd : Rd) :
  match reader_read n rd with
  | (_, Fault Dropped) => True
  | (rd', o) => reader_read n (carry rd) = (carry (R' := Rd') rd', o)
  end.

(** A buffer in memory. *)
#[export] Instance Vec_cut : CutWriter (list byte) (list byte).
Proof. by intros bs wr. Qed.

#[local] Hint Extern 4 (Cut (match ?x with _ => _ end) _) => destruct x : typeclass_instances.
#[local] Hint Extern 3 (Cut (let _ := _ in _) _) => cbv zeta : typeclass_instances.

Section paths.
Context {N N' H : Type} `{Nfs3Cut N N' H}.
#[local] Abbreviation cut m b := (Cut (S := World N) (S' := World N') m b).

#[export] Instance cut_self_nfs {A} (m : M N Error A) (b : M N' Error A) :
  Cut m b → cut (Client.self_nfs m) (Client.self_nfs b).
Proof. by apply cut_zoom. Qed.
#[export] Instance cut_self_env {A} (m : M TempEnv Error A) : cut (Client.self_env m) (Client.self_env m).
Proof.
  split; [intros t; unfold Client.self_env, zoom; by destruct (m (env t))|]. intros s. unfold dropped_within, Client.self_env, zoom.
  simpl. by destruct (m (env s)) as [e [a|err|[]]].
Qed.
#[export] Instance cut_self_root : cut (Client.self root) (Client.self root).
Proof. by apply cut_gets. Qed.
#[export] Instance cut_self_read_size : cut (Client.self read_size) (Client.self read_size).
Proof. by apply cut_gets. Qed.
#[export] Instance cut_self_write_size : cut (Client.self write_size) (Client.self write_size).
Proof. by apply cut_gets. Qed.
#[export] Instance cut_self_dir_size : cut (Client.self dir_size) (Client.self dir_size).
Proof. by apply cut_gets. Qed.
#[export] Instance cut_self_max_dir_entries : cut (Client.self max_dir_entries) (Client.self max_dir_entries).
Proof. by apply cut_gets. Qed.
#[export] Instance cut_on_self {Wr Wr' A} `{!Carried Wr Wr'} (m : M (World N) Error A) (b : M (World N') Error A) :
  Cut m b → Cut (Client.on_self (Wr := Wr) m) (Client.on_self (Wr := Wr') b).
Proof. intros. by apply cut_fst. Qed.
#[export] Instance cut_untouched {S S' A} `{!Erasure S S', !History S' H} (m : M S Error A) (b : M S' Error A) :
  Cut m b → Cut (Client.untouched m) (Client.untouched b).
Proof. intros. by apply cut_fst. Qed.
#[export] Instance cut_write_out `{CutWriter Wr Wr'} bs :
  Cut (S := World N * Wr) (S' := World N' * Wr') (Client.write_out bs) (Client.write_out bs).
Proof. unfold Client.write_out. apply cut_map_err, cut_snd. apply cut_writer. Qed.
#[export] Instance cut_read_in `{CutReader Rd Rd'} n :
  Cut (S := World N * Rd) (S' := World N' * Rd') (Client.read_in n) (Client.read_in n).
Proof. unfold Client.read_in. apply cut_map_err, cut_snd. apply cut_reader. Qed.
#[export] Instance cut_walk current components :
  cut (TokioV3.Client.walk current components) (Client.walk current components).
Proof. revert current. induction components; intros; cbn [TokioV3.Client.walk Client.walk]; apply _. Qed.
#[export] Instance cut_resolve path : cut (TokioV3.Client.resolve path) (Client.resolve path).
Proof. unfold TokioV3.Client.resolve, Client.resolve. apply _. Qed.
#[export] Instance cut_resolve_parent path : cut (TokioV3.Client.resolve_parent path) (Client.resolve_parent path).
Proof. unfold TokioV3.Client.resolve_parent, Client.resolve_parent. apply _. Qed.
#[export] Instance cut_ensure_directory path handle attr :
  cut (TokioV3.Client.ensure_directory path handle attr) (Client.ensure_directory path handle attr).
Proof. unfold TokioV3.Client.ensure_directory, Client.ensure_directory. apply _. Qed.
#[export] Instance cut_path_fsinfo path : cut (TokioV3.Client.path_fsinfo path) (Client.path_fsinfo path).
Proof. unfold TokioV3.Client.path_fsinfo, Client.path_fsinfo. apply _. Qed.
#[export] Instance cut_fsstat path : cut (TokioV3.Client.fsstat path) (Client.fsstat path).
Proof. unfold TokioV3.Client.fsstat, Client.fsstat. apply _. Qed.
#[export] Instance cut_pathconf path : cut (TokioV3.Client.pathconf path) (Client.pathconf path).
Proof. unfold TokioV3.Client.pathconf, Client.pathconf. apply _. Qed.
#[export] Instance cut_file_handle path : cut (TokioV3.Client.file_handle path) (Client.file_handle path).
Proof. unfold TokioV3.Client.file_handle, Client.file_handle. apply _. Qed.
#[export] Instance cut_parent_file_handle path :
  cut (TokioV3.Client.parent_file_handle path) (Client.parent_file_handle path).
Proof. unfold TokioV3.Client.parent_file_handle, Client.parent_file_handle. apply _. Qed.
#[export] Instance cut_getattr path : cut (TokioV3.Client.getattr path) (Client.getattr path).
Proof. unfold TokioV3.Client.getattr, Client.getattr. apply _. Qed.
#[export] Instance cut_metadata path : cut (TokioV3.Client.metadata path) (Client.metadata path).
Proof. unfold TokioV3.Client.metadata, Client.metadata. apply _. Qed.
#[export] Instance cut_parent_getattr path : cut (TokioV3.Client.parent_getattr path) (Client.parent_getattr path).
Proof. unfold TokioV3.Client.parent_getattr, Client.parent_getattr. apply _. Qed.
#[export] Instance cut_parent_metadata path : cut (TokioV3.Client.parent_metadata path) (Client.parent_metadata path).
Proof. unfold TokioV3.Client.parent_metadata, Client.parent_metadata. apply _. Qed.
#[export] Instance cut_file_type path : cut (TokioV3.Client.file_type path) (Client.file_type path).
Proof. unfold TokioV3.Client.file_type, Client.file_type. apply _. Qed.
#[export] Instance cut_is_file path : cut (TokioV3.Client.is_file path) (Client.is_file path).
Proof. unfold TokioV3.Client.is_file, Client.is_file. apply _. Qed.
#[export] Instance cut_is_dir path : cut (TokioV3.Client.is_dir path) (Client.is_dir path).
Proof. unfold TokioV3.Client.is_dir, Client.is_dir. apply _. Qed.
#[export] Instance cut_is_symlink path : cut (TokioV3.Client.is_symlink path) (Client.is_symlink path).
Proof. unfold TokioV3.Client.is_symlink, Client.is_symlink. apply _. Qed.
#[export] Instance cut_access path access : cut (TokioV3.Client.access path access) (Client.access path access).
Proof. unfold TokioV3.Client.access, Client.access. apply _. Qed.
#[export] Instance cut_lookup path : cut (TokioV3.Client.lookup path) (Client.lookup path).
Proof. unfold TokioV3.Client.lookup, Client.lookup. apply _. Qed.
#[export] Instance cut_path_exists path : cut (TokioV3.Client.path_exists path) (Client.path_exists path).
Proof. unfold TokioV3.Client.path_exists, Client.path_exists. apply _. Qed.
#[export] Instance cut_read_link path : cut (TokioV3.Client.read_link path) (Client.read_link path).
Proof. unfold TokioV3.Client.read_link, Client.read_link. apply _. Qed.
#[export] Instance cut_setattr path attr : cut (TokioV3.Client.setattr path attr) (Client.setattr path attr).
Proof. unfold TokioV3.Client.setattr, Client.setattr. apply _. Qed.
#[export] Instance cut_truncate path size : cut (TokioV3.Client.truncate path size) (Client.truncate path size).
Proof. unfold TokioV3.Client.truncate, Client.truncate. apply _. Qed.
#[export] Instance cut_set_mode path mode : cut (TokioV3.Client.set_mode path mode) (Client.set_mode path mode).
Proof. unfold TokioV3.Client.set_mode, Client.set_mode. apply _. Qed.
#[export] Instance cut_set_uid path uid : cut (TokioV3.Client.set_uid path uid) (Client.set_uid path uid).
Proof. unfold TokioV3.Client.set_uid, Client.set_uid. apply _. Qed.
#[export] Instance cut_set_gid path gid : cut (TokioV3.Client.set_gid path gid) (Client.set_gid path gid).
Proof. unfold TokioV3.Client.set_gid, Client.set_gid. apply _. Qed.
#[export] Instance cut_set_ownership path uid gid :
  cut (TokioV3.Client.set_ownership path uid gid) (Client.set_ownership path uid gid).
Proof. unfold TokioV3.Client.set_ownership, Client.set_ownership. apply _. Qed.
#[export] Instance cut_set_times path atime mtime :
  cut (TokioV3.Client.set_times path atime mtime) (Client.set_times path atime mtime).
Proof. unfold TokioV3.Client.set_times, Client.set_times. apply _. Qed.
#[export] Instance cut_touch path : cut (TokioV3.Client.touch path) (Client.touch path).
Proof. unfold TokioV3.Client.touch, Client.touch. apply _. Qed.
#[export] Instance cut_commit path offset count :
  cut (TokioV3.Client.commit path offset count) (Client.commit path offset count).
Proof. unfold TokioV3.Client.commit, Client.commit. apply _. Qed.
#[export] Instance cut_read_handle_to_end_step handle l :
  cut (TokioV3.Client.read_handle_to_end_step handle l) (Client.read_handle_to_end_step handle l).
Proof. unfold TokioV3.Client.read_handle_to_end_step, Client.read_handle_to_end_step, TokioV3.Client.read_no_data, Client.read_no_data, TokioV3.Client.read_too_long, Client.read_too_long. apply _. Qed.
#[export] Instance cut_read_handle_to_end handle :
  cut (TokioV3.Client.read_handle_to_end handle) (Client.read_handle_to_end handle).
Proof. unfold TokioV3.Client.read_handle_to_end, Client.read_handle_to_end. apply _. Qed.
#[export] Instance cut_read path : cut (TokioV3.Client.read path) (Client.read path).
Proof. unfold TokioV3.Client.read, Client.read. apply _. Qed.
#[export] Instance cut_read_handle_to_writer_step `{CutWriter Wr Wr'} handle l :
  Cut (S := World N * Wr) (S' := World N' * Wr') (TokioV3.Client.read_handle_to_writer_step handle l)
    (Client.read_handle_to_writer_step handle l).
Proof. unfold TokioV3.Client.read_handle_to_writer_step, Client.read_handle_to_writer_step, TokioV3.Client.read_no_data, Client.read_no_data, TokioV3.Client.read_too_long, Client.read_too_long. apply _. Qed.
#[export] Instance cut_read_handle_to_writer `{CutWriter Wr Wr'} handle :
  Cut (S := World N * Wr) (S' := World N' * Wr') (TokioV3.Client.read_handle_to_writer handle)
    (Client.read_handle_to_writer handle).
Proof. unfold TokioV3.Client.read_handle_to_writer, Client.read_handle_to_writer. apply _. Qed.
#[export] Instance cut_read_handle_range_to_writer_step `{CutWriter Wr Wr'} handle l :
  Cut (S := World N * Wr) (S' := World N' * Wr') (TokioV3.Client.read_handle_range_to_writer_step handle l)
    (Client.read_handle_range_to_writer_step handle l).
Proof. unfold TokioV3.Client.read_handle_range_to_writer_step, Client.read_handle_range_to_writer_step, TokioV3.Client.read_no_data, Client.read_no_data, TokioV3.Client.read_too_long, Client.read_too_long. apply _. Qed.
#[export] Instance cut_read_handle_range_to_writer `{CutWriter Wr Wr'} handle offset remaining :
  Cut (S := World N * Wr) (S' := World N' * Wr') (TokioV3.Client.read_handle_range_to_writer handle offset remaining)
    (Client.read_handle_range_to_writer handle offset remaining).
Proof. unfold TokioV3.Client.read_handle_range_to_writer, Client.read_handle_range_to_writer. apply _. Qed.
#[export] Instance cut_read_to_writer `{CutWriter Wr Wr'} path :
  Cut (S := World N * Wr) (S' := World N' * Wr') (TokioV3.Client.read_to_writer path) (Client.read_to_writer path).
Proof. unfold TokioV3.Client.read_to_writer, Client.read_to_writer. apply _. Qed.
#[export] Instance cut_read_range_to_writer `{CutWriter Wr Wr'} path offset count :
  Cut (S := World N * Wr) (S' := World N' * Wr') (TokioV3.Client.read_range_to_writer path offset count)
    (Client.read_range_to_writer path offset count).
Proof. unfold TokioV3.Client.read_range_to_writer, Client.read_range_to_writer. apply _. Qed.
#[export] Instance cut_into_vec (m : M (World N * list byte) Error Z) (b : M (World N' * list byte) Error Z) :
  Cut m b → cut (Client.into_vec m) (Client.into_vec b).
Proof.
  apply (cut_with (R := list byte) (R' := list byte) [] m b (λ out o, match o with Ok _ => Ok out | Err e => Err e | Fault f => Fault f end)).
  - intros w. unfold Client.into_vec, carry, bytes_carried, id. by destruct (m (w, [])) as [[w' out] [a|e|f]].
  - intros w. unfold Client.into_vec, carry, bytes_carried, id. by destruct (b (w, [])) as [[w' out] [a|e|f]].
  - intros r [a|e|f]; split; congruence.
Qed.
#[export] Instance cut_read_handle_range handle offset count :
  cut (TokioV3.Client.read_handle_range handle offset count) (Client.read_handle_range handle offset count).
Proof. unfold TokioV3.Client.read_handle_range, Client.read_handle_range. apply _. Qed.
#[export] Instance cut_read_handle_at handle offset count :
  cut (TokioV3.Client.read_handle_at handle offset count) (Client.read_handle_at handle offset count).
Proof. unfold TokioV3.Client.read_handle_at, Client.read_handle_at. apply _. Qed.
#[export] Instance cut_read_range path offset count :
  cut (TokioV3.Client.read_range path offset count) (Client.read_range path offset count).
Proof. unfold TokioV3.Client.read_range, Client.read_range. apply _. Qed.
#[export] Instance cut_read_at path offset count :
  cut (TokioV3.Client.read_at path offset count) (Client.read_at path offset count).
Proof. unfold TokioV3.Client.read_at, Client.read_at. apply _. Qed.
#[export] Instance cut_read_exact_at path offset count :
  cut (TokioV3.Client.read_exact_at path offset count) (Client.read_exact_at path offset count).
Proof. unfold TokioV3.Client.read_exact_at, Client.read_exact_at. apply _. Qed.
#[export] Instance cut_write_handle_all_step handle stable l :
  cut (TokioV3.Client.write_handle_all_step handle stable l) (Client.write_handle_all_step handle stable l).
Proof. unfold TokioV3.Client.write_handle_all_step, Client.write_handle_all_step. apply _. Qed.
#[export] Instance cut_write_handle_all handle offset data stable :
  cut (TokioV3.Client.write_handle_all handle offset data stable) (Client.write_handle_all handle offset data stable).
Proof. unfold TokioV3.Client.write_handle_all, Client.write_handle_all. apply _. Qed.
#[export] Instance cut_handle_from_create_result parent name result :
  cut (TokioV3.Client.handle_from_create_result parent name result) (Client.handle_from_create_result parent name result).
Proof. unfold TokioV3.Client.handle_from_create_result, Client.handle_from_create_result. apply _. Qed.
#[export] Instance cut_create_handle_with_how path how :
  cut (TokioV3.Client.create_handle_with_how path how) (Client.create_handle_with_how path how).
Proof. unfold TokioV3.Client.create_handle_with_how, Client.create_handle_with_how. apply _. Qed.
#[export] Instance cut_resolve_or_create path mode :
  cut (TokioV3.Client.resolve_or_create path mode) (Client.resolve_or_create path mode).
Proof. unfold TokioV3.Client.resolve_or_create, Client.resolve_or_create. apply _. Qed.
#[export] Instance cut_write_with_stability path data stable :
  cut (TokioV3.Client.write_with_stability path data stable) (Client.write_with_stability path data stable).
Proof. unfold TokioV3.Client.write_with_stability, Client.write_with_stability. apply _. Qed.
#[export] Instance cut_write path data : cut (TokioV3.Client.write path data) (Client.write path data).
Proof. unfold TokioV3.Client.write, Client.write. apply _. Qed.
#[export] Instance cut_write_at_with_stability path offset data stable :
  cut (TokioV3.Client.write_at_with_stability path offset data stable)
    (Client.write_at_with_stability path offset data stable).
Proof. unfold TokioV3.Client.write_at_with_stability, Client.write_at_with_stability. apply _. Qed.
#[export] Instance cut_write_at path offset data :
  cut (TokioV3.Client.write_at path offset data) (Client.write_at path offset data).
Proof. unfold TokioV3.Client.write_at, Client.write_at. apply _. Qed.
#[export] Instance cut_append_with_stability path data stable :
  cut (TokioV3.Client.append_with_stability path data stable) (Client.append_with_stability path data stable).
Proof. unfold TokioV3.Client.append_with_stability, Client.append_with_stability. apply _. Qed.
#[export] Instance cut_append path data : cut (TokioV3.Client.append path data) (Client.append path data).
Proof. unfold TokioV3.Client.append, Client.append. apply _. Qed.
#[export] Instance cut_write_handle_from_reader_at_step `{CutReader Rd Rd'} handle stable l :
  Cut (S := World N * Rd) (S' := World N' * Rd') (TokioV3.Client.write_handle_from_reader_at_step handle stable l)
    (Client.write_handle_from_reader_at_step handle stable l).
Proof. unfold TokioV3.Client.write_handle_from_reader_at_step, Client.write_handle_from_reader_at_step. apply _. Qed.
#[export] Instance cut_write_handle_from_reader_at `{CutReader Rd Rd'} handle offset stable :
  Cut (S := World N * Rd) (S' := World N' * Rd') (TokioV3.Client.write_handle_from_reader_at handle offset stable)
    (Client.write_handle_from_reader_at handle offset stable).
Proof. unfold TokioV3.Client.write_handle_from_reader_at, Client.write_handle_from_reader_at. apply _. Qed.
#[export] Instance cut_write_handle_from_reader `{CutReader Rd Rd'} handle stable :
  Cut (S := World N * Rd) (S' := World N' * Rd') (TokioV3.Client.write_handle_from_reader handle stable)
    (Client.write_handle_from_reader handle stable).
Proof. unfold TokioV3.Client.write_handle_from_reader, Client.write_handle_from_reader. apply _. Qed.
#[export] Instance cut_write_from_reader_with_stability `{CutReader Rd Rd'} path stable :
  Cut (S := World N * Rd) (S' := World N' * Rd') (TokioV3.Client.write_from_reader_with_stability path stable)
    (Client.write_from_reader_with_stability path stable).
Proof. unfold TokioV3.Client.write_from_reader_with_stability, Client.write_from_reader_with_stability. apply _. Qed.
#[export] Instance cut_write_from_reader `{CutReader Rd Rd'} path :
  Cut (S := World N * Rd) (S' := World N' * Rd') (TokioV3.Client.write_from_reader path) (Client.write_from_reader path).
Proof. unfold TokioV3.Client.write_from_reader, Client.write_from_reader. apply _. Qed.
#[export] Instance cut_append_from_reader_with_stability `{CutReader Rd Rd'} path stable :
  Cut (S := World N * Rd) (S' := World N' * Rd') (TokioV3.Client.append_from_reader_with_stability path stable)
    (Client.append_from_reader_with_stability path stable).
Proof. unfold TokioV3.Client.append_from_reader_with_stability, Client.append_from_reader_with_stability. apply _. Qed.
#[export] Instance cut_append_from_reader `{CutReader Rd Rd'} path :
  Cut (S := World N * Rd) (S' := World N' * Rd') (TokioV3.Client.append_from_reader path) (Client.append_from_reader path).
Proof. unfold TokioV3.Client.append_from_reader, Client.append_from_reader. apply _. Qed.
#[export] Instance cut_remove path : cut (TokioV3.Client.remove path) (Client.remove path).
Proof. unfold TokioV3.Client.remove, Client.remove. apply _. Qed.
#[export] Instance cut_rmdir path : cut (TokioV3.Client.rmdir path) (Client.rmdir path).
Proof. unfold TokioV3.Client.rmdir, Client.rmdir. apply _. Qed.
#[export] Instance cut_if_exists (m : M (World N) Error unit) (b : M (World N') Error unit) :
  Cut m b → cut (TokioV3.Client.if_exists m) (Client.if_exists b).
Proof. unfold TokioV3.Client.if_exists, Client.if_exists. apply _. Qed.
#[export] Instance cut_remove_if_exists path : cut (TokioV3.Client.remove_if_exists path) (Client.remove_if_exists path).
Proof. unfold TokioV3.Client.remove_if_exists, Client.remove_if_exists. apply _. Qed.
#[export] Instance cut_rmdir_if_exists path : cut (TokioV3.Client.rmdir_if_exists path) (Client.rmdir_if_exists path).
Proof. unfold TokioV3.Client.rmdir_if_exists, Client.rmdir_if_exists. apply _. Qed.
#[export] Instance cut_rename from to : cut (TokioV3.Client.rename from to) (Client.rename from to).
Proof. unfold TokioV3.Client.rename, Client.rename. apply _. Qed.
#[export] Instance cut_hard_link existing link :
  cut (TokioV3.Client.hard_link existing link) (Client.hard_link existing link).
Proof. unfold TokioV3.Client.hard_link, Client.hard_link. apply _. Qed.
#[export] Instance cut_run_created {S S' A} `{!Erasure S S', !History S' H}
    (m : M (S * bool) Error A) (b : M (S' * bool) Error A) :
  Cut m b → Cut (Client.run_created m) (Client.run_created b).
Proof.
  apply (cut_with (R := bool) (R' := bool) false m b
    (λ created o, match o with Ok a => Ok (inl a, created) | Err e => Ok (inr e, created) | Fault f => Fault f end)).
  - intros s. unfold Client.run_created, carry, bool_carried, id. by destruct (m (s, false)) as [[s' created] [a|e|f]].
  - intros s. unfold Client.run_created, carry, bool_carried, id. by destruct (b (s, false)) as [[s' created] [a|e|f]].
  - intros r [a|e|f]; split; congruence.
Qed.
#[export] Instance cut_create_guarded_handle path mode :
  Cut (S := World N * bool) (S' := World N' * bool) (TokioV3.Client.create_guarded_handle path mode) (Client.create_guarded_handle path mode).
Proof.
  unfold TokioV3.Client.create_guarded_handle, Client.create_guarded_handle. apply cut_bind; [apply _|intros [parent name]]. apply cut_bind; [apply _|intros result].
  apply cut_bind; [by apply cut_modify|apply _].
Qed.
#[export] Instance cut_finish_with_temp_cleanup {A} (result : A + Error) created temp context :
  cut (TokioV3.Client.finish_with_temp_cleanup result created temp context) (Client.finish_with_temp_cleanup result created temp context).
Proof. unfold TokioV3.Client.finish_with_temp_cleanup, Client.finish_with_temp_cleanup. apply _. Qed.
Ltac eta_cut := match goal with |- Cut ?m (λ w, ?b w) => change (Cut m b) | _ => idtac end.

(** The closure of the blocking client and the nested matches of the
    asynchronous one. *)
Lemma write_atomic_nested path data mode stable (w : World N') :
  Client.write_atomic_with_mode_and_stability path data mode stable w =
  (temp ← Client.self_env (temporary_sibling_path path);
   '(handle, created) ← Client.run_created (Client.create_guarded_handle temp mode);
   result ←
     match handle with
     | inl handle =>
         written ← attempt (Client.write_handle_all handle 0 data stable);
         match written with
         | inl _ => attempt (Client.rename temp path)
         | inr err => mret (inr err)
         end
     | inr err => mret (inr err)
     end;
   Client.finish_with_temp_cleanup result created temp "cleanup REMOVE after failed atomic write") w.
Proof.
  unfold Client.write_atomic_with_mode_and_stability. unfold mbind at 1 5, M_bind at 1 5.
  destruct (Client.self_env _ w) as [w1 [temp|e|f]]; [|done..].
  unfold Client.run_created, attempt, Client.untouched, zoom, mbind, M_bind, mret, M_ret. cbn [fst snd].
  destruct (Client.create_guarded_handle temp mode (w1, false)) as [[w2 created] [handle|e|f]]; [|done..].
  cbn [fst snd]. destruct (Client.write_handle_all handle 0 data stable w2) as [w3 [[]|e|f]]; [|done..].
  cbn [fst snd]. by destruct (Client.rename temp path w3) as [w4 [[]|e|f]].
Qed.

#[export] Instance cut_write_atomic_with_mode_and_stability path data mode stable :
  cut (TokioV3.Client.write_atomic_with_mode_and_stability path data mode stable)
    (Client.write_atomic_with_mode_and_stability path data mode stable).
Proof.
  refine (cut_ext _ _ _ (λ w, eq_sym (write_atomic_nested path data mode stable w)) _); eta_cut.
  unfold TokioV3.Client.write_atomic_with_mode_and_stability. apply _.
Qed.
#[export] Instance cut_write_atomic path data : cut (TokioV3.Client.write_atomic path data) (Client.write_atomic path data).
Proof. unfold TokioV3.Client.write_atomic, Client.write_atomic. apply _. Qed.
#[export] Instance cut_write_atomic_with_mode path data mode :
  cut (TokioV3.Client.write_atomic_with_mode path data mode) (Client.write_atomic_with_mode path data mode).
Proof. unfold TokioV3.Client.write_atomic_with_mode, Client.write_atomic_with_mode. apply _. Qed.
#[export] Instance cut_write_atomic_with_stability path data stable :
  cut (TokioV3.Client.write_atomic_with_stability path data stable) (Client.write_atomic_with_stability path data stable).
Proof. unfold TokioV3.Client.write_atomic_with_stability, Client.write_atomic_with_stability. apply _. Qed.
#[export] Instance cut_beside `{!Carried Rd Rd'} {A} (m : M (World N * bool) Error A)
    (b : M (World N' * bool) Error A) :
  Cut m b → Cut (Client.beside (Rd := Rd) m) (Client.beside (Rd := Rd') b).
Proof.
  intros [Hg Hr]. split.
  - intros [[t r] c]. specialize (Hg (t, c)). unfold Client.beside. destruct (b (t, c)) as [[t' c'] o]. exact Hg.
  - intros [[s r] c]. specialize (Hr (s, c)). unfold dropped_within, Client.beside in *.
    set (es := erase s : World N'). change (erase (s, r, c)) with (es, carry r : Rd', c). change (erase (s, c)) with (es, c) in Hr.
    cbv beta iota. destruct (m (s, c)) as [[s' c'] [a|e|[]]]; [by rewrite Hr..|].
    destruct (b (es, c)) as [[t' c''] o]. exact Hr.
Qed.
Lemma write_atomic_from_reader_nested {Rd} `{!Reader Rd} path mode stable (s : World N' * Rd) :
  Client.write_atomic_from_reader_with_mode_and_stability path mode stable s =
  (temp ← Client.on_self (Client.self_env (temporary_sibling_path path));
   '(handle, created) ← Client.on_self (Client.run_created (Client.create_guarded_handle temp mode));
   result ←
     match handle with
     | inl handle =>
         written ← attempt (Client.write_handle_from_reader handle stable);
         match written with
         | inl written =>
             renamed ← attempt (Client.on_self (Client.rename temp path));
             match renamed with
             | inl _ => mret (inl written)
             | inr err => mret (inr err)
             end
         | inr err => mret (inr err)
         end
     | inr err => mret (inr err)
     end;
   Client.on_self (Client.finish_with_temp_cleanup result created temp
     "cleanup REMOVE after failed atomic reader write")) s.
Proof.
  unfold Client.write_atomic_from_reader_with_mode_and_stability. unfold mbind at 1 6, M_bind at 1 6.
  destruct (Client.on_self _ s) as [[w1 rd1] [temp|e|f]]; [|done..].
  unfold Client.run_created, Client.beside, attempt, Client.untouched, Client.on_self, zoom, mbind, M_bind, mret, M_ret. cbn [fst snd].
  destruct (Client.create_guarded_handle temp mode (w1, false)) as [[w2 created] [handle|e|f]]; [|done..].
  cbn [fst snd]. destruct (Client.write_handle_from_reader handle stable (w2, rd1)) as [[w3 rd3] [n|e|f]]; [|done..].
  cbn [fst snd]. by destruct (Client.rename temp path w3) as [w4 [[]|e|f]].
Qed.

#[export] Instance cut_write_atomic_from_reader_with_mode_and_stability `{CutReader Rd Rd'} path mode stable :
  Cut (S := World N * Rd) (S' := World N' * Rd') (TokioV3.Client.write_atomic_from_reader_with_mode_and_stability path mode stable)
    (Client.write_atomic_from_reader_with_mode_and_stability path mode stable).
Proof.
  refine (cut_ext _ _ _ (λ w, eq_sym (write_atomic_from_reader_nested path mode stable w)) _); eta_cut.
  unfold TokioV3.Client.write_atomic_from_reader_with_mode_and_stability. apply _.
Qed.
#[export] Instance cut_write_atomic_from_reader `{CutReader Rd Rd'} path :
  Cut (S := World N * Rd) (S' := World N' * Rd') (TokioV3.Client.write_atomic_from_reader path)
    (Client.write_atomic_from_reader path).
Proof. unfold TokioV3.Client.write_atomic_from_reader, Client.write_atomic_from_reader. apply _. Qed.
#[export] Instance cut_write_atomic_from_reader_with_mode `{CutReader Rd Rd'} path mode :
  Cut (S := World N * Rd) (S' := World N' * Rd') (TokioV3.Client.write_atomic_from_reader_with_mode path mode)
    (Client.write_atomic_from_reader_with_mode path mode).
Proof. unfold TokioV3.Client.write_atomic_from_reader_with_mode, Client.write_atomic_from_reader_with_mode. apply _. Qed.
#[export] Instance cut_write_atomic_from_reader_with_stability `{CutReader Rd Rd'} path stable :
  Cut (S := World N * Rd) (S' := World N' * Rd') (TokioV3.Client.write_atomic_from_reader_with_stability path stable)
    (Client.write_atomic_from_reader_with_stability path stable).
Proof. unfold TokioV3.Client.write_atomic_from_reader_with_stability, Client.write_atomic_from_reader_with_stability. apply _. Qed.
#[export] Instance cut_copy_handles_step source dest stable offset :
  cut (TokioV3.Client.copy_handles_step source dest stable offset) (Client.copy_handles_step source dest stable offset).
Proof. unfold TokioV3.Client.copy_handles_step, Client.copy_handles_step, TokioV3.Client.read_no_data, Client.read_no_data, TokioV3.Client.read_too_long, Client.read_too_long. apply _. Qed.
#[export] Instance cut_copy_handles source dest stable :
  cut (TokioV3.Client.copy_handles source dest stable) (Client.copy_handles source dest stable).
Proof. unfold TokioV3.Client.copy_handles, Client.copy_handles. apply _. Qed.
#[export] Instance cut_ensure_distinct_paths from to :
  cut (TokioV3.Client.ensure_distinct_paths from to) (Client.ensure_distinct_paths from to).
Proof. unfold TokioV3.Client.ensure_distinct_paths, Client.ensure_distinct_paths. apply _. Qed.
#[export] Instance cut_copy_with_stability from to stable :
  cut (TokioV3.Client.copy_with_stability from to stable) (Client.copy_with_stability from to stable).
Proof. unfold TokioV3.Client.copy_with_stability, Client.copy_with_stability. apply _. Qed.
#[export] Instance cut_copy from to : cut (TokioV3.Client.copy from to) (Client.copy from to).
Proof. unfold TokioV3.Client.copy, Client.copy. apply _. Qed.
Lemma copy_atomic_nested from to stable (w : World N') :
  Client.copy_atomic_with_stability from to stable w =
  (Client.ensure_distinct_paths from to ;;
   source ← Client.resolve from;
   source_attr ← Client.self_nfs (nfs_getattr source);
   temp ← Client.self_env (temporary_sibling_path to);
   '(target, created) ← Client.run_created
     (Client.create_guarded_handle temp (Z.land (FileAttr.mode source_attr) mode_bits));
   result ←
     match target with
     | inl target =>
         copied ← attempt (Client.copy_handles source target stable);
         match copied with
         | inl copied =>
             renamed ← attempt (Client.rename temp to);
             match renamed with
             | inl _ => mret (inl copied)
             | inr err => mret (inr err)
             end
         | inr err => mret (inr err)
         end
     | inr err => mret (inr err)
     end;
   Client.finish_with_temp_cleanup result created temp "cleanup REMOVE after failed atomic copy") w.
Proof.
  unfold Client.copy_atomic_with_stability, Client.run_created, attempt, Client.untouched, zoom, mbind, M_bind, mret, M_ret.
  destruct (Client.ensure_distinct_paths from to w) as [w1 [[]|e|f]]; [|done..].
  destruct (Client.resolve from w1) as [w2 [source|e|f]]; [|done..].
  destruct (Client.self_nfs _ w2) as [w3 [attr|e|f]]; [|done..].
  destruct (Client.self_env _ w3) as [w4 [temp|e|f]]; [|done..]. cbn [fst snd].
  destruct (Client.create_guarded_handle temp _ (w4, false)) as [[w5 created] [target|e|f]]; [|done..].
  cbn [fst snd]. destruct (Client.copy_handles source target stable w5) as [w6 [n|e|f]]; [|done..].
  cbn [fst snd]. by destruct (Client.rename temp to w6) as [w7 [[]|e|f]].
Qed.

#[export] Instance cut_copy_atomic_with_stability from to stable :
  cut (TokioV3.Client.copy_atomic_with_stability from to stable) (Client.copy_atomic_with_stability from to stable).
Proof.
  refine (cut_ext _ _ _ (λ w, eq_sym (copy_atomic_nested from to stable w)) _); eta_cut.
  unfold TokioV3.Client.copy_atomic_with_stability. apply _.
Qed.
#[export] Instance cut_copy_atomic from to : cut (TokioV3.Client.copy_atomic from to) (Client.copy_atomic from to).
Proof. unfold TokioV3.Client.copy_atomic, Client.copy_atomic. apply _. Qed.
#[export] Instance cut_create_handle_new path mode :
  cut (TokioV3.Client.create_handle_new path mode) (Client.create_handle_new path mode).
Proof.
  apply (cut_with (R := bool) (R' := bool) false (TokioV3.Client.create_guarded_handle path mode) (Client.create_guarded_handle path mode) (λ _ o, o));
    [done|done|done|apply _].
Qed.
#[export] Instance cut_create_new path mode : cut (TokioV3.Client.create_new path mode) (Client.create_new path mode).
Proof. unfold TokioV3.Client.create_new, Client.create_new. apply _. Qed.
#[export] Instance cut_create path mode : cut (TokioV3.Client.create path mode) (Client.create path mode).
Proof. unfold TokioV3.Client.create, Client.create. apply _. Qed.
#[export] Instance cut_create_unchecked path mode :
  cut (TokioV3.Client.create_unchecked path mode) (Client.create_unchecked path mode).
Proof. unfold TokioV3.Client.create_unchecked, Client.create_unchecked. apply _. Qed.
#[export] Instance cut_mkdir path mode : cut (TokioV3.Client.mkdir path mode) (Client.mkdir path mode).
Proof. unfold TokioV3.Client.mkdir, Client.mkdir. apply _. Qed.
#[export] Instance cut_create_dir_component mode current_path current component :
  cut (TokioV3.Client.create_dir_component mode current_path current component)
    (Client.create_dir_component mode current_path current component).
Proof. unfold TokioV3.Client.create_dir_component, Client.create_dir_component. apply _. Qed.
#[export] Instance cut_create_dirs mode current_path current components :
  cut (TokioV3.Client.create_dirs mode current_path current components) (Client.create_dirs mode current_path current components).
Proof. revert current_path current. induction components; intros; cbn [TokioV3.Client.create_dirs Client.create_dirs]; apply _. Qed.
#[export] Instance cut_create_dir_all path mode :
  cut (TokioV3.Client.create_dir_all path mode) (Client.create_dir_all path mode).
Proof. unfold TokioV3.Client.create_dir_all, Client.create_dir_all. apply _. Qed.
#[export] Instance cut_symlink path link_target :
  cut (TokioV3.Client.symlink path link_target) (Client.symlink path link_target).
Proof. unfold TokioV3.Client.symlink, Client.symlink. apply _. Qed.
#[export] Instance cut_mknod path what : cut (TokioV3.Client.mknod path what) (Client.mknod path what).
Proof. unfold TokioV3.Client.mknod, Client.mknod. apply _. Qed.
#[export] Instance cut_create_fifo path mode : cut (TokioV3.Client.create_fifo path mode) (Client.create_fifo path mode).
Proof. unfold TokioV3.Client.create_fifo, Client.create_fifo. apply _. Qed.
#[export] Instance cut_create_socket path mode :
  cut (TokioV3.Client.create_socket path mode) (Client.create_socket path mode).
Proof. unfold TokioV3.Client.create_socket, Client.create_socket. apply _. Qed.
#[export] Instance cut_create_block_device path major minor mode :
  cut (TokioV3.Client.create_block_device path major minor mode) (Client.create_block_device path major minor mode).
Proof. unfold TokioV3.Client.create_block_device, Client.create_block_device. apply _. Qed.
#[export] Instance cut_create_character_device path major minor mode :
  cut (TokioV3.Client.create_character_device path major minor mode) (Client.create_character_device path major minor mode).
Proof. unfold TokioV3.Client.create_character_device, Client.create_character_device. apply _. Qed.
#[export] Instance cut_read_dir_batch dir cookie cookieverf :
  cut (TokioV3.Client.read_dir_batch dir cookie cookieverf) (Client.read_dir_batch dir cookie cookieverf).
Proof. unfold TokioV3.Client.read_dir_batch, Client.read_dir_batch. apply _. Qed.
#[export] Instance cut_read_dir_step dir max_entries l :
  cut (TokioV3.Client.read_dir_step dir max_entries l) (Client.read_dir_step dir max_entries l).
Proof. unfold TokioV3.Client.read_dir_step, Client.read_dir_step. apply _. Qed.
#[export] Instance cut_read_dir_with_limit path max_entries :
  cut (TokioV3.Client.read_dir_with_limit path max_entries) (Client.read_dir_with_limit path max_entries).
Proof. unfold TokioV3.Client.read_dir_with_limit, Client.read_dir_with_limit. apply _. Qed.
#[export] Instance cut_read_dir path : cut (TokioV3.Client.read_dir path) (Client.read_dir path).
Proof. unfold TokioV3.Client.read_dir, Client.read_dir. apply _. Qed.
#[export] Instance cut_read_dir_limited path max_entries :
  cut (TokioV3.Client.read_dir_limited path max_entries) (Client.read_dir_limited path max_entries).
Proof. unfold TokioV3.Client.read_dir_limited, Client.read_dir_limited. apply _. Qed.
#[export] Instance cut_read_dir_page_limited path cursor max_entries :
  cut (TokioV3.Client.read_dir_page_limited path cursor max_entries) (Client.read_dir_page_limited path cursor max_entries).
Proof. unfold TokioV3.Client.read_dir_page_limited, Client.read_dir_page_limited. apply _. Qed.
#[export] Instance cut_read_dir_page path cursor :
  cut (TokioV3.Client.read_dir_page path cursor) (Client.read_dir_page path cursor).
Proof. unfold TokioV3.Client.read_dir_page, Client.read_dir_page. apply _. Qed.
#[export] Instance cut_remove_all_step stack : cut (TokioV3.Client.remove_all_step stack) (Client.remove_all_step stack).
Proof. unfold TokioV3.Client.remove_all_step, Client.remove_all_step, TokioV3.Client.push_children, Client.push_children. apply _. Qed.
#[export] Instance cut_remove_all fuel path : cut (TokioV3.Client.remove_all fuel path) (Client.remove_all fuel path).
Proof. unfold TokioV3.Client.remove_all, Client.remove_all. apply _. Qed.
#[export] Instance cut_remove_all_if_exists fuel path :
  cut (TokioV3.Client.remove_all_if_exists fuel path) (Client.remove_all_if_exists fuel path).
Proof. unfold TokioV3.Client.remove_all_if_exists, Client.remove_all_if_exists. apply _. Qed.

End paths.
