(* ===== verification/TokioV3Cancel.v ===== *)
(** * Atomic writes of a future that is dropped

    [Cancel] drops the future at any request of any implementation of [Nfs3].
    Over a server that records its requests ([V3Atomic.Traced]), an atomic write
    of the asynchronous client, wherever it is dropped, has asked for the
    beginning of what a whole atomic write asks for (src/src/v3/tokio.rs). *)

From Stdlib Require Import Strings.String Strings.Byte.
From stdpp Require Import list.
From S2P Require Import Prelude Text Xdr Status Errors Rpc V3Proto V3Calls V3Client V3ClientSpec V3Blocking V3BlockingSpec.
From S2P Require Import V3Atomic Cut TokioV3 TokioV3Spec.
Import StableHow (StableHow).

#[local] Open Scope Z_scope.

(** ** Cancelled at a request *)

(** A client whose future is dropped after [cn_left] more requests: before the
    next one is sent, or ([cn_late]) once the server has carried it out. *)
Record Cancel (N : Type) := mkCancel { cn_inner : N; cn_left : nat; cn_late : bool }.
Arguments mkCancel {N}.
Arguments cn_inner {N}.
Arguments cn_left {N}.
Arguments cn_late {N}.

#[export] Instance cancel_erasure {N} : Erasure (Cancel N) N := cn_inner.

Section cancel.
Context {N : Type} `{!Nfs3 N}.

Definition cancellable {A} (m : M N Error A) : M (Cancel N) Error A := λ c,
  match cn_left c with
  | O => if cn_late c then (mkCancel (m (cn_inner c)).1 O true, Fault Dropped) else (c, Fault Dropped)
  | S k => let '(n, o) := m (cn_inner c) in (mkCancel n k (cn_late c), o)
  end.

#[export] Instance Cancel_nfs3 : Nfs3 (Cancel N) := {
  nfs_inv c := nfs_inv (cn_inner c);
  nfs_getattr fh := cancellable (nfs_getattr fh);
  nfs_setattr fh attr := cancellable (nfs_setattr fh attr);
  nfs_lookup dir name := cancellable (nfs_lookup dir name);
  nfs_access fh a := cancellable (nfs_access fh a);
  nfs_readlink fh := cancellable (nfs_readlink fh);
  nfs_read fh offset count := cancellable (nfs_read fh offset count);
  nfs_write fh offset stable data := cancellable (nfs_write fh offset stable data);
  nfs_create dir name how := cancellable (nfs_create dir name how);
  nfs_mkdir dir name attr := cancellable (nfs_mkdir dir name attr);
  nfs_symlink dir name target attr := cancellable (nfs_symlink dir name target attr);
  nfs_mknod dir name what := cancellable (nfs_mknod dir name what);
  nfs_remove dir name := cancellable (nfs_remove dir name);
  nfs_rmdir dir name := cancellable (nfs_rmdir dir name);
  nfs_rename d1 n1 d2 n2 := cancellable (nfs_rename d1 n1 d2 n2);
  nfs_link file dir name := cancellable (nfs_link file dir name);
  nfs_readdir dir cookie verf count := cancellable (nfs_readdir dir cookie verf count);
  nfs_readdirplus dir cookie verf dircount maxcount := cancellable (nfs_readdirplus dir cookie verf dircount maxcount);
  nfs_fsstat fh := cancellable (nfs_fsstat fh);
  nfs_fsinfo fh := cancellable (nfs_fsinfo fh);
  nfs_pathconf fh := cancellable (nfs_pathconf fh);
  nfs_commit fh offset count := cancellable (nfs_commit fh offset count);
}.

Lemma cut_cancellable {H A} `{!History N H} (m : M N Error A) :
  (∀ t, hist t `prefix_of` hist (m t).1) → Cut (cancellable m) m.
Proof.
  intros Hm. split; [done|]. intros [n k late]. specialize (Hm n). unfold cancellable, dropped_within, erase, cancel_erasure.
  cbn [cn_left cn_late cn_inner]. destruct k as [|k]; [by destruct late|]. by destruct (m n) as [n' [a|e|[]]].
Qed.

End cancel.

(** Over a server whose requests are recorded, the record is the progress. *)
#[export] Instance traced_history {N} : History (Traced N) event := tr_log.

Lemma traced_grows {N A} ev (m : M N Error A) t : hist t `prefix_of` hist (traced ev m t).1.
Proof.
  unfold traced, hist, traced_history. destruct (m (tr_inner t)) as [n [a|e|f]]; simpl; [by apply prefix_app_r..|done].
Qed.

#[export] Instance Cancel_cut {N} `{!Nfs3 N} : Nfs3Cut (Cancel (Traced N)) (Traced N) event.
Proof. split; intros; apply cut_cancellable; intros t; apply traced_grows. Qed.

(** ** Atomic writes *)

Section atomic.
Context {N : Type} `{!Nfs3 N, !Nfs3Laws N}.
#[local] Abbreviation AWorld := (World (Cancel (Traced N))).
#[local] Abbreviation BWorld := (World (Traced N)).

Definition asked (w w' : AWorld) (ev : list event) : Prop :=
  tr_log (cn_inner (nfs (client w'))) = tr_log (cn_inner (nfs (client w))) ++ ev.

(** [ev] is the beginning of the requests of an atomic write of [data] over
    [parent ++ [name]] in the export whose root is [rt]. *)
Definition begun (rt : FileHandle.FileHandle) (parent : list str) (tn name : str) (data : list byte)
    (ev : list event) : Prop :=
  ∃ rest, not_created rt parent tn (ev ++ rest)
    ∨ ∃ renamed removed, atomic_requests rt parent tn name data renamed removed (ev ++ rest).

Lemma upto_write_atomic path parent name data mode stable (w : AWorld)
    (tn := temp_name (env w)) (rt := root (client w)) :
  world_ok (erase w : BWorld) → env_ok (env w) → normalize_path path = Ok (parent ++ [name]) → zlen data ≤ isize_max →
  upto (TokioV3.Client.write_atomic_with_mode_and_stability path data mode stable) w
    (λ _ w', ∃ ev, asked w w' ev ∧ atomic_requests rt parent tn name data (Some true) None ev)
    (λ e w', ∃ ev, asked w w' ev ∧
       (not_created rt parent tn ev
        ∨ ∃ renamed removed, renamed ≠ Some true ∧ atomic_requests rt parent tn name data renamed removed ev
            ∧ (removed = Some true ∨ ∃ ctx e1 e2, e = Cleanup ctx e1 e2)))
    (λ w', ∃ ev, asked w w' ev ∧ begun rt parent tn name data ev).
Proof.
  intros Hw He Hn Hd. pose proof (post_write_atomic path parent name data mode stable (erase w : BWorld) Hw He Hn Hd) as Hp.
  eapply upto_mono; [apply (cut_upto _ _ w _ _ (cut_write_atomic_with_mode_and_stability path data mode stable) Hp)|cbv beta..].
  - intros _ w' (ev & [_ Hl] & Hr). by exists ev.
  - intros e w' (ev & [_ Hl] & Hr). by exists ev.
  - intros w' [[ev Hev] [rest Hrest]]. exists ev. split; [done|]. exists rest. unfold post in Hp. revert Hp Hrest.
    destruct (Client.write_atomic_with_mode_and_stability _ _ _ _ (erase w)) as [w2 [a|e|f]]; [intros Hp Hrest..|done];
      destruct Hp as (ev2 & [_ Hl] & Hr); assert (ev2 = ev ++ rest) as ->
        by (eapply app_inv_head; etrans; [symmetry; exact Hl|]; etrans; [exact Hrest|]; by rewrite Hev, <- app_assoc).
    + right. by exists (Some true), None.
    + destruct Hr as [?|(renamed & removed & _ & ? & _)]; [by left|right]. by exists renamed, removed.
Qed.

End atomic.
