(* ===== verification/Tame.v ===== *)
(** * Methods that end, keep an invariant and move along a relation

    [tames I T m Q]: started where [I] holds, [m] does not fault, leaves a
    state where [I] holds again and that [T] relates to the old one (errors
    included), and returns a value in [Q].  [Tame I T m] is the case without a
    condition on the value; its instances follow the structure of the code.
    [NoFault m] says that [m] never faults, in any state. *)

From S2P Require Import Prelude Xdr Errors Rpc.

#[local] Open Scope Z_scope.

(** ** Never faulting *)

Class NoFault {S E A} (m : M S E A) := no_fault : ∀ s, fault_free (m s).2.

#[export] Instance no_fault_ret {S E A} (a : A) : NoFault (S := S) (E := E) (mret a).
Proof. by intros s. Qed.
#[export] Instance no_fault_throw {S E A} (e : E) : NoFault (S := S) (A := A) (throw e).
Proof. by intros s. Qed.
#[export] Instance no_fault_bind {S E A B} (m : M S E A) (k : A → M S E B) :
  NoFault m → (∀ a, NoFault (k a)) → NoFault (m ≫= k).
Proof.
  intros Hm Hk s. specialize (Hm s). unfold mbind, M_bind.
  destruct (m s) as [s' [a|e|f]]; [apply Hk|done|by destruct (Hm f)].
Qed.
#[export] Instance no_fault_if {S E A} (b : bool) (m1 m2 : M S E A) :
  NoFault m1 → NoFault m2 → NoFault (if b then m1 else m2).
Proof. by destruct b. Qed.
#[export] Instance no_fault_map_err {S E F A} (g : E → F) (m : M S E A) : NoFault m → NoFault (map_err g m).
Proof. intros Hm s. specialize (Hm s). unfold map_err.
  destruct (m s) as [s' [a|e|f]]; [done|done|by destruct (Hm f)].
Qed.
#[export] Instance no_fault_xdr {S A} (m : M S XdrError A) : NoFault m → NoFault (xdr m).
Proof. apply _. Qed.

Lemma fault_free_bind {E A B} (o : outcome E A) (k : A → outcome E B) :
  fault_free o → (∀ a, o = Ok a → fault_free (k a)) → fault_free (o ≫= k).
Proof. intros Ho Hk. destruct o as [a|e|f]; [by apply Hk|done|by destruct (Ho f)]. Qed.

(** ** Values

    Every value [m] returns is in [Q]. *)
Definition delivers {S E A} (m : M S E A) (Q : A → Prop) : Prop :=
  ∀ s, match m s with (_, Ok a) => Q a | _ => True end.

Lemma delivers_any {S E A} (m : M S E A) : delivers m (λ _, True).
Proof. intros s. by destruct (m s) as [s' []]. Qed.
Lemma delivers_ret {S E A} (a : A) (Q : A → Prop) : Q a → delivers (S := S) (E := E) (mret a) Q.
Proof. by intros H s. Qed.
Lemma delivers_bind {S E A B} (m : M S E A) (k : A → M S E B) Q R :
  delivers m Q → (∀ a, Q a → delivers (k a) R) → delivers (m ≫= k) R.
Proof.
  intros Hm Hk s. specialize (Hm s). unfold mbind, M_bind. destruct (m s) as [s' [a|e|f]]; [by apply Hk|done..].
Qed.
Lemma delivers_then {S E A B} (m : M S E A) (k : A → M S E B) R :
  (∀ a, delivers (k a) R) → delivers (m ≫= k) R.
Proof. intros Hk. eapply delivers_bind; [apply delivers_any|]. intros a _. apply Hk. Qed.

(** ** Tame methods *)

Section tame.
Context {S : Type} (I : S → Prop) (T : S → S → Prop) `{!PreOrder T}.

Definition tames {E A} (m : M S E A) (Q : A → Prop) : Prop :=
  ∀ s, I s → post m s (λ a s', Q a ∧ I s' ∧ T s s') (λ _ s', I s' ∧ T s s').

Class Tame {E A} (m : M S E A) := tame : tames m (λ _, True).

Lemma tames_mono {E A} (m : M S E A) (Q R : A → Prop) : tames m Q → (∀ a, Q a → R a) → tames m R.
Proof. intros Hm HQ s Hs. eapply post_mono; [by apply Hm|naive_solver|done]. Qed.

Lemma tames_ret {E A} (a : A) (Q : A → Prop) : Q a → tames (E := E) (mret a) Q.
Proof. intros HQ s Hs. by split_and!. Qed.

Lemma tames_throw {E A} (e : E) (Q : A → Prop) : tames (throw e) Q.
Proof. intros s Hs. by split. Qed.

Lemma tames_bind {E A B} (m : M S E A) (k : A → M S E B) Q R :
  tames m Q → (∀ a, Q a → tames (k a) R) → tames (m ≫= k) R.
Proof.
  intros Hm Hk s Hs. apply post_bind. eapply post_mono; [by apply Hm| |done].
  intros a s1 (HQ & H1 & T1). eapply post_mono; [by apply Hk| |]; simpl.
  - intros b s2 (? & ? & ?). split_and!; [done..|by etrans].
  - intros e s2 (? & ?). split; [done|by etrans].
Qed.

Lemma tames_lift {E A} (o : outcome E A) (Q : A → Prop) :
  fault_free o → (∀ a, o = Ok a → Q a) → tames (lift o) Q.
Proof.
  intros Ho HQ s Hs. unfold post, lift. destruct o as [a|e|f]; [|done|by destruct (Ho f)].
  split_and!; [by apply HQ|done|done].
Qed.

Lemma tames_gets {E A} (g : S → A) (Q : A → Prop) : (∀ s, I s → Q (g s)) → tames (E := E) (gets g) Q.
Proof. intros HQ s Hs. split_and!; [by apply HQ|done|done]. Qed.

Lemma tames_attempt {E F A} (m : M S E A) (Q : A → Prop) :
  tames m Q → tames (E := F) (attempt m) (λ r, match r with inl a => Q a | inr _ => True end).
Proof.
  intros Hm s Hs. specialize (Hm s Hs). unfold post, attempt in *.
  destruct (m s) as [s' [a|e|f]]; naive_solver.
Qed.

(** A loop whose variables satisfy [P] and whose measure decreases. *)
Lemma tames_loop {E L A} (P : L → Prop) (μ : L → Z) (body : L → M S E (L + A)) Q fuel l :
  (∀ l, P l → 0 ≤ μ l) →
  (∀ l, P l → tames (body l) (λ r, match r with inl l' => P l' ∧ μ l' < μ l | inr a => Q a end)) →
  P l → μ l < Zpos fuel → tames (loop fuel body l) Q.
Proof.
  intros Hμ Hbody Hl Hf s0 Hs0.
  apply (post_loop (λ l s, P l ∧ I s ∧ T s0 s) (λ l _, μ l)); [naive_solver| |done|done].
  intros l1 s1 (Hp & HI & HT). eapply post_mono; [by apply Hbody| |]; simpl.
  - intros [l2|a] s2 (HQ & HI2 & HT2).
    + destruct HQ. split_and!; [done..|by etrans|done].
    + split_and!; [done..|by etrans].
  - intros e s2 [??]. split; [done|by etrans].
Qed.

#[export] Instance tame_ret {E A} (a : A) : Tame (E := E) (mret a).
Proof. by apply tames_ret. Qed.
#[export] Instance tame_throw {E A} (e : E) : Tame (A := A) (throw e).
Proof. apply tames_throw. Qed.
#[export] Instance tame_bind {E A B} (m : M S E A) (k : A → M S E B) :
  Tame m → (∀ a, Tame (k a)) → Tame (m ≫= k).
Proof. intros Hm Hk. eapply tames_bind; [exact Hm|]. intros a _. apply Hk. Qed.
#[export] Instance tame_gets {E A} (g : S → A) : Tame (E := E) (gets g).
Proof. by apply tames_gets. Qed.
#[export] Instance tame_attempt {E F A} (m : M S E A) : Tame m → Tame (E := F) (attempt m).
Proof. intros Hm. eapply tames_mono; [by apply tames_attempt|done]. Qed.
Lemma tame_lift {E A} (o : outcome E A) : fault_free o → Tame (lift o).
Proof. intros Ho. by apply tames_lift. Qed.

(** Use the value condition of the first part in the rest. *)
Lemma tame_bind_val {E A B} (m : M S E A) (k : A → M S E B) Q :
  tames m Q → (∀ a, Q a → Tame (k a)) → Tame (m ≫= k).
Proof. intros Hm Hk. eapply tames_bind; [exact Hm|]. intros a Ha. by apply Hk. Qed.

(** The value of the first part does not matter. *)
Lemma tames_then {E A B} (m : M S E A) (k : A → M S E B) R :
  Tame m → (∀ a, tames (k a) R) → tames (m ≫= k) R.
Proof. intros Hm Hk. eapply tames_bind; [exact Hm|]. intros a _. apply Hk. Qed.

(** A condition that the relation keeps can be added to the invariant. *)
Lemma tames_keep {E A} (J : S → Prop) (m : M S E A) Q :
  (∀ s s', J s → T s s' → J s') → tames m Q →
  ∀ s, I s ∧ J s → post m s (λ a s', Q a ∧ (I s' ∧ J s') ∧ T s s') (λ _ s', (I s' ∧ J s') ∧ T s s').
Proof. intros HJ Hm s [Hs Hj]. eapply post_mono; [by apply Hm| |]; simpl; naive_solver. Qed.

End tame.
#[global] Hint Mode Tame + + + + + ! : typeclass_instances.

(** Pure functions that never fault. *)
Create HintDb fault_free.
