(* ===== verification/V4Attr.v ===== *)
(** * NFSv4 handles, state ids and attributes (src/src/v4/proto.rs)

    File handles, state ids, attribute bitmaps and the attribute payloads
    ([Fattr]): building them from [SetAttrs], and parsing the values of a
    reply in bitmap order.  A type with its methods is a module of the type's
    name.  [from_known_attrs] is modelled with its debug assertion enabled, so
    that its absence of faults covers both build profiles. *)

From Stdlib Require Import Strings.String Strings.Byte.
From stdpp Require Import strings.
From S2P Require Import Prelude Text Xdr Status Errors Rpc.

#[local] Open Scope Z_scope.

Definition NFS4_PROGRAM : Z := 100003.
Definition NFS4_VERSION : Z := 4.
Definition NFS4_PORT : Z := 2049.
Definition NFS4_MINOR_VERSION_SESSION_MIN : Z := 1.
Definition NFS4_MINOR_VERSION_V42 : Z := 2.
Definition NFS4_MINOR_VERSION_LATEST : Z := 2.

Definition NFS4_FHSIZE : Z := 128.
Definition NFS4_VERIFIER_SIZE : Z := 8.
Definition NFS4_OPAQUE_LIMIT : Z := 1024.
Definition NFS4_SESSIONID_SIZE : Z := 16.
Definition NFS4_DEVICEID_SIZE : Z := 16.
Definition NFS4_MAX_OPS : Z := 128.
Definition NFS4_MAX_IO : Z := 64 * 1024 * 1024.
Definition NFS4_MAX_DIR_ENTRIES : Z := 1000000.
Definition NFS4_MAX_READ_PLUS_SEGMENTS : Z := 1000000.
Definition NFS4_MAX_SECINFO_FLAVORS : Z := 128.
Definition NFS4_MAX_NETLOCATIONS : Z := 128.
Definition NFS4_MAX_CALLBACK_SEC_PARMS : Z := 16.
Definition NFS4_MAX_DEVICEIDS : Z := 1000000.
Definition NFS4_MAX_LAYOUTS : Z := 1000000.
Definition NFS4_MAX_LAYOUT_ERRORS : Z := 1000000.
Definition NFS4_NSECONDS_PER_SECOND : Z := 1000000000.
Definition NFS4_MAX_BITMAP_WORDS : Z := 128.

Definition FATTR4_SUPPORTED_ATTRS : Z := 0.
Definition FATTR4_TYPE : Z := 1.
Definition FATTR4_FH_EXPIRE_TYPE : Z := 2.
Definition FATTR4_CHANGE : Z := 3.
Definition FATTR4_SIZE : Z := 4.
Definition FATTR4_LINK_SUPPORT : Z := 5.
Definition FATTR4_SYMLINK_SUPPORT : Z := 6.
Definition FATTR4_UNIQUE_HANDLES : Z := 9.
Definition FATTR4_LEASE_TIME : Z := 10.
Definition FATTR4_CANSETTIME : Z := 15.
Definition FATTR4_CASE_INSENSITIVE : Z := 16.
Definition FATTR4_CASE_PRESERVING : Z := 17.
Definition FATTR4_CHOWN_RESTRICTED : Z := 18.
Definition FATTR4_FILEID : Z := 20.
Definition FATTR4_FILES_AVAIL : Z := 21.
Definition FATTR4_FILES_FREE : Z := 22.
Definition FATTR4_FILES_TOTAL : Z := 23.
Definition FATTR4_HOMOGENEOUS : Z := 26.
Definition FATTR4_MAXFILESIZE : Z := 27.
Definition FATTR4_MAXLINK : Z := 28.
Definition FATTR4_MAXNAME : Z := 29.
Definition FATTR4_MAXREAD : Z := 30.
Definition FATTR4_MAXWRITE : Z := 31.
Definition FATTR4_MODE : Z := 33.
Definition FATTR4_NO_TRUNC : Z := 34.
Definition FATTR4_NUMLINKS : Z := 35.
Definition FATTR4_OWNER : Z := 36.
Definition FATTR4_OWNER_GROUP : Z := 37.
Definition FATTR4_SPACE_AVAIL : Z := 42.
Definition FATTR4_SPACE_FREE : Z := 43.
Definition FATTR4_SPACE_TOTAL : Z := 44.
Definition FATTR4_SPACE_USED : Z := 45.
Definition FATTR4_TIME_ACCESS : Z := 47.
Definition FATTR4_TIME_ACCESS_SET : Z := 48.
Definition FATTR4_TIME_DELTA : Z := 51.
Definition FATTR4_TIME_METADATA : Z := 52.
Definition FATTR4_TIME_MODIFY : Z := 53.
Definition FATTR4_TIME_MODIFY_SET : Z := 54.

Definition FATTR4_BASIC_ATTRS : list Z :=
  [FATTR4_TYPE; FATTR4_CHANGE; FATTR4_SIZE; FATTR4_FILEID; FATTR4_MODE; FATTR4_NUMLINKS;
   FATTR4_OWNER; FATTR4_OWNER_GROUP; FATTR4_SPACE_USED; FATTR4_TIME_ACCESS;
   FATTR4_TIME_METADATA; FATTR4_TIME_MODIFY].
Definition FATTR4_FSSTAT_ATTRS : list Z :=
  [FATTR4_FILES_AVAIL; FATTR4_FILES_FREE; FATTR4_FILES_TOTAL; FATTR4_SPACE_AVAIL;
   FATTR4_SPACE_FREE; FATTR4_SPACE_TOTAL].
Definition FATTR4_FSINFO_ATTRS : list Z :=
  [FATTR4_FH_EXPIRE_TYPE; FATTR4_LINK_SUPPORT; FATTR4_SYMLINK_SUPPORT;
   FATTR4_UNIQUE_HANDLES; FATTR4_LEASE_TIME; FATTR4_CANSETTIME; FATTR4_HOMOGENEOUS;
   FATTR4_MAXFILESIZE; FATTR4_MAXREAD; FATTR4_MAXWRITE; FATTR4_TIME_DELTA].
Definition FATTR4_PATHCONF_ATTRS : list Z :=
  [FATTR4_CASE_INSENSITIVE; FATTR4_CASE_PRESERVING; FATTR4_CHOWN_RESTRICTED;
   FATTR4_MAXLINK; FATTR4_MAXNAME; FATTR4_NO_TRUNC].

(** ** Handles and ids *)

Module FileHandle.

Record FileHandle := mkFileHandle {
  data : list byte;
}.

#[global] Instance FileHandle_eq_dec : EqDecision FileHandle.
Proof. solve_decision. Defined.

Definition new (data : list byte) : outcome Error FileHandle :=
  if zlen data >? NFS4_FHSIZE
  then Err (Protocol [PLit "NFSv4 file handle is "; PNum (zlen data); PLit " bytes, maximum is ";
                      PNum NFS4_FHSIZE])
  else Ok (mkFileHandle data).

Definition as_bytes (self : FileHandle) : list byte := data self.

Definition encode (self : FileHandle) : M Encoder XdrError unit := write_opaque (data self) NFS4_FHSIZE.

Definition decode : M Decoder XdrError FileHandle :=
  data ← read_opaque_vec NFS4_FHSIZE;
  mret (mkFileHandle data).

End FileHandle.
Import FileHandle (FileHandle).

(** [bytes.try_into()] for an array of [n] bytes. *)
Definition try_into_array (n : Z) (bytes : list byte) : outcome XdrError (list byte) :=
  if zlen bytes =? n then Ok bytes else Err (UnexpectedEof n (zlen bytes)).

Module StateId.

Record StateId := mkStateId {
  seqid : Z;
  other : list byte;
}.

#[global] Instance StateId_eq_dec : EqDecision StateId.
Proof. solve_decision. Defined.

Definition anonymous : StateId := mkStateId 0 (replicate 12 x00).

Definition is_anonymous (self : StateId) : bool := bool_decide (self = anonymous).

Definition encode (self : StateId) : M Encoder XdrError unit :=
  write_u32 (seqid self) ;;
  write_fixed_opaque (other self) ;;
  mret tt.

Definition decode : M Decoder XdrError StateId :=
  seqid ← read_u32;
  bytes ← read_fixed_opaque 12;
  other ← lift (try_into_array 12 bytes);
  mret (mkStateId seqid other).

End StateId.
Import StateId (StateId).

Definition DeviceId_encode (self : list byte) : M Encoder XdrError unit :=
  write_fixed_opaque self ;;
  mret tt.

Definition DeviceId_decode : M Decoder XdrError (list byte) :=
  bytes ← read_fixed_opaque NFS4_DEVICEID_SIZE;
  device_id ← lift (try_into_array NFS4_DEVICEID_SIZE bytes);
  mret device_id.

Definition decode_verifier : M Decoder XdrError (list byte) :=
  bytes ← read_fixed_opaque NFS4_VERIFIER_SIZE;
  lift (try_into_array NFS4_VERIFIER_SIZE bytes).

Definition decode_session_id : M Decoder XdrError (list byte) :=
  bytes ← read_fixed_opaque NFS4_SESSIONID_SIZE;
  lift (try_into_array NFS4_SESSIONID_SIZE bytes).

Module FileType.

Inductive FileType :=
  | Regular
  | Directory
  | BlockDevice
  | CharacterDevice
  | Symlink
  | Socket
  | Fifo
  | AttrDir
  | NamedAttr
  | Unknown (value : Z).

#[global] Instance FileType_eq_dec : EqDecision FileType.
Proof. solve_decision. Defined.

Definition is_file (self : FileType) : bool := bool_decide (self = Regular).
Definition is_dir (self : FileType) : bool := bool_decide (self = Directory).
Definition is_symlink (self : FileType) : bool := bool_decide (self = Symlink).

Definition from_u32 (value : Z) : FileType :=
  match value with
  | 1 => Regular
  | 2 => Directory
  | 3 => BlockDevice
  | 4 => CharacterDevice
  | 5 => Symlink
  | 6 => Socket
  | 7 => Fifo
  | 8 => AttrDir
  | 9 => NamedAttr
  | value => Unknown value
  end.

End FileType.
Import FileType (FileType).

(** ** Bitmaps *)

Definition validate_bitmap_attrs (attrs : list Z) : outcome Error unit :=
  match List.find (λ attr, attr / 32 >=? NFS4_MAX_BITMAP_WORDS) attrs with
  | None => Ok tt
  | Some attr =>
      Err (Protocol [PLit "NFSv4 bitmap attribute "; PNum attr;
                     PLit " exceeds supported bitmap word limit "; PNum NFS4_MAX_BITMAP_WORDS])
  end.

(** [iter().copied().max()]. *)
Fixpoint max_attr (attrs : list Z) : option Z :=
  match attrs with
  | [] => None
  | attr :: rest =>
      Some (match max_attr rest with Some m => Z.max attr m | None => attr end)
  end.

Module Bitmap.

Record Bitmap := mkBitmap {
  words : list Z;
}.

#[global] Instance Bitmap_eq_dec : EqDecision Bitmap.
Proof. solve_decision. Defined.

Definition empty : Bitmap := mkBitmap [].

(** [words[word] |= 1 << bit] for each attribute; indexing past the end panics. *)
Fixpoint set_bits {E} (words attrs : list Z) : outcome E (list Z) :=
  match attrs with
  | [] => Ok words
  | attr :: rest =>
      let word := Z.to_nat (attr / 32) in
      let bit := attr mod 32 in
      match words !! word with
      | Some w => set_bits (<[word := Z.lor w (Z.shiftl 1 bit)]> words) rest
      | None => Fault Panic
      end
  end.

Definition from_valid_attrs {E} (attrs : list Z) : outcome E Bitmap :=
  let words :=
    match max_attr attrs with
    | Some attr => replicate (Z.to_nat (attr / 32 + 1)) 0
    | None => []
    end in
  words ← set_bits words attrs;
  mret (mkBitmap words).

Definition from_attrs (attrs : list Z) : outcome Error Bitmap :=
  _ ← validate_bitmap_attrs attrs;
  from_valid_attrs attrs.

Definition from_known_attrs {E} (attrs : list Z) : outcome E Bitmap :=
  match validate_bitmap_attrs attrs with
  | Ok _ => from_valid_attrs attrs
  | _ => Fault Panic
  end.

Definition is_empty (self : Bitmap) : bool := forallb (λ word, word =? 0) (words self).

Definition contains (self : Bitmap) (attr : Z) : bool :=
  match words self !! Z.to_nat (attr / 32) with
  | Some word => negb (Z.land word (Z.shiftl 1 (attr mod 32)) =? 0)
  | None => false
  end.

Definition from_supported_attrs (supported : Bitmap) (attrs : list Z) : outcome Error Bitmap :=
  _ ← validate_bitmap_attrs attrs;
  let attrs := List.filter (contains supported) attrs in
  from_attrs attrs.

(** The attributes of one word, lowest bit first. *)
Definition word_attrs (word_index word : Z) : list Z :=
  omap (λ bit, if Z.land word (Z.shiftl 1 bit) =? 0 then None else Some (word_index * 32 + bit))
    (seqZ 0 32).

Definition attrs (self : Bitmap) : list Z :=
  mjoin (imap (λ word_index word, word_attrs (Z.of_nat word_index) word) (words self)).

Definition encode (self : Bitmap) : M Encoder XdrError unit :=
  write_array write_u32 (words self) NFS4_MAX_BITMAP_WORDS.

Definition decode : M Decoder XdrError Bitmap :=
  words ← read_array read_u32 NFS4_MAX_BITMAP_WORDS;
  mret (mkBitmap words).

End Bitmap.
Import Bitmap (Bitmap).

(** ** Times *)

Definition validate_nseconds (nseconds : Z) : outcome XdrError unit :=
  if nseconds >=? NFS4_NSECONDS_PER_SECOND
  then Err (LengthLimitExceeded nseconds (NFS4_NSECONDS_PER_SECOND - 1))
  else Ok tt.

Module NfsTime.

Record NfsTime := mkNfsTime {
  seconds : Z;
  nseconds : Z;
}.

#[global] Instance NfsTime_eq_dec : EqDecision NfsTime.
Proof. solve_decision. Defined.

Definition validate (self : NfsTime) : outcome XdrError unit := validate_nseconds (nseconds self).

Definition decode : M Decoder XdrError NfsTime :=
  seconds ← read_i64;
  nseconds ← read_u32;
  let time := mkNfsTime seconds nseconds in
  lift (validate time) ;;
  mret time.

Definition encode (self : NfsTime) : M Encoder XdrError unit :=
  lift (validate self) ;;
  write_i64 (seconds self) ;;
  write_u32 (nseconds self) ;;
  mret tt.

End NfsTime.
Import NfsTime (NfsTime).

Module SetTime.

Inductive SetTime :=
  | DontChange
  | ServerTime
  | ClientTime (time : NfsTime).

#[global] Instance SetTime_eq_dec : EqDecision SetTime.
Proof. solve_decision. Defined.

Definition default : SetTime := DontChange.

End SetTime.
Import SetTime (SetTime).

Definition encode_set_time (value : SetTime) : M Encoder XdrError unit :=
  match value with
  | SetTime.DontChange | SetTime.ServerTime => write_u32 0
  | SetTime.ClientTime time =>
      lift (NfsTime.validate time) ;;
      write_u32 1 ;;
      NfsTime.encode time
  end ;;
  mret tt.

Module SetAttrs.

Record SetAttrs := mkSetAttrs {
  size : option Z;
  mode : option Z;
  owner : option str;
  owner_group : option str;
  access_time : SetTime;
  modify_time : SetTime;
}.

#[global] Instance SetAttrs_eq_dec : EqDecision SetAttrs.
Proof. solve_decision. Defined.

Definition default : SetAttrs := mkSetAttrs None None None None SetTime.default SetTime.default.

Definition of_size (size : Z) : SetAttrs :=
  mkSetAttrs (Some size) None None None SetTime.default SetTime.default.
Definition of_mode (mode : Z) : SetAttrs :=
  mkSetAttrs None (Some mode) None None SetTime.default SetTime.default.
Definition of_owner (owner : str) : SetAttrs :=
  mkSetAttrs None None (Some owner) None SetTime.default SetTime.default.
Definition of_owner_group (owner_group : str) : SetAttrs :=
  mkSetAttrs None None None (Some owner_group) SetTime.default SetTime.default.
Definition ownership (owner owner_group : str) : SetAttrs :=
  mkSetAttrs None None (Some owner) (Some owner_group) SetTime.default SetTime.default.

Definition client_time (time : option NfsTime) : SetTime :=
  match time with Some time => SetTime.ClientTime time | None => SetTime.DontChange end.
Definition times (access_time modify_time : option NfsTime) : SetAttrs :=
  mkSetAttrs None None None None (client_time access_time) (client_time modify_time).
Definition touch : SetAttrs :=
  mkSetAttrs None None None None SetTime.ServerTime SetTime.ServerTime.

End SetAttrs.
Import SetAttrs (SetAttrs).

(** ** Attribute payloads *)

Module Fattr.

Record Fattr := mkFattr {
  attrmask : Bitmap;
  attr_vals : list byte;
}.

#[global] Instance Fattr_eq_dec : EqDecision Fattr.
Proof. solve_decision. Defined.

Definition empty : Fattr := mkFattr Bitmap.empty [].

Definition encode (self : Fattr) : M Encoder XdrError unit :=
  Bitmap.encode (attrmask self) ;;
  write_opaque (attr_vals self) NFS4_MAX_IO.

Definition decode : M Decoder XdrError Fattr :=
  attrmask ← Bitmap.decode;
  attr_vals ← read_opaque_vec NFS4_MAX_IO;
  mret (mkFattr attrmask attr_vals).

(** The ids and the values of a payload, from the [Encoder] they were written to. *)
Definition assemble (m : M Encoder XdrError (list Z)) : outcome Error Fattr :=
  match m Encoder_new with
  | (encoder, Ok attr_ids) =>
      attrmask ← Bitmap.from_known_attrs attr_ids;
      mret (mkFattr attrmask (enc_bytes encoder))
  | (_, Err e) => Err (Xdr e)
  | (_, Fault f) => Fault f
  end.

Definition size (size : Z) : outcome Error Fattr :=
  assemble (write_u64 size ;; mret [FATTR4_SIZE]).

Definition mode (mode : Z) : outcome Error Fattr :=
  assemble (write_u32 mode ;; mret [FATTR4_MODE]).

(** [if let Some(value) = field { attr_ids.push(id); write(value)?; }]. *)
Definition push_attr {A} (id : Z) (write : A → M Encoder XdrError unit) (value : option A)
    (attr_ids : list Z) : M Encoder XdrError (list Z) :=
  match value with
  | Some value => write value ;; mret (attr_ids ++ [id])
  | None => mret attr_ids
  end.

(** [if time != SetTime::DontChange { .. }]. *)
Definition push_time (id : Z) (time : SetTime) (attr_ids : list Z) : M Encoder XdrError (list Z) :=
  if bool_decide (time = SetTime.DontChange) then mret attr_ids
  else encode_set_time time ;; mret (attr_ids ++ [id]).

Definition write_set_attrs (attrs : SetAttrs) : M Encoder XdrError (list Z) :=
  attr_ids ← push_attr FATTR4_SIZE write_u64 (SetAttrs.size attrs) [];
  attr_ids ← push_attr FATTR4_MODE write_u32 (SetAttrs.mode attrs) attr_ids;
  attr_ids ← push_attr FATTR4_OWNER (λ owner, write_string owner NFS4_OPAQUE_LIMIT)
               (SetAttrs.owner attrs) attr_ids;
  attr_ids ← push_attr FATTR4_OWNER_GROUP (λ owner_group, write_string owner_group NFS4_OPAQUE_LIMIT)
               (SetAttrs.owner_group attrs) attr_ids;
  attr_ids ← push_time FATTR4_TIME_ACCESS_SET (SetAttrs.access_time attrs) attr_ids;
  push_time FATTR4_TIME_MODIFY_SET (SetAttrs.modify_time attrs) attr_ids.

Definition from_set_attrs (attrs : SetAttrs) : outcome Error Fattr := assemble (write_set_attrs attrs).

End Fattr.
Import Fattr (Fattr).

(** [parsed.field = Some(read?)]. *)
Definition store {A P} (read : M Decoder XdrError A) (set : A → P) : M Decoder Error P :=
  v ← xdr read; mret (set v).

(** [for attr in self.attrmask.attrs() { .. }]: the values in bitmap order. *)
Fixpoint parse_each {P} (parse : Z → P → M Decoder Error P) (attrs : list Z) (parsed : P)
    : M Decoder Error P :=
  match attrs with
  | [] => mret parsed
  | attr :: rest => parsed ← parse attr parsed; parse_each parse rest parsed
  end.

Definition parse_attrs {P} (parse : Z → P → M Decoder Error P) (unparsed : P) (self : Fattr)
    : outcome Error P :=
  ((parsed ← parse_each parse (Bitmap.attrs (Fattr.attrmask self)) unparsed;
    xdr finish ;;
    mret parsed) (Decoder_new (Fattr.attr_vals self))).2.

Module BasicAttributes.

Record BasicAttributes := mkBasicAttributes {
  file_type : option FileType;
  change : option Z;
  size : option Z;
  fileid : option Z;
  mode : option Z;
  numlinks : option Z;
  owner : option str;
  owner_group : option str;
  space_used : option Z;
  access_time : option NfsTime;
  metadata_time : option NfsTime;
  modify_time : option NfsTime;
  raw : Fattr;
}.

(** Nothing parsed yet. *)
Definition unparsed (raw : Fattr) : BasicAttributes :=
  mkBasicAttributes None None None None None None None None None None None None raw.

Definition with_file_type (self : BasicAttributes) v : BasicAttributes :=
  mkBasicAttributes (Some v) (change self) (size self) (fileid self) (mode self)
    (numlinks self) (owner self) (owner_group self) (space_used self) (access_time self)
    (metadata_time self) (modify_time self) (raw self).
Definition with_change (self : BasicAttributes) v : BasicAttributes :=
  mkBasicAttributes (file_type self) (Some v) (size self) (fileid self) (mode self)
    (numlinks self) (owner self) (owner_group self) (space_used self) (access_time self)
    (metadata_time self) (modify_time self) (raw self).
Definition with_size (self : BasicAttributes) v : BasicAttributes :=
  mkBasicAttributes (file_type self) (change self) (Some v) (fileid self) (mode self)
    (numlinks self) (owner self) (owner_group self) (space_used self) (access_time self)
    (metadata_time self) (modify_time self) (raw self).
Definition with_fileid (self : BasicAttributes) v : BasicAttributes :=
  mkBasicAttributes (file_type self) (change self) (size self) (Some v) (mode self)
    (numlinks self) (owner self) (owner_group self) (space_used self) (access_time self)
    (metadata_time self) (modify_time self) (raw self).
Definition with_mode (self : BasicAttributes) v : BasicAttributes :=
  mkBasicAttributes (file_type self) (change self) (size self) (fileid self) (Some v)
    (numlinks self) (owner self) (owner_group self) (space_used self) (access_time self)
    (metadata_time self) (modify_time self) (raw self).
Definition with_numlinks (self : BasicAttributes) v : BasicAttributes :=
  mkBasicAttributes (file_type self) (change self) (size self) (fileid self) (mode self)
    (Some v) (owner self) (owner_group self) (space_used self) (access_time self)
    (metadata_time self) (modify_time self) (raw self).
Definition with_owner (self : BasicAttributes) v : BasicAttributes :=
  mkBasicAttributes (file_type self) (change self) (size self) (fileid self) (mode self)
    (numlinks self) (Some v) (owner_group self) (space_used self) (access_time self)
    (metadata_time self) (modify_time self) (raw self).
Definition with_owner_group (self : BasicAttributes) v : BasicAttributes :=
  mkBasicAttributes (file_type self) (change self) (size self) (fileid self) (mode self)
    (numlinks self) (owner self) (Some v) (space_used self) (access_time self)
    (metadata_time self) (modify_time self) (raw self).
Definition with_space_used (self : BasicAttributes) v : BasicAttributes :=
  mkBasicAttributes (file_type self) (change self) (size self) (fileid self) (mode self)
    (numlinks self) (owner self) (owner_group self) (Some v) (access_time self)
    (metadata_time self) (modify_time self) (raw self).
Definition with_access_time (self : BasicAttributes) v : BasicAttributes :=
  mkBasicAttributes (file_type self) (change self) (size self) (fileid self) (mode self)
    (numlinks self) (owner self) (owner_group self) (space_used self) (Some v)
    (metadata_time self) (modify_time self) (raw self).
Definition with_metadata_time (self : BasicAttributes) v : BasicAttributes :=
  mkBasicAttributes (file_type self) (change self) (size self) (fileid self) (mode self)
    (numlinks self) (owner self) (owner_group self) (space_used self) (access_time self)
    (Some v) (modify_time self) (raw self).
Definition with_modify_time (self : BasicAttributes) v : BasicAttributes :=
  mkBasicAttributes (file_type self) (change self) (size self) (fileid self) (mode self)
    (numlinks self) (owner self) (owner_group self) (space_used self) (access_time self)
    (metadata_time self) (Some v) (raw self).

Definition required_file_type (self : BasicAttributes) : outcome Error FileType :=
  match file_type self with
  | Some file_type => Ok file_type
  | None => Err (Protocol [PLit "NFSv4 file type attribute was not returned by the server"])
  end.

Definition is_file (self : BasicAttributes) : outcome Error bool :=
  file_type ← required_file_type self; Ok (FileType.is_file file_type).
Definition is_dir (self : BasicAttributes) : outcome Error bool :=
  file_type ← required_file_type self; Ok (FileType.is_dir file_type).
Definition is_symlink (self : BasicAttributes) : outcome Error bool :=
  file_type ← required_file_type self; Ok (FileType.is_symlink file_type).

End BasicAttributes.
Import BasicAttributes (BasicAttributes).

Module FsStat.

Record FsStat := mkFsStat {
  total_bytes : option Z;
  free_bytes : option Z;
  available_bytes : option Z;
  total_files : option Z;
  free_files : option Z;
  available_files : option Z;
  raw : Fattr;
}.

(** Nothing parsed yet. *)
Definition unparsed (raw : Fattr) : FsStat :=
  mkFsStat None None None None None None raw.

Definition with_total_bytes (self : FsStat) v : FsStat :=
  mkFsStat (Some v) (free_bytes self) (available_bytes self) (total_files self)
    (free_files self) (available_files self) (raw self).
Definition with_free_bytes (self : FsStat) v : FsStat :=
  mkFsStat (total_bytes self) (Some v) (available_bytes self) (total_files self)
    (free_files self) (available_files self) (raw self).
Definition with_available_bytes (self : FsStat) v : FsStat :=
  mkFsStat (total_bytes self) (free_bytes self) (Some v) (total_files self) (free_files self)
    (available_files self) (raw self).
Definition with_total_files (self : FsStat) v : FsStat :=
  mkFsStat (total_bytes self) (free_bytes self) (available_bytes self) (Some v)
    (free_files self) (available_files self) (raw self).
Definition with_free_files (self : FsStat) v : FsStat :=
  mkFsStat (total_bytes self) (free_bytes self) (available_bytes self) (total_files self)
    (Some v) (available_files self) (raw self).
Definition with_available_files (self : FsStat) v : FsStat :=
  mkFsStat (total_bytes self) (free_bytes self) (available_bytes self) (total_files self)
    (free_files self) (Some v) (raw self).

End FsStat.
Import FsStat (FsStat).

Module FsInfo.

Record FsInfo := mkFsInfo {
  fh_expire_type : option Z;
  link_support : option bool;
  symlink_support : option bool;
  unique_handles : option bool;
  lease_time_seconds : option Z;
  can_set_time : option bool;
  homogeneous : option bool;
  max_file_size : option Z;
  max_read : option Z;
  max_write : option Z;
  time_delta : option NfsTime;
  raw : Fattr;
}.

(** Nothing parsed yet. *)
Definition unparsed (raw : Fattr) : FsInfo :=
  mkFsInfo None None None None None None None None None None None raw.

Definition with_fh_expire_type (self : FsInfo) v : FsInfo :=
  mkFsInfo (Some v) (link_support self) (symlink_support self) (unique_handles self)
    (lease_time_seconds self) (can_set_time self) (homogeneous self) (max_file_size self)
    (max_read self) (max_write self) (time_delta self) (raw self).
Definition with_link_support (self : FsInfo) v : FsInfo :=
  mkFsInfo (fh_expire_type self) (Some v) (symlink_support self) (unique_handles self)
    (lease_time_seconds self) (can_set_time self) (homogeneous self) (max_file_size self)
    (max_read self) (max_write self) (time_delta self) (raw self).
Definition with_symlink_support (self : FsInfo) v : FsInfo :=
  mkFsInfo (fh_expire_type self) (link_support self) (Some v) (unique_handles self)
    (lease_time_seconds self) (can_set_time self) (homogeneous self) (max_file_size self)
    (max_read self) (max_write self) (time_delta self) (raw self).
Definition with_unique_handles (self : FsInfo) v : FsInfo :=
  mkFsInfo (fh_expire_type self) (link_support self) (symlink_support self) (Some v)
    (lease_time_seconds self) (can_set_time self) (homogeneous self) (max_file_size self)
    (max_read self) (max_write self) (time_delta self) (raw self).
Definition with_lease_time_seconds (self : FsInfo) v : FsInfo :=
  mkFsInfo (fh_expire_type self) (link_support self) (symlink_support self)
    (unique_handles self) (Some v) (can_set_time self) (homogeneous self) (max_file_size self)
    (max_read self) (max_write self) (time_delta self) (raw self).
Definition with_can_set_time (self : FsInfo) v : FsInfo :=
  mkFsInfo (fh_expire_type self) (link_support self) (symlink_support self)
    (unique_handles self) (lease_time_seconds self) (Some v) (homogeneous self)
    (max_file_size self) (max_read self) (max_write self) (time_delta self) (raw self).
Definition with_homogeneous (self : FsInfo) v : FsInfo :=
  mkFsInfo (fh_expire_type self) (link_support self) (symlink_support self)
    (unique_handles self) (lease_time_seconds self) (can_set_time self) (Some v)
    (max_file_size self) (max_read self) (max_write self) (time_delta self) (raw self).
Definition with_max_file_size (self : FsInfo) v : FsInfo :=
  mkFsInfo (fh_expire_type self) (link_support self) (symlink_support self)
    (unique_handles self) (lease_time_seconds self) (can_set_time self) (homogeneous self)
    (Some v) (max_read self) (max_write self) (time_delta self) (raw self).
Definition with_max_read (self : FsInfo) v : FsInfo :=
  mkFsInfo (fh_expire_type self) (link_support self) (symlink_support self)
    (unique_handles self) (lease_time_seconds self) (can_set_time self) (homogeneous self)
    (max_file_size self) (Some v) (max_write self) (time_delta self) (raw self).
Definition with_max_write (self : FsInfo) v : FsInfo :=
  mkFsInfo (fh_expire_type self) (link_support self) (symlink_support self)
    (unique_handles self) (lease_time_seconds self) (can_set_time self) (homogeneous self)
    (max_file_size self) (max_read self) (Some v) (time_delta self) (raw self).
Definition with_time_delta (self : FsInfo) v : FsInfo :=
  mkFsInfo (fh_expire_type self) (link_support self) (symlink_support self)
    (unique_handles self) (lease_time_seconds self) (can_set_time self) (homogeneous self)
    (max_file_size self) (max_read self) (max_write self) (Some v) (raw self).

End FsInfo.
Import FsInfo (FsInfo).

Module PathConf.

Record PathConf := mkPathConf {
  link_max : option Z;
  name_max : option Z;
  no_trunc : option bool;
  chown_restricted : option bool;
  case_insensitive : option bool;
  case_preserving : option bool;
  raw : Fattr;
}.

(** Nothing parsed yet. *)
Definition unparsed (raw : Fattr) : PathConf :=
  mkPathConf None None None None None None raw.

Definition with_link_max (self : PathConf) v : PathConf :=
  mkPathConf (Some v) (name_max self) (no_trunc self) (chown_restricted self)
    (case_insensitive self) (case_preserving self) (raw self).
Definition with_name_max (self : PathConf) v : PathConf :=
  mkPathConf (link_max self) (Some v) (no_trunc self) (chown_restricted self)
    (case_insensitive self) (case_preserving self) (raw self).
Definition with_no_trunc (self : PathConf) v : PathConf :=
  mkPathConf (link_max self) (name_max self) (Some v) (chown_restricted self)
    (case_insensitive self) (case_preserving self) (raw self).
Definition with_chown_restricted (self : PathConf) v : PathConf :=
  mkPathConf (link_max self) (name_max self) (no_trunc self) (Some v) (case_insensitive self)
    (case_preserving self) (raw self).
Definition with_case_insensitive (self : PathConf) v : PathConf :=
  mkPathConf (link_max self) (name_max self) (no_trunc self) (chown_restricted self) (Some v)
    (case_preserving self) (raw self).
Definition with_case_preserving (self : PathConf) v : PathConf :=
  mkPathConf (link_max self) (name_max self) (no_trunc self) (chown_restricted self)
    (case_insensitive self) (Some v) (raw self).

End PathConf.
Import PathConf (PathConf).

Definition supported_attrs_attr (attr : Z) (supported : option Bitmap)
    : M Decoder Error (option Bitmap) :=
  if attr =? FATTR4_SUPPORTED_ATTRS then v ← xdr Bitmap.decode; mret (Some v) else
  throw (Protocol [PLit "cannot parse unsupported NFSv4 supported_attrs attribute "; PNum attr]).

Definition parse_supported_attrs (self : Fattr) : outcome Error Bitmap :=
  supported ← parse_attrs supported_attrs_attr None self;
  match supported with
  | Some supported => Ok supported
  | None => Err (Protocol [PLit "NFSv4 supported_attrs response did not include attr 0"])
  end.

Definition basic_attr (attr : Z) (parsed : BasicAttributes) : M Decoder Error BasicAttributes :=
  if attr =? FATTR4_TYPE then
    store read_u32 (λ v, BasicAttributes.with_file_type parsed (FileType.from_u32 v)) else
  if attr =? FATTR4_CHANGE then store read_u64 (BasicAttributes.with_change parsed) else
  if attr =? FATTR4_SIZE then store read_u64 (BasicAttributes.with_size parsed) else
  if attr =? FATTR4_FILEID then store read_u64 (BasicAttributes.with_fileid parsed) else
  if attr =? FATTR4_MODE then store read_u32 (BasicAttributes.with_mode parsed) else
  if attr =? FATTR4_NUMLINKS then store read_u32 (BasicAttributes.with_numlinks parsed) else
  if attr =? FATTR4_OWNER then store (read_string NFS4_OPAQUE_LIMIT) (BasicAttributes.with_owner parsed) else
  if attr =? FATTR4_OWNER_GROUP then store (read_string NFS4_OPAQUE_LIMIT) (BasicAttributes.with_owner_group parsed) else
  if attr =? FATTR4_SPACE_USED then store read_u64 (BasicAttributes.with_space_used parsed) else
  if attr =? FATTR4_TIME_ACCESS then store NfsTime.decode (BasicAttributes.with_access_time parsed) else
  if attr =? FATTR4_TIME_METADATA then store NfsTime.decode (BasicAttributes.with_metadata_time parsed) else
  if attr =? FATTR4_TIME_MODIFY then store NfsTime.decode (BasicAttributes.with_modify_time parsed) else
  throw (Protocol [PLit "cannot parse unsupported NFSv4 basic attribute "; PNum attr]).

Definition parse_basic (self : Fattr) : outcome Error BasicAttributes :=
  parse_attrs basic_attr (BasicAttributes.unparsed self) self.

Definition fsstat_attr (attr : Z) (parsed : FsStat) : M Decoder Error FsStat :=
  if attr =? FATTR4_FILES_AVAIL then store read_u64 (FsStat.with_available_files parsed) else
  if attr =? FATTR4_FILES_FREE then store read_u64 (FsStat.with_free_files parsed) else
  if attr =? FATTR4_FILES_TOTAL then store read_u64 (FsStat.with_total_files parsed) else
  if attr =? FATTR4_SPACE_AVAIL then store read_u64 (FsStat.with_available_bytes parsed) else
  if attr =? FATTR4_SPACE_FREE then store read_u64 (FsStat.with_free_bytes parsed) else
  if attr =? FATTR4_SPACE_TOTAL then store read_u64 (FsStat.with_total_bytes parsed) else
  throw (Protocol [PLit "cannot parse unsupported NFSv4 fsstat attribute "; PNum attr]).

Definition parse_fsstat (self : Fattr) : outcome Error FsStat :=
  parse_attrs fsstat_attr (FsStat.unparsed self) self.

Definition fsinfo_attr (attr : Z) (parsed : FsInfo) : M Decoder Error FsInfo :=
  if attr =? FATTR4_FH_EXPIRE_TYPE then store read_u32 (FsInfo.with_fh_expire_type parsed) else
  if attr =? FATTR4_LINK_SUPPORT then store read_bool (FsInfo.with_link_support parsed) else
  if attr =? FATTR4_SYMLINK_SUPPORT then store read_bool (FsInfo.with_symlink_support parsed) else
  if attr =? FATTR4_UNIQUE_HANDLES then store read_bool (FsInfo.with_unique_handles parsed) else
  if attr =? FATTR4_LEASE_TIME then store read_u32 (FsInfo.with_lease_time_seconds parsed) else
  if attr =? FATTR4_CANSETTIME then store read_bool (FsInfo.with_can_set_time parsed) else
  if attr =? FATTR4_HOMOGENEOUS then store read_bool (FsInfo.with_homogeneous parsed) else
  if attr =? FATTR4_MAXFILESIZE then store read_u64 (FsInfo.with_max_file_size parsed) else
  if attr =? FATTR4_MAXREAD then store read_u64 (FsInfo.with_max_read parsed) else
  if attr =? FATTR4_MAXWRITE then store read_u64 (FsInfo.with_max_write parsed) else
  if attr =? FATTR4_TIME_DELTA then store NfsTime.decode (FsInfo.with_time_delta parsed) else
  throw (Protocol [PLit "cannot parse unsupported NFSv4 fsinfo attribute "; PNum attr]).

Definition parse_fsinfo (self : Fattr) : outcome Error FsInfo :=
  parse_attrs fsinfo_attr (FsInfo.unparsed self) self.

Definition pathconf_attr (attr : Z) (parsed : PathConf) : M Decoder Error PathConf :=
  if attr =? FATTR4_CASE_INSENSITIVE then store read_bool (PathConf.with_case_insensitive parsed) else
  if attr =? FATTR4_CASE_PRESERVING then store read_bool (PathConf.with_case_preserving parsed) else
  if attr =? FATTR4_CHOWN_RESTRICTED then store read_bool (PathConf.with_chown_restricted parsed) else
  if attr =? FATTR4_MAXLINK then store read_u32 (PathConf.with_link_max parsed) else
  if attr =? FATTR4_MAXNAME then store read_u32 (PathConf.with_name_max parsed) else
  if attr =? FATTR4_NO_TRUNC then store read_bool (PathConf.with_no_trunc parsed) else
  throw (Protocol [PLit "cannot parse unsupported NFSv4 pathconf attribute "; PNum attr]).

Definition parse_pathconf (self : Fattr) : outcome Error PathConf :=
  parse_attrs pathconf_attr (PathConf.unparsed self) self.
