(* ===== verification/V4AttrSpec.v ===== *)
(** * Attribute bitmaps and payloads (laws of [V4Attr])

    A bitmap is a set of attribute numbers: [contains] is membership, [attrs]
    lists the set in ascending order, and [from_attrs] builds it.  An attribute
    payload is the concatenation of the values in that order; [fields_of]
    describes the payloads a server may send, and the parsers read back exactly
    the record the payload was made from. *)

From Stdlib Require Import Strings.String Strings.Byte Sorting.Sorted.
From stdpp Require Import sets.
From S2P Require Import Prelude Text Xdr XdrSpec XdrList Errors Rpc RpcSpec V3Wire V4Attr.
Import FileHandle (FileHandle).
Import StateId (StateId).
Import FileType (FileType).
Import Bitmap (Bitmap).
Import NfsTime (NfsTime).
Import SetTime (SetTime).
Import SetAttrs (SetAttrs).
Import Fattr (Fattr).
Import BasicAttributes (BasicAttributes).

#[local] Open Scope Z_scope.

(** ** Bits *)

Lemma land_bit_zero w i : 0 ≤ i → (Z.land w (Z.shiftl 1 i) =? 0) = negb (Z.testbit w i).
Proof.
  intros Hi. destruct (Z.testbit w i) eqn:E; simpl.
  - apply Z.eqb_neq. intros H. apply (f_equal (λ z, Z.testbit z i)) in H.
    rewrite Z.land_spec, Z.shiftl_spec, Z.sub_diag, E, Z.bits_0 in H by done. done.
  - apply Z.eqb_eq, Z.bits_inj'. intros j Hj.
    rewrite Z.land_spec, Z.shiftl_spec, Z.bits_0 by done.
    destruct (decide (j = i)) as [->|Hne]; [by rewrite E|].
    destruct (decide (j < i)); [rewrite (Z.testbit_neg_r 1) by lia; apply andb_false_r|].
    rewrite (Z.bits_above_log2 1) by (simpl; lia). apply andb_false_r.
Qed.

Lemma lor_bit w i j : 0 ≤ i → 0 ≤ j →
  Z.testbit (Z.lor w (Z.shiftl 1 i)) j = Z.testbit w j || (i =? j).
Proof.
  intros Hi Hj. rewrite Z.lor_spec, Z.shiftl_spec by done. f_equal.
  destruct (Z.eqb_spec i j) as [->|]; [by rewrite Z.sub_diag|].
  destruct (decide (j < i)); [apply Z.testbit_neg_r; lia|].
  apply Z.bits_above_log2; simpl; lia.
Qed.

(** Attribute [a] is bit [a mod 32] of word [a / 32]. *)
Definition bit_of (words : list Z) (a : Z) : bool :=
  match words !! Z.to_nat (a / 32) with
  | Some w => Z.testbit w (a mod 32)
  | None => false
  end.

Lemma contains_bit_of b a : Bitmap.contains b a = bit_of (Bitmap.words b) a.
Proof.
  unfold Bitmap.contains, bit_of. destruct (_ !! _) as [w|]; [|done].
  pose proof (Z.mod_pos_bound a 32). rewrite land_bit_zero by lia. apply negb_involutive.
Qed.

Lemma word_bit_eq a c : 0 ≤ a → 0 ≤ c → a / 32 = c / 32 → (a mod 32 =? c mod 32) = (a =? c).
Proof.
  intros Ha Hc E. pose proof (Z.div_mod a 32). pose proof (Z.div_mod c 32).
  destruct (Z.eqb_spec a c), (Z.eqb_spec (a mod 32) (c mod 32)); try done; subst; lia.
Qed.

Lemma bit_of_insert words a w c :
  0 ≤ a → 0 ≤ c → words !! Z.to_nat (a / 32) = Some w →
  bit_of (<[Z.to_nat (a / 32) := Z.lor w (Z.shiftl 1 (a mod 32))]> words) c
  = bit_of words c || (a =? c).
Proof.
  intros Ha Hc Hw. unfold bit_of.
  pose proof (Z.mod_pos_bound a 32). pose proof (Z.mod_pos_bound c 32).
  pose proof (Z.div_pos a 32). pose proof (Z.div_pos c 32).
  destruct (decide (a / 32 = c / 32)) as [E|E].
  - rewrite <- E, Hw, list_lookup_insert_eq by by eapply lookup_lt_Some.
    rewrite lor_bit by lia. by rewrite word_bit_eq.
  - rewrite list_lookup_insert_ne by lia.
    assert ((a =? c) = false) as -> by (apply Z.eqb_neq; by intros ->). by rewrite orb_false_r.
Qed.

(** ** Building bitmaps *)

Definition in_words (n : nat) (a : Z) : Prop := 0 ≤ a ∧ a / 32 < Z.of_nat n.

Lemma set_bits_spec {E} words attrs :
  Forall (in_words (length words)) attrs →
  ∃ words', Bitmap.set_bits (E := E) words attrs = Ok words' ∧ length words' = length words
    ∧ ∀ a, 0 ≤ a → bit_of words' a = bit_of words a || bool_decide (a ∈ attrs).
Proof.
  revert words. induction attrs as [|c attrs IH]; intros words Hf.
  { exists words. split_and!; [done..|]. intros a _. by rewrite orb_false_r. }
  apply list.Forall_cons in Hf as [[Hc Hlt] Hf].
  destruct (lookup_lt_is_Some_2 words (Z.to_nat (c / 32))) as [w Hw];
    [pose proof (Z.div_pos c 32); lia|].
  cbn [Bitmap.set_bits]. rewrite Hw.
  destruct (IH (<[Z.to_nat (c / 32) := Z.lor w (Z.shiftl 1 (c mod 32))]> words))
    as (words' & -> & Hlen & Hbits); [by rewrite length_insert|].
  exists words'. split_and!; [done|by rewrite Hlen, length_insert|]. intros a Ha.
  rewrite Hbits, bit_of_insert by done.
  destruct (bit_of words a), (Z.eqb_spec c a) as [->|Hne]; simpl; try done.
  - symmetry. apply bool_decide_eq_true. set_solver.
  - apply bool_decide_ext. set_solver.
Qed.

Lemma max_attr_ge attrs a : a ∈ attrs → ∃ m, max_attr attrs = Some m ∧ a ≤ m.
Proof.
  induction attrs as [|c attrs IH]; [set_solver|]. intros [->|Ha]%elem_of_cons; simpl.
  - destruct (max_attr attrs); eexists; split; [done|lia|done|lia].
  - destruct (IH Ha) as (m & -> & ?). eexists; split; [done|lia].
Qed.

Lemma max_attr_nonneg attrs m : Forall (λ a, 0 ≤ a) attrs → max_attr attrs = Some m → 0 ≤ m.
Proof.
  destruct attrs; [done|]. simpl. intros [? _]%list.Forall_cons [= <-].
  destruct (max_attr attrs); lia.
Qed.

(** [from_valid_attrs] never indexes out of range, and builds the set. *)
Lemma from_valid_attrs_spec {E} attrs :
  Forall (λ a, 0 ≤ a) attrs →
  ∃ b, Bitmap.from_valid_attrs (E := E) attrs = Ok b
    ∧ ∀ a, 0 ≤ a → Bitmap.contains b a = bool_decide (a ∈ attrs).
Proof.
  intros Hnn. unfold Bitmap.from_valid_attrs.
  set (words := match max_attr attrs with Some m => replicate (Z.to_nat (m / 32 + 1)) 0 | None => [] end).
  assert (Forall (in_words (length words)) attrs) as Hin.
  { apply list.Forall_forall. intros a Ha. rewrite list.Forall_forall in Hnn. split; [by apply Hnn|].
    destruct (max_attr_ge attrs a Ha) as (m & Hm & Hle).
    assert (0 ≤ m) by (specialize (Hnn a Ha); simpl in Hnn; lia).
    unfold words. rewrite Hm, length_replicate.
    pose proof (Z.div_le_mono a m 32). pose proof (Z.div_pos m 32). lia. }
  destruct (set_bits_spec (E := E) words attrs Hin) as (words' & -> & _ & Hbits).
  eexists; split; [done|]. intros a Ha. rewrite contains_bit_of; simpl. rewrite Hbits by done.
  assert (bit_of words a = false) as ->; [|done]. unfold bit_of.
  destruct (words !! _) as [w|] eqn:E'; [|done]. unfold words in E'.
  destruct (max_attr attrs); [|done]. apply lookup_replicate in E' as [-> _]. apply Z.bits_0.
Qed.

(** The attribute numbers a bitmap can hold. *)
Definition attr_in_range (a : Z) : Prop := a < 32 * NFS4_MAX_BITMAP_WORDS.

#[export] Instance attr_in_range_dec a : Decision (attr_in_range a).
Proof. unfold attr_in_range; apply _. Defined.

Lemma word_limit a : (a / 32 >=? NFS4_MAX_BITMAP_WORDS) = negb (bool_decide (attr_in_range a)).
Proof.
  rewrite Z.geb_leb. pose proof (Z.div_mod a 32). pose proof (Z.mod_pos_bound a 32).
  unfold attr_in_range.
  case_bool_decide; [apply Z.leb_gt|apply Z.leb_le]; unfold NFS4_MAX_BITMAP_WORDS in *; lia.
Qed.

Lemma validate_bitmap_attrs_spec attrs :
  if decide (Forall attr_in_range attrs) then validate_bitmap_attrs attrs = Ok tt
  else ∃ e, validate_bitmap_attrs attrs = Err e.
Proof.
  unfold validate_bitmap_attrs. induction attrs as [|a attrs IH]; [done|].
  cbn [List.find]. rewrite word_limit. case_bool_decide as Ha; cbn [negb].
  - destruct (decide (Forall attr_in_range attrs)) as [Hr|Hr], (decide (Forall _ (_ :: _))) as [Hr'|Hr'];
      try done; rewrite list.Forall_cons in Hr'; tauto.
  - clear IH. destruct (decide (Forall _ _)) as [[? _]%list.Forall_cons|]; [done|]. by eexists.
Qed.

(** [from_attrs] accepts exactly the attributes in range. *)
Lemma from_attrs_spec attrs :
  Forall (λ a, 0 ≤ a) attrs →
  if decide (Forall attr_in_range attrs)
  then ∃ b, Bitmap.from_attrs attrs = Ok b ∧ ∀ a, 0 ≤ a → Bitmap.contains b a = bool_decide (a ∈ attrs)
  else ∃ e, Bitmap.from_attrs attrs = Err e.
Proof.
  intros Hnn. pose proof (validate_bitmap_attrs_spec attrs) as Hv. unfold Bitmap.from_attrs.
  destruct (decide _).
  - rewrite Hv. by apply from_valid_attrs_spec.
  - destruct Hv as [e ->]. by exists e.
Qed.

Lemma from_known_attrs_spec {E} attrs :
  Forall (λ a, 0 ≤ a) attrs → Forall attr_in_range attrs →
  ∃ b, Bitmap.from_known_attrs (E := E) attrs = Ok b
    ∧ ∀ a, 0 ≤ a → Bitmap.contains b a = bool_decide (a ∈ attrs).
Proof.
  intros Hnn Hr. pose proof (validate_bitmap_attrs_spec attrs) as Hv.
  destruct (decide _) in Hv; [|done]. unfold Bitmap.from_known_attrs. rewrite Hv.
  by apply from_valid_attrs_spec.
Qed.

Lemma from_supported_attrs_spec supported attrs :
  Forall (λ a, 0 ≤ a) attrs → Forall attr_in_range attrs →
  ∃ b, Bitmap.from_supported_attrs supported attrs = Ok b
    ∧ ∀ a, 0 ≤ a → Bitmap.contains b a = bool_decide (a ∈ attrs) && Bitmap.contains supported a.
Proof.
  intros Hnn Hr. pose proof (validate_bitmap_attrs_spec attrs) as Hv.
  destruct (decide _) in Hv; [|done]. unfold Bitmap.from_supported_attrs. rewrite Hv.
  assert (∀ P, Forall P attrs → Forall P (List.filter (Bitmap.contains supported) attrs)) as Hsub.
  { intros P. rewrite !List.Forall_forall. setoid_rewrite filter_In. naive_solver. }
  pose proof (from_attrs_spec _ (Hsub _ Hnn)) as Hb. destruct (decide _) as [_|[]]; [|by apply Hsub].
  destruct Hb as (b & -> & Hb). exists b; split; [done|]. intros a Ha. rewrite Hb by done.
  destruct (Bitmap.contains supported a) eqn:E; rewrite ?andb_true_r, ?andb_false_r.
  - apply bool_decide_ext. rewrite !list_elem_of_In, filter_In. naive_solver.
  - apply bool_decide_eq_false. rewrite list_elem_of_In, filter_In. intros [? ?]; congruence.
Qed.

(** ** Listing a bitmap *)

Lemma elem_of_word_attrs i w a :
  0 ≤ i → a ∈ Bitmap.word_attrs i w ↔ a / 32 = i ∧ Z.testbit w (a mod 32) = true.
Proof.
  intros Hi. unfold Bitmap.word_attrs. rewrite list_elem_of_omap. setoid_rewrite elem_of_seqZ.
  split.
  - intros (bit & Hbit & Ha). rewrite land_bit_zero in Ha by lia.
    destruct (Z.testbit w bit) eqn:E; [|done]. simpl in Ha. injection Ha as <-.
    rewrite Z.add_comm, Z.div_add, Z_mod_plus_full by lia.
    rewrite Z.div_small, Z.mod_small by lia. by rewrite Z.add_0_l.
  - intros [<- Hb]. pose proof (Z.mod_pos_bound a 32). exists (a mod 32). split; [lia|].
    rewrite land_bit_zero, Hb by lia. simpl. f_equal. pose proof (Z.div_mod a 32). lia.
Qed.

Lemma elem_of_attrs b a : 0 ≤ a → a ∈ Bitmap.attrs b ↔ Bitmap.contains b a = true.
Proof.
  intros Ha. rewrite contains_bit_of. unfold Bitmap.attrs, bit_of.
  rewrite list_elem_of_join. pose proof (Z.div_pos a 32 Ha ltac:(lia)) as Hd. split.
  - intros (l & Hl & Hin). apply elem_of_lookup_imap in Hin as (i & w & -> & Hw).
    apply elem_of_word_attrs in Hl as [Hi Hb]; [|lia].
    replace (Z.to_nat (a / 32)) with i by lia. by rewrite Hw.
  - destruct (_ !! _) as [w|] eqn:Hw; [|done]. intros Hb.
    exists (Bitmap.word_attrs (Z.of_nat (Z.to_nat (a / 32))) w). split.
    + apply elem_of_word_attrs; [lia|]. split; [lia|done].
    + apply elem_of_lookup_imap. by exists (Z.to_nat (a / 32)), w.
Qed.

Lemma seqZ_ascending m n : StronglySorted Z.lt (seqZ m n).
Proof.
  destruct (decide (0 ≤ n)) as [Hn|]; [|rewrite seqZ_nil by lia; constructor].
  revert m. pattern n. apply natlike_ind; [|clear n Hn|done].
  - intros m. rewrite seqZ_nil by lia. constructor.
  - intros n Hn IH m. rewrite seqZ_cons by lia. rewrite Z.pred_succ. constructor; [apply IH|].
    apply list.Forall_forall. intros x Hx%elem_of_seqZ. lia.
Qed.

Lemma omap_ascending (f : Z → option Z) l :
  (∀ x y a b, x < y → f x = Some a → f y = Some b → a < b) →
  StronglySorted Z.lt l → StronglySorted Z.lt (omap f l).
Proof.
  intros Hf. induction 1 as [|x l Hs IH Hx]; [constructor|]. simpl.
  destruct (f x) as [a|] eqn:E; [|done]. constructor; [done|].
  apply list.Forall_forall. intros b (y & Hy & Hb)%list_elem_of_omap.
  rewrite list.Forall_forall in Hx. eapply Hf; [by apply Hx|done..].
Qed.

Lemma app_ascending l k :
  StronglySorted Z.lt l → StronglySorted Z.lt k → (∀ x y, x ∈ l → y ∈ k → x < y) →
  StronglySorted Z.lt (l ++ k).
Proof.
  induction 1 as [|x l Hs IH Hx]; intros Hk Hlt; [done|]. simpl. constructor.
  - apply IH; [done|]. set_solver.
  - apply Forall_app; split; [done|]. apply list.Forall_forall. set_solver.
Qed.

Lemma word_attrs_ascending i w : StronglySorted Z.lt (Bitmap.word_attrs i w).
Proof.
  apply omap_ascending; [|apply seqZ_ascending]. intros x y a b Hxy.
  destruct (_ =? 0); [done|]. intros [= <-]. destruct (_ =? 0); [done|]. intros [= <-]. lia.
Qed.

Lemma blocks_ascending (f : Z → Z → list Z) (ws : list Z) :
  (∀ i w, StronglySorted Z.lt (f i w)) → (∀ i w a, 0 ≤ i → a ∈ f i w → a / 32 = i) →
  ∀ k : nat, StronglySorted Z.lt (mjoin (imap (λ i w, f (Z.of_nat (k + i)) w) ws)).
Proof.
  intros Hs Hf. induction ws as [|w ws IH]; intros k; [constructor|]. cbn [imap mjoin list_join].
  apply app_ascending; [apply Hs|..].
  - specialize (IH (S k)). erewrite imap_ext; [exact IH|].
    intros i x _. simpl. by rewrite <- Nat.add_succ_r.
  - intros x y Hx (l & Hl & Hin)%list_elem_of_join.
    apply elem_of_lookup_imap in Hin as (i & w' & -> & _).
    apply Hf in Hx, Hl; [|lia..]. simpl in Hl.
    pose proof (Z.div_mod y 32). pose proof (Z.mod_pos_bound y 32).
    pose proof (Z.div_mod x 32). pose proof (Z.mod_pos_bound x 32). nia.
Qed.

(** [attrs] lists the attributes of a bitmap in ascending order, each once. *)
Lemma attrs_ascending b : StronglySorted Z.lt (Bitmap.attrs b).
Proof.
  refine (blocks_ascending Bitmap.word_attrs (Bitmap.words b) word_attrs_ascending _ O).
  by intros i w a Hi [? _]%elem_of_word_attrs.
Qed.

(** Two ascending lists with the same elements are equal. *)
Lemma ascending_ext l k :
  StronglySorted Z.lt l → StronglySorted Z.lt k → (∀ x, x ∈ l ↔ x ∈ k) → l = k.
Proof.
  intros Hl. revert k. induction Hl as [|x l Hs IH Hx]; intros k Hk Hext.
  { destruct k as [|y k]; [done|]. exfalso. apply (not_elem_of_nil y), Hext. set_solver. }
  destruct Hk as [|y k Hk Hy]; [exfalso; apply (not_elem_of_nil x), Hext; set_solver|].
  rewrite list.Forall_forall in Hx, Hy.
  assert (x = y) as ->.
  { pose proof (proj1 (Hext x) ltac:(set_solver)) as [|Hxk]%elem_of_cons; [done|].
    pose proof (proj2 (Hext y) ltac:(set_solver)) as [|Hyl]%elem_of_cons; [done|].
    specialize (Hx _ Hyl). specialize (Hy _ Hxk). lia. }
  f_equal. apply IH; [done|]. intros z. specialize (Hext z). rewrite !elem_of_cons in Hext.
  split; intros Hz.
  - destruct (proj1 Hext (or_intror Hz)) as [->|]; [|done]. specialize (Hx _ Hz). lia.
  - destruct (proj2 Hext (or_intror Hz)) as [->|]; [|done]. specialize (Hy _ Hz). lia.
Qed.

(** The bitmap of an ascending list lists exactly it. *)
Lemma attrs_of_list b l :
  (∀ a, a ∈ Bitmap.attrs b → 0 ≤ a) → StronglySorted Z.lt l → Forall (λ a, 0 ≤ a) l →
  (∀ a, 0 ≤ a → Bitmap.contains b a = bool_decide (a ∈ l)) → Bitmap.attrs b = l.
Proof.
  intros Hb Hl Hnn Hc. apply ascending_ext; [apply attrs_ascending|done|]. intros a. split.
  - intros Ha. specialize (Hb a Ha). apply elem_of_attrs in Ha; [|done].
    rewrite Hc in Ha by done. by apply bool_decide_eq_true in Ha.
  - intros Ha. rewrite list.Forall_forall in Hnn. specialize (Hnn a Ha).
    apply elem_of_attrs; [done|]. rewrite Hc by done. by apply bool_decide_eq_true.
Qed.

Lemma attrs_nonneg b a : a ∈ Bitmap.attrs b → 0 ≤ a.
Proof.
  unfold Bitmap.attrs. intros (l & Hl & Hin)%list_elem_of_join.
  apply elem_of_lookup_imap in Hin as (i & w & -> & _).
  apply elem_of_word_attrs in Hl as [Hi _]; [|lia].
  pose proof (Z.div_mod a 32). pose proof (Z.mod_pos_bound a 32). lia.
Qed.

(** The bitmap of the attributes [l], whatever their order. *)
Lemma attrs_of_built b l :
  Forall (λ a, 0 ≤ a) l → (∀ a, 0 ≤ a → Bitmap.contains b a = bool_decide (a ∈ l)) →
  ∀ a, a ∈ Bitmap.attrs b ↔ a ∈ l.
Proof.
  intros Hnn Hc a. split; intros Ha.
  - pose proof (attrs_nonneg _ _ Ha) as Hn. apply elem_of_attrs in Ha; [|done].
    rewrite Hc in Ha by done. by apply bool_decide_eq_true in Ha.
  - rewrite list.Forall_forall in Hnn. apply elem_of_attrs; [by apply Hnn|].
    rewrite Hc by by apply Hnn. by apply bool_decide_eq_true.
Qed.

(** ** Codecs *)

Definition FileHandle_ok (fh : FileHandle) : Prop := zlen (FileHandle.data fh) ≤ NFS4_FHSIZE.
Definition wire_FileHandle (fh : FileHandle) : list byte := wire_opaque (FileHandle.data fh).

#[export] Instance FileHandle_encode_to : EncodesTo FileHandle.encode wire_FileHandle FileHandle_ok.
Proof. apply encodes_writes. intros fh Hfh. apply writes_opaque. by apply opaque_ok_small. Qed.

#[export] Instance FileHandle_decode_from : DecodesFrom FileHandle.decode wire_FileHandle FileHandle_ok.
Proof.
  intros [bs] Hfh. unfold FileHandle.decode, read_opaque_vec, wire_FileHandle.
  reads_solve. by apply opaque_ok_small.
Qed.

#[export] Instance dec_safe_FileHandle : DecSafe FileHandle.decode.
Proof. unfold FileHandle.decode, read_opaque_vec. apply _. Qed.

Lemma try_into_array_ok n bs : zlen bs = n → try_into_array n bs = Ok bs.
Proof. unfold try_into_array. intros <-. by rewrite Z.eqb_refl. Qed.

Lemma try_into_array_safe n bs : fault_free (try_into_array n bs).
Proof. unfold try_into_array. by case_match. Qed.

(** A field of [n] bytes: [read_fixed_opaque(n)?.try_into()]. *)
Lemma reads_array n bs : zlen bs = n →
  reads (bytes ← read_fixed_opaque n; lift (try_into_array n bytes)) (wire_fixed bs) bs.
Proof.
  intros Hn. eapply reads_bind_last; [by apply read_fixed_opaque_from|].
  rewrite try_into_array_ok by done. apply reads_lift.
Qed.

#[export] Instance dec_safe_array n : TCEq (0 <=? n) true →
  DecSafe (bytes ← read_fixed_opaque n; lift (try_into_array n bytes)).
Proof.
  intros Hn%TCEq_eq%Z.leb_le. apply dec_safe_bind; [by apply dec_safe_read_fixed_opaque|].
  intros bs. apply dec_safe_lift, try_into_array_safe.
Qed.

Definition StateId_ok (s : StateId) : Prop := is_u32 (StateId.seqid s) ∧ zlen (StateId.other s) = 12.
Definition wire_StateId (s : StateId) : list byte :=
  wire_u32 (StateId.seqid s) ++ wire_fixed (StateId.other s).

#[export] Instance StateId_encode_to : EncodesTo StateId.encode wire_StateId (λ _, True).
Proof. apply encodes_writes. intros s _. unfold StateId.encode. writes_solve. Qed.

#[export] Instance StateId_decode_from : DecodesFrom StateId.decode wire_StateId StateId_ok.
Proof.
  intros [q bs] [H1 H2]. unfold StateId.decode, wire_StateId. cbn [StateId.seqid StateId.other] in *.
  eapply reads_bind; [reads_leaf|]. eapply reads_bind_last; [by apply read_fixed_opaque_from|].
  rewrite try_into_array_ok by done. apply reads_ret.
Qed.

#[export] Instance dec_safe_StateId : DecSafe StateId.decode.
Proof.
  unfold StateId.decode. apply dec_safe_bind; [apply _|]. intros q.
  apply dec_safe_bind; [by apply dec_safe_read_fixed_opaque|]. intros bs.
  apply dec_safe_bind; [apply dec_safe_lift, try_into_array_safe|apply _].
Qed.

#[export] Instance dec_safe_verifier : DecSafe decode_verifier.
Proof. apply dec_safe_array. by constructor. Qed.
#[export] Instance dec_safe_session_id : DecSafe decode_session_id.
Proof. apply dec_safe_array. by constructor. Qed.
#[export] Instance dec_safe_DeviceId : DecSafe DeviceId_decode.
Proof.
  apply dec_safe_bind; [by apply dec_safe_read_fixed_opaque|]. intros bs.
  apply dec_safe_bind; [apply dec_safe_lift, try_into_array_safe|apply _].
Qed.

Definition Bitmap_ok (b : Bitmap) : Prop := array_ok is_u32 NFS4_MAX_BITMAP_WORDS (Bitmap.words b).
Definition wire_Bitmap (b : Bitmap) : list byte := wire_array wire_u32 (Bitmap.words b).

Lemma array_ok_weaken {A} (P Q : A → Prop) max l :
  (∀ a, P a → Q a) → array_ok P max l → array_ok Q max l.
Proof. intros HPQ (? & ? & Hf). split_and!; [done..|]. by eapply list.Forall_impl. Qed.

#[export] Instance Bitmap_encode_to : EncodesTo Bitmap.encode wire_Bitmap Bitmap_ok.
Proof.
  apply encodes_writes. intros b Hb e. unfold Bitmap.encode.
  apply (write_array_to write_u32 wire_u32 (λ _, True)); [apply _|]. by eapply array_ok_weaken.
Qed.

#[export] Instance Bitmap_decode_from : DecodesFrom Bitmap.decode wire_Bitmap Bitmap_ok.
Proof. intros [ws] Hb. unfold Bitmap.decode, wire_Bitmap. reads_solve. Qed.

#[export] Instance dec_safe_Bitmap : DecSafe Bitmap.decode.
Proof. unfold Bitmap.decode. apply _. Qed.

Definition NfsTime_ok (t : NfsTime) : Prop :=
  is_i64 (NfsTime.seconds t) ∧ 0 ≤ NfsTime.nseconds t < NFS4_NSECONDS_PER_SECOND.
Definition wire_NfsTime (t : NfsTime) : list byte :=
  wire_u64 (NfsTime.seconds t) ++ wire_u32 (NfsTime.nseconds t).

Lemma NfsTime4_validate_ok t : NfsTime_ok t → NfsTime.validate t = Ok tt.
Proof.
  intros [_ H]. unfold NfsTime.validate, validate_nseconds. rewrite Z.geb_leb.
  destruct (Z.leb_spec NFS4_NSECONDS_PER_SECOND (NfsTime.nseconds t)); [lia|done].
Qed.

#[export] Instance NfsTime_encode_to : EncodesTo NfsTime.encode wire_NfsTime NfsTime_ok.
Proof.
  apply encodes_writes. intros t Ht. unfold NfsTime.encode. writes_solve.
  by apply NfsTime4_validate_ok.
Qed.

#[export] Instance NfsTime_decode_from : DecodesFrom NfsTime.decode wire_NfsTime NfsTime_ok.
Proof.
  intros [s n] Ht. pose proof (NfsTime4_validate_ok _ Ht) as Hv. destruct Ht as [Hs Hn].
  unfold NfsTime.decode, wire_NfsTime. cbn [NfsTime.seconds NfsTime.nseconds] in *.
  eapply reads_bind; [reads_leaf|]. eapply reads_bind_last.
  { reads_leaf. unfold is_u32, NFS4_NSECONDS_PER_SECOND, u32_max in *. lia. }
  rewrite Hv. apply reads_ret.
Qed.

#[export] Instance dec_safe_NfsTime : DecSafe NfsTime.decode.
Proof.
  unfold NfsTime.decode. apply dec_safe_bind; [apply _|]. intros s.
  apply dec_safe_bind; [apply _|]. intros n.
  apply dec_safe_bind; [|apply _]. apply dec_safe_lift.
  unfold NfsTime.validate, validate_nseconds. by case_match.
Qed.

Definition Fattr_ok (f : Fattr) : Prop :=
  Bitmap_ok (Fattr.attrmask f) ∧ opaque_ok NFS4_MAX_IO (Fattr.attr_vals f).
Definition wire_Fattr (f : Fattr) : list byte :=
  wire_Bitmap (Fattr.attrmask f) ++ wire_opaque (Fattr.attr_vals f).

#[export] Instance Fattr_encode_to : EncodesTo Fattr.encode wire_Fattr Fattr_ok.
Proof.
  apply encodes_writes. intros f [H1 H2]. unfold Fattr.encode. writes_solve.
Qed.

#[export] Instance Fattr_decode_from : DecodesFrom Fattr.decode wire_Fattr Fattr_ok.
Proof. intros [b v] [H1 H2]. unfold Fattr.decode, read_opaque_vec, wire_Fattr. reads_solve. Qed.

#[export] Instance dec_safe_Fattr : DecSafe Fattr.decode.
Proof. unfold Fattr.decode, read_opaque_vec. apply _. Qed.

(** ** Payloads *)

(** A field of a parsed record: its attribute, its value on the wire when the
    server sent it, and what parsing it does to the record. *)
Record field (P : Type) := mkField {
  field_id : Z;
  field_wire : option (list byte);
  field_set : P → P;
}.
Arguments mkField {P}.
Arguments field_id {P}.
Arguments field_wire {P}.
Arguments field_set {P}.

Definition opt_field {P V} (id : Z) (wire : V → list byte) (set : P → V → P) (v : option V) : field P :=
  mkField id (wire <$> v) (λ p, match v with Some v => set p v | None => p end).

Section payload.
Context {P : Type}.

Definition payload_ids (fs : list (field P)) : list Z :=
  omap (λ f, match field_wire f with Some _ => Some (field_id f) | None => None end) fs.
Definition payload_bytes (fs : list (field P)) : list byte := mjoin (omap field_wire fs).
Definition payload_set (fs : list (field P)) (p : P) : P :=
  fold_left (λ p f, match field_wire f with Some _ => field_set f p | None => p end) fs p.

(** [parse] reads the field [f]. *)
Definition reads_field (parse : Z → P → M Decoder Error P) (f : field P) : Prop :=
  ∀ p bs, field_wire f = Some bs → reads (parse (field_id f) p) bs (field_set f p).

Lemma reads_parse_each parse fs p :
  Forall (reads_field parse) fs →
  reads (parse_each parse (payload_ids fs) p) (payload_bytes fs) (payload_set fs p).
Proof.
  intros Hf. revert p. induction Hf as [|f fs Hf _ IH]; intros p; [apply reads_ret|].
  unfold payload_ids, payload_bytes, payload_set. cbn [omap list_omap fold_left].
  specialize (Hf p). destruct (field_wire f) as [bs|]; [|apply IH].
  cbn [parse_each mjoin list_join]. eapply reads_bind; [by apply Hf|apply IH].
Qed.

Lemma parse_attrs_fields parse unparsed mask fs :
  Forall (reads_field parse) fs → Bitmap.attrs mask = payload_ids fs →
  zlen (payload_bytes fs) ≤ isize_max →
  parse_attrs parse unparsed (Fattr.mkFattr mask (payload_bytes fs)) = Ok (payload_set fs unparsed).
Proof.
  intros Hf Hmask Hlen. unfold parse_attrs. cbn [Fattr.attrmask Fattr.attr_vals]. rewrite Hmask.
  erewrite bind_run by (apply reads_whole; [done|by apply reads_parse_each]).
  unfold xdr, map_err, mbind, M_bind. by rewrite finish_at_end.
Qed.

Lemma payload_ids_sub fs a : a ∈ payload_ids fs → a ∈ field_id <$> fs.
Proof.
  unfold payload_ids. intros (f & Hf & Ha)%list_elem_of_omap. apply list_elem_of_fmap.
  exists f. split; [|done]. destruct (field_wire f); naive_solver.
Qed.

Lemma payload_ids_ascending fs :
  StronglySorted Z.lt (field_id <$> fs) → StronglySorted Z.lt (payload_ids fs).
Proof.
  induction fs as [|f fs IH]; [constructor|]. inversion_clear 1 as [|? ? Hs Hf].
  unfold payload_ids. cbn [omap list_omap]. destruct (field_wire f); [|by apply IH].
  constructor; [by apply IH|]. rewrite list.Forall_forall in Hf |- *.
  intros a Ha. by apply Hf, payload_ids_sub.
Qed.

End payload.

(** A field whose parser is [store] of a decoder with a wire format. *)
Lemma reads_opt_field {P V} (parse : Z → P → M Decoder Error P) id dec (wire : V → list byte) ok
    (set : P → V → P) v :
  (∀ p, parse id p = store dec (set p)) → DecodesFrom dec wire ok → option_ok ok v →
  reads_field parse (opt_field id wire set v).
Proof.
  intros Hp Hd Hok p bs. unfold opt_field; simpl. destruct v as [v|]; [|done]. intros [= <-].
  rewrite Hp. unfold store. eapply reads_bind_last; [by apply reads_xdr, Hd|]. apply reads_ret.
Qed.

(** One field at a time: [Q] is the record as a function of the field. *)
Lemma payload_set_opt {P V} id (wire : V → list byte) (set : P → V → P) v fs p (Q : option V → P) :
  (∀ x, set p x = Q (Some x)) → p = Q None →
  payload_set (opt_field id wire set v :: fs) p = payload_set fs (Q v).
Proof. intros HS HN. unfold payload_set; simpl. destruct v; simpl; [by rewrite HS|by rewrite <- HN]. Qed.

(** Set the fields of a record one after the other. *)
Ltac payload_steps :=
  repeat (erewrite payload_set_opt;
    [|let x := fresh in intros x;
      match goal with |- ?l = _ => let l' := eval cbv in l in change l with l' end;
      generalize (Some x); intros; reflexivity|reflexivity]; cbv beta).

Definition file_type_code (t : FileType) : Z :=
  match t with
  | FileType.Regular => 1 | FileType.Directory => 2 | FileType.BlockDevice => 3
  | FileType.CharacterDevice => 4 | FileType.Symlink => 5 | FileType.Socket => 6
  | FileType.Fifo => 7 | FileType.AttrDir => 8 | FileType.NamedAttr => 9
  | FileType.Unknown v => v
  end.
Definition file_type_ok (t : FileType) : Prop :=
  match t with FileType.Unknown v => is_u32 v ∧ ¬ (1 ≤ v ≤ 9) | _ => True end.

Lemma file_type_round_trip t : file_type_ok t → FileType.from_u32 (file_type_code t) = t.
Proof.
  destruct t; try done. simpl. intros [_ Hv]. unfold FileType.from_u32. repeat case_match; lia || done.
Qed.

Lemma file_type_code_u32 t : file_type_ok t → is_u32 (file_type_code t).
Proof. destruct t; try done. by intros []. Qed.

(** The basic attributes a server sends. *)
Definition basic_fields (b : BasicAttributes) : list (field BasicAttributes) :=
  [opt_field FATTR4_TYPE (λ t, wire_u32 (file_type_code t)) BasicAttributes.with_file_type (BasicAttributes.file_type b);
   opt_field FATTR4_CHANGE wire_u64 BasicAttributes.with_change (BasicAttributes.change b);
   opt_field FATTR4_SIZE wire_u64 BasicAttributes.with_size (BasicAttributes.size b);
   opt_field FATTR4_FILEID wire_u64 BasicAttributes.with_fileid (BasicAttributes.fileid b);
   opt_field FATTR4_MODE wire_u32 BasicAttributes.with_mode (BasicAttributes.mode b);
   opt_field FATTR4_NUMLINKS wire_u32 BasicAttributes.with_numlinks (BasicAttributes.numlinks b);
   opt_field FATTR4_OWNER wire_opaque BasicAttributes.with_owner (BasicAttributes.owner b);
   opt_field FATTR4_OWNER_GROUP wire_opaque BasicAttributes.with_owner_group (BasicAttributes.owner_group b);
   opt_field FATTR4_SPACE_USED wire_u64 BasicAttributes.with_space_used (BasicAttributes.space_used b);
   opt_field FATTR4_TIME_ACCESS wire_NfsTime BasicAttributes.with_access_time (BasicAttributes.access_time b);
   opt_field FATTR4_TIME_METADATA wire_NfsTime BasicAttributes.with_metadata_time (BasicAttributes.metadata_time b);
   opt_field FATTR4_TIME_MODIFY wire_NfsTime BasicAttributes.with_modify_time (BasicAttributes.modify_time b)].

Record basic_ok (b : BasicAttributes) : Prop := {
  basic_type_ok : option_ok file_type_ok (BasicAttributes.file_type b);
  basic_change_ok : option_ok is_u64 (BasicAttributes.change b);
  basic_size_ok : option_ok is_u64 (BasicAttributes.size b);
  basic_fileid_ok : option_ok is_u64 (BasicAttributes.fileid b);
  basic_mode_ok : option_ok is_u32 (BasicAttributes.mode b);
  basic_numlinks_ok : option_ok is_u32 (BasicAttributes.numlinks b);
  basic_owner_ok : option_ok (string_ok NFS4_OPAQUE_LIMIT) (BasicAttributes.owner b);
  basic_owner_group_ok : option_ok (string_ok NFS4_OPAQUE_LIMIT) (BasicAttributes.owner_group b);
  basic_space_used_ok : option_ok is_u64 (BasicAttributes.space_used b);
  basic_access_time_ok : option_ok NfsTime_ok (BasicAttributes.access_time b);
  basic_metadata_time_ok : option_ok NfsTime_ok (BasicAttributes.metadata_time b);
  basic_modify_time_ok : option_ok NfsTime_ok (BasicAttributes.modify_time b);
}.

Lemma reads_file_type_field parsed t :
  file_type_ok t →
  reads (store read_u32 (λ v, BasicAttributes.with_file_type parsed (FileType.from_u32 v)))
    (wire_u32 (file_type_code t)) (BasicAttributes.with_file_type parsed t).
Proof.
  intros Ht. unfold store. eapply reads_bind_last; [by apply reads_xdr, read_u32_from, file_type_code_u32|].
  rewrite file_type_round_trip by done. apply reads_ret.
Qed.

(** Each field of [basic_fields] is read by [basic_attr]. *)
Lemma basic_fields_read b : basic_ok b → Forall (reads_field basic_attr) (basic_fields b).
Proof.
  intros []. unfold basic_fields. repeat apply Forall_cons_2; try apply Forall_nil_2.
  { intros p bs. unfold opt_field; simpl. destruct (BasicAttributes.file_type b); [|done].
    intros [= <-]. by apply reads_file_type_field. }
  all: eapply reads_opt_field; [intros; reflexivity|apply _|eassumption].
Qed.

(** Setting every field of [b] gives [b]. *)
Lemma basic_fields_set b :
  payload_set (basic_fields b) (BasicAttributes.unparsed (BasicAttributes.raw b)) = b.
Proof.
  destruct b. unfold basic_fields, BasicAttributes.unparsed. payload_steps. reflexivity.
Qed.

(** [parse_basic] reads back the attributes a server sent. *)
Lemma parse_basic_spec b mask :
  basic_ok b → Bitmap.attrs mask = payload_ids (basic_fields b) →
  BasicAttributes.raw b = Fattr.mkFattr mask (payload_bytes (basic_fields b)) →
  zlen (payload_bytes (basic_fields b)) ≤ isize_max →
  parse_basic (BasicAttributes.raw b) = Ok b.
Proof.
  intros Hb Hmask Hraw Hlen. unfold parse_basic. rewrite <- (basic_fields_set b) at 3.
  rewrite Hraw at 2. apply parse_attrs_fields; [by apply basic_fields_read|done..].
Qed.

Definition fsstat_fields (b : FsStat.FsStat) : list (field FsStat.FsStat) :=
  [opt_field FATTR4_FILES_AVAIL wire_u64 FsStat.with_available_files (FsStat.available_files b);
   opt_field FATTR4_FILES_FREE wire_u64 FsStat.with_free_files (FsStat.free_files b);
   opt_field FATTR4_FILES_TOTAL wire_u64 FsStat.with_total_files (FsStat.total_files b);
   opt_field FATTR4_SPACE_AVAIL wire_u64 FsStat.with_available_bytes (FsStat.available_bytes b);
   opt_field FATTR4_SPACE_FREE wire_u64 FsStat.with_free_bytes (FsStat.free_bytes b);
   opt_field FATTR4_SPACE_TOTAL wire_u64 FsStat.with_total_bytes (FsStat.total_bytes b)].

Record fsstat_ok (b : FsStat.FsStat) : Prop := {
  fsstat_available_files_ok : option_ok is_u64 (FsStat.available_files b);
  fsstat_free_files_ok : option_ok is_u64 (FsStat.free_files b);
  fsstat_total_files_ok : option_ok is_u64 (FsStat.total_files b);
  fsstat_available_bytes_ok : option_ok is_u64 (FsStat.available_bytes b);
  fsstat_free_bytes_ok : option_ok is_u64 (FsStat.free_bytes b);
  fsstat_total_bytes_ok : option_ok is_u64 (FsStat.total_bytes b);
}.

Lemma parse_fsstat_spec b mask :
  fsstat_ok b → Bitmap.attrs mask = payload_ids (fsstat_fields b) →
  FsStat.raw b = Fattr.mkFattr mask (payload_bytes (fsstat_fields b)) →
  zlen (payload_bytes (fsstat_fields b)) ≤ isize_max →
  parse_fsstat (FsStat.raw b) = Ok b.
Proof.
  intros Hb Hmask Hraw Hlen.
  assert (payload_set (fsstat_fields b) (FsStat.unparsed (FsStat.raw b)) = b) as Hset.
  { clear. destruct b. unfold fsstat_fields, FsStat.unparsed. payload_steps. reflexivity. }
  unfold parse_fsstat. rewrite <- Hset at 3. rewrite Hraw at 2. apply parse_attrs_fields; [|done..].
  destruct Hb. repeat apply Forall_cons_2; try apply Forall_nil_2.
  all: eapply reads_opt_field; [intros; reflexivity|apply _|eassumption].
Qed.

Definition fsinfo_fields (b : FsInfo.FsInfo) : list (field FsInfo.FsInfo) :=
  [opt_field FATTR4_FH_EXPIRE_TYPE wire_u32 FsInfo.with_fh_expire_type (FsInfo.fh_expire_type b);
   opt_field FATTR4_LINK_SUPPORT wire_bool FsInfo.with_link_support (FsInfo.link_support b);
   opt_field FATTR4_SYMLINK_SUPPORT wire_bool FsInfo.with_symlink_support (FsInfo.symlink_support b);
   opt_field FATTR4_UNIQUE_HANDLES wire_bool FsInfo.with_unique_handles (FsInfo.unique_handles b);
   opt_field FATTR4_LEASE_TIME wire_u32 FsInfo.with_lease_time_seconds (FsInfo.lease_time_seconds b);
   opt_field FATTR4_CANSETTIME wire_bool FsInfo.with_can_set_time (FsInfo.can_set_time b);
   opt_field FATTR4_HOMOGENEOUS wire_bool FsInfo.with_homogeneous (FsInfo.homogeneous b);
   opt_field FATTR4_MAXFILESIZE wire_u64 FsInfo.with_max_file_size (FsInfo.max_file_size b);
   opt_field FATTR4_MAXREAD wire_u64 FsInfo.with_max_read (FsInfo.max_read b);
   opt_field FATTR4_MAXWRITE wire_u64 FsInfo.with_max_write (FsInfo.max_write b);
   opt_field FATTR4_TIME_DELTA wire_NfsTime FsInfo.with_time_delta (FsInfo.time_delta b)].

Record fsinfo_ok (b : FsInfo.FsInfo) : Prop := {
  fsinfo_fh_expire_type_ok : option_ok is_u32 (FsInfo.fh_expire_type b);
  fsinfo_link_support_ok : option_ok (λ _, True) (FsInfo.link_support b);
  fsinfo_symlink_support_ok : option_ok (λ _, True) (FsInfo.symlink_support b);
  fsinfo_unique_handles_ok : option_ok (λ _, True) (FsInfo.unique_handles b);
  fsinfo_lease_time_seconds_ok : option_ok is_u32 (FsInfo.lease_time_seconds b);
  fsinfo_can_set_time_ok : option_ok (λ _, True) (FsInfo.can_set_time b);
  fsinfo_homogeneous_ok : option_ok (λ _, True) (FsInfo.homogeneous b);
  fsinfo_max_file_size_ok : option_ok is_u64 (FsInfo.max_file_size b);
  fsinfo_max_read_ok : option_ok is_u64 (FsInfo.max_read b);
  fsinfo_max_write_ok : option_ok is_u64 (FsInfo.max_write b);
  fsinfo_time_delta_ok : option_ok NfsTime_ok (FsInfo.time_delta b);
}.

Lemma parse_fsinfo_spec b mask :
  fsinfo_ok b → Bitmap.attrs mask = payload_ids (fsinfo_fields b) →
  FsInfo.raw b = Fattr.mkFattr mask (payload_bytes (fsinfo_fields b)) →
  zlen (payload_bytes (fsinfo_fields b)) ≤ isize_max →
  parse_fsinfo (FsInfo.raw b) = Ok b.
Proof.
  intros Hb Hmask Hraw Hlen.
  assert (payload_set (fsinfo_fields b) (FsInfo.unparsed (FsInfo.raw b)) = b) as Hset.
  { clear. destruct b. unfold fsinfo_fields, FsInfo.unparsed. payload_steps. reflexivity. }
  unfold parse_fsinfo. rewrite <- Hset at 3. rewrite Hraw at 2. apply parse_attrs_fields; [|done..].
  destruct Hb. repeat apply Forall_cons_2; try apply Forall_nil_2.
  all: eapply reads_opt_field; [intros; reflexivity|apply _|eassumption].
Qed.

Definition pathconf_fields (b : PathConf.PathConf) : list (field PathConf.PathConf) :=
  [opt_field FATTR4_CASE_INSENSITIVE wire_bool PathConf.with_case_insensitive (PathConf.case_insensitive b);
   opt_field FATTR4_CASE_PRESERVING wire_bool PathConf.with_case_preserving (PathConf.case_preserving b);
   opt_field FATTR4_CHOWN_RESTRICTED wire_bool PathConf.with_chown_restricted (PathConf.chown_restricted b);
   opt_field FATTR4_MAXLINK wire_u32 PathConf.with_link_max (PathConf.link_max b);
   opt_field FATTR4_MAXNAME wire_u32 PathConf.with_name_max (PathConf.name_max b);
   opt_field FATTR4_NO_TRUNC wire_bool PathConf.with_no_trunc (PathConf.no_trunc b)].

Record pathconf_ok (b : PathConf.PathConf) : Prop := {
  pathconf_case_insensitive_ok : option_ok (λ _, True) (PathConf.case_insensitive b);
  pathconf_case_preserving_ok : option_ok (λ _, True) (PathConf.case_preserving b);
  pathconf_chown_restricted_ok : option_ok (λ _, True) (PathConf.chown_restricted b);
  pathconf_link_max_ok : option_ok is_u32 (PathConf.link_max b);
  pathconf_name_max_ok : option_ok is_u32 (PathConf.name_max b);
  pathconf_no_trunc_ok : option_ok (λ _, True) (PathConf.no_trunc b);
}.

Lemma parse_pathconf_spec b mask :
  pathconf_ok b → Bitmap.attrs mask = payload_ids (pathconf_fields b) →
  PathConf.raw b = Fattr.mkFattr mask (payload_bytes (pathconf_fields b)) →
  zlen (payload_bytes (pathconf_fields b)) ≤ isize_max →
  parse_pathconf (PathConf.raw b) = Ok b.
Proof.
  intros Hb Hmask Hraw Hlen.
  assert (payload_set (pathconf_fields b) (PathConf.unparsed (PathConf.raw b)) = b) as Hset.
  { clear. destruct b. unfold pathconf_fields, PathConf.unparsed. payload_steps. reflexivity. }
  unfold parse_pathconf. rewrite <- Hset at 3. rewrite Hraw at 2. apply parse_attrs_fields; [|done..].
  destruct Hb. repeat apply Forall_cons_2; try apply Forall_nil_2.
  all: eapply reads_opt_field; [intros; reflexivity|apply _|eassumption].
Qed.

(** ** Settable attributes *)

(** The value SETATTR carries for a time that is changed. *)
Definition wire_set_time (t : SetTime) : option (list byte) :=
  match t with
  | SetTime.DontChange => None
  | SetTime.ServerTime => Some (wire_u32 0)
  | SetTime.ClientTime t => Some (wire_u32 1 ++ wire_NfsTime t)
  end.
Definition set_time_ok (t : SetTime) : Prop :=
  match t with SetTime.ClientTime t => NfsTime_ok t | _ => True end.

(** The attributes [a] sets, with their values, in the order of the bitmap. *)
Definition set_fields (a : SetAttrs) : list (field unit) :=
  [mkField FATTR4_SIZE (wire_u64 <$> SetAttrs.size a) id;
   mkField FATTR4_MODE (wire_u32 <$> SetAttrs.mode a) id;
   mkField FATTR4_OWNER (wire_opaque <$> SetAttrs.owner a) id;
   mkField FATTR4_OWNER_GROUP (wire_opaque <$> SetAttrs.owner_group a) id;
   mkField FATTR4_TIME_ACCESS_SET (wire_set_time (SetAttrs.access_time a)) id;
   mkField FATTR4_TIME_MODIFY_SET (wire_set_time (SetAttrs.modify_time a)) id].

Record set_attrs_ok (a : SetAttrs) : Prop := {
  set_owner_ok : option_ok (opaque_ok NFS4_OPAQUE_LIMIT) (SetAttrs.owner a);
  set_owner_group_ok : option_ok (opaque_ok NFS4_OPAQUE_LIMIT) (SetAttrs.owner_group a);
  set_access_time_ok : set_time_ok (SetAttrs.access_time a);
  set_modify_time_ok : set_time_ok (SetAttrs.modify_time a);
}.

(** [m] appends the values of [fs], and adds their attributes to the list. *)
Definition pushes (m : list Z → M Encoder XdrError (list Z)) (fs : list (field unit)) : Prop :=
  ∀ ids e, m ids e = (mkEncoder (enc_bytes e ++ payload_bytes fs), Ok (ids ++ payload_ids fs)).

Lemma pushes_attr {A} id (write : A → M Encoder XdrError unit) wire ok v :
  EncodesTo write wire ok → option_ok ok v → pushes (Fattr.push_attr id write v) [mkField id (wire <$> v) Datatypes.id].
Proof.
  intros Hw Hv ids [bs]. unfold Fattr.push_attr, payload_bytes, payload_ids.
  destruct v as [v|]; cbn -[app]; rewrite ?app_nil_r; [|done].
  by rewrite (bind_run _ _ _ _ _ (Hw v _ Hv)).
Qed.

Lemma pushes_time id t :
  set_time_ok t → pushes (Fattr.push_time id t) [mkField id (wire_set_time t) Datatypes.id].
Proof.
  intros Ht ids [bs]. unfold Fattr.push_time, payload_bytes, payload_ids.
  destruct t as [| |t]; cbn -[app encode_set_time wire_u32 mbind]; rewrite ?app_nil_r; [done|..].
  all: rewrite bool_decide_eq_false_2 by done.
  - erewrite bind_run; [done|]. by apply (writes_seq_ret (write_u32 0)), writes_u32.
  - erewrite bind_run; [done|].
    refine (writes_seq_ret _ (wire_u32 1 ++ wire_NfsTime t) _ (mkEncoder bs)).
    apply writes_lift_ok; [by apply NfsTime4_validate_ok|]. apply writes_seq; writes_solve.
Qed.

Lemma pushes_bind m k fs gs :
  pushes m fs → pushes k gs → pushes (λ ids, ids ← m ids; k ids) (fs ++ gs).
Proof.
  intros Hm Hk ids e. rewrite (bind_run _ _ _ _ _ (Hm ids e)), Hk. cbn [enc_bytes].
  unfold payload_bytes, payload_ids. by rewrite !omap_app, join_app, <- !app_assoc.
Qed.

Lemma write_set_attrs_spec a :
  set_attrs_ok a →
  Fattr.write_set_attrs a Encoder_new
  = (mkEncoder (payload_bytes (set_fields a)), Ok (payload_ids (set_fields a))).
Proof.
  intros []. change (set_fields a) with
    ([mkField FATTR4_SIZE (wire_u64 <$> SetAttrs.size a) (@id unit)] ++
     [mkField FATTR4_MODE (wire_u32 <$> SetAttrs.mode a) id] ++
     [mkField FATTR4_OWNER (wire_opaque <$> SetAttrs.owner a) id] ++
     [mkField FATTR4_OWNER_GROUP (wire_opaque <$> SetAttrs.owner_group a) id] ++
     [mkField FATTR4_TIME_ACCESS_SET (wire_set_time (SetAttrs.access_time a)) id] ++
     [mkField FATTR4_TIME_MODIFY_SET (wire_set_time (SetAttrs.modify_time a)) id]).
  refine (pushes_bind _ _ _ _ _ (pushes_bind _ _ _ _ _ (pushes_bind _ _ _ _ _
    (pushes_bind _ _ _ _ _ (pushes_bind _ _ _ _ _ _)))) [] Encoder_new).
  all: try by apply pushes_time.
  - apply (pushes_attr _ _ _ (λ _, True)); [apply _|by destruct (SetAttrs.size a)].
  - apply (pushes_attr _ _ _ (λ _, True)); [apply _|by destruct (SetAttrs.mode a)].
  - apply (pushes_attr _ _ _ (opaque_ok NFS4_OPAQUE_LIMIT)); [apply _|done].
  - apply (pushes_attr _ _ _ (opaque_ok NFS4_OPAQUE_LIMIT)); [apply _|done].
Qed.

Lemma set_field_ids_known a :
  StronglySorted Z.lt (field_id <$> set_fields a) ∧ Forall (λ i, 0 ≤ i) (field_id <$> set_fields a)
  ∧ Forall attr_in_range (field_id <$> set_fields a).
Proof.
  cbn. split_and!; repeat constructor; by vm_compute.
Qed.

(** The payload of SETATTR: the values in the order of the bitmap. *)
Lemma from_set_attrs_spec a :
  set_attrs_ok a →
  ∃ mask, Fattr.from_set_attrs a = Ok (Fattr.mkFattr mask (payload_bytes (set_fields a)))
    ∧ Bitmap.attrs mask = payload_ids (set_fields a).
Proof.
  intros Ha. destruct (set_field_ids_known a) as (Hs & Hn & Hr).
  assert (∀ P, Forall P (field_id <$> set_fields a) → Forall P (payload_ids (set_fields a))) as Hsub.
  { intros P. rewrite !list.Forall_forall. intros HP i Hi. by apply HP, payload_ids_sub. }
  destruct (from_known_attrs_spec (E := Error) (payload_ids (set_fields a))) as (mask & Hm & Hc); [by apply Hsub..|].
  exists mask. split.
  - unfold Fattr.from_set_attrs, Fattr.assemble. rewrite write_set_attrs_spec by done. by rewrite Hm.
  - apply attrs_of_list; [apply attrs_nonneg|by apply payload_ids_ascending|by apply Hsub|done].
Qed.
