(* ===== verification/V4Ops.v ===== *)
(** * NFSv4 operations (src/src/v4/proto.rs)

    The arguments of every operation of a COMPOUND with their encoders, and
    [CompoundArgs].  A type with its methods is a module of the type's name;
    the constructor [None] of an enum is [None_]. *)

From Stdlib Require Import Strings.String Strings.Byte.
From S2P Require Import Prelude Text Xdr Status Errors Rpc V4Attr.
Import FileHandle (FileHandle).
Import StateId (StateId).
Import Bitmap (Bitmap).
Import NfsTime (NfsTime).
Import Fattr (Fattr).

#[local] Open Scope Z_scope.

Definition DEFAULT_SESSION_CHANNEL_SIZE : Z := 1024 * 1024.
Definition NF4DIR : Z := 2.
Definition NF4BLK : Z := 3.
Definition NF4CHR : Z := 4.
Definition NF4LNK : Z := 5.
Definition NF4SOCK : Z := 6.
Definition NF4FIFO : Z := 7.
Definition EXCHGID4_FLAG_USE_NON_PNFS : Z := 65536.
Definition SEQ4_STATUS_EXPIRED_ALL_STATE_REVOKED : Z := 8.
Definition SEQ4_STATUS_EXPIRED_SOME_STATE_REVOKED : Z := 16.
Definition SEQ4_STATUS_ADMIN_STATE_REVOKED : Z := 32.
Definition OPEN4_SHARE_ACCESS_READ : Z := 1.
Definition OPEN4_SHARE_ACCESS_WRITE : Z := 2.
Definition OPEN4_SHARE_ACCESS_BOTH : Z := 3.
Definition OPEN4_SHARE_ACCESS_WANT_NO_DELEG : Z := 1024.
Definition OPEN4_SHARE_DENY_NONE : Z := 0.
Definition OPEN4_RESULT_CONFIRM : Z := 2.
Definition NFS4_CONTENT_DATA : Z := 0.
Definition NFS4_CONTENT_HOLE : Z := 1.
Definition AUTH_NONE : Z := 0.
Definition AUTH_SYS : Z := 1.
Definition RPCSEC_GSS : Z := 6.
Definition RPC_GSS_SVC_NONE : Z := 1.
Definition RPC_GSS_SVC_INTEGRITY : Z := 2.
Definition RPC_GSS_SVC_PRIVACY : Z := 3.
Definition LAYOUT4_NFSV4_1_FILES : Z := 1.
Definition LAYOUT4_OSD2_OBJECTS : Z := 2.
Definition LAYOUT4_BLOCK_VOLUME : Z := 3.
Definition LAYOUTIOMODE4_READ : Z := 1.
Definition LAYOUTIOMODE4_RW : Z := 2.
Definition LAYOUTIOMODE4_ANY : Z := 3.
Definition LAYOUTRETURN4_FILE : Z := 1.
Definition LAYOUTRETURN4_FSID : Z := 2.
Definition LAYOUTRETURN4_ALL : Z := 3.

(** ** Security *)

Module RpcGssService.

Inductive RpcGssService :=
  | None_
  | Integrity
  | Privacy
  | Unknown (value : Z).

#[global] Instance RpcGssService_eq_dec : EqDecision RpcGssService.
Proof. solve_decision. Defined.

Definition as_u32 (self : RpcGssService) : Z :=
  match self with
  | None_ => RPC_GSS_SVC_NONE
  | Integrity => RPC_GSS_SVC_INTEGRITY
  | Privacy => RPC_GSS_SVC_PRIVACY
  | Unknown value => value
  end.

Definition from_u32 (value : Z) : RpcGssService :=
  if value =? RPC_GSS_SVC_NONE then None_ else
  if value =? RPC_GSS_SVC_INTEGRITY then Integrity else
  if value =? RPC_GSS_SVC_PRIVACY then Privacy else
  Unknown value.

End RpcGssService.
Import RpcGssService (RpcGssService).

Module NetAddr.

Record NetAddr := mkNetAddr {
  netid : str;
  addr : str;
}.

Definition encode (self : NetAddr) : M Encoder XdrError unit :=
  write_string (netid self) NFS4_OPAQUE_LIMIT ;;
  write_string (addr self) NFS4_OPAQUE_LIMIT.

Definition decode : M Decoder XdrError NetAddr :=
  netid ← read_string NFS4_OPAQUE_LIMIT;
  addr ← read_string NFS4_OPAQUE_LIMIT;
  mret (mkNetAddr netid addr).

End NetAddr.
Import NetAddr (NetAddr).

Module CallbackSecParms.

Inductive CallbackSecParms :=
  | AuthNone
  | AuthSys (auth : AuthSys)
  | RpcSecGss (service : RpcGssService) (handle_from_server : list byte) (handle_from_client : list byte).

Definition encode (self : CallbackSecParms) : M Encoder XdrError unit :=
  match self with
  | AuthNone => write_u32 AUTH_NONE ;; mret tt
  | AuthSys auth =>
      write_u32 AUTH_SYS ;;
      AuthSys_encode auth
  | RpcSecGss service handle_from_server handle_from_client =>
      write_u32 RPCSEC_GSS ;;
      write_u32 (RpcGssService.as_u32 service) ;;
      write_opaque handle_from_server NFS4_OPAQUE_LIMIT ;;
      write_opaque handle_from_client NFS4_OPAQUE_LIMIT
  end.

End CallbackSecParms.
Import CallbackSecParms (CallbackSecParms).

Module SecInfoStyle.

Inductive SecInfoStyle :=
  | CurrentFileHandle | Parent.

#[global] Instance SecInfoStyle_eq_dec : EqDecision SecInfoStyle.
Proof. solve_decision. Defined.

Definition as_u32 (self : SecInfoStyle) : Z :=
  match self with
  | CurrentFileHandle => 0
  | Parent => 1
  end.

Definition from_u32 (value : Z) : option SecInfoStyle :=
  match value with
  | 0 => Some CurrentFileHandle
  | 1 => Some Parent
  | _ => None
  end.

End SecInfoStyle.
Import SecInfoStyle (SecInfoStyle).

Module StateProtectHow.

Inductive StateProtectHow :=
  | None_ | MachineCredentials | SecretStateVerifier.

#[global] Instance StateProtectHow_eq_dec : EqDecision StateProtectHow.
Proof. solve_decision. Defined.

Definition as_u32 (self : StateProtectHow) : Z :=
  match self with
  | None_ => 0
  | MachineCredentials => 1
  | SecretStateVerifier => 2
  end.

Definition from_u32 (value : Z) : option StateProtectHow :=
  match value with
  | 0 => Some None_
  | 1 => Some MachineCredentials
  | 2 => Some SecretStateVerifier
  | _ => None
  end.

End StateProtectHow.
Import StateProtectHow (StateProtectHow).

(** ** Clients and sessions *)

Module ClientOwner.

Record ClientOwner := mkClientOwner {
  verifier : list byte;
  owner_id : list byte;
}.

Definition encode (self : ClientOwner) : M Encoder XdrError unit :=
  write_fixed_opaque (verifier self) ;;
  write_opaque (owner_id self) NFS4_OPAQUE_LIMIT.

End ClientOwner.
Import ClientOwner (ClientOwner).

Module CallbackClient.

Record CallbackClient := mkCallbackClient {
  program : Z;
  location : NetAddr;
}.

Definition encode (self : CallbackClient) : M Encoder XdrError unit :=
  write_u32 (program self) ;;
  NetAddr.encode (location self).

End CallbackClient.
Import CallbackClient (CallbackClient).

Module SetClientIdArgs.

Record SetClientIdArgs := mkSetClientIdArgs {
  client : ClientOwner;
  callback : CallbackClient;
  callback_ident : Z;
}.

Definition encode (self : SetClientIdArgs) : M Encoder XdrError unit :=
  ClientOwner.encode (client self) ;;
  CallbackClient.encode (callback self) ;;
  write_u32 (callback_ident self) ;;
  mret tt.

End SetClientIdArgs.
Import SetClientIdArgs (SetClientIdArgs).

Module SetClientIdConfirmArgs.

Record SetClientIdConfirmArgs := mkSetClientIdConfirmArgs {
  client_id : Z;
  verifier : list byte;
}.

Definition encode (self : SetClientIdConfirmArgs) : M Encoder XdrError unit :=
  write_u64 (client_id self) ;;
  write_fixed_opaque (verifier self) ;;
  mret tt.

End SetClientIdConfirmArgs.
Import SetClientIdConfirmArgs (SetClientIdConfirmArgs).

Module ExchangeIdArgs.

Record ExchangeIdArgs := mkExchangeIdArgs {
  client_owner : ClientOwner;
  flags : Z;
}.

Definition encode (self : ExchangeIdArgs) : M Encoder XdrError unit :=
  ClientOwner.encode (client_owner self) ;;
  write_u32 (flags self) ;;
  write_u32 (StateProtectHow.as_u32 StateProtectHow.None_) ;;
  write_u32 0 ;;
  mret tt.

End ExchangeIdArgs.
Import ExchangeIdArgs (ExchangeIdArgs).

Module ChannelAttrs.

Record ChannelAttrs := mkChannelAttrs {
  header_pad_size : Z;
  max_request_size : Z;
  max_response_size : Z;
  max_response_size_cached : Z;
  max_operations : Z;
  max_requests : Z;
  rdma_ird : list Z;
}.

Definition fore_channel_default : ChannelAttrs :=
  mkChannelAttrs 0 DEFAULT_SESSION_CHANNEL_SIZE DEFAULT_SESSION_CHANNEL_SIZE
    DEFAULT_SESSION_CHANNEL_SIZE 64 1 [].

Definition back_channel_disabled : ChannelAttrs :=
  mkChannelAttrs 0 DEFAULT_SESSION_CHANNEL_SIZE DEFAULT_SESSION_CHANNEL_SIZE
    DEFAULT_SESSION_CHANNEL_SIZE 8 1 [].

Definition encode (self : ChannelAttrs) : M Encoder XdrError unit :=
  write_u32 (header_pad_size self) ;;
  write_u32 (max_request_size self) ;;
  write_u32 (max_response_size self) ;;
  write_u32 (max_response_size_cached self) ;;
  write_u32 (max_operations self) ;;
  write_u32 (max_requests self) ;;
  write_array write_u32 (rdma_ird self) 1 ;;
  mret tt.

Definition decode : M Decoder XdrError ChannelAttrs :=
  header_pad_size ← read_u32;
  max_request_size ← read_u32;
  max_response_size ← read_u32;
  max_response_size_cached ← read_u32;
  max_operations ← read_u32;
  max_requests ← read_u32;
  rdma_ird ← read_array read_u32 1;
  mret (mkChannelAttrs header_pad_size max_request_size max_response_size
          max_response_size_cached max_operations max_requests rdma_ird).

End ChannelAttrs.
Import ChannelAttrs (ChannelAttrs).

Module CreateSessionArgs.

Record CreateSessionArgs := mkCreateSessionArgs {
  client_id : Z;
  sequence_id : Z;
  flags : Z;
  fore_channel_attrs : ChannelAttrs;
  back_channel_attrs : ChannelAttrs;
  callback_program : Z;
  callback_sec_parms : list CallbackSecParms;
}.

Definition encode (self : CreateSessionArgs) : M Encoder XdrError unit :=
  write_u64 (client_id self) ;;
  write_u32 (sequence_id self) ;;
  write_u32 (flags self) ;;
  ChannelAttrs.encode (fore_channel_attrs self) ;;
  ChannelAttrs.encode (back_channel_attrs self) ;;
  write_u32 (callback_program self) ;;
  write_array CallbackSecParms.encode (callback_sec_parms self) NFS4_MAX_CALLBACK_SEC_PARMS ;;
  mret tt.

End CreateSessionArgs.
Import CreateSessionArgs (CreateSessionArgs).

Module BackchannelCtlArgs.

Record BackchannelCtlArgs := mkBackchannelCtlArgs {
  callback_program : Z;
  callback_sec_parms : list CallbackSecParms;
}.

Definition encode (self : BackchannelCtlArgs) : M Encoder XdrError unit :=
  write_u32 (callback_program self) ;;
  write_array CallbackSecParms.encode (callback_sec_parms self) NFS4_MAX_CALLBACK_SEC_PARMS.

End BackchannelCtlArgs.
Import BackchannelCtlArgs (BackchannelCtlArgs).

Module SequenceArgs.

Record SequenceArgs := mkSequenceArgs {
  session_id : list byte;
  sequence_id : Z;
  slot_id : Z;
  highest_slot_id : Z;
  cache_this : bool;
}.

Definition encode (self : SequenceArgs) : M Encoder XdrError unit :=
  write_fixed_opaque (session_id self) ;;
  write_u32 (sequence_id self) ;;
  write_u32 (slot_id self) ;;
  write_u32 (highest_slot_id self) ;;
  write_bool (cache_this self) ;;
  mret tt.

End SequenceArgs.
Import SequenceArgs (SequenceArgs).

Module ChannelDirFromClient.

Inductive ChannelDirFromClient :=
  | Fore | Back | ForeOrBoth | BackOrBoth.

#[global] Instance ChannelDirFromClient_eq_dec : EqDecision ChannelDirFromClient.
Proof. solve_decision. Defined.

Definition as_u32 (self : ChannelDirFromClient) : Z :=
  match self with
  | Fore => 1
  | Back => 2
  | ForeOrBoth => 3
  | BackOrBoth => 7
  end.

Definition from_u32 (value : Z) : option ChannelDirFromClient :=
  match value with
  | 1 => Some Fore
  | 2 => Some Back
  | 3 => Some ForeOrBoth
  | 7 => Some BackOrBoth
  | _ => None
  end.

End ChannelDirFromClient.
Import ChannelDirFromClient (ChannelDirFromClient).

Module ChannelDirFromServer.

Inductive ChannelDirFromServer :=
  | Fore | Back | Both.

#[global] Instance ChannelDirFromServer_eq_dec : EqDecision ChannelDirFromServer.
Proof. solve_decision. Defined.

Definition as_u32 (self : ChannelDirFromServer) : Z :=
  match self with
  | Fore => 1
  | Back => 2
  | Both => 3
  end.

Definition from_u32 (value : Z) : option ChannelDirFromServer :=
  match value with
  | 1 => Some Fore
  | 2 => Some Back
  | 3 => Some Both
  | _ => None
  end.

End ChannelDirFromServer.
Import ChannelDirFromServer (ChannelDirFromServer).

Module BindConnToSessionArgs.

Record BindConnToSessionArgs := mkBindConnToSessionArgs {
  session_id : list byte;
  direction : ChannelDirFromClient;
  use_conn_in_rdma_mode : bool;
}.

Definition encode (self : BindConnToSessionArgs) : M Encoder XdrError unit :=
  write_fixed_opaque (session_id self) ;;
  write_u32 (ChannelDirFromClient.as_u32 (direction self)) ;;
  write_bool (use_conn_in_rdma_mode self) ;;
  mret tt.

End BindConnToSessionArgs.
Import BindConnToSessionArgs (BindConnToSessionArgs).

(** ** Opening files *)

Module OpenOwner.

Record OpenOwner := mkOpenOwner {
  client_id : Z;
  owner : list byte;
}.

Definition encode (self : OpenOwner) : M Encoder XdrError unit :=
  write_u64 (client_id self) ;;
  write_opaque (owner self) NFS4_OPAQUE_LIMIT.

End OpenOwner.
Import OpenOwner (OpenOwner).

Module CreateMode.

Inductive CreateMode :=
  | Unchecked | Guarded | Exclusive | Exclusive4_1.

#[global] Instance CreateMode_eq_dec : EqDecision CreateMode.
Proof. solve_decision. Defined.

Definition as_u32 (self : CreateMode) : Z :=
  match self with
  | Unchecked => 0
  | Guarded => 1
  | Exclusive => 2
  | Exclusive4_1 => 3
  end.

Definition from_u32 (value : Z) : option CreateMode :=
  match value with
  | 0 => Some Unchecked
  | 1 => Some Guarded
  | 2 => Some Exclusive
  | 3 => Some Exclusive4_1
  | _ => None
  end.

End CreateMode.
Import CreateMode (CreateMode).

Module OpenType.

Inductive OpenType :=
  | NoCreate | Create.

#[global] Instance OpenType_eq_dec : EqDecision OpenType.
Proof. solve_decision. Defined.

Definition as_u32 (self : OpenType) : Z :=
  match self with
  | NoCreate => 0
  | Create => 1
  end.

Definition from_u32 (value : Z) : option OpenType :=
  match value with
  | 0 => Some NoCreate
  | 1 => Some Create
  | _ => None
  end.

End OpenType.
Import OpenType (OpenType).

Module OpenDelegationType.

Inductive OpenDelegationType :=
  | None_ | Read | Write | NoneExt.

#[global] Instance OpenDelegationType_eq_dec : EqDecision OpenDelegationType.
Proof. solve_decision. Defined.

Definition as_u32 (self : OpenDelegationType) : Z :=
  match self with
  | None_ => 0
  | Read => 1
  | Write => 2
  | NoneExt => 3
  end.

Definition from_u32 (value : Z) : option OpenDelegationType :=
  match value with
  | 0 => Some None_
  | 1 => Some Read
  | 2 => Some Write
  | 3 => Some NoneExt
  | _ => None
  end.

End OpenDelegationType.
Import OpenDelegationType (OpenDelegationType).

Module OpenClaimType.

Inductive OpenClaimType :=
  | Null | Previous | DelegateCurrent | DelegatePrevious | FileHandle
  | DelegateCurrentFileHandle | DelegatePreviousFileHandle.

#[global] Instance OpenClaimType_eq_dec : EqDecision OpenClaimType.
Proof. solve_decision. Defined.

Definition as_u32 (self : OpenClaimType) : Z :=
  match self with
  | Null => 0
  | Previous => 1
  | DelegateCurrent => 2
  | DelegatePrevious => 3
  | FileHandle => 4
  | DelegateCurrentFileHandle => 5
  | DelegatePreviousFileHandle => 6
  end.

Definition from_u32 (value : Z) : option OpenClaimType :=
  match value with
  | 0 => Some Null
  | 1 => Some Previous
  | 2 => Some DelegateCurrent
  | 3 => Some DelegatePrevious
  | 4 => Some FileHandle
  | 5 => Some DelegateCurrentFileHandle
  | 6 => Some DelegatePreviousFileHandle
  | _ => None
  end.

End OpenClaimType.
Import OpenClaimType (OpenClaimType).

Module OpenHow.

Inductive OpenHow :=
  | NoCreate
  | Unchecked (attrs : Fattr)
  | Guarded (attrs : Fattr)
  | Exclusive (verifier : list byte)
  | ExclusiveWithAttrs (verifier : list byte) (attrs : Fattr).

Definition encode (self : OpenHow) : M Encoder XdrError unit :=
  match self with
  | NoCreate => write_u32 (OpenType.as_u32 OpenType.NoCreate)
  | Unchecked attrs =>
      write_u32 (OpenType.as_u32 OpenType.Create) ;;
      write_u32 (CreateMode.as_u32 CreateMode.Unchecked) ;;
      Fattr.encode attrs
  | Guarded attrs =>
      write_u32 (OpenType.as_u32 OpenType.Create) ;;
      write_u32 (CreateMode.as_u32 CreateMode.Guarded) ;;
      Fattr.encode attrs
  | Exclusive verifier =>
      write_u32 (OpenType.as_u32 OpenType.Create) ;;
      write_u32 (CreateMode.as_u32 CreateMode.Exclusive) ;;
      write_fixed_opaque verifier
  | ExclusiveWithAttrs verifier attrs =>
      write_u32 (OpenType.as_u32 OpenType.Create) ;;
      write_u32 (CreateMode.as_u32 CreateMode.Exclusive4_1) ;;
      write_fixed_opaque verifier ;;
      Fattr.encode attrs
  end ;;
  mret tt.

End OpenHow.
Import OpenHow (OpenHow).

Module OpenClaim.

Inductive OpenClaim :=
  | Null (name : str)
  | Previous (delegation_type : OpenDelegationType)
  | DelegateCurrent (delegate_stateid : StateId) (file : str)
  | DelegatePrevious (file : str)
  | CurrentFileHandle
  | DelegateCurrentFileHandle (delegate_stateid : StateId)
  | DelegatePreviousFileHandle.

Definition encode (self : OpenClaim) : M Encoder XdrError unit :=
  match self with
  | Null name =>
      write_u32 (OpenClaimType.as_u32 OpenClaimType.Null) ;;
      write_string name NFS4_OPAQUE_LIMIT
  | Previous delegation_type =>
      write_u32 (OpenClaimType.as_u32 OpenClaimType.Previous) ;;
      write_u32 (OpenDelegationType.as_u32 delegation_type)
  | DelegateCurrent delegate_stateid file =>
      write_u32 (OpenClaimType.as_u32 OpenClaimType.DelegateCurrent) ;;
      StateId.encode delegate_stateid ;;
      write_string file NFS4_OPAQUE_LIMIT
  | DelegatePrevious file =>
      write_u32 (OpenClaimType.as_u32 OpenClaimType.DelegatePrevious) ;;
      write_string file NFS4_OPAQUE_LIMIT
  | CurrentFileHandle =>
      write_u32 (OpenClaimType.as_u32 OpenClaimType.FileHandle)
  | DelegateCurrentFileHandle delegate_stateid =>
      write_u32 (OpenClaimType.as_u32 OpenClaimType.DelegateCurrentFileHandle) ;;
      StateId.encode delegate_stateid
  | DelegatePreviousFileHandle =>
      write_u32 (OpenClaimType.as_u32 OpenClaimType.DelegatePreviousFileHandle)
  end ;;
  mret tt.

End OpenClaim.
Import OpenClaim (OpenClaim).

Module OpenArgs.

Record OpenArgs := mkOpenArgs {
  seqid : Z;
  share_access : Z;
  share_deny : Z;
  owner : OpenOwner;
  openhow : OpenHow;
  claim : OpenClaim;
}.

Definition encode (self : OpenArgs) : M Encoder XdrError unit :=
  write_u32 (seqid self) ;;
  write_u32 (share_access self) ;;
  write_u32 (share_deny self) ;;
  OpenOwner.encode (owner self) ;;
  OpenHow.encode (openhow self) ;;
  OpenClaim.encode (claim self).

End OpenArgs.
Import OpenArgs (OpenArgs).

(** ** Byte-range locks *)

Module LockType.

Inductive LockType :=
  | Read | Write | ReadBlocking | WriteBlocking.

#[global] Instance LockType_eq_dec : EqDecision LockType.
Proof. solve_decision. Defined.

Definition as_u32 (self : LockType) : Z :=
  match self with
  | Read => 1
  | Write => 2
  | ReadBlocking => 3
  | WriteBlocking => 4
  end.

Definition from_u32 (value : Z) : option LockType :=
  match value with
  | 1 => Some Read
  | 2 => Some Write
  | 3 => Some ReadBlocking
  | 4 => Some WriteBlocking
  | _ => None
  end.

End LockType.
Import LockType (LockType).

Module LockOwner.

Record LockOwner := mkLockOwner {
  client_id : Z;
  owner : list byte;
}.

Definition encode (self : LockOwner) : M Encoder XdrError unit :=
  write_u64 (client_id self) ;;
  write_opaque (owner self) NFS4_OPAQUE_LIMIT.

Definition decode : M Decoder XdrError LockOwner :=
  client_id ← read_u64;
  owner ← read_opaque_vec NFS4_OPAQUE_LIMIT;
  mret (mkLockOwner client_id owner).

End LockOwner.
Import LockOwner (LockOwner).

Module Locker.

Inductive Locker :=
  | New (open_seqid : Z) (open_stateid : StateId) (lock_seqid : Z) (lock_owner : LockOwner)
  | Existing (lock_stateid : StateId) (lock_seqid : Z).

Definition encode (self : Locker) : M Encoder XdrError unit :=
  match self with
  | New open_seqid open_stateid lock_seqid lock_owner =>
      write_bool true ;;
      write_u32 open_seqid ;;
      StateId.encode open_stateid ;;
      write_u32 lock_seqid ;;
      LockOwner.encode lock_owner
  | Existing lock_stateid lock_seqid =>
      write_bool false ;;
      StateId.encode lock_stateid ;;
      write_u32 lock_seqid ;;
      mret tt
  end.

End Locker.
Import Locker (Locker).

Module LockArgs.

Record LockArgs := mkLockArgs {
  lock_type : LockType;
  reclaim : bool;
  offset : Z;
  length : Z;
  locker : Locker;
}.

Definition encode (self : LockArgs) : M Encoder XdrError unit :=
  write_u32 (LockType.as_u32 (lock_type self)) ;;
  write_bool (reclaim self) ;;
  write_u64 (offset self) ;;
  write_u64 (length self) ;;
  Locker.encode (locker self).

End LockArgs.
Import LockArgs (LockArgs).

Module LockTestArgs.

Record LockTestArgs := mkLockTestArgs {
  lock_type : LockType;
  offset : Z;
  length : Z;
  owner : LockOwner;
}.

Definition encode (self : LockTestArgs) : M Encoder XdrError unit :=
  write_u32 (LockType.as_u32 (lock_type self)) ;;
  write_u64 (offset self) ;;
  write_u64 (length self) ;;
  LockOwner.encode (owner self).

End LockTestArgs.
Import LockTestArgs (LockTestArgs).

Module LockUnlockArgs.

Record LockUnlockArgs := mkLockUnlockArgs {
  lock_type : LockType;
  seqid : Z;
  lock_stateid : StateId;
  offset : Z;
  length : Z;
}.

Definition encode (self : LockUnlockArgs) : M Encoder XdrError unit :=
  write_u32 (LockType.as_u32 (lock_type self)) ;;
  write_u32 (seqid self) ;;
  StateId.encode (lock_stateid self) ;;
  write_u64 (offset self) ;;
  write_u64 (length self) ;;
  mret tt.

End LockUnlockArgs.
Import LockUnlockArgs (LockUnlockArgs).

(** ** Data *)

Module IoAdviceType.

Inductive IoAdviceType :=
  | Normal | Sequential | SequentialBackwards | Random | WillNeed
  | WillNeedOpportunistic | DontNeed | NoReuse | Read | Write | InitProximity.

#[global] Instance IoAdviceType_eq_dec : EqDecision IoAdviceType.
Proof. solve_decision. Defined.

Definition as_u32 (self : IoAdviceType) : Z :=
  match self with
  | Normal => 0
  | Sequential => 1
  | SequentialBackwards => 2
  | Random => 3
  | WillNeed => 4
  | WillNeedOpportunistic => 5
  | DontNeed => 6
  | NoReuse => 7
  | Read => 8
  | Write => 9
  | InitProximity => 10
  end.

Definition from_u32 (value : Z) : option IoAdviceType :=
  match value with
  | 0 => Some Normal
  | 1 => Some Sequential
  | 2 => Some SequentialBackwards
  | 3 => Some Random
  | 4 => Some WillNeed
  | 5 => Some WillNeedOpportunistic
  | 6 => Some DontNeed
  | 7 => Some NoReuse
  | 8 => Some Read
  | 9 => Some Write
  | 10 => Some InitProximity
  | _ => None
  end.

End IoAdviceType.
Import IoAdviceType (IoAdviceType).

Module StableHow.

Inductive StableHow :=
  | Unstable | DataSync | FileSync.

#[global] Instance StableHow_eq_dec : EqDecision StableHow.
Proof. solve_decision. Defined.

Definition as_u32 (self : StableHow) : Z :=
  match self with
  | Unstable => 0
  | DataSync => 1
  | FileSync => 2
  end.

Definition from_u32 (value : Z) : option StableHow :=
  match value with
  | 0 => Some Unstable
  | 1 => Some DataSync
  | 2 => Some FileSync
  | _ => None
  end.

(** [self >= requested], in the order of the variants. *)
Definition satisfies (self requested : StableHow) : bool := as_u32 requested <=? as_u32 self.

End StableHow.
Import StableHow (StableHow).

Module SeekContent.

Inductive SeekContent :=
  | Data | Hole.

#[global] Instance SeekContent_eq_dec : EqDecision SeekContent.
Proof. solve_decision. Defined.

Definition as_u32 (self : SeekContent) : Z :=
  match self with
  | Data => NFS4_CONTENT_DATA
  | Hole => NFS4_CONTENT_HOLE
  end.

Definition from_u32 (value : Z) : option SeekContent :=
  if value =? NFS4_CONTENT_DATA then Some Data else
  if value =? NFS4_CONTENT_HOLE then Some Hole else
  None.

End SeekContent.
Import SeekContent (SeekContent).

Module ChangeAttrType.

Inductive ChangeAttrType :=
  | MonotonicIncr | VersionCounter | VersionCounterNoPnfs | TimeMetadata | Undefined.

#[global] Instance ChangeAttrType_eq_dec : EqDecision ChangeAttrType.
Proof. solve_decision. Defined.

Definition as_u32 (self : ChangeAttrType) : Z :=
  match self with
  | MonotonicIncr => 0
  | VersionCounter => 1
  | VersionCounterNoPnfs => 2
  | TimeMetadata => 3
  | Undefined => 4
  end.

Definition from_u32 (value : Z) : option ChangeAttrType :=
  match value with
  | 0 => Some MonotonicIncr
  | 1 => Some VersionCounter
  | 2 => Some VersionCounterNoPnfs
  | 3 => Some TimeMetadata
  | 4 => Some Undefined
  | _ => None
  end.

End ChangeAttrType.
Import ChangeAttrType (ChangeAttrType).

Module ReadPlusArgs.

Record ReadPlusArgs := mkReadPlusArgs {
  stateid : StateId;
  offset : Z;
  count : Z;
}.

Definition encode (self : ReadPlusArgs) : M Encoder XdrError unit :=
  StateId.encode (stateid self) ;;
  write_u64 (offset self) ;;
  write_u32 (count self) ;;
  mret tt.

End ReadPlusArgs.
Import ReadPlusArgs (ReadPlusArgs).

Module IoAdviseArgs.

Record IoAdviseArgs := mkIoAdviseArgs {
  stateid : StateId;
  offset : Z;
  count : Z;
  hints : Bitmap;
}.

Definition encode (self : IoAdviseArgs) : M Encoder XdrError unit :=
  StateId.encode (stateid self) ;;
  write_u64 (offset self) ;;
  write_u64 (count self) ;;
  Bitmap.encode (hints self).

End IoAdviseArgs.
Import IoAdviseArgs (IoAdviseArgs).

(** ** Layouts and delegations *)

Module LayoutType.

Inductive LayoutType :=
  | NfsV4_1Files
  | Osd2Objects
  | BlockVolume
  | Unknown (value : Z).

#[global] Instance LayoutType_eq_dec : EqDecision LayoutType.
Proof. solve_decision. Defined.

Definition as_u32 (self : LayoutType) : Z :=
  match self with
  | NfsV4_1Files => LAYOUT4_NFSV4_1_FILES
  | Osd2Objects => LAYOUT4_OSD2_OBJECTS
  | BlockVolume => LAYOUT4_BLOCK_VOLUME
  | Unknown value => value
  end.

Definition from_u32 (value : Z) : LayoutType :=
  if value =? LAYOUT4_NFSV4_1_FILES then NfsV4_1Files else
  if value =? LAYOUT4_OSD2_OBJECTS then Osd2Objects else
  if value =? LAYOUT4_BLOCK_VOLUME then BlockVolume else
  Unknown value.

Definition encode (self : LayoutType) : M Encoder XdrError unit :=
  write_u32 (as_u32 self) ;;
  mret tt.

Definition decode : M Decoder XdrError LayoutType :=
  value ← read_u32;
  mret (from_u32 value).

End LayoutType.
Import LayoutType (LayoutType).

Module LayoutIomode.

Inductive LayoutIomode :=
  | Read
  | ReadWrite
  | Any
  | Unknown (value : Z).

#[global] Instance LayoutIomode_eq_dec : EqDecision LayoutIomode.
Proof. solve_decision. Defined.

Definition as_u32 (self : LayoutIomode) : Z :=
  match self with
  | Read => LAYOUTIOMODE4_READ
  | ReadWrite => LAYOUTIOMODE4_RW
  | Any => LAYOUTIOMODE4_ANY
  | Unknown value => value
  end.

Definition from_u32 (value : Z) : LayoutIomode :=
  if value =? LAYOUTIOMODE4_READ then Read else
  if value =? LAYOUTIOMODE4_RW then ReadWrite else
  if value =? LAYOUTIOMODE4_ANY then Any else
  Unknown value.

Definition encode (self : LayoutIomode) : M Encoder XdrError unit :=
  write_u32 (as_u32 self) ;;
  mret tt.

Definition decode : M Decoder XdrError LayoutIomode :=
  value ← read_u32;
  mret (from_u32 value).

End LayoutIomode.
Import LayoutIomode (LayoutIomode).

Module LayoutContent.

Record LayoutContent := mkLayoutContent {
  layout_type : LayoutType;
  body : list byte;
}.

Definition encode (self : LayoutContent) : M Encoder XdrError unit :=
  LayoutType.encode (layout_type self) ;;
  write_opaque (body self) NFS4_MAX_IO.

Definition decode : M Decoder XdrError LayoutContent :=
  layout_type ← LayoutType.decode;
  body ← read_opaque_vec NFS4_MAX_IO;
  mret (mkLayoutContent layout_type body).

End LayoutContent.
Import LayoutContent (LayoutContent).

Module Layout.

Record Layout := mkLayout {
  offset : Z;
  length : Z;
  iomode : LayoutIomode;
  content : LayoutContent;
}.

Definition encode (self : Layout) : M Encoder XdrError unit :=
  write_u64 (offset self) ;;
  write_u64 (length self) ;;
  LayoutIomode.encode (iomode self) ;;
  LayoutContent.encode (content self).

Definition decode : M Decoder XdrError Layout :=
  offset ← read_u64;
  length ← read_u64;
  iomode ← LayoutIomode.decode;
  content ← LayoutContent.decode;
  mret (mkLayout offset length iomode content).

End Layout.
Import Layout (Layout).

Module LayoutUpdate.

Record LayoutUpdate := mkLayoutUpdate {
  layout_type : LayoutType;
  body : list byte;
}.

Definition encode (self : LayoutUpdate) : M Encoder XdrError unit :=
  LayoutType.encode (layout_type self) ;;
  write_opaque (body self) NFS4_MAX_IO.

End LayoutUpdate.
Import LayoutUpdate (LayoutUpdate).

Module GetDirDelegationArgs.

Record GetDirDelegationArgs := mkGetDirDelegationArgs {
  signal_deleg_avail : bool;
  notification_types : Bitmap;
  child_attr_delay : NfsTime;
  dir_attr_delay : NfsTime;
  child_attributes : Bitmap;
  dir_attributes : Bitmap;
}.

Definition encode (self : GetDirDelegationArgs) : M Encoder XdrError unit :=
  write_bool (signal_deleg_avail self) ;;
  Bitmap.encode (notification_types self) ;;
  NfsTime.encode (child_attr_delay self) ;;
  NfsTime.encode (dir_attr_delay self) ;;
  Bitmap.encode (child_attributes self) ;;
  Bitmap.encode (dir_attributes self).

End GetDirDelegationArgs.
Import GetDirDelegationArgs (GetDirDelegationArgs).

Module GetDeviceInfoArgs.

Record GetDeviceInfoArgs := mkGetDeviceInfoArgs {
  device_id : list byte;
  layout_type : LayoutType;
  max_count : Z;
  notify_types : Bitmap;
}.

Definition encode (self : GetDeviceInfoArgs) : M Encoder XdrError unit :=
  DeviceId_encode (device_id self) ;;
  LayoutType.encode (layout_type self) ;;
  write_u32 (max_count self) ;;
  Bitmap.encode (notify_types self).

End GetDeviceInfoArgs.
Import GetDeviceInfoArgs (GetDeviceInfoArgs).

Module GetDeviceListArgs.

Record GetDeviceListArgs := mkGetDeviceListArgs {
  layout_type : LayoutType;
  max_devices : Z;
  cookie : Z;
  cookieverf : list byte;
}.

Definition encode (self : GetDeviceListArgs) : M Encoder XdrError unit :=
  LayoutType.encode (layout_type self) ;;
  write_u32 (max_devices self) ;;
  write_u64 (cookie self) ;;
  write_fixed_opaque (cookieverf self) ;;
  mret tt.

End GetDeviceListArgs.
Import GetDeviceListArgs (GetDeviceListArgs).

Module LayoutCommitArgs.

Record LayoutCommitArgs := mkLayoutCommitArgs {
  offset : Z;
  length : Z;
  reclaim : bool;
  stateid : StateId;
  last_write_offset : option Z;
  time_modify : option NfsTime;
  layout_update : LayoutUpdate;
}.

Definition encode (self : LayoutCommitArgs) : M Encoder XdrError unit :=
  write_u64 (offset self) ;;
  write_u64 (length self) ;;
  write_bool (reclaim self) ;;
  StateId.encode (stateid self) ;;
  write_optional write_u64 (last_write_offset self) ;;
  write_optional NfsTime.encode (time_modify self) ;;
  LayoutUpdate.encode (layout_update self).

End LayoutCommitArgs.
Import LayoutCommitArgs (LayoutCommitArgs).

Module LayoutGetArgs.

Record LayoutGetArgs := mkLayoutGetArgs {
  signal_layout_avail : bool;
  layout_type : LayoutType;
  iomode : LayoutIomode;
  offset : Z;
  length : Z;
  min_length : Z;
  stateid : StateId;
  max_count : Z;
}.

Definition encode (self : LayoutGetArgs) : M Encoder XdrError unit :=
  write_bool (signal_layout_avail self) ;;
  LayoutType.encode (layout_type self) ;;
  LayoutIomode.encode (iomode self) ;;
  write_u64 (offset self) ;;
  write_u64 (length self) ;;
  write_u64 (min_length self) ;;
  StateId.encode (stateid self) ;;
  write_u32 (max_count self) ;;
  mret tt.

End LayoutGetArgs.
Import LayoutGetArgs (LayoutGetArgs).

Module LayoutReturnFile.

Record LayoutReturnFile := mkLayoutReturnFile {
  offset : Z;
  length : Z;
  stateid : StateId;
  body : list byte;
}.

Definition encode (self : LayoutReturnFile) : M Encoder XdrError unit :=
  write_u64 (offset self) ;;
  write_u64 (length self) ;;
  StateId.encode (stateid self) ;;
  write_opaque (body self) NFS4_MAX_IO.

End LayoutReturnFile.
Import LayoutReturnFile (LayoutReturnFile).

Module LayoutReturn.

Inductive LayoutReturn :=
  | File (file : LayoutReturnFile)
  | Fsid
  | All.

Definition encode (self : LayoutReturn) : M Encoder XdrError unit :=
  match self with
  | File file =>
      write_u32 LAYOUTRETURN4_FILE ;;
      LayoutReturnFile.encode file
  | Fsid => write_u32 LAYOUTRETURN4_FSID ;; mret tt
  | All => write_u32 LAYOUTRETURN4_ALL ;; mret tt
  end.

End LayoutReturn.
Import LayoutReturn (LayoutReturn).

Module LayoutReturnArgs.

Record LayoutReturnArgs := mkLayoutReturnArgs {
  reclaim : bool;
  layout_type : LayoutType;
  iomode : LayoutIomode;
  layout_return : LayoutReturn;
}.

Definition encode (self : LayoutReturnArgs) : M Encoder XdrError unit :=
  write_bool (reclaim self) ;;
  LayoutType.encode (layout_type self) ;;
  LayoutIomode.encode (iomode self) ;;
  LayoutReturn.encode (layout_return self).

End LayoutReturnArgs.
Import LayoutReturnArgs (LayoutReturnArgs).

Module SetSsvArgs.

Record SetSsvArgs := mkSetSsvArgs {
  ssv : list byte;
  digest : list byte;
}.

Definition encode (self : SetSsvArgs) : M Encoder XdrError unit :=
  write_opaque (ssv self) NFS4_OPAQUE_LIMIT ;;
  write_opaque (digest self) NFS4_OPAQUE_LIMIT.

End SetSsvArgs.
Import SetSsvArgs (SetSsvArgs).

Module DelegationClaim.

Inductive DelegationClaim :=
  | FileHandle
  | Previous (delegation_type : OpenDelegationType)
  | DelegPrevFileHandle.

Definition encode (self : DelegationClaim) : M Encoder XdrError unit :=
  match self with
  | FileHandle =>
      write_u32 (OpenClaimType.as_u32 OpenClaimType.FileHandle)
  | Previous delegation_type =>
      write_u32 (OpenClaimType.as_u32 OpenClaimType.Previous) ;;
      write_u32 (OpenDelegationType.as_u32 delegation_type)
  | DelegPrevFileHandle =>
      write_u32 (OpenClaimType.as_u32 OpenClaimType.DelegatePreviousFileHandle)
  end ;;
  mret tt.

End DelegationClaim.
Import DelegationClaim (DelegationClaim).

Module WantDelegationArgs.

Record WantDelegationArgs := mkWantDelegationArgs {
  want : Z;
  claim : DelegationClaim;
}.

Definition encode (self : WantDelegationArgs) : M Encoder XdrError unit :=
  write_u32 (want self) ;;
  DelegationClaim.encode (claim self).

End WantDelegationArgs.
Import WantDelegationArgs (WantDelegationArgs).

Module DeviceError.

Record DeviceError := mkDeviceError {
  device_id : list byte;
  status : Status.Status;
  opnum : OpCode.OpCode;
}.

Definition encode (self : DeviceError) : M Encoder XdrError unit :=
  DeviceId_encode (device_id self) ;;
  write_u32 (Status.as_u32 (status self)) ;;
  write_u32 (OpCode.as_u32 (opnum self)) ;;
  mret tt.

End DeviceError.
Import DeviceError (DeviceError).

Module LayoutErrorArgs.

Record LayoutErrorArgs := mkLayoutErrorArgs {
  offset : Z;
  length : Z;
  stateid : StateId;
  errors : list DeviceError;
}.

Definition encode (self : LayoutErrorArgs) : M Encoder XdrError unit :=
  write_u64 (offset self) ;;
  write_u64 (length self) ;;
  StateId.encode (stateid self) ;;
  write_array DeviceError.encode (errors self) NFS4_MAX_LAYOUT_ERRORS.

End LayoutErrorArgs.
Import LayoutErrorArgs (LayoutErrorArgs).

Module IoInfo.

Record IoInfo := mkIoInfo {
  count : Z;
  bytes : Z;
}.

Definition encode (self : IoInfo) : M Encoder XdrError unit :=
  write_u64 (count self) ;;
  write_u64 (bytes self) ;;
  mret tt.

End IoInfo.
Import IoInfo (IoInfo).

Module LayoutStatsArgs.

Record LayoutStatsArgs := mkLayoutStatsArgs {
  offset : Z;
  length : Z;
  stateid : StateId;
  read : IoInfo;
  write : IoInfo;
  device_id : list byte;
  layout_update : LayoutUpdate;
}.

Definition encode (self : LayoutStatsArgs) : M Encoder XdrError unit :=
  write_u64 (offset self) ;;
  write_u64 (length self) ;;
  StateId.encode (stateid self) ;;
  IoInfo.encode (read self) ;;
  IoInfo.encode (write self) ;;
  DeviceId_encode (device_id self) ;;
  LayoutUpdate.encode (layout_update self).

End LayoutStatsArgs.
Import LayoutStatsArgs (LayoutStatsArgs).

(** ** Server-side copies *)

Module NetLoc.

Inductive NetLoc :=
  | Name (name : str)
  | Url (url : str)
  | NetAddr (netid : str) (addr : str).

Definition encode (self : NetLoc) : M Encoder XdrError unit :=
  match self with
  | Name name => write_u32 1 ;; write_string name NFS4_OPAQUE_LIMIT
  | Url url => write_u32 2 ;; write_string url NFS4_OPAQUE_LIMIT
  | NetAddr netid addr =>
      write_u32 3 ;;
      write_string netid NFS4_OPAQUE_LIMIT ;;
      write_string addr NFS4_OPAQUE_LIMIT
  end.

Definition decode : M Decoder XdrError NetLoc :=
  value ← read_u32;
  match value with
  | 1 => name ← read_string NFS4_OPAQUE_LIMIT; mret (Name name)
  | 2 => url ← read_string NFS4_OPAQUE_LIMIT; mret (Url url)
  | 3 =>
      netid ← read_string NFS4_OPAQUE_LIMIT;
      addr ← read_string NFS4_OPAQUE_LIMIT;
      mret (NetAddr netid addr)
  | value => throw (InvalidDiscriminant "netloc_type4" (to_signed 32 value))
  end.

End NetLoc.
Import NetLoc (NetLoc).

Module AppDataBlock.

Record AppDataBlock := mkAppDataBlock {
  offset : Z;
  block_size : Z;
  block_count : Z;
  block_number_offset : Z;
  block_number : Z;
  pattern_offset : Z;
  pattern : list byte;
}.

Definition encode (self : AppDataBlock) : M Encoder XdrError unit :=
  write_u64 (offset self) ;;
  write_u64 (block_size self) ;;
  write_u64 (block_count self) ;;
  write_u64 (block_number_offset self) ;;
  write_u32 (block_number self) ;;
  write_u64 (pattern_offset self) ;;
  write_opaque (pattern self) NFS4_MAX_IO.

End AppDataBlock.
Import AppDataBlock (AppDataBlock).

Module CopyArgs.

Record CopyArgs := mkCopyArgs {
  src_stateid : StateId;
  dst_stateid : StateId;
  src_offset : Z;
  dst_offset : Z;
  count : Z;
  consecutive : bool;
  synchronous : bool;
  source_servers : list NetLoc;
}.

Definition encode (self : CopyArgs) : M Encoder XdrError unit :=
  StateId.encode (src_stateid self) ;;
  StateId.encode (dst_stateid self) ;;
  write_u64 (src_offset self) ;;
  write_u64 (dst_offset self) ;;
  write_u64 (count self) ;;
  write_bool (consecutive self) ;;
  write_bool (synchronous self) ;;
  write_array NetLoc.encode (source_servers self) NFS4_MAX_NETLOCATIONS.

End CopyArgs.
Import CopyArgs (CopyArgs).

Module CopyNotifyArgs.

Record CopyNotifyArgs := mkCopyNotifyArgs {
  src_stateid : StateId;
  destination_server : NetLoc;
}.

Definition encode (self : CopyNotifyArgs) : M Encoder XdrError unit :=
  StateId.encode (src_stateid self) ;;
  NetLoc.encode (destination_server self).

End CopyNotifyArgs.
Import CopyNotifyArgs (CopyNotifyArgs).

Module WriteSameArgs.

Record WriteSameArgs := mkWriteSameArgs {
  stateid : StateId;
  stable : StableHow;
  block : AppDataBlock;
}.

Definition encode (self : WriteSameArgs) : M Encoder XdrError unit :=
  StateId.encode (stateid self) ;;
  write_u32 (StableHow.as_u32 (stable self)) ;;
  AppDataBlock.encode (block self).

End WriteSameArgs.
Import WriteSameArgs (WriteSameArgs).

Module CloneArgs.

Record CloneArgs := mkCloneArgs {
  src_stateid : StateId;
  dst_stateid : StateId;
  src_offset : Z;
  dst_offset : Z;
  count : Z;
}.

Definition encode (self : CloneArgs) : M Encoder XdrError unit :=
  StateId.encode (src_stateid self) ;;
  StateId.encode (dst_stateid self) ;;
  write_u64 (src_offset self) ;;
  write_u64 (dst_offset self) ;;
  write_u64 (count self) ;;
  mret tt.

End CloneArgs.
Import CloneArgs (CloneArgs).

(** ** Operations *)

Module CreateKind.

Inductive CreateKind :=
  | Directory
  | Symlink (target : str)
  | BlockDevice (major : Z) (minor : Z)
  | CharacterDevice (major : Z) (minor : Z)
  | Socket
  | Fifo.

Definition encode (self : CreateKind) : M Encoder XdrError unit :=
  match self with
  | Directory => write_u32 NF4DIR
  | Symlink target => write_u32 NF4LNK ;; write_string target NFS4_OPAQUE_LIMIT
  | BlockDevice major minor => write_u32 NF4BLK ;; write_u32 major ;; write_u32 minor
  | CharacterDevice major minor => write_u32 NF4CHR ;; write_u32 major ;; write_u32 minor
  | Socket => write_u32 NF4SOCK
  | Fifo => write_u32 NF4FIFO
  end ;;
  mret tt.

End CreateKind.
Import CreateKind (CreateKind).

Module CreateArgs.

Record CreateArgs := mkCreateArgs {
  kind : CreateKind;
  name : str;
  attrs : Fattr;
}.

Definition encode (self : CreateArgs) : M Encoder XdrError unit :=
  CreateKind.encode (kind self) ;;
  write_string (name self) NFS4_OPAQUE_LIMIT ;;
  Fattr.encode (attrs self).

End CreateArgs.
Import CreateArgs (CreateArgs).

Module Operation.

Inductive Operation :=
  | SetClientId (args : SetClientIdArgs)
  | SetClientIdConfirm (args : SetClientIdConfirmArgs)
  | ExchangeId (args : ExchangeIdArgs)
  | CreateSession (args : CreateSessionArgs)
  | BackchannelCtl (args : BackchannelCtlArgs)
  | BindConnToSession (args : BindConnToSessionArgs)
  | DestroySession (session_id : list byte)
  | DestroyClientId (client_id : Z)
  | ReclaimComplete (one_fs : bool)
  | Sequence (args : SequenceArgs)
  | PutRootFh
  | PutPubFh
  | PutFh (handle : FileHandle)
  | Lookup (component : str)
  | Lookupp
  | Access (access : Z)
  | SecInfo (name : str)
  | SecInfoNoName (style : SecInfoStyle)
  | DelegPurge (client_id : Z)
  | DelegReturn (stateid : StateId)
  | NVerify (attrs : Fattr)
  | Open (args : OpenArgs)
  | OpenAttr (create_dir : bool)
  | OpenConfirm (stateid : StateId) (seqid : Z)
  | Close (seqid : Z) (stateid : StateId)
  | Lock (args : LockArgs)
  | LockTest (args : LockTestArgs)
  | LockUnlock (args : LockUnlockArgs)
  | OpenDowngrade (seqid : Z) (stateid : StateId) (share_access : Z) (share_deny : Z)
  | FreeStateId (stateid : StateId)
  | TestStateIds (stateids : list StateId)
  | GetDirDelegation (args : GetDirDelegationArgs)
  | GetDeviceInfo (args : GetDeviceInfoArgs)
  | GetDeviceList (args : GetDeviceListArgs)
  | LayoutCommit (args : LayoutCommitArgs)
  | LayoutGet (args : LayoutGetArgs)
  | LayoutReturn (args : LayoutReturnArgs)
  | SetSsv (args : SetSsvArgs)
  | WantDelegation (args : WantDelegationArgs)
  | GetFh
  | GetAttr (bitmap : Bitmap)
  | SetAttr (stateid : StateId) (attrs : Fattr)
  | Read (stateid : StateId) (offset : Z) (count : Z)
  | Write (stateid : StateId) (offset : Z) (stable : StableHow) (data : list byte)
  | Allocate (stateid : StateId) (offset : Z) (length : Z)
  | Deallocate (stateid : StateId) (offset : Z) (length : Z)
  | IoAdvise (args : IoAdviseArgs)
  | Copy (args : CopyArgs)
  | CopyNotify (args : CopyNotifyArgs)
  | LayoutError (args : LayoutErrorArgs)
  | LayoutStats (args : LayoutStatsArgs)
  | OffloadCancel (stateid : StateId)
  | OffloadStatus (stateid : StateId)
  | ReadPlus (args : ReadPlusArgs)
  | Seek (stateid : StateId) (offset : Z) (what : SeekContent)
  | Clone (args : CloneArgs)
  | WriteSame (args : WriteSameArgs)
  | Commit (offset : Z) (count : Z)
  | Renew (client_id : Z)
  | ReadDir (cookie : Z) (cookieverf : list byte) (dircount : Z) (maxcount : Z) (attr_request : Bitmap)
  | ReadLink
  | Remove (target : str)
  | Link (target : str)
  | Rename (oldname : str) (newname : str)
  | Verify (attrs : Fattr)
  | ReleaseLockOwner (owner : LockOwner)
  | Create (args : CreateArgs)
  | SaveFh
  | RestoreFh.

Definition op_code (self : Operation) : OpCode.OpCode :=
  match self with
  | SetClientId _ => OpCode.SetClientId
  | SetClientIdConfirm _ => OpCode.SetClientIdConfirm
  | ExchangeId _ => OpCode.ExchangeId
  | CreateSession _ => OpCode.CreateSession
  | BackchannelCtl _ => OpCode.BackchannelCtl
  | BindConnToSession _ => OpCode.BindConnToSession
  | DestroySession _ => OpCode.DestroySession
  | DestroyClientId _ => OpCode.DestroyClientId
  | ReclaimComplete _ => OpCode.ReclaimComplete
  | Sequence _ => OpCode.Sequence
  | PutRootFh => OpCode.PutRootFh
  | PutPubFh => OpCode.PutPubFh
  | PutFh _ => OpCode.PutFh
  | Lookup _ => OpCode.Lookup
  | Lookupp => OpCode.Lookupp
  | Access _ => OpCode.Access
  | SecInfo _ => OpCode.SecInfo
  | SecInfoNoName _ => OpCode.SecInfoNoName
  | DelegPurge _ => OpCode.DelegPurge
  | DelegReturn _ => OpCode.DelegReturn
  | NVerify _ => OpCode.NVerify
  | Open _ => OpCode.Open
  | OpenAttr _ => OpCode.OpenAttr
  | OpenConfirm _ _ => OpCode.OpenConfirm
  | Close _ _ => OpCode.Close
  | Lock _ => OpCode.Lock
  | LockTest _ => OpCode.Lockt
  | LockUnlock _ => OpCode.Locku
  | OpenDowngrade _ _ _ _ => OpCode.OpenDowngrade
  | FreeStateId _ => OpCode.FreeStateId
  | TestStateIds _ => OpCode.TestStateId
  | GetDirDelegation _ => OpCode.GetDirDelegation
  | GetDeviceInfo _ => OpCode.GetDeviceInfo
  | GetDeviceList _ => OpCode.GetDeviceList
  | LayoutCommit _ => OpCode.LayoutCommit
  | LayoutGet _ => OpCode.LayoutGet
  | LayoutReturn _ => OpCode.LayoutReturn
  | SetSsv _ => OpCode.SetSsv
  | WantDelegation _ => OpCode.WantDelegation
  | GetFh => OpCode.GetFh
  | GetAttr _ => OpCode.GetAttr
  | SetAttr _ _ => OpCode.SetAttr
  | Read _ _ _ => OpCode.Read
  | Write _ _ _ _ => OpCode.Write
  | Allocate _ _ _ => OpCode.Allocate
  | Deallocate _ _ _ => OpCode.Deallocate
  | IoAdvise _ => OpCode.IoAdvise
  | Copy _ => OpCode.Copy
  | CopyNotify _ => OpCode.CopyNotify
  | LayoutError _ => OpCode.LayoutError
  | LayoutStats _ => OpCode.LayoutStats
  | OffloadCancel _ => OpCode.OffloadCancel
  | OffloadStatus _ => OpCode.OffloadStatus
  | ReadPlus _ => OpCode.ReadPlus
  | Seek _ _ _ => OpCode.Seek
  | Clone _ => OpCode.Clone
  | WriteSame _ => OpCode.WriteSame
  | Commit _ _ => OpCode.Commit
  | Renew _ => OpCode.Renew
  | ReadDir _ _ _ _ _ => OpCode.ReadDir
  | ReadLink => OpCode.ReadLink
  | Remove _ => OpCode.Remove
  | Link _ => OpCode.Link
  | Rename _ _ => OpCode.Rename
  | Verify _ => OpCode.Verify
  | ReleaseLockOwner _ => OpCode.ReleaseLockOwner
  | Create _ => OpCode.Create
  | SaveFh => OpCode.SaveFh
  | RestoreFh => OpCode.RestoreFh
  end.

Definition encode (self : Operation) : M Encoder XdrError unit :=
  write_u32 (OpCode.as_u32 (op_code self)) ;;
  match self with
  | SetClientId args => SetClientIdArgs.encode args
  | SetClientIdConfirm args => SetClientIdConfirmArgs.encode args
  | ExchangeId args => ExchangeIdArgs.encode args
  | CreateSession args => CreateSessionArgs.encode args
  | BackchannelCtl args => BackchannelCtlArgs.encode args
  | BindConnToSession args => BindConnToSessionArgs.encode args
  | DestroySession session_id =>
      write_fixed_opaque session_id ;;
      mret tt
  | DestroyClientId client_id =>
      write_u64 client_id ;;
      mret tt
  | ReclaimComplete one_fs =>
      write_bool one_fs ;;
      mret tt
  | Sequence args => SequenceArgs.encode args
  | PutRootFh | PutPubFh | Lookupp | GetFh | ReadLink | SaveFh | RestoreFh => mret tt
  | PutFh handle => FileHandle.encode handle
  | Lookup component => write_string component NFS4_OPAQUE_LIMIT
  | Access access =>
      write_u32 access ;;
      mret tt
  | SecInfo name => write_string name NFS4_OPAQUE_LIMIT
  | SecInfoNoName style =>
      write_u32 (SecInfoStyle.as_u32 style) ;;
      mret tt
  | DelegPurge client_id =>
      write_u64 client_id ;;
      mret tt
  | DelegReturn stateid => StateId.encode stateid
  | NVerify attrs => Fattr.encode attrs
  | Open args => OpenArgs.encode args
  | OpenAttr create_dir =>
      write_bool create_dir ;;
      mret tt
  | OpenConfirm stateid seqid =>
      StateId.encode stateid ;;
      write_u32 seqid ;;
      mret tt
  | Close seqid stateid =>
      write_u32 seqid ;;
      StateId.encode stateid
  | Lock args => LockArgs.encode args
  | LockTest args => LockTestArgs.encode args
  | LockUnlock args => LockUnlockArgs.encode args
  | OpenDowngrade seqid stateid share_access share_deny =>
      StateId.encode stateid ;;
      write_u32 seqid ;;
      write_u32 share_access ;;
      write_u32 share_deny ;;
      mret tt
  | FreeStateId stateid => StateId.encode stateid
  | TestStateIds stateids => write_array StateId.encode stateids NFS4_MAX_OPS
  | GetDirDelegation args => GetDirDelegationArgs.encode args
  | GetDeviceInfo args => GetDeviceInfoArgs.encode args
  | GetDeviceList args => GetDeviceListArgs.encode args
  | LayoutCommit args => LayoutCommitArgs.encode args
  | LayoutGet args => LayoutGetArgs.encode args
  | LayoutReturn args => LayoutReturnArgs.encode args
  | SetSsv args => SetSsvArgs.encode args
  | WantDelegation args => WantDelegationArgs.encode args
  | GetAttr bitmap => Bitmap.encode bitmap
  | SetAttr stateid attrs =>
      StateId.encode stateid ;;
      Fattr.encode attrs
  | Read stateid offset count =>
      StateId.encode stateid ;;
      write_u64 offset ;;
      write_u32 count ;;
      mret tt
  | Write stateid offset stable data =>
      StateId.encode stateid ;;
      write_u64 offset ;;
      write_u32 (StableHow.as_u32 stable) ;;
      write_opaque data NFS4_MAX_IO
  | Allocate stateid offset length
  | Deallocate stateid offset length =>
      StateId.encode stateid ;;
      write_u64 offset ;;
      write_u64 length ;;
      mret tt
  | IoAdvise args => IoAdviseArgs.encode args
  | Copy args => CopyArgs.encode args
  | CopyNotify args => CopyNotifyArgs.encode args
  | LayoutError args => LayoutErrorArgs.encode args
  | LayoutStats args => LayoutStatsArgs.encode args
  | OffloadCancel stateid
  | OffloadStatus stateid => StateId.encode stateid
  | ReadPlus args => ReadPlusArgs.encode args
  | Seek stateid offset what =>
      StateId.encode stateid ;;
      write_u64 offset ;;
      write_u32 (SeekContent.as_u32 what) ;;
      mret tt
  | Clone args => CloneArgs.encode args
  | WriteSame args => WriteSameArgs.encode args
  | Commit offset count =>
      write_u64 offset ;;
      write_u32 count ;;
      mret tt
  | Renew client_id =>
      write_u64 client_id ;;
      mret tt
  | ReadDir cookie cookieverf dircount maxcount attr_request =>
      write_u64 cookie ;;
      write_fixed_opaque cookieverf ;;
      write_u32 dircount ;;
      write_u32 maxcount ;;
      Bitmap.encode attr_request
  | Remove target => write_string target NFS4_OPAQUE_LIMIT
  | Link target => write_string target NFS4_OPAQUE_LIMIT
  | Rename oldname newname =>
      write_string oldname NFS4_OPAQUE_LIMIT ;;
      write_string newname NFS4_OPAQUE_LIMIT
  | Verify attrs => Fattr.encode attrs
  | ReleaseLockOwner owner => LockOwner.encode owner
  | Create args => CreateArgs.encode args
  end.

End Operation.
Import Operation (Operation).

Module CompoundArgs.

Record CompoundArgs := mkCompoundArgs {
  tag : str;
  minor_version : Z;
  operations : list Operation;
}.

Definition encode (self : CompoundArgs) : M Encoder XdrError unit :=
  write_string (tag self) NFS4_OPAQUE_LIMIT ;;
  write_u32 (minor_version self) ;;
  write_array Operation.encode (operations self) NFS4_MAX_OPS ;;
  mret tt.

End CompoundArgs.
Import CompoundArgs (CompoundArgs).
