(* ===== verification/V4Results.v ===== *)
(** * NFSv4 replies (src/src/v4/proto.rs)

    The result of every operation, [CompoundResponse], and their decoders.
    The constructor [None] of an enum is [None_]; [Some(T::decode(..)?)] under
    [status.is_ok()] is [when_ok]. *)

From Stdlib Require Import Strings.String Strings.Byte.
From S2P Require Import Prelude Text Xdr Status Errors Rpc V4Attr V4Ops.
Import FileHandle (FileHandle).
Import StateId (StateId).
Import Bitmap (Bitmap).
Import NfsTime (NfsTime).
Import Fattr (Fattr).
Import RpcGssService (RpcGssService).
Import NetAddr (NetAddr).
Import ChannelAttrs (ChannelAttrs).
Import ChannelDirFromServer (ChannelDirFromServer).
Import LockType (LockType).
Import LockOwner (LockOwner).
Import StableHow (StableHow).
Import LayoutType (LayoutType).
Import Layout (Layout).
Import NetLoc (NetLoc).

#[local] Open Scope Z_scope.

Definition GDD4_OK : Z := 0.
Definition GDD4_UNAVAIL : Z := 1.
Definition NFS4_MAX_STATE_PROTECT_HANDLES : Z := 1024.

Definition invalid_discriminant {S A} (type_name : string) (value : Z) : M S XdrError A :=
  throw (InvalidDiscriminant type_name (to_signed 32 value)).

(** [T::from_u32(raw).ok_or(InvalidDiscriminant { .. })?]. *)
Definition read_enum {A} (type_name : string) (from_u32 : Z → option A) : M Decoder XdrError A :=
  raw ← read_u32;
  match from_u32 raw with
  | Some a => mret a
  | None => invalid_discriminant type_name raw
  end.

Definition when {A} (b : bool) (dec : M Decoder XdrError A) : M Decoder XdrError (option A) :=
  if b then value ← dec; mret (Some value) else mret None.

Definition when_ok {A} (status : Status.Status) (dec : M Decoder XdrError A)
    : M Decoder XdrError (option A) :=
  when (Status.is_ok status) dec.

(** [into_iter().next()]. *)
Definition first {A} (l : list A) : option A :=
  match l with a :: _ => Some a | [] => None end.

(** ** Result types *)

Module AccessResult.

Record AccessResult := mkAccessResult {
  supported : Z;
  access : Z;
}.

End AccessResult.
Import AccessResult (AccessResult).

Module SecInfo.

Inductive SecInfo :=
  | AuthNone
  | AuthSys
  | RpcSecGss (oid : list byte) (qop : Z) (service : RpcGssService)
  | Unknown (value : Z).

Definition decode : M Decoder XdrError SecInfo :=
  flavor ← read_u32;
  if flavor =? AUTH_NONE then mret AuthNone else
  if flavor =? AUTH_SYS then mret AuthSys else
  if flavor =? RPCSEC_GSS then
    oid ← read_opaque_vec NFS4_OPAQUE_LIMIT;
    qop ← read_u32;
    service ← read_u32;
    mret (RpcSecGss oid qop (RpcGssService.from_u32 service))
  else mret (Unknown flavor).

End SecInfo.
Import SecInfo (SecInfo).

Module SetClientIdResult.

Record SetClientIdResult := mkSetClientIdResult {
  client_id : Z;
  verifier : list byte;
}.

Definition decode : M Decoder XdrError SetClientIdResult :=
  client_id ← read_u64;
  verifier ← decode_verifier;
  mret (mkSetClientIdResult client_id verifier).

End SetClientIdResult.
Import SetClientIdResult (SetClientIdResult).

Module ExchangeIdResult.

Record ExchangeIdResult := mkExchangeIdResult {
  client_id : Z;
  sequence_id : Z;
  flags : Z;
}.

Definition decode : M Decoder XdrError ExchangeIdResult :=
  client_id ← read_u64;
  sequence_id ← read_u32;
  flags ← read_u32;
  mret (mkExchangeIdResult client_id sequence_id flags).

End ExchangeIdResult.
Import ExchangeIdResult (ExchangeIdResult).

Module CreateSessionResult.

Record CreateSessionResult := mkCreateSessionResult {
  session_id : list byte;
  sequence_id : Z;
  flags : Z;
  fore_channel_attrs : ChannelAttrs;
  back_channel_attrs : ChannelAttrs;
}.

Definition decode : M Decoder XdrError CreateSessionResult :=
  session_id ← decode_session_id;
  sequence_id ← read_u32;
  flags ← read_u32;
  fore_channel_attrs ← ChannelAttrs.decode;
  back_channel_attrs ← ChannelAttrs.decode;
  mret (mkCreateSessionResult session_id sequence_id flags fore_channel_attrs back_channel_attrs).

End CreateSessionResult.
Import CreateSessionResult (CreateSessionResult).

Module SequenceResult.

Record SequenceResult := mkSequenceResult {
  session_id : list byte;
  sequence_id : Z;
  slot_id : Z;
  highest_slot_id : Z;
  target_highest_slot_id : Z;
  status_flags : Z;
}.

Definition decode : M Decoder XdrError SequenceResult :=
  session_id ← decode_session_id;
  sequence_id ← read_u32;
  slot_id ← read_u32;
  highest_slot_id ← read_u32;
  target_highest_slot_id ← read_u32;
  status_flags ← read_u32;
  mret (mkSequenceResult session_id sequence_id slot_id highest_slot_id target_highest_slot_id status_flags).

End SequenceResult.
Import SequenceResult (SequenceResult).

Module BindConnToSessionResult.

Record BindConnToSessionResult := mkBindConnToSessionResult {
  session_id : list byte;
  direction : ChannelDirFromServer;
  use_conn_in_rdma_mode : bool;
}.

Definition decode : M Decoder XdrError BindConnToSessionResult :=
  session_id ← decode_session_id;
  direction ← read_enum "channel_dir_from_server4" ChannelDirFromServer.from_u32;
  use_conn_in_rdma_mode ← read_bool;
  mret (mkBindConnToSessionResult session_id direction use_conn_in_rdma_mode).

End BindConnToSessionResult.
Import BindConnToSessionResult (BindConnToSessionResult).

Module NfsAce.

Record NfsAce := mkNfsAce {
  ace_type : Z;
  flag : Z;
  access_mask : Z;
  who : str;
}.

Definition decode : M Decoder XdrError NfsAce :=
  ace_type ← read_u32;
  flag ← read_u32;
  access_mask ← read_u32;
  who ← read_string NFS4_OPAQUE_LIMIT;
  mret (mkNfsAce ace_type flag access_mask who).

End NfsAce.
Import NfsAce (NfsAce).

Module NfsSpaceLimit.

Inductive NfsSpaceLimit :=
  | Size (size : Z)
  | Blocks (num_blocks : Z) (bytes_per_block : Z).

Definition decode : M Decoder XdrError NfsSpaceLimit :=
  limit ← read_u32;
  match limit with
  | 1 => size ← read_u64; mret (Size size)
  | 2 =>
      num_blocks ← read_u32;
      bytes_per_block ← read_u32;
      mret (Blocks num_blocks bytes_per_block)
  | value => invalid_discriminant "limit_by4" value
  end.

End NfsSpaceLimit.
Import NfsSpaceLimit (NfsSpaceLimit).

Module OpenReadDelegation.

Record OpenReadDelegation := mkOpenReadDelegation {
  stateid : StateId;
  recall : bool;
  permissions : NfsAce;
}.

Definition decode : M Decoder XdrError OpenReadDelegation :=
  stateid ← StateId.decode;
  recall ← read_bool;
  permissions ← NfsAce.decode;
  mret (mkOpenReadDelegation stateid recall permissions).

End OpenReadDelegation.
Import OpenReadDelegation (OpenReadDelegation).

Module OpenWriteDelegation.

Record OpenWriteDelegation := mkOpenWriteDelegation {
  stateid : StateId;
  recall : bool;
  space_limit : NfsSpaceLimit;
  permissions : NfsAce;
}.

Definition decode : M Decoder XdrError OpenWriteDelegation :=
  stateid ← StateId.decode;
  recall ← read_bool;
  space_limit ← NfsSpaceLimit.decode;
  permissions ← NfsAce.decode;
  mret (mkOpenWriteDelegation stateid recall space_limit permissions).

End OpenWriteDelegation.
Import OpenWriteDelegation (OpenWriteDelegation).

Module WhyNoDelegation.

Inductive WhyNoDelegation :=
  | NotWanted
  | Contention
  | Resource
  | NotSupportedFileType
  | WriteDelegationNotSupportedFileType
  | NotSupportedUpgrade
  | NotSupportedDowngrade
  | Cancelled
  | IsDirectory
  | Unknown (value : Z).

#[global] Instance WhyNoDelegation_eq_dec : EqDecision WhyNoDelegation.
Proof. solve_decision. Defined.

Definition from_u32 (value : Z) : WhyNoDelegation :=
  match value with
  | 0 => NotWanted
  | 1 => Contention
  | 2 => Resource
  | 3 => NotSupportedFileType
  | 4 => WriteDelegationNotSupportedFileType
  | 5 => NotSupportedUpgrade
  | 6 => NotSupportedDowngrade
  | 7 => Cancelled
  | 8 => IsDirectory
  | value => Unknown value
  end.

End WhyNoDelegation.
Import WhyNoDelegation (WhyNoDelegation).

Module OpenNoneDelegation.

Record OpenNoneDelegation := mkOpenNoneDelegation {
  why : WhyNoDelegation;
  server_will_push_deleg : option bool;
  server_will_signal_avail : option bool;
}.

End OpenNoneDelegation.
Import OpenNoneDelegation (OpenNoneDelegation).

Module OpenDelegation.

Inductive OpenDelegation :=
  | None_
  | Read (delegation : OpenReadDelegation)
  | Write (delegation : OpenWriteDelegation)
  | NoneExt (delegation : OpenNoneDelegation).

Definition decode_none_ext : M Decoder XdrError OpenNoneDelegation :=
  why ← read_u32;
  let why := WhyNoDelegation.from_u32 why in
  server_will_push_deleg ← when (bool_decide (why = WhyNoDelegation.Contention)) read_bool;
  server_will_signal_avail ← when (bool_decide (why = WhyNoDelegation.Resource)) read_bool;
  mret (OpenNoneDelegation.mkOpenNoneDelegation why server_will_push_deleg server_will_signal_avail).

Definition decode : M Decoder XdrError OpenDelegation :=
  delegation_type ← read_u32;
  match delegation_type with
  | 0 => mret None_
  | 1 => delegation ← OpenReadDelegation.decode; mret (Read delegation)
  | 2 => delegation ← OpenWriteDelegation.decode; mret (Write delegation)
  | 3 => delegation ← decode_none_ext; mret (NoneExt delegation)
  | value => invalid_discriminant "open_delegation_type4" value
  end.

End OpenDelegation.
Import OpenDelegation (OpenDelegation).

Module OpenResult.

Record OpenResult := mkOpenResult {
  stateid : StateId;
  result_flags : Z;
  attrset : Bitmap;
  delegation : OpenDelegation;
}.

End OpenResult.
Import OpenResult (OpenResult).

Module LockDenied.

Record LockDenied := mkLockDenied {
  offset : Z;
  length : Z;
  lock_type : LockType;
  owner : LockOwner;
}.

Definition decode : M Decoder XdrError LockDenied :=
  offset ← read_u64;
  length ← read_u64;
  lock_type ← read_enum "nfs_lock_type4" LockType.from_u32;
  owner ← LockOwner.decode;
  mret (mkLockDenied offset length lock_type owner).

End LockDenied.
Import LockDenied (LockDenied).

Module WriteResult.

Record WriteResult := mkWriteResult {
  count : Z;
  committed : StableHow;
  verifier : list byte;
}.

Definition decode : M Decoder XdrError WriteResult :=
  count ← read_u32;
  committed ← read_enum "stable_how4" StableHow.from_u32;
  verifier ← decode_verifier;
  mret (mkWriteResult count committed verifier).

End WriteResult.
Import WriteResult (WriteResult).

Module CommitResult.

Record CommitResult := mkCommitResult {
  verifier : list byte;
}.

Definition decode : M Decoder XdrError CommitResult :=
  verifier ← decode_verifier;
  mret (mkCommitResult verifier).

End CommitResult.
Import CommitResult (CommitResult).

Module SeekResult.

Record SeekResult := mkSeekResult {
  eof : bool;
  offset : Z;
}.

Definition found_offset (self : SeekResult) : option Z :=
  if eof self then None else Some (offset self).

Definition decode : M Decoder XdrError SeekResult :=
  eof ← read_bool;
  offset ← read_u64;
  mret (mkSeekResult eof offset).

End SeekResult.
Import SeekResult (SeekResult).

Module ReadPlusContent.

Inductive ReadPlusContent :=
  | Data (offset : Z) (data : list byte)
  | Hole (offset : Z) (length : Z).

Definition decode : M Decoder XdrError ReadPlusContent :=
  content ← read_u32;
  if content =? NFS4_CONTENT_DATA then
    offset ← read_u64;
    data ← read_opaque_vec NFS4_MAX_IO;
    mret (Data offset data)
  else if content =? NFS4_CONTENT_HOLE then
    offset ← read_u64;
    length ← read_u64;
    mret (Hole offset length)
  else invalid_discriminant "data_content4" content.

End ReadPlusContent.
Import ReadPlusContent (ReadPlusContent).

Module ReadPlusResult.

Record ReadPlusResult := mkReadPlusResult {
  eof : bool;
  contents : list ReadPlusContent;
}.

Definition decode : M Decoder XdrError ReadPlusResult :=
  eof ← read_bool;
  contents ← read_array ReadPlusContent.decode NFS4_MAX_READ_PLUS_SEGMENTS;
  mret (mkReadPlusResult eof contents).

End ReadPlusResult.
Import ReadPlusResult (ReadPlusResult).

Module IoAdviseResult.

Record IoAdviseResult := mkIoAdviseResult {
  hints : Bitmap;
}.

Definition decode : M Decoder XdrError IoAdviseResult :=
  hints ← Bitmap.decode;
  mret (mkIoAdviseResult hints).

End IoAdviseResult.
Import IoAdviseResult (IoAdviseResult).

Module OffloadStatusResult.

Record OffloadStatusResult := mkOffloadStatusResult {
  count : Z;
  complete : option Status.Status;
}.

Definition decode : M Decoder XdrError OffloadStatusResult :=
  count ← read_u64;
  complete ← read_array read_u32 1;
  mret (mkOffloadStatusResult count (Status.from_u32 <$> first complete)).

End OffloadStatusResult.
Import OffloadStatusResult (OffloadStatusResult).

Module DeviceAddr.

Record DeviceAddr := mkDeviceAddr {
  layout_type : LayoutType;
  body : list byte;
}.

Definition decode : M Decoder XdrError DeviceAddr :=
  layout_type ← LayoutType.decode;
  body ← read_opaque_vec NFS4_MAX_IO;
  mret (mkDeviceAddr layout_type body).

End DeviceAddr.
Import DeviceAddr (DeviceAddr).

Module GetDirDelegationResult.

Inductive GetDirDelegationResult :=
  | Granted (cookieverf : list byte) (stateid : StateId)
      (notification child_attributes dir_attributes : Bitmap)
  | Unavailable (will_signal_deleg_avail : bool).

Definition decode : M Decoder XdrError GetDirDelegationResult :=
  value ← read_u32;
  if value =? GDD4_OK then
    cookieverf ← decode_verifier;
    stateid ← StateId.decode;
    notification ← Bitmap.decode;
    child_attributes ← Bitmap.decode;
    dir_attributes ← Bitmap.decode;
    mret (Granted cookieverf stateid notification child_attributes dir_attributes)
  else if value =? GDD4_UNAVAIL then
    will_signal_deleg_avail ← read_bool;
    mret (Unavailable will_signal_deleg_avail)
  else invalid_discriminant "gddrnf4_status" value.

End GetDirDelegationResult.
Import GetDirDelegationResult (GetDirDelegationResult).

Module GetDeviceInfoResult.

Record GetDeviceInfoResult := mkGetDeviceInfoResult {
  device_addr : DeviceAddr;
  notification : Bitmap;
}.

Definition decode : M Decoder XdrError GetDeviceInfoResult :=
  device_addr ← DeviceAddr.decode;
  notification ← Bitmap.decode;
  mret (mkGetDeviceInfoResult device_addr notification).

End GetDeviceInfoResult.
Import GetDeviceInfoResult (GetDeviceInfoResult).

Module GetDeviceListResult.

Record GetDeviceListResult := mkGetDeviceListResult {
  cookie : Z;
  cookieverf : list byte;
  device_ids : list (list byte);
  eof : bool;
}.

Definition decode : M Decoder XdrError GetDeviceListResult :=
  cookie ← read_u64;
  cookieverf ← decode_verifier;
  device_ids ← read_array DeviceId_decode NFS4_MAX_DEVICEIDS;
  eof ← read_bool;
  mret (mkGetDeviceListResult cookie cookieverf device_ids eof).

End GetDeviceListResult.
Import GetDeviceListResult (GetDeviceListResult).

Module LayoutCommitResult.

Record LayoutCommitResult := mkLayoutCommitResult {
  new_size : option Z;
}.

Definition decode : M Decoder XdrError LayoutCommitResult :=
  new_size ← read_optional read_u64;
  mret (mkLayoutCommitResult new_size).

End LayoutCommitResult.
Import LayoutCommitResult (LayoutCommitResult).

Module LayoutGetResult.

Record LayoutGetResult := mkLayoutGetResult {
  return_on_close : bool;
  stateid : StateId;
  layouts : list Layout;
}.

Definition decode : M Decoder XdrError LayoutGetResult :=
  return_on_close ← read_bool;
  stateid ← StateId.decode;
  layouts ← read_array Layout.decode NFS4_MAX_LAYOUTS;
  mret (mkLayoutGetResult return_on_close stateid layouts).

End LayoutGetResult.
Import LayoutGetResult (LayoutGetResult).

Module LayoutReturnResult.

Record LayoutReturnResult := mkLayoutReturnResult {
  stateid : option StateId;
}.

Definition decode : M Decoder XdrError LayoutReturnResult :=
  stateid ← read_optional StateId.decode;
  mret (mkLayoutReturnResult stateid).

End LayoutReturnResult.
Import LayoutReturnResult (LayoutReturnResult).

Module SetSsvResult.

Record SetSsvResult := mkSetSsvResult {
  digest : list byte;
}.

End SetSsvResult.
Import SetSsvResult (SetSsvResult).

Module WriteResponse.

Record WriteResponse := mkWriteResponse {
  callback_id : option StateId;
  count : Z;
  committed : StableHow;
  verifier : list byte;
}.

Definition decode : M Decoder XdrError WriteResponse :=
  callback_ids ← read_array StateId.decode 1;
  count ← read_u64;
  committed ← read_enum "stable_how4" StableHow.from_u32;
  verifier ← decode_verifier;
  mret (mkWriteResponse (first callback_ids) count committed verifier).

End WriteResponse.
Import WriteResponse (WriteResponse).

Module CopyRequirements.

Record CopyRequirements := mkCopyRequirements {
  consecutive : bool;
  synchronous : bool;
}.

Definition decode : M Decoder XdrError CopyRequirements :=
  consecutive ← read_bool;
  synchronous ← read_bool;
  mret (mkCopyRequirements consecutive synchronous).

End CopyRequirements.
Import CopyRequirements (CopyRequirements).

Module CopyResult.

Record CopyResult := mkCopyResult {
  response : option WriteResponse;
  requirements : option CopyRequirements;
}.

End CopyResult.
Import CopyResult (CopyResult).

Module CopyNotifyResult.

Record CopyNotifyResult := mkCopyNotifyResult {
  lease_time : NfsTime;
  stateid : StateId;
  source_servers : list NetLoc;
}.

Definition decode : M Decoder XdrError CopyNotifyResult :=
  lease_time ← NfsTime.decode;
  stateid ← StateId.decode;
  source_servers ← read_array NetLoc.decode NFS4_MAX_NETLOCATIONS;
  mret (mkCopyNotifyResult lease_time stateid source_servers).

End CopyNotifyResult.
Import CopyNotifyResult (CopyNotifyResult).

Module DirEntry.

Record DirEntry := mkDirEntry {
  cookie : Z;
  name : str;
  attrs : Fattr;
}.

Definition basic_attributes (self : DirEntry) : outcome Error BasicAttributes.BasicAttributes :=
  parse_basic (attrs self).

Definition decode : M Decoder XdrError DirEntry :=
  cookie ← read_u64;
  name ← read_string NFS4_OPAQUE_LIMIT;
  attrs ← Fattr.decode;
  mret (mkDirEntry cookie name attrs).

End DirEntry.
Import DirEntry (DirEntry).

(** ** Operation results *)

Module OperationResult.

Inductive OperationResult :=
  | SetClientId (status : Status.Status) (result : option SetClientIdResult)
      (client_using : option NetAddr)
  | ExchangeId (status : Status.Status) (result : option ExchangeIdResult)
  | CreateSession (status : Status.Status) (result : option CreateSessionResult)
  | BindConnToSession (status : Status.Status) (result : option BindConnToSessionResult)
  | Sequence (status : Status.Status) (result : option SequenceResult)
  | StatusOnly (op : OpCode.OpCode) (status : Status.Status)
  | Open (status : Status.Status) (result : option OpenResult)
  | OpenConfirm (status : Status.Status) (stateid : option StateId)
  | Close (status : Status.Status) (stateid : option StateId)
  | Lock (status : Status.Status) (stateid : option StateId) (denied : option LockDenied)
  | LockTest (status : Status.Status) (denied : option LockDenied)
  | LockUnlock (status : Status.Status) (stateid : option StateId)
  | OpenDowngrade (status : Status.Status) (stateid : option StateId)
  | TestStateIds (status : Status.Status) (statuses : list Status.Status)
  | GetDirDelegation (status : Status.Status) (result : option GetDirDelegationResult)
  | GetDeviceInfo (status : Status.Status) (result : option GetDeviceInfoResult)
      (min_count : option Z)
  | GetDeviceList (status : Status.Status) (result : option GetDeviceListResult)
  | LayoutCommit (status : Status.Status) (result : option LayoutCommitResult)
  | LayoutGet (status : Status.Status) (result : option LayoutGetResult)
      (will_signal_layout_avail : option bool)
  | LayoutReturn (status : Status.Status) (result : option LayoutReturnResult)
  | SetSsv (status : Status.Status) (result : option SetSsvResult)
  | WantDelegation (status : Status.Status) (delegation : option OpenDelegation)
  | GetFh (status : Status.Status) (handle : option FileHandle)
  | GetAttr (status : Status.Status) (attrs : option Fattr)
  | Access (status : Status.Status) (result : option AccessResult)
  | SecInfo (op : OpCode.OpCode) (status : Status.Status) (flavors : list SecInfo)
  | Read (status : Status.Status) (eof : bool) (data : list byte)
  | Write (status : Status.Status) (result : option WriteResult)
  | Commit (status : Status.Status) (result : option CommitResult)
  | IoAdvise (status : Status.Status) (result : option IoAdviseResult)
  | Copy (status : Status.Status) (result : option CopyResult)
  | CopyNotify (status : Status.Status) (result : option CopyNotifyResult)
  | OffloadStatus (status : Status.Status) (result : option OffloadStatusResult)
  | ReadPlus (status : Status.Status) (result : option ReadPlusResult)
  | Seek (status : Status.Status) (result : option SeekResult)
  | WriteSame (status : Status.Status) (result : option WriteResponse)
  | ReadDir (status : Status.Status) (cookieverf : list byte) (entries : list DirEntry)
      (eof : bool)
  | ReadLink (status : Status.Status) (data : option str).

Definition op_code (self : OperationResult) : OpCode.OpCode :=
  match self with
  | SetClientId _ _ _ => OpCode.SetClientId
  | ExchangeId _ _ => OpCode.ExchangeId
  | CreateSession _ _ => OpCode.CreateSession
  | BindConnToSession _ _ => OpCode.BindConnToSession
  | Sequence _ _ => OpCode.Sequence
  | StatusOnly op _ => op
  | Open _ _ => OpCode.Open
  | OpenConfirm _ _ => OpCode.OpenConfirm
  | Close _ _ => OpCode.Close
  | Lock _ _ _ => OpCode.Lock
  | LockTest _ _ => OpCode.Lockt
  | LockUnlock _ _ => OpCode.Locku
  | OpenDowngrade _ _ => OpCode.OpenDowngrade
  | TestStateIds _ _ => OpCode.TestStateId
  | GetDirDelegation _ _ => OpCode.GetDirDelegation
  | GetDeviceInfo _ _ _ => OpCode.GetDeviceInfo
  | GetDeviceList _ _ => OpCode.GetDeviceList
  | LayoutCommit _ _ => OpCode.LayoutCommit
  | LayoutGet _ _ _ => OpCode.LayoutGet
  | LayoutReturn _ _ => OpCode.LayoutReturn
  | SetSsv _ _ => OpCode.SetSsv
  | WantDelegation _ _ => OpCode.WantDelegation
  | GetFh _ _ => OpCode.GetFh
  | GetAttr _ _ => OpCode.GetAttr
  | Access _ _ => OpCode.Access
  | SecInfo op _ _ => op
  | Read _ _ _ => OpCode.Read
  | Write _ _ => OpCode.Write
  | Commit _ _ => OpCode.Commit
  | IoAdvise _ _ => OpCode.IoAdvise
  | Copy _ _ => OpCode.Copy
  | CopyNotify _ _ => OpCode.CopyNotify
  | OffloadStatus _ _ => OpCode.OffloadStatus
  | ReadPlus _ _ => OpCode.ReadPlus
  | Seek _ _ => OpCode.Seek
  | WriteSame _ _ => OpCode.WriteSame
  | ReadDir _ _ _ _ => OpCode.ReadDir
  | ReadLink _ _ => OpCode.ReadLink
  end.

Definition op_name (self : OperationResult) : string := OpCode.name (op_code self).

Definition status (self : OperationResult) : Status.Status :=
  match self with
  | SetClientId status _ _
  | ExchangeId status _
  | CreateSession status _
  | BindConnToSession status _
  | Sequence status _
  | StatusOnly _ status
  | Open status _
  | OpenConfirm status _
  | Close status _
  | Lock status _ _
  | LockTest status _
  | LockUnlock status _
  | OpenDowngrade status _
  | TestStateIds status _
  | GetDirDelegation status _
  | GetDeviceInfo status _ _
  | GetDeviceList status _
  | LayoutCommit status _
  | LayoutGet status _ _
  | LayoutReturn status _
  | SetSsv status _
  | WantDelegation status _
  | GetFh status _
  | GetAttr status _
  | Access status _
  | SecInfo _ status _
  | Read status _ _
  | Write status _
  | Commit status _
  | IoAdvise status _
  | Copy status _
  | CopyNotify status _
  | OffloadStatus status _
  | ReadPlus status _
  | Seek status _
  | WriteSame status _
  | ReadDir status _ _ _
  | ReadLink status _ => status
  end.

End OperationResult.
Import OperationResult (OperationResult).

Definition decode_set_client_id_result (status : Status.Status) : M Decoder XdrError OperationResult :=
  match status with
  | Status.Ok =>
      result ← SetClientIdResult.decode;
      mret (OperationResult.SetClientId status (Some result) None)
  | Status.ClidInUse =>
      client_using ← NetAddr.decode;
      mret (OperationResult.SetClientId status None (Some client_using))
  | _ => mret (OperationResult.SetClientId status None None)
  end.

Definition skip {A} (dec : M Decoder XdrError A) : M Decoder XdrError unit := _ ← dec; mret tt.

(** [for _ in 0..count { .. }]. *)
Definition skip_each {A} (dec : M Decoder XdrError A) (count : Z) : M Decoder XdrError unit :=
  skip (read_each dec (Z.to_nat count)).

Definition skip_state_protect_reply : M Decoder XdrError unit :=
  value ← read_u32;
  match value with
  | 0 => mret tt
  | 1 =>
      skip Bitmap.decode ;;
      skip Bitmap.decode ;;
      mret tt
  | 2 =>
      skip Bitmap.decode ;;
      skip Bitmap.decode ;;
      skip read_u32 ;;
      skip read_u32 ;;
      skip read_u32 ;;
      skip read_u32 ;;
      handle_count ← read_u32;
      if handle_count >? NFS4_MAX_STATE_PROTECT_HANDLES
      then throw (LengthLimitExceeded handle_count NFS4_MAX_STATE_PROTECT_HANDLES) else
      skip_each (read_opaque NFS4_OPAQUE_LIMIT) handle_count ;;
      mret tt
  | value => invalid_discriminant "state_protect_how4" value
  end.

Definition skip_server_owner : M Decoder XdrError unit :=
  skip read_u64 ;;
  skip (read_opaque NFS4_OPAQUE_LIMIT) ;;
  mret tt.

Definition skip_impl_id : M Decoder XdrError unit :=
  skip (read_opaque NFS4_OPAQUE_LIMIT) ;;
  skip (read_opaque NFS4_OPAQUE_LIMIT) ;;
  skip read_i64 ;;
  skip read_u32.

Definition skip_impl_ids : M Decoder XdrError unit :=
  count ← read_u32;
  if count >? 1 then throw (LengthLimitExceeded count 1) else
  skip_each skip_impl_id count ;;
  mret tt.

Definition decode_exchange_id_result (status : Status.Status) : M Decoder XdrError OperationResult :=
  if negb (Status.is_ok status) then mret (OperationResult.ExchangeId status None) else
  result ← ExchangeIdResult.decode;
  skip_state_protect_reply ;;
  skip_server_owner ;;
  skip (read_opaque NFS4_OPAQUE_LIMIT) ;;
  skip_impl_ids ;;
  mret (OperationResult.ExchangeId status (Some result)).

Definition decode_create_session_result (status : Status.Status) : M Decoder XdrError OperationResult :=
  if negb (Status.is_ok status) then mret (OperationResult.CreateSession status None) else
  result ← CreateSessionResult.decode;
  mret (OperationResult.CreateSession status (Some result)).

Definition decode_bind_conn_to_session_result (status : Status.Status)
    : M Decoder XdrError OperationResult :=
  if negb (Status.is_ok status) then mret (OperationResult.BindConnToSession status None) else
  result ← BindConnToSessionResult.decode;
  mret (OperationResult.BindConnToSession status (Some result)).

Definition decode_sequence_result (status : Status.Status) : M Decoder XdrError OperationResult :=
  result ← when_ok status SequenceResult.decode;
  mret (OperationResult.Sequence status result).

Definition decode_get_dir_delegation_result (status : Status.Status)
    : M Decoder XdrError OperationResult :=
  result ← when_ok status GetDirDelegationResult.decode;
  mret (OperationResult.GetDirDelegation status result).

Definition decode_get_device_info_result (status : Status.Status)
    : M Decoder XdrError OperationResult :=
  match status with
  | Status.Ok =>
      result ← GetDeviceInfoResult.decode;
      mret (OperationResult.GetDeviceInfo status (Some result) None)
  | Status.TooSmall =>
      min_count ← read_u32;
      mret (OperationResult.GetDeviceInfo status None (Some min_count))
  | _ => mret (OperationResult.GetDeviceInfo status None None)
  end.

Definition decode_get_device_list_result (status : Status.Status)
    : M Decoder XdrError OperationResult :=
  result ← when_ok status GetDeviceListResult.decode;
  mret (OperationResult.GetDeviceList status result).

Definition decode_layout_commit_result (status : Status.Status) : M Decoder XdrError OperationResult :=
  result ← when_ok status LayoutCommitResult.decode;
  mret (OperationResult.LayoutCommit status result).

Definition decode_layout_get_result (status : Status.Status) : M Decoder XdrError OperationResult :=
  match status with
  | Status.Ok =>
      result ← LayoutGetResult.decode;
      mret (OperationResult.LayoutGet status (Some result) None)
  | Status.LayoutTryLater =>
      will_signal_layout_avail ← read_bool;
      mret (OperationResult.LayoutGet status None (Some will_signal_layout_avail))
  | _ => mret (OperationResult.LayoutGet status None None)
  end.

Definition decode_layout_return_result (status : Status.Status) : M Decoder XdrError OperationResult :=
  result ← when_ok status LayoutReturnResult.decode;
  mret (OperationResult.LayoutReturn status result).

Definition skip_change_info : M Decoder XdrError unit :=
  skip read_bool ;;
  skip read_u64 ;;
  skip read_u64 ;;
  mret tt.

Definition decode_open_result (status : Status.Status) : M Decoder XdrError OperationResult :=
  if negb (Status.is_ok status) then mret (OperationResult.Open status None) else
  stateid ← StateId.decode;
  skip_change_info ;;
  result_flags ← read_u32;
  attrset ← Bitmap.decode;
  delegation ← OpenDelegation.decode;
  mret (OperationResult.Open status
          (Some (OpenResult.mkOpenResult stateid result_flags attrset delegation))).

(** One turn of [while bool::decode(decoder)? { .. }]. *)
Definition decode_readdir_step (entries : list DirEntry)
    : M Decoder XdrError (list DirEntry + list DirEntry) :=
  more ← read_bool;
  if (more : bool) then
    if zlen entries >=? NFS4_MAX_DIR_ENTRIES
    then throw (LengthLimitExceeded (zlen entries + 1) NFS4_MAX_DIR_ENTRIES) else
    entry ← DirEntry.decode;
    continue_ (entries ++ [entry])
  else break_ entries.

Definition decode_readdir_result (status : Status.Status) : M Decoder XdrError OperationResult :=
  if negb (Status.is_ok status)
  then mret (OperationResult.ReadDir status (replicate 8 x00) [] false) else
  cookieverf ← decode_verifier;
  entries ← loop 1000002 decode_readdir_step [];
  eof ← read_bool;
  mret (OperationResult.ReadDir status cookieverf entries eof).

(** [impl Decode for OperationResult]. *)
Definition OperationResult_decode : M Decoder XdrError OperationResult :=
  raw_op ← read_u32;
  raw_status ← read_u32;
  let op := match OpCode.from_u32 raw_op with Some op => op | None => OpCode.Illegal end in
  let status := Status.from_u32 raw_status in
  match op with
  | OpCode.SetClientId => decode_set_client_id_result status
  | OpCode.ExchangeId => decode_exchange_id_result status
  | OpCode.CreateSession => decode_create_session_result status
  | OpCode.BindConnToSession => decode_bind_conn_to_session_result status
  | OpCode.Sequence => decode_sequence_result status
  | OpCode.Open => decode_open_result status
  | OpCode.OpenConfirm =>
      stateid ← when_ok status StateId.decode;
      mret (OperationResult.OpenConfirm status stateid)
  | OpCode.Close =>
      stateid ← when_ok status StateId.decode;
      mret (OperationResult.Close status stateid)
  | OpCode.Lock =>
      stateid ← when (bool_decide (status = Status.Ok)) StateId.decode;
      denied ← when (bool_decide (status = Status.Denied)) LockDenied.decode;
      mret (OperationResult.Lock status stateid denied)
  | OpCode.Lockt =>
      denied ← when (bool_decide (status = Status.Denied)) LockDenied.decode;
      mret (OperationResult.LockTest status denied)
  | OpCode.Locku =>
      stateid ← when_ok status StateId.decode;
      mret (OperationResult.LockUnlock status stateid)
  | OpCode.OpenDowngrade =>
      stateid ← when_ok status StateId.decode;
      mret (OperationResult.OpenDowngrade status stateid)
  | OpCode.TestStateId =>
      statuses ← when_ok status (read_array read_u32 NFS4_MAX_OPS);
      mret (OperationResult.TestStateIds status
              (match statuses with Some raw => Status.from_u32 <$> raw | None => [] end))
  | OpCode.GetDirDelegation => decode_get_dir_delegation_result status
  | OpCode.GetDeviceInfo => decode_get_device_info_result status
  | OpCode.GetDeviceList => decode_get_device_list_result status
  | OpCode.LayoutCommit => decode_layout_commit_result status
  | OpCode.LayoutGet => decode_layout_get_result status
  | OpCode.LayoutReturn => decode_layout_return_result status
  | OpCode.SetSsv =>
      digest ← when_ok status (read_opaque_vec NFS4_OPAQUE_LIMIT);
      mret (OperationResult.SetSsv status (SetSsvResult.mkSetSsvResult <$> digest))
  | OpCode.WantDelegation =>
      delegation ← when_ok status OpenDelegation.decode;
      mret (OperationResult.WantDelegation status delegation)
  | OpCode.GetFh =>
      handle ← when_ok status FileHandle.decode;
      mret (OperationResult.GetFh status handle)
  | OpCode.GetAttr =>
      attrs ← when_ok status Fattr.decode;
      mret (OperationResult.GetAttr status attrs)
  | OpCode.Access =>
      result ← when_ok status (supported ← read_u32; access ← read_u32;
                               mret (AccessResult.mkAccessResult supported access));
      mret (OperationResult.Access status result)
  | OpCode.SecInfo | OpCode.SecInfoNoName =>
      flavors ← when_ok status (read_array SecInfo.decode NFS4_MAX_SECINFO_FLAVORS);
      mret (OperationResult.SecInfo op status (match flavors with Some l => l | None => [] end))
  | OpCode.Read =>
      if Status.is_ok status then
        eof ← read_bool;
        data ← read_opaque_vec NFS4_MAX_IO;
        mret (OperationResult.Read status eof data)
      else mret (OperationResult.Read status false [])
  | OpCode.Write =>
      result ← when_ok status WriteResult.decode;
      mret (OperationResult.Write status result)
  | OpCode.Commit =>
      result ← when_ok status CommitResult.decode;
      mret (OperationResult.Commit status result)
  | OpCode.IoAdvise =>
      result ← when_ok status IoAdviseResult.decode;
      mret (OperationResult.IoAdvise status result)
  | OpCode.Copy =>
      match status with
      | Status.Ok =>
          response ← WriteResponse.decode;
          requirements ← CopyRequirements.decode;
          mret (OperationResult.Copy status
                  (Some (CopyResult.mkCopyResult (Some response) (Some requirements))))
      | Status.OffloadNoReqs =>
          requirements ← CopyRequirements.decode;
          mret (OperationResult.Copy status (Some (CopyResult.mkCopyResult None (Some requirements))))
      | _ => mret (OperationResult.Copy status None)
      end
  | OpCode.CopyNotify =>
      result ← when_ok status CopyNotifyResult.decode;
      mret (OperationResult.CopyNotify status result)
  | OpCode.OffloadStatus =>
      result ← when_ok status OffloadStatusResult.decode;
      mret (OperationResult.OffloadStatus status result)
  | OpCode.ReadPlus =>
      result ← when_ok status ReadPlusResult.decode;
      mret (OperationResult.ReadPlus status result)
  | OpCode.Seek =>
      result ← when_ok status SeekResult.decode;
      mret (OperationResult.Seek status result)
  | OpCode.WriteSame =>
      result ← when_ok status WriteResponse.decode;
      mret (OperationResult.WriteSame status result)
  | OpCode.SetAttr =>
      when_ok status (skip Bitmap.decode) ;;
      mret (OperationResult.StatusOnly op status)
  | OpCode.Remove =>
      when_ok status skip_change_info ;;
      mret (OperationResult.StatusOnly op status)
  | OpCode.Link =>
      when_ok status skip_change_info ;;
      mret (OperationResult.StatusOnly op status)
  | OpCode.Rename =>
      when_ok status (skip_change_info ;; skip_change_info) ;;
      mret (OperationResult.StatusOnly op status)
  | OpCode.Create =>
      when_ok status (skip_change_info ;; skip Bitmap.decode) ;;
      mret (OperationResult.StatusOnly op status)
  | OpCode.ReadDir => decode_readdir_result status
  | OpCode.ReadLink =>
      data ← when_ok status (read_string NFS4_OPAQUE_LIMIT);
      mret (OperationResult.ReadLink status data)
  | _ => mret (OperationResult.StatusOnly op status)
  end.

Module CompoundResponse.

Record CompoundResponse := mkCompoundResponse {
  status : Status.Status;
  tag : str;
  results : list OperationResult;
}.

Definition decode : M Decoder XdrError CompoundResponse :=
  status ← read_u32;
  tag ← read_string NFS4_OPAQUE_LIMIT;
  results ← read_array OperationResult_decode NFS4_MAX_OPS;
  mret (mkCompoundResponse (Status.from_u32 status) tag results).

Definition ensure_ok (self : CompoundResponse) : outcome Error unit :=
  if Status.is_ok (status self) then Ok tt else
  match list.last (results self) with
  | Some result => Err (NfsV4 (OperationResult.op_name result) (OperationResult.status result))
  | None => Err (NfsV4 "COMPOUND" (status self))
  end.

End CompoundResponse.
Import CompoundResponse (CompoundResponse).
