(* ===== verification/V4ResultsSpec.v ===== *)
(** * Decoding COMPOUND responses (laws of [V4Results])

    Every decoder of a result is safe on every input: it neither faults nor
    leaves its input, and a directory listing stays within its limit.  The
    wire format of responses follows RFC 8881; [wire_result] gives it for the
    results the client depends on, and decoding a response returns the results
    the server meant. *)

From Stdlib Require Import Strings.String Strings.Byte.
From S2P Require Import Prelude Text Xdr XdrSpec XdrList Status Errors Rpc RpcSpec V3Wire.
From S2P Require Import V4Attr V4AttrSpec V4Ops V4Results.
Import OperationResult (OperationResult).
Import CompoundResponse (CompoundResponse).

#[local] Open Scope Z_scope.

(** ** Safety on every input *)

(** Follow the code of a decoder. *)
Ltac dec_safe_solve :=
  repeat first
    [ apply _
    | lazymatch goal with |- DecSafe (mbind _ _) => apply dec_safe_bind; [|intros ?] end
    | case_match ].

#[export] Instance dec_safe_invalid {A} name v : DecSafe (A := A) (invalid_discriminant name v).
Proof. unfold invalid_discriminant. apply _. Qed.

#[export] Instance dec_safe_read_enum {A} name (from : Z → option A) : DecSafe (read_enum name from).
Proof. unfold read_enum. dec_safe_solve. Qed.

#[export] Instance dec_safe_when {A} b (dec : M Decoder XdrError A) : DecSafe dec → DecSafe (when b dec).
Proof. intros. unfold when. dec_safe_solve. Qed.

#[export] Instance dec_safe_when_ok {A} st (dec : M Decoder XdrError A) : DecSafe dec → DecSafe (when_ok st dec).
Proof. intros. unfold when_ok. apply _. Qed.

#[export] Instance dec_safe_skip {A} (dec : M Decoder XdrError A) : DecSafe dec → DecSafe (skip dec).
Proof. intros. unfold skip. apply _. Qed.

#[export] Instance dec_safe_skip_each {A} (dec : M Decoder XdrError A) n : DecSafe dec → DecSafe (skip_each dec n).
Proof. intros. unfold skip_each. apply _. Qed.

#[export] Instance dec_safe_read_opaque_vec max : DecSafe (read_opaque_vec max).
Proof. unfold read_opaque_vec. apply _. Qed.

#[export] Instance dec_safe_NetAddr : DecSafe NetAddr.decode.
Proof. unfold NetAddr.decode. dec_safe_solve. Qed.
#[export] Instance dec_safe_ChannelAttrs : DecSafe ChannelAttrs.decode.
Proof. unfold ChannelAttrs.decode. dec_safe_solve. Qed.
#[export] Instance dec_safe_LockOwner : DecSafe LockOwner.decode.
Proof. unfold LockOwner.decode. dec_safe_solve. Qed.
#[export] Instance dec_safe_LayoutType : DecSafe LayoutType.decode.
Proof. unfold LayoutType.decode. dec_safe_solve. Qed.
#[export] Instance dec_safe_LayoutIomode : DecSafe LayoutIomode.decode.
Proof. unfold LayoutIomode.decode. dec_safe_solve. Qed.
#[export] Instance dec_safe_LayoutContent : DecSafe LayoutContent.decode.
Proof. unfold LayoutContent.decode. dec_safe_solve. Qed.
#[export] Instance dec_safe_Layout : DecSafe Layout.decode.
Proof. unfold Layout.decode. dec_safe_solve. Qed.
#[export] Instance dec_safe_NetLoc : DecSafe NetLoc.decode.
Proof. unfold NetLoc.decode. dec_safe_solve. Qed.
#[export] Instance dec_safe_SecInfo : DecSafe SecInfo.decode.
Proof. unfold SecInfo.decode. dec_safe_solve. Qed.
#[export] Instance dec_safe_SetClientIdResult : DecSafe SetClientIdResult.decode.
Proof. unfold SetClientIdResult.decode. dec_safe_solve. Qed.
#[export] Instance dec_safe_ExchangeIdResult : DecSafe ExchangeIdResult.decode.
Proof. unfold ExchangeIdResult.decode. dec_safe_solve. Qed.
#[export] Instance dec_safe_CreateSessionResult : DecSafe CreateSessionResult.decode.
Proof. unfold CreateSessionResult.decode. dec_safe_solve. Qed.
#[export] Instance dec_safe_SequenceResult : DecSafe SequenceResult.decode.
Proof. unfold SequenceResult.decode. dec_safe_solve. Qed.
#[export] Instance dec_safe_BindConnToSessionResult : DecSafe BindConnToSessionResult.decode.
Proof. unfold BindConnToSessionResult.decode. dec_safe_solve. Qed.
#[export] Instance dec_safe_NfsAce : DecSafe NfsAce.decode.
Proof. unfold NfsAce.decode. dec_safe_solve. Qed.
#[export] Instance dec_safe_NfsSpaceLimit : DecSafe NfsSpaceLimit.decode.
Proof. unfold NfsSpaceLimit.decode. dec_safe_solve. Qed.
#[export] Instance dec_safe_OpenReadDelegation : DecSafe OpenReadDelegation.decode.
Proof. unfold OpenReadDelegation.decode. dec_safe_solve. Qed.
#[export] Instance dec_safe_OpenWriteDelegation : DecSafe OpenWriteDelegation.decode.
Proof. unfold OpenWriteDelegation.decode. dec_safe_solve. Qed.
#[export] Instance dec_safe_OpenDelegation_none_ext : DecSafe OpenDelegation.decode_none_ext.
Proof. unfold OpenDelegation.decode_none_ext. dec_safe_solve. Qed.
#[export] Instance dec_safe_OpenDelegation : DecSafe OpenDelegation.decode.
Proof. unfold OpenDelegation.decode. dec_safe_solve. Qed.
#[export] Instance dec_safe_LockDenied : DecSafe LockDenied.decode.
Proof. unfold LockDenied.decode. dec_safe_solve. Qed.
#[export] Instance dec_safe_WriteResult : DecSafe WriteResult.decode.
Proof. unfold WriteResult.decode. dec_safe_solve. Qed.
#[export] Instance dec_safe_CommitResult : DecSafe CommitResult.decode.
Proof. unfold CommitResult.decode. dec_safe_solve. Qed.
#[export] Instance dec_safe_SeekResult : DecSafe SeekResult.decode.
Proof. unfold SeekResult.decode. dec_safe_solve. Qed.
#[export] Instance dec_safe_ReadPlusContent : DecSafe ReadPlusContent.decode.
Proof. unfold ReadPlusContent.decode. dec_safe_solve. Qed.
#[export] Instance dec_safe_ReadPlusResult : DecSafe ReadPlusResult.decode.
Proof. unfold ReadPlusResult.decode. dec_safe_solve. Qed.
#[export] Instance dec_safe_IoAdviseResult : DecSafe IoAdviseResult.decode.
Proof. unfold IoAdviseResult.decode. dec_safe_solve. Qed.
#[export] Instance dec_safe_OffloadStatusResult : DecSafe OffloadStatusResult.decode.
Proof. unfold OffloadStatusResult.decode. dec_safe_solve. Qed.
#[export] Instance dec_safe_DeviceAddr : DecSafe DeviceAddr.decode.
Proof. unfold DeviceAddr.decode. dec_safe_solve. Qed.
#[export] Instance dec_safe_GetDirDelegationResult : DecSafe GetDirDelegationResult.decode.
Proof. unfold GetDirDelegationResult.decode. dec_safe_solve. Qed.
#[export] Instance dec_safe_GetDeviceInfoResult : DecSafe GetDeviceInfoResult.decode.
Proof. unfold GetDeviceInfoResult.decode. dec_safe_solve. Qed.
#[export] Instance dec_safe_GetDeviceListResult : DecSafe GetDeviceListResult.decode.
Proof. unfold GetDeviceListResult.decode. dec_safe_solve. Qed.
#[export] Instance dec_safe_LayoutCommitResult : DecSafe LayoutCommitResult.decode.
Proof. unfold LayoutCommitResult.decode. dec_safe_solve. Qed.
#[export] Instance dec_safe_LayoutGetResult : DecSafe LayoutGetResult.decode.
Proof. unfold LayoutGetResult.decode. dec_safe_solve. Qed.
#[export] Instance dec_safe_LayoutReturnResult : DecSafe LayoutReturnResult.decode.
Proof. unfold LayoutReturnResult.decode. dec_safe_solve. Qed.
#[export] Instance dec_safe_WriteResponse : DecSafe WriteResponse.decode.
Proof. unfold WriteResponse.decode. dec_safe_solve. Qed.
#[export] Instance dec_safe_CopyRequirements : DecSafe CopyRequirements.decode.
Proof. unfold CopyRequirements.decode. dec_safe_solve. Qed.
#[export] Instance dec_safe_CopyNotifyResult : DecSafe CopyNotifyResult.decode.
Proof. unfold CopyNotifyResult.decode. dec_safe_solve. Qed.
#[export] Instance dec_safe_DirEntry : DecSafe DirEntry.decode.
Proof. unfold DirEntry.decode. dec_safe_solve. Qed.
#[export] Instance dec_safe_skip_state_protect_reply : DecSafe skip_state_protect_reply.
Proof. unfold skip_state_protect_reply. dec_safe_solve. Qed.
#[export] Instance dec_safe_skip_server_owner : DecSafe skip_server_owner.
Proof. unfold skip_server_owner. dec_safe_solve. Qed.
#[export] Instance dec_safe_skip_impl_id : DecSafe skip_impl_id.
Proof. unfold skip_impl_id. dec_safe_solve. Qed.
#[export] Instance dec_safe_skip_impl_ids : DecSafe skip_impl_ids.
Proof. unfold skip_impl_ids. dec_safe_solve. Qed.
#[export] Instance dec_safe_skip_change_info : DecSafe skip_change_info.
Proof. unfold skip_change_info. dec_safe_solve. Qed.
#[export] Instance dec_safe_set_client_id_result status : DecSafe (decode_set_client_id_result status).
Proof. unfold decode_set_client_id_result. dec_safe_solve. Qed.
#[export] Instance dec_safe_exchange_id_result status : DecSafe (decode_exchange_id_result status).
Proof. unfold decode_exchange_id_result. dec_safe_solve. Qed.
#[export] Instance dec_safe_create_session_result status : DecSafe (decode_create_session_result status).
Proof. unfold decode_create_session_result. dec_safe_solve. Qed.
#[export] Instance dec_safe_bind_conn_to_session_result status : DecSafe (decode_bind_conn_to_session_result status).
Proof. unfold decode_bind_conn_to_session_result. dec_safe_solve. Qed.
#[export] Instance dec_safe_sequence_result status : DecSafe (decode_sequence_result status).
Proof. unfold decode_sequence_result. dec_safe_solve. Qed.
#[export] Instance dec_safe_get_dir_delegation_result status : DecSafe (decode_get_dir_delegation_result status).
Proof. unfold decode_get_dir_delegation_result. dec_safe_solve. Qed.
#[export] Instance dec_safe_get_device_info_result status : DecSafe (decode_get_device_info_result status).
Proof. unfold decode_get_device_info_result. dec_safe_solve. Qed.
#[export] Instance dec_safe_get_device_list_result status : DecSafe (decode_get_device_list_result status).
Proof. unfold decode_get_device_list_result. dec_safe_solve. Qed.
#[export] Instance dec_safe_layout_commit_result status : DecSafe (decode_layout_commit_result status).
Proof. unfold decode_layout_commit_result. dec_safe_solve. Qed.
#[export] Instance dec_safe_layout_get_result status : DecSafe (decode_layout_get_result status).
Proof. unfold decode_layout_get_result. dec_safe_solve. Qed.
#[export] Instance dec_safe_layout_return_result status : DecSafe (decode_layout_return_result status).
Proof. unfold decode_layout_return_result. dec_safe_solve. Qed.
#[export] Instance dec_safe_open_result status : DecSafe (decode_open_result status).
Proof. unfold decode_open_result. dec_safe_solve. Qed.

(** The loop of [decode_readdir_result] reads a linked list. *)
Lemma readdir_full (acc : list DirEntry.DirEntry) :
  zlen acc ≤ NFS4_MAX_DIR_ENTRIES → (zlen acc >=? NFS4_MAX_DIR_ENTRIES) = (zlen acc =? NFS4_MAX_DIR_ENTRIES).
Proof. intros. rewrite Z.geb_leb. apply eq_bool_prop_intro. rewrite !Is_true_true. lia. Qed.

#[export] Instance dec_safe_readdir_loop : DecSafe (loop 1000002 decode_readdir_step []).
Proof.
  apply (dec_safe_linked DirEntry.decode (λ acc, zlen acc >=? NFS4_MAX_DIR_ENTRIES)
           (λ acc, LengthLimitExceeded (zlen acc + 1) NFS4_MAX_DIR_ENTRIES) NFS4_MAX_DIR_ENTRIES
           readdir_full). by vm_compute.
Qed.

#[export] Instance dec_safe_readdir_result status : DecSafe (decode_readdir_result status).
Proof. unfold decode_readdir_result. dec_safe_solve. Qed.

#[export] Instance dec_safe_OperationResult : DecSafe OperationResult_decode.
Proof. unfold OperationResult_decode. dec_safe_solve. Qed.

#[export] Instance dec_safe_CompoundResponse : DecSafe CompoundResponse.decode.
Proof. unfold CompoundResponse.decode. dec_safe_solve. Qed.

(** ** The results a server sends *)

Definition status_ok (s : Status.Status) : Prop :=
  Status.from_u32 (Status.as_u32 s) = s ∧ is_u32 (Status.as_u32 s).
Definition wire_status (s : Status.Status) : list byte := wire_u32 (Status.as_u32 s).

(** The operations whose successful result has no body. *)
Definition is_plain (op : OpCode.OpCode) : bool :=
  match op with
  | OpCode.SetClientId | OpCode.ExchangeId | OpCode.CreateSession | OpCode.BindConnToSession
  | OpCode.Sequence | OpCode.Open | OpCode.OpenConfirm | OpCode.Close | OpCode.Lock | OpCode.Lockt
  | OpCode.Locku | OpCode.OpenDowngrade | OpCode.TestStateId | OpCode.GetDirDelegation
  | OpCode.GetDeviceInfo | OpCode.GetDeviceList | OpCode.LayoutCommit | OpCode.LayoutGet
  | OpCode.LayoutReturn | OpCode.SetSsv | OpCode.WantDelegation | OpCode.GetFh | OpCode.GetAttr
  | OpCode.Access | OpCode.SecInfo | OpCode.SecInfoNoName | OpCode.Read | OpCode.Write
  | OpCode.Commit | OpCode.IoAdvise | OpCode.Copy | OpCode.CopyNotify | OpCode.OffloadStatus
  | OpCode.ReadPlus | OpCode.Seek | OpCode.WriteSame | OpCode.SetAttr | OpCode.Remove | OpCode.Link
  | OpCode.Rename | OpCode.Create | OpCode.ReadDir | OpCode.ReadLink => false
  | _ => true
  end.

(** The result of a failed operation, when it has no body. *)
Definition failed (op : OpCode.OpCode) (st : Status.Status) : OperationResult :=
  match op with
  | OpCode.SetClientId => OperationResult.SetClientId st None None
  | OpCode.ExchangeId => OperationResult.ExchangeId st None
  | OpCode.CreateSession => OperationResult.CreateSession st None
  | OpCode.BindConnToSession => OperationResult.BindConnToSession st None
  | OpCode.Sequence => OperationResult.Sequence st None
  | OpCode.Open => OperationResult.Open st None
  | OpCode.OpenConfirm => OperationResult.OpenConfirm st None
  | OpCode.Close => OperationResult.Close st None
  | OpCode.Lock => OperationResult.Lock st None None
  | OpCode.Lockt => OperationResult.LockTest st None
  | OpCode.Locku => OperationResult.LockUnlock st None
  | OpCode.OpenDowngrade => OperationResult.OpenDowngrade st None
  | OpCode.TestStateId => OperationResult.TestStateIds st []
  | OpCode.GetDirDelegation => OperationResult.GetDirDelegation st None
  | OpCode.GetDeviceInfo => OperationResult.GetDeviceInfo st None None
  | OpCode.GetDeviceList => OperationResult.GetDeviceList st None
  | OpCode.LayoutCommit => OperationResult.LayoutCommit st None
  | OpCode.LayoutGet => OperationResult.LayoutGet st None None
  | OpCode.LayoutReturn => OperationResult.LayoutReturn st None
  | OpCode.SetSsv => OperationResult.SetSsv st None
  | OpCode.WantDelegation => OperationResult.WantDelegation st None
  | OpCode.GetFh => OperationResult.GetFh st None
  | OpCode.GetAttr => OperationResult.GetAttr st None
  | OpCode.Access => OperationResult.Access st None
  | OpCode.SecInfo | OpCode.SecInfoNoName => OperationResult.SecInfo op st []
  | OpCode.Read => OperationResult.Read st false []
  | OpCode.Write => OperationResult.Write st None
  | OpCode.Commit => OperationResult.Commit st None
  | OpCode.IoAdvise => OperationResult.IoAdvise st None
  | OpCode.Copy => OperationResult.Copy st None
  | OpCode.CopyNotify => OperationResult.CopyNotify st None
  | OpCode.OffloadStatus => OperationResult.OffloadStatus st None
  | OpCode.ReadPlus => OperationResult.ReadPlus st None
  | OpCode.Seek => OperationResult.Seek st None
  | OpCode.WriteSame => OperationResult.WriteSame st None
  | OpCode.ReadDir => OperationResult.ReadDir st (replicate 8 x00) [] false
  | OpCode.ReadLink => OperationResult.ReadLink st None
  | _ => OperationResult.StatusOnly op st
  end.

(** The failures that carry a body in RFC 8881.  SETATTR always sends the
    bitmap of the attributes it set. *)
Definition failure_has_body (op : OpCode.OpCode) (st : Status.Status) : bool :=
  match op, st with
  | OpCode.SetClientId, Status.ClidInUse | OpCode.Lock, Status.Denied | OpCode.Lockt, Status.Denied
  | OpCode.GetDeviceInfo, Status.TooSmall | OpCode.LayoutGet, Status.LayoutTryLater
  | OpCode.Copy, Status.OffloadNoReqs | OpCode.SetAttr, _ => true
  | _, _ => false
  end.

Definition wire_change_info (atomic : bool) (before after : Z) : list byte :=
  wire_bool atomic ++ wire_u64 before ++ wire_u64 after.

Definition wire_ChannelAttrs (c : ChannelAttrs.ChannelAttrs) : list byte :=
  wire_u32 (ChannelAttrs.header_pad_size c) ++ wire_u32 (ChannelAttrs.max_request_size c)
  ++ wire_u32 (ChannelAttrs.max_response_size c) ++ wire_u32 (ChannelAttrs.max_response_size_cached c)
  ++ wire_u32 (ChannelAttrs.max_operations c) ++ wire_u32 (ChannelAttrs.max_requests c)
  ++ wire_array wire_u32 (ChannelAttrs.rdma_ird c).
Definition ChannelAttrs_ok (c : ChannelAttrs.ChannelAttrs) : Prop :=
  is_u32 (ChannelAttrs.header_pad_size c) ∧ is_u32 (ChannelAttrs.max_request_size c)
  ∧ is_u32 (ChannelAttrs.max_response_size c) ∧ is_u32 (ChannelAttrs.max_response_size_cached c)
  ∧ is_u32 (ChannelAttrs.max_operations c) ∧ is_u32 (ChannelAttrs.max_requests c)
  ∧ array_ok is_u32 1 (ChannelAttrs.rdma_ird c).

#[export] Instance ChannelAttrs_decode_from :
  DecodesFrom ChannelAttrs.decode wire_ChannelAttrs ChannelAttrs_ok.
Proof.
  intros [] (? & ? & ? & ? & ? & ? & ?). unfold ChannelAttrs.decode, wire_ChannelAttrs. reads_solve.
Qed.

#[export] Instance ChannelAttrs_encode_to :
  EncodesTo ChannelAttrs.encode wire_ChannelAttrs ChannelAttrs_ok.
Proof.
  apply encodes_writes. intros [] (? & ? & ? & ? & ? & ? & ?).
  unfold ChannelAttrs.encode, wire_ChannelAttrs. writes_solve.
  by eapply array_ok_weaken.
Qed.

Definition LockOwner_ok (o : LockOwner.LockOwner) : Prop :=
  is_u64 (LockOwner.client_id o) ∧ opaque_ok NFS4_OPAQUE_LIMIT (LockOwner.owner o).
Definition wire_LockOwner (o : LockOwner.LockOwner) : list byte :=
  wire_u64 (LockOwner.client_id o) ++ wire_opaque (LockOwner.owner o).

#[export] Instance LockOwner_decode_from : DecodesFrom LockOwner.decode wire_LockOwner LockOwner_ok.
Proof. intros [] []. unfold LockOwner.decode, read_opaque_vec, wire_LockOwner. reads_solve. Qed.

#[export] Instance LockOwner_encode_to : EncodesTo LockOwner.encode wire_LockOwner LockOwner_ok.
Proof.
  apply encodes_writes. intros o []. unfold LockOwner.encode. writes_solve.
Qed.

(** An enum read from its code. *)
Lemma reads_enum {A} name (from : Z → option A) v a :
  is_u32 v → from v = Some a → reads (read_enum name from) (wire_u32 v) a.
Proof.
  intros Hv Ha. unfold read_enum. eapply reads_bind_last; [reads_leaf|]. rewrite Ha. apply reads_ret.
Qed.

Definition wire_LockDenied (d : LockDenied.LockDenied) : list byte :=
  wire_u64 (LockDenied.offset d) ++ wire_u64 (LockDenied.length d)
  ++ wire_u32 (LockType.as_u32 (LockDenied.lock_type d)) ++ wire_LockOwner (LockDenied.owner d).
Definition LockDenied_ok (d : LockDenied.LockDenied) : Prop :=
  is_u64 (LockDenied.offset d) ∧ is_u64 (LockDenied.length d) ∧ LockOwner_ok (LockDenied.owner d).

#[export] Instance LockDenied_decode_from : DecodesFrom LockDenied.decode wire_LockDenied LockDenied_ok.
Proof.
  intros [o l t w] (? & ? & ?). unfold LockDenied.decode, wire_LockDenied.
  cbn [LockDenied.offset LockDenied.length LockDenied.lock_type LockDenied.owner] in *.
  do 2 (eapply reads_bind; [reads_leaf|]).
  eapply reads_bind; [by apply (reads_enum _ _ _ t); destruct t|]. reads_solve.
Qed.

Lemma reads_session_id sid : zlen sid = NFS4_SESSIONID_SIZE → reads decode_session_id (wire_fixed sid) sid.
Proof. apply reads_array. Qed.
Lemma reads_verifier v : zlen v = NFS4_VERIFIER_SIZE → reads decode_verifier (wire_fixed v) v.
Proof. apply reads_array. Qed.

Definition wire_SequenceResult (r : SequenceResult.SequenceResult) : list byte :=
  wire_fixed (SequenceResult.session_id r) ++ wire_u32 (SequenceResult.sequence_id r)
  ++ wire_u32 (SequenceResult.slot_id r) ++ wire_u32 (SequenceResult.highest_slot_id r)
  ++ wire_u32 (SequenceResult.target_highest_slot_id r) ++ wire_u32 (SequenceResult.status_flags r).
Definition SequenceResult_ok (r : SequenceResult.SequenceResult) : Prop :=
  zlen (SequenceResult.session_id r) = NFS4_SESSIONID_SIZE ∧ is_u32 (SequenceResult.sequence_id r)
  ∧ is_u32 (SequenceResult.slot_id r) ∧ is_u32 (SequenceResult.highest_slot_id r)
  ∧ is_u32 (SequenceResult.target_highest_slot_id r) ∧ is_u32 (SequenceResult.status_flags r).

#[export] Instance SequenceResult_decode_from :
  DecodesFrom SequenceResult.decode wire_SequenceResult SequenceResult_ok.
Proof.
  intros [] (? & ? & ? & ? & ? & ?). unfold SequenceResult.decode, wire_SequenceResult.
  eapply reads_bind; [by apply reads_session_id|]. reads_solve.
Qed.

Definition wire_CreateSessionResult (r : CreateSessionResult.CreateSessionResult) : list byte :=
  wire_fixed (CreateSessionResult.session_id r) ++ wire_u32 (CreateSessionResult.sequence_id r)
  ++ wire_u32 (CreateSessionResult.flags r) ++ wire_ChannelAttrs (CreateSessionResult.fore_channel_attrs r)
  ++ wire_ChannelAttrs (CreateSessionResult.back_channel_attrs r).
Definition CreateSessionResult_ok (r : CreateSessionResult.CreateSessionResult) : Prop :=
  zlen (CreateSessionResult.session_id r) = NFS4_SESSIONID_SIZE
  ∧ is_u32 (CreateSessionResult.sequence_id r) ∧ is_u32 (CreateSessionResult.flags r)
  ∧ ChannelAttrs_ok (CreateSessionResult.fore_channel_attrs r)
  ∧ ChannelAttrs_ok (CreateSessionResult.back_channel_attrs r).

#[export] Instance CreateSessionResult_decode_from :
  DecodesFrom CreateSessionResult.decode wire_CreateSessionResult CreateSessionResult_ok.
Proof.
  intros [] (? & ? & ? & ? & ?). unfold CreateSessionResult.decode, wire_CreateSessionResult.
  eapply reads_bind; [by apply reads_session_id|]. reads_solve.
Qed.

Definition wire_WriteResult (r : WriteResult.WriteResult) : list byte :=
  wire_u32 (WriteResult.count r) ++ wire_u32 (StableHow.as_u32 (WriteResult.committed r))
  ++ wire_fixed (WriteResult.verifier r).
Definition WriteResult_ok (r : WriteResult.WriteResult) : Prop :=
  is_u32 (WriteResult.count r) ∧ zlen (WriteResult.verifier r) = NFS4_VERIFIER_SIZE.

#[export] Instance WriteResult_decode_from : DecodesFrom WriteResult.decode wire_WriteResult WriteResult_ok.
Proof.
  intros [c h v] []. unfold WriteResult.decode, wire_WriteResult.
  cbn [WriteResult.count WriteResult.committed WriteResult.verifier] in *.
  eapply reads_bind; [reads_leaf|]. eapply reads_bind; [by apply (reads_enum _ _ _ h); destruct h|].
  eapply reads_bind_last; [by apply reads_verifier|]. apply reads_ret.
Qed.

Definition wire_DirEntry (e : DirEntry.DirEntry) : list byte :=
  wire_u64 (DirEntry.cookie e) ++ wire_opaque (DirEntry.name e) ++ wire_Fattr (DirEntry.attrs e).
Definition DirEntry_ok (e : DirEntry.DirEntry) : Prop :=
  is_u64 (DirEntry.cookie e) ∧ string_ok NFS4_OPAQUE_LIMIT (DirEntry.name e) ∧ Fattr_ok (DirEntry.attrs e).

#[export] Instance DirEntry_decode_from : DecodesFrom DirEntry.decode wire_DirEntry DirEntry_ok.
Proof. intros [] (? & ? & ?). unfold DirEntry.decode, wire_DirEntry. reads_solve. Qed.

Lemma reads_readdir_loop l :
  Forall DirEntry_ok l → zlen l ≤ NFS4_MAX_DIR_ENTRIES →
  reads (loop 1000002 decode_readdir_step []) (wire_linked wire_DirEntry l) l.
Proof.
  intros Hl Hmax.
  refine (reads_linked DirEntry.decode (λ acc, zlen acc >=? NFS4_MAX_DIR_ENTRIES)
    (λ acc, LengthLimitExceeded (zlen acc + 1) NFS4_MAX_DIR_ENTRIES) NFS4_MAX_DIR_ENTRIES
    readdir_full wire_DirEntry DirEntry_ok l [] 1000002 Hl _ _).
  - by rewrite zlen_nil.
  - unfold NFS4_MAX_DIR_ENTRIES in *. lia.
Qed.

(** [result_body r bs]: behind the operation and the status, [bs] is what a
    server sends for the result [r]. *)
Inductive result_body : OperationResult → list byte → Prop :=
  | body_failed op st :
      st ≠ Status.Ok → failure_has_body op st = false → result_body (failed op st) []
  | body_plain op : is_plain op = true → result_body (OperationResult.StatusOnly op Status.Ok) []
  | body_sequence r :
      SequenceResult_ok r →
      result_body (OperationResult.Sequence Status.Ok (Some r)) (wire_SequenceResult r)
  | body_create_session r :
      CreateSessionResult_ok r →
      result_body (OperationResult.CreateSession Status.Ok (Some r)) (wire_CreateSessionResult r)
  | body_exchange_id clientid seqid flags minor_id major_id scope :
      is_u64 clientid → is_u32 seqid → is_u32 flags → is_u64 minor_id →
      opaque_ok NFS4_OPAQUE_LIMIT major_id → opaque_ok NFS4_OPAQUE_LIMIT scope →
      result_body
        (OperationResult.ExchangeId Status.Ok (Some (ExchangeIdResult.mkExchangeIdResult clientid seqid flags)))
        ((wire_u64 clientid ++ wire_u32 seqid ++ wire_u32 flags) ++ wire_u32 0
         ++ (wire_u64 minor_id ++ wire_opaque major_id) ++ wire_opaque scope ++ wire_u32 0)
  | body_getfh fh :
      FileHandle_ok fh → result_body (OperationResult.GetFh Status.Ok (Some fh)) (wire_FileHandle fh)
  | body_getattr attrs :
      Fattr_ok attrs → result_body (OperationResult.GetAttr Status.Ok (Some attrs)) (wire_Fattr attrs)
  | body_access supported access :
      is_u32 supported → is_u32 access →
      result_body (OperationResult.Access Status.Ok (Some (AccessResult.mkAccessResult supported access)))
        (wire_u32 supported ++ wire_u32 access)
  | body_read eof data :
      opaque_ok NFS4_MAX_IO data →
      result_body (OperationResult.Read Status.Ok eof data) (wire_bool eof ++ wire_opaque data)
  | body_write r :
      WriteResult_ok r → result_body (OperationResult.Write Status.Ok (Some r)) (wire_WriteResult r)
  | body_commit v :
      zlen v = NFS4_VERIFIER_SIZE →
      result_body (OperationResult.Commit Status.Ok (Some (CommitResult.mkCommitResult v))) (wire_fixed v)
  | body_open stateid atomic before after flags attrset :
      StateId_ok stateid → is_u64 before → is_u64 after → is_u32 flags → Bitmap_ok attrset →
      result_body
        (OperationResult.Open Status.Ok
           (Some (OpenResult.mkOpenResult stateid flags attrset OpenDelegation.None_)))
        (wire_StateId stateid ++ wire_change_info atomic before after ++ wire_u32 flags
         ++ wire_Bitmap attrset ++ wire_u32 0)
  | body_close s :
      StateId_ok s → result_body (OperationResult.Close Status.Ok (Some s)) (wire_StateId s)
  | body_lock s :
      StateId_ok s → result_body (OperationResult.Lock Status.Ok (Some s) None) (wire_StateId s)
  | body_lock_denied d :
      LockDenied_ok d → result_body (OperationResult.Lock Status.Denied None (Some d)) (wire_LockDenied d)
  | body_lockt : result_body (OperationResult.LockTest Status.Ok None) []
  | body_lockt_denied d :
      LockDenied_ok d → result_body (OperationResult.LockTest Status.Denied (Some d)) (wire_LockDenied d)
  | body_locku s :
      StateId_ok s → result_body (OperationResult.LockUnlock Status.Ok (Some s)) (wire_StateId s)
  | body_test_stateids l :
      Forall status_ok l → zlen l ≤ NFS4_MAX_OPS →
      result_body (OperationResult.TestStateIds Status.Ok l) (wire_array wire_status l)
  | body_setattr attrsset :
      Bitmap_ok attrsset →
      result_body (OperationResult.StatusOnly OpCode.SetAttr Status.Ok) (wire_Bitmap attrsset)
  | body_remove atomic before after :
      is_u64 before → is_u64 after →
      result_body (OperationResult.StatusOnly OpCode.Remove Status.Ok) (wire_change_info atomic before after)
  | body_rename a1 b1 c1 a2 b2 c2 :
      is_u64 b1 → is_u64 c1 → is_u64 b2 → is_u64 c2 →
      result_body (OperationResult.StatusOnly OpCode.Rename Status.Ok)
        (wire_change_info a1 b1 c1 ++ wire_change_info a2 b2 c2)
  | body_create atomic before after attrset :
      is_u64 before → is_u64 after → Bitmap_ok attrset →
      result_body (OperationResult.StatusOnly OpCode.Create Status.Ok)
        (wire_change_info atomic before after ++ wire_Bitmap attrset)
  | body_readdir v entries eof :
      zlen v = NFS4_VERIFIER_SIZE → Forall DirEntry_ok entries → zlen entries ≤ NFS4_MAX_DIR_ENTRIES →
      result_body (OperationResult.ReadDir Status.Ok v entries eof)
        (wire_fixed v ++ wire_linked wire_DirEntry entries ++ wire_bool eof)
  | body_readlink s :
      string_ok NFS4_OPAQUE_LIMIT s →
      result_body (OperationResult.ReadLink Status.Ok (Some s)) (wire_opaque s).

Lemma reads_when_ok {A} (dec : M Decoder XdrError A) bs a :
  reads dec bs a → reads (when_ok Status.Ok dec) bs (Some a).
Proof. intros H. unfold when_ok, when; simpl. eapply reads_bind_last; [done|apply reads_ret]. Qed.

Lemma reads_when_false {A} (dec : M Decoder XdrError A) : reads (when false dec) [] None.
Proof. apply reads_ret. Qed.

Lemma reads_skip {A} (dec : M Decoder XdrError A) bs a : reads dec bs a → reads (skip dec) bs tt.
Proof. intros H. unfold skip. eapply reads_bind_last; [done|apply reads_ret]. Qed.

Lemma reads_change_info atomic before after :
  is_u64 before → is_u64 after → reads skip_change_info (wire_change_info atomic before after) tt.
Proof.
  intros. unfold skip_change_info, wire_change_info.
  eapply reads_bind; [eapply reads_skip; by apply read_bool_from|].
  eapply reads_bind; [eapply reads_skip; by apply read_u64_from|].
  eapply reads_bind_last; [eapply reads_skip; by apply read_u64_from|]. apply reads_ret.
Qed.

Lemma failed_op_code op st : OperationResult.op_code (failed op st) = op.
Proof. by destruct op. Qed.
Lemma failed_status op st : OperationResult.status (failed op st) = st.
Proof. by destruct op. Qed.

Lemma is_ok_Ok st : Status.is_ok st = true ↔ st = Status.Ok.
Proof. by destruct st. Qed.

Lemma reads_when_not_ok {A} st (dec : M Decoder XdrError A) :
  st ≠ Status.Ok → reads (when_ok st dec) [] None.
Proof.
  intros H. unfold when_ok. destruct (Status.is_ok st) eqn:E; [by apply is_ok_Ok in E|].
  apply reads_when_false.
Qed.

Lemma op_code_u32 op : is_u32 (OpCode.as_u32 op).
Proof. by destruct op. Qed.

Lemma reads_failed_body op st (Hst : st ≠ Status.Ok) (Hb : failure_has_body op st = false) :
  status_ok st →
  reads OperationResult_decode (wire_u32 (OpCode.as_u32 op) ++ wire_status st ++ []) (failed op st).
Proof.
  intros [Hs Hu]. unfold OperationResult_decode.
  eapply reads_bind; [apply read_u32_from, op_code_u32|].
  eapply reads_bind; [by apply read_u32_from|]. rewrite OpCode.from_as_u32, Hs. cbv zeta. clear Hs Hu.
  destruct op; cbn [failed];
    first [ apply reads_ret
          | eapply reads_bind_last; [by apply reads_when_not_ok|apply reads_ret]
          | destruct st; first [exact (reads_ret _) | discriminate Hb | by destruct Hst] ].
Qed.

Lemma reads_exchange_id clientid seqid flags minor_id major_id scope :
  is_u64 clientid → is_u32 seqid → is_u32 flags → is_u64 minor_id →
  opaque_ok NFS4_OPAQUE_LIMIT major_id → opaque_ok NFS4_OPAQUE_LIMIT scope →
  reads (decode_exchange_id_result Status.Ok)
    ((wire_u64 clientid ++ wire_u32 seqid ++ wire_u32 flags) ++ wire_u32 0
     ++ (wire_u64 minor_id ++ wire_opaque major_id) ++ wire_opaque scope ++ wire_u32 0)
    (OperationResult.ExchangeId Status.Ok (Some (ExchangeIdResult.mkExchangeIdResult clientid seqid flags))).
Proof.
  intros. unfold decode_exchange_id_result. cbn [Status.is_ok negb].
  eapply reads_bind; [unfold ExchangeIdResult.decode; reads_solve|].
  eapply reads_bind.
  { unfold skip_state_protect_reply. eapply reads_bind_last; [by apply read_u32_from|]. apply reads_ret. }
  eapply reads_bind.
  { unfold skip_server_owner. eapply reads_bind; [eapply reads_skip; by apply read_u64_from|].
    eapply reads_bind_last; [eapply reads_skip; by apply read_opaque_from|]. apply reads_ret. }
  eapply reads_bind; [eapply reads_skip; by apply read_opaque_from|].
  eapply reads_bind_last; [|apply reads_ret].
  unfold skip_impl_ids. eapply reads_bind_last; [by apply read_u32_from|]. apply reads_ret.
Qed.

Lemma reads_open stateid atomic before after flags attrset :
  StateId_ok stateid → is_u64 before → is_u64 after → is_u32 flags → Bitmap_ok attrset →
  reads (decode_open_result Status.Ok)
    (wire_StateId stateid ++ wire_change_info atomic before after ++ wire_u32 flags
     ++ wire_Bitmap attrset ++ wire_u32 0)
    (OperationResult.Open Status.Ok
       (Some (OpenResult.mkOpenResult stateid flags attrset OpenDelegation.None_))).
Proof.
  intros. unfold decode_open_result. cbn [Status.is_ok negb].
  eapply reads_bind; [reads_leaf|]. eapply reads_bind; [by apply reads_change_info|].
  do 2 (eapply reads_bind; [reads_leaf|]). eapply reads_bind_last; [|apply reads_ret].
  unfold OpenDelegation.decode. eapply reads_bind_last; [by apply read_u32_from|]. apply reads_ret.
Qed.

Lemma reads_readdir v entries eof :
  zlen v = NFS4_VERIFIER_SIZE → Forall DirEntry_ok entries → zlen entries ≤ NFS4_MAX_DIR_ENTRIES →
  reads (decode_readdir_result Status.Ok)
    (wire_fixed v ++ wire_linked wire_DirEntry entries ++ wire_bool eof)
    (OperationResult.ReadDir Status.Ok v entries eof).
Proof.
  intros. unfold decode_readdir_result. cbn [Status.is_ok negb].
  eapply reads_bind; [by apply reads_verifier|]. eapply reads_bind; [by apply reads_readdir_loop|].
  reads_solve.
Qed.

Lemma reads_statuses l :
  Forall status_ok l → zlen l ≤ NFS4_MAX_OPS →
  reads (read_array read_u32 NFS4_MAX_OPS) (wire_array wire_status l) (Status.as_u32 <$> l).
Proof.
  intros Hl Hn.
  assert (wire_array wire_status l = wire_array wire_u32 (Status.as_u32 <$> l)) as ->.
  { unfold wire_array, wire_each. by rewrite zlen_fmap, <- list_fmap_compose. }
  apply (read_array_from read_u32 wire_u32 is_u32). split_and!.
  - by rewrite zlen_fmap.
  - rewrite zlen_fmap. unfold NFS4_MAX_OPS, u32_max in *. lia.
  - apply list.Forall_fmap. by eapply list.Forall_impl; [done|]; intros ? [].
Qed.

Lemma statuses_from_as l : Forall status_ok l → Status.from_u32 <$> (Status.as_u32 <$> l) = l.
Proof.
  intros Hl. rewrite <- list_fmap_compose. rewrite <- (list_fmap_id l) at 2.
  apply list_fmap_ext. intros i s Hs. by destruct (list.Forall_lookup_1 _ _ _ _ Hl Hs).
Qed.

Lemma status_ok_Ok : status_ok Status.Ok.
Proof. done. Qed.

(** Decoding an operation result returns what the server meant. *)
Lemma reads_result r bs :
  result_body r bs → status_ok (OperationResult.status r) →
  reads OperationResult_decode
    (wire_u32 (OpCode.as_u32 (OperationResult.op_code r)) ++ wire_status (OperationResult.status r) ++ bs) r.
Proof.
  intros Hb Hs. destruct Hb as [op st Hst Hbody|op Hop| | | | | | | | | | | | | | | | |l Hl Hn| | | | | |].
  { rewrite failed_op_code, failed_status in *. by apply reads_failed_body. }
  all: clear Hs; unfold OperationResult_decode; cbn [OperationResult.op_code OperationResult.status];
    (eapply reads_bind; [apply read_u32_from, op_code_u32|]);
    (eapply reads_bind; [by apply read_u32_from|]); rewrite OpCode.from_as_u32; cbv zeta;
    (rewrite (proj1 status_ok_Ok) || change (Status.from_u32 (Status.as_u32 Status.Denied)) with Status.Denied).
  - destruct op; first [discriminate | apply reads_ret].
  - eapply reads_bind_last; [apply reads_when_ok; reads_leaf|apply reads_ret].
  - unfold decode_create_session_result. cbn [Status.is_ok negb].
    eapply reads_bind_last; [reads_leaf|apply reads_ret].
  - by apply reads_exchange_id.
  - eapply reads_bind_last; [apply reads_when_ok; reads_leaf|apply reads_ret].
  - eapply reads_bind_last; [apply reads_when_ok; reads_leaf|apply reads_ret].
  - eapply reads_bind_last; [apply reads_when_ok; reads_solve|apply reads_ret].
  - change (Status.is_ok Status.Ok) with true. unfold read_opaque_vec. cbv iota. reads_solve.
  - eapply reads_bind_last; [apply reads_when_ok; reads_leaf|apply reads_ret].
  - eapply reads_bind_last; [|apply reads_ret]. apply reads_when_ok. unfold CommitResult.decode.
    eapply reads_bind_last; [by apply reads_verifier|apply reads_ret].
  - by apply reads_open.
  - eapply reads_bind_last; [apply reads_when_ok; reads_leaf|apply reads_ret].
  - eapply reads_bind_last; [apply (reads_when_ok StateId.decode); reads_leaf|apply reads_ret].
  - eapply (reads_bind _ _ []); [apply reads_when_false|].
    eapply reads_bind_last; [apply (reads_when_ok LockDenied.decode); reads_leaf|apply reads_ret].
  - apply reads_ret.
  - eapply reads_bind_last; [apply (reads_when_ok LockDenied.decode); reads_leaf|apply reads_ret].
  - eapply reads_bind_last; [apply reads_when_ok; reads_leaf|apply reads_ret].
  - eapply reads_bind_last; [by apply reads_when_ok, reads_statuses|].
    rewrite <- (statuses_from_as l) at 2 by done. apply reads_ret.
  - eapply reads_bind_last; [apply reads_when_ok; eapply reads_skip; reads_leaf|apply reads_ret].
  - eapply reads_bind_last; [by apply reads_when_ok, reads_change_info|apply reads_ret].
  - eapply reads_bind_last; [|apply reads_ret]. apply reads_when_ok.
    eapply reads_bind; by apply reads_change_info.
  - eapply reads_bind_last; [|apply reads_ret]. apply reads_when_ok.
    eapply reads_bind; [by apply reads_change_info|]. eapply reads_skip; reads_leaf.
  - by apply reads_readdir.
  - eapply reads_bind_last; [apply reads_when_ok; reads_leaf|apply reads_ret].
Qed.

(** ** Responses *)

(** A result with the bytes a server sends for it. *)
Definition result_sent (r : OperationResult) (bs : list byte) : Prop :=
  ∃ body, result_body r body ∧ status_ok (OperationResult.status r)
    ∧ bs = wire_u32 (OpCode.as_u32 (OperationResult.op_code r))
           ++ wire_status (OperationResult.status r) ++ body.

Definition result_read (r : OperationResult) (bs : list byte) : Prop := reads OperationResult_decode bs r.

Lemma sent_read r bs : result_sent r bs → result_read r bs.
Proof. intros (body & Hb & Hs & ->). by apply reads_result. Qed.

Lemma all_sent_read rs bodies : Forall2 result_sent rs bodies → Forall2 result_read rs bodies.
Proof. induction 1; constructor; [by apply sent_read|done]. Qed.

Lemma reads_results rs bodies :
  Forall2 result_read rs bodies → reads (read_each OperationResult_decode (length rs)) (mjoin bodies) rs.
Proof.
  induction 1 as [|r bs rs bodies Hr _ IH]; [apply reads_ret|].
  cbn [length read_each mjoin list_join]. eapply reads_bind; [exact Hr|].
  eapply reads_bind_last; [exact IH|apply reads_ret].
Qed.

(** The bytes of a response. *)
Definition wire_response (st : Status.Status) (tag : str) (bodies : list (list byte)) : list byte :=
  wire_status st ++ wire_opaque tag ++ wire_u32 (zlen bodies) ++ mjoin bodies.

Lemma reads_response st tag rs bodies :
  status_ok st → string_ok NFS4_OPAQUE_LIMIT tag → Forall2 result_read rs bodies →
  zlen rs ≤ NFS4_MAX_OPS →
  reads CompoundResponse.decode (wire_response st tag bodies)
    (CompoundResponse.mkCompoundResponse st tag rs).
Proof.
  intros [Hs Hu] Htag Hrs Hn. unfold CompoundResponse.decode, wire_response.
  eapply reads_bind; [by apply read_u32_from|]. eapply reads_bind; [reads_leaf|].
  eapply reads_bind_last; [|rewrite Hs; apply reads_ret].
  assert (zlen bodies = zlen rs) as Hlen by (unfold zlen; by rewrite (list.Forall2_length _ _ _ Hrs)).
  rewrite Hlen. unfold read_array. eapply reads_bind.
  { apply reads_read_len; [|done]. unfold NFS4_MAX_OPS, is_u32, u32_max in *. zlen_lia. }
  unfold zlen at 1. rewrite Nat2Z.id. by apply reads_results.
Qed.

(** A SETATTR that failed, as RFC 8881 has it: the bitmap follows the status. *)
Definition setattr_failure (st : Status.Status) (attrsset : Bitmap.Bitmap) : list byte :=
  wire_u32 (OpCode.as_u32 OpCode.SetAttr) ++ wire_status st ++ wire_Bitmap attrsset.

(** The decoder takes the result to end before the bitmap. *)
Lemma reads_setattr_failure st :
  st ≠ Status.Ok → status_ok st →
  result_read (OperationResult.StatusOnly OpCode.SetAttr st)
    (wire_u32 (OpCode.as_u32 OpCode.SetAttr) ++ wire_status st).
Proof.
  intros Hst [Hs Hu]. unfold result_read, OperationResult_decode. eapply reads_bind; [by apply read_u32_from|].
  eapply reads_bind_last; [by apply read_u32_from|]. rewrite Hs.
  change (OpCode.from_u32 (OpCode.as_u32 OpCode.SetAttr)) with (Some OpCode.SetAttr). cbv zeta iota.
  eapply reads_bind_last; [by apply reads_when_not_ok|apply reads_ret].
Qed.

Lemma setattr_failure_trails st tag bodies attrsset :
  wire_response st tag (bodies ++ [setattr_failure st attrsset])
  = wire_response st tag (bodies ++ [wire_u32 (OpCode.as_u32 OpCode.SetAttr) ++ wire_status st])
    ++ wire_Bitmap attrsset.
Proof.
  unfold wire_response, setattr_failure. rewrite !join_app, !zlen_app, !zlen_cons. cbn [mjoin list_join].
  by rewrite !app_nil_r, !app_assoc.
Qed.
