(* ===== verification/V4Client.v ===== *)
(** * Decisions of the NFSv4 clients (src/src/v4/client.rs, src/src/v4/mod.rs)

    What the NFSv4 clients decide without talking to the server: whether a
    response is one the request allows, whether and how a COMPOUND may be sent
    again, what a response contains, paths and owners, pages, and the registry
    of byte-range locks.  A lock's state is shared between the registry and the
    token the application holds ([Arc<Mutex<LockState>>]): it lives in a store
    of states, and both refer to it by its position. *)

From Stdlib Require Import Strings.String Strings.Byte.
From S2P Require Import Prelude Text Xdr Status Errors Rpc V3Client V4Attr V4Ops V4Results.
Import FileHandle (FileHandle).
Import StateId (StateId).
Import Bitmap (Bitmap).
Import Fattr (Fattr).
Import FileType (FileType).
Import BasicAttributes (BasicAttributes).
Import LockType (LockType).
Import LockDenied (LockDenied).
Import StableHow (StableHow).
Import ChannelAttrs (ChannelAttrs).
Import AppDataBlock (AppDataBlock).
Import IoAdviceType (IoAdviceType).
Import LayoutIomode (LayoutIomode).
Import NetLoc (NetLoc).
Import Operation (Operation).
Import OperationResult (OperationResult).
Import CompoundResponse (CompoundResponse).

#[local] Open Scope Z_scope.

(** ** Configuration (v4/mod.rs) *)

Definition validate_opaque_id (name : string) (value : list byte) : outcome Error unit :=
  if zlen value >? NFS4_OPAQUE_LIMIT
  then Err (Protocol [PLit "NFSv4 "; PLit name; PLit " length "; PNum (zlen value);
                      PLit " exceeds opaque limit "; PNum NFS4_OPAQUE_LIMIT])
  else Ok tt.

Definition validate_owner_id (owner_id : list byte) : outcome Error unit :=
  validate_opaque_id "owner_id" owner_id.
Definition validate_open_owner (open_owner : list byte) : outcome Error unit :=
  validate_opaque_id "open_owner" open_owner.
Definition validate_lock_owner (lock_owner : list byte) : outcome Error unit :=
  validate_opaque_id "lock_owner" lock_owner.

Definition validate_host (host : str) : outcome Error unit :=
  if trim_is_empty host then Err (InvalidTarget [PStr host]) else Ok tt.

Definition validate_port (name : string) (port : Z) : outcome Error unit :=
  if port =? 0 then Err (Protocol [PLit name; PLit " must be non-zero"]) else Ok tt.

Definition validate_transfer_size (name : string) (size : Z) : outcome Error unit :=
  if (size =? 0) || (size >? NFS4_MAX_IO)
  then Err (Protocol [PLit name; PLit " must be in 1..="; PNum NFS4_MAX_IO; PLit " bytes"])
  else Ok tt.

Definition validate_max_dir_entries (max_dir_entries : Z) : outcome Error unit :=
  if max_dir_entries =? 0
  then Err (Protocol [PLit "max_dir_entries must be greater than zero"])
  else Ok tt.

Definition validate_minor_version (name : string) (minor_version : Z) : outcome Error unit :=
  if negb ((NFS4_MINOR_VERSION_SESSION_MIN <=? minor_version)
           && (minor_version <=? NFS4_MINOR_VERSION_LATEST))
  then Err (Protocol [PLit name; PLit " must be in "; PNum NFS4_MINOR_VERSION_SESSION_MIN;
                      PLit "..="; PNum NFS4_MINOR_VERSION_LATEST])
  else Ok tt.

(** [(MIN..=max_minor_version).rev()]. *)
Definition negotiated_minor_versions (max_minor_version : Z) : list Z :=
  reverse (seqZ NFS4_MINOR_VERSION_SESSION_MIN
             (max_minor_version - NFS4_MINOR_VERSION_SESSION_MIN + 1)).

Definition require_minor_version (operation : string) (negotiated required : Z) : outcome Error unit :=
  if negotiated >=? required then Ok tt
  else Err (Protocol [PLit "NFSv4 operation "; PLit operation; PLit " requires minor version ";
                      PNum required; PLit ", negotiated "; PNum negotiated]).

Definition clamp_io_size (server_max : option Z) (configured_limit : Z) : Z :=
  match server_max with
  | None => configured_limit
  | Some max =>
      if max =? 0 then configured_limit
      else wrap_u32 (Z.max (Z.min configured_limit max) 1)
  end.

Definition fnv1a64 (bytes : list byte) : Z :=
  fold_left (λ hash byte, (Z.lxor hash (byte_to_Z byte) * 1099511628211) mod 2 ^ 64) bytes
    14695981039346656037.

(** [{:016x}]. *)
Definition hex_digit (d : Z) : byte := byte_of_Z (if d <? 10 then 48 + d else 87 + d).
Definition hex16 (n : Z) : str :=
  (λ i, hex_digit (Z.land (Z.shiftr n (4 * i)) 15)) <$> reverse (seqZ 0 16).

Definition default_opaque_id (kind : string) (host : str) : M TempEnv Error (list byte) := λ env,
  let counter := env_counter env in
  (mkTempEnv (env_pid env) (env_nanos env) ((counter + 1) mod 2 ^ 64),
   Ok (lit_bytes "nfs-rs:" ++ lit_bytes kind ++ colon :: hex16 (fnv1a64 host) ++
       colon :: decimal (env_pid env) ++ colon :: decimal (env_nanos env counter) ++
       colon :: decimal counter)).

Definition default_owner_id (host : str) : M TempEnv Error (list byte) := default_opaque_id "client" host.
Definition default_open_owner (host : str) : M TempEnv Error (list byte) := default_opaque_id "open" host.
Definition default_lock_owner (host : str) : M TempEnv Error (list byte) := default_opaque_id "lock" host.

(** ** Retrying and recovery *)

Definition sequence_succeeded (response : CompoundResponse) : bool :=
  match head (CompoundResponse.results response) with
  | Some (OperationResult.Sequence status _) => Status.is_ok status
  | _ => false
  end.

Definition response_revoked_lock_status (response : CompoundResponse) : option Status.Status :=
  match head (CompoundResponse.results response) with
  | Some (OperationResult.Sequence _ (Some sequence)) =>
      let flags := SequenceResult.status_flags sequence in
      if negb (Z.land flags SEQ4_STATUS_ADMIN_STATE_REVOKED =? 0) then Some Status.AdminRevoked
      else if negb (Z.land flags (Z.lor SEQ4_STATUS_EXPIRED_ALL_STATE_REVOKED
                                    SEQ4_STATUS_EXPIRED_SOME_STATE_REVOKED) =? 0)
      then Some Status.Expired
      else None
  | _ => None
  end.

Definition status_allows_delayed_retry (status : Status.Status) : bool :=
  match status with Status.Delay | Status.Grace => true | _ => false end.

(** [iter().position(p)]. *)
Fixpoint position {A} (p : A → bool) (l : list A) : option nat :=
  match l with
  | [] => None
  | a :: rest => if p a then Some O else S <$> position p rest
  end.

Definition first_delayed_retry_result_index (response : CompoundResponse) : option nat :=
  if is_empty (CompoundResponse.results response)
     && status_allows_delayed_retry (CompoundResponse.status response)
  then Some O
  else position (λ result, status_allows_delayed_retry (OperationResult.status result))
         (CompoundResponse.results response).

Definition operation_can_replay_after_session_recovery (operation : Operation) : bool :=
  match operation with
  | Operation.PutRootFh | Operation.PutPubFh | Operation.PutFh _ | Operation.Lookup _
  | Operation.Lookupp | Operation.Access _ | Operation.SecInfo _ | Operation.SecInfoNoName _
  | Operation.NVerify _ | Operation.GetFh | Operation.GetAttr _ | Operation.ReadDir _ _ _ _ _
  | Operation.ReadLink | Operation.Verify _ | Operation.SaveFh | Operation.RestoreFh
  | Operation.TestStateIds _ => true
  | Operation.Read stateid _ _ => StateId.is_anonymous stateid
  | _ => false
  end.

Definition operations_can_replay_after_session_recovery (operations : list Operation) : bool :=
  forallb operation_can_replay_after_session_recovery operations.

Definition operation_can_replay_after_successful_prefix (operation : Operation) : bool :=
  match operation with
  | Operation.PutRootFh | Operation.PutPubFh | Operation.PutFh _ | Operation.Lookup _
  | Operation.Lookupp | Operation.Access _ | Operation.SecInfo _ | Operation.SecInfoNoName _
  | Operation.NVerify _ | Operation.GetFh | Operation.GetAttr _ | Operation.Read _ _ _
  | Operation.ReadDir _ _ _ _ _ | Operation.ReadLink | Operation.ReadPlus _
  | Operation.Seek _ _ _ | Operation.Verify _ | Operation.SaveFh | Operation.RestoreFh
  | Operation.LockTest _ | Operation.TestStateIds _ | Operation.GetDeviceInfo _
  | Operation.GetDeviceList _ | Operation.OffloadStatus _ => true
  | _ => false
  end.

Definition operation_can_retry_after_delayed_result (operation : Operation) : bool :=
  match operation with
  | Operation.Open _ | Operation.OpenConfirm _ _ | Operation.Close _ _ | Operation.Lock _
  | Operation.LockUnlock _ | Operation.OpenDowngrade _ _ _ _ | Operation.Sequence _ => false
  | _ => true
  end.

Definition response_allows_delayed_retry_after_leading_results (operations : list Operation)
    (response : CompoundResponse) (leading_result_count : nat) : bool :=
  match first_delayed_retry_result_index response with
  | None => false
  | Some retry_index =>
      if (retry_index <? leading_result_count)%nat then true else
      let delayed_operation_index := (retry_index - leading_result_count)%nat in
      match operations !! delayed_operation_index with
      | Some operation =>
          forallb operation_can_replay_after_successful_prefix
            (take delayed_operation_index operations)
          && operation_can_retry_after_delayed_result operation
      | None => false
      end
  end.

Definition response_allows_delayed_retry (operations : list Operation) (response : CompoundResponse)
    : bool :=
  response_allows_delayed_retry_after_leading_results operations response 1.

Definition response_allows_delayed_retry_without_sequence (operations : list Operation)
    (response : CompoundResponse) : bool :=
  response_allows_delayed_retry_after_leading_results operations response 0.

Definition response_requires_session_recovery (response : CompoundResponse) : bool :=
  match head (CompoundResponse.results response) with
  | Some (OperationResult.Sequence status _) => Status.requires_session_recovery status
  | _ => false
  end
  || (is_empty (CompoundResponse.results response)
      && Status.requires_session_recovery (CompoundResponse.status response)).

Definition session_recovery_error (response : CompoundResponse) : Error :=
  match head (CompoundResponse.results response) with
  | Some (OperationResult.Sequence status _ as result) =>
      if Status.requires_session_recovery status then NfsV4 "SEQUENCE" status
      else NfsV4 (OperationResult.op_name result) (OperationResult.status result)
  | Some result => NfsV4 (OperationResult.op_name result) (OperationResult.status result)
  | None => NfsV4 "COMPOUND" (CompoundResponse.status response)
  end.

Definition owner_seqid_status_consumes (status : Status.Status) : bool :=
  match status with
  | Status.BadSeqId | Status.BadStateId | Status.BadXdr | Status.Moved | Status.NoFileHandle
  | Status.Resource | Status.StaleClientId | Status.StaleStateId => false
  | _ => true
  end.

(** [response.results.iter().any(|result| result.op_code() == op && p(result.status()))]. *)
Definition any_result (op : OpCode.OpCode) (p : Status.Status → bool) (response : CompoundResponse)
    : bool :=
  existsb (λ result, bool_decide (OperationResult.op_code result = op)
                     && p (OperationResult.status result))
    (CompoundResponse.results response).

Definition response_consumed_owner_seqid (response : CompoundResponse) (op : OpCode.OpCode) : bool :=
  any_result op owner_seqid_status_consumes response.

Definition response_operation_has_delayed_status (response : CompoundResponse) (op : OpCode.OpCode)
    : bool :=
  any_result op status_allows_delayed_retry response.

Definition response_operation_requires_session_recovery (response : CompoundResponse)
    (op : OpCode.OpCode) : bool :=
  any_result op Status.requires_session_recovery response.

Definition operations_release_state (operations : list Operation) : bool :=
  negb (is_empty operations)
  && forallb (λ operation,
       match operation with
       | Operation.PutFh _ | Operation.Close _ _ | Operation.LockUnlock _
       | Operation.FreeStateId _ | Operation.ReleaseLockOwner _ => true
       | _ => false
       end) operations.

(** ** The shape of a response *)

Definition compound_result_matches_expected (result : OperationResult) (expected : OpCode.OpCode)
    : bool :=
  bool_decide (OperationResult.op_code result = expected)
  || (bool_decide (OperationResult.op_code result = OpCode.Illegal)
      && bool_decide (OperationResult.status result = Status.OpIllegal)).

(** The loop over [response.results.iter().zip(expected).enumerate()]. *)
Fixpoint check_results (tag : str) (index : Z) (results : list OperationResult)
    (expected : list OpCode.OpCode) : outcome Error unit :=
  match results, expected with
  | result :: results, op :: expected =>
      if negb (compound_result_matches_expected result op)
      then Err (Protocol [PLit "NFSv4 COMPOUND "; PDebug tag; PLit " result "; PNum index; PLit " is ";
                          PLit (OpCode.name (OperationResult.op_code result)); PLit ", expected ";
                          PLit (OpCode.name op)])
      else check_results tag (index + 1) results expected
  | _, _ => Ok tt
  end.

(** [{status:?}], by its number. *)
Definition debug_status (status : Status.Status) : piece := PNum (Status.as_u32 status).

(** The part of [validate_compound_response_shape] that compares the statuses. *)
Definition check_statuses (tag : str) (status : Status.Status) (results : list OperationResult)
    (expected : Z) : outcome Error unit :=
  if Status.is_ok status && negb (zlen results =? expected)
  then Err (Protocol [PLit "NFSv4 COMPOUND "; PDebug tag; PLit " succeeded with ";
                      PNum (zlen results); PLit " operation results for "; PNum expected;
                      PLit " requests"]) else
  let failed := position (λ result, negb (Status.is_ok (OperationResult.status result))) results in
  match failed with
  | Some index =>
      match results !! index with
      | None => Fault Panic
      | Some result =>
          let result_status := OperationResult.status result in
          if Status.is_ok status
          then Err (Protocol [PLit "NFSv4 COMPOUND "; PDebug tag;
                              PLit " has OK compound status but result "; PNum (Z.of_nat index);
                              PLit " failed with "; debug_status result_status])
          else if negb (index + 1 =? length results)%nat
          then Err (Protocol [PLit "NFSv4 COMPOUND "; PDebug tag; PLit " has non-final failed result ";
                              PNum (Z.of_nat index); PLit " with "; debug_status result_status])
          else if bool_decide (result_status ≠ status)
          then Err (Protocol [PLit "NFSv4 COMPOUND "; PDebug tag; PLit " status ";
                              debug_status status; PLit " does not match final result status ";
                              debug_status result_status])
          else Ok tt
      end
  | None =>
      if negb (Status.is_ok status) && negb (is_empty results)
      then Err (Protocol [PLit "NFSv4 COMPOUND "; PDebug tag; PLit " failed with ";
                          debug_status status; PLit ", but all operation results were OK"])
      else Ok tt
  end.

Definition validate_compound_response_shape (tag : str) (expected : list OpCode.OpCode)
    (response : CompoundResponse) : outcome Error unit :=
  let results := CompoundResponse.results response in
  if bool_decide (CompoundResponse.tag response ≠ tag)
  then Err (Protocol [PLit "NFSv4 COMPOUND response tag "; PDebug (CompoundResponse.tag response);
                      PLit " does not match request tag "; PDebug tag]) else
  if zlen results >? zlen expected
  then Err (Protocol [PLit "NFSv4 COMPOUND "; PDebug tag; PLit " returned "; PNum (zlen results);
                      PLit " operation results for "; PNum (zlen expected); PLit " requests"]) else
  _ ← check_results tag 0 results expected;
  check_statuses tag (CompoundResponse.status response) results (zlen expected).

(** ** Sessions *)

Definition NFS4_COMPOUND_IO_HEADROOM : Z := 4096.

Definition session_payload_limit (channel_size : Z) : Z :=
  Z.min (Z.max (channel_size - NFS4_COMPOUND_IO_HEADROOM) 0) NFS4_MAX_IO.

Definition ensure_reclaim_complete (response : CompoundResponse) : outcome Error unit :=
  if bool_decide (CompoundResponse.status response = Status.CompleteAlready)
     || bool_decide (OperationResult.status <$> list.last (CompoundResponse.results response)
                     = Some Status.CompleteAlready)
  then Ok tt
  else CompoundResponse.ensure_ok response.

Definition session_max_operations (attrs : ChannelAttrs) : outcome Error Z :=
  let max_operations := ChannelAttrs.max_operations attrs in
  if max_operations =? 0
  then Err (Protocol [PLit "NFSv4 session fore channel returned max_operations=0"])
  else Ok (Z.min max_operations NFS4_MAX_OPS).

Definition validate_session_channel_size (name : string) (size : Z) : outcome Error unit :=
  if size <=? NFS4_COMPOUND_IO_HEADROOM
  then Err (Protocol [PLit "NFSv4 session fore channel returned "; PLit name; PLit "="; PNum size;
                      PLit ", which leaves no payload capacity"])
  else Ok tt.

Definition validate_session_channel_attrs (attrs : ChannelAttrs) : outcome Error unit :=
  _ ← validate_session_channel_size "max_request_size" (ChannelAttrs.max_request_size attrs);
  _ ← validate_session_channel_size "max_response_size" (ChannelAttrs.max_response_size attrs);
  if ChannelAttrs.max_requests attrs =? 0
  then Err (Protocol [PLit "NFSv4 session fore channel returned max_requests=0"])
  else Ok tt.

Definition validate_session_compound_operation_count (operation_count max_operations : Z)
    : outcome Error unit :=
  total ← ok_or (Protocol [PLit "NFSv4 COMPOUND operation count overflow"])
            (checked_add usize_max operation_count 1);
  if total >? max_operations
  then Err (Protocol [PLit "NFSv4 COMPOUND has "; PNum total;
                      PLit " operations including SEQUENCE, but session allows ";
                      PNum max_operations])
  else Ok tt.

(** ** Locks *)

Module SpaceOp.

Inductive SpaceOp := Allocate | Deallocate.

Definition name (self : SpaceOp) : string :=
  match self with Allocate => "ALLOCATE" | Deallocate => "DEALLOCATE" end.

Definition into_operation (self : SpaceOp) (stateid : StateId) (offset length : Z) : Operation :=
  match self with
  | Allocate => Operation.Allocate stateid offset length
  | Deallocate => Operation.Deallocate stateid offset length
  end.

End SpaceOp.
Import SpaceOp (SpaceOp).

Module CopyOffloadOptions.

Record CopyOffloadOptions := mkCopyOffloadOptions {
  src_offset : Z;
  dst_offset : Z;
  count : Z;
  consecutive : bool;
  synchronous : bool;
  source_servers : list NetLoc;
}.

End CopyOffloadOptions.
Import CopyOffloadOptions (CopyOffloadOptions).

Module LockState.

Record LockState := mkLockState {
  client_id : Z;
  open_owner : list byte;
  handle : FileHandle;
  open_stateid : StateId;
  lock_stateid : StateId;
  lock_seqid : Z;
  lock_type : LockType;
  offset : Z;
  length : Z;
  owner : list byte;
  lost : option Status.Status;
}.

(** [state.lost = Some(status)]. *)
Definition with_lost (status : Status.Status) (self : LockState) : LockState :=
  mkLockState (client_id self) (open_owner self) (handle self) (open_stateid self)
    (lock_stateid self) (lock_seqid self) (lock_type self) (offset self) (length self) (owner self)
    (Some status).

End LockState.
Import LockState (LockState).

(** The states behind the [Arc]s; an [Arc] is its position in the store. *)
Abbreviation LockStore := (list LockState).

Module ByteRangeLock.

Record ByteRangeLock := mkByteRangeLock {
  state : nat;
  lock_type : LockType;
  offset : Z;
  length : Z;
  owner : list byte;
}.

(** [self.state.lock().unwrap()]. *)
Definition shared (self : ByteRangeLock) : M LockStore Error LockState := λ store,
  match store !! state self with
  | Some lock => (store, Ok lock)
  | None => (store, Fault Panic)
  end.

Definition stateid (self : ByteRangeLock) : M LockStore Error StateId :=
  lock ← shared self; mret (LockState.lock_stateid lock).

Definition is_lost (self : ByteRangeLock) : M LockStore Error bool :=
  lock ← shared self;
  mret (match LockState.lost lock with Some _ => true | None => false end).

End ByteRangeLock.
Import ByteRangeLock (ByteRangeLock).

Module LockRegistry.

Record LockRegistry := mkLockRegistry { entries : list nat }.

Definition default : LockRegistry := mkLockRegistry [].

(** [entry.lock().unwrap()]. *)
Definition lock (entry : nat) : M LockStore Error LockState := λ store,
  match store !! entry with
  | Some state => (store, Ok state)
  | None => (store, Fault Panic)
  end.

Definition register (self : LockRegistry) (state : LockState)
    : M LockStore Error (LockRegistry * ByteRangeLock) := λ store,
  let entry := List.length store in
  let token := ByteRangeLock.mkByteRangeLock entry (LockState.lock_type state)
                 (LockState.offset state) (LockState.length state) (LockState.owner state) in
  (store ++ [state], Ok (mkLockRegistry (entries self ++ [entry]), token)).

(** [self.entries.iter().map(..).collect()]. *)
Fixpoint lock_all (entries : list nat) : M LockStore Error (list LockState) :=
  match entries with
  | [] => mret []
  | entry :: rest => state ← lock entry; states ← lock_all rest; mret (state :: states)
  end.

Definition snapshot (self : LockRegistry) : M LockStore Error (list LockState) :=
  lock_all (entries self).

Definition restore (self : LockRegistry) (index : nat) (state : LockState)
    : M LockStore Error unit := λ store,
  match entries self !! index with
  | Some entry =>
      match store !! entry with
      | Some _ => (<[entry := state]> store, Ok tt)
      | None => (store, Fault Panic)
      end
  | None => (store, Fault Panic)
  end.

Definition get (self : LockRegistry) (token : ByteRangeLock) : M LockStore Error LockState :=
  if negb (existsb (Nat.eqb (ByteRangeLock.state token)) (entries self))
  then throw (Protocol [PLit "lock belongs to a different client or was already released"])
  else lock (ByteRangeLock.state token).

Definition remove (self : LockRegistry) (token : ByteRangeLock) : LockRegistry :=
  mkLockRegistry (List.filter (λ entry, negb (Nat.eqb (ByteRangeLock.state token) entry)) (entries self)).

Fixpoint ensure_all_valid (entries : list nat) : M LockStore Error unit :=
  match entries with
  | [] => mret tt
  | entry :: rest =>
      state ← lock entry;
      match LockState.lost state with
      | Some status => throw (LockLost status)
      | None => ensure_all_valid rest
      end
  end.

Definition ensure_valid (self : LockRegistry) : M LockStore Error unit :=
  ensure_all_valid (entries self).

End LockRegistry.
Import LockRegistry (LockRegistry).

Definition lock_share_access (lock_type : LockType) : Z :=
  match lock_type with
  | LockType.Read | LockType.ReadBlocking => OPEN4_SHARE_ACCESS_READ
  | LockType.Write | LockType.WriteBlocking => OPEN4_SHARE_ACCESS_WRITE
  end.

(** ** Results of operations *)

Definition ensure_last_status (response : CompoundResponse) (operation : string) : outcome Error unit :=
  match list.last (CompoundResponse.results response) with
  | Some result =>
      if Status.is_ok (OperationResult.status result) then Ok tt
      else Err (NfsV4 operation (OperationResult.status result))
  | None => Err (Protocol [PLit operation; PLit " returned no result"])
  end.

Definition cleanup_error (error : Error) (cleanup_context : string) (cleanup_result : unit + Error)
    : Error :=
  match cleanup_result with
  | inl _ => error
  | inr cleanup_error => Cleanup cleanup_context error cleanup_error
  end.

Definition finish_with_close {A} (result : A + Error) (close_result : unit + Error) : outcome Error A :=
  match result with
  | inl value => match close_result with inl _ => Ok value | inr err => Err err end
  | inr err => Err (cleanup_error err "cleanup CLOSE after failed operation" close_result)
  end.

Definition open_cleanup_error (error : Error) (close_result : unit + Error) : Error :=
  cleanup_error error "cleanup CLOSE after failed OPEN post-processing" close_result.

Definition attrs_require_open_state (attrs : Fattr) : bool :=
  Bitmap.contains (Fattr.attrmask attrs) FATTR4_SIZE.

(** [advance_offset(&mut offset, amount, operation)?]: the new offset. *)
Definition advance_offset (offset amount : Z) (operation : string) : outcome Error Z :=
  if amount >? u64_max then Err (LengthOutOfRange amount) else
  ok_or (Protocol [PLit operation; PLit " offset overflow"]) (checked_add u64_max offset amount).

Definition ensure_distinct_copy_handles (source target : FileHandle) : outcome Error unit :=
  if bool_decide (source = target)
  then Err (Protocol [PLit "copy source and destination refer to the same file handle"])
  else Ok tt.
