(* ===== verification/V4ClientSpec.v ===== *)
(** * Laws of the NFSv4 client decisions (of [V4Client])

    [well_shaped] says which responses a COMPOUND may have, and the code's
    check accepts exactly these.  A delayed retry is allowed only when nothing
    before the delayed operation changes state.  The lock registry is a partial
    view of the shared store of lock states. *)

From Stdlib Require Import Strings.String Strings.Byte.
From stdpp Require Import sets.
From S2P Require Import Prelude Text Xdr Status Errors Rpc V3Client V4Attr V4Ops V4Results V4Client.
Import LockState (LockState).
Import ByteRangeLock (ByteRangeLock).
Import LockRegistry (LockRegistry).
Import Operation (Operation).
Import OperationResult (OperationResult).
Import CompoundResponse (CompoundResponse).

#[local] Open Scope Z_scope.

(** ** The shape of a response *)

Definition result_is_ok (r : OperationResult) : Prop := OperationResult.status r = Status.Ok.

#[export] Instance result_is_ok_dec r : Decision (result_is_ok r).
Proof. unfold result_is_ok; apply _. Defined.

(** A response a request of the operations [expected] may have: the results
    answer the first operations in order and all succeed, except that the last
    one carries the failure of the whole COMPOUND. *)
Record well_shaped (tag : str) (expected : list OpCode.OpCode) (response : CompoundResponse) : Prop := {
  shape_tag : CompoundResponse.tag response = tag;
  shape_prefix : ∃ answered rest, expected = answered ++ rest
    ∧ Forall2 (λ r op, compound_result_matches_expected r op = true) (CompoundResponse.results response) answered;
  shape_ok : CompoundResponse.status response = Status.Ok →
    length (CompoundResponse.results response) = length expected
    ∧ Forall result_is_ok (CompoundResponse.results response);
  shape_failed : CompoundResponse.status response ≠ Status.Ok →
    CompoundResponse.results response = []
    ∨ ∃ before last, CompoundResponse.results response = before ++ [last] ∧ Forall result_is_ok before
        ∧ OperationResult.status last = CompoundResponse.status response;
}.

Lemma is_ok_spec st : Status.is_ok st = true ↔ st = Status.Ok.
Proof. by destruct st. Qed.

Lemma is_ok_false st : Status.is_ok st = false ↔ st ≠ Status.Ok.
Proof. by destruct st. Qed.

Lemma position_Some {A} (p : A → bool) l i :
  position p l = Some i ↔ (∃ a, l !! i = Some a ∧ p a = true) ∧ Forall (λ a, p a = false) (take i l).
Proof.
  revert i. induction l as [|a l IH]; intros i; simpl; [naive_solver|].
  destruct (p a) eqn:E, i as [|i]; simpl; rewrite ?list.Forall_cons.
  - naive_solver.
  - split; [done|]. intros (_ & ? & _). congruence.
  - split; [by destruct (position p l)|]. intros [(b & [= <-] & ?) _]. congruence.
  - specialize (IH i). destruct (position p l); simpl; naive_solver.
Qed.

Lemma position_None {A} (p : A → bool) l : position p l = None ↔ Forall (λ a, p a = false) l.
Proof.
  induction l as [|a l IH]; simpl; [done|]. rewrite list.Forall_cons, <- IH.
  destruct (p a), (position p l); naive_solver.
Qed.

Lemma check_results_spec tag i results expected :
  (length results ≤ length expected)%nat →
  if decide (Forall2 (λ r op, compound_result_matches_expected r op = true) results
               (take (length results) expected))
  then check_results tag i results expected = Ok tt
  else ∃ e, check_results tag i results expected = Err e.
Proof.
  revert i expected. induction results as [|r results IH]; intros i [|op expected] Hlen;
    simpl in *; [done|done|lia|].
  specialize (IH (i + 1) expected ltac:(lia)).
  destruct (compound_result_matches_expected r op) eqn:E; simpl.
  - destruct (decide (Forall2 _ results _)), (decide (Forall2 _ (_ :: _) _)) as [H|H]; try done.
    + destruct H. by constructor.
    + by inversion H.
  - clear IH. destruct (decide _) as [H|]; [|by eexists]. inversion H; congruence.
Qed.

Lemma forall_ok_iff l :
  Forall (λ r, negb (Status.is_ok (OperationResult.status r)) = false) l ↔ Forall result_is_ok l.
Proof.
  apply Forall_iff. intros r. rewrite negb_false_iff. apply is_ok_spec.
Qed.

Lemma well_shaped_length tag expected response :
  well_shaped tag expected response →
  (length (CompoundResponse.results response) ≤ length expected)%nat.
Proof.
  intros [_ (answered & rest & -> & Hf) _ _]. rewrite (list.Forall2_length _ _ _ Hf), length_app. lia.
Qed.

(** The statuses of a response, once its results answer the operations. *)
Definition statuses_shaped (status : Status.Status) (results : list OperationResult) (expected : Z) : Prop :=
  (status = Status.Ok → zlen results = expected ∧ Forall result_is_ok results)
  ∧ (status ≠ Status.Ok →
     results = [] ∨ ∃ before last, results = before ++ [last] ∧ Forall result_is_ok before
       ∧ OperationResult.status last = status).

Lemma last_of_lookup {A} (l : list A) i a :
  l !! i = Some a → (i + 1)%nat = length l → l = take i l ++ [a].
Proof.
  intros Ha Hi. rewrite <- (take_drop i l) at 1. f_equal.
  rewrite (drop_S l a i Ha), (drop_ge l (S i)) by lia. done.
Qed.

Lemma app_last_position (before : list OperationResult) last :
  Forall result_is_ok before → OperationResult.status last ≠ Status.Ok →
  position (λ r, negb (Status.is_ok (OperationResult.status r))) (before ++ [last]) = Some (length before).
Proof.
  intros Hb Hl. apply position_Some. rewrite take_app_length. split; [|by apply forall_ok_iff].
  exists last. split; [by apply list_lookup_middle|]. apply negb_true_iff. by apply is_ok_false.
Qed.

(** [o] accepts exactly when [P] holds, and never faults. *)
Definition decides {E} (o : outcome E unit) (P : Prop) : Prop := (o = Ok tt ↔ P) ∧ fault_free o.

Lemma decides_Ok {E} (P : Prop) : P → decides (E := E) (Ok tt) P.
Proof. by intros. Qed.
Lemma decides_Err {E} (e : E) (P : Prop) : ¬ P → decides (Err e) P.
Proof. intros HP. split; [by split|done]. Qed.

(** A successful COMPOUND. *)
Lemma check_statuses_ok tag results expected :
  decides (check_statuses tag Status.Ok results expected) (statuses_shaped Status.Ok results expected).
Proof.
  unfold check_statuses, statuses_shaped. change (Status.is_ok Status.Ok) with true. cbn [andb negb].
  destruct (Z.eqb_spec (zlen results) expected) as [Heq|Hne]; cbn [negb].
  - destruct (position _ results) as [i|] eqn:Hp.
    + apply position_Some in Hp as [(r & Hr & Hneg) _]. rewrite Hr. apply decides_Err.
      intros [[_ Hall] _]; [done|]. apply (list.Forall_lookup_1 _ _ _ _ Hall) in Hr.
      rewrite Hr in Hneg. done.
    + apply position_None, forall_ok_iff in Hp. by apply decides_Ok.
  - apply decides_Err. by intros [[Hl _] _].
Qed.

(** A failed COMPOUND. *)
Lemma check_statuses_failed tag status results expected :
  status ≠ Status.Ok →
  decides (check_statuses tag status results expected) (statuses_shaped status results expected).
Proof.
  intros Hok. unfold check_statuses, statuses_shaped. rewrite (proj2 (is_ok_false status) Hok). cbn [andb negb].
  destruct (position _ results) as [i|] eqn:Hp.
  - pose proof Hp as [(r & Hr & Hneg) Hbefore]%position_Some. rewrite Hr.
    apply forall_ok_iff in Hbefore.
    destruct (Nat.eqb_spec (i + 1) (length results)) as [Hi|Hi]; cbn [negb].
    + pose proof (last_of_lookup _ _ _ Hr Hi) as Hlast. case_bool_decide as Hst.
      * apply decides_Err. intros [_ Hf]. destruct Hst.
        destruct (Hf Hok) as [E|(before & l & Hres & Hb & <-)]; [by rewrite E in Hr|].
        rewrite Hlast in Hres. by apply app_inj_tail in Hres as [_ <-].
      * apply decides_Ok. split; [done|]. intros _. right. eauto.
    + apply decides_Err. intros [_ Hf]. destruct Hi.
      destruct (Hf Hok) as [E|(before & l & Hres & Hb & Hl)]; [by rewrite E in Hr|].
      rewrite Hres, app_last_position in Hp by congruence. injection Hp as <-.
      by rewrite Hres, length_app.
  - apply position_None, forall_ok_iff in Hp. destruct results as [|r results']; cbn.
    + apply decides_Ok. split; [done|]. by left.
    + apply decides_Err. intros [_ Hf].
      destruct (Hf Hok) as [|(before & l & Happ & Hb & Hl)]; [done|]. rewrite Happ in Hp.
      apply Forall_app in Hp as [_ [Hl' _]%list.Forall_cons]. unfold result_is_ok in Hl'. congruence.
Qed.

(** [validate_compound_response_shape] accepts exactly the well-shaped
    responses, and never indexes out of range. *)
Lemma validate_shape_spec tag expected response :
  decides (validate_compound_response_shape tag expected response) (well_shaped tag expected response).
Proof.
  unfold validate_compound_response_shape.
  case_bool_decide as Htag; [apply decides_Err; by intros []|].
  rewrite Z.gtb_ltb.
  destruct (Z.ltb_spec (zlen expected) (zlen (CompoundResponse.results response))) as [Hlen|Hlen].
  { apply decides_Err. intros Hw%well_shaped_length. unfold zlen in *. lia. }
  assert (length (CompoundResponse.results response) ≤ length expected)%nat as Hle by (unfold zlen in *; lia).
  pose proof (check_results_spec tag 0 _ _ Hle) as Hc. destruct (decide _) as [Hm|Hm].
  2: { destruct Hc as [e ->]. apply decides_Err. intros [_ (answered & rest & -> & Hf) _ _].
       destruct Hm. by rewrite (list.Forall2_length _ _ _ Hf), take_app_length. }
  rewrite Hc. cbn [mbind outcome_bind].
  assert (well_shaped tag expected response ↔
          statuses_shaped (CompoundResponse.status response) (CompoundResponse.results response) (zlen expected)) as Heq.
  { unfold statuses_shaped, zlen. split; [intros [_ _ Ho Hf]; split; [naive_solver|done]|].
    intros [Ho Hf]. split; [done| |naive_solver|done].
    exists (take (length (CompoundResponse.results response)) expected),
      (drop (length (CompoundResponse.results response)) expected). by rewrite take_drop. }
  unfold decides. rewrite Heq. destruct (decide (CompoundResponse.status response = Status.Ok)) as [->|Hne];
    [apply check_statuses_ok|by apply check_statuses_failed].
Qed.

(** ** Sending a COMPOUND again *)

(** The server completed operation [k] (SEQUENCE not counted). *)
Definition executed (response : CompoundResponse) (k : nat) : Prop :=
  ∃ r, CompoundResponse.results response !! S k = Some r ∧ result_is_ok r.

(** Only the last result of a well-shaped response can have failed. *)
Lemma shaped_failure_last tag expected response i r :
  well_shaped tag expected response → CompoundResponse.results response !! i = Some r →
  ¬ result_is_ok r → S i = length (CompoundResponse.results response).
Proof.
  intros [_ _ Ho Hf] Hr Hn.
  destruct (decide (CompoundResponse.status response = Status.Ok)) as [E|E].
  - destruct (Ho E) as [_ Hall]. by apply (list.Forall_lookup_1 _ _ _ _ Hall) in Hr.
  - destruct (Hf E) as [Hnil|(before & l & Hres & Hb & _)]; [by rewrite Hnil in Hr|].
    rewrite Hres in Hr |- *. rewrite length_app; simpl.
    apply lookup_app_Some in Hr as [Hr|[Hle Hr]].
    + by apply (list.Forall_lookup_1 _ _ _ _ Hb) in Hr.
    + apply list_lookup_singleton_Some in Hr as [? _]. lia.
Qed.

Lemma delayed_not_ok r : status_allows_delayed_retry (OperationResult.status r) = true → ¬ result_is_ok r.
Proof. unfold result_is_ok. intros H E. by rewrite E in H. Qed.

(** A delayed retry repeats only operations that change nothing: whatever the
    server completed is one of them. *)
Lemma delayed_retry_replayable tag operations response k op :
  well_shaped tag (OpCode.Sequence :: (Operation.op_code <$> operations)) response →
  response_allows_delayed_retry operations response = true →
  operations !! k = Some op → executed response k →
  operation_can_replay_after_successful_prefix op = true.
Proof.
  intros Hw Hallow Hop (r & Hr & Hok).
  unfold response_allows_delayed_retry, response_allows_delayed_retry_after_leading_results in Hallow.
  destruct (first_delayed_retry_result_index response) as [i|] eqn:Hi; [|done].
  unfold first_delayed_retry_result_index in Hi.
  destruct (CompoundResponse.results response) as [|r0 rs] eqn:Hres; [done|]. cbn [is_empty andb] in Hi.
  rewrite <- Hres in Hi, Hr. apply position_Some in Hi as [(d & Hd & Hdelay) _].
  apply delayed_not_ok in Hdelay. pose proof (shaped_failure_last _ _ _ _ _ Hw Hd Hdelay) as Hlast.
  pose proof (lookup_lt_Some _ _ _ Hr) as Hlt.
  assert (i ≠ S k) by (intros ->; congruence).
  destruct (i <? 1)%nat eqn:Hlead; [apply Nat.ltb_lt in Hlead; lia|].
  destruct (operations !! (i - 1)%nat) as [op'|]; [|done].
  apply andb_true_iff in Hallow as [Hall _]. rewrite forallb_forall in Hall. apply Hall.
  apply list_elem_of_In. apply (list_elem_of_lookup_2 _ k). rewrite lookup_take_lt; [done|lia].
Qed.

(** What may be replayed in a new session may also be repeated. *)
Lemma replay_implies_repeat op :
  operation_can_replay_after_session_recovery op = true →
  operation_can_replay_after_successful_prefix op = true.
Proof. by destruct op. Qed.

(** The operations that change the file system, or state the server keeps for
    the client. *)
Definition changes_state (op : Operation) : bool :=
  match op with
  | Operation.SetClientId _ | Operation.SetClientIdConfirm _ | Operation.ExchangeId _
  | Operation.CreateSession _ | Operation.BackchannelCtl _ | Operation.BindConnToSession _
  | Operation.DestroySession _ | Operation.DestroyClientId _ | Operation.ReclaimComplete _
  | Operation.DelegPurge _ | Operation.DelegReturn _ | Operation.Open _ | Operation.OpenAttr _
  | Operation.OpenConfirm _ _ | Operation.Close _ _ | Operation.Lock _ | Operation.LockUnlock _
  | Operation.OpenDowngrade _ _ _ _ | Operation.FreeStateId _ | Operation.GetDirDelegation _
  | Operation.LayoutCommit _ | Operation.LayoutGet _ | Operation.LayoutReturn _ | Operation.SetSsv _
  | Operation.WantDelegation _ | Operation.SetAttr _ _ | Operation.Write _ _ _ _
  | Operation.Allocate _ _ _ | Operation.Deallocate _ _ _ | Operation.Copy _ | Operation.CopyNotify _
  | Operation.LayoutError _ | Operation.LayoutStats _ | Operation.OffloadCancel _ | Operation.Clone _
  | Operation.WriteSame _ | Operation.Commit _ _ | Operation.Remove _ | Operation.Link _
  | Operation.Rename _ _ | Operation.ReleaseLockOwner _ | Operation.Create _ => true
  | _ => false
  end.

(** Whatever is repeated changes nothing. *)
Lemma repeat_changes_nothing op :
  operation_can_replay_after_successful_prefix op = true → changes_state op = false.
Proof. by destruct op. Qed.

(** ** The lock registry *)

Section registry.
Implicit Types (reg : LockRegistry) (store : LockStore) (token : ByteRangeLock).

(** Every entry of the registry is in the store. *)
Definition registry_ok (reg : LockRegistry) (store : LockStore) : Prop :=
  Forall (λ e, (e < length store)%nat) (LockRegistry.entries reg).

(** The states the registry refers to. *)
Definition states_of (reg : LockRegistry) (store : LockStore) : list LockState :=
  omap (λ e, store !! e) (LockRegistry.entries reg).

Lemma registry_ok_default store : registry_ok LockRegistry.default store.
Proof. constructor. Qed.

Lemma registry_ok_grow reg store store' :
  (length store ≤ length store')%nat → registry_ok reg store → registry_ok reg store'.
Proof. intros Hle Hok. eapply list.Forall_impl; [exact Hok|]. intros e. simpl. lia. Qed.

Lemma lock_all_spec es store :
  Forall (λ e, (e < length store)%nat) es →
  LockRegistry.lock_all es store = (store, Ok (omap (λ e, store !! e) es))
  ∧ length (omap (λ e, store !! e) es) = length es.
Proof.
  induction 1 as [|e es He _ [IH Hlen]]; [done|]. cbn [LockRegistry.lock_all omap list_omap].
  destruct (lookup_lt_is_Some_2 store e He) as [st Hst].
  split.
  - erewrite bind_run; [|unfold LockRegistry.lock; by rewrite Hst].
    erewrite bind_run; [|exact IH]. by rewrite Hst.
  - rewrite Hst. simpl. by rewrite Hlen.
Qed.

Lemma snapshot_spec reg store :
  registry_ok reg store →
  LockRegistry.snapshot reg store = (store, Ok (states_of reg store))
  ∧ length (states_of reg store) = length (LockRegistry.entries reg).
Proof. apply lock_all_spec. Qed.

(** [ensure_valid] reports the first lost lock, and only then. *)
Lemma ensure_valid_spec reg store :
  registry_ok reg store →
  (LockRegistry.ensure_valid reg store).1 = store
  ∧ ((LockRegistry.ensure_valid reg store).2 = Ok tt ↔ Forall (λ st, LockState.lost st = None) (states_of reg store))
  ∧ (∀ err, (LockRegistry.ensure_valid reg store).2 = Err err →
       ∃ st status, st ∈ states_of reg store ∧ LockState.lost st = Some status ∧ err = LockLost status)
  ∧ fault_free (LockRegistry.ensure_valid reg store).2.
Proof.
  unfold registry_ok, LockRegistry.ensure_valid, states_of.
  induction 1 as [|e es He _ IH]; cbn [LockRegistry.ensure_all_valid omap list_omap]; [done|].
  destruct (lookup_lt_is_Some_2 store e He) as [st Hst]. rewrite Hst.
  erewrite bind_run; [|unfold LockRegistry.lock; by rewrite Hst].
  destruct (LockState.lost st) as [status|] eqn:Hl.
  - split_and!; [done| |intros err [= <-]; set_solver|done].
    split; [done|]. intros [? _]%list.Forall_cons. congruence.
  - destruct IH as (IH1 & IH2 & IH3 & IH4). split_and!; [done| |set_solver|done].
    rewrite list.Forall_cons, IH2. tauto.
Qed.

End registry.
