(* ===== verification/V4Extract.v ===== *)
(** * Paths, extracted results and pages of the NFSv4 clients (src/src/v4/client.rs)

    The operations a path becomes; one [response_*] function per operation that
    takes its result out of a response, with the checks on what the server may
    return; pages of directory entries and of device ids.  [find_map] over the
    results followed by [.ok_or_else(..)?] is [find_result]. *)

From Stdlib Require Import Strings.String Strings.Byte.
From S2P Require Import Prelude Text Xdr Status Errors Rpc V3Client V4Attr V4Ops V4Results V4Client.
Import FileHandle (FileHandle).
Import StateId (StateId).
Import Bitmap (Bitmap).
Import Fattr (Fattr).
Import BasicAttributes (BasicAttributes).
Import LockType (LockType).
Import LockDenied (LockDenied).
Import AppDataBlock (AppDataBlock).
Import IoAdviceType (IoAdviceType).
Import LayoutIomode (LayoutIomode).
Import SecInfo (SecInfo).
Import AccessResult (AccessResult).
Import ExchangeIdResult (ExchangeIdResult).
Import CreateSessionResult (CreateSessionResult).
Import BindConnToSessionResult (BindConnToSessionResult).
Import SetSsvResult (SetSsvResult).
Import OpenDelegation (OpenDelegation).
Import OpenResult (OpenResult).
Import WriteResult (WriteResult).
Import CommitResult (CommitResult).
Import SeekResult (SeekResult).
Import ReadPlusContent (ReadPlusContent).
Import ReadPlusResult (ReadPlusResult).
Import IoAdviseResult (IoAdviseResult).
Import OffloadStatusResult (OffloadStatusResult).
Import GetDirDelegationResult (GetDirDelegationResult).
Import GetDeviceInfoResult (GetDeviceInfoResult).
Import GetDeviceListResult (GetDeviceListResult).
Import LayoutCommitResult (LayoutCommitResult).
Import LayoutGetResult (LayoutGetResult).
Import LayoutReturnResult (LayoutReturnResult).
Import WriteResponse (WriteResponse).
Import CopyResult (CopyResult).
Import CopyNotifyResult (CopyNotifyResult).
Import Operation (Operation).
Import OperationResult (OperationResult).
Import CompoundResponse (CompoundResponse).

#[local] Open Scope Z_scope.

(** ** Paths *)

(** The loop over [path.split('/')]. *)
Fixpoint components_loop (path : str) (components : list str) : outcome Error (list str) :=
  match components with
  | [] => Ok []
  | component :: rest =>
      if bool_decide (component = []) || bool_decide (component = [dot])
      then components_loop path rest
      else if bool_decide (component = [dot; dot])
      then Err (InvalidPath path)
      else if zlen component >? NFS4_OPAQUE_LIMIT
      then Err (NameTooLong component NFS4_OPAQUE_LIMIT)
      else
        components ← components_loop path rest;
        Ok (component :: components)
  end.

Definition path_components (path : str) : outcome Error (list str) :=
  if is_empty path then Err (InvalidPath path)
  else components_loop path (split_on slash path).

Definition path_ops (path : str) (tail : list Operation) : outcome Error (list Operation) :=
  components ← path_components path;
  Ok ([Operation.PutRootFh] ++ (Operation.Lookup <$> components) ++ tail).

Definition public_path_ops (path : str) (tail : list Operation) : outcome Error (list Operation) :=
  components ← path_components path;
  Ok ([Operation.PutPubFh] ++ (Operation.Lookup <$> components) ++ tail).

Definition parent_path_ops (path : str) (tail : list Operation) : outcome Error (list Operation) :=
  components ← path_components path;
  if is_empty components then Err (InvalidPath path)
  else Ok ([Operation.PutRootFh] ++ (Operation.Lookup <$> components) ++ [Operation.Lookupp] ++ tail).

(** [name.contains('/')]. *)
Definition contains_slash (name : str) : bool := existsb (λ b, bool_decide (b = slash)) name.

Definition validate_named_attr_name (name : str) : outcome Error unit :=
  if is_empty name || bool_decide (name = [dot]) || bool_decide (name = [dot; dot])
     || contains_slash name
  then Err (InvalidPath name)
  else if zlen name >? NFS4_OPAQUE_LIMIT
  then Err (NameTooLong name NFS4_OPAQUE_LIMIT)
  else Ok tt.

Definition named_attr_ops (path name : str) (tail : list Operation) : outcome Error (list Operation) :=
  _ ← validate_named_attr_name name;
  ops ← path_ops path [Operation.OpenAttr false; Operation.Lookup name];
  Ok (ops ++ tail).

Definition join_path (parent name : str) : str :=
  if bool_decide (parent = [slash]) then slash :: name
  else if is_empty parent then name
  else trim_end_matches slash parent ++ slash :: name.

Definition split_parent (path : str) : outcome Error (list str * str) :=
  components ← path_components path;
  ok_or (InvalidPath path) (pop components).

Definition temporary_name : M TempEnv Error str := λ env,
  let counter := env_counter env in
  (mkTempEnv (env_pid env) (env_nanos env) ((counter + 1) mod 2 ^ 64),
   Ok (lit_bytes ".nfs-rs-tmp-" ++ decimal (env_pid env) ++ dash :: decimal (env_nanos env counter)
       ++ dash :: decimal counter)).

Definition temporary_sibling_path (path : str) : M TempEnv Error str :=
  components ← lift (path_components path);
  '(components, _) ← lift (ok_or (InvalidPath path) (pop components));
  let parent := fold_left join_path components [slash] in
  name ← temporary_name;
  mret (join_path parent name).

Definition temporary_named_attr_name : M TempEnv Error str := temporary_name.

(** ** Taking results out of a response *)

Definition debug_status_error (what : string) (status : Status.Status) : Error :=
  Protocol [PLit what; PLit " failed with "; debug_status status].

Definition response_exchange_id (response : CompoundResponse) : outcome Error ExchangeIdResult :=
  match head (CompoundResponse.results response) with
  | Some (OperationResult.ExchangeId status (Some result)) =>
      if Status.is_ok status then Ok result else Err (debug_status_error "EXCHANGE_ID" status)
  | Some result => Err (debug_status_error "EXCHANGE_ID" (OperationResult.status result))
  | None => Err (Protocol [PLit "EXCHANGE_ID returned no result"])
  end.

Definition response_create_session (response : CompoundResponse) : outcome Error CreateSessionResult :=
  match head (CompoundResponse.results response) with
  | Some (OperationResult.CreateSession status (Some result)) =>
      if Status.is_ok status then Ok result else Err (debug_status_error "CREATE_SESSION" status)
  | Some result => Err (debug_status_error "CREATE_SESSION" (OperationResult.status result))
  | None => Err (Protocol [PLit "CREATE_SESSION returned no result"])
  end.

(** [iter().find_map(f)]. *)
Fixpoint find_map {A B} (f : A → option B) (l : list A) : option B :=
  match l with
  | [] => None
  | a :: rest => match f a with Some b => Some b | None => find_map f rest end
  end.

(** [results.iter().find_map(f).ok_or_else(|| Protocol("COMPOUND did not include .."))?]. *)
Definition find_result {A} (name : string) (f : OperationResult → option (outcome Error A))
    (response : CompoundResponse) : outcome Error A :=
  match find_map f (CompoundResponse.results response) with
  | Some result => result
  | None => Err (Protocol [PLit "COMPOUND did not include "; PLit name; PLit " result"])
  end.

(** [{ status, result: Some(value) } if status.is_ok() => Ok(value), { status, .. } => Err(..)]. *)
Definition ok_value {A} (name : string) (status : Status.Status) (result : option A) : outcome Error A :=
  match result with
  | Some value => if Status.is_ok status then Ok value else Err (NfsV4 name status)
  | None => Err (NfsV4 name status)
  end.

(** The same, where OK without a value is reported with [missing]. *)
Definition ok_value_or {A} (name : string) (missing : message) (status : Status.Status)
    (result : option A) : outcome Error A :=
  if Status.is_ok status
  then match result with Some value => Ok value | None => Err (Protocol missing) end
  else Err (NfsV4 name status).

Definition without_result (name what : string) : message :=
  [PLit "NFSv4 "; PLit name; PLit " returned OK without a "; PLit what].

Definition response_open (response : CompoundResponse) : outcome Error OpenResult :=
  find_result "OPEN" (λ result,
    match result with
    | OperationResult.Open status value => Some (ok_value "OPEN" status value)
    | _ => None
    end) response.

Definition open_delegation_stateid (delegation : OpenDelegation) : option StateId :=
  match delegation with
  | OpenDelegation.Read delegation => Some (OpenReadDelegation.stateid delegation)
  | OpenDelegation.Write delegation => Some (OpenWriteDelegation.stateid delegation)
  | OpenDelegation.None_ | OpenDelegation.NoneExt _ => None
  end.

Definition validate_open_result (open : OpenResult) (minor_version : Z)
    : outcome Error (option StateId) :=
  if (minor_version >=? NFS4_MINOR_VERSION_SESSION_MIN)
     && negb (Z.land (OpenResult.result_flags open) OPEN4_RESULT_CONFIRM =? 0)
  then Err (Protocol [PLit "NFSv4 server requested OPEN_CONFIRM for a session minor version"])
  else Ok (open_delegation_stateid (OpenResult.delegation open)).

Definition response_getfh (response : CompoundResponse) : outcome Error FileHandle :=
  find_result "GETFH" (λ result,
    match result with
    | OperationResult.GetFh status value => Some (ok_value "GETFH" status value)
    | _ => None
    end) response.

Definition response_getattr (response : CompoundResponse) : outcome Error Fattr :=
  find_result "GETATTR" (λ result,
    match result with
    | OperationResult.GetAttr status value => Some (ok_value "GETATTR" status value)
    | _ => None
    end) response.

Definition response_access (response : CompoundResponse) : outcome Error AccessResult :=
  find_result "ACCESS" (λ result,
    match result with
    | OperationResult.Access status value => Some (ok_value "ACCESS" status value)
    | _ => None
    end) response.

Definition response_bind_conn_to_session (response : CompoundResponse) : outcome Error BindConnToSessionResult :=
  find_result "BIND_CONN_TO_SESSION" (λ result,
    match result with
    | OperationResult.BindConnToSession status value =>
        Some (ok_value_or "BIND_CONN_TO_SESSION" (without_result "BIND_CONN_TO_SESSION" "result") status value)
    | _ => None
    end) response.

Definition response_set_ssv (response : CompoundResponse) : outcome Error SetSsvResult :=
  find_result "SET_SSV" (λ result,
    match result with
    | OperationResult.SetSsv status value =>
        Some (ok_value_or "SET_SSV" (without_result "SET_SSV" "result") status value)
    | _ => None
    end) response.

Definition response_secinfo (response : CompoundResponse) (expected : OpCode.OpCode)
    : outcome Error (list SecInfo) :=
  find_result (OpCode.name expected) (λ result,
    match result with
    | OperationResult.SecInfo op status flavors =>
        if bool_decide (op = expected)
        then Some (if Status.is_ok status then Ok flavors else Err (NfsV4 (OpCode.name expected) status))
        else None
    | _ => None
    end) response.

Definition response_verify (response : CompoundResponse) (expected : OpCode.OpCode)
    (false_status : Status.Status) : outcome Error bool :=
  find_result (OpCode.name expected) (λ result,
    match result with
    | OperationResult.StatusOnly op status =>
        if bool_decide (op = expected) then
          Some (if Status.is_ok status then Ok true
                else if bool_decide (status = false_status) then Ok false
                else Err (NfsV4 (OpCode.name expected) status))
        else None
    | _ => None
    end) response.

Definition validate_read_result_size (requested_count data_len : Z) (eof : bool) : outcome Error unit :=
  if data_len >? requested_count
  then Err (Protocol [PLit "NFSv4 READ returned "; PNum data_len; PLit " bytes for a ";
                      PNum requested_count; PLit " byte request"])
  else if (requested_count >? 0) && (data_len =? 0) && negb eof
  then Err (Protocol [PLit "NFSv4 READ returned no data before EOF"])
  else Ok tt.

Definition response_read (response : CompoundResponse) (requested_count : Z)
    : outcome Error (bool * list byte) :=
  find_result "READ" (λ result,
    match result with
    | OperationResult.Read status eof data =>
        Some (if Status.is_ok status
              then _ ← validate_read_result_size requested_count (zlen data) eof; Ok (eof, data)
              else Err (NfsV4 "READ" status))
    | _ => None
    end) response.

Definition content_len (content : ReadPlusContent) : Z :=
  match content with
  | ReadPlusContent.Data _ data => zlen data
  | ReadPlusContent.Hole _ length => length
  end.

(** The loop that adds up the lengths with [checked_add]. *)
Fixpoint returned_len (returned : Z) (contents : list ReadPlusContent) : outcome Error Z :=
  match contents with
  | [] => Ok returned
  | content :: rest =>
      returned ← ok_or (Protocol [PLit "NFSv4 READ_PLUS returned content length overflow"])
                   (checked_add u64_max returned (content_len content));
      returned_len returned rest
  end.

Definition validate_read_plus_result (requested_count : Z) (result : ReadPlusResult)
    : outcome Error unit :=
  returned ← returned_len 0 (ReadPlusResult.contents result);
  if returned >? requested_count
  then Err (Protocol [PLit "NFSv4 READ_PLUS returned "; PNum returned; PLit " bytes for a ";
                      PNum requested_count; PLit " byte request"])
  else if (requested_count >? 0) && (returned =? 0) && negb (ReadPlusResult.eof result)
  then Err (Protocol [PLit "NFSv4 READ_PLUS returned no content before EOF"])
  else Ok tt.

(** A value to check further once its status is OK. *)
Definition checked_value {A} (name : string) (check : A → outcome Error unit) (status : Status.Status)
    (result : option A) : outcome Error A :=
  value ← ok_value name status result;
  _ ← check value;
  Ok value.

Definition response_read_plus (response : CompoundResponse) (requested_count : Z)
    : outcome Error ReadPlusResult :=
  find_result "READ_PLUS" (λ result,
    match result with
    | OperationResult.ReadPlus status value =>
        Some (checked_value "READ_PLUS" (validate_read_plus_result requested_count) status value)
    | _ => None
    end) response.

Definition response_readlink (response : CompoundResponse) : outcome Error str :=
  find_result "READLINK" (λ result,
    match result with
    | OperationResult.ReadLink status value => Some (ok_value "READLINK" status value)
    | _ => None
    end) response.

Definition validate_write_result_count (requested_count returned_count : Z) : outcome Error unit :=
  if returned_count >? requested_count
  then Err (Protocol [PLit "NFSv4 WRITE reported "; PNum returned_count; PLit " bytes for a ";
                      PNum requested_count; PLit " byte request"])
  else if (requested_count >? 0) && (returned_count =? 0)
  then Err (Protocol [PLit "NFSv4 WRITE accepted zero bytes"])
  else Ok tt.

Definition response_write (response : CompoundResponse) (requested_count : Z)
    : outcome Error WriteResult :=
  find_result "WRITE" (λ result,
    match result with
    | OperationResult.Write status value =>
        Some (checked_value "WRITE"
                (λ write, validate_write_result_count requested_count (WriteResult.count write))
                status value)
    | _ => None
    end) response.

Definition response_io_advise (response : CompoundResponse) : outcome Error IoAdviseResult :=
  find_result "IO_ADVISE" (λ result,
    match result with
    | OperationResult.IoAdvise status value => Some (ok_value "IO_ADVISE" status value)
    | _ => None
    end) response.

Definition validate_copy_result (requested_count : Z) (copy : CopyResult) : outcome Error unit :=
  write ← ok_or (Protocol [PLit "NFSv4 COPY returned OK without a write response"])
            (CopyResult.response copy);
  if WriteResponse.count write >? requested_count
  then Err (Protocol [PLit "NFSv4 COPY reported "; PNum (WriteResponse.count write);
                      PLit " bytes for a "; PNum requested_count; PLit " byte request"])
  else if (requested_count >? 0) && (WriteResponse.count write =? 0)
          && bool_decide (WriteResponse.callback_id write = None)
  then Err (Protocol [PLit "NFSv4 COPY accepted zero bytes"])
  else Ok tt.

Definition response_copy (response : CompoundResponse) (requested_count : Z) : outcome Error CopyResult :=
  find_result "COPY" (λ result,
    match result with
    | OperationResult.Copy status value =>
        Some (copy ← ok_value_or "COPY" (without_result "COPY" "result") status value;
              _ ← validate_copy_result requested_count copy;
              Ok copy)
    | _ => None
    end) response.

Definition response_copy_notify (response : CompoundResponse) : outcome Error CopyNotifyResult :=
  find_result "COPY_NOTIFY" (λ result,
    match result with
    | OperationResult.CopyNotify status value =>
        Some (ok_value_or "COPY_NOTIFY" (without_result "COPY_NOTIFY" "result") status value)
    | _ => None
    end) response.

Definition response_lock_test (response : CompoundResponse) : outcome Error (option LockDenied) :=
  find_result "LOCKT" (λ result,
    match result with
    | OperationResult.LockTest status denied =>
        Some (if Status.is_ok status then Ok None else
              if bool_decide (status = Status.Denied) then
                match denied with
                | Some denied => Ok (Some denied)
                | None =>
                    Err (Protocol [PLit "NFSv4 LOCKT returned DENIED without conflicting lock details"])
                end
              else Err (NfsV4 "LOCKT" status))
    | _ => None
    end) response.

Definition response_lock (response : CompoundResponse) : outcome Error StateId :=
  find_result "LOCK" (λ result,
    match result with
    | OperationResult.Lock status stateid _ =>
        Some (ok_value_or "LOCK" [PLit "NFSv4 LOCK returned "; debug_status status;
                                  PLit " without a stateid: None"] status stateid)
    | _ => None
    end) response.

Definition response_lock_unlock (response : CompoundResponse) : outcome Error StateId :=
  find_result "LOCKU" (λ result,
    match result with
    | OperationResult.LockUnlock status stateid =>
        Some (ok_value_or "LOCKU" [PLit "NFSv4 LOCKU returned "; debug_status status;
                                   PLit " without a stateid: None"] status stateid)
    | _ => None
    end) response.

Definition response_test_stateids (response : CompoundResponse) (requested_count : Z)
    : outcome Error (list Status.Status) :=
  find_result "TEST_STATEID" (λ result,
    match result with
    | OperationResult.TestStateIds status statuses =>
        Some (if Status.is_ok status then
                if zlen statuses =? requested_count then Ok statuses
                else Err (Protocol [PLit "NFSv4 TEST_STATEID returned "; PNum (zlen statuses);
                                    PLit " statuses for "; PNum requested_count; PLit " stateids"])
              else Err (NfsV4 "TEST_STATEID" status))
    | _ => None
    end) response.

Definition response_release_lock_owner (response : CompoundResponse) : outcome Error bool :=
  find_result "RELEASE_LOCKOWNER" (λ result,
    match result with
    | OperationResult.StatusOnly OpCode.ReleaseLockOwner status =>
        Some (if Status.is_ok status then Ok true
              else if bool_decide (status = Status.LocksHeld) then Ok false
              else Err (NfsV4 "RELEASE_LOCKOWNER" status))
    | _ => None
    end) response.

Definition response_offload_status (response : CompoundResponse) : outcome Error OffloadStatusResult :=
  find_result "OFFLOAD_STATUS" (λ result,
    match result with
    | OperationResult.OffloadStatus status value =>
        Some (ok_value_or "OFFLOAD_STATUS" (without_result "OFFLOAD_STATUS" "result") status value)
    | _ => None
    end) response.

(** [{value:?}] of an optional number. *)
Definition debug_option (value : option Z) : message :=
  match value with Some n => [PLit "Some("; PNum n; PLit ")"] | None => [PLit "None"] end.

Definition response_get_device_info (response : CompoundResponse) : outcome Error GetDeviceInfoResult :=
  find_result "GETDEVICEINFO" (λ result,
    match result with
    | OperationResult.GetDeviceInfo status value min_count =>
        Some (ok_value_or "GETDEVICEINFO"
                ([PLit "NFSv4 GETDEVICEINFO returned OK without a result (min_count="]
                 ++ debug_option min_count ++ [PLit ")"]) status value)
    | _ => None
    end) response.

Definition response_get_device_list (response : CompoundResponse) : outcome Error GetDeviceListResult :=
  find_result "GETDEVICELIST" (λ result,
    match result with
    | OperationResult.GetDeviceList status value =>
        Some (ok_value_or "GETDEVICELIST" (without_result "GETDEVICELIST" "result") status value)
    | _ => None
    end) response.

Definition response_get_dir_delegation (response : CompoundResponse) : outcome Error GetDirDelegationResult :=
  find_result "GET_DIR_DELEGATION" (λ result,
    match result with
    | OperationResult.GetDirDelegation status value =>
        Some (ok_value_or "GET_DIR_DELEGATION" (without_result "GET_DIR_DELEGATION" "result") status value)
    | _ => None
    end) response.

Definition response_want_delegation (response : CompoundResponse) : outcome Error OpenDelegation :=
  find_result "WANT_DELEGATION" (λ result,
    match result with
    | OperationResult.WantDelegation status value =>
        Some (ok_value_or "WANT_DELEGATION" (without_result "WANT_DELEGATION" "delegation") status value)
    | _ => None
    end) response.

Definition response_layout_commit (response : CompoundResponse) : outcome Error LayoutCommitResult :=
  find_result "LAYOUTCOMMIT" (λ result,
    match result with
    | OperationResult.LayoutCommit status value =>
        Some (ok_value_or "LAYOUTCOMMIT" (without_result "LAYOUTCOMMIT" "result") status value)
    | _ => None
    end) response.

Definition response_layout_get (response : CompoundResponse) : outcome Error LayoutGetResult :=
  find_result "LAYOUTGET" (λ result,
    match result with
    | OperationResult.LayoutGet status value will_signal_layout_avail =>
        Some (ok_value_or "LAYOUTGET"
                ([PLit "NFSv4 LAYOUTGET returned OK without a result (will_signal_layout_avail="]
                 ++ [match will_signal_layout_avail with
                     | Some true => PLit "Some(true)"
                     | Some false => PLit "Some(false)"
                     | None => PLit "None"
                     end] ++ [PLit ")"]) status value)
    | _ => None
    end) response.

Definition response_layout_return (response : CompoundResponse) : outcome Error LayoutReturnResult :=
  find_result "LAYOUTRETURN" (λ result,
    match result with
    | OperationResult.LayoutReturn status value =>
        Some (ok_value_or "LAYOUTRETURN" (without_result "LAYOUTRETURN" "result") status value)
    | _ => None
    end) response.

Definition validate_u64_write_result_count (operation : string) (requested_count returned_count : Z)
    : outcome Error unit :=
  if returned_count >? requested_count
  then Err (Protocol [PLit "NFSv4 "; PLit operation; PLit " reported "; PNum returned_count;
                      PLit " bytes for a "; PNum requested_count; PLit " byte request"])
  else if (requested_count >? 0) && (returned_count =? 0)
  then Err (Protocol [PLit "NFSv4 "; PLit operation; PLit " accepted zero bytes"])
  else Ok tt.

Definition response_write_same (response : CompoundResponse) (requested_count : Z)
    : outcome Error WriteResponse :=
  find_result "WRITE_SAME" (λ result,
    match result with
    | OperationResult.WriteSame status value =>
        Some (checked_value "WRITE_SAME"
                (λ write, validate_u64_write_result_count "WRITE_SAME" requested_count
                            (WriteResponse.count write)) status value)
    | _ => None
    end) response.

Definition response_commit (response : CompoundResponse) : outcome Error CommitResult :=
  find_result "COMMIT" (λ result,
    match result with
    | OperationResult.Commit status value => Some (ok_value "COMMIT" status value)
    | _ => None
    end) response.

Definition response_seek (response : CompoundResponse) : outcome Error SeekResult :=
  find_result "SEEK" (λ result,
    match result with
    | OperationResult.Seek status value => Some (ok_value "SEEK" status value)
    | _ => None
    end) response.

Abbreviation WireDirEntry := V4Results.DirEntry.DirEntry.

Definition response_readdir (response : CompoundResponse)
    : outcome Error (list byte * list WireDirEntry * bool) :=
  find_result "READDIR" (λ result,
    match result with
    | OperationResult.ReadDir status cookieverf entries eof =>
        Some (if Status.is_ok status then Ok (cookieverf, entries, eof)
              else Err (NfsV4 "READDIR" status))
    | _ => None
    end) response.

Fixpoint openattr_readdir_loop (saw_openattr : bool) (results : list OperationResult)
    : outcome Error (list byte * list WireDirEntry * bool) :=
  match results with
  | [] =>
      if saw_openattr
      then Err (Protocol [PLit "COMPOUND did not include READDIR result after OPENATTR"])
      else Err (Protocol [PLit "COMPOUND did not include OPENATTR result"])
  | OperationResult.StatusOnly OpCode.OpenAttr status :: rest =>
      if Status.is_ok status then openattr_readdir_loop true rest
      else Err (NfsV4 "OPENATTR" status)
  | OperationResult.ReadDir status cookieverf entries eof :: _ =>
      if Status.is_ok status then Ok (cookieverf, entries, eof) else Err (NfsV4 "READDIR" status)
  | _ :: rest => openattr_readdir_loop saw_openattr rest
  end.

Definition response_openattr_readdir (response : CompoundResponse)
    : outcome Error (list byte * list WireDirEntry * bool) :=
  openattr_readdir_loop false (CompoundResponse.results response).

(** ** Arguments *)

Definition app_data_block_len (block : AppDataBlock) : outcome Error Z :=
  if (AppDataBlock.block_count block >? 0) && (AppDataBlock.block_size block =? 0)
  then Err (Protocol [PLit "NFSv4 WRITE_SAME block size must be nonzero when block count is nonzero"])
  else
    let len := AppDataBlock.block_size block * AppDataBlock.block_count block in
    if len <=? u64_max then Ok len
    else Err (Protocol [PLit "NFSv4 WRITE_SAME byte count overflow"]).

Definition io_advice_bitmap {E} (hints : list IoAdviceType) : outcome E Bitmap :=
  Bitmap.from_known_attrs (IoAdviceType.as_u32 <$> hints).

Definition io_advice_share_access (hints : list IoAdviceType) : Z :=
  if existsb (λ hint, bool_decide (hint = IoAdviceType.Write)) hints
  then OPEN4_SHARE_ACCESS_WRITE
  else OPEN4_SHARE_ACCESS_READ.

Definition layout_iomode_share_access (iomode : LayoutIomode) : Z :=
  match iomode with
  | LayoutIomode.Read => OPEN4_SHARE_ACCESS_READ
  | _ => OPEN4_SHARE_ACCESS_BOTH
  end.

Definition validate_stateid_batch_len (count : Z) : outcome Error unit :=
  if count >? NFS4_MAX_OPS
  then Err (Protocol [PLit "NFSv4 TEST_STATEID accepts at most "; PNum NFS4_MAX_OPS;
                      PLit " stateids, got "; PNum count])
  else Ok tt.

Definition validate_max_device_ids (max_device_ids : Z) : outcome Error Z :=
  if (max_device_ids =? 0) || (max_device_ids >? u32_max)
  then Err (Protocol [PLit "max_device_ids must be in 1..="; PNum u32_max])
  else Ok max_device_ids.

(** ** Pages *)

Module DirPageCursor.

Record DirPageCursor := mkDirPageCursor { cookie : Z; cookieverf : list byte }.

Definition default : DirPageCursor := mkDirPageCursor 0 (replicate 8 x00).

End DirPageCursor.
Import DirPageCursor (DirPageCursor).

Module DirEntry.

Record DirEntry := mkDirEntry { cookie : Z; name : str; attributes : BasicAttributes }.

Definition from_wire (entry : WireDirEntry) : outcome Error DirEntry :=
  attributes ← parse_basic (V4Results.DirEntry.attrs entry);
  Ok (mkDirEntry (V4Results.DirEntry.cookie entry) (V4Results.DirEntry.name entry) attributes).

Definition basic_attributes (self : DirEntry) : outcome Error BasicAttributes := Ok (attributes self).

(** [.map(DirEntry::from_wire).collect::<Result<Vec<_>>>()]. *)
Fixpoint from_wire_all (entries : list WireDirEntry) : outcome Error (list DirEntry) :=
  match entries with
  | [] => Ok []
  | entry :: rest => e ← from_wire entry; es ← from_wire_all rest; Ok (e :: es)
  end.

End DirEntry.
Import DirEntry (DirEntry).

Module DirPage.

Record DirPage := mkDirPage { entries : list DirEntry; next_cursor : option DirPageCursor }.

Definition is_eof (self : DirPage) : bool :=
  match next_cursor self with None => true | Some _ => false end.

End DirPage.
Import DirPage (DirPage).

Definition next_dir_cursor (cookieverf : list byte) (entries : list WireDirEntry) (eof : bool)
    (previous_cookie : Z) : outcome Error (option DirPageCursor) :=
  if eof then Ok None else
  last ← ok_or (Protocol [PLit "NFSv4 READDIR returned no entries before EOF"]) (list.last entries);
  if V4Results.DirEntry.cookie last =? previous_cookie
  then Err (Protocol [PLit "NFSv4 READDIR did not advance directory cookie "; PNum previous_cookie])
  else Ok (Some (DirPageCursor.mkDirPageCursor (V4Results.DirEntry.cookie last) cookieverf)).

Definition dir_page_from_entries (cookieverf : list byte) (entries : list WireDirEntry) (eof : bool)
    (previous_cookie max_entries : Z) : outcome Error DirPage :=
  if zlen entries >? max_entries
  then Err (Protocol [PLit "NFSv4 READDIR exceeded configured limit of "; PNum max_entries;
                      PLit " entries"]) else
  next_cursor ← next_dir_cursor cookieverf entries eof previous_cookie;
  entries ← DirEntry.from_wire_all entries;
  Ok (DirPage.mkDirPage entries next_cursor).

Module DeviceListCursor.

Record DeviceListCursor := mkDeviceListCursor { cookie : Z; cookieverf : list byte }.

Definition default : DeviceListCursor := mkDeviceListCursor 0 (replicate 8 x00).

End DeviceListCursor.
Import DeviceListCursor (DeviceListCursor).

Module DeviceListPage.

Record DeviceListPage := mkDeviceListPage {
  device_ids : list (list byte);
  next_cursor : option DeviceListCursor;
}.

Definition is_eof (self : DeviceListPage) : bool :=
  match next_cursor self with None => true | Some _ => false end.

End DeviceListPage.
Import DeviceListPage (DeviceListPage).

Definition next_device_list_cursor (cookie : Z) (cookieverf : list byte) (eof : bool)
    (previous_cookie : Z) : outcome Error (option DeviceListCursor) :=
  if eof then Ok None else
  if cookie =? previous_cookie
  then Err (Protocol [PLit "NFSv4 GETDEVICELIST did not advance device-list cookie ";
                      PNum previous_cookie])
  else Ok (Some (DeviceListCursor.mkDeviceListCursor cookie cookieverf)).

Definition device_list_page_from_result (result : GetDeviceListResult)
    (previous_cookie max_device_ids : Z) : outcome Error DeviceListPage :=
  if zlen (GetDeviceListResult.device_ids result) >? max_device_ids
  then Err (Protocol [PLit "NFSv4 GETDEVICELIST exceeded configured limit of "; PNum max_device_ids;
                      PLit " device ids"]) else
  next_cursor ← next_device_list_cursor (GetDeviceListResult.cookie result)
                  (GetDeviceListResult.cookieverf result) (GetDeviceListResult.eof result)
                  previous_cookie;
  Ok (DeviceListPage.mkDeviceListPage (GetDeviceListResult.device_ids result) next_cursor).
