(* ===== verification/V4Session.v ===== *)
(** * The NFSv4 session client (src/src/v4/blocking.rs)

    [Client] with its builder, COMPOUND calls over an RPC connection, session
    setup with minor-version negotiation, the retry and recovery loop of
    [compound_status], session recovery with lock reclaim, and shutdown.

    The client is written against two interfaces.  [Nfs4Rpc W R] carries
    COMPOUNDs over a connection [R] in a network [W] ([RpcClient] over TCP is
    one); [Nfs4Net W R] opens connections and runs the lease thread, which the
    client only starts, asks whether it failed, and stops.  [Env] holds what
    clients share: the network, the states of locks, and the sleeps. *)

From Stdlib Require Import Strings.String Strings.Byte.
From S2P Require Import Prelude Text Xdr Status Errors Rpc V3Client V3Connect V4Attr V4Ops V4Results.
From S2P Require Import V4Client V4Extract.
Import FileHandle (FileHandle).
Import StateId (StateId).
Import Bitmap (Bitmap).
Import Fattr (Fattr).
Import FsInfo (FsInfo).
Import LockState (LockState).
Import LockRegistry (LockRegistry).
Import Operation (Operation).
Import OperationResult (OperationResult).
Import CompoundResponse (CompoundResponse).

#[local] Open Scope Z_scope.

Definition DEFAULT_IO_SIZE : Z := 128 * 1024.
Definition DEFAULT_DIR_SIZE : Z := 128 * 1024.

(** [verifier_from_time], given the time. *)
Definition verifier_from_time (secs subsec_nanos : Z) : list byte := be_bytes 8 (Z.lxor secs subsec_nanos).

Module ClientBuilder.

Record ClientBuilder := mkClientBuilder {
  host : str;
  auth : AuthSys;
  timeout : option Z;
  port : Z;
  owner_id : list byte;
  open_owner : list byte;
  client_owner_verifier : list byte;
  read_size : Z;
  write_size : Z;
  dir_size : Z;
  max_dir_entries : Z;
  max_minor_version : Z;
  retry_policy : RetryPolicy;
  automatic_lease_renewal : bool;
}.

(** [ClientBuilder::new], given the process credentials and the time. *)
Definition new (current : AuthSys) (verifier : list byte) (host : str) : M TempEnv Error ClientBuilder :=
  owner_id ← default_owner_id host;
  open_owner ← default_open_owner host;
  mret (mkClientBuilder host current (Some (from_secs 30)) NFS4_PORT owner_id open_owner verifier
          DEFAULT_IO_SIZE DEFAULT_IO_SIZE DEFAULT_DIR_SIZE NFS4_MAX_DIR_ENTRIES
          NFS4_MINOR_VERSION_LATEST RetryPolicy_default false).

Definition auth_sys (auth : AuthSys) (self : ClientBuilder) : ClientBuilder :=
  mkClientBuilder (host self) auth (timeout self) (port self) (owner_id self) (open_owner self)
    (client_owner_verifier self) (read_size self) (write_size self) (dir_size self)
    (max_dir_entries self) (max_minor_version self) (retry_policy self)
    (automatic_lease_renewal self).
Definition set_timeout (timeout : option Z) (self : ClientBuilder) : ClientBuilder :=
  mkClientBuilder (host self) (auth self) timeout (port self) (owner_id self) (open_owner self)
    (client_owner_verifier self) (read_size self) (write_size self) (dir_size self)
    (max_dir_entries self) (max_minor_version self) (retry_policy self)
    (automatic_lease_renewal self).
Definition set_port (port : Z) (self : ClientBuilder) : ClientBuilder :=
  mkClientBuilder (host self) (auth self) (timeout self) port (owner_id self) (open_owner self)
    (client_owner_verifier self) (read_size self) (write_size self) (dir_size self)
    (max_dir_entries self) (max_minor_version self) (retry_policy self)
    (automatic_lease_renewal self).
Definition set_owner_id (owner_id : list byte) (self : ClientBuilder) : ClientBuilder :=
  mkClientBuilder (host self) (auth self) (timeout self) (port self) owner_id (open_owner self)
    (client_owner_verifier self) (read_size self) (write_size self) (dir_size self)
    (max_dir_entries self) (max_minor_version self) (retry_policy self)
    (automatic_lease_renewal self).
Definition set_open_owner (open_owner : list byte) (self : ClientBuilder) : ClientBuilder :=
  mkClientBuilder (host self) (auth self) (timeout self) (port self) (owner_id self) open_owner
    (client_owner_verifier self) (read_size self) (write_size self) (dir_size self)
    (max_dir_entries self) (max_minor_version self) (retry_policy self)
    (automatic_lease_renewal self).
Definition set_client_owner_verifier (verifier : list byte) (self : ClientBuilder) : ClientBuilder :=
  mkClientBuilder (host self) (auth self) (timeout self) (port self) (owner_id self)
    (open_owner self) verifier (read_size self) (write_size self) (dir_size self)
    (max_dir_entries self) (max_minor_version self) (retry_policy self)
    (automatic_lease_renewal self).
Definition io_size (size : Z) (self : ClientBuilder) : ClientBuilder :=
  mkClientBuilder (host self) (auth self) (timeout self) (port self) (owner_id self)
    (open_owner self) (client_owner_verifier self) size size (dir_size self)
    (max_dir_entries self) (max_minor_version self) (retry_policy self)
    (automatic_lease_renewal self).
Definition set_read_size (size : Z) (self : ClientBuilder) : ClientBuilder :=
  mkClientBuilder (host self) (auth self) (timeout self) (port self) (owner_id self)
    (open_owner self) (client_owner_verifier self) size (write_size self) (dir_size self)
    (max_dir_entries self) (max_minor_version self) (retry_policy self)
    (automatic_lease_renewal self).
Definition set_write_size (size : Z) (self : ClientBuilder) : ClientBuilder :=
  mkClientBuilder (host self) (auth self) (timeout self) (port self) (owner_id self)
    (open_owner self) (client_owner_verifier self) (read_size self) size (dir_size self)
    (max_dir_entries self) (max_minor_version self) (retry_policy self)
    (automatic_lease_renewal self).
Definition set_dir_size (size : Z) (self : ClientBuilder) : ClientBuilder :=
  mkClientBuilder (host self) (auth self) (timeout self) (port self) (owner_id self)
    (open_owner self) (client_owner_verifier self) (read_size self) (write_size self) size
    (max_dir_entries self) (max_minor_version self) (retry_policy self)
    (automatic_lease_renewal self).
Definition set_max_dir_entries (max_dir_entries : Z) (self : ClientBuilder) : ClientBuilder :=
  mkClientBuilder (host self) (auth self) (timeout self) (port self) (owner_id self)
    (open_owner self) (client_owner_verifier self) (read_size self) (write_size self)
    (dir_size self) max_dir_entries (max_minor_version self) (retry_policy self)
    (automatic_lease_renewal self).
Definition set_max_minor_version (minor_version : Z) (self : ClientBuilder) : ClientBuilder :=
  mkClientBuilder (host self) (auth self) (timeout self) (port self) (owner_id self)
    (open_owner self) (client_owner_verifier self) (read_size self) (write_size self)
    (dir_size self) (max_dir_entries self) minor_version (retry_policy self)
    (automatic_lease_renewal self).
Definition set_automatic_lease_renewal (enabled : bool) (self : ClientBuilder) : ClientBuilder :=
  mkClientBuilder (host self) (auth self) (timeout self) (port self) (owner_id self)
    (open_owner self) (client_owner_verifier self) (read_size self) (write_size self)
    (dir_size self) (max_dir_entries self) (max_minor_version self) (retry_policy self) enabled.
Definition set_retry_policy (retry_policy : RetryPolicy) (self : ClientBuilder) : ClientBuilder :=
  mkClientBuilder (host self) (auth self) (timeout self) (port self) (owner_id self)
    (open_owner self) (client_owner_verifier self) (read_size self) (write_size self)
    (dir_size self) (max_dir_entries self) (max_minor_version self) retry_policy
    (automatic_lease_renewal self).

End ClientBuilder.
Import ClientBuilder (ClientBuilder).

(** ** COMPOUND calls *)

(** A connection that carries COMPOUNDs. *)
Class Nfs4Rpc (W R : Type) := {
  rpc_compound : str → Z → list Operation → M (W * R) Error CompoundResponse;
  rpc_set_max_record_size : Z → R → R * outcome Error unit;
}.

(** Use the second part of a state. *)
Definition on_snd {S T E A} (m : M T E A) : M (S * T) E A := zoom snd (λ t s, (s.1, t)) m.

Section compound.
Context {St : Type} `{!Transport St}.

(** The decoding half of [raw_compound_with_rpc]; the XDR error is part of the
    message only in its rendered form. *)
Definition decode_compound (tag : str) (payload : list byte) : outcome Error CompoundResponse :=
  let '(decoder, response) := CompoundResponse.decode (Decoder_new payload) in
  response ← outcome_map_err (λ _,
    Protocol [PLit "failed to decode NFSv4 COMPOUND response for tag "; PDebug tag; PLit " at byte ";
              PNum (dec_position decoder); PLit " of "; PNum (zlen payload)]) response;
  let '(decoder, finished) := finish decoder in
  _ ← outcome_map_err (λ _,
    Protocol [PLit "failed to finish NFSv4 COMPOUND response for tag "; PDebug tag; PLit " at byte ";
              PNum (dec_position decoder); PLit " of "; PNum (zlen payload)]) finished;
  Ok response.

Definition raw_compound_with_rpc (tag : str) (minor_version : Z) (operations : list Operation)
    : M (RpcClient St) Error CompoundResponse :=
  let expected := Operation.op_code <$> operations in
  payload ← call NFS4_PROGRAM NFS4_VERSION 1 CompoundArgs.encode
              (CompoundArgs.mkCompoundArgs tag minor_version operations);
  response ← lift (decode_compound tag payload);
  lift (validate_compound_response_shape tag expected response) ;;
  mret response.

#[export] Instance RpcClient_nfs4 {W} : Nfs4Rpc W (RpcClient St) := {
  rpc_compound tag minor_version operations := on_snd (raw_compound_with_rpc tag minor_version operations);
  rpc_set_max_record_size := Rpc.set_max_record_size;
}.

End compound.

(** ** The client *)

(** The thread of [BlockingLease], by its handle, and its session. *)
Record BlockingLease := mkBlockingLease { lease_thread : nat; lease_session_id : list byte }.

Module Client.

Record Client (R : Type) := mkClient {
  rpc : R;
  locks : LockRegistry;
  recovery_pending : bool;
  lease_renewal : option BlockingLease;
  builder : ClientBuilder;
  client_id : Z;
  session_id : list byte;
  sequence_id : Z;
  open_seqid : Z;
  open_owner : list byte;
  minor_version : Z;
  max_operations : Z;
  max_request_size : Z;
  max_response_size : Z;
  root_fsinfo : option FsInfo;
  read_size : Z;
  write_size : Z;
  dir_size : Z;
  max_dir_entries : Z;
  retry_policy : RetryPolicy;
}.
#[global] Arguments mkClient {R}.
#[global] Arguments rpc {R}.
#[global] Arguments locks {R}.
#[global] Arguments recovery_pending {R}.
#[global] Arguments lease_renewal {R}.
#[global] Arguments builder {R}.
#[global] Arguments client_id {R}.
#[global] Arguments session_id {R}.
#[global] Arguments sequence_id {R}.
#[global] Arguments open_seqid {R}.
#[global] Arguments open_owner {R}.
#[global] Arguments minor_version {R}.
#[global] Arguments max_operations {R}.
#[global] Arguments max_request_size {R}.
#[global] Arguments max_response_size {R}.
#[global] Arguments root_fsinfo {R}.
#[global] Arguments read_size {R}.
#[global] Arguments write_size {R}.
#[global] Arguments dir_size {R}.
#[global] Arguments max_dir_entries {R}.
#[global] Arguments retry_policy {R}.

Section setters.
Context {R : Type}.

Definition with_rpc (v : R) (c : Client R) : Client R :=
  mkClient v (locks c) (recovery_pending c) (lease_renewal c) (builder c) (client_id c)
    (session_id c) (sequence_id c) (open_seqid c) (open_owner c) (minor_version c)
    (max_operations c) (max_request_size c) (max_response_size c) (root_fsinfo c) (read_size c)
    (write_size c) (dir_size c) (max_dir_entries c) (retry_policy c).
Definition with_locks (v : LockRegistry) (c : Client R) : Client R :=
  mkClient (rpc c) v (recovery_pending c) (lease_renewal c) (builder c) (client_id c)
    (session_id c) (sequence_id c) (open_seqid c) (open_owner c) (minor_version c)
    (max_operations c) (max_request_size c) (max_response_size c) (root_fsinfo c) (read_size c)
    (write_size c) (dir_size c) (max_dir_entries c) (retry_policy c).
Definition with_recovery_pending (v : bool) (c : Client R) : Client R :=
  mkClient (rpc c) (locks c) v (lease_renewal c) (builder c) (client_id c)
    (session_id c) (sequence_id c) (open_seqid c) (open_owner c) (minor_version c)
    (max_operations c) (max_request_size c) (max_response_size c) (root_fsinfo c) (read_size c)
    (write_size c) (dir_size c) (max_dir_entries c) (retry_policy c).
Definition with_lease_renewal (v : option BlockingLease) (c : Client R) : Client R :=
  mkClient (rpc c) (locks c) (recovery_pending c) v (builder c) (client_id c)
    (session_id c) (sequence_id c) (open_seqid c) (open_owner c) (minor_version c)
    (max_operations c) (max_request_size c) (max_response_size c) (root_fsinfo c) (read_size c)
    (write_size c) (dir_size c) (max_dir_entries c) (retry_policy c).
Definition with_sequence_id (v : Z) (c : Client R) : Client R :=
  mkClient (rpc c) (locks c) (recovery_pending c) (lease_renewal c) (builder c) (client_id c)
    (session_id c) v (open_seqid c) (open_owner c) (minor_version c)
    (max_operations c) (max_request_size c) (max_response_size c) (root_fsinfo c) (read_size c)
    (write_size c) (dir_size c) (max_dir_entries c) (retry_policy c).
Definition with_open_seqid (v : Z) (c : Client R) : Client R :=
  mkClient (rpc c) (locks c) (recovery_pending c) (lease_renewal c) (builder c) (client_id c)
    (session_id c) (sequence_id c) v (open_owner c) (minor_version c)
    (max_operations c) (max_request_size c) (max_response_size c) (root_fsinfo c) (read_size c)
    (write_size c) (dir_size c) (max_dir_entries c) (retry_policy c).
Definition with_root_fsinfo (v : option FsInfo) (c : Client R) : Client R :=
  mkClient (rpc c) (locks c) (recovery_pending c) (lease_renewal c) (builder c) (client_id c)
    (session_id c) (sequence_id c) (open_seqid c) (open_owner c) (minor_version c)
    (max_operations c) (max_request_size c) (max_response_size c) v (read_size c)
    (write_size c) (dir_size c) (max_dir_entries c) (retry_policy c).
Definition with_sizes (read write dir : Z) (c : Client R) : Client R :=
  mkClient (rpc c) (locks c) (recovery_pending c) (lease_renewal c) (builder c) (client_id c)
    (session_id c) (sequence_id c) (open_seqid c) (open_owner c) (minor_version c)
    (max_operations c) (max_request_size c) (max_response_size c) (root_fsinfo c) read
    write dir (max_dir_entries c) (retry_policy c).

End setters.
End Client.
Import Client (Client).

(** What the clients of a process share. *)
Record Env (W : Type) := mkEnv { env_net : W; env_locks : LockStore; env_slept : list Z }.
Arguments mkEnv {W}.
Arguments env_net {W}.
Arguments env_locks {W}.
Arguments env_slept {W}.

(** Connections and lease threads. *)
Class Nfs4Net (W R : Type) := {
  (** [RpcClient::connect_with_timeout(..)?] and [rpc.set_timeout(..)?]. *)
  net_rpc_connect : ClientBuilder → M W Error R;
  (** [BlockingLease::start] with the client it renews through. *)
  lease_start : Z → Client R → M W Error nat;
  lease_failed : nat → M W Error bool;
  (** Tell the thread to stop and wait for it. *)
  lease_stop : nat → M W Error unit;
  (** [std::thread::sleep], or the timer of the asynchronous client. *)
  net_sleep : Z → M W Empty_set unit;
}.

Section session.
Context {W R : Type} `{!Nfs4Rpc W R, !Nfs4Net W R}.

(** A client and its environment. *)
Record World := mkWorld { env : Env W; client : Client R }.

Definition on_net {A} (m : M W Error A) : M (Env W) Error A :=
  zoom env_net (λ n e, mkEnv n (env_locks e) (env_slept e)) m.
Definition on_store {A} (m : M LockStore Error A) : M (Env W) Error A :=
  zoom env_locks (λ l e, mkEnv (env_net e) l (env_slept e)) m.

(** [std::thread::sleep(delay)], with a record of the delays. *)
Definition thread_sleep {E} (delay : Z) : M (Env W) E unit :=
  map_err (λ e : Empty_set, match e return E with end)
    (zoom env_net (λ n e, mkEnv n (env_locks e) (env_slept e)) (net_sleep (R := R) delay)) ;;
  modify (λ e, mkEnv (env_net e) (env_locks e) (env_slept e ++ [delay])).

Definition on_env {A} (m : M (Env W) Error A) : M World Error A :=
  zoom env (λ e w, mkWorld e (client w)) m.
Definition update (f : Client R → Client R) : M World Error unit :=
  modify (λ w, mkWorld (env w) (f (client w))).
Definition field {A} (f : Client R → A) : M World Error A := gets (λ w, f (client w)).
Definition set_net (n : W) (e : Env W) : Env W := mkEnv n (env_locks e) (env_slept e).
Definition on_rpc {A} (m : M (W * R) Error A) : M World Error A :=
  zoom (λ w, (env_net (env w), Client.rpc (client w)))
    (λ p w, mkWorld (set_net p.1 (env w)) (Client.with_rpc p.2 (client w))) m.

(** Run a method of another client in the same environment. *)
Definition with_client {A} (c : Client R) (m : M World Error A) : M (Env W) Error (Client R * (A + Error)) :=
  λ e,
  match m (mkWorld e c) with
  | (w, Ok a) => (env w, Ok (client w, inl a))
  | (w, Err err) => (env w, Ok (client w, inr err))
  | (w, Fault f) => (env w, Fault f)
  end.

(** [wrapping_add(1).max(1)]. *)
Definition next_id (id : Z) : Z := Z.max (wrapping_add_u32 id 1) 1.

(** [retry] stays below [max_retries], a [u32], so this is more than enough. *)
Definition retry_fuel : positive := Z.to_pos (2 ^ 32 + 2).

(** ** Calls without a session

    These own a connection that is not part of a client yet. *)

Definition on_conn {A} (m : M (W * R) Error A) : M (R * Env W) Error A :=
  zoom (λ s, (env_net s.2, s.1)) (λ p s, (p.2, set_net p.1 s.2)) m.

Definition raw_compound_with_delayed_retry_step (tag : str) (minor_version : Z)
    (operations : list Operation) (policy : RetryPolicy) (retry : Z)
    : M (R * Env W) Error (Z + CompoundResponse) :=
  response ← on_conn (rpc_compound tag minor_version operations);
  match response_allows_delayed_retry_without_sequence operations response,
        delay_for_retry policy retry with
  | true, Some delay =>
      on_snd (thread_sleep delay) ;;
      continue_ (retry + 1)
  | _, _ => break_ response
  end.

Definition raw_compound_with_delayed_retry (tag : str) (minor_version : Z)
    (operations : list Operation) (policy : RetryPolicy) : M (R * Env W) Error CompoundResponse :=
  loop retry_fuel (raw_compound_with_delayed_retry_step tag minor_version operations policy) 0.

Definition sequence_args (session_id : list byte) (sequence_id : Z) : Operation :=
  Operation.Sequence (SequenceArgs.mkSequenceArgs session_id sequence_id 0 0 false).

(** One turn; the loop variables are [sequence_id] and [retry]. *)
Definition reclaim_complete_step (minor_version : Z) (session_id : list byte) (policy : RetryPolicy)
    (l : Z * Z) : M (R * Env W) Error (Z * Z + (Z * CompoundResponse)) :=
  let '(sequence_id, retry) := l in
  let operations := [Operation.ReclaimComplete false] in
  response ← on_conn
    (rpc_compound (lit_bytes "reclaim-complete") minor_version
       (sequence_args session_id sequence_id :: operations));
  let sequence_id := if sequence_succeeded response then next_id sequence_id else sequence_id in
  match response_allows_delayed_retry operations response, delay_for_retry policy retry with
  | true, Some delay =>
      on_snd (thread_sleep delay) ;;
      continue_ (sequence_id, retry + 1)
  | _, _ => break_ (sequence_id, response)
  end.

(** The response, and [*sequence_id] afterwards. *)
Definition reclaim_complete_with_delayed_retry (minor_version : Z) (session_id : list byte)
    (sequence_id max_operations : Z) (policy : RetryPolicy)
    : M (R * Env W) Error (Z * CompoundResponse) :=
  lift (validate_session_compound_operation_count 1 max_operations) ;;
  loop retry_fuel (reclaim_complete_step minor_version session_id policy) (sequence_id, 0).

Definition destroy_session_with_rpc (minor_version : Z) (session_id : list byte)
    : M (W * R) Error unit :=
  response ← rpc_compound (lit_bytes "destroy-session") minor_version
               [Operation.DestroySession session_id];
  lift (CompoundResponse.ensure_ok response).

(** [return Err(cleanup_session_setup_error(..))]. *)
Definition cleanup_session_setup_error {A} (minor_version : Z) (session_id : list byte) (error : Error)
    : M (R * Env W) Error A :=
  result ← attempt (on_conn (destroy_session_with_rpc minor_version session_id));
  throw (cleanup_error error "cleanup DESTROY_SESSION after failed NFSv4 session setup" result).

(** [match m { Ok(a) => a, Err(err) => return Err(cleanup_session_setup_error(.., err)) }]. *)
Definition or_destroy_session {A} (minor_version : Z) (session_id : list byte)
    (m : M (R * Env W) Error A) : M (R * Env W) Error A :=
  result ← attempt m;
  match result with
  | inl a => mret a
  | inr err => cleanup_session_setup_error minor_version session_id err
  end.

(** ** Setting up a session *)

(** [connect_session_minor] once the connection is open. *)
Definition setup_session (builder : ClientBuilder) (minor_version : Z) (complete_reclaim : bool)
    : M (R * Env W) Error (R → Client R) :=
  on_conn (on_snd (rpc_set_max_record_size (max_record_size_for_payloads
    [ClientBuilder.read_size builder; ClientBuilder.write_size builder;
     ClientBuilder.dir_size builder]))) ;;
  let exchange := ExchangeIdArgs.mkExchangeIdArgs
    (ClientOwner.mkClientOwner (ClientBuilder.client_owner_verifier builder)
       (ClientBuilder.owner_id builder)) EXCHGID4_FLAG_USE_NON_PNFS in
  exchange_res ← raw_compound_with_delayed_retry (lit_bytes "exchange-id") minor_version
                   [Operation.ExchangeId exchange] (ClientBuilder.retry_policy builder);
  lift (CompoundResponse.ensure_ok exchange_res) ;;
  exchange ← lift (response_exchange_id exchange_res);
  let create_session := CreateSessionArgs.mkCreateSessionArgs (ExchangeIdResult.client_id exchange)
    (ExchangeIdResult.sequence_id exchange) 0 ChannelAttrs.fore_channel_default
    ChannelAttrs.back_channel_disabled 0 [] in
  session_res ← raw_compound_with_delayed_retry (lit_bytes "create-session") minor_version
                  [Operation.CreateSession create_session] (ClientBuilder.retry_policy builder);
  lift (CompoundResponse.ensure_ok session_res) ;;
  session ← lift (response_create_session session_res);
  let session_id := CreateSessionResult.session_id session in
  let fore := CreateSessionResult.fore_channel_attrs session in
  or_destroy_session minor_version session_id (lift (validate_session_channel_attrs fore)) ;;
  max_operations ← or_destroy_session minor_version session_id (lift (session_max_operations fore));
  sequence_id ←
    (if complete_reclaim then
       '(sequence_id, reclaim_res) ← or_destroy_session minor_version session_id
         (reclaim_complete_with_delayed_retry minor_version session_id 1 max_operations
            (ClientBuilder.retry_policy builder));
       or_destroy_session minor_version session_id (lift (ensure_reclaim_complete reclaim_res)) ;;
       mret sequence_id
     else mret 1);
  mret (λ rpc, Client.mkClient rpc LockRegistry.default false None builder
    (ExchangeIdResult.client_id exchange) session_id sequence_id 1
    (ClientBuilder.open_owner builder) minor_version max_operations
    (ChannelAttrs.max_request_size fore) (ChannelAttrs.max_response_size fore) None
    (ClientBuilder.read_size builder) (ClientBuilder.write_size builder)
    (ClientBuilder.dir_size builder) (ClientBuilder.max_dir_entries builder)
    (ClientBuilder.retry_policy builder)).

(** The setup of a client owns the connection; it is dropped on failure. *)
Definition own_connection (rpc : R) (setup : M (R * Env W) Error (R → Client R))
    : M (Env W) Error (Client R) := λ e,
  match setup (rpc, e) with
  | ((rpc, e), Ok make) => (e, Ok (make rpc))
  | ((_, e), Err err) => (e, Err err)
  | ((_, e), Fault f) => (e, Fault f)
  end.

Definition connect_session_minor (builder : ClientBuilder) (minor_version : Z)
    (complete_reclaim : bool) : M (Env W) Error (Client R) :=
  rpc ← on_net (net_rpc_connect builder);
  own_connection rpc (setup_session builder minor_version complete_reclaim).

Definition is_minor_version_mismatch (err : Error) : bool :=
  match err with NfsV4 _ Status.MinorVersionMismatch => true | _ => false end.

(** The loop over [negotiated_minor_versions]. *)
Fixpoint connect_minor_versions (builder : ClientBuilder) (complete_reclaim : bool)
    (last_minor_error : option Error) (versions : list Z) : M (Env W) Error (Client R) :=
  match versions with
  | [] =>
      throw (match last_minor_error with
             | Some err => err
             | None => Protocol [PLit "NFSv4 server did not accept a supported minor version"]
             end)
  | minor_version :: rest =>
      result ← attempt (connect_session_minor builder minor_version complete_reclaim);
      match result with
      | inl client => mret client
      | inr err =>
          if is_minor_version_mismatch err
          then connect_minor_versions builder complete_reclaim (Some err) rest
          else throw err
      end
  end.

Definition validate_builder (builder : ClientBuilder) : outcome Error unit :=
  _ ← validate_host (ClientBuilder.host builder);
  _ ← validate_port "port" (ClientBuilder.port builder);
  _ ← validate_owner_id (ClientBuilder.owner_id builder);
  _ ← validate_open_owner (ClientBuilder.open_owner builder);
  _ ← validate_transfer_size "read_size" (ClientBuilder.read_size builder);
  _ ← validate_transfer_size "write_size" (ClientBuilder.write_size builder);
  _ ← validate_transfer_size "dir_size" (ClientBuilder.dir_size builder);
  _ ← validate_max_dir_entries (ClientBuilder.max_dir_entries builder);
  validate_minor_version "max_minor_version" (ClientBuilder.max_minor_version builder).

Definition connect_session (builder : ClientBuilder) (complete_reclaim : bool)
    : M (Env W) Error (Client R) :=
  lift (validate_builder builder) ;;
  connect_minor_versions builder complete_reclaim None
    (negotiated_minor_versions (ClientBuilder.max_minor_version builder)).

(** ** Calls in the session *)

Definition raw_compound (tag : str) (operations : list Operation) : M World Error CompoundResponse :=
  minor_version ← field Client.minor_version;
  on_rpc (rpc_compound tag minor_version operations).

(** SEQUENCE in front of the operations. *)
Definition with_sequence (operations : list Operation) : M World Error (list Operation) :=
  session_id ← field Client.session_id;
  sequence_id ← field Client.sequence_id;
  mret (sequence_args session_id sequence_id :: operations).

(** [if sequence_succeeded(&response) { self.sequence_id = .. }]. *)
Definition advance_sequence_id (response : CompoundResponse) : M World Error unit :=
  if sequence_succeeded response
  then update (λ c, Client.with_sequence_id (next_id (Client.sequence_id c)) c)
  else mret tt.

Definition current_open_seqid : M World Error Z := field Client.open_seqid.
Definition advance_open_seqid : M World Error unit :=
  update (λ c, Client.with_open_seqid (next_id (Client.open_seqid c)) c).

Definition recovery_compound_step (operations : list Operation) (retry : Z)
    : M World Error (Z + CompoundResponse) :=
  compound ← with_sequence operations;
  response ← raw_compound (lit_bytes "nfs-rs-recovery") compound;
  advance_sequence_id response ;;
  policy ← field Client.retry_policy;
  match response_allows_delayed_retry operations response, delay_for_retry policy retry with
  | true, Some delay => on_env (thread_sleep delay) ;; continue_ (retry + 1)
  | _, _ => break_ response
  end.

Definition recovery_compound (operations : list Operation) : M World Error CompoundResponse :=
  max_operations ← field Client.max_operations;
  lift (validate_session_compound_operation_count (zlen operations) max_operations) ;;
  loop retry_fuel (recovery_compound_step operations) 0.

(** ** Lease renewal and shutdown *)

Definition lease_renewal_interval (c : Client R) : option Z :=
  fsinfo ← Client.root_fsinfo c;
  seconds ← FsInfo.lease_time_seconds fsinfo;
  if seconds >? 0 then Some (from_secs seconds / 3) else None.

Definition stop_lease_renewal : M World Error unit :=
  lease ← field Client.lease_renewal;
  match lease with
  | None => mret tt
  | Some lease =>
      update (Client.with_lease_renewal None) ;;
      on_env (on_net (lease_stop (lease_thread lease))) ;;
      response ← raw_compound (lit_bytes "destroy-lease-session")
                   [Operation.DestroySession (lease_session_id lease)];
      match CompoundResponse.status response with
      | Status.BadSession | Status.DeadSession => mret tt
      | _ => lift (CompoundResponse.ensure_ok response)
      end
  end.

Definition shutdown : M World Error unit :=
  stop_lease_renewal ;;
  session_id ← field Client.session_id;
  response ← raw_compound (lit_bytes "destroy-session") [Operation.DestroySession session_id];
  lift (CompoundResponse.ensure_ok response).

Definition destroy_client_id : M World Error unit :=
  stop_lease_renewal ;;
  session_id ← field Client.session_id;
  session_response ← raw_compound (lit_bytes "destroy-session") [Operation.DestroySession session_id];
  lift (CompoundResponse.ensure_ok session_response) ;;
  client_id ← field Client.client_id;
  client_response ← raw_compound (lit_bytes "destroy-clientid") [Operation.DestroyClientId client_id];
  lift (CompoundResponse.ensure_ok client_response).

Definition start_lease_renewal : M World Error unit :=
  builder ← field Client.builder;
  if negb (ClientBuilder.automatic_lease_renewal builder) then mret tt else
  c ← field id;
  interval ← lift (ok_or (Protocol [PLit "server did not advertise a usable NFSv4 lease time"])
                     (lease_renewal_interval c));
  let builder := ClientBuilder.set_automatic_lease_renewal false builder in
  let timeout := match ClientBuilder.timeout builder with Some t => t | None => interval end in
  let builder := ClientBuilder.set_timeout (Some (Z.min timeout interval)) builder in
  keeper ← on_env (connect_session builder false);
  if negb (Client.client_id keeper =? Client.client_id c) then
    on_env (with_client keeper shutdown) ;;
    throw (NfsV4 "EXCHANGE_ID" Status.StaleClientId)
  else
    thread ← on_env (on_net (lease_start interval keeper));
    update (Client.with_lease_renewal (Some (mkBlockingLease thread (Client.session_id keeper)))).

(** The closure the lease thread calls: one heartbeat, and whether it succeeded. *)
Definition heartbeat : M World Error bool :=
  result ← attempt (recovery_compound []);
  mret (match result with
        | inl response =>
            Status.is_ok (CompoundResponse.status response)
            && match response_revoked_lock_status response with None => true | Some _ => false end
        | inr _ => false
        end).

(** ** Limits *)

Definition apply_fsinfo_limits (fsinfo : FsInfo) : M World Error unit :=
  c ← field id;
  let read_limit := Z.min (ClientBuilder.read_size (Client.builder c))
                      (session_payload_limit (Client.max_response_size c)) in
  let write_limit := Z.min (ClientBuilder.write_size (Client.builder c))
                       (session_payload_limit (Client.max_request_size c)) in
  let dir_limit := Z.min (ClientBuilder.dir_size (Client.builder c))
                     (session_payload_limit (Client.max_response_size c)) in
  let read_size := V4Client.clamp_io_size (FsInfo.max_read fsinfo) read_limit in
  let write_size := V4Client.clamp_io_size (FsInfo.max_write fsinfo) write_limit in
  update (Client.with_sizes read_size write_size dir_limit) ;;
  on_rpc (on_snd (rpc_set_max_record_size
    (max_record_size_for_payloads [read_size; write_size; dir_limit]))).

Definition empty_attrs (attrmask : Bitmap) : Fattr := Fattr.mkFattr attrmask [].

Definition refresh_recovered_fsinfo : M World Error unit :=
  request ← lift (Bitmap.from_known_attrs [FATTR4_SUPPORTED_ATTRS]);
  response ← recovery_compound [Operation.PutRootFh; Operation.GetAttr request];
  lift (CompoundResponse.ensure_ok response) ;;
  attrs ← lift (response_getattr response);
  supported ← lift (parse_supported_attrs attrs);
  attrmask ← lift (Bitmap.from_supported_attrs supported FATTR4_FSINFO_ATTRS);
  attrs ←
    (if Bitmap.is_empty attrmask then mret (empty_attrs attrmask) else
     response ← recovery_compound [Operation.PutRootFh; Operation.GetAttr attrmask];
     lift (CompoundResponse.ensure_ok response) ;;
     lift (response_getattr response));
  fsinfo ← lift (parse_fsinfo attrs);
  apply_fsinfo_limits fsinfo ;;
  update (Client.with_root_fsinfo (Some fsinfo)).

(** ** Locks across recovery *)

(** [for status in statuses { if !status.is_ok() { return Err(..) } }]. *)
Fixpoint all_statuses_ok (statuses : list Status.Status) : outcome Error unit :=
  match statuses with
  | [] => Ok tt
  | status :: rest =>
      if Status.is_ok status then all_statuses_ok rest else Err (NfsV4 "TEST_STATEID" status)
  end.

Definition check_recovered_lock (lock : LockState) : M World Error unit :=
  response ← recovery_compound
    [Operation.TestStateIds [LockState.open_stateid lock; LockState.lock_stateid lock]];
  lift (CompoundResponse.ensure_ok response) ;;
  statuses ← lift (response_test_stateids response 2);
  lift (all_statuses_ok statuses).

(** The inner loop of [check_revoked_locks] over [ids.into_iter().zip(statuses)]. *)
Fixpoint revoke_stateids (index : nat) (lock : LockState) (ids : list (StateId * Status.Status))
    : M World Error unit :=
  match ids with
  | [] => mret tt
  | (id, status) :: rest =>
      if Status.is_ok status then revoke_stateids index lock rest else
      let lock := LockState.with_lost status lock in
      locks ← field Client.locks;
      on_env (on_store (LockRegistry.restore locks index lock)) ;;
      attempt (E := Error) (recovery_compound [Operation.FreeStateId id]) ;;
      revoke_stateids index lock rest
  end.

Fixpoint check_revoked_loop (index : nat) (snapshot : list LockState) : M World Error unit :=
  match snapshot with
  | [] => mret tt
  | lock :: rest =>
      match LockState.lost lock with
      | Some _ => check_revoked_loop (S index) rest
      | None =>
          let ids := [LockState.open_stateid lock; LockState.lock_stateid lock] in
          response ← recovery_compound [Operation.TestStateIds ids];
          lift (CompoundResponse.ensure_ok response) ;;
          statuses ← lift (response_test_stateids response 2);
          revoke_stateids index lock (zip ids statuses) ;;
          check_revoked_loop (S index) rest
      end
  end.

Definition check_revoked_locks : M World Error unit :=
  locks ← field Client.locks;
  snapshot ← on_env (on_store (LockRegistry.snapshot locks));
  check_revoked_loop O snapshot.

(** OPEN with CLAIM_PREVIOUS, of [reclaim_lock]. *)
Definition reclaim_open_args (lock : LockState) (seqid client_id : Z) : OpenArgs.OpenArgs :=
  OpenArgs.mkOpenArgs seqid
    (Z.lor (lock_share_access (LockState.lock_type lock)) OPEN4_SHARE_ACCESS_WANT_NO_DELEG)
    OPEN4_SHARE_DENY_NONE (OpenOwner.mkOpenOwner client_id (LockState.open_owner lock))
    OpenHow.NoCreate (OpenClaim.Previous OpenDelegationType.None_).

(** LOCK with [reclaim], of [reclaim_lock]. *)
Definition reclaim_lock_args (lock : LockState) (open_stateid : StateId) (seqid client_id : Z)
    : LockArgs.LockArgs :=
  LockArgs.mkLockArgs (LockState.lock_type lock) true (LockState.offset lock) (LockState.length lock)
    (Locker.New seqid open_stateid 1 (LockOwner.mkLockOwner client_id (LockState.owner lock))).

(** [LockState { client_id, open_stateid, lock_stateid, lock_seqid: 2, ..lock.clone() }]. *)
Definition reclaimed (lock : LockState) (client_id : Z) (open_stateid lock_stateid : StateId)
    : LockState :=
  LockState.mkLockState client_id (LockState.open_owner lock) (LockState.handle lock) open_stateid
    lock_stateid 2 (LockState.lock_type lock) (LockState.offset lock) (LockState.length lock)
    (LockState.owner lock) (LockState.lost lock).

Definition advance_if_consumed (response : CompoundResponse) (op : OpCode.OpCode) : M World Error unit :=
  if response_consumed_owner_seqid response op then advance_open_seqid else mret tt.

Definition reclaim_lock (lock : LockState) : M World Error LockState :=
  let handle := LockState.handle lock in
  seqid ← current_open_seqid;
  client_id ← field Client.client_id;
  response ← recovery_compound
    [Operation.PutFh handle; Operation.Open (reclaim_open_args lock seqid client_id)];
  advance_if_consumed response OpCode.Open ;;
  lift (CompoundResponse.ensure_ok response) ;;
  open ← lift (response_open response);
  minor_version ← field Client.minor_version;
  delegation ← lift (validate_open_result open minor_version);
  (match delegation with
   | Some stateid =>
       response ← recovery_compound [Operation.PutFh handle; Operation.DelegReturn stateid];
       lift (CompoundResponse.ensure_ok response)
   | None => mret tt
   end) ;;
  seqid ← current_open_seqid;
  response ← recovery_compound
    [Operation.PutFh handle;
     Operation.Lock (reclaim_lock_args lock (OpenResult.stateid open) seqid client_id)];
  advance_if_consumed response OpCode.Lock ;;
  match _ ← CompoundResponse.ensure_ok response; response_lock response with
  | Ok lock_stateid => mret (reclaimed lock client_id (OpenResult.stateid open) lock_stateid)
  | Err err =>
      seqid ← current_open_seqid;
      attempt (E := Error) (recovery_compound
        [Operation.PutFh handle; Operation.Close seqid (OpenResult.stateid open)]) ;;
      advance_open_seqid ;;
      throw err
  | Fault f => lift (Fault f)
  end.

(** The statuses that mean a lock is gone. *)
Definition lock_is_lost (status : Status.Status) : bool :=
  Status.indicates_lost_state status
  || match status with
     | Status.Stale | Status.FhExpired | Status.BadHandle | Status.NoEnt => true
     | _ => false
     end.

(** The loop of [recover_session] over the locks, run on the rebuilt client. *)
Fixpoint recover_locks (index : nat) (states : list LockState) : M World Error unit :=
  match states with
  | [] => mret tt
  | state :: rest =>
      match LockState.lost state with
      | Some _ => recover_locks (S index) rest
      | None =>
          client_id ← field Client.client_id;
          recovered ← attempt (if LockState.client_id state =? client_id
                               then check_recovered_lock state ;; mret state
                               else reclaim_lock state);
          state ←
            match recovered with
            | inl new_state => mret new_state
            | inr (NfsV4 operation status) =>
                if lock_is_lost status then mret (LockState.with_lost status state)
                else throw (NfsV4 operation status)
            | inr err => throw err
            end;
          locks ← field Client.locks;
          on_env (on_store (LockRegistry.restore locks index state)) ;;
          recover_locks (S index) rest
      end
  end.

(** What [recover_session] does with the rebuilt client once it shares the locks. *)
Definition recover_state (old : Client R) : M World Error unit :=
  client_id ← field Client.client_id;
  (if client_id =? Client.client_id old
   then update (Client.with_open_seqid (Client.open_seqid old)) else mret tt) ;;
  states ← on_env (on_store (LockRegistry.snapshot (Client.locks old)));
  recover_locks O states ;;
  response ← recovery_compound [Operation.ReclaimComplete false];
  lift (ensure_reclaim_complete response) ;;
  (match Client.root_fsinfo old with
   | Some _ => refresh_recovered_fsinfo
   | None => mret tt
   end) ;;
  start_lease_renewal.

(** What [recover_session] does with the rebuilt client before it takes over. *)
Definition recover_rebuilt (old : Client R) : M World Error unit :=
  update (Client.with_locks (Client.locks old)) ;;
  recover_state old.

(** The loop that connects again, with [retry]. *)
Definition reconnect_step (builder : ClientBuilder) (policy : RetryPolicy) (retry : Z)
    : M (Env W) Error (Z + Client R) :=
  result ← attempt (connect_session builder false);
  match result with
  | inl client => break_ client
  | inr err =>
      if is_transport_failure err then
        match delay_for_retry policy retry with
        | None => throw err
        | Some delay => thread_sleep delay ;; continue_ (retry + 1)
        end
      else throw err
  end.

Definition recover_session : M World Error unit :=
  update (Client.with_recovery_pending true) ;;
  attempt (E := Error) stop_lease_renewal ;;
  old ← field id;
  rebuilt ← on_env (loop retry_fuel
    (reconnect_step (Client.builder old) (Client.retry_policy old)) 0);
  '(rebuilt, recovered) ← on_env (with_client rebuilt (recover_rebuilt old));
  match recovered with
  | inr err => throw err
  | inl _ =>
      update (λ _, rebuilt) ;;
      on_env (with_client old shutdown) ;;
      locks ← field Client.locks;
      on_env (on_store (LockRegistry.ensure_valid locks))
  end.

Definition reconnect : M World Error unit := recover_session.

(** ** Sending a COMPOUND *)

Definition ensure_locks_valid (operations : list Operation) : M World Error unit :=
  if operations_release_state operations then mret tt else
  locks ← field Client.locks;
  on_env (on_store (LockRegistry.ensure_valid locks)).

(** One turn of the loop; the loop variables are [retry] and [recovered_session]. *)
Definition compound_status_step (operations : list Operation) (l : Z * bool)
    : M World Error (Z * bool + CompoundResponse) :=
  let '(retry, recovered_session) := l in
  let can_replay := operations_can_replay_after_session_recovery operations in
  compound ← with_sequence operations;
  result ← attempt (raw_compound (lit_bytes "nfs-rs-v4") compound);
  match result with
  | inr err =>
      if is_transport_failure err && negb recovered_session then
        update (Client.with_recovery_pending true) ;;
        recovery ← attempt recover_session;
        match recovery with
        | inr recovery => throw (cleanup_error err "NFSv4 session recovery" (inr recovery))
        | inl _ => if can_replay then continue_ (retry, true) else throw err
        end
      else throw err
  | inl response =>
      advance_sequence_id response ;;
      (match response_revoked_lock_status response with
       | Some _ => check_revoked_locks ;; ensure_locks_valid operations
       | None => mret tt
       end) ;;
      if response_requires_session_recovery response && negb recovered_session then
        let err := session_recovery_error response in
        recover_session ;;
        if can_replay then continue_ (retry, true) else throw err
      else
        policy ← field Client.retry_policy;
        match response_allows_delayed_retry operations response, delay_for_retry policy retry with
        | true, Some delay => on_env (thread_sleep delay) ;; continue_ (retry + 1, recovered_session)
        | _, _ => break_ response
        end
  end.

(** [if lease.failed() { self.recovery_pending = true }]. *)
Definition check_lease : M World Error unit :=
  lease ← field Client.lease_renewal;
  match lease with
  | None => mret tt
  | Some lease =>
      failed ← on_env (on_net (lease_failed (lease_thread lease)));
      if (failed : bool) then update (Client.with_recovery_pending true) else mret tt
  end.

Definition compound_status (operations : list Operation) : M World Error CompoundResponse :=
  max_operations ← field Client.max_operations;
  lift (validate_session_compound_operation_count (zlen operations) max_operations) ;;
  check_lease ;;
  pending ← field Client.recovery_pending;
  (if (pending : bool) then
     recover_session ;;
     if operations_can_replay_after_session_recovery operations then mret tt
     else throw (NfsV4 "SEQUENCE" Status.BadSession)
   else mret tt) ;;
  ensure_locks_valid operations ;;
  loop retry_fuel (compound_status_step operations) (0, false).

Definition compound (operations : list Operation) : M World Error CompoundResponse :=
  response ← compound_status operations;
  lift (CompoundResponse.ensure_ok response) ;;
  mret response.

Definition renew : M World Error unit := _ ← compound []; mret tt.

(** ** Attributes, and connecting *)

Definition supported_attrs (path : str) : M World Error Bitmap :=
  attrs ← lift (Bitmap.from_known_attrs [FATTR4_SUPPORTED_ATTRS]);
  operations ← lift (path_ops path [Operation.GetAttr attrs]);
  response ← compound operations;
  attrs ← lift (response_getattr response);
  lift (parse_supported_attrs attrs).

Definition supported_attr_request (path : str) (attrs : list Z) : M World Error Bitmap :=
  supported ← supported_attrs path;
  lift (Bitmap.from_supported_attrs supported attrs).

Definition get_supported_attr_values (path : str) (attrs : list Z) : M World Error Fattr :=
  attrs ← supported_attr_request path attrs;
  if Bitmap.is_empty attrs then mret (empty_attrs attrs) else
  operations ← lift (path_ops path [Operation.GetAttr attrs]);
  response ← compound operations;
  lift (response_getattr response).

Definition fsinfo (path : str) : M World Error FsInfo :=
  attrs ← get_supported_attr_values path FATTR4_FSINFO_ATTRS;
  lift (parse_fsinfo attrs).

Definition refresh_root_fsinfo : M World Error unit :=
  fsinfo ← fsinfo [slash];
  apply_fsinfo_limits fsinfo ;;
  update (Client.with_root_fsinfo (Some fsinfo)).

(** [if let Err(err) = m { return Err(cleanup_error(err, context, client.shutdown())) }]. *)
Definition or_shutdown (context : string) (m : M World Error unit) : M World Error unit :=
  result ← attempt m;
  match result with
  | inl _ => mret tt
  | inr err =>
      cleanup ← attempt shutdown;
      throw (cleanup_error err context cleanup)
  end.

Definition prepare : M World Error unit :=
  or_shutdown "cleanup DESTROY_SESSION after failed NFSv4 connect" refresh_root_fsinfo ;;
  or_shutdown "cleanup session after lease renewal setup" start_lease_renewal.

Definition connect_with_builder (builder : ClientBuilder) : M (Env W) Error (Client R) :=
  c ← connect_session builder true;
  '(c, result) ← with_client c prepare;
  match result with
  | inl _ => mret c
  | inr err => throw err
  end.

End session.
Arguments World : clear implicits.
