(* ===== verification/V4SessionSpec.v ===== *)
(** * The NFSv4 session client against every server (laws of [V4Session])

    Proved from what the connection promises ([Nfs4Laws]) alone, so for every
    behaviour of the server and of the network: no method faults, every loop
    ends, the client stays well-formed ([client_inv]), and the network moves
    along a relation [N] chosen by the user of these lemmas, which is how the
    trace properties of [V4Trace] are obtained. *)

From Stdlib Require Import Strings.String Strings.Byte.
From S2P Require Import Prelude Text Xdr XdrSpec Status Errors Rpc RpcSpec V3Client V3ClientSpec V3BlockingSpec.
From S2P Require Import Tame V4Attr V4AttrSpec V4Ops V4Results V4ResultsSpec V4Client V4ClientSpec V4Extract V4Session.
Import LockState (LockState).
Import LockRegistry (LockRegistry).
Import Operation (Operation).
Import OperationResult (OperationResult).
Import CompoundResponse (CompoundResponse).
Import ClientBuilder (ClientBuilder).
Import Client (Client).

#[local] Open Scope Z_scope.

(** ** Pure parts never fault *)

Section pure.

Lemma ensure_ok_safe r : fault_free (CompoundResponse.ensure_ok r).
Proof. unfold CompoundResponse.ensure_ok. by repeat case_match. Qed.

Lemma ensure_reclaim_complete_safe r : fault_free (ensure_reclaim_complete r).
Proof. unfold ensure_reclaim_complete. case_match; [done|apply ensure_ok_safe]. Qed.

Lemma operation_count_safe n m : fault_free (validate_session_compound_operation_count n m).
Proof.
  unfold validate_session_compound_operation_count. apply fault_free_bind.
  - unfold ok_or. by case_match.
  - intros t _. by case_match.
Qed.

Lemma response_exchange_id_safe r : fault_free (response_exchange_id r).
Proof. unfold response_exchange_id. by repeat case_match. Qed.
Lemma response_create_session_safe r : fault_free (response_create_session r).
Proof. unfold response_create_session. by repeat case_match. Qed.

Lemma find_result_safe {A} name (f : OperationResult → option (outcome Error A)) r :
  (∀ x o, f x = Some o → fault_free o) → fault_free (find_result name f r).
Proof.
  intros Hf. unfold find_result. destruct (find_map f _) as [o|] eqn:E; [|done].
  induction (CompoundResponse.results r) as [|x l IH]; [done|]. simpl in E.
  destruct (f x) as [o'|] eqn:Ex; [|by apply IH]. injection E as <-. by eapply Hf.
Qed.

Lemma ok_value_safe {A} name st (v : option A) : fault_free (ok_value name st v).
Proof. unfold ok_value. by repeat case_match. Qed.

Lemma response_open_safe r : fault_free (response_open r).
Proof. apply find_result_safe. intros [] o; try done. intros [= <-]. apply ok_value_safe. Qed.
Lemma response_getattr_safe r : fault_free (response_getattr r).
Proof. apply find_result_safe. intros [] o; try done. intros [= <-]. apply ok_value_safe. Qed.
Lemma response_lock_safe r : fault_free (response_lock r).
Proof. apply find_result_safe. intros [] o; try done; intros [= <-]; unfold ok_value_or; by repeat case_match. Qed.
Lemma response_test_stateids_safe r n : fault_free (response_test_stateids r n).
Proof. apply find_result_safe. intros [] o; try done; intros [= <-]; unfold ok_value_or; by repeat case_match. Qed.
Lemma validate_open_result_safe o v : fault_free (validate_open_result o v).
Proof. unfold validate_open_result. by case_match. Qed.
Lemma all_statuses_ok_safe l : fault_free (all_statuses_ok l).
Proof. induction l as [|s l IH]; [done|]. simpl. by case_match. Qed.
Lemma channel_attrs_safe a : fault_free (validate_session_channel_attrs a).
Proof.
  unfold validate_session_channel_attrs, validate_session_channel_size.
  repeat (apply fault_free_bind; [by case_match|]; intros _ _). by case_match.
Qed.
Lemma session_max_operations_safe a : fault_free (session_max_operations a).
Proof. unfold session_max_operations. by case_match. Qed.
Lemma ok_or_safe {A} e (o : option A) : fault_free (ok_or e o).
Proof. by destruct o. Qed.

Lemma validate_builder_safe b : fault_free (validate_builder b).
Proof.
  unfold validate_builder, validate_host, validate_port, validate_owner_id, validate_open_owner,
    validate_opaque_id, validate_transfer_size, validate_max_dir_entries, validate_minor_version.
  repeat (apply fault_free_bind; [by case_match|]; intros _ _). by case_match.
Qed.

#[export] Instance no_fault_read_bytes n : NoFault (read_bytes n).
Proof. intros d. unfold read_bytes. by repeat case_match. Qed.
#[export] Instance no_fault_read_u32 : NoFault read_u32.
Proof. unfold read_u32, read_byte_array. apply _. Qed.
#[export] Instance no_fault_read_u64 : NoFault read_u64.
Proof. unfold read_u64, read_byte_array. apply _. Qed.
#[export] Instance no_fault_read_i64 : NoFault read_i64.
Proof. unfold read_i64, read_byte_array. apply _. Qed.
#[export] Instance no_fault_read_bool : NoFault read_bool.
Proof. unfold read_bool. apply no_fault_bind; [apply _|]. intros v. by repeat case_match; intros s. Qed.
#[export] Instance no_fault_read_each {A} (dec : M Decoder XdrError A) n : NoFault dec → NoFault (read_each dec n).
Proof. intros H. induction n; cbn [read_each]; apply _. Qed.
#[export] Instance no_fault_read_array {A} (dec : M Decoder XdrError A) n : NoFault dec → NoFault (read_array dec n).
Proof. intros H. unfold read_array, read_len. apply _. Qed.
#[export] Instance no_fault_Bitmap : NoFault Bitmap.decode.
Proof. unfold Bitmap.decode. apply _. Qed.
#[export] Instance no_fault_NfsTime : NoFault NfsTime.decode.
Proof.
  unfold NfsTime.decode. apply no_fault_bind; [apply _|]. intros s. apply no_fault_bind; [apply _|].
  intros n. apply no_fault_bind; [|apply _]. intros d. unfold lift, NfsTime.validate, validate_nseconds.
  by case_match.
Qed.
#[export] Instance no_fault_finish : NoFault finish.
Proof. intros d. unfold finish. by case_match. Qed.
#[export] Instance no_fault_store {A P} (dec : M Decoder XdrError A) (g : A → P) : NoFault dec → NoFault (store dec g).
Proof. unfold store. apply _. Qed.

Lemma parse_attrs_safe {P} (parse : Z → P → M Decoder Error P) u f :
  (∀ a p, NoFault (parse a p)) → fault_free (parse_attrs parse u f).
Proof.
  intros Hp. unfold parse_attrs.
  assert (∀ l p, NoFault (parse_each parse l p)) as He by (induction l; intros p; cbn [parse_each]; apply _).
  apply (_ : NoFault (parsed ← parse_each parse (Bitmap.attrs (Fattr.attrmask f)) u; xdr finish ;; mret parsed)).
Qed.

Lemma parse_supported_attrs_safe f : fault_free (parse_supported_attrs f).
Proof.
  unfold parse_supported_attrs. apply fault_free_bind.
  - apply parse_attrs_safe. intros a p. unfold supported_attrs_attr. apply _.
  - intros o _. by destruct o.
Qed.
Lemma parse_fsinfo_safe f : fault_free (parse_fsinfo f).
Proof. apply parse_attrs_safe. intros a p. unfold fsinfo_attr. apply _. Qed.

Lemma from_known_attrs_safe {E} l :
  Forall (λ a, 0 ≤ a) l → Forall attr_in_range l → fault_free (Bitmap.from_known_attrs (E := E) l).
Proof. intros H1 H2. by destruct (from_known_attrs_spec (E := E) l H1 H2) as (b & -> & _). Qed.
Lemma from_supported_attrs_safe supported l :
  Forall (λ a, 0 ≤ a) l → Forall attr_in_range l → fault_free (Bitmap.from_supported_attrs supported l).
Proof. intros H1 H2. by destruct (from_supported_attrs_spec supported l H1 H2) as (b & -> & _). Qed.
Lemma fsinfo_attrs_known : Forall (λ a, 0 ≤ a) FATTR4_FSINFO_ATTRS ∧ Forall attr_in_range FATTR4_FSINFO_ATTRS.
Proof. split; repeat constructor; by vm_compute. Qed.
Lemma known_supported : fault_free (E := Error) (Bitmap.from_known_attrs [FATTR4_SUPPORTED_ATTRS]).
Proof. apply from_known_attrs_safe; repeat constructor; by vm_compute. Qed.
Lemma supported_fsinfo s : fault_free (Bitmap.from_supported_attrs s FATTR4_FSINFO_ATTRS).
Proof. apply from_supported_attrs_safe; apply fsinfo_attrs_known. Qed.

Lemma path_components_safe path : fault_free (path_components path).
Proof.
  unfold path_components. case_match; [done|]. generalize (split_on slash path) as l.
  induction l as [|c l IH]; [done|]. cbn [components_loop]. repeat case_match; try done.
  by apply fault_free_bind.
Qed.

End pure.
#[export] Hint Resolve ensure_ok_safe ensure_reclaim_complete_safe operation_count_safe
  response_exchange_id_safe response_create_session_safe response_open_safe response_getattr_safe
  response_lock_safe response_test_stateids_safe validate_open_result_safe all_statuses_ok_safe
  channel_attrs_safe session_max_operations_safe ok_or_safe validate_builder_safe
  parse_supported_attrs_safe parse_fsinfo_safe known_supported supported_fsinfo : fault_free.

(** ** What the client relies on *)

(** The server's numbers are unsigned: those the client computes with. *)
Definition sane_result (r : OperationResult) : Prop :=
  match r with
  | OperationResult.CreateSession _ (Some s) =>
      0 ≤ ChannelAttrs.max_operations (CreateSessionResult.fore_channel_attrs s)
  | OperationResult.Write _ (Some w) => 0 ≤ WriteResult.count w
  | _ => True
  end.
Definition response_sane (response : CompoundResponse) : Prop :=
  Forall sane_result (CompoundResponse.results response).

(** Operations on connections and lease threads return, and a response answers
    the request it belongs to. *)
Class Nfs4Laws (W R : Type) `{!Nfs4Rpc W R, !Nfs4Net W R} := {
  conn_ok : R → Prop;
  law_compound tag minor_version operations n r :
    conn_ok r →
    post (rpc_compound tag minor_version operations) (n, r)
      (λ response s, conn_ok s.2 ∧ well_shaped tag (Operation.op_code <$> operations) response
         ∧ response_sane response)
      (λ _ s, conn_ok s.2);
  law_set_max size r :
    0 < size ≤ isize_max → conn_ok r →
    post (rpc_set_max_record_size (W := W) size) r (λ _ r', conn_ok r') (λ _ r', conn_ok r');
  law_connect builder n : post (net_rpc_connect builder) n (λ r _, conn_ok r) (λ _ _, True);
  law_lease_start interval c n : fault_free (lease_start interval c n).2;
  law_lease_failed thread n : fault_free (lease_failed thread n).2;
  law_lease_stop thread n : fault_free (lease_stop thread n).2;
  law_sleep delay n : net_sleep delay n = (n, Ok tt);
}.

(** The tag of an application's COMPOUNDs. *)
Definition main_tag : str := lit_bytes "nfs-rs-v4".

(** A response to the operations of an application, behind a SEQUENCE. *)
Definition answers (operations : list Operation) (response : CompoundResponse) : Prop :=
  well_shaped main_tag (OpCode.Sequence :: (Operation.op_code <$> operations)) response
  ∧ response_sane response.

(** The network moves along [N], except in COMPOUNDs with [main_tag]. *)
Class Moves {W R : Type} `{!Nfs4Rpc W R, !Nfs4Net W R} (N : W → W → Prop) := {
  moves_preorder :: PreOrder N;
  moves_compound tag minor_version operations n r :
    tag ≠ main_tag → N n (rpc_compound tag minor_version operations (n, r)).1.1;
  moves_connect builder n : N n (net_rpc_connect builder n).1;
  moves_lease_start interval c n : N n (lease_start interval c n).1;
  moves_lease_failed thread n : N n (lease_failed thread n).1;
  moves_lease_stop thread n : N n (lease_stop thread n).1;
}.

(** No statement about the network. *)
Lemma moves_anywhere {W R : Type} `{!Nfs4Rpc W R, !Nfs4Net W R} : Moves (W := W) (R := R) (λ _ _, True).
Proof. by split; [split|..]. Qed.

(** ** Well-formed clients *)

Definition size_ok (n : Z) : Prop := 1 ≤ n ≤ NFS4_MAX_IO.

Record builder_inv (b : ClientBuilder) : Prop := {
  builder_read_ok : size_ok (ClientBuilder.read_size b);
  builder_write_ok : size_ok (ClientBuilder.write_size b);
  builder_dir_ok : size_ok (ClientBuilder.dir_size b);
  builder_policy_ok : policy_ok (ClientBuilder.retry_policy b);
}.

(** The widths of the fields, before they are validated. *)
Record builder_typed (b : ClientBuilder) : Prop := {
  typed_read : 0 ≤ ClientBuilder.read_size b;
  typed_write : 0 ≤ ClientBuilder.write_size b;
  typed_dir : 0 ≤ ClientBuilder.dir_size b;
  typed_policy : policy_ok (ClientBuilder.retry_policy b);
}.

Lemma builder_inv_typed b : builder_inv b → builder_typed b.
Proof. intros [[] [] [] ?]. split; lia || done. Qed.

Lemma transfer_size_Ok name n : 0 ≤ n → validate_transfer_size name n = Ok tt → size_ok n.
Proof.
  unfold validate_transfer_size, size_ok. intros Hn. rewrite Z.gtb_ltb.
  destruct (Z.eqb_spec n 0), (Z.ltb_spec NFS4_MAX_IO n); try done. cbn. lia.
Qed.

Lemma outcome_bind_Ok {E A B} (o : outcome E A) (k : A → outcome E B) b :
  (o ≫= k) = Ok b → ∃ a, o = Ok a ∧ k a = Ok b.
Proof. destruct o; naive_solver. Qed.

(** What [connect_session] checks before it opens a connection. *)
Lemma validate_builder_Ok b :
  validate_builder b = Ok tt → builder_typed b →
  builder_inv b
  ∧ NFS4_MINOR_VERSION_SESSION_MIN ≤ ClientBuilder.max_minor_version b ≤ NFS4_MINOR_VERSION_LATEST.
Proof.
  unfold validate_builder. intros H [].
  do 4 (apply outcome_bind_Ok in H as (? & _ & H)).
  apply outcome_bind_Ok in H as ([] & Hr & H). apply outcome_bind_Ok in H as ([] & Hw & H).
  apply outcome_bind_Ok in H as ([] & Hd & H). apply outcome_bind_Ok in H as (? & _ & H).
  split; [split; [by eapply transfer_size_Ok..|done]|].
  unfold validate_minor_version in H.
  destruct (Z.leb_spec NFS4_MINOR_VERSION_SESSION_MIN (ClientBuilder.max_minor_version b)); [|done].
  destruct (Z.leb_spec (ClientBuilder.max_minor_version b) NFS4_MINOR_VERSION_LATEST); [|done]. lia.
Qed.

Lemma negotiated_range max v :
  v ∈ negotiated_minor_versions max → NFS4_MINOR_VERSION_SESSION_MIN ≤ v ≤ max.
Proof. unfold negotiated_minor_versions. rewrite elem_of_reverse. intros ?%elem_of_seqZ. lia. Qed.

Lemma record_size_ok a b c :
  size_ok a → size_ok b → size_ok c → 0 < max_record_size_for_payloads [a; b; c] ≤ isize_max.
Proof.
  unfold size_ok, max_record_size_for_payloads, saturating_add, NFS4_MAX_IO, MAX_RECORD_HEADROOM,
    DEFAULT_MAX_RECORD_SIZE, usize_max, u64_max, isize_max. simpl. lia.
Qed.

Section any_server.
Context {W R : Type} `{!Nfs4Rpc W R, !Nfs4Net W R, !Nfs4Laws W R}.
Context (N : W → W → Prop) `{!Moves N}.

Record client_inv (c : Client R) : Prop := {
  inv_conn : conn_ok (Client.rpc c);
  inv_builder : builder_inv (Client.builder c);
  inv_policy : Client.retry_policy c = ClientBuilder.retry_policy (Client.builder c);
  inv_minor : NFS4_MINOR_VERSION_SESSION_MIN ≤ Client.minor_version c ≤ NFS4_MINOR_VERSION_LATEST;
  inv_max_operations : 1 ≤ Client.max_operations c ≤ NFS4_MAX_OPS;
  inv_request_size : NFS4_COMPOUND_IO_HEADROOM < Client.max_request_size c;
  inv_response_size : NFS4_COMPOUND_IO_HEADROOM < Client.max_response_size c;
  inv_read_size : size_ok (Client.read_size c);
  inv_write_size : size_ok (Client.write_size c);
  inv_dir_size : size_ok (Client.dir_size c);
  inv_dir_entries : Client.max_dir_entries c = ClientBuilder.max_dir_entries (Client.builder c);
}.

(** The environment: the network moves along [N], the store of locks only grows. *)
Definition env_step (e e' : Env W) : Prop :=
  N (env_net e) (env_net e') ∧ (length (env_locks e) ≤ length (env_locks e'))%nat.

#[export] Instance env_step_preorder : PreOrder env_step.
Proof.
  split; [intros e; split; [reflexivity|lia]|].
  intros e1 e2 e3 [??] [??]. split; [by etrans|lia].
Qed.

(** The environment has no invariant of its own. *)
Definition env_inv (e : Env W) : Prop := True.

Definition world_inv (w : World W R) : Prop :=
  client_inv (client w) ∧ registry_ok (Client.locks (client w)) (env_locks (env w)).

(** A client keeps its registry and its settings, and does not ask for recovery. *)
Definition world_step (w w' : World W R) : Prop :=
  env_step (env w) (env w') ∧ Client.locks (client w') = Client.locks (client w)
  ∧ Client.builder (client w') = Client.builder (client w)
  ∧ Client.recovery_pending (client w') = Client.recovery_pending (client w).

#[export] Instance world_step_preorder : PreOrder world_step.
Proof.
  split; [intros w; split_and!; [reflexivity|done..]|].
  intros w1 w2 w3 (? & ? & ? & ?) (? & ? & ? & ?). split_and!; [by etrans|congruence..].
Qed.

Abbreviation tame_env := (Tame env_inv env_step).
Abbreviation tame_world := (Tame world_inv world_step).

(** ** The environment *)

#[export] Instance tame_on_net {A} (m : M W Error A) :
  (∀ n, fault_free (m n).2 ∧ N n (m n).1) → tame_env (on_net m).
Proof.
  intros Hm e _. destruct (Hm (env_net e)) as [Hf HN]. unfold post, on_net, zoom.
  destruct (m (env_net e)) as [n [a|err|f]]; [| |by destruct (Hf f)]; by split_and!.
Qed.

Lemma tame_on_store {A} (m : M LockStore Error A) e :
  fault_free (m (env_locks e)).2 → (length (env_locks e) ≤ length (m (env_locks e)).1)%nat →
  post (on_store (W := W) m) e (λ _ e', env_step e e') (λ _ e', env_step e e').
Proof.
  intros Hf Hl. unfold post, on_store, zoom.
  destruct (m (env_locks e)) as [s [a|err|f]]; [| |by destruct (Hf f)]; split; try done; reflexivity.
Qed.

Lemma thread_sleep_run {E} d (e : Env W) :
  thread_sleep (E := E) d e = (mkEnv (env_net e) (env_locks e) (env_slept e ++ [d]), Ok tt).
Proof. unfold thread_sleep, mbind, M_bind, map_err, zoom. by rewrite law_sleep. Qed.

#[export] Instance tame_sleep {E} d : Tame (E := E) env_inv env_step (thread_sleep d).
Proof. intros e _. unfold post. rewrite thread_sleep_run. by split_and!. Qed.

(** Methods of a world that only touch its environment. *)
Lemma tames_on_env {A} (m : M (Env W) Error A) Q :
  tames env_inv env_step m Q → tames world_inv world_step (on_env m) Q.
Proof.
  intros Hm [e c] [Hc Hr]. specialize (Hm e I). unfold post, on_env, zoom in *. simpl in *.
  destruct (m e) as [e' [a|err|f]]; [| |done]; [destruct Hm as (HQ & _ & HN)|destruct Hm as (_ & HN)];
    assert (registry_ok (Client.locks c) (env_locks e')) by (eapply registry_ok_grow; [apply HN|done]);
    (assert (world_inv (mkWorld e' c)) by (by split));
    (assert (world_step (mkWorld e c) (mkWorld e' c)) by (by split_and!)); by split_and!.
Qed.

#[export] Instance tame_on_env {A} (m : M (Env W) Error A) : tame_env m → tame_world (on_env m).
Proof. apply tames_on_env. Qed.

#[export] Instance tame_field {A} (g : Client R → A) : tame_world (field g).
Proof. apply tame_gets, _. Qed.

(** Setting a field that the invariant does not mention. *)
Lemma tame_update (g : Client R → Client R) :
  (∀ c, client_inv c → client_inv (g c)) → (∀ c, Client.locks (g c) = Client.locks c) →
  (∀ c, Client.builder (g c) = Client.builder c) →
  (∀ c, Client.recovery_pending (g c) = Client.recovery_pending c) → tame_world (update g).
Proof.
  intros Hinv Hl Hb Hp [e c] [Hc Hr]. split_and!; [done| |].
  - split; simpl; [by apply Hinv|by rewrite Hl].
  - split_and!; simpl; [reflexivity|apply Hl|apply Hb|apply Hp].
Qed.

Ltac update_solve := apply tame_update; [by intros [] []|done|done|done].
#[export] Instance tame_with_lease l : tame_world (update (Client.with_lease_renewal l)).
Proof. update_solve. Qed.
#[export] Instance tame_with_root_fsinfo f : tame_world (update (Client.with_root_fsinfo f)).
Proof. update_solve. Qed.
#[export] Instance tame_with_open_seqid v : tame_world (update (Client.with_open_seqid v)).
Proof. update_solve. Qed.
#[export] Instance tame_advance_sequence r : tame_world (advance_sequence_id r).
Proof. unfold advance_sequence_id. case_match; [|apply _]. update_solve. Qed.
#[export] Instance tame_advance_open : tame_world advance_open_seqid.
Proof. update_solve. Qed.
#[export] Instance tame_advance_if_consumed r op : tame_world (advance_if_consumed r op).
Proof. unfold advance_if_consumed. case_match; apply _. Qed.

(** ** COMPOUNDs *)

Lemma tames_on_rpc_compound tag minor_version operations :
  tag ≠ main_tag →
  tames world_inv world_step (on_rpc (rpc_compound tag minor_version operations))
    (λ r, well_shaped tag (Operation.op_code <$> operations) r ∧ response_sane r).
Proof.
  intros Htag [e c] [Hc Hr].
  pose proof (law_compound tag minor_version operations (env_net e) (Client.rpc c) (inv_conn _ Hc)) as Hl.
  pose proof (moves_compound tag minor_version operations (env_net e) (Client.rpc c) Htag) as Hm.
  unfold post, on_rpc, zoom in *. simpl in *.
  destruct (rpc_compound _ _ _ _) as [[n r] [a|err|f]]; [| |done]; simpl in *.
  - destruct Hl as (Hk & Hs & Hsane).
    split_and!; [done|done|split; [destruct c, Hc; by split|done]|split_and!; [split; [done|simpl; lia]|done|done|done]].
  - split_and!; [split; [destruct c, Hc; by split|done]|split_and!; [split; [done|simpl; lia]|done|done|done]].
Qed.

Lemma tames_raw_compound tag operations :
  tag ≠ main_tag →
  tames world_inv world_step (raw_compound tag operations)
    (λ r, well_shaped tag (Operation.op_code <$> operations) r ∧ response_sane r).
Proof.
  intros Htag. eapply tames_bind; [apply _|apply tame_field|]. intros v _. by apply tames_on_rpc_compound.
Qed.

Lemma tame_raw_compound tag operations : tag ≠ main_tag → tame_world (raw_compound tag operations).
Proof. intros Htag. eapply tames_mono; [by apply tames_raw_compound|done]. Qed.

Lemma tame_set_max size :
  0 < size ≤ isize_max → tame_world (on_rpc (on_snd (rpc_set_max_record_size size))).
Proof.
  intros Hs [e c] [Hc Hr]. pose proof (law_set_max size (Client.rpc c) Hs (inv_conn _ Hc)) as Hl.
  unfold post, on_rpc, on_snd, zoom in *. simpl in *.
  destruct (rpc_set_max_record_size _ _) as [r [a|err|f]]; [| |done]; simpl in *;
    (assert (client_inv (Client.with_rpc r c)) by (destruct c, Hc; by split));
    (assert (env_step e (set_net (env_net e) e)) by (split; [simpl; reflexivity|done]));
    by split_and!.
Qed.

Lemma policy_retry p retry d :
  policy_ok p → 0 ≤ retry → delay_for_retry p retry = Some d → retry < max_retries p.
Proof.
  intros Hp Hr. rewrite delay_for_retry_spec by done.
  destruct (Z.ltb_spec retry (max_retries p)); [done|by intros].
Qed.

(** A loop that only goes round after a delay of the policy ends. *)
Lemma tames_retry_loop {S A} (I : S → Prop) (T : S → S → Prop) `{!PreOrder T}
    (body : Z → M S Error (Z + A)) Q :
  (∀ retry, 0 ≤ retry ≤ u32_max →
     tames I T (body retry) (λ r, match r with inl l => l = retry + 1 ∧ retry < u32_max | inr a => Q a end)) →
  tames I T (loop retry_fuel body 0) Q.
Proof.
  intros Hb. apply (tames_loop _ _ (λ l, 0 ≤ l ≤ u32_max) (λ l, u32_max - l)); [lia| |by vm_compute|by vm_compute].
  intros l Hl. eapply tames_mono; [by apply Hb|]. intros [l'|a]; [lia|done].
Qed.

Lemma policy_retry_max p retry d :
  policy_ok p → 0 ≤ retry → delay_for_retry p retry = Some d → retry < u32_max.
Proof. intros Hp Hr Hd. pose proof (policy_retry _ _ _ Hp Hr Hd). destruct Hp as [[] _]. lia. Qed.

Lemma tames_policy : tames world_inv world_step (field Client.retry_policy) policy_ok.
Proof.
  apply tames_gets; [apply _|]. intros w [Hc _]. rewrite (inv_policy _ Hc). apply (inv_builder _ Hc).
Qed.

Lemma tames_recovery_compound operations :
  tames world_inv world_step (recovery_compound operations)
    (λ r, well_shaped (lit_bytes "nfs-rs-recovery")
            (OpCode.Sequence :: (Operation.op_code <$> operations)) r).
Proof.
  eapply tames_bind; [apply _|apply tame_field|]. intros n _.
  eapply tames_bind; [apply _|apply tame_lift; [apply _|]; eauto with fault_free|]. intros _ _.
  apply tames_retry_loop; [apply _|]. intros retry Hretry. unfold recovery_compound_step.
  eapply tames_bind with (Q := λ l, ∃ s, l = Operation.Sequence s :: operations); [apply _| |].
  { unfold with_sequence. eapply tames_bind; [apply _|apply tame_field|]. intros sid _.
    eapply tames_bind; [apply _|apply tame_field|]. intros q _. apply tames_ret; [apply _|]. by eexists. }
  intros ? [s ->]. eapply tames_bind; [apply _|apply tames_raw_compound; by vm_compute|]. intros r [Hr _].
  eapply tames_bind; [apply _|apply tame_advance_sequence|]. intros _ _.
  eapply tames_bind; [apply _|apply tames_policy|]. intros p Hp.
  destruct (response_allows_delayed_retry _ _); [|apply tames_ret; [apply _|done]].
  destruct (delay_for_retry p retry) as [d|] eqn:Hd; [|apply tames_ret; [apply _|done]].
  eapply tames_bind; [apply _|apply tame_on_env, tame_sleep|]. intros _ _.
  apply tames_ret; [apply _|]. split; [done|]. eapply policy_retry_max; [done|lia|done].
Qed.

#[export] Instance tame_recovery_compound operations : tame_world (recovery_compound operations).
Proof. eapply tames_mono; [apply tames_recovery_compound|done]. Qed.

(** ** Connections that are not part of a client yet *)

Definition conn_inv (s : R * Env W) : Prop := conn_ok s.1.
Definition conn_step (s s' : R * Env W) : Prop := env_step s.2 s'.2.

#[export] Instance conn_step_preorder : PreOrder conn_step.
Proof. split; [intros s; red; reflexivity|]. intros s1 s2 s3 H1 H2. red in H1, H2 |- *. by etrans. Qed.

Lemma tames_on_conn_compound tag minor_version operations :
  tag ≠ main_tag →
  tames conn_inv conn_step (on_conn (rpc_compound tag minor_version operations))
    (λ r, well_shaped tag (Operation.op_code <$> operations) r ∧ response_sane r).
Proof.
  intros Htag [r e] Hc. red in Hc; simpl in Hc.
  pose proof (law_compound tag minor_version operations (env_net e) r Hc) as Hl.
  pose proof (moves_compound tag minor_version operations (env_net e) r Htag) as Hm.
  unfold post, on_conn, zoom in *. simpl in *.
  destruct (rpc_compound _ _ _ _) as [[n r'] [a|err|f]]; [| |done]; simpl in *.
  - destruct Hl as (Hk & Hs & Hsane). by split_and!.
  - by split_and!.
Qed.

#[export] Instance tame_conn_sleep d : Tame (E := Error) conn_inv conn_step (on_snd (thread_sleep d)).
Proof. intros [r e] Hc. unfold post, on_snd, zoom. cbn [snd]. rewrite thread_sleep_run. by split_and!. Qed.

Lemma tame_conn_set_max size :
  0 < size ≤ isize_max →
  Tame conn_inv conn_step (on_conn (on_snd (rpc_set_max_record_size size))).
Proof.
  intros Hs [r e] Hc. pose proof (law_set_max size r Hs Hc) as Hl.
  unfold post, on_conn, on_snd, zoom in *. simpl in *.
  destruct (rpc_set_max_record_size _ _) as [r' [a|err|f]]; [| |done];
    (assert (env_step e (set_net (env_net e) e)) by (split; [simpl; reflexivity|done])); by split_and!.
Qed.

Lemma tames_raw_compound_retry tag minor_version operations policy :
  tag ≠ main_tag → policy_ok policy →
  tames conn_inv conn_step (raw_compound_with_delayed_retry tag minor_version operations policy)
    response_sane.
Proof.
  intros Htag Hp. apply tames_retry_loop; [apply _|]. intros retry Hretry.
  eapply tames_bind; [apply _|by apply tames_on_conn_compound|]. intros r [Hr Hs].
  destruct (response_allows_delayed_retry_without_sequence _ _); [|apply tames_ret; [apply _|done]].
  destruct (delay_for_retry policy retry) as [d|] eqn:Hd; [|apply tames_ret; [apply _|done]].
  eapply tames_bind; [apply _|apply tame_conn_sleep|]. intros _ _.
  apply tames_ret; [apply _|]. split; [done|]. eapply policy_retry_max; [done|lia|done].
Qed.

Lemma tame_reclaim_complete minor_version session_id sequence_id max_operations policy :
  policy_ok policy →
  Tame conn_inv conn_step
    (reclaim_complete_with_delayed_retry minor_version session_id sequence_id max_operations policy).
Proof.
  intros Hp. apply tame_bind; [apply _|apply tame_lift; [apply _|]; eauto with fault_free|]. intros _.
  apply (tames_loop _ _ (λ l : Z * Z, 0 ≤ l.2 ≤ u32_max) (λ l, u32_max - l.2));
    [lia| |by vm_compute|by vm_compute].
  intros [q retry] Hretry. unfold reclaim_complete_step.
  eapply tames_bind; [apply _|apply tames_on_conn_compound; by vm_compute|]. intros r _.
  destruct (response_allows_delayed_retry _ _); [|apply tames_ret; [apply _|done]].
  destruct (delay_for_retry policy retry) as [d|] eqn:Hd; [|apply tames_ret; [apply _|done]].
  eapply tames_bind; [apply _|apply tame_conn_sleep|]. intros _ _.
  apply tames_ret; [apply _|]. simpl in *.
  pose proof (policy_retry_max policy retry d Hp ltac:(lia) Hd). lia.
Qed.

Lemma tame_on_conn_destroy minor_version session_id :
  Tame conn_inv conn_step (on_conn (destroy_session_with_rpc minor_version session_id)).
Proof.
  intros [r e] Hc.
  pose proof (tames_on_conn_compound (lit_bytes "destroy-session") minor_version
    [Operation.DestroySession session_id] ltac:(by vm_compute) (r, e) Hc) as Ht.
  unfold post, on_conn, zoom, destroy_session_with_rpc, mbind, M_bind in *. simpl in *.
  destruct (rpc_compound _ _ _ _) as [[n r'] [a|err|f]]; [| |done]; [|done].
  unfold lift. destruct Ht as (_ & ? & ?). destruct (CompoundResponse.ensure_ok a) as [|err|f] eqn:E; [done|done|].
  by destruct (ensure_ok_safe a f).
Qed.

(** The setup error is always reported. *)
Lemma tames_cleanup_setup {A} minor_version session_id err (Q : A → Prop) :
  tames conn_inv conn_step (cleanup_session_setup_error minor_version session_id err) Q.
Proof.
  eapply tames_bind; [apply _|apply tame_attempt, tame_on_conn_destroy; apply _|]. intros r _.
  apply tames_throw, _.
Qed.

Lemma tames_or_destroy {A} minor_version session_id (m : M (R * Env W) Error A) Q :
  tames conn_inv conn_step m Q → tames conn_inv conn_step (or_destroy_session minor_version session_id m) Q.
Proof.
  intros Hm. eapply tames_bind; [apply _|by apply tames_attempt|]. intros [a|err] Ha.
  - by apply tames_ret; [apply _|].
  - apply tames_cleanup_setup.
Qed.

(** ** Setting up a session *)

(** A client as [connect_session] returns it. *)
Definition fresh_client (b : ClientBuilder) (c : Client R) : Prop :=
  client_inv c ∧ Client.locks c = LockRegistry.default ∧ Client.builder c = b
  ∧ Client.recovery_pending c = false.

Lemma channel_size_Ok name n :
  validate_session_channel_size name n = Ok tt → NFS4_COMPOUND_IO_HEADROOM < n.
Proof.
  unfold validate_session_channel_size.
  by destruct (Z.leb_spec n NFS4_COMPOUND_IO_HEADROOM).
Qed.

Lemma channel_attrs_Ok a :
  validate_session_channel_attrs a = Ok tt →
  NFS4_COMPOUND_IO_HEADROOM < ChannelAttrs.max_request_size a
  ∧ NFS4_COMPOUND_IO_HEADROOM < ChannelAttrs.max_response_size a.
Proof.
  unfold validate_session_channel_attrs. intros H.
  apply outcome_bind_Ok in H as ([] & H1%channel_size_Ok & H).
  apply outcome_bind_Ok in H as ([] & H2%channel_size_Ok & _). done.
Qed.

Lemma session_max_operations_Ok a n :
  0 ≤ ChannelAttrs.max_operations a → session_max_operations a = Ok n → 1 ≤ n ≤ NFS4_MAX_OPS.
Proof.
  unfold session_max_operations, NFS4_MAX_OPS. intros Ha.
  destruct (Z.eqb_spec (ChannelAttrs.max_operations a) 0); [done|]. intros [= <-]. lia.
Qed.

Lemma response_create_session_sane r s :
  response_sane r → response_create_session r = Ok s →
  0 ≤ ChannelAttrs.max_operations (CreateSessionResult.fore_channel_attrs s).
Proof.
  unfold response_create_session, response_sane. destruct (CompoundResponse.results r) as [|x l]; [done|].
  simpl. intros Hs. destruct x; try done. destruct result as [result|]; [|done].
  destruct (Status.is_ok status); [|done]. intros [= <-]. by apply list.Forall_cons in Hs as [Hs _].
Qed.

Lemma tames_setup_session b minor_version complete :
  builder_inv b → NFS4_MINOR_VERSION_SESSION_MIN ≤ minor_version ≤ NFS4_MINOR_VERSION_LATEST →
  tames conn_inv conn_step (setup_session b minor_version complete)
    (λ make, ∀ r, conn_ok r → fresh_client b (make r)).
Proof.
  intros Hb Hmv. pose proof (builder_policy_ok _ Hb) as Hp. unfold setup_session.
  eapply tames_bind; [apply _|apply tame_conn_set_max, record_size_ok; apply Hb|]. intros _ _.
  eapply tames_bind; [apply _|apply tames_raw_compound_retry; [by vm_compute|done]|]. intros er _.
  eapply tames_bind; [apply _|apply tame_lift; [apply _|apply ensure_ok_safe]|]. intros _ _.
  eapply tames_bind; [apply _|apply tame_lift; [apply _|apply response_exchange_id_safe]|]. intros ex _.
  eapply tames_bind; [apply _|apply tames_raw_compound_retry; [by vm_compute|done]|]. intros sr Hsane.
  eapply tames_bind; [apply _|apply tame_lift; [apply _|apply ensure_ok_safe]|]. intros _ _.
  eapply tames_bind; [apply _|apply tames_lift; [apply _|apply response_create_session_safe|]|].
  { intros se. by apply response_create_session_sane. }
  intros se Hse. cbv beta in Hse.
  eapply tames_bind with (Q := λ _, _); [apply _|apply tames_or_destroy, tames_lift; [apply _|apply channel_attrs_safe|]|].
  { intros [] Ha. exact (channel_attrs_Ok _ Ha). }
  intros _ [Hreq Hresp].
  eapply tames_bind; [apply _|apply tames_or_destroy, tames_lift; [apply _|apply session_max_operations_safe|]|].
  { intros n Ha. exact (session_max_operations_Ok _ n Hse Ha). }
  intros n Hn. eapply (tames_bind _ _ _ _ (λ _, True)).
  { destruct complete; [|by apply tames_ret; [apply _|]].
    eapply tames_bind; [apply _|by apply tames_or_destroy, tame_reclaim_complete|]. intros [q rr] _.
    eapply tames_bind; [apply _|apply tames_or_destroy, tame_lift; [apply _|apply ensure_reclaim_complete_safe]|].
    intros _ _. by apply tames_ret; [apply _|]. }
  intros q _. apply tames_ret; [apply _|]. intros r Hr. destruct Hb. split_and!; [|done..]. by split.
Qed.

Lemma tames_own_connection b rpc (setup : M (R * Env W) Error (R → Client R)) :
  conn_ok rpc → tames conn_inv conn_step setup (λ make, ∀ r, conn_ok r → fresh_client b (make r)) →
  tames env_inv env_step (own_connection rpc setup) (fresh_client b).
Proof.
  intros Hr Hs e _. specialize (Hs (rpc, e) Hr). unfold post, own_connection in *.
  destruct (setup (rpc, e)) as [[r e'] [make|err|f]]; [| |done].
  - destruct Hs as (Hm & Hr' & He). split_and!; [by apply Hm|done|done].
  - destruct Hs as [_ He]. by split.
Qed.

Lemma tames_connect_minor b minor_version complete :
  builder_inv b → NFS4_MINOR_VERSION_SESSION_MIN ≤ minor_version ≤ NFS4_MINOR_VERSION_LATEST →
  tames env_inv env_step (connect_session_minor b minor_version complete) (fresh_client b).
Proof.
  intros Hb Hmv. unfold connect_session_minor. eapply (tames_bind _ _ _ _ conn_ok).
  - intros e _. pose proof (law_connect b (env_net e)) as Hl. pose proof (moves_connect b (env_net e)) as Hm.
    unfold post, on_net, zoom in *. destruct (net_rpc_connect b (env_net e)) as [n [r|err|f]]; [| |done];
      by split_and!.
  - intros r Hr. apply tames_own_connection; [done|]. by apply tames_setup_session.
Qed.

Lemma tames_connect_versions b complete last versions :
  builder_inv b →
  Forall (λ v, NFS4_MINOR_VERSION_SESSION_MIN ≤ v ≤ NFS4_MINOR_VERSION_LATEST) versions →
  tames env_inv env_step (connect_minor_versions b complete last versions) (fresh_client b).
Proof.
  intros Hb Hv. revert last. induction Hv as [|v versions Hv _ IH]; intros last; cbn [connect_minor_versions].
  - apply tames_throw, _.
  - eapply tames_bind; [apply _|by apply tames_attempt, tames_connect_minor|]. intros [c|err] Hc.
    + by apply tames_ret; [apply _|].
    + destruct (is_minor_version_mismatch err); [apply IH|apply tames_throw, _].
Qed.

Lemma tames_connect_session b complete :
  builder_typed b → tames env_inv env_step (connect_session b complete) (λ c, fresh_client b c ∧ builder_inv b).
Proof.
  intros Hb. unfold connect_session.
  eapply tames_bind with (Q := λ _, _); [apply _|apply tames_lift; [apply _|apply validate_builder_safe|]|].
  { intros [] H. exact (validate_builder_Ok b H Hb). }
  intros _ [Hinv Hmv]. eapply tames_mono; [apply tames_connect_versions; [done|]|done].
  apply list.Forall_forall. intros v Hv%negotiated_range. lia.
Qed.

(** ** Lease renewal and shutdown *)

(** A method of another client in the same environment. *)
Lemma post_with_client {A} c (m : M (World W R) Error A) e (Q : A → Prop) :
  tames world_inv world_step m Q → world_inv (mkWorld e c) →
  post (with_client c m) e
    (λ p e', world_inv (mkWorld e' p.1) ∧ world_step (mkWorld e c) (mkWorld e' p.1)
       ∧ match p.2 with inl a => Q a | inr _ => True end)
    (λ _ _, False).
Proof.
  intros Hm Hw. specialize (Hm _ Hw). unfold post, with_client in *.
  destruct (m (mkWorld e c)) as [[e' c'] [a|err|f]]; [| |done]; simpl; tauto.
Qed.

(** A client of its own, with no locks. *)
Lemma tame_with_fresh {A} b c (m : M (World W R) Error A) :
  fresh_client b c → tame_world m → tame_env (with_client c m).
Proof.
  intros (Hc & Hl & _ & _) Hm e _. eapply post_mono; [eapply post_with_client; [exact Hm|]| |done].
  - split; [done|]. simpl. rewrite Hl. apply registry_ok_default.
  - intros p e' (_ & [He _] & _). by split_and!.
Qed.

Lemma tame_net_lease_failed t : tame_env (on_net (lease_failed t)).
Proof. apply tame_on_net. intros n. split; [apply law_lease_failed|apply moves_lease_failed]. Qed.
Lemma tame_net_lease_stop t : tame_env (on_net (lease_stop t)).
Proof. apply tame_on_net. intros n. split; [apply law_lease_stop|apply moves_lease_stop]. Qed.
Lemma tame_net_lease_start i c : tame_env (on_net (lease_start i c)).
Proof. apply tame_on_net. intros n. split; [apply law_lease_start|apply moves_lease_start]. Qed.

(** Steps of the proofs below: leaves by name, the rest by structure. *)
Ltac tame_leaf :=
  first [ apply tame_ret, _ | apply tame_throw, _ | apply tame_field | apply _
        | apply tame_lift; [apply _|eauto with fault_free]
        | apply tame_raw_compound; by vm_compute ].
Ltac tame_steps :=
  repeat first
    [ tame_leaf
    | lazymatch goal with |- Tame _ _ (mbind _ _) => apply tame_bind; [apply _| |intros ?] end
    | lazymatch goal with |- Tame _ _ (attempt _) => apply tame_attempt end
    | case_match ].

#[export] Instance tame_stop_lease : tame_world stop_lease_renewal.
Proof.
  unfold stop_lease_renewal. tame_steps. all: apply tame_on_env, tame_net_lease_stop.
Qed.

#[export] Instance tame_shutdown : tame_world shutdown.
Proof. unfold shutdown. tame_steps. Qed.

#[export] Instance tame_destroy_client_id : tame_world destroy_client_id.
Proof. unfold destroy_client_id. tame_steps. Qed.

#[export] Instance tame_start_lease : tame_world start_lease_renewal.
Proof.
  unfold start_lease_renewal. eapply tame_bind_val with (Q := builder_inv); [apply _| |].
  { apply tames_gets; [apply _|]. intros w [Hc _]. apply Hc. }
  intros b Hb. case_match; [tame_leaf|]. apply tame_bind; [apply _|tame_leaf|]. intros c.
  apply tame_bind; [apply _|tame_leaf|]. intros interval.
  set (b' := ClientBuilder.set_timeout _ _).
  assert (builder_inv b') as Hb' by (destruct b, Hb; by split).
  eapply tame_bind_val with (Q := fresh_client b'); [apply _| |].
  { apply tames_on_env. eapply tames_mono; [by apply tames_connect_session, builder_inv_typed|]. by intros ? []. }
  intros keeper Hk. case_match.
  - apply tame_bind; [apply _|eapply tame_on_env, tame_with_fresh; [exact Hk|apply _]|]. intros r. tame_leaf.
  - apply tame_bind; [apply _|apply tame_on_env, tame_net_lease_start|]. intros t. apply _.
Qed.

(** ** Limits *)

Lemma session_payload_ok n : NFS4_COMPOUND_IO_HEADROOM < n → size_ok (session_payload_limit n).
Proof. unfold session_payload_limit, size_ok, NFS4_COMPOUND_IO_HEADROOM, NFS4_MAX_IO. lia. Qed.

Lemma clamp_ok m n : size_ok n → size_ok (V4Client.clamp_io_size m n).
Proof.
  unfold V4Client.clamp_io_size, size_ok, wrap_u32, NFS4_MAX_IO. destruct m as [m|]; [|done].
  intros Hn. destruct (m =? 0); [done|]. rewrite Z.mod_small; lia.
Qed.

#[export] Instance tame_apply_fsinfo f : tame_world (apply_fsinfo_limits f).
Proof.
  unfold apply_fsinfo_limits.
  eapply tame_bind_val with (Q := client_inv); [apply _| |].
  { apply tames_gets; [apply _|]. by intros w []. }
  intros c Hc.
  set (rl := Z.min (ClientBuilder.read_size (Client.builder c)) _).
  set (wl := Z.min (ClientBuilder.write_size (Client.builder c)) _).
  set (dl := Z.min (ClientBuilder.dir_size (Client.builder c)) _).
  assert (size_ok rl ∧ size_ok wl ∧ size_ok dl) as (Hrl & Hwl & Hdl).
  { destruct Hc as [_ [Hr Hw Hd _] _ _ _ Hreq%session_payload_ok Hresp%session_payload_ok _ _ _].
    unfold size_ok, rl, wl, dl in *. lia. }
  apply tame_bind; [apply _| |].
  - apply tame_update; [|done|done|done]. intros c' []. split; try done; by apply clamp_ok.
  - intros _. apply tame_set_max, record_size_ok; by try apply clamp_ok.
Qed.

#[export] Instance tame_refresh_recovered : tame_world refresh_recovered_fsinfo.
Proof. unfold refresh_recovered_fsinfo. tame_steps. Qed.

(** ** Locks across recovery *)

#[export] Instance tame_check_recovered lock : tame_world (check_recovered_lock lock).
Proof. unfold check_recovered_lock. tame_steps. Qed.

#[export] Instance tame_reclaim_lock lock : tame_world (reclaim_lock lock).
Proof.
  unfold reclaim_lock. tame_steps.
  exfalso. eapply fault_free_bind; [apply ensure_ok_safe| |eassumption]. intros ? _. apply response_lock_safe.
Qed.

(** A client with the registry [reg]. *)
Definition world_at (reg : LockRegistry) (w : World W R) : Prop :=
  world_inv w ∧ Client.locks (client w) = reg.

Abbreviation lock_count reg := (length (LockRegistry.entries reg)).

Lemma tame_at reg {A} (m : M (World W R) Error A) : tame_world m → Tame (world_at reg) world_step m.
Proof.
  intros Hm w [Hw Hn]. eapply post_mono; [by apply Hm| |]; simpl.
  - intros a w' (_ & Hi & Ht). split_and!; [done| |done]. split; [done|]. by destruct Ht as (_ & -> & _).
  - intros e w' (Hi & Ht). split; [|done]. split; [done|]. by destruct Ht as (_ & -> & _).
Qed.

Lemma tame_of_at {A} (m : M (World W R) Error A) : (∀ reg, Tame (world_at reg) world_step m) → tame_world m.
Proof.
  intros Hm w Hw. eapply post_mono; [exact (Hm _ w (conj Hw eq_refl))| |]; simpl; unfold world_at; naive_solver.
Qed.

(** [self.locks.restore(index, state)]. *)
Lemma tame_restore reg index state :
  (index < lock_count reg)%nat →
  Tame (world_at reg) world_step
    (locks ← field Client.locks; on_env (on_store (LockRegistry.restore locks index state))).
Proof.
  intros Hi [e c] [[Hc Hr] Hn]. apply post_bind, post_gets; simpl in *.
  destruct (lookup_lt_is_Some_2 (LockRegistry.entries (Client.locks c)) index) as [entry He]; [by rewrite Hn|].
  pose proof (list.Forall_lookup_1 _ _ _ _ Hr He) as Hlt. simpl in Hlt.
  destruct (lookup_lt_is_Some_2 (env_locks e) entry Hlt) as [old Hold].
  unfold post, on_env, on_store, zoom, LockRegistry.restore. simpl. rewrite He, Hold. simpl.
  assert (world_inv (mkWorld (mkEnv (env_net e) (<[entry:=state]> (env_locks e)) (env_slept e)) c)) as Hw.
  { split; [done|]. simpl. apply (registry_ok_grow _ (env_locks e)); [by rewrite length_insert|done]. }
  split_and!; [done|by split|]. split_and!; [split; simpl; [reflexivity|rewrite length_insert; lia]|done..].
Qed.

Ltac at_leaf := apply tame_at; tame_leaf.

Lemma tame_restore_then {A} reg index state (k : M (World W R) Error A) :
  (index < lock_count reg)%nat → Tame (world_at reg) world_step k →
  Tame (world_at reg) world_step
    (locks ← field Client.locks; on_env (on_store (LockRegistry.restore locks index state)) ;; k).
Proof.
  intros Hi Hk. apply (tame_bind (world_at reg) world_step _ (λ _, k) (tame_restore reg index state Hi) (λ _, Hk)).
Qed.

Lemma tame_revoke reg index lock ids :
  (index < lock_count reg)%nat → Tame (world_at reg) world_step (revoke_stateids index lock ids).
Proof.
  intros Hi. revert lock. induction ids as [|[id status] ids IH]; intros lock; cbn [revoke_stateids]; [at_leaf|].
  case_match; [apply IH|]. apply tame_restore_then; [done|].
  apply tame_bind; [apply _|apply tame_at, tame_attempt, _|]. intros _. apply IH.
Qed.

Lemma tame_check_revoked_loop reg index snapshot :
  (index + length snapshot = lock_count reg)%nat → Tame (world_at reg) world_step (check_revoked_loop index snapshot).
Proof.
  revert index. induction snapshot as [|lock rest IH]; intros index Hi; simpl in Hi; cbn [check_revoked_loop]; [at_leaf|].
  case_match; [apply IH; lia|].
  apply tame_bind; [apply _|at_leaf|]. intros r. apply tame_bind; [apply _|at_leaf|]. intros _.
  apply tame_bind; [apply _|at_leaf|]. intros statuses.
  apply tame_bind; [apply _|apply tame_revoke; lia|]. intros _. apply IH. lia.
Qed.

(** The snapshot of a client's locks. *)
Lemma tames_snapshot reg :
  tames (world_at reg) world_step
    (locks ← field Client.locks; on_env (on_store (LockRegistry.snapshot locks))) (λ l, length l = lock_count reg).
Proof.
  intros [e c] [[Hc Hr] Hn]. apply post_bind, post_gets; simpl in *.
  destruct (snapshot_spec _ _ Hr) as [Hs Hl]. unfold post, on_env, on_store, zoom. simpl. rewrite Hs.
  destruct e. simpl in *. split_and!; [by rewrite Hl, Hn|done|reflexivity].
Qed.

#[export] Instance tame_check_revoked : tame_world check_revoked_locks.
Proof.
  apply tame_of_at. intros reg.
  apply (tames_bind (world_at reg) world_step
           (locks ← field Client.locks; on_env (on_store (LockRegistry.snapshot locks)))
           (check_revoked_loop O) (λ l, length l = lock_count reg) (λ _, True) (tames_snapshot reg)).
  intros l Hl. by apply tame_check_revoked_loop.
Qed.

Lemma tame_recover_locks reg index states :
  (index + length states = lock_count reg)%nat → Tame (world_at reg) world_step (recover_locks index states).
Proof.
  revert index. induction states as [|state rest IH]; intros index Hi; simpl in Hi; cbn [recover_locks]; [at_leaf|].
  case_match; [apply IH; lia|]. apply tame_bind; [apply _|at_leaf|]. intros cid.
  apply tame_bind; [apply _|apply tame_at, tame_attempt|].
  { case_match; [|apply _]. apply tame_bind; [apply _|apply _|]. intros _. tame_leaf. }
  intros recovered. apply tame_bind; [apply _|apply tame_at; repeat case_match; tame_leaf|]. intros st.
  apply tame_restore_then; [lia|]. apply IH. lia.
Qed.

(** [self.locks.ensure_valid()]. *)
#[export] Instance tame_ensure_valid :
  tame_world (locks ← field Client.locks; on_env (on_store (LockRegistry.ensure_valid locks))).
Proof.
  intros [e c] [Hc Hr]. apply post_bind, post_gets; simpl in *.
  destruct (ensure_valid_spec _ _ Hr) as (H1 & _ & _ & Hf). unfold post, on_env, on_store, zoom. simpl.
  destruct (LockRegistry.ensure_valid (Client.locks c) (env_locks e)) as [st [a|err|f]]; simpl in *; subst;
    [| |by destruct (Hf f)]; destruct e; simpl in *; split_and!; try done; reflexivity.
Qed.

#[export] Instance tame_ensure_locks operations : tame_world (ensure_locks_valid operations).
Proof. unfold ensure_locks_valid. case_match; [tame_leaf|apply tame_ensure_valid]. Qed.

(** ** Recovery *)

Lemma tame_recover_state old : Tame (world_at (Client.locks old)) world_step (recover_state old).
Proof.
  apply tame_bind; [apply _|at_leaf|]. intros cid.
  apply tame_bind; [apply _|apply tame_at; case_match; tame_leaf|]. intros _.
  eapply tame_bind_val with (Q := λ l, length l = lock_count (Client.locks old)); [apply _| |].
  - intros w Hw. pose proof (tames_snapshot _ w Hw) as Ht. destruct w as [e c], Hw as [_ Hl]. simpl in Hl.
    unfold post, mbind, M_bind, field, gets in Ht. simpl in Ht. by rewrite Hl in Ht.
  - intros states Hs. apply tame_bind; [apply _|by apply tame_recover_locks|]. intros _.
    apply tame_bind; [apply _|at_leaf|]. intros r. apply tame_bind; [apply _|at_leaf|]. intros _.
    apply tame_bind; [apply _|apply tame_at; case_match; tame_leaf|]. intros _. at_leaf.
Qed.

(** What a rebuilt client is once recovery is through with it. *)
Definition recovered_client (old c : Client R) (e : Env W) : Prop :=
  world_inv (mkWorld e c) ∧ Client.locks c = Client.locks old ∧ Client.builder c = Client.builder old
  ∧ Client.recovery_pending c = false.

Lemma post_recover_rebuilt old rebuilt e :
  fresh_client (Client.builder old) rebuilt → registry_ok (Client.locks old) (env_locks e) →
  post (with_client rebuilt (recover_rebuilt old)) e
    (λ p e', env_step e e' ∧ recovered_client old p.1 e') (λ _ _, False).
Proof.
  intros (Hc & _ & Hb & Hp) Hr.
  assert (world_at (Client.locks old) (mkWorld e (Client.with_locks (Client.locks old) rebuilt))) as Hw.
  { split; [|done]. split; [destruct rebuilt, Hc; by split|done]. }
  pose proof (tame_recover_state old _ Hw) as Ht. unfold post, with_client in *.
  change (recover_rebuilt old (mkWorld e rebuilt)) with
    (recover_state old (mkWorld e (Client.with_locks (Client.locks old) rebuilt))).
  destruct (recover_state old _) as [[e' c'] [a|err|f]]; [| |done].
  - destruct Ht as (_ & [Hi Hl] & (He & Hk & Hbb & Hpp)). simpl in *.
    split; [done|]. split_and!; [done|done|by rewrite Hbb|by rewrite Hpp].
  - destruct Ht as ([Hi Hl] & (He & Hk & Hbb & Hpp)). simpl in *.
    split; [done|]. split_and!; [done|done|by rewrite Hbb|by rewrite Hpp].
Qed.

Lemma tames_reconnect b policy :
  builder_typed b → policy_ok policy →
  tames env_inv env_step (loop retry_fuel (reconnect_step b policy) 0) (fresh_client b).
Proof.
  intros Hb Hp. apply tames_retry_loop; [apply _|]. intros retry Hretry. unfold reconnect_step.
  eapply tames_bind; [apply _|by apply tames_attempt, tames_connect_session|]. intros [c|err] Hc.
  - apply tames_ret; [apply _|]. apply Hc.
  - destruct (is_transport_failure err); [|apply tames_throw, _].
    destruct (delay_for_retry policy retry) as [d|] eqn:Hd; [|apply tames_throw, _].
    eapply tames_bind; [apply _|apply tame_sleep|]. intros _ _.
    apply tames_ret; [apply _|]. split; [done|]. eapply policy_retry_max; [done|lia|done].
Qed.

(** A client keeps its registry and its settings. *)
Definition world_move (w w' : World W R) : Prop :=
  env_step (env w) (env w') ∧ Client.locks (client w') = Client.locks (client w)
  ∧ Client.builder (client w') = Client.builder (client w).

#[export] Instance world_move_preorder : PreOrder world_move.
Proof.
  split; [intros w; split_and!; [reflexivity|done..]|].
  intros w1 w2 w3 (? & ? & ?) (? & ? & ?). split_and!; [by etrans|congruence..].
Qed.

Lemma world_step_move w w' : world_step w w' → world_move w w'.
Proof. by intros (? & ? & ? & _). Qed.

Lemma tames_move {A} (m : M (World W R) Error A) Q :
  tames world_inv world_step m Q → tames world_inv world_move m Q.
Proof.
  intros Hm w Hw. eapply post_mono; [by apply Hm| |]; simpl; naive_solver eauto using world_step_move.
Qed.

#[export] Instance tame_pending b : Tame world_inv world_move (update (Client.with_recovery_pending b)).
Proof.
  intros [e c] [Hc Hr]. split_and!; [done|split; [destruct c, Hc; by split|done]|by split_and!].
Qed.

(** No lock of the client is lost. *)
Definition locks_valid (w : World W R) : Prop :=
  Forall (λ st, LockState.lost st = None) (states_of (Client.locks (client w)) (env_locks (env w))).

Lemma post_ensure_valid w :
  world_inv w →
  post (locks ← field Client.locks; on_env (on_store (LockRegistry.ensure_valid locks))) w
    (λ _ w', w' = w ∧ locks_valid w) (λ err w', w' = w ∧ ∃ status, err = LockLost status).
Proof.
  destruct w as [[n st sl] c]. intros [Hc Hr]. apply post_bind, post_gets; simpl in *.
  destruct (ensure_valid_spec _ _ Hr) as (H1 & H2 & H3 & Hf). unfold post, on_env, on_store, zoom. simpl in *.
  destruct (LockRegistry.ensure_valid (Client.locks c) st) as [st' [[]|err|f]]; simpl in *; subst;
    [| |by destruct (Hf f)]; split; try done; [by apply H2|].
  destruct (H3 err eq_refl) as (? & status & _ & _ & ->). by exists status.
Qed.

(** What recovery leaves behind. *)
Definition recovered (w0 : World W R) (w : World W R) : Prop :=
  world_inv w ∧ world_move w0 w ∧ Client.recovery_pending (client w) = false.
Definition not_recovered (w0 : World W R) (w : World W R) : Prop :=
  world_inv w ∧ world_move w0 w ∧ Client.recovery_pending (client w) = true.

(** The rebuilt client takes over, the old session is destroyed. *)
Lemma post_take_over w0 w old rebuilt :
  world_inv w0 → world_move w0 (mkWorld (env w) old) → world_inv (mkWorld (env w) old) →
  recovered_client old rebuilt (env w) →
  post (update (λ _, rebuilt) ;;
        on_env (with_client old shutdown) ;;
        locks ← field Client.locks;
        on_env (on_store (LockRegistry.ensure_valid locks))) w
    (λ _ w', recovered w0 w' ∧ locks_valid w')
    (λ err w', recovered w0 w' ∧ ∃ status, err = LockLost status).
Proof.
  intros Hw0 Hmove Hold (Hreb & Hlocks & Hbuilder & Hpend). apply post_bind.
  unfold post at 1, update, modify. simpl.
  apply post_bind. destruct w as [e c]. simpl in *.
  pose proof (post_with_client old shutdown e _ tame_shutdown Hold) as Hs.
  unfold post at 1, on_env, zoom. simpl. unfold post in Hs.
  destruct (with_client old shutdown e) as [e' [p|err|f]]; [|done|done].
  destruct Hs as (_ & [He _] & _). simpl in He.
  assert (recovered w0 (mkWorld e' rebuilt)) as Hrec.
  { split_and!; [| |done].
    - split; [apply Hreb|]. simpl. eapply registry_ok_grow; [apply He|apply Hreb].
    - destruct Hmove as (Hm1 & Hm2 & Hm3). simpl in *.
      split_and!; simpl; [by etrans|congruence|congruence]. }
  eapply post_mono; [apply post_ensure_valid, Hrec|..]; simpl; naive_solver.
Qed.

Lemma post_on_env {A} (m : M (Env W) Error A) (w : World W R) Q X :
  post m (env w) (λ a e, Q a (mkWorld e (client w))) (λ err e, X err (mkWorld e (client w))) →
  post (on_env m) w Q X.
Proof. unfold post, on_env, zoom. by destruct (m (env w)) as [e [a|err|f]]. Qed.

(** A step of the environment alone. *)
Lemma env_step_world w e : world_inv w → env_step (env w) e →
  world_inv (mkWorld e (client w)) ∧ world_step w (mkWorld e (client w)).
Proof.
  intros [Hc Hr] He. split; [split; [done|]|by split_and!].
  simpl. eapply registry_ok_grow; [apply He|done].
Qed.

Lemma not_recovered_step w0 w w' :
  not_recovered w0 w → world_inv w' → world_step w w' → not_recovered w0 w'.
Proof.
  intros (_ & Hm & Hp) Hw' Hs. split_and!; [done|etrans; [done|by apply world_step_move]|].
  destruct Hs as (_ & _ & _ & ->). done.
Qed.

Lemma post_recover_session w :
  world_inv w →
  post recover_session w
    (λ _ w', recovered w w' ∧ locks_valid w')
    (λ err w', not_recovered w w' ∨ recovered w w' ∧ ∃ status, err = LockLost status).
Proof.
  intros Hw. unfold recover_session. apply post_bind.
  set (w1 := mkWorld (env w) (Client.with_recovery_pending true (client w))).
  assert (not_recovered w w1) as H1.
  { pose proof (tame_pending true w Hw) as (_ & ? & ?). by split_and!. }
  unfold post at 1. simpl.
  change (mkWorld (env w) (Client.with_recovery_pending true (client w))) with w1.
  apply post_bind. eapply post_mono; [apply (tame_attempt _ _ _ tame_stop_lease w1), H1| |].
  2: { intros err w2 [Hw2 Hs2]. left. by eapply not_recovered_step. }
  intros _ w2 (_ & Hw2 & Hs2). pose proof (not_recovered_step _ _ _ H1 Hw2 Hs2) as H2.
  apply post_bind, post_gets. set (old := client w2). apply post_bind, post_on_env.
  pose proof (inv_builder _ (proj1 Hw2)) as Hb.
  assert (policy_ok (Client.retry_policy old)) as Hp by (unfold old; rewrite (inv_policy _ (proj1 Hw2)); apply Hb).
  eapply post_mono; [apply tames_reconnect; [by apply builder_inv_typed|done|done]| |].
  2: { intros err e (_ & He). left. destruct (env_step_world _ _ Hw2 He). by eapply not_recovered_step. }
  intros rebuilt e3 (Hreb & _ & He3). destruct (env_step_world _ _ Hw2 He3) as [Hw3 Hs3].
  pose proof (not_recovered_step _ _ _ H2 Hw3 Hs3) as H3.
  apply post_bind, post_on_env. eapply post_mono; [by apply post_recover_rebuilt; [|apply Hw3]| |done].
  intros [c r] e4 [He4 Hc]. destruct (env_step_world (mkWorld e3 old) _ Hw3 He4) as [Hw4 Hs4].
  pose proof (not_recovered_step _ _ _ H3 Hw4 Hs4) as H4. simpl in *.
  destruct r as [[]|err]; [|by left].
  eapply post_mono; [apply (post_take_over w (mkWorld e4 old) old c)| |]; [done|apply H4|done|done|done|].
  by right.
Qed.

#[export] Instance tame_recover_session : Tame world_inv world_move recover_session.
Proof.
  intros w Hw. eapply post_mono; [by apply post_recover_session| |]; unfold recovered, not_recovered; naive_solver.
Qed.

(** ** Sending a COMPOUND *)

(** A failed lease asks for recovery; nothing else changes. *)
Lemma post_check_lease w :
  world_inv w →
  post check_lease w
    (λ _ w', world_inv w' ∧ world_move w w'
       ∧ (Client.recovery_pending (client w) = true → Client.recovery_pending (client w') = true))
    (λ _ w', world_inv w' ∧ world_move w w').
Proof.
  intros Hw. unfold check_lease. apply post_bind, post_gets. destruct (Client.lease_renewal (client w)) as [l|].
  2: { apply post_ret. split_and!; [done|reflexivity|done]. }
  apply post_bind. eapply post_mono; [apply (tame_on_env _ (tame_net_lease_failed (lease_thread l)) w Hw)| |].
  2: { intros err w1 (Hw1 & Hs1). split; [done|]. by apply world_step_move. }
  intros b w1 (_ & Hw1 & Hs1). pose proof (world_step_move _ _ Hs1) as Hm1. destruct b.
  - pose proof (tame_pending true w1 Hw1) as (_ & Hw2 & Hm2). split_and!; [done|by etrans|done].
  - apply post_ret. split_and!; [done..|]. by destruct Hs1 as (_ & _ & _ & ->).
Qed.

Lemma post_operation_count {A} (operations : list Operation) (k : M (World W R) Error A) w Q X :
  post k w Q X → (∀ err, X err w) →
  post (max_operations ← field Client.max_operations;
        lift (validate_session_compound_operation_count (zlen operations) max_operations) ;; k) w Q X.
Proof.
  intros Hk Hx. apply post_bind, post_gets, post_bind, post_lift.
  destruct (validate_session_compound_operation_count _ _) as [[]|err|f] eqn:E; [done|done|].
  by destruct (operation_count_safe _ _ _ E).
Qed.

(** When recovery is pending, an operation that cannot be replayed is never
    sent: the caller gets an error. *)
Lemma post_pending_not_replayed operations w :
  world_inv w → Client.recovery_pending (client w) = true →
  operations_can_replay_after_session_recovery operations = false →
  post (compound_status operations) w (λ _ _, False) (λ err w', world_inv w' ∧ world_move w w').
Proof.
  intros Hw Hp Hr. apply post_operation_count; [|intros err; split; [done|reflexivity]].
  apply post_bind. eapply post_mono; [by apply post_check_lease| |done].
  intros _ w1 (Hw1 & Hm1 & Hp1). apply post_bind, post_gets, post_bind. rewrite (Hp1 Hp).
  apply post_bind. eapply post_mono; [by apply tame_recover_session| |].
  - intros _ w2 (_ & Hw2 & Hm2). rewrite Hr. apply post_throw. split; [done|by etrans].
  - intros err w2 (Hw2 & Hm2). split; [done|by etrans].
Qed.

(** The settings a COMPOUND keeps, whatever it does to the network. *)
Definition world_keep (w w' : World W R) : Prop :=
  (length (env_locks (env w)) ≤ length (env_locks (env w')))%nat
  ∧ Client.locks (client w') = Client.locks (client w)
  ∧ Client.builder (client w') = Client.builder (client w).

#[export] Instance world_keep_preorder : PreOrder world_keep.
Proof.
  split; [by intros w; split_and!|]. intros w1 w2 w3 (? & ? & ?) (? & ? & ?). split_and!; [lia|congruence..].
Qed.

Section compound_status.
Context (operations : list Operation) (Clean Done : W → Prop).

(** [Clean]: the operations may be sent; [Done]: they have been sent, or
    may still be.  Sending leads from [Clean] to [Done]; a delayed retry, or
    the possibility of a replay, leads back. *)
Record retry_spec : Prop := {
  clean_done n : Clean n → Done n;
  clean_moves n n' : N n n' → Clean n → Clean n';
  done_moves n n' : N n n' → Done n → Done n';
  send_done minor_version s n r :
    Clean n → Done (rpc_compound main_tag minor_version (Operation.Sequence s :: operations) (n, r)).1.1;
  delayed_clean minor_version s n r resp :
    Clean n →
    (rpc_compound main_tag minor_version (Operation.Sequence s :: operations) (n, r)).2 = Ok resp →
    well_shaped main_tag (OpCode.Sequence :: (Operation.op_code <$> operations)) resp →
    response_allows_delayed_retry operations resp = true →
    Clean (rpc_compound main_tag minor_version (Operation.Sequence s :: operations) (n, r)).1.1;
  replay_clean n :
    operations_can_replay_after_session_recovery operations = true → Done n → Clean n;
}.

Context (HR : retry_spec).

Definition kept (w0 w : World W R) : Prop := world_inv w ∧ world_keep w0 w ∧ Done (env_net (env w)).

Lemma kept_move w0 w w' : kept w0 w → world_inv w' → world_move w w' → kept w0 w'.
Proof.
  intros (_ & Hk & Hd) Hw' ((HN & Hlen) & Hl & Hb). split_and!; [done| |by eapply done_moves].
  etrans; [done|]. by split_and!.
Qed.

(** The main call. *)
Lemma post_main_send w0 w :
  world_inv w → world_keep w0 w → Clean (env_net (env w)) →
  post (compound ← with_sequence operations;
        attempt (F := Error) (raw_compound (lit_bytes "nfs-rs-v4") compound)) w
    (λ r w', kept w0 w' ∧ Client.recovery_pending (client w') = Client.recovery_pending (client w)
       ∧ match r with
         | inl resp => answers operations resp
             ∧ (response_allows_delayed_retry operations resp = true → Clean (env_net (env w')))
         | inr _ => True
         end) (λ _ _, False).
Proof.
  intros [Hc Hr] Hk Hclean. destruct w as [e c]. simpl in *.
  set (s := SequenceArgs.mkSequenceArgs (Client.session_id c) (Client.sequence_id c) 0 0 false).
  pose proof (law_compound main_tag (Client.minor_version c) (Operation.Sequence s :: operations)
                (env_net e) (Client.rpc c) (inv_conn _ Hc)) as Hl.
  pose proof (send_done HR (Client.minor_version c) s (env_net e) (Client.rpc c) Hclean) as Hd.
  pose proof (delayed_clean HR (Client.minor_version c) s (env_net e) (Client.rpc c)) as Hdel.
  unfold with_sequence, raw_compound, post, mbind, M_bind, field, gets, mret, M_ret, attempt, on_rpc, zoom in *.
  simpl in *. unfold sequence_args. fold main_tag. fold s.
  destruct (rpc_compound main_tag _ _ _) as [[n r] [resp|err|f]]; [| |done]; simpl in *.
  all: assert (kept w0 (mkWorld (set_net n e) (Client.with_rpc r c))) as Hkept
    by (split_and!; [split; [destruct c, Hc; (split; try done); apply Hl|done]|etrans; [done|by split_and!]|done]).
  - destruct Hl as (_ & Hs & Hsane). split; [done|]. split; [done|]. split; [done|]. intros Ha. by eapply Hdel.
  - done.
Qed.

(** After an answer: done, and clean again if it may be sent again. *)
Definition answered (w0 : World W R) (resp : CompoundResponse) (w : World W R) : Prop :=
  kept w0 w ∧ (response_allows_delayed_retry operations resp = true → Clean (env_net (env w))).

Lemma answered_move w0 resp w w' :
  answered w0 resp w → world_inv w' → world_move w w' → answered w0 resp w'.
Proof.
  intros [Hk Hc] Hw' Hm. split; [by eapply kept_move|]. intros Ha.
  eapply clean_moves; [done|apply Hm|by apply Hc].
Qed.

(** A tame part of the loop body. *)
Lemma post_answered {A} w0 resp w (m : M (World W R) Error A) :
  Tame world_inv world_move m → answered w0 resp w →
  post m w (λ _ w', answered w0 resp w') (λ _ w', kept w0 w').
Proof.
  intros Hm Ha. eapply post_mono; [apply (Hm w), Ha| |]; simpl.
  - intros a w' (_ & ? & ?). by eapply answered_move.
  - intros e w' (? & ?). by eapply kept_move; [apply Ha|..].
Qed.

Lemma post_kept {A} w0 w (m : M (World W R) Error A) :
  Tame world_inv world_move m → kept w0 w → post m w (λ _ w', kept w0 w') (λ _ w', kept w0 w').
Proof.
  intros Hm Ha. eapply post_mono; [apply (Hm w), Ha| |]; simpl.
  - intros a w' (_ & ? & ?). by eapply kept_move.
  - intros e w' (? & ?). by eapply kept_move.
Qed.

(** The loop variables and the state at the head of the loop. *)
Definition loop_inv (w0 : World W R) (l : Z * bool) (w : World W R) : Prop :=
  0 ≤ l.1 ≤ u32_max ∧ world_inv w ∧ world_keep w0 w ∧ Clean (env_net (env w)).
Definition loop_measure (l : Z * bool) : Z := (u32_max - l.1) + (if l.2 then 0 else 1).

(** What a turn of the loop may do. *)
Definition turn_ok (w0 : World W R) (l : Z * bool) (r : Z * bool + CompoundResponse) (w : World W R) : Prop :=
  match r with
  | inl l' => loop_inv w0 l' w ∧ loop_measure l' < loop_measure l
  | inr resp => kept w0 w ∧ answers operations resp
  end.

(** Going round after a recovery. *)
Lemma post_replay w0 retry w (err : Error) :
  0 ≤ retry ≤ u32_max → kept w0 w →
  post (if operations_can_replay_after_session_recovery operations
        then continue_ (retry, true) else throw err) w
    (turn_ok w0 (retry, false)) (λ _ w', kept w0 w').
Proof.
  intros Hr Hk. destruct (operations_can_replay_after_session_recovery operations) eqn:E; [|by apply post_throw].
  apply post_ret. split; [|unfold loop_measure; simpl; lia]. destruct Hk as (? & ? & ?).
  split_and!; simpl; try done; try lia. by apply replay_clean.
Qed.

(** The turn after a transport failure. *)
Lemma post_turn_failed w0 retry recovered_session err w :
  0 ≤ retry ≤ u32_max → kept w0 w →
  post (if is_transport_failure err && negb recovered_session then
          update (Client.with_recovery_pending true) ;;
          recovery ← attempt recover_session;
          match recovery with
          | inr recovery => throw (cleanup_error err "NFSv4 session recovery" (inr recovery))
          | inl _ => if operations_can_replay_after_session_recovery operations
                     then continue_ (retry, true) else throw err
          end
        else throw err) w (turn_ok w0 (retry, recovered_session)) (λ _ w', kept w0 w').
Proof.
  intros Hr Hk. destruct (is_transport_failure err); [|by apply post_throw].
  destruct recovered_session; [by apply post_throw|]. cbn [andb negb].
  apply post_bind. eapply post_mono; [apply (post_kept w0 w); [apply tame_pending|exact Hk]| |done]. intros ? w1 H1.
  apply post_bind, post_attempt. eapply post_mono; [apply (post_kept w0 w1); [apply tame_recover_session|exact H1]| |].
  - intros [] w2 H2. by apply post_replay.
  - intros e w2 H2. by apply post_throw.
Qed.

(** The turn after an answer. *)
Lemma post_turn_answered w0 retry recovered_session resp w :
  0 ≤ retry ≤ u32_max → answered w0 resp w →
  answers operations resp →
  post (if response_requires_session_recovery resp && negb recovered_session then
          recover_session ;;
          if operations_can_replay_after_session_recovery operations
          then continue_ (retry, true) else throw (session_recovery_error resp)
        else
          policy ← field Client.retry_policy;
          match response_allows_delayed_retry operations resp, delay_for_retry policy retry with
          | true, Some delay => on_env (thread_sleep delay) ;; continue_ (retry + 1, recovered_session)
          | _, _ => break_ resp
          end) w (turn_ok w0 (retry, recovered_session)) (λ _ w', kept w0 w').
Proof.
  intros Hr Ha Hs.
  destruct (response_requires_session_recovery resp && negb recovered_session) eqn:Hrec.
  - apply andb_true_iff in Hrec as [_ Hrec%negb_true_iff]. subst recovered_session.
    apply post_bind. eapply post_mono; [apply (post_kept w0 w); [apply tame_recover_session|apply Ha]| |done].
    intros ? w1 H1. by apply post_replay.
  - apply post_bind, post_gets. destruct Ha as [Hk Hc].
    destruct (response_allows_delayed_retry operations resp) eqn:Hallow; [|by apply post_ret].
    destruct (delay_for_retry _ retry) as [d|] eqn:Hd; [|by apply post_ret].
    apply post_bind. assert (world_inv w) as Hw by apply Hk.
    eapply post_mono; [apply (tame_on_env (thread_sleep d) (tame_sleep d) w Hw)| |].
    2: { intros err w1 [? ?]. eapply kept_move; [done|done|by apply world_step_move]. }
    intros _ w1 (_ & Hw1 & Hm1%world_step_move). apply post_ret.
    assert (retry < u32_max).
    { eapply (policy_retry_max (Client.retry_policy (client w))); [|lia|done].
      rewrite (inv_policy _ (proj1 Hw)). apply (inv_builder _ (proj1 Hw)). }
    split; [|unfold loop_measure; simpl; lia]. split_and!; simpl; [lia|lia|done| |].
    + by eapply kept_move.
    + eapply clean_moves; [done|apply Hm1|by apply Hc].
Qed.

Lemma post_bind_assoc {S E A B C} (m1 : M S E A) (m2 : A → M S E B) (k : B → M S E C) s Q X :
  post (m1 ≫= m2) s (λ b s', post (k b) s' Q X) X → post (a ← m1; b ← m2 a; k b) s Q X.
Proof.
  unfold post, mbind, M_bind. destruct (m1 s) as [s1 [a|e|f]]; [|done|done].
  destruct (m2 a s1) as [s2 [b|e|f]]; done.
Qed.

Lemma post_compound_step w0 l w :
  loop_inv w0 l w →
  post (compound_status_step operations l) w (turn_ok w0 l) (λ _ w', kept w0 w').
Proof.
  destruct l as [retry recovered_session]. intros (Hr & Hw & Hk & Hc). cbn [fst] in Hr.
  unfold compound_status_step. apply post_bind_assoc.
  eapply post_mono; [by apply (post_main_send w0)| |done].
  intros [resp|err] w1 (H1 & _ & H2); [|by apply post_turn_failed].
  destruct H2 as [Hs Hclean]. assert (answered w0 resp w1) as Ha by done.
  apply post_bind. eapply post_mono; [apply (post_answered w0 resp w1); [apply tames_move, tame_advance_sequence|exact Ha]| |done].
  intros ? w2 Ha2. apply post_bind.
  eapply post_mono; [apply (post_answered w0 resp w2); [|exact Ha2]| |done].
  - destruct (response_revoked_lock_status resp); [|apply tame_ret, _].
    apply tame_bind; [apply _|apply tames_move, tame_check_revoked|]. intros _. apply tames_move, tame_ensure_locks.
  - intros ? w3 Ha3. by apply post_turn_answered.
Qed.

(** A COMPOUND ends, whatever the server does, and keeps the client well-formed. *)
Lemma post_compound_status w :
  world_inv w → Clean (env_net (env w)) →
  post (compound_status operations) w
    (λ resp w', kept w w'
       ∧ answers operations resp)
    (λ _ w', kept w w').
Proof.
  intros Hw Hc.
  assert (∀ w', world_inv w' → world_move w w' → Clean (env_net (env w'))) as Hclean.
  { intros w' _ Hm. eapply clean_moves; [done|apply Hm|done]. }
  assert (∀ w', world_inv w' → world_move w w' → kept w w') as Hkept.
  { intros w' Hw' Hm. split_and!; [done| |by apply clean_done, Hclean]. destruct Hm as ([_ ?] & ? & ?). by split_and!. }
  apply post_operation_count; [|intros err; apply Hkept; [done|reflexivity]].
  apply post_bind. eapply post_mono; [by apply post_check_lease| |intros err w1 []; by apply Hkept].
  intros _ w1 (Hw1 & Hm1 & _). apply post_bind, post_gets, post_bind.
  eapply post_mono with (Q := λ _ w2, world_inv w2 ∧ world_move w w2) (X := λ _ w2, world_inv w2 ∧ world_move w w2).
  - destruct (Client.recovery_pending (client w1)); [|by apply post_ret].
    apply post_bind. eapply post_mono; [by apply tame_recover_session| |].
    + intros _ w2 (_ & Hw2 & Hm2). case_match; [apply post_ret|apply post_throw]; (split; [done|by etrans]).
    + intros err w2 (Hw2 & Hm2). split; [done|by etrans].
  - intros _ w2 [Hw2 Hm2]. apply post_bind.
    eapply post_mono; [by apply tame_ensure_locks| |].
    2: { intros err w3 [? Hm3%world_step_move]. apply Hkept; [done|by etrans]. }
    intros _ w3 (_ & Hw3 & Hm3%world_step_move).
    assert (world_move w w3) as Hm by (by etrans).
    apply (post_loop (loop_inv w) (λ l _, loop_measure l)).
    + intros [r b] s (? & _). unfold loop_measure. simpl in *. destruct b; lia.
    + intros l s Hl. by apply post_compound_step.
    + split_and!; [done..|by apply Hkept|by apply Hclean].
    + by vm_compute.
  - intros err w2 [Hw2 Hm2]. by apply Hkept.
Qed.

End compound_status.
(** ** Connecting *)

Section all_moves.
Context (moves_main : ∀ minor_version operations n r,
  N n (rpc_compound main_tag minor_version operations (n, r)).1.1).

Lemma tames_compound_status operations :
  tames world_inv world_move (compound_status operations)
    (λ resp, answers operations resp).
Proof.
  intros w Hw. set (P := λ n, N (env_net (env w)) n).
  assert (retry_spec operations P P) as HR.
  { split; unfold P; [done|by intros; etrans|by intros; etrans| | |done].
    - intros v sq n r Hn. etrans; [exact Hn|apply moves_main].
    - intros v sq n r resp Hn _ _ _. etrans; [exact Hn|apply moves_main]. }
  assert (∀ w', kept P w w' → world_inv w' ∧ world_move w w') as Hk.
  { intros w' (Hw' & (? & ? & ?) & HN). split; [done|]. by split_and!. }
  eapply post_mono; [apply (post_compound_status operations P P HR w Hw); unfold P; reflexivity| |].
  - intros resp w' [Hkept Hs]. split; [done|]. by apply Hk.
  - intros err w' Hkept. by apply Hk.
Qed.

#[export] Instance tame_compound operations : Tame world_inv world_move (compound operations).
Proof.
  unfold compound. eapply tame_bind_val; [apply _|apply tames_compound_status|]. intros resp _.
  apply tame_bind; [apply _|apply tame_lift; [apply _|apply ensure_ok_safe]|]. intros _. apply tame_ret, _.
Qed.

Lemma tame_path_ops path tail : Tame world_inv world_move (lift (path_ops path tail)).
Proof.
  apply tame_lift; [apply _|]. unfold path_ops. apply fault_free_bind; [apply path_components_safe|]. by intros.
Qed.

Ltac move_leaf := first [ apply tame_compound | apply tame_path_ops | apply tames_move; tame_leaf ].

#[export] Instance tame_supported_attrs path : Tame world_inv world_move (supported_attrs path).
Proof. unfold supported_attrs. repeat (apply tame_bind; [apply _|move_leaf|intros ?]). move_leaf. Qed.

#[export] Instance tame_fsinfo path : Tame world_inv world_move (fsinfo path).
Proof.
  unfold fsinfo, get_supported_attr_values, supported_attr_request.
  apply tame_bind; [apply _| |intros ?; move_leaf].
  apply tame_bind; [apply _|apply tame_bind; [apply _|apply tame_supported_attrs|intros ?; move_leaf]|intros ?].
  case_match; [move_leaf|]. repeat (apply tame_bind; [apply _|move_leaf|intros ?]). move_leaf.
Qed.

Lemma tame_prepare : Tame world_inv world_move prepare.
Proof.
  assert (∀ context m, Tame world_inv world_move m → Tame world_inv world_move (or_shutdown context m)) as Hor.
  { intros context m Hm. apply tame_bind; [apply _|by apply tame_attempt|]. intros [[]|err]; [apply tame_ret, _|].
    apply tame_bind; [apply _|apply tame_attempt, tames_move, tame_shutdown|]. intros r. apply tame_throw, _. }
  apply tame_bind; [apply _|apply Hor|intros _; apply Hor, tames_move, tame_start_lease].
  apply tame_bind; [apply _|apply tame_fsinfo|]. intros f.
  apply tame_bind; [apply _|apply tames_move, tame_apply_fsinfo|]. intros _. apply tames_move, tame_with_root_fsinfo.
Qed.

(** A connected client is well-formed. *)
Lemma tames_connect_with_builder b :
  builder_typed b → tames env_inv env_step (connect_with_builder b) (λ c, client_inv c ∧ Client.builder c = b).
Proof.
  intros Hb. eapply tames_bind; [apply _|by apply tames_connect_session|]. intros c [(Hc & Hl & Hcb & _) _].
  intros e _. assert (world_inv (mkWorld e c)) as Hw.
  { split; [done|]. simpl. rewrite Hl. apply registry_ok_default. }
  pose proof (tame_prepare _ Hw) as Hp. apply post_bind. unfold post, with_client in *.
  destruct (prepare (mkWorld e c)) as [[e' c'] [[]|err|f]]; [| |done].
  - destruct Hp as (_ & [Hc' _] & (He & _ & Hb')). simpl in *. split_and!; [done|congruence|done|done].
  - destruct Hp as (_ & (He & _ & _)). by split.
Qed.

End all_moves.
End any_server.
