(* ===== verification/V4Trace.v ===== *)
(** * What a session client sends

    A network that records every COMPOUND with its answer, over any network.
    Read off the record, for every server: an operation that changes state is
    executed at most once per call, however often the COMPOUND is sent again;
    a setup that fails leaves no session it knows of behind. *)

From Stdlib Require Import Strings.String Strings.Byte.
From S2P Require Import Prelude Text Xdr Status Errors Rpc V3Client V3ClientSpec V3BlockingSpec Tame.
From S2P Require Import V4Attr V4Ops V4Results V4Client V4ClientSpec V4Extract V4Session V4SessionSpec.
Import LockRegistry (LockRegistry).
Import Operation (Operation).
Import OperationResult (OperationResult).
Import CompoundResponse (CompoundResponse).
Import ClientBuilder (ClientBuilder).
Import Client (Client).

#[local] Open Scope Z_scope.

(** A COMPOUND with its answer, if one came. *)
Record entry := mkEntry {
  entry_tag : str;
  entry_operations : list Operation;
  entry_response : option CompoundResponse;
}.

Definition answer_of (o : outcome Error CompoundResponse) : option CompoundResponse :=
  match o with Ok r => Some r | _ => None end.

Section logged.
Context {W R : Type} `{!Nfs4Rpc W R, !Nfs4Net W R}.

Definition unlogged {E A} (m : M W E A) : M (W * list entry) E A := zoom fst (λ n s, (n, s.2)) m.

#[export] Instance logged_rpc : Nfs4Rpc (W * list entry) R := {
  rpc_compound tag minor_version operations := λ s,
    let '((n, r), o) := rpc_compound tag minor_version operations (s.1.1, s.2) in
    ((n, s.1.2 ++ [mkEntry tag operations (answer_of o)]), r, o);
  rpc_set_max_record_size := rpc_set_max_record_size (W := W);
}.

#[export] Instance logged_net : Nfs4Net (W * list entry) R := {
  net_rpc_connect builder := unlogged (net_rpc_connect builder);
  lease_start interval c := unlogged (lease_start interval c);
  lease_failed thread := unlogged (lease_failed thread);
  lease_stop thread := unlogged (lease_stop thread);
  net_sleep delay := unlogged (net_sleep delay);
}.

Lemma unlogged_safe {A} (m : M W Error A) n : fault_free (m n.1).2 → fault_free (unlogged m n).2.
Proof. intros Hm. unfold unlogged, zoom. by destruct (m n.1) as [n' o]. Qed.

#[export] Instance logged_laws : Nfs4Laws W R → Nfs4Laws (W * list entry) R.
Proof.
  intros HL. refine {| conn_ok := conn_ok (W := W) |}.
  - intros tag v ops [n log] r Hr. pose proof (law_compound tag v ops n r Hr) as Hl.
    unfold post in *. simpl. by destruct (rpc_compound tag v ops (n, r)) as [[n' r'] [a|e|f]].
  - intros size r Hs Hr. exact (law_set_max (W := W) size r Hs Hr).
  - intros b [n log]. pose proof (law_connect b n) as Hl. unfold post in *. simpl. unfold unlogged, zoom. simpl.
    by destruct (net_rpc_connect b n) as [n' [a|e|f]].
  - intros i c n. apply unlogged_safe, law_lease_start.
  - intros t n. apply unlogged_safe, law_lease_failed.
  - intros t n. apply unlogged_safe, law_lease_stop.
  - intros d [n log]. cbn. unfold unlogged, zoom. cbn. by rewrite law_sleep.
Defined.

(** The record grows, by no COMPOUND of the application. *)
Definition grows_quietly (n n' : W * list entry) : Prop :=
  ∃ L, n'.2 = n.2 ++ L ∧ Forall (λ e, entry_tag e ≠ main_tag) L.

Lemma grows_quietly_refl n : grows_quietly n n.
Proof. exists []. by rewrite app_nil_r. Qed.

Lemma unlogged_quiet {A} (m : M W Error A) n : grows_quietly n (unlogged m n).1.
Proof. unfold unlogged, zoom. destruct (m n.1) as [n' o]. exists []. by rewrite app_nil_r. Qed.

#[export] Instance logged_moves : Moves grows_quietly.
Proof.
  split.
  - split; [intros n; apply grows_quietly_refl|]. intros n1 n2 n3 (L1 & E1 & H1) (L2 & E2 & H2).
    exists (L1 ++ L2). by rewrite E2, E1, app_assoc, Forall_app.
  - intros tag v ops [n log] r Htag. simpl. destruct (rpc_compound tag v ops (n, r)) as [[n' r'] o]. simpl.
    exists [mkEntry tag ops (answer_of o)]. split; [done|]. by constructor.
  - intros; apply unlogged_quiet.
  - intros; apply unlogged_quiet.
  - intros; apply unlogged_quiet.
  - intros; apply unlogged_quiet.
Qed.

End logged.

(** ** At most once *)

(** The server has, or may have, completed operation [k] of the COMPOUND. *)
Definition may_have_executed (k : nat) (e : entry) : bool :=
  match entry_response e with
  | None => true
  | Some response =>
      match CompoundResponse.results response !! S k with
      | Some r => Status.is_ok (OperationResult.status r)
      | None => false
      end
  end.

(** How often operation [k] may have been executed. *)
Definition executions (k : nat) (L : list entry) : nat :=
  length (filter (λ e, entry_tag e = main_tag ∧ may_have_executed k e = true) L).

(** The COMPOUNDs of the application in [L] are the operations behind a SEQUENCE. *)
Definition carries (operations : list Operation) (L : list entry) : Prop :=
  Forall (λ e, entry_tag e = main_tag → ∃ s, entry_operations e = Operation.Sequence s :: operations) L.

Lemma executions_app k L1 L2 : executions k (L1 ++ L2) = (executions k L1 + executions k L2)%nat.
Proof. unfold executions. by rewrite list.filter_app, length_app. Qed.

Lemma executions_quiet k L : Forall (λ e, entry_tag e ≠ main_tag) L → executions k L = 0%nat.
Proof.
  unfold executions. induction 1 as [|e L He _ IH]; [done|]. rewrite filter_cons_False; [done|naive_solver].
Qed.

Lemma executions_one k e : (executions k [e] ≤ 1)%nat.
Proof. unfold executions. rewrite filter_cons. case_decide; simpl; lia. Qed.

Lemma carries_quiet operations L : Forall (λ e, entry_tag e ≠ main_tag) L → carries operations L.
Proof. intros H. eapply list.Forall_impl; [exact H|]. naive_solver. Qed.

(** No COMPOUND of the application was sent once operation [k] may have been executed. *)
Definition unsent_after (k : nat) (L : list entry) : Prop :=
  ∀ L1 e L2, L = L1 ++ e :: L2 → entry_tag e = main_tag → executions k L1 = 0%nat.

Lemma unsent_after_app k L L' :
  unsent_after k L → (∀ L1 e L2, L' = L1 ++ e :: L2 → entry_tag e = main_tag → executions k (L ++ L1) = 0%nat) →
  unsent_after k (L ++ L').
Proof.
  intros HL HL' L1 e L2 E He. apply app_eq_inv in E as [(K & -> & E)|(K & -> & E)].
  - destruct K as [|e' K]; simplify_eq/=; [|by eapply HL]. rewrite app_nil_r in *.
    rewrite <- (app_nil_r L1). by eapply (HL' [] e L2).
  - by eapply HL'.
Qed.

Lemma unsent_after_quiet k L L' :
  unsent_after k L → Forall (λ e, entry_tag e ≠ main_tag) L' → unsent_after k (L ++ L').
Proof.
  intros HL Hq. apply unsent_after_app; [done|]. intros L1 e L2 ->.
  apply list.Forall_app in Hq as [_ [? _]%list.Forall_cons]. done.
Qed.

Lemma unsent_after_send k L e : unsent_after k L → executions k L = 0%nat → unsent_after k (L ++ [e]).
Proof.
  intros HL H0. apply unsent_after_app; [done|]. intros [|e1 L1] e2 L2 E; simplify_eq/=; [by rewrite app_nil_r|].
  by destruct L1.
Qed.

Section at_most_once.
Context {W R : Type} `{!Nfs4Rpc W R, !Nfs4Net W R, !Nfs4Laws W R}.
Context (operations : list Operation).

(** Since [log0], no operation that must not be repeated was executed more
    than [bound] times, and none was sent again once it may have been. *)
Definition executed_upto (bound : nat) (log0 : list entry) (n : W * list entry) : Prop :=
  ∃ L, n.2 = log0 ++ L ∧ carries operations L
    ∧ ∀ k op, operations !! k = Some op → operation_can_replay_after_successful_prefix op = false →
        (executions k L ≤ bound)%nat ∧ unsent_after k L.

Lemma executed_upto_quiet bound log0 n n' :
  grows_quietly n n' → executed_upto bound log0 n → executed_upto bound log0 n'.
Proof.
  intros (L' & E' & Hq) (L & E & Hc & Hb). exists (L ++ L'). split_and!.
  - by rewrite E', E, app_assoc.
  - apply Forall_app. split; [done|by apply carries_quiet].
  - intros k op Hop Hr. rewrite executions_app, (executions_quiet _ _ Hq). destruct (Hb k op Hop Hr) as [Hb1 Hb2].
    split; [lia|by apply unsent_after_quiet].
Qed.

Lemma executed_upto_mono b1 b2 log0 n : (b1 ≤ b2)%nat → executed_upto b1 log0 n → executed_upto b2 log0 n.
Proof.
  intros Hle (L & E & Hc & Hb). exists L. split_and!; [done|done|]. intros k op Hop Hr.
  destruct (Hb k op Hop Hr). split; [lia|done].
Qed.

(** One more COMPOUND. *)
Lemma executed_upto_send b log0 n s answer n' :
  executed_upto 0 log0 n →
  (∀ k op, operations !! k = Some op → operation_can_replay_after_successful_prefix op = false →
     (executions k [mkEntry main_tag (Operation.Sequence s :: operations) answer] ≤ b)%nat) →
  executed_upto b log0 (n', n.2 ++ [mkEntry main_tag (Operation.Sequence s :: operations) answer]).
Proof.
  intros (L & E & Hc & Hb) Hone.
  exists (L ++ [mkEntry main_tag (Operation.Sequence s :: operations) answer]). split_and!.
  - simpl. by rewrite E, app_assoc.
  - apply Forall_app. split; [done|]. constructor; [|done]. intros _. by exists s.
  - intros k op Hop Hr. rewrite executions_app. destruct (Hb k op Hop Hr). specialize (Hone k op Hop Hr).
    split; [lia|]. apply unsent_after_send; [done|lia].
Qed.

(** An answer that allows a delayed retry executed nothing of that kind. *)
Lemma delayed_executes_nothing s resp k op :
  well_shaped main_tag (OpCode.Sequence :: (Operation.op_code <$> operations)) resp →
  response_allows_delayed_retry operations resp = true →
  operations !! k = Some op → operation_can_replay_after_successful_prefix op = false →
  executions k [mkEntry main_tag (Operation.Sequence s :: operations) (Some resp)] = 0%nat.
Proof.
  intros Hs Ha Hop Hr. unfold executions. rewrite filter_cons_False; [done|].
  intros [_ He]. unfold may_have_executed in He. simpl in He.
  destruct (CompoundResponse.results resp !! S k) as [r|] eqn:E; [|done]. apply is_ok_spec in He.
  rewrite (delayed_retry_replayable _ _ _ k op Hs Ha Hop) in Hr; [done|]. by exists r.
Qed.

Lemma at_most_once_spec log0 :
  retry_spec (W := W * list entry) (R := R) grows_quietly operations
    (executed_upto 0 log0) (executed_upto 1 log0).
Proof.
  split.
  - intros n. apply executed_upto_mono. lia.
  - intros n n'. apply executed_upto_quiet.
  - intros n n'. apply executed_upto_quiet.
  - intros v s [n log] r Hc. simpl.
    destruct (rpc_compound main_tag v _ (n, r)) as [[n' r'] o]. simpl.
    apply (executed_upto_send 1 log0 (n, log)); [done|]. intros. apply executions_one.
  - intros v s [n log] r resp Hc. simpl.
    destruct (rpc_compound main_tag v _ (n, r)) as [[n' r'] o]. simpl. intros -> Hs Ha.
    apply (executed_upto_send 0 log0 (n, log)); [done|]. intros k op Hop Hr.
    by rewrite (delayed_executes_nothing _ _ _ _ Hs Ha Hop Hr).
  - intros n Hall (L & E & Hc & Hb). exists L. split_and!; [done|done|]. intros k op Hop Hr.
    apply list_elem_of_lookup_2, list_elem_of_In in Hop. unfold operations_can_replay_after_session_recovery in Hall.
    rewrite forallb_forall in Hall. apply Hall, replay_implies_repeat in Hop. congruence.
Qed.

(** A call executes every operation that changes state at most once. *)
Lemma post_at_most_once (w : World (W * list entry) R) :
  world_inv w →
  post (compound_status operations) w
    (λ _ w', executed_upto 1 (env_net (env w)).2 (env_net (env w')))
    (λ _ w', executed_upto 1 (env_net (env w)).2 (env_net (env w'))).
Proof.
  intros Hw. eapply post_mono;
    [apply (post_compound_status grows_quietly operations _ _ (at_most_once_spec (env_net (env w)).2) w Hw)| |].
  - exists []. rewrite app_nil_r. split_and!; [done|constructor|]. intros k op _ _. split; [done|]. by intros [|].
  - intros resp w' [(_ & _ & Hd) _]. done.
  - intros err w' (_ & _ & Hd). done.
Qed.

End at_most_once.

(** ** Sessions a setup leaves behind *)

(** The session an answered CREATE_SESSION made. *)
Definition created (e : entry) : option (list byte) :=
  match entry_operations e, entry_response e with
  | [Operation.CreateSession _], Some response =>
      match _ ← CompoundResponse.ensure_ok response; response_create_session response with
      | Ok session => Some (CreateSessionResult.session_id session)
      | _ => None
      end
  | _, _ => None
  end.

(** The session a DESTROY_SESSION is for. *)
Definition destroys (e : entry) : option (list byte) :=
  match entry_operations e with
  | [Operation.DestroySession session_id] => Some session_id
  | _ => None
  end.

(** The sessions that are known and not asked to be destroyed. *)
Definition after_entry (open : list (list byte)) (e : entry) : list (list byte) :=
  match created e, destroys e with
  | Some id, _ => open ++ [id]
  | None, Some id => filter (λ i, i ≠ id) open
  | None, None => open
  end.
Definition open_sessions (open : list (list byte)) (L : list entry) : list (list byte) :=
  fold_left after_entry L open.

Lemma open_sessions_app open L1 L2 : open_sessions open (L1 ++ L2) = open_sessions (open_sessions open L1) L2.
Proof. apply fold_left_app. Qed.

Lemma open_sessions_neutral open L :
  Forall (λ e, created e = None ∧ destroys e = None) L → open_sessions open L = open.
Proof.
  induction 1 as [|e L [Hc Hd] _ IH]; [done|]. simpl. fold (after_entry open e).
  replace (after_entry open e) with open; [done|]. unfold after_entry. by rewrite Hc, Hd.
Qed.

Section sessions.
Context {W R : Type} `{!Nfs4Rpc W R, !Nfs4Net W R, !Nfs4Laws W R}.

(** Since [log0], the sessions [open] were made and are still there. *)
Definition sessions_since (log0 : list entry) (open : list (list byte)) (e : Env (W * list entry)) : Prop :=
  ∃ L, (env_net e).2 = log0 ++ L ∧ open_sessions [] L = open.

Lemma sessions_since_send log0 open e n en e' :
  sessions_since log0 open e → env_net e' = (n, (env_net e).2 ++ [en]) →
  sessions_since log0 (after_entry open en) e'.
Proof.
  intros (L & E & Ho) En. exists (L ++ [en]). rewrite En, E. simpl.
  by rewrite open_sessions_app, Ho, app_assoc.
Qed.

Lemma sessions_since_net log0 open e e' :
  sessions_since log0 open e → (env_net e').2 = (env_net e).2 → sessions_since log0 open e'.
Proof. intros (L & E & Ho) En. exists L. by rewrite En. Qed.

Abbreviation Conn := (R * Env (W * list entry))%type.
Definition has (log0 : list entry) (open : list (list byte)) (s : Conn) : Prop :=
  conn_ok s.1 ∧ sessions_since log0 open s.2.

(** One COMPOUND. *)
Lemma post_log_compound log0 open tag minor_version operations (s : Conn) :
  has log0 open s →
  post (on_conn (rpc_compound tag minor_version operations)) s
    (λ resp s', has log0 (after_entry open (mkEntry tag operations (Some resp))) s')
    (λ _ s', has log0 (after_entry open (mkEntry tag operations None)) s').
Proof.
  destruct s as [r e]. intros [Hr Ho]. simpl in *.
  pose proof (law_compound tag minor_version operations (env_net e).1 r Hr) as Hl.
  unfold post, on_conn, zoom in *. simpl. destruct (env_net e) as [n log] eqn:En. simpl in *.
  destruct (rpc_compound tag minor_version operations (n, r)) as [[n' r'] [resp|err|f]]; [| |done]; simpl in *;
    (split; [apply Hl|eapply sessions_since_send; [exact Ho|simpl; by rewrite En]]).
Qed.

(** COMPOUNDs that neither create nor destroy a session. *)
Definition neutral (operations : list Operation) : Prop :=
  ∀ tag answer, created (mkEntry tag operations answer) = None ∧ destroys (mkEntry tag operations answer) = None.

Lemma post_log_neutral log0 open tag minor_version operations (s : Conn) :
  neutral operations → has log0 open s →
  post (on_conn (rpc_compound tag minor_version operations)) s
    (λ _ s', has log0 open s') (λ _ s', has log0 open s').
Proof.
  intros Hn Hs. eapply post_mono; [exact (post_log_compound _ _ _ _ _ _ Hs)| |].
  - intros resp s'. unfold after_entry. destruct (Hn tag (Some resp)) as [-> ->]. done.
  - intros err s'. unfold after_entry. destruct (Hn tag None) as [-> ->]. done.
Qed.

Lemma post_log_sleep {E} log0 open d (s : Conn) Q (X : E → Conn → Prop) :
  has log0 open s → (∀ s', has log0 open s' → Q tt s') → post (on_snd (thread_sleep d)) s Q X.
Proof.
  intros [Hr Ho] HQ. unfold post, on_snd, zoom. rewrite thread_sleep_run. apply HQ. split; [done|].
  exact (sessions_since_net _ _ _ _ Ho eq_refl).
Qed.

(** A setup call with its delayed retries: only the last answer can have made
    a session. *)
Lemma post_log_retry log0 open tag minor_version operations policy (s : Conn) :
  policy_ok policy → has log0 open s →
  (∀ resp, response_allows_delayed_retry_without_sequence operations resp = true →
     after_entry open (mkEntry tag operations (Some resp)) = open) →
  after_entry open (mkEntry tag operations None) = open →
  post (raw_compound_with_delayed_retry tag minor_version operations policy) s
    (λ resp s', has log0 (after_entry open (mkEntry tag operations (Some resp))) s') (λ _ s', has log0 open s').
Proof.
  intros Hp Hs Hdelayed Hnone.
  apply (post_loop (λ retry s, 0 ≤ retry ≤ u32_max ∧ has log0 open s) (λ retry _, u32_max - retry)); [naive_solver lia| |done|by vm_compute].
  intros retry s1 [Hretry Hs1]. unfold raw_compound_with_delayed_retry_step. apply post_bind.
  eapply post_mono; [exact (post_log_compound _ _ _ _ _ _ Hs1)| |by rewrite Hnone]. intros resp s2 Hs2.
  destruct (response_allows_delayed_retry_without_sequence operations resp) eqn:Ha; [|by apply post_ret].
  destruct (delay_for_retry policy retry) as [d|] eqn:Hd; [|by apply post_ret].
  specialize (Hdelayed _ Ha). cbv beta in Hs2. rewrite Hdelayed in Hs2. apply post_bind. eapply post_log_sleep; [exact Hs2|]. intros s3 Hs3.
  apply post_ret. pose proof (policy_retry_max policy retry d Hp ltac:(lia) Hd). split; [|lia]. split; [lia|done].
Qed.


(** A CREATE_SESSION answer that asks for a delay made no session. *)
Lemma delayed_creates_nothing args tag resp :
  response_allows_delayed_retry_without_sequence [Operation.CreateSession args] resp = true →
  created (mkEntry tag [Operation.CreateSession args] (Some resp)) = None.
Proof.
  unfold response_allows_delayed_retry_without_sequence, response_allows_delayed_retry_after_leading_results,
    first_delayed_retry_result_index, created. simpl.
  destruct (CompoundResponse.results resp) as [|r l] eqn:E.
  { simpl. intros _. destruct (CompoundResponse.ensure_ok resp); simpl; [|done..].
    unfold response_create_session. by rewrite E. }
  simpl. destruct (status_allows_delayed_retry (OperationResult.status r)) eqn:Hd; simpl.
  - intros _. destruct (CompoundResponse.ensure_ok resp); simpl; [|done..].
    unfold response_create_session. rewrite E. simpl. destruct r; try done. destruct result; [|done].
    by destruct status.
  - by destruct (position _ l).
Qed.

(** What was set up is destroyed when the rest of the setup fails. *)
Lemma post_log_or_destroy {A} log0 minor_version id (m : M Conn Error A) (s : Conn) (Q : A → Prop) :
  has log0 [id] s →
  (∀ s, has log0 [id] s → post m s (λ a s', Q a ∧ has log0 [id] s') (λ _ s', has log0 [id] s')) →
  post (or_destroy_session minor_version id m) s
    (λ a s', Q a ∧ has log0 [id] s') (λ _ s', has log0 [] s').
Proof.
  intros Hs Hm. apply post_bind, post_attempt. eapply post_mono; [by apply Hm|intros a s1 Hs1; by apply post_ret|].
  intros err s1 Hs1. cbv beta iota. apply post_bind, post_attempt.
  pose proof (post_log_compound log0 [id] (lit_bytes "destroy-session") minor_version
    [Operation.DestroySession id] s1 Hs1) as Hd.
  assert (Hgone : ∀ answer, after_entry [id]
      (mkEntry (lit_bytes "destroy-session") [Operation.DestroySession id] answer) = []).
  { intros answer. change (filter (λ i, i ≠ id) [id] = []). rewrite filter_cons_False; [done|]. naive_solver. }
  unfold post, on_conn, zoom, destroy_session_with_rpc, mbind, M_bind in *.
  destruct (rpc_compound _ _ _ (env_net s1.2, s1.1)) as [n [a|e|f]]; [|by rewrite Hgone in Hd|done]. unfold lift.
  rewrite Hgone in Hd.
  destruct (CompoundResponse.ensure_ok a) as [u|e|f] eqn:Ef; [done..|]. by destruct (ensure_ok_safe a f).
Qed.

Lemma post_log_lift {A} log0 open (o : outcome Error A) (s : Conn) (Q : A → Prop) :
  fault_free o → (∀ a, o = Ok a → Q a) → has log0 open s →
  post (lift o) s (λ a s', Q a ∧ has log0 open s') (λ _ s', has log0 open s').
Proof.
  intros Ho HQ Hs. apply post_lift. destruct o as [a|e|f]; [split; [by apply HQ|done]|done|by destruct (Ho f)].
Qed.

Lemma neutral_exchange args : neutral [Operation.ExchangeId args].
Proof. by intros tag answer. Qed.
Lemma neutral_two op1 op2 : neutral [op1; op2].
Proof. intros tag answer. by destruct op1. Qed.

Lemma after_neutral open tag operations answer :
  neutral operations → after_entry open (mkEntry tag operations answer) = open.
Proof. intros Hn. unfold after_entry. by destruct (Hn tag answer) as [-> ->]. Qed.

Lemma post_log_reclaim log0 open minor_version session_id sequence_id max_operations policy (s : Conn) :
  policy_ok policy → has log0 open s →
  post (reclaim_complete_with_delayed_retry minor_version session_id sequence_id max_operations policy) s
    (λ _ s', True ∧ has log0 open s') (λ _ s', has log0 open s').
Proof.
  intros Hp Hs. apply post_bind.
  eapply post_mono; [apply (post_log_lift log0 open _ s (λ _, True)); [eauto with fault_free|done..]| |done].
  intros _ s1 [_ Hs1].
  apply (post_loop (λ l s, 0 ≤ l.2 ≤ u32_max ∧ has log0 open s) (λ l _, u32_max - l.2));
    [naive_solver lia| |done|by vm_compute].
  intros [q retry] s2 [Hretry Hs2]. unfold reclaim_complete_step. apply post_bind.
  eapply post_mono; [exact (post_log_neutral log0 open _ _ _ _ (neutral_two _ _) Hs2)| |done].
  intros resp s3 Hs3. cbv beta zeta.
  destruct (response_allows_delayed_retry _ resp); [|by apply post_ret].
  destruct (delay_for_retry policy retry) as [d|] eqn:Hd; [|by apply post_ret].
  apply post_bind. eapply post_log_sleep; [exact Hs3|]. intros s4 Hs4. apply post_ret. simpl in *.
  pose proof (policy_retry_max policy retry d Hp ltac:(lia) Hd). split; [|lia]. split; [lia|done].
Qed.


Lemma post_log_set_max log0 open size (s : Conn) :
  0 < size ≤ isize_max → has log0 open s →
  post (on_conn (on_snd (rpc_set_max_record_size size))) s
    (λ _ s', has log0 open s') (λ _ s', has log0 open s').
Proof.
  destruct s as [r e]. intros Hs [Hr Ho]. pose proof (law_set_max size r Hs Hr) as Hl.
  unfold post, on_conn, on_snd, zoom in *. simpl in *.
  destruct (rpc_set_max_record_size _ _) as [r' [a|err|f]]; [| |done]; (split; [apply Hl|exact Ho]).
Qed.

(** A session is known from here on, or the setup ends. *)
Lemma post_log_created {A} log0 tag args resp (k : CreateSessionResult.CreateSessionResult → M Conn Error A) (s : Conn) Q :
  has log0 (after_entry [] (mkEntry tag [Operation.CreateSession args] (Some resp))) s →
  (∀ session, has log0 [CreateSessionResult.session_id session] s →
     post (k session) s Q (λ _ s', has log0 [] s')) →
  post (lift (CompoundResponse.ensure_ok resp) ;; session ← lift (response_create_session resp); k session) s
    Q (λ _ s', has log0 [] s').
Proof.
  unfold after_entry, created. simpl. intros Hs Hk. apply post_bind, post_lift.
  destruct (CompoundResponse.ensure_ok resp) as [u|e|f] eqn:E1; [|done|by destruct (ensure_ok_safe resp f)].
  apply post_bind, post_lift.
  destruct (response_create_session resp) as [session|e|f] eqn:E2; [by apply Hk|done|].
  by destruct (response_create_session_safe resp f).
Qed.

(** The sessions of a finished setup: none when it failed, the client's own
    when it did not. *)
Lemma post_log_setup log0 b minor_version complete (s : Conn) :
  builder_inv b → has log0 [] s →
  post (setup_session b minor_version complete) s
    (λ make s', has log0 [Client.session_id (make s'.1)] s') (λ _ s', has log0 [] s').
Proof.
  intros Hb Hs. pose proof (builder_policy_ok _ Hb) as Hp. unfold setup_session. apply post_bind.
  eapply post_mono; [apply (post_log_set_max log0 []); [apply record_size_ok; apply Hb|done]| |done].
  intros [] s1 Hs1. apply post_bind.
  eapply post_mono; [apply (post_log_retry log0 []); [done|done| |]; intros; apply after_neutral, neutral_exchange| |done].
  intros er s2. cbv beta. rewrite after_neutral by apply neutral_exchange. intros Hs2. apply post_bind.
  eapply post_mono; [apply (post_log_lift log0 [] _ s2 (λ _, True)); [apply ensure_ok_safe|done..]| |done].
  intros _ s3 [_ Hs3]. apply post_bind.
  eapply post_mono; [apply (post_log_lift log0 [] _ s3 (λ _, True)); [apply response_exchange_id_safe|done..]| |done].
  intros ex s4 [_ Hs4]. apply post_bind.
  eapply post_mono; [apply (post_log_retry log0 []); [done|done| |]| |done].
  { intros resp Hr. unfold after_entry. by rewrite delayed_creates_nothing. }
  { done. }
  intros sr s5 Hs5. cbv beta in Hs5. apply (post_log_created _ _ _ _ _ _ _ Hs5). intros session Hs6.
  cbv beta zeta. apply post_bind. eapply post_mono;
    [apply (post_log_or_destroy log0 _ _ _ _ (λ _, True) Hs6); intros; by apply post_log_lift; [apply channel_attrs_safe|..]| |done].
  intros _ s7 [_ Hs7]. apply post_bind. eapply post_mono;
    [apply (post_log_or_destroy log0 _ _ _ _ (λ _, True) Hs7); intros; by apply post_log_lift; [apply session_max_operations_safe|..]| |done].
  intros n s8 [_ Hs8]. apply post_bind. destruct complete; [|by do 2 apply post_ret].
  apply post_bind. eapply post_mono;
    [apply (post_log_or_destroy log0 _ _ _ _ (λ _, True) Hs8); intros; by apply post_log_reclaim| |done].
  intros [q rr] s9 [_ Hs9]. apply post_bind. eapply post_mono;
    [apply (post_log_or_destroy log0 _ _ _ _ (λ _, True) Hs9); intros; by apply post_log_lift; [apply ensure_reclaim_complete_safe|..]| |done].
  intros _ s10 [_ Hs10]. by do 2 apply post_ret.
Qed.

Abbreviation left_by log0 := (λ (c : Client R) e, sessions_since log0 [Client.session_id c] e).
Abbreviation leaves_none log0 := (λ (_ : Error) e, sessions_since log0 [] e).

Lemma post_log_minor log0 b minor_version complete (e : Env (W * list entry)) :
  builder_inv b → sessions_since log0 [] e →
  post (connect_session_minor b minor_version complete) e (left_by log0) (leaves_none log0).
Proof.
  intros Hb Ho. pose proof (law_connect b (env_net e)) as Hl. unfold connect_session_minor. apply post_bind.
  unfold post, on_net, zoom in *.
  assert (Hn : (net_rpc_connect b (env_net e)).1.2 = (env_net e).2).
  { simpl. unfold unlogged, zoom. by destruct (net_rpc_connect b (env_net e).1). }
  destruct (net_rpc_connect b (env_net e)) as [n [r|err|f]]; [| |done]; simpl in Hn.
  - pose proof (post_log_setup log0 b minor_version complete (r, set_net n e) Hb) as Hp.
    unfold post, own_connection in *. simpl. destruct (setup_session b minor_version complete _) as [[r' e'] o].
    assert (H0 : has log0 [] (r, set_net n e)) by (split; [done|by eapply sessions_since_net]).
    destruct o as [make|err|f]; [by apply Hp..|by apply Hp].
  - by eapply sessions_since_net.
Qed.

Lemma post_log_versions log0 b complete last versions (e : Env (W * list entry)) :
  builder_inv b → sessions_since log0 [] e →
  post (connect_minor_versions b complete last versions) e (left_by log0) (leaves_none log0).
Proof.
  intros Hb. revert last e. induction versions as [|v versions IH]; intros last e Ho; cbn [connect_minor_versions].
  - by apply post_throw.
  - apply post_bind, post_attempt. eapply post_mono; [by apply post_log_minor|intros c e1 Hc; by apply post_ret|].
    intros err e1 He1. destruct (is_minor_version_mismatch err); [by apply IH|by apply post_throw].
Qed.

(** Connecting leaves the session of the client it returns, and none when it
    fails. *)
Lemma post_no_session_left b complete (e : Env (W * list entry)) :
  builder_typed b →
  post (connect_session b complete) e (left_by (env_net e).2) (leaves_none (env_net e).2).
Proof.
  intros Hb. assert (Ho : sessions_since (env_net e).2 [] e) by (exists []; by rewrite app_nil_r).
  unfold connect_session. apply post_bind, post_lift.
  destruct (validate_builder b) as [[]|err|f] eqn:E; [|done|by destruct (validate_builder_safe b f)].
  apply post_log_versions; [|done]. by apply (validate_builder_Ok b E Hb).
Qed.

End sessions.
