(* ===== verification/V4Net.v ===== *)
(** * The NFSv4 session client over RPC connections

    [RpcClient_nfs4] (of [V4Session]) carries COMPOUNDs over an RPC connection.
    Every encoder of a request returns, every decoder of an answer is safe, and
    the shape of an answer is checked before it is used; so the connection
    satisfies the laws the session client relies on, for every transport and
    every network whose operations return (src/src/v4/blocking.rs,
    src/src/v4/proto.rs, src/src/rpc.rs). *)

From Stdlib Require Import Strings.String Strings.Byte.
From S2P Require Import Prelude Text Xdr XdrSpec Status Errors Rpc RpcSpec RpcClientSpec V3Wire V3CallsSpec.
From S2P Require Import V3BlockingSpec V3Connect V3ConnectNet Tame V4Attr V4AttrSpec V4Ops V4Results V4ResultsSpec.
From S2P Require Import V4Client V4ClientSpec V4Session V4SessionSpec.
Import Operation (Operation).
Import OperationResult (OperationResult).
Import CompoundResponse (CompoundResponse).
Import ClientBuilder (ClientBuilder).

#[local] Open Scope Z_scope.

(** ** Requests *)

Lemma enc_safe_each {A} (enc : A → M Encoder XdrError unit) l : (∀ a, EncSafe (enc a)) → EncSafe (write_each enc l).
Proof. intros H. induction l as [|a l IH]; [done|]. by apply enc_safe_seq. Qed.
Lemma enc_safe_array {A} (enc : A → M Encoder XdrError unit) l max :
  (∀ a, EncSafe (enc a)) → EncSafe (write_array enc l max).
Proof. intros H. apply enc_safe_seq; [apply _|by apply enc_safe_each]. Qed.
Lemma enc_safe_optional {A} (enc : A → M Encoder XdrError unit) o :
  (∀ a, EncSafe (enc a)) → EncSafe (write_optional enc o).
Proof. intros H. apply enc_safe_seq; [apply enc_safe_extend|]. destruct o; [apply H|done]. Qed.
Lemma enc_safe_validate t (k : M Encoder XdrError unit) :
  EncSafe k → EncSafe (lift (NfsTime.validate t) ;; k).
Proof.
  intros Hk. apply enc_safe_lift; [|done]. unfold NfsTime.validate, validate_nseconds. by case_match.
Qed.

(** Follow the code of an encoder into the encoders it uses. *)
Ltac enc4_solve :=
  lazymatch goal with
  | |- ∀ _, EncSafe _ => intros ?; enc4_solve
  | |- EncSafe (lift (NfsTime.validate _) ;; _) => apply enc_safe_validate; enc4_solve
  | |- EncSafe (_ ;; _) => apply enc_safe_seq; enc4_solve
  | |- EncSafe (mret _) => exact enc_safe_ret
  | |- EncSafe (extend_from_slice _) => apply enc_safe_extend
  | |- EncSafe (throw _) => apply enc_safe_throw
  | |- EncSafe (match _ with _ => _ end) => case_match; enc4_solve
  | |- EncSafe (write_array _ _ _) => apply enc_safe_array; enc4_solve
  | |- EncSafe (write_optional _ _) => apply enc_safe_optional; enc4_solve
  | |- EncSafe (write_opaque _ _) => apply enc_safe_write_opaque
  | |- EncSafe (write_fixed_opaque _) => apply enc_safe_write_fixed
  | |- EncSafe (?f _ _) => unfold f; enc4_solve
  | |- EncSafe (?f _) => unfold f; enc4_solve
  end.

#[export] Instance enc_safe_Operation op : EncSafe (Operation.encode op).
Proof. enc4_solve. Qed.
#[export] Instance enc_safe_CompoundArgs a : EncSafe (CompoundArgs.encode a).
Proof.
  apply enc_safe_seq; [apply enc_safe_write_opaque|]. apply enc_safe_seq; [apply enc_safe_extend|].
  apply enc_safe_seq; [|done]. apply enc_safe_array, _.
Qed.

(** ** Answers *)

Lemma delivers_each {A} (dec : M Decoder XdrError A) n Q : delivers dec Q → delivers (read_each dec n) (Forall Q).
Proof.
  intros Hd. induction n as [|n IH]; [by apply delivers_ret|]. cbn [read_each].
  eapply delivers_bind; [exact Hd|]. intros a Ha. eapply delivers_bind; [exact IH|]. intros l Hl.
  by apply delivers_ret, list.Forall_cons.
Qed.
Lemma delivers_u32 : delivers read_u32 (λ n, 0 ≤ n).
Proof. apply delivers_then. intros bs. apply delivers_ret, be_Z_range. Qed.

Lemma delivers_channel : delivers ChannelAttrs.decode (λ a, 0 ≤ ChannelAttrs.max_operations a).
Proof.
  unfold ChannelAttrs.decode. do 4 (apply delivers_then; intros ?).
  eapply delivers_bind; [apply delivers_u32|]. intros n Hn. do 2 (apply delivers_then; intros ?). by apply delivers_ret.
Qed.

Lemma delivers_create_session st : delivers (decode_create_session_result st) sane_result.
Proof.
  unfold decode_create_session_result. case_match; [by apply delivers_ret|].
  eapply (delivers_bind _ _ (λ s, 0 ≤ ChannelAttrs.max_operations (CreateSessionResult.fore_channel_attrs s))).
  - do 3 (apply delivers_then; intros ?). eapply delivers_bind; [apply delivers_channel|]. intros fore Hf.
    apply delivers_then. intros back. by apply delivers_ret.
  - intros s Hs. by apply delivers_ret.
Qed.

Lemma delivers_write : delivers WriteResult.decode (λ w, 0 ≤ WriteResult.count w).
Proof.
  eapply delivers_bind; [apply delivers_u32|]. intros n Hn. do 2 (apply delivers_then; intros ?). by apply delivers_ret.
Qed.
Lemma delivers_when_ok {A} st (dec : M Decoder XdrError A) Q :
  delivers dec Q → delivers (when_ok st dec) (λ o, match o with Some a => Q a | None => True end).
Proof.
  intros Hd. unfold when_ok, when. destruct (Status.is_ok st); [|by apply delivers_ret].
  eapply delivers_bind; [exact Hd|]. intros a Ha. by apply delivers_ret.
Qed.
Lemma delivers_write_result st :
  delivers (result ← when_ok st WriteResult.decode; mret (OperationResult.Write st result)) sane_result.
Proof. eapply delivers_bind; [apply delivers_when_ok, delivers_write|]. intros o Ho. by apply delivers_ret. Qed.

Ltac delivers_solve :=
  lazymatch goal with
  | |- delivers (mbind _ (when_ok _ WriteResult.decode)) _ => apply delivers_write_result
  | |- delivers (decode_create_session_result _) _ => apply delivers_create_session
  | |- delivers (mret _) _ => apply delivers_ret; exact I
  | |- delivers (mbind _ _) _ => apply delivers_then; intros ?; delivers_solve
  | |- delivers (match _ with _ => _ end) _ => case_match; delivers_solve
  | |- delivers (?f _) _ => unfold f; delivers_solve
  end.

Lemma delivers_result : delivers OperationResult_decode sane_result.
Proof. unfold OperationResult_decode. do 2 (apply delivers_then; intros ?). cbv zeta. delivers_solve. Qed.

Lemma delivers_response : delivers CompoundResponse.decode response_sane.
Proof.
  do 2 (apply delivers_then; intros ?). eapply (delivers_bind _ _ (Forall sane_result)).
  - apply delivers_then. intros len. apply delivers_each, delivers_result.
  - intros l Hl. by apply delivers_ret.
Qed.

Lemma decode_compound_spec tag payload :
  zlen payload ≤ isize_max →
  match decode_compound tag payload with Ok r => response_sane r | Err _ => True | Fault _ => False end.
Proof.
  intros Hp. unfold decode_compound.
  pose proof (delivers_response (Decoder_new payload)) as Hs.
  pose proof (dec_safe (dec := CompoundResponse.decode) _ (dec_wf_new _ Hp)) as [_ Hf].
  destruct (CompoundResponse.decode (Decoder_new payload)) as [d [r|e|f]]; simpl in *; [|done|by destruct (Hf f)].
  unfold finish. by destruct (is_finished d).
Qed.

(** Decoding a response returns what the server meant; nothing may follow it. *)
Lemma decode_compound_reads tag payload r :
  zlen payload ≤ isize_max → reads CompoundResponse.decode payload r → decode_compound tag payload = Ok r.
Proof.
  intros Hp Hr. unfold decode_compound. rewrite (reads_whole _ _ _ Hp Hr). simpl.
  by rewrite finish_at_end.
Qed.

Lemma decode_compound_trailing tag payload extra r :
  zlen (payload ++ extra) ≤ isize_max → extra ≠ [] → reads CompoundResponse.decode payload r →
  decode_compound tag (payload ++ extra)
  = Err (Protocol [PLit "failed to finish NFSv4 COMPOUND response for tag "; PDebug tag; PLit " at byte ";
                   PNum (zlen payload); PLit " of "; PNum (zlen (payload ++ extra))]).
Proof.
  intros Hp Hne Hr. unfold decode_compound. change (Decoder_new (payload ++ extra)) with
    (mkDecoder ([] ++ payload ++ extra) (zlen (A := byte) [])). rewrite (Hr [] extra Hp). simpl.
  unfold finish, is_finished, remaining. cbn [dec_input dec_position].
  assert (zlen extra ≠ 0) by (intros ?%zlen_zero; done).
  destruct (Z.eqb_spec (zlen (payload ++ extra) - zlen payload) 0); [zlen_lia|]. done.
Qed.

Section connection.
Context {St : Type} `{!Transport St}.

(** A COMPOUND over an RPC connection. *)
Lemma post_raw_compound tag minor_version operations (c : RpcClient St) :
  client_ok c →
  post (raw_compound_with_rpc tag minor_version operations) c
    (λ response c', client_ok c' ∧ well_shaped tag (Operation.op_code <$> operations) response
       ∧ response_sane response)
    (λ _ c', client_ok c').
Proof.
  intros Hc. unfold raw_compound_with_rpc. cbv zeta. apply post_bind.
  eapply post_mono; [apply post_call_any; [done|apply enc_safe_CompoundArgs]|cbv beta|cbv beta].
  2: { intros e c' Hm. unfold client_ok in *. by rewrite Hm. }
  intros payload c' [Hm Hl]. assert (client_ok c') by (unfold client_ok in *; by rewrite Hm).
  apply post_bind, post_lift.
  pose proof (decode_compound_spec tag payload ltac:(destruct Hc; lia)) as Hd.
  destruct (decode_compound tag payload) as [r|e|f]; [|done|done].
  apply post_bind, post_lift. destruct (validate_shape_spec tag (Operation.op_code <$> operations) r) as [Hs Hf].
  destruct (validate_compound_response_shape _ _ _) as [[]|e|f] eqn:E; [|done|by destruct (Hf f)].
  apply post_ret. split_and!; [done| |done]. by apply Hs.
Qed.

End connection.

(** ** The network *)

(** The threads that renew leases (src/src/v4/lease.rs); [V4Lease] models what
    one of them does. *)
Class LeaseThreads (W R : Type) := {
  thread_start : Z → Client.Client R → M W Error nat;
  thread_failed : nat → M W Error bool;
  thread_stop : nat → M W Error unit;
}.

(** Spawning, asking and joining a thread return. *)
Class LeaseThreadsTotal (W R : Type) `{!LeaseThreads W R} := {
  thread_start_total interval c s : fault_free (thread_start interval c s).2;
  thread_failed_total thread s : fault_free (thread_failed thread s).2;
  thread_stop_total thread s : fault_free (thread_stop (R := R) thread s).2;
}.

Section network.
Context {W Addr St : Type} `{!Network W Addr St, !NetworkTotal W Addr St, !Transport St}.
Context `{!LeaseThreads W (RpcClient St), !LeaseThreadsTotal W (RpcClient St)}.

(** The connection [connect_session_minor] opens. *)
Definition connect_rpc (builder : ClientBuilder) : M W Error (RpcClient St) :=
  rpc ← RpcClient_connect_with_timeout (ClientBuilder.host builder) (ClientBuilder.port builder)
          (Auth_Sys (ClientBuilder.auth builder)) (ClientBuilder.timeout builder);
  RpcClient_set_timeout rpc (ClientBuilder.timeout builder) ;;
  mret rpc.

#[export] Instance Network_nfs4 : Nfs4Net W (RpcClient St) := {
  net_rpc_connect := connect_rpc;
  lease_start := thread_start;
  lease_failed := thread_failed (R := RpcClient St);
  lease_stop := thread_stop (R := RpcClient St);
  net_sleep _ := mret tt;
}.

#[export] Instance Network_laws : Nfs4Laws W (RpcClient St).
Proof using All.
  refine {| conn_ok := client_ok |}.
  - intros tag v ops n c Hc. pose proof (post_raw_compound tag v ops c Hc) as Hp. unfold post in *. simpl.
    unfold on_snd, zoom. simpl. by destruct (raw_compound_with_rpc tag v ops c) as [c' [r|e|f]].
  - intros size c Hs Hc. unfold post. simpl. unfold set_max_record_size, validate_max_record_size.
    destruct (Z.eqb_spec size 0); [lia|]. change (0 ≤ size ≤ isize_max). lia.
  - intros b n. unfold net_rpc_connect, Network_nfs4, connect_rpc.
    revert n. change (returns (connect_rpc b) client_ok). apply (returns_bind _ _ client_ok).
    { apply returns_rpc_connect. }
    intros c Hc. eapply (returns_bind _ _ (λ _, True)); [|by intros _ _ s].
    eapply returns_bind; [apply returns_io, net_set_read_timeout_total|]. intros _ _.
    apply returns_io, net_set_write_timeout_total.
  - intros. apply thread_start_total.
  - intros. apply thread_failed_total.
  - intros. apply thread_stop_total.
  - done.
Defined.

End network.
