(* ===== verification/V4Lease.v ===== *)
(** * The thread that renews a lease (src/src/v4/lease.rs)

    A [BlockingLease] and its thread share a flag that asks the thread to stop
    and a flag that says a renewal failed.  [step] gives every atomic action
    of the thread and of the owner; a run is any interleaving of them.  The
    thread looks at the flag under the mutex and lets go of it before it calls
    [renew], so that the owner can ask it to stop in between.  Once it was
    asked, only the one renewal it had decided on may still start, [stop]
    returns, and a renewal that fails is reported for good. *)

From S2P Require Import Prelude.

(** ** Runs of a system of steps *)

Section runs.
Context {S E : Type} (step : E → S → option S).

Inductive runs : S → list E → S → Prop :=
  | runs_nil s : runs s [] s
  | runs_cons s e s1 es s2 : step e s = Some s1 → runs s1 es s2 → runs s (e :: es) s2.

Fixpoint play (es : list E) (s : S) : option S :=
  match es with
  | [] => Some s
  | e :: es => s1 ← step e s; play es s1
  end.

Lemma play_runs es s s' : play es s = Some s' ↔ runs s es s'.
Proof.
  revert s. induction es as [|e es IH]; intros s; cbn [play].
  - split; [intros [= <-]; constructor|by inversion 1].
  - destruct (step e s) as [s1|] eqn:E'; simpl.
    + rewrite IH. split; [by econstructor|]. inversion 1. by simplify_eq.
    + split; [done|]. inversion 1. by simplify_eq.
Qed.

Lemma runs_inv (P : S → Prop) s es s' :
  (∀ s e s', P s → step e s = Some s' → P s') → runs s es s' → P s → P s'.
Proof. intros Hstep. induction 1; [done|eauto]. Qed.

End runs.

(** A run without an event of a kind. *)
Lemma none_left {E} (f : E → bool) es n :
  (length (filter (λ e, f e = true) es) + n ≤ 0)%nat → Forall (λ e, f e = false) es.
Proof.
  induction es as [|e es IH]; [constructor|]. rewrite filter_cons. destruct (f e) eqn:He; simpl; [lia|].
  intros H. by constructor; [|apply IH].
Qed.

Module Lease.

(** Where the thread is: in [wait_timeout_while]; behind [drop(stopped)] and
    before the call of [renew]; in [renew]; before [worker_health.fail()]; out
    of the loop; or gone. *)
Inductive Worker := Waiting | Due | Renewing | Failing | Leaving | Finished.
#[global] Instance Worker_eq_dec : EqDecision Worker.
Proof. solve_decision. Defined.

(** What the owner has done with it: nothing, [stop] is joining the thread,
    [stop] has returned, or it was dropped. *)
Inductive Owner := Holding | Joining | Stopped | Dropped.
#[global] Instance Owner_eq_dec : EqDecision Owner.
Proof. solve_decision. Defined.

Record Lease := mkLease {
  health : bool;
  stop : bool;
  worker : Worker;
  owner : Owner;
}.

(** [BlockingLease::start]. *)
Definition start : Lease := mkLease false false Waiting Holding.

(** [BlockingLease::failed]. *)
Definition failed (self : Lease) : bool := health self || bool_decide (worker self = Finished).

Inductive Event :=
  | TimedOut                 (* the wait ends, the flag is not set, the mutex is released *)
  | SawStop                  (* the wait ends, the flag is set: [break] *)
  | Started                  (* [renew()] is called *)
  | Renewed (result : bool)  (* [renew()] returns *)
  | Panicked                 (* [renew()] panics *)
  | Fail                     (* [worker_health.fail()] *)
  | Exit                     (* the thread function returns *)
  | Stop                     (* [stop] sets the flag and starts to join *)
  | Joined                   (* [join] returns *)
  | Drop.                    (* [drop] sets the flag *)

(** The thread takes these steps. *)
Definition of_worker (e : Event) : bool :=
  match e with Stop | Joined | Drop => false | _ => true end.

Definition with_worker (w : Worker) (self : Lease) : Lease := mkLease (health self) (stop self) w (owner self).

(** The body of the thread. *)
Definition worker_step (e : Event) (self : Lease) : option Lease :=
  match worker self, e with
  | Waiting, TimedOut => if stop self then None else Some (with_worker Due self)
  | Waiting, SawStop => if stop self then Some (with_worker Leaving self) else None
  | Due, Started => Some (with_worker Renewing self)
  | Renewing, Renewed true => Some (with_worker Waiting self)
  | Renewing, Renewed false => Some (with_worker Failing self)
  | Renewing, Panicked => Some (with_worker Leaving self)
  | Failing, Fail => Some (mkLease true (stop self) Leaving (owner self))
  | Leaving, Exit => Some (with_worker Finished self)
  | _, _ => None
  end.

(** [BlockingLease::stop] and [drop]. *)
Definition owner_step (e : Event) (self : Lease) : option Lease :=
  match owner self, e with
  | Holding, Stop => Some (mkLease (health self) true (worker self) Joining)
  | Holding, Drop => Some (mkLease (health self) true (worker self) Dropped)
  | Joining, Joined =>
      if bool_decide (worker self = Finished)
      then Some (mkLease (health self) true (worker self) Stopped) else None
  | _, _ => None
  end.

Definition step (e : Event) (self : Lease) : option Lease :=
  if of_worker e then worker_step e self else owner_step e self.

(** Runs: any interleaving. *)
Abbreviation run := (runs step).
Lemma play_run es s s' : play step es s = Some s' ↔ run s es s'.
Proof. apply play_runs. Qed.

Definition reachable (s : Lease) : Prop := ∃ es, run start es s.

(** ** Invariants *)

Record lease_inv (s : Lease) : Prop := {
  (** the flag is set exactly when the owner gave the lease up *)
  inv_stop : stop s = negb (bool_decide (owner s = Holding));
  (** [stop] has returned only if the thread is gone *)
  inv_stopped : owner s = Stopped → worker s = Finished;
  (** a thread whose renewal failed is on its way out *)
  inv_health : health s = true → worker s = Leaving ∨ worker s = Finished;
}.

(** Every state and every event. *)
Ltac lease_cases s e :=
  destruct s as [[] [] [] []]; destruct e as [| | |[]| | | | | |]; try done.

Lemma lease_inv_step s e s' : lease_inv s → step e s = Some s' → lease_inv s'.
Proof.
  intros [H1 H2 H3] Hs. lease_cases s e; injection Hs as <-; split; simpl in *; naive_solver.
Qed.

Lemma reachable_inv s : reachable s → lease_inv s.
Proof. intros [es Hr]. eapply (runs_inv step lease_inv); [apply lease_inv_step|exact Hr|]. by split. Qed.

(** The flags are never reset, and a thread does not come back. *)
Lemma step_keeps s e s' :
  step e s = Some s' →
  (stop s = true → stop s' = true) ∧ (failed s = true → failed s' = true)
  ∧ (worker s = Finished → worker s' = Finished).
Proof.
  intros Hs. lease_cases s e; by injection Hs as <-.
Qed.

Lemma stop_kept s es s' : run s es s' → stop s = true → stop s' = true.
Proof. intros Hr. apply (runs_inv step (λ s, stop s = true) _ _ _ ltac:(intros; by eapply step_keeps) Hr). Qed.
Lemma failed_kept s es s' : run s es s' → failed s = true → failed s' = true.
Proof. intros Hr. apply (runs_inv step (λ s, failed s = true) _ _ _ ltac:(intros; by eapply step_keeps) Hr). Qed.
Lemma finished_kept s es s' : run s es s' → worker s = Finished → worker s' = Finished.
Proof. intros Hr. apply (runs_inv step (λ s, worker s = Finished) _ _ _ ltac:(intros; by eapply step_keeps) Hr). Qed.

(** ** Stopping *)

(** The thread does not decide on a renewal once the flag is set. *)
Lemma no_renewal_once_stopped s es s' : run s es s' → stop s = true → TimedOut ∉ es.
Proof.
  induction 1 as [|s e s1 es s2 Hs _ IH]; intros Hstop; [by intros ?%elem_of_nil|].
  intros [<-|Hin]%elem_of_cons; [|by apply IH; [by eapply step_keeps|]].
  unfold step, worker_step in Hs. simpl in Hs. rewrite Hstop in Hs. by destruct (worker s).
Qed.

(** The renewals that start in a run, and the one the thread has decided on. *)
Definition starts (e : Event) : bool := match e with Started => true | _ => false end.
Definition renewals (es : list Event) : nat := length (filter (λ e, starts e = true) es).
Definition decided (s : Lease) : nat := match worker s with Due => 1 | _ => 0 end.

(** Once the flag is set, only that one starts. *)
Lemma renewals_once_stopped s es s' :
  run s es s' → stop s = true → (renewals es + decided s' ≤ decided s)%nat.
Proof.
  induction 1 as [|s e s1 es s2 Hs _ IH]; intros Hstop; [simpl; lia|].
  specialize (IH ltac:(by eapply step_keeps)). unfold renewals in *. rewrite filter_cons. unfold decided in *.
  lease_cases s e; injection Hs as <-; simpl in *; try done; lia.
Qed.

(** How many steps the thread has left once the flag is set. *)
Definition steps_left (s : Lease) : nat :=
  match worker s with
  | Due => 4 | Renewing => 3 | Waiting | Failing => 2 | Leaving => 1 | Finished => 0
  end.

Lemma worker_step_progress s e s' :
  stop s = true → of_worker e = true → step e s = Some s' → (steps_left s' < steps_left s)%nat.
Proof.
  intros Hstop He Hs. unfold step in Hs. rewrite He in Hs. unfold worker_step in Hs. rewrite Hstop in Hs.
  unfold steps_left. destruct (worker s), e as [| | |[]| | | | | |]; simplify_eq/=; lia.
Qed.

Lemma worker_can_step s :
  stop s = true → worker s ≠ Finished → ∃ e, of_worker e = true ∧ is_Some (step e s).
Proof.
  destruct s as [h f w o]. simpl. intros -> Hw.
  destruct w; [exists SawStop|exists Started|exists (Renewed true)|exists Fail|exists Exit|done]; split; by eauto.
Qed.

(** The owner does not disturb the thread. *)
Lemma owner_step_keeps s e s' :
  of_worker e = false → step e s = Some s' → worker s' = worker s.
Proof.
  intros He Hs. unfold step in Hs. rewrite He in Hs. unfold owner_step in Hs.
  destruct (owner s), e; simplify_eq/=; try done. by case_bool_decide; simplify_eq/=.
Qed.

(** A run after the flag is set has few steps of the thread in it. *)
Lemma stopping_bounded s es s' :
  run s es s' → stop s = true → (length (filter (λ e, of_worker e = true) es) + steps_left s' ≤ steps_left s)%nat.
Proof.
  induction 1 as [|s e s1 es s2 Hs _ IH]; intros Hstop; [simpl; lia|].
  specialize (IH ltac:(by eapply step_keeps)). rewrite filter_cons.
  destruct (of_worker e) eqn:He; simpl.
  - pose proof (worker_step_progress _ _ _ Hstop He Hs). lia.
  - assert (steps_left s1 = steps_left s) by (unfold steps_left; by rewrite (owner_step_keeps _ _ _ He Hs)). lia.
Qed.

(** ** Failures *)

(** A renewal that failed is reported as soon as the thread took its next
    step, and from then on. *)
Lemma failure_reported s es s' :
  run s es s' → worker s = Failing → Fail ∈ es → failed s' = true.
Proof.
  induction 1 as [|s e s1 es s2 Hs Hr IH]; intros Hw Hin; [by apply elem_of_nil in Hin|].
  destruct (of_worker e) eqn:He.
  - eapply failed_kept; [exact Hr|]. unfold step in Hs. rewrite He in Hs. unfold worker_step in Hs.
    rewrite Hw in Hs. destruct e as [| | |[]| | | | | |]; by simplify_eq/=.
  - apply IH; [by rewrite (owner_step_keeps _ _ _ He Hs)|].
    apply elem_of_cons in Hin as [<-|Hin]; [done|done].
Qed.

End Lease.
