(* ===== verification/TokioLease.v ===== *)
(** * The task that renews a lease (src/src/v4/lease.rs, src/src/v4/tokio.rs)

    [TokioLease] holds a task of the runtime: a loop that sleeps and sends a
    heartbeat.  The runtime polls the task when what it awaits is ready; a poll
    runs on, whatever the owner does meanwhile, until the task awaits something
    that is not ready or returns.  Only between two polls does the runtime look
    whether the task was aborted, and drops it then instead of polling it.
    [step] gives every such action of the task and of the owner; a run is any
    interleaving of them.  Once aborted, no poll of the task starts, a poll
    that is running ends at its next await point, and the task is gone;
    [stop] returns then, also when its own future is dropped. *)

From S2P Require Import Prelude V4Lease.

Module TokioLease.

(** Where the task is.  Between two polls: suspended at [sleep(..).await], which
    is never ready at once, or at an await point of [recovery_compound]
    (connecting, sending, receiving).  Being polled: in [recovery_compound],
    before [worker_health.fail()], or behind the loop.  Or gone. *)
Inductive Task := Sleeping | Waiting | Working | Failing | Leaving | Finished.
#[global] Instance Task_eq_dec : EqDecision Task.
Proof. solve_decision. Defined.

(** What the owner has done with it: nothing, [stop] awaits the task, [stop]
    has returned, or the lease was dropped, by itself or with the future of [stop]. *)
Inductive Owner := Holding | Awaiting | Stopped | Dropped.
#[global] Instance Owner_eq_dec : EqDecision Owner.
Proof. solve_decision. Defined.

Record TokioLease := mkTokioLease {
  health : bool;
  aborted : bool;
  task : Task;
  owner : Owner;
}.

(** [tokio::spawn]. *)
Definition spawn : TokioLease := mkTokioLease false false Sleeping Holding.

(** [TokioLease::failed]. *)
Definition failed (self : TokioLease) : bool := health self || bool_decide (task self = Finished).

Inductive Event :=
  | Woke                     (* the sleep is over, a poll starts: [recovery_compound] is called *)
  | Suspended                (* what the heartbeat awaits is not ready, the poll ends *)
  | Resumed                  (* what the heartbeat awaits is ready, a poll starts *)
  | Renewed (healthy : bool) (* [recovery_compound] returns, and the poll goes on *)
  | Panicked                 (* the heartbeat panics *)
  | Cancelled                (* the runtime drops the aborted task *)
  | Fail                     (* [worker_health.fail()] *)
  | Exit                     (* the task returns *)
  | Stop                     (* [stop] aborts the task and awaits it *)
  | Awaited                  (* the await of [stop] is over *)
  | Drop.                    (* [drop] aborts the task *)

(** The runtime takes these steps. *)
Definition of_task (e : Event) : bool :=
  match e with Stop | Awaited | Drop => false | _ => true end.

Definition with_task (t : Task) (self : TokioLease) : TokioLease :=
  mkTokioLease (health self) (aborted self) t (owner self).

(** Between two polls: the next one starts unless the task was aborted. *)
Definition poll (t : Task) (self : TokioLease) : option TokioLease :=
  if aborted self then None else Some (with_task t self).

(** The body of the task. *)
Definition task_step (e : Event) (self : TokioLease) : option TokioLease :=
  match task self, e with
  | Sleeping, Woke => poll Working self
  | Waiting, Resumed => poll Working self
  | (Sleeping | Waiting), Cancelled => if aborted self then Some (with_task Finished self) else None
  | Working, Suspended => Some (with_task Waiting self)
  | Working, Renewed true => Some (with_task Sleeping self)
  | Working, Renewed false => Some (with_task Failing self)
  | Working, Panicked => Some (with_task Leaving self)
  | Failing, Fail => Some (mkTokioLease true (aborted self) Leaving (owner self))
  | Leaving, Exit => Some (with_task Finished self)
  | _, _ => None
  end.

(** [TokioLease::stop] and [drop]. *)
Definition owner_step (e : Event) (self : TokioLease) : option TokioLease :=
  match owner self, e with
  | Holding, Stop => Some (mkTokioLease (health self) true (task self) Awaiting)
  | (Holding | Awaiting), Drop => Some (mkTokioLease (health self) true (task self) Dropped)
  | Awaiting, Awaited =>
      if bool_decide (task self = Finished)
      then Some (mkTokioLease (health self) true (task self) Stopped) else None
  | _, _ => None
  end.

Definition step (e : Event) (self : TokioLease) : option TokioLease :=
  if of_task e then task_step e self else owner_step e self.

(** Runs: any interleaving. *)
Abbreviation run := (runs step).
Definition reachable (s : TokioLease) : Prop := ∃ es, run spawn es s.

(** ** Invariants *)

Record lease_inv (s : TokioLease) : Prop := {
  inv_aborted : aborted s = negb (bool_decide (owner s = Holding));
  inv_stopped : owner s = Stopped → task s = Finished;
  inv_health : health s = true → task s = Leaving ∨ task s = Finished;
}.

(** Every state and every event. *)
Ltac task_cases s e :=
  destruct s as [[] [] [] []]; destruct e as [| | |[]| | | | | | |]; try done.

Lemma task_lease_inv_step s e s' : lease_inv s → step e s = Some s' → lease_inv s'.
Proof. intros [H1 H2 H3] Hs. task_cases s e; injection Hs as <-; split; simpl in *; naive_solver. Qed.

Lemma task_reachable_inv s : reachable s → lease_inv s.
Proof. intros [es Hr]. eapply (runs_inv step lease_inv); [apply task_lease_inv_step|exact Hr|]. by split. Qed.

Lemma task_step_keeps s e s' :
  step e s = Some s' → (aborted s = true → aborted s' = true) ∧ (failed s = true → failed s' = true).
Proof. intros Hs. task_cases s e; by injection Hs as <-. Qed.

Lemma aborted_kept s es s' : run s es s' → aborted s = true → aborted s' = true.
Proof. intros Hr. apply (runs_inv step (λ s, aborted s = true) _ _ _ ltac:(intros; by eapply task_step_keeps) Hr). Qed.
Lemma task_failed_kept s es s' : run s es s' → failed s = true → failed s' = true.
Proof. intros Hr. apply (runs_inv step (λ s, failed s = true) _ _ _ ltac:(intros; by eapply task_step_keeps) Hr). Qed.

(** ** Stopping *)

(** The start of a poll, and what the heartbeat does in a poll. *)
Definition starts_poll (e : Event) : bool := match e with Woke | Resumed => true | _ => false end.
Definition works (e : Event) : bool := match e with Suspended | Renewed _ | Panicked => true | _ => false end.

Lemma aborted_never_polled s es s' : run s es s' → aborted s = true → Forall (λ e, starts_poll e = false) es.
Proof.
  induction 1 as [|s e s1 es s2 Hs _ IH]; intros Ha; [by apply Forall_nil|].
  apply Forall_cons; [|apply IH; by eapply task_step_keeps].
  clear IH. task_cases s e; by simpl in Ha.
Qed.

(** The poll of the heartbeat that is running. *)
Definition polled (s : TokioLease) : nat := match task s with Working => 1 | _ => 0 end.

(** Once aborted, a heartbeat goes on to the end of that poll at most. *)
Lemma aborted_works s es s' :
  run s es s' → aborted s = true → (length (filter (λ e, works e = true) es) + polled s' ≤ polled s)%nat.
Proof.
  induction 1 as [|s e s1 es s2 Hs _ IH]; intros Ha; [simpl; lia|].
  specialize (IH ltac:(by eapply task_step_keeps)). rewrite filter_cons. unfold polled in *.
  task_cases s e; injection Hs as <-; simpl in *; try done; lia.
Qed.

(** How many steps the task has left once it is aborted. *)
Definition steps_left (s : TokioLease) : nat :=
  match task s with Working => 3 | Failing => 2 | Sleeping | Waiting | Leaving => 1 | Finished => 0 end.

Lemma task_stopping_bounded s es s' :
  run s es s' → aborted s = true → (length (filter (λ e, of_task e = true) es) + steps_left s' ≤ steps_left s)%nat.
Proof.
  induction 1 as [|s e s1 es s2 Hs _ IH]; intros Ha; [simpl; lia|].
  specialize (IH ltac:(by eapply task_step_keeps)). rewrite filter_cons.
  assert (if of_task e then (steps_left s1 < steps_left s)%nat else steps_left s1 = steps_left s).
  { clear IH. task_cases s e; try (by simpl in Ha); by injection Hs as <-; simpl; unfold steps_left; simpl; lia. }
  destruct (of_task e); simpl; lia.
Qed.

Lemma task_can_step s : aborted s = true → task s ≠ Finished → ∃ e, of_task e = true ∧ is_Some (step e s).
Proof.
  destruct s as [h a t o]. simpl. intros -> Ht.
  destruct t; [exists Cancelled|exists Cancelled|exists Suspended|exists Fail|exists Exit|done]; split; by eauto.
Qed.

End TokioLease.
