(* ===== verification/V4Script.v ===== *)
(** * A server that follows a script

    A network for concrete runs of the session client: every COMPOUND is
    answered by the next entry of a script.  Answers that do not fit the
    request are refused as the client's own check refuses them, so the script
    satisfies the laws of [V4SessionSpec]. *)

From Stdlib Require Import Strings.String Strings.Byte.
From S2P Require Import Prelude Text Xdr Status Errors Rpc V3Client V3BlockingSpec V3Store Tame V4Attr V4Ops V4Results.
From S2P Require Import V3Connect V3ConnectNet V4Client V4ClientSpec V4Session V4SessionSpec V4Trace V4Net.
Import LockRegistry (LockRegistry).
Import Operation (Operation).
Import OperationResult (OperationResult).
Import CompoundResponse (CompoundResponse).
Import ClientBuilder (ClientBuilder).
Import Client (Client).

#[local] Open Scope Z_scope.

(** An answer: the status and the results of a COMPOUND, or no answer. *)
Definition Script : Type := list (Error + Status.Status * list OperationResult).

Definition sane_resultb (r : OperationResult) : bool :=
  match r with
  | OperationResult.CreateSession _ (Some s) =>
      0 <=? ChannelAttrs.max_operations (CreateSessionResult.fore_channel_attrs s)
  | OperationResult.Write _ (Some w) => 0 <=? WriteResult.count w
  | _ => true
  end.

Definition script_answer (tag : str) (operations : list Operation) (st : Status.Status)
    (results : list OperationResult) : outcome Error CompoundResponse :=
  let response := CompoundResponse.mkCompoundResponse st tag results in
  _ ← validate_compound_response_shape tag (Operation.op_code <$> operations) response;
  if forallb sane_resultb results then Ok response else Err RpcConnectionInvalid.

Definition script_compound (tag : str) (minor_version : Z) (operations : list Operation)
    : M (Script * unit) Error CompoundResponse := λ s,
  match s.1 with
  | [] => (s, Err RpcConnectionInvalid)
  | inl err :: rest => ((rest, tt), Err err)
  | inr (st, results) :: rest => ((rest, tt), script_answer tag operations st results)
  end.

#[export] Instance script_rpc : Nfs4Rpc Script unit := {
  rpc_compound := script_compound;
  rpc_set_max_record_size _ r := (r, Ok tt);
}.

#[export] Instance script_net : Nfs4Net Script unit := {
  net_rpc_connect _ := mret tt;
  lease_start _ _ := mret 0%nat;
  lease_failed _ := mret false;
  lease_stop _ := mret tt;
  net_sleep _ := mret tt;
}.

Lemma sane_results_spec results : forallb sane_resultb results = true ↔ Forall sane_result results.
Proof.
  induction results as [|x l IH]; [done|]. simpl. rewrite andb_true_iff, list.Forall_cons, IH.
  enough (sane_resultb x = true ↔ sane_result x) as -> by done.
  destruct x; try done; destruct result; try done; simpl; apply Z.leb_le.
Qed.

(** An answer fits its request; one that fits is given. *)
Lemma script_answer_spec tag operations st results :
  match script_answer tag operations st results with
  | Ok response => well_shaped tag (Operation.op_code <$> operations) response ∧ response_sane response
  | Err _ => True
  | Fault _ => False
  end.
Proof.
  unfold script_answer. cbv zeta.
  destruct (validate_shape_spec tag (Operation.op_code <$> operations) (CompoundResponse.mkCompoundResponse st tag results))
    as [Hs Hf].
  destruct (validate_compound_response_shape _ _ _) as [[]|err|f]; simpl; [|done|by destruct (Hf f)].
  destruct (forallb sane_resultb results) eqn:E; [|done]. split; [by apply Hs|]. by apply sane_results_spec.
Qed.
Lemma script_answer_given tag operations st results :
  well_shaped tag (Operation.op_code <$> operations) (CompoundResponse.mkCompoundResponse st tag results) →
  Forall sane_result results →
  script_answer tag operations st results = Ok (CompoundResponse.mkCompoundResponse st tag results).
Proof.
  intros Hs Hr. unfold script_answer. cbv zeta. rewrite (proj2 (proj1 (validate_shape_spec _ _ _)) Hs). simpl.
  by rewrite (proj2 (sane_results_spec _) Hr).
Qed.

#[export] Instance script_laws : Nfs4Laws Script unit.
Proof.
  refine {| conn_ok := λ _, True |}; try done.
  intros tag v ops n r _. unfold post. cbn. unfold script_compound. cbn.
  destruct n as [|[err|[st results]] rest]; [done|done|].
  pose proof (script_answer_spec tag ops st results) as H.
  destruct (script_answer _ _ _ _) as [resp|err|f]; [by split|done|done].
Defined.

(** ** Clients for the examples *)

Definition sample_policy : RetryPolicy := mkRetryPolicy 2 100 1000.

Definition sample_builder : ClientBuilder :=
  ClientBuilder.mkClientBuilder (lit_bytes "server") (mkAuthSys 0 (lit_bytes "host") 0 0 []) None 2049
    (lit_bytes "owner") (lit_bytes "open-owner") (replicate 8 x00) 4096 4096 4096 1000
    NFS4_MINOR_VERSION_LATEST sample_policy false.

Definition sample_session_id : list byte := replicate 16 x01.

Definition sample_client_with {R} (rpc : R) (pending : bool) : Client R :=
  Client.mkClient rpc LockRegistry.default pending None sample_builder 1 sample_session_id 1 1
    (lit_bytes "open-owner") NFS4_MINOR_VERSION_LATEST 8 65536 65536 None 4096 4096 4096 1000 sample_policy.

Definition sample_client : bool → Client unit := sample_client_with tt.
Definition sample_client_over {R} (rpc : R) : Client R := sample_client_with rpc false.

Definition sample_sequence : OperationResult :=
  OperationResult.Sequence Status.Ok (Some (SequenceResult.mkSequenceResult sample_session_id 1 0 0 0 0)).

Lemma sample_builder_inv : builder_inv sample_builder.
Proof. split; by vm_compute. Qed.
Lemma sample_builder_typed : builder_typed sample_builder.
Proof. split; by vm_compute. Qed.
Lemma sample_client_inv pending : client_inv (W := Script) (sample_client pending).
Proof. split; try done; apply sample_builder_inv. Qed.
Lemma sample_world_inv pending script : world_inv (mkWorld (mkEnv script [] []) (sample_client pending)).
Proof. split; [apply sample_client_inv|constructor]. Qed.

(** The same client over a recorded network. *)
Lemma sample_logged_inv pending script :
  world_inv (W := Script * list entry) (mkWorld (mkEnv (script, []) [] []) (sample_client pending)).
Proof. split; [|constructor]. split; try done; apply sample_builder_inv. Qed.

(** ** A network of canned bytes

    Every connection yields the same bytes and takes whatever is written. *)

Record Canned := mkCanned { incoming : list byte }.

#[export] Program Instance canned_transport : Transport Canned := {
  write_all _ := mret tt;
  flush := mret tt;
  read_exact n := λ s,
    if n <=? zlen (incoming s) then (mkCanned (zdrop n (incoming s)), Ok (ztake n (incoming s)))
    else (s, Err UnexpectedEofKind);
}.
Next Obligation. done. Qed.
Next Obligation. done. Qed.
Next Obligation. intros n s. cbn. by destruct (n <=? _). Qed.
Next Obligation.
  intros n s s' bs Hn. cbn. destruct (Z.leb_spec n (zlen (incoming s))); [|done].
  intros [= _ <-]. rewrite zlen_ztake_min by done. lia.
Qed.

#[export] Instance canned_network : Network (list byte) unit Canned := {
  net_resolve _ _ := mret [tt];
  net_connect _ _ := λ s, (s, Ok (mkCanned s));
  net_connect_timeout _ _ := λ s, (s, Ok (mkCanned s));
  net_set_nodelay _ := mret tt;
  net_set_read_timeout _ _ := mret tt;
  net_set_write_timeout _ _ := mret tt;
  net_stamp _ := 0;
}.
#[export] Instance canned_total : NetworkTotal (list byte) unit Canned.
Proof. by split. Qed.

#[export] Instance canned_threads : LeaseThreads (list byte) (RpcClient Canned) := {
  thread_start _ _ := mret 0%nat;
  thread_failed _ := mret false;
  thread_stop _ := mret tt;
}.
#[export] Instance canned_threads_total : LeaseThreadsTotal (list byte) (RpcClient Canned).
Proof. by split. Qed.
