(* ===== verification/V4FilesSpec.v ===== *)
(** * File operations against every server (laws of [V4Files])

    Whatever the network and the server do, every operation on files and
    directories returns without a panic and leaves a well-formed client with
    the settings it had: its loops end because a transfer advances its offset,
    a listing grows towards its limit, and the retries of OPEN, CLOSE, LOCK and
    LOCKU are bounded by the policy. *)

From Stdlib Require Import Strings.String Strings.Byte.
From S2P Require Import Prelude Text Xdr Status Errors Rpc V3Client V3Blocking V3ClientSpec V3BlockingSpec Tame.
From S2P Require Import V4Attr V4AttrSpec V4Ops V4Results V4Client V4ClientSpec V4Extract.
From S2P Require Import V3CallsSpec V4Session V4SessionSpec V4Net V4Files.
Import Operation (Operation).
Import OperationResult (OperationResult).
Import CompoundResponse (CompoundResponse).

#[local] Open Scope Z_scope.

(** Instances are found by the name of a method, never by running it. *)
#[local] Hint Constants Opaque : typeclass_instances.

(** ** Pure parts never fault *)

Ltac result_safe :=
  apply find_result_safe; intros [] o Ho; try done; unfold checked_value, ok_value_or, ok_value in *;
  repeat case_match; try done; by injection Ho as <-.

Lemma response_getfh_safe r : fault_free (response_getfh r).
Proof. result_safe. Qed.
Lemma response_access_safe r : fault_free (response_access r).
Proof. result_safe. Qed.
Lemma response_readlink_safe r : fault_free (response_readlink r).
Proof. result_safe. Qed.
Lemma response_commit_safe r : fault_free (response_commit r).
Proof. result_safe. Qed.
Lemma response_lock_test_safe r : fault_free (response_lock_test r).
Proof. result_safe. Qed.
Lemma response_lock_unlock_safe r : fault_free (response_lock_unlock r).
Proof. result_safe. Qed.
Lemma response_release_safe r : fault_free (response_release_lock_owner r).
Proof. result_safe. Qed.
Lemma response_readdir_safe r : fault_free (response_readdir r).
Proof. result_safe. Qed.
Lemma response_read_safe r n : fault_free (response_read r n).
Proof.
  apply find_result_safe. intros [] o; try done. intros [= <-]. case_match; [|done].
  apply fault_free_bind; [|done]. unfold validate_read_result_size. by repeat case_match.
Qed.
Lemma response_write_safe r n : fault_free (response_write r n).
Proof.
  apply find_result_safe. intros [] o; try done. intros [= <-]. unfold checked_value.
  apply fault_free_bind; [apply ok_value_safe|]. intros v _. apply fault_free_bind; [|done].
  unfold validate_write_result_count. by repeat case_match.
Qed.
Lemma ensure_last_status_safe r op : fault_free (ensure_last_status r op).
Proof. unfold ensure_last_status. by repeat case_match. Qed.
Lemma finish_with_close_safe {A} (r : A + Error) c : fault_free (finish_with_close r c).
Proof. unfold finish_with_close. by repeat case_match. Qed.
Lemma advance_offset_safe o a op : fault_free (V4Client.advance_offset o a op).
Proof. unfold V4Client.advance_offset. case_match; [done|apply ok_or_safe]. Qed.
Lemma require_minor_version_safe op a b : fault_free (require_minor_version op a b).
Proof. unfold require_minor_version. by case_match. Qed.
Lemma validate_lock_owner_safe o : fault_free (validate_lock_owner o).
Proof. unfold validate_lock_owner, validate_opaque_id. by repeat case_match. Qed.
Lemma validate_stateid_batch_safe n : fault_free (validate_stateid_batch_len n).
Proof. unfold validate_stateid_batch_len. by repeat case_match. Qed.
Lemma validate_dir_entries_safe n : fault_free (validate_max_dir_entries n).
Proof. unfold validate_max_dir_entries. by repeat case_match. Qed.
Lemma distinct_handles_safe a b : fault_free (ensure_distinct_copy_handles a b).
Proof. unfold ensure_distinct_copy_handles. by case_match. Qed.
Lemma required_type_safe b : fault_free (BasicAttributes.required_file_type b).
Proof. unfold BasicAttributes.required_file_type. by case_match. Qed.
Lemma split_parent_safe p : fault_free (split_parent p).
Proof. apply fault_free_bind; [apply path_components_safe|]. intros. apply ok_or_safe. Qed.
Lemma path_ops_safe p l : fault_free (path_ops p l).
Proof. apply fault_free_bind; [apply path_components_safe|done]. Qed.
Lemma public_path_ops_safe p l : fault_free (public_path_ops p l).
Proof. apply fault_free_bind; [apply path_components_safe|done]. Qed.
Lemma parent_path_ops_safe p l : fault_free (parent_path_ops p l).
Proof.
  unfold parent_path_ops. apply fault_free_bind; [apply path_components_safe|]. intros. by repeat case_match.
Qed.

#[export] Instance no_fault_read_opaque n : NoFault (read_opaque n).
Proof. unfold read_opaque, read_len, read_fixed_opaque, skip_padding. apply _. Qed.
#[export] Instance no_fault_read_string n : NoFault (read_string n).
Proof. unfold read_string. apply _. Qed.
Lemma parse_basic_safe f : fault_free (parse_basic f).
Proof. apply parse_attrs_safe. intros a p. unfold basic_attr. apply _. Qed.
Lemma parse_fsstat_safe f : fault_free (parse_fsstat f).
Proof. apply parse_attrs_safe. intros a p. unfold fsstat_attr. apply _. Qed.
Lemma parse_pathconf_safe f : fault_free (parse_pathconf f).
Proof. apply parse_attrs_safe. intros a p. unfold pathconf_attr. apply _. Qed.
Lemma from_wire_all_safe l : fault_free (DirEntry.from_wire_all l).
Proof.
  induction l as [|e l IH]; [done|]. cbn [DirEntry.from_wire_all]. apply fault_free_bind.
  - apply fault_free_bind; [apply parse_basic_safe|done].
  - intros a _. by apply fault_free_bind.
Qed.
Lemma next_dir_cursor_safe v l eof c : fault_free (next_dir_cursor v l eof c).
Proof.
  unfold next_dir_cursor. case_match; [done|]. apply fault_free_bind; [apply ok_or_safe|]. intros a _. by case_match.
Qed.
Lemma dir_page_safe v l eof c m : fault_free (dir_page_from_entries v l eof c m).
Proof.
  unfold dir_page_from_entries. case_match; [done|]. apply fault_free_bind; [apply next_dir_cursor_safe|].
  intros n _. apply fault_free_bind; [apply from_wire_all_safe|done].
Qed.

(** ** Attributes to set *)

Definition known_attr (a : Z) : Prop := 0 ≤ a ∧ attr_in_range a.

Lemma assemble_safe m :
  post m Encoder_new (λ ids _, Forall known_attr ids) (λ _ _, True) → fault_free (Fattr.assemble m).
Proof.
  unfold post, Fattr.assemble. destruct (m Encoder_new) as [e [ids|err|f]]; [|done|done].
  intros Hids. apply fault_free_bind; [|done].
  apply from_known_attrs_safe; (eapply list.Forall_impl; [exact Hids|]); by intros a [].
Qed.

Lemma post_safe_encoder {A} (enc : M Encoder XdrError unit) (k : M Encoder XdrError A) e Q X :
  EncSafe enc → (∀ e', post k e' Q X) → (∀ err e', X err e') → post (enc ;; k) e Q X.
Proof.
  intros Henc Hk HX. apply post_bind. specialize (Henc e). unfold post at 1.
  destruct (enc e) as [e' [[]|err|f]]; [by apply Hk|by apply HX|by destruct (Henc f)].
Qed.

Section pushing.
Context (id : Z) (Hid : known_attr id) (ids : list Z) (Hids : Forall known_attr ids).
Lemma post_push_attr {A} (write : A → M Encoder XdrError unit) value e :
  (∀ v, EncSafe (write v)) →
  post (Fattr.push_attr id write value ids) e (λ l _, Forall known_attr l) (λ _ _, True).
Proof.
  intros Hw. destruct value; [|done]. apply post_safe_encoder; [apply Hw| |done]. intros e'.
  apply Forall_app. split; [done|by constructor].
Qed.
Lemma post_push_time time e :
  post (Fattr.push_time id time ids) e (λ l _, Forall known_attr l) (λ _ _, True).
Proof.
  unfold Fattr.push_time. case_match; [done|]. apply post_safe_encoder; [enc4_solve| |done]. intros e'.
  apply Forall_app. split; [done|by constructor].
Qed.
End pushing.

Ltac known_attr_solve := split; by vm_compute.

Lemma from_set_attrs_safe a : fault_free (Fattr.from_set_attrs a).
Proof.
  apply assemble_safe. unfold Fattr.write_set_attrs.
  repeat (apply post_bind; eapply post_mono;
    [first [ apply post_push_attr; [known_attr_solve|done|cbn beta; enc4_solve]
           | apply post_push_time; [known_attr_solve|done] ]
    |cbn beta; intros ???|done]).
  apply post_push_time; [known_attr_solve|done].
Qed.
Lemma size_attr_safe n : fault_free (Fattr.size n).
Proof. apply assemble_safe, post_safe_encoder; [apply enc_safe_extend| |done]. intros e. constructor; [known_attr_solve|done]. Qed.
Lemma mode_attr_safe n : fault_free (Fattr.mode n).
Proof. apply assemble_safe, post_safe_encoder; [apply enc_safe_extend| |done]. intros e. constructor; [known_attr_solve|done]. Qed.

Lemma supported_basic s : fault_free (Bitmap.from_supported_attrs s FATTR4_BASIC_ATTRS).
Proof. apply from_supported_attrs_safe; repeat constructor; by vm_compute. Qed.
Lemma supported_fsstat s : fault_free (Bitmap.from_supported_attrs s FATTR4_FSSTAT_ATTRS).
Proof. apply from_supported_attrs_safe; repeat constructor; by vm_compute. Qed.
Lemma supported_pathconf s : fault_free (Bitmap.from_supported_attrs s FATTR4_PATHCONF_ATTRS).
Proof. apply from_supported_attrs_safe; repeat constructor; by vm_compute. Qed.

(** ** What the pure parts check *)

Lemma find_result_Ok {A} name (f : OperationResult → option (outcome Error A)) r a :
  find_result name f r = Ok a → ∃ x, x ∈ CompoundResponse.results r ∧ f x = Some (Ok a).
Proof.
  unfold find_result. induction (CompoundResponse.results r) as [|x l IH]; [done|]. simpl.
  destruct (f x) as [o|] eqn:Ex.
  - intros ->. exists x. split; [by left|done].
  - intros H. destruct (IH H) as (y & Hy & Hf). exists y. split; [by right|done].
Qed.
Lemma response_read_size r count eof_data :
  response_read r count = Ok eof_data → zlen eof_data.2 ≤ count.
Proof.
  intros (x & _ & Hx)%find_result_Ok. destruct x; try done. injection Hx as Hx. case_match; [|done].
  unfold validate_read_result_size in Hx. rewrite Z.gtb_ltb in Hx.
  destruct (Z.ltb_spec count (zlen data)); [done|]. case_match; [done|]. by injection Hx as <-.
Qed.
Lemma response_write_count r count write :
  response_sane r → 0 < count → response_write r count = Ok write → 0 < WriteResult.count write ≤ count.
Proof.
  intros Hs Hc (x & Hx & Ho)%find_result_Ok. destruct x; try done. injection Ho as Ho.
  unfold checked_value, ok_value in Ho. repeat case_match; try done.
  unfold validate_write_result_count in Ho. cbn [mbind outcome_bind] in Ho.
  eapply list.Forall_forall in Hs; [|done]. simpl in Hs.
  destruct (Z.gtb_spec (WriteResult.count w) count); [done|]. destruct (Z.gtb_spec count 0); [|lia].
  destruct (Z.eqb_spec (WriteResult.count w) 0); [done|]. injection Ho as <-. lia.
Qed.
Lemma advance_offset4_Ok offset amount op o :
  V4Client.advance_offset offset amount op = Ok o → o = offset + amount ∧ o ≤ u64_max.
Proof.
  unfold V4Client.advance_offset, checked_add. case_match; [done|].
  destruct (Z.leb_spec (offset + amount) u64_max); [|done]. by intros [= <-].
Qed.

Lemma next_dir_cursor_batch verf batch eof cookie next :
  next_dir_cursor verf batch eof cookie = Ok next →
  match next with Some _ => 0 < zlen batch | None => True end.
Proof.
  unfold next_dir_cursor. destruct eof; [by intros [= <-]|].
  destruct batch as [|e batch] using rev_ind; [done|]. destruct next; [|done]. intros _. zlen_lia.
Qed.
Lemma from_wire_all_length l l' : DirEntry.from_wire_all l = Ok l' → zlen l' = zlen l.
Proof.
  revert l'. induction l as [|e l IH]; intros l'; [by intros [= <-]|]. cbn [DirEntry.from_wire_all].
  intros (d & _ & (r & Hr & [= <-])%outcome_bind_Ok)%outcome_bind_Ok. specialize (IH _ Hr). zlen_lia.
Qed.

#[export] Hint Resolve response_getfh_safe response_access_safe response_readlink_safe response_commit_safe
  response_lock_test_safe response_lock_unlock_safe response_release_safe response_readdir_safe
  response_read_safe response_write_safe ensure_last_status_safe finish_with_close_safe advance_offset_safe
  require_minor_version_safe validate_lock_owner_safe validate_stateid_batch_safe validate_dir_entries_safe
  distinct_handles_safe required_type_safe split_parent_safe path_ops_safe public_path_ops_safe
  parent_path_ops_safe parse_basic_safe parse_fsstat_safe parse_pathconf_safe from_wire_all_safe
  next_dir_cursor_safe dir_page_safe from_set_attrs_safe size_attr_safe mode_attr_safe
  supported_basic supported_fsstat supported_pathconf response_getattr_safe parse_supported_attrs_safe
  known_supported path_components_safe ok_or_safe ensure_ok_safe response_test_stateids_safe
  response_lock_safe response_open_safe validate_open_result_safe : fault_free.

(** ** Following the code *)

(** The file is closed again whatever the body did. *)
Lemma tame_finish_opened {S A} (I : S → Prop) (T : S → S → Prop) `{!PreOrder T} (close : M S Error unit) (m : M S Error A) :
  Tame I T close → Tame I T m → Tame I T (Files.finish_opened close m).
Proof.
  intros Hc Hm. unfold Files.finish_opened. apply tame_bind; [apply _|by apply tame_attempt|intros r].
  apply tame_bind; [apply _|by apply tame_attempt|intros c]. apply tame_lift; [apply _|apply finish_with_close_safe].
Qed.

(** Follow the code; what it calls is found by instance search. *)
Ltac file_steps :=
  repeat lazymatch goal with
    | |- Tame _ _ (mbind _ _) => apply tame_bind; [apply _| |intros ?]
    | |- Tame _ _ (mret _) => apply tame_ret, _
    | |- Tame _ _ (throw _) => apply tame_throw, _
    | |- Tame _ _ (attempt _) => apply tame_attempt
    | |- Tame _ _ (lift _) => apply tame_lift; [apply _|solve [eauto with fault_free]]
    | |- Tame _ _ (match _ with _ => _ end) => case_match
    | |- Tame _ _ (Files.finish_opened _ _) => apply tame_finish_opened; [apply _| |]
    | |- Tame _ _ _ => apply _
    end.

(** A part of a loop body whose value is not needed. *)
Ltac skip_step := apply tames_then; [apply _|file_steps|intros ?].

(** The next offset, and its growth. *)
Lemma tames_advance {S} (I : S → Prop) (T : S → S → Prop) `{!PreOrder T} offset amount op :
  tames I T (lift (V4Client.advance_offset offset amount op)) (λ o, o = offset + amount ∧ o ≤ u64_max).
Proof. apply tames_lift; [apply _|eauto with fault_free|]. apply advance_offset4_Ok. Qed.

Ltac advance_step o Ho := eapply tames_bind; [apply _|apply tames_advance; apply _|intros o Ho; cbn beta in Ho].
Ltac done_step := apply tames_ret; [apply _|try done].

(** ** Operations on names *)

(** The main calls move the network along [N]. *)
Class MainMoves {W R : Type} `{!Nfs4Rpc W R} (N : W → W → Prop) :=
  main_moves : ∀ minor_version operations n r,
    N n (rpc_compound (R := R) main_tag minor_version operations (n, r)).1.1.

Section any_server.
Context {W R : Type} `{!Nfs4Rpc W R, !Nfs4Net W R, !Nfs4Laws W R}.
Context (N : W → W → Prop) `{!Moves N, !MainMoves (R := R) N}.
Abbreviation tame_files := (Tame world_inv (world_move N)).

#[local] Instance world_move_refl : Reflexive (world_move (R := R) N).
Proof. apply (world_move_preorder N). Qed.
#[local] Instance world_move_trans : Transitive (world_move (R := R) N).
Proof. apply (world_move_preorder N). Qed.

#[export] Instance tame_file_compound operations : tame_files (compound operations).
Proof. exact (tame_compound N main_moves operations). Qed.
#[export] Instance tame_file_status operations : tame_files (compound_status operations).
Proof. eapply tames_mono; [exact (tames_compound_status N main_moves operations)|done]. Qed.
#[export] Instance tame_file_field {A} (g : Client.Client R → A) : tame_files (field g).
Proof. exact (tames_move N _ _ (tame_field N g)). Qed.
#[export] Instance tame_file_seqid : tame_files advance_open_seqid.
Proof. exact (tames_move N _ _ (tame_advance_open N)). Qed.
#[export] Instance tame_file_sleep d : tame_files (on_env (thread_sleep d)).
Proof. exact (tames_move N _ _ (tame_on_env N _ (tame_sleep N d))). Qed.
#[export] Instance tame_file_recover : tame_files recover_session.
Proof. exact (tame_recover_session N). Qed.

#[export] Instance tame_file_recovery operations : tame_files (recovery_compound operations).
Proof. exact (tames_move N _ _ (tame_recovery_compound N operations)). Qed.

#[export] Instance tame_ensure_status r op : tame_files (Files.ensure_status r op).
Proof. unfold Files.ensure_status, Files.ensure_status_for. file_steps. Qed.
#[export] Instance tame_lookup path : tame_files (Files.lookup path).
Proof. unfold Files.lookup. file_steps. Qed.
#[export] Instance tame_or_missing m : tame_files m → tame_files (Files.or_missing m).
Proof. intros Hm. unfold Files.or_missing. file_steps. Qed.
#[export] Instance tame_lookup_public path : tame_files (Files.lookup_public path).
Proof. unfold Files.lookup_public. file_steps. Qed.
#[export] Instance tame_exists path : tame_files (Files.exists_ path).
Proof. unfold Files.exists_. file_steps. Qed.
#[export] Instance tame_public_exists path : tame_files (Files.public_exists path).
Proof. unfold Files.public_exists. file_steps. Qed.
#[export] Instance tame_file_handle path : tame_files (Files.file_handle path).
Proof. unfold Files.file_handle. file_steps. Qed.
#[export] Instance tame_public_file_handle path : tame_files (Files.public_file_handle path).
Proof. unfold Files.public_file_handle. file_steps. Qed.
#[export] Instance tame_parent_file_handle path : tame_files (Files.parent_file_handle path).
Proof. unfold Files.parent_file_handle. file_steps. Qed.

#[export] Instance tame_file_supported path : tame_files (supported_attrs path).
Proof. exact (tame_supported_attrs N main_moves path). Qed.

(** Attributes the client knows can be asked for. *)
Definition askable (attrs : list Z) : Prop := ∀ s, fault_free (Bitmap.from_supported_attrs s attrs).

Lemma tame_supported_values path attrs : askable attrs → tame_files (get_supported_attr_values path attrs).
Proof.
  intros Ha. unfold askable in Ha. unfold get_supported_attr_values, supported_attr_request. file_steps.
Qed.
#[export] Instance tame_getattr_values path attrs : tame_files (Files.getattr_values path attrs).
Proof. unfold Files.getattr_values. file_steps. Qed.
#[export] Instance tame_getattr path : tame_files (Files.getattr path).
Proof. unfold Files.getattr. file_steps. apply tame_supported_values. intros s. eauto with fault_free. Qed.
#[export] Instance tame_metadata path : tame_files (Files.metadata path).
Proof. apply tame_getattr. Qed.
#[export] Instance tame_file_type path : tame_files (Files.file_type path).
Proof. unfold Files.file_type. file_steps. Qed.
#[export] Instance tame_fsstat path : tame_files (Files.fsstat path).
Proof. unfold Files.fsstat. file_steps. apply tame_supported_values. intros s. eauto with fault_free. Qed.
#[export] Instance tame_pathconf path : tame_files (Files.pathconf path).
Proof. unfold Files.pathconf. file_steps. apply tame_supported_values. intros s. eauto with fault_free. Qed.
#[export] Instance tame_public_getattr path : tame_files (Files.public_getattr path).
Proof.
  unfold Files.public_getattr, Files.public_supported_attr_values, Files.public_supported_attrs,
    Files.public_getattr_values. file_steps.
Qed.
#[export] Instance tame_access path a : tame_files (Files.access path a).
Proof. unfold Files.access. file_steps. Qed.
#[export] Instance tame_public_access path a : tame_files (Files.public_access path a).
Proof. unfold Files.public_access. file_steps. Qed.
#[export] Instance tame_read_link path : tame_files (Files.read_link path).
Proof. unfold Files.read_link. file_steps. Qed.

Lemma tame_create_entry path kind attrs : fault_free attrs → tame_files (Files.create_entry path kind attrs).
Proof. intros Ha. unfold Files.create_entry, Files.ensure_status_for. file_steps. Qed.
#[export] Instance tame_mkdir path mode : tame_files (Files.mkdir path mode).
Proof. apply tame_create_entry. eauto with fault_free. Qed.
#[export] Instance tame_symlink path target : tame_files (Files.symlink path target).
Proof. by apply tame_create_entry. Qed.
#[export] Instance tame_create_special path kind mode : tame_files (Files.create_special path kind mode).
Proof. apply tame_create_entry. eauto with fault_free. Qed.
#[export] Instance tame_hard_link existing link : tame_files (Files.hard_link existing link).
Proof. unfold Files.hard_link. file_steps. Qed.
#[export] Instance tame_remove path : tame_files (Files.remove path).
Proof. unfold Files.remove. file_steps. Qed.
#[export] Instance tame_rmdir path : tame_files (Files.rmdir path).
Proof. apply tame_remove. Qed.
#[export] Instance tame_if_exists m : tame_files m → tame_files (Files.if_exists m).
Proof. intros Hm. unfold Files.if_exists. file_steps. Qed.
#[export] Instance tame_rename from to : tame_files (Files.rename from to).
Proof. unfold Files.rename. file_steps. Qed.

(** ** Opening and closing *)

Lemma tames_file_policy : tames world_inv (world_move N) (field Client.retry_policy) policy_ok.
Proof. exact (tames_move N _ _ (tames_policy N)). Qed.

(** The loop variables of OPEN and CLOSE: one recovery, and retries within the policy. *)
Definition recovering_ok (l l' : Z * bool) : Prop := 0 ≤ l'.1 ≤ u32_max ∧ loop_measure l' < loop_measure l.

Lemma tames_recovering_loop {A} (body : Z * bool → M (World W R) Error (Z * bool + A)) :
  (∀ l, 0 ≤ l.1 ≤ u32_max →
     tames world_inv (world_move N) (body l)
       (λ r, match r with inl l' => recovering_ok l l' | inr _ => True end)) →
  tame_files (loop retry_fuel body (0, false)).
Proof.
  intros Hb. apply (tames_loop _ _ (λ l, 0 ≤ l.1 ≤ u32_max) loop_measure); [|exact Hb|by vm_compute..].
  intros [retry []]; unfold loop_measure; simpl; lia.
Qed.

(** Going round again, after a delay of the policy or a recovery. *)
Lemma tames_go_round {A} (l l' : Z * bool) :
  recovering_ok l l' →
  tames world_inv (world_move N) (continue_ (E := Error) (A := A) l')
    (λ r, match r with inl l' => recovering_ok l l' | inr _ => True end).
Proof. intros H. by apply tames_ret; [apply _|]. Qed.
Lemma recovering_delay p retry r d :
  policy_ok p → 0 ≤ retry ≤ u32_max → delay_for_retry p retry = Some d →
  recovering_ok (retry, r) (retry + 1, r).
Proof.
  intros Hp Hr Hd. pose proof (policy_retry_max _ _ _ Hp (proj1 Hr) Hd).
  unfold recovering_ok, loop_measure. simpl. lia.
Qed.
Lemma recovering_recovery retry : 0 ≤ retry ≤ u32_max → recovering_ok (retry, false) (retry, true).
Proof. unfold recovering_ok, loop_measure. simpl. lia. Qed.

#[export] Instance tame_current_seqid : tame_files current_open_seqid.
Proof. unfold current_open_seqid. apply _. Qed.

#[export] Instance tame_close_current operations stateid :
  tame_files (Files.close_with_current_filehandle operations stateid).
Proof.
  apply tames_recovering_loop. intros [retry r] Hr. unfold Files.close_step.
  do 2 skip_step. case_match; [|case_match; [|apply tames_throw, _]].
  - skip_step. eapply tames_bind; [apply _|apply tames_file_policy|]. intros p Hp.
    destruct (response_operation_has_delayed_status _ _); [destruct (delay_for_retry p retry) eqn:Hd|].
    + skip_step. by eapply tames_go_round, recovering_delay.
    + case_match; [skip_step; apply tames_throw, _|]. do 2 skip_step. by apply tames_ret; [apply _|].
    + case_match; [skip_step; apply tames_throw, _|]. do 2 skip_step. by apply tames_ret; [apply _|].
  - destruct r; [by rewrite andb_false_r in *|]. by apply tames_go_round, recovering_recovery.
Qed.
#[export] Instance tame_close opened : tame_files (Files.close opened).
Proof. apply tame_close_current. Qed.
#[export] Instance tame_close_by_path path stateid : tame_files (Files.close_state_by_path path stateid).
Proof. unfold Files.close_state_by_path. file_steps. Qed.
#[export] Instance tame_cleanup_failed path error closed cleanup :
  tame_files (Files.cleanup_failed_open path error closed cleanup).
Proof. unfold Files.cleanup_failed_open. file_steps. Qed.
#[export] Instance tame_return_delegation handle stateid :
  tame_files (Files.return_open_delegation handle stateid).
Proof. unfold Files.return_open_delegation. file_steps. Qed.

(** Opening, wherever the file is and however a failed OPEN is cleaned up. *)
Section opening.
Context (operations : Z → Z → outcome Error (list Operation)) (close_state : StateId.StateId → M (World W R) Error unit).
Context (cleaned : Error → unit + Error → M (World W R) Error Error).
Context (Hops : ∀ seqid id, fault_free (operations seqid id)) `{!∀ id, tame_files (close_state id)}.
Context `{!∀ error closed, tame_files (cleaned error closed)}.

Lemma tame_cleanup_response r error : tame_files (Files.cleanup_open_response close_state cleaned r error).
Proof.
  unfold Files.cleanup_open_response. pose proof (response_open_safe r) as Hf.
  destruct (response_open r) as [o|e|f]; [file_steps..|by destruct (Hf f)].
Qed.
Lemma tame_opened_file r : tame_files (Files.opened_file close_state cleaned r).
Proof.
  unfold Files.opened_file. apply tame_bind; [apply _|file_steps|]. intros o.
  pose proof (response_getfh_safe r) as Hf. destruct (response_getfh r) as [h|e|f]; [|file_steps|by destruct (Hf f)].
  apply tame_bind; [apply _|file_steps|]. intros v.
  pose proof (validate_open_result_safe o v) as Hv.
  destruct (validate_open_result o v) as [d|e|f]; [|file_steps|by destruct (Hv f)]. file_steps.
Qed.
Lemma tame_opening : tame_files (loop retry_fuel (Files.opening_step operations close_state cleaned) (0, false)).
Proof.
  apply tames_recovering_loop. intros [retry r] Hr. unfold Files.opening_step.
  do 4 skip_step. case_match; [|case_match; [|apply tames_throw, _]].
  - skip_step. eapply tames_bind; [apply _|apply tames_file_policy|]. intros p Hp.
    set (rest := if _ && negb r then _ else _).
    assert (tames world_inv (world_move N) rest
      (λ x, match x with inl l' => recovering_ok (retry, r) l' | inr _ => True end)) as Hrest.
    { subst rest. case_match.
      - skip_step. destruct r; [by rewrite andb_false_r in *|]. by apply tames_go_round, recovering_recovery.
      - pose proof (ensure_ok_safe c) as Hf. destruct (CompoundResponse.ensure_ok c) as [[]|e|f];
          [|..|by destruct (Hf f)];
          (apply tames_then; [apply _|first [apply tame_opened_file|apply tame_cleanup_response]|intros ?]);
          [by apply tames_ret; [apply _|]|apply tames_throw, _]. }
    destruct (response_operation_has_delayed_status _ _); [destruct (delay_for_retry p retry) eqn:Hd|]; [|done..].
    skip_step. by eapply tames_go_round, recovering_delay.
  - destruct r; [by rewrite andb_false_r in *|]. by apply tames_go_round, recovering_recovery.
Qed.
End opening.

#[export] Instance tame_open_with_owner_cleanup path access openhow cleanup owner :
  tame_files (Files.open_with_owner_failure_cleanup path access openhow cleanup owner).
Proof.
  unfold Files.open_with_owner_failure_cleanup. apply tame_bind; [apply _|file_steps|]. intros [parent name].
  by apply tame_opening; [|apply _..].
Qed.

#[export] Instance tame_open_with_cleanup path access openhow cleanup :
  tame_files (Files.open_with_failure_cleanup path access openhow cleanup).
Proof. unfold Files.open_with_failure_cleanup. file_steps. Qed.
#[export] Instance tame_open path access openhow : tame_files (Files.open path access openhow).
Proof. unfold Files.open. file_steps. Qed.
#[export] Instance tame_open_with_owner path access openhow owner :
  tame_files (Files.open_with_owner path access openhow owner).
Proof. unfold Files.open_with_owner. file_steps. Qed.
#[export] Instance tame_open_temp path access openhow : tame_files (Files.open_temp path access openhow).
Proof. unfold Files.open_temp. file_steps. Qed.

(** ** Transfers *)

(** A READ returns no more than was asked for. *)
Lemma tames_read_opened_at opened offset count :
  tames world_inv (world_move N) (Files.read_opened_at opened offset count) (λ r, zlen r.2 ≤ count).
Proof.
  unfold Files.read_opened_at. skip_step. apply tames_lift; [apply _|eauto with fault_free|]. apply response_read_size.
Qed.
#[export] Instance tame_read_opened_at opened offset count :
  tame_files (Files.read_opened_at opened offset count).
Proof. eapply tames_mono; [apply tames_read_opened_at|done]. Qed.

(** The sizes of a well-formed client. *)
Lemma tames_client_field {A} (g : Client.Client R → A) Q :
  (∀ c, client_inv c → Q (g c)) → tames world_inv (world_move N) (field g) Q.
Proof. intros HQ. apply tames_gets; [apply _|]. intros w [Hc _]. by apply HQ. Qed.

Lemma wrap_u32_le x : 0 ≤ x → 0 ≤ wrap_u32 x ≤ x.
Proof. intros Hx. unfold wrap_u32. pose proof (Z.mod_pos_bound x (2 ^ 32)). pose proof (Z.mod_le x (2 ^ 32)). lia. Qed.
Lemma wrap_u32_size x : size_ok x → wrap_u32 x = x.
Proof. intros Hx. apply Z.mod_small. unfold size_ok, NFS4_MAX_IO in Hx. lia. Qed.

(** A transfer whose offset grows with every turn. *)
Lemma tame_transfer {S L A} (I : S → Prop) (T : S → S → Prop) `{!PreOrder T} (offset : L → Z)
    (body : L → M S Error (L + A)) Q l :
  (∀ l, 0 ≤ offset l ≤ u64_max →
     tames I T (body l)
       (λ r, match r with inl l' => offset l < offset l' ≤ u64_max | inr a => Q a end)) →
  0 ≤ offset l ≤ u64_max → tames I T (loop Files.offset_fuel body l) Q.
Proof.
  intros Hb Hl. apply (tames_loop _ _ (λ l, 0 ≤ offset l ≤ u64_max) (λ l, u64_max - offset l)).
  - lia.
  - intros l' Hl'. eapply tames_mono; [by apply Hb|]. intros [l1|a]; [lia|done].
  - done.
  - change (Zpos Files.offset_fuel) with (u64_max + 2). lia.
Qed.

(** Next to a reader, a writer or the environment of temporary names. *)
Definition beside_inv {X} (p : World W R * X) : Prop := world_inv p.1.
Definition beside_move {X} (p q : World W R * X) : Prop := world_move N p.1 q.1.
#[export] Instance beside_preorder {X} : PreOrder (beside_move (X := X)).
Proof.
  destruct (world_move_preorder N) as [Hr Ht]. unfold beside_move.
  split; [intros p; apply Hr|]. intros p q r. apply Ht.
Qed.
Abbreviation tame_beside := (Tame beside_inv beside_move).

Lemma tames_on_fst {X A} (m : M (World W R) Error A) Q :
  tames world_inv (world_move N) m Q → tames beside_inv (beside_move (X := X)) (on_fst m) Q.
Proof.
  intros Hm [w x] Hw. specialize (Hm w Hw). unfold post, on_fst, zoom in *. simpl.
  by destruct (m w) as [w' [a|e|f]].
Qed.
#[export] Instance tame_on_fst {X A} (m : M (World W R) Error A) : tame_files m → tame_beside (on_fst (T := X) m).
Proof. apply tames_on_fst. Qed.
(** The other part of the state is out of the client's way. *)
Lemma tame_other {X E A} (m : M X E A) (g : E → Error) :
  NoFault m → tame_beside (map_err g (zoom snd (λ x p, (p.1, x)) m)).
Proof.
  intros Hm [w x] Hw. specialize (Hm x). pose proof (world_move_refl w) as Hrefl.
  unfold post, map_err, zoom. simpl.
  by destruct (m x) as [x' [a|e|f]]; [| |destruct (Hm f)].
Qed.
#[export] Instance tame_write_out `{!Writer Wr, !WriterLaws Wr} bs : tame_beside (Files.write_out (Wr := Wr) bs).
Proof. apply tame_other. intros s. apply writer_fault_free. Qed.
#[export] Instance tame_read_in `{!Reader Rd, !ReaderLaws Rd} n : tame_beside (Files.read_in (Rd := Rd) n).
Proof. apply tame_other. intros s. apply reader_fault_free. Qed.

#[export] Instance tame_read_to_end opened : tame_files (Files.read_opened_to_end opened).
Proof.
  apply (tame_transfer _ _ (λ l, l.1)); [|done]. intros [offset out] Ho. simpl in *. unfold Files.read_opened_to_end_step.
  skip_step. eapply tames_bind; [apply _|apply tames_read_opened_at|]. intros [eof data] _.
  case_match eqn:He; [done_step|]. apply is_empty_false in He. advance_step o Ho'.
  case_match; done_step. simpl. lia.
Qed.

#[export] Instance tame_read_to_writer `{!Writer Wr, !WriterLaws Wr} opened :
  tame_beside (Files.read_opened_to_writer (Wr := Wr) opened).
Proof.
  apply (tame_transfer _ _ (λ l, l.1)); [|done]. intros [offset total] Ho. simpl in *.
  unfold Files.read_opened_to_writer_step.
  skip_step. eapply tames_bind; [apply _|apply tames_on_fst, tames_read_opened_at|]. intros [eof data] _.
  case_match eqn:He; [done_step|]. apply is_empty_false in He. skip_step. advance_step o Ho'. advance_step t Ht.
  case_match; done_step. simpl. lia.
Qed.

(** A range transfer never hands on more than was asked for. *)
Lemma tames_read_range_to_writer `{!Writer Wr, !WriterLaws Wr} opened offset remaining :
  0 ≤ offset ≤ u64_max → 0 ≤ remaining →
  tames beside_inv beside_move (Files.read_opened_range_to_writer (Wr := Wr) opened offset remaining)
    (λ total, 0 ≤ total ≤ remaining).
Proof.
  intros Ho Hr.
  apply (tames_loop _ _ (λ '(o, rem, t), 0 ≤ o ≤ u64_max ∧ 0 ≤ rem ∧ 0 ≤ t ∧ rem + t = remaining)
           (λ l, u64_max - l.1.1)); [intros [[o rem] t]; simpl; lia| |lia|].
  - intros [[o rem] t] (Hoff & Hrem & Ht & Hsum). unfold Files.read_opened_range_to_writer_step.
    destruct (Z.gtb_spec rem 0); cbn [negb]; [|done_step; lia].
    eapply tames_bind; [apply _|apply tames_on_fst, (tames_client_field _ size_ok); by intros c []|]. intros size Hsize.
    eapply tames_bind; [apply _|apply tames_on_fst, tames_read_opened_at|]. intros [eof data] Hlen. simpl in Hlen.
    case_match eqn:He; [done_step; lia|]. apply is_empty_false in He. skip_step. advance_step o1 Ho1. advance_step t1 Ht1.
    pose proof (wrap_u32_le (Z.min size rem)). assert (zlen data ≤ rem) by (unfold size_ok in Hsize; lia).
    case_match; done_step; simpl; lia.
  - change (Zpos Files.offset_fuel) with (u64_max + 2). simpl. lia.
Qed.

Lemma tames_read_range_vec opened offset count :
  0 ≤ offset ≤ u64_max → 0 ≤ count → tame_files (Files.read_opened_range_vec opened offset count).
Proof.
  intros Ho Hc w Hw. pose proof (tames_read_range_to_writer (Wr := list byte) opened offset count Ho Hc (w, []) Hw) as H.
  unfold post, Files.read_opened_range_vec in *.
  by destruct (Files.read_opened_range_to_writer opened offset count (w, [])) as [[w' out] [a|e|f]];
    [destruct H as (_ & ? & ?)|destruct H|].
Qed.

#[export] Instance tame_commit_opened opened offset count : tame_files (Files.commit_opened opened offset count).
Proof. unfold Files.commit_opened. file_steps. Qed.

Lemma tames_compound_sane operations :
  tames world_inv (world_move N) (compound operations) response_sane.
Proof.
  eapply tames_bind; [apply _|exact (tames_compound_status N main_moves operations)|]. intros r [_ Hs].
  skip_step. done_step.
Qed.

(** A WRITE takes at least one byte, so the data gets shorter. *)
#[export] Instance tame_write_opened_at opened offset data : tame_files (Files.write_opened_at opened offset data).
Proof.
  apply (tames_loop _ _ (λ _, True) (λ l, zlen l.2)); [intros [o d] _; simpl; zlen_lia| |done|].
  - intros [o d] _. unfold Files.write_opened_at_step. case_match eqn:He; [done_step|]. apply is_empty_false in He.
    eapply tames_bind; [apply _|apply (tames_client_field _ size_ok); by intros c []|]. intros size Hsize.
    assert (size_ok (Z.min (zlen d) size)) as Hchunk by (unfold size_ok in *; lia).
    eapply tames_bind; [apply _|apply tames_compound_sane|]. intros r Hr.
    eapply tames_bind; [apply _|apply tames_lift; [apply _|eauto with fault_free|]|].
    { intros res Hres. rewrite wrap_u32_size in Hres by done. revert Hres. apply response_write_count; [done|].
      unfold size_ok in Hchunk. lia. }
    intros res Hcount. cbn beta in Hcount. skip_step. skip_step. case_match eqn:Hp; [apply Z.ltb_lt in Hp; lia|]. skip_step.
    done_step. simpl. split; [done|]. rewrite zlen_drop; lia.
  - simpl. zlen_lia.
Qed.

#[export] Instance tame_write_from_reader `{!Reader Rd, !ReaderLaws Rd} opened offset :
  0 ≤ offset ≤ u64_max → tame_beside (Files.write_opened_from_reader_at (Rd := Rd) opened offset).
Proof.
  intros Ho. unfold Files.write_opened_from_reader_at. skip_step.
  apply (tame_transfer _ _ (λ l, l.1)); [|done]. intros [o written] Hoff. simpl in *.
  unfold Files.write_opened_from_reader_at_step. skip_step. case_match eqn:He; [done_step|]. apply is_empty_false in He.
  skip_step. advance_step o1 Ho1. advance_step t Ht. done_step. simpl. lia.
Qed.

#[export] Instance tame_copy_opened source target : tame_files (Files.copy_opened source target).
Proof.
  apply (tame_transfer _ _ (λ l, l)); [|done]. intros o Ho. unfold Files.copy_opened_step. skip_step.
  skip_step. case_match. case_match eqn:He; [done_step|]. apply is_empty_false in He. skip_step.
  advance_step o1 Ho1. case_match; done_step. lia.
Qed.

#[export] Instance tame_set_opened_attrs opened attrs : tame_files (Files.set_opened_attrs opened attrs).
Proof. unfold Files.set_opened_attrs. file_steps. Qed.
#[export] Instance tame_set_opened_size opened size : tame_files (Files.set_opened_size opened size).
Proof. unfold Files.set_opened_size. file_steps. Qed.
#[export] Instance tame_update_opened_allocation opened offset length op :
  tame_files (Files.update_opened_allocation opened offset length op).
Proof. unfold Files.update_opened_allocation. file_steps. Qed.

(** ** Files by path *)

#[export] Instance tame_read path : tame_files (Files.read path).
Proof. unfold Files.read. file_steps. Qed.

Section ranges.
Context (offset count : Z) (Hoffset : 0 ≤ offset ≤ u64_max) (Hcount : 0 ≤ count).
#[local] Instance tame_range_vec opened : tame_files (Files.read_opened_range_vec opened offset count).
Proof. by apply tames_read_range_vec. Qed.
Lemma tame_read_range path : tame_files (Files.read_range path offset count).
Proof. unfold Files.read_range. file_steps. Qed.
Lemma tame_read_at path : tame_files (Files.read_at path offset count).
Proof. unfold Files.read_at, Files.read_opened_range. file_steps. Qed.
Lemma tame_read_exact_at path : tame_files (Files.read_exact_at path offset count).
Proof. pose proof (tame_read_at path). unfold Files.read_exact_at. file_steps. Qed.
Lemma tame_read_range_to_writer `{!Writer Wr, !WriterLaws Wr} path :
  tame_beside (Files.read_range_to_writer (Wr := Wr) path offset count).
Proof.
  unfold Files.read_range_to_writer. file_steps.
  eapply tames_mono; [by apply tames_read_range_to_writer|done].
Qed.
End ranges.

#[export] Instance tame_path_to_writer `{!Writer Wr, !WriterLaws Wr} path : tame_beside (Files.read_to_writer (Wr := Wr) path).
Proof. unfold Files.read_to_writer. file_steps. Qed.
#[export] Instance tame_unchecked mode : tame_files (Files.unchecked mode).
Proof. unfold Files.unchecked. file_steps. Qed.
#[export] Instance tame_guarded mode : tame_files (Files.guarded mode).
Proof. unfold Files.guarded. file_steps. Qed.
#[export] Instance tame_write_with_mode path data mode : tame_files (Files.write_with_mode path data mode).
Proof. unfold Files.write_with_mode. file_steps. Qed.
#[export] Instance tame_truncate path size : tame_files (Files.truncate path size).
Proof. unfold Files.truncate. file_steps. Qed.
#[export] Instance tame_write_at path offset data : tame_files (Files.write_at path offset data).
Proof. unfold Files.write_at. file_steps. Qed.
#[export] Instance tame_append_offset path : tame_files (Files.append_offset path).
Proof. unfold Files.append_offset. file_steps. Qed.
#[export] Instance tame_append path data : tame_files (Files.append path data).
Proof. unfold Files.append. file_steps. Qed.
#[export] Instance tame_write_path_from_reader `{!Reader Rd, !ReaderLaws Rd} path mode :
  tame_beside (Files.write_from_reader_with_mode (Rd := Rd) path mode).
Proof.
  unfold Files.write_from_reader_with_mode, Files.write_opened_from_reader. file_steps.
  by apply tame_write_from_reader.
Qed.
#[export] Instance tame_update_allocation path offset length op :
  tame_files (Files.update_allocation path offset length op).
Proof. unfold Files.update_allocation. file_steps. Qed.
#[export] Instance tame_setattr path attrs : tame_files (Files.setattr path attrs).
Proof. unfold Files.setattr. file_steps. Qed.
#[export] Instance tame_create_new path mode : tame_files (Files.create_new_with_mode path mode).
Proof. unfold Files.create_new_with_mode. file_steps. Qed.
#[export] Instance tame_commit path offset count : tame_files (Files.commit path offset count).
Proof. unfold Files.commit. file_steps. Qed.

(** ** Copies and atomic replacement *)

#[export] Instance tame_distinct_paths from to : tame_files (Files.ensure_distinct_paths from to).
Proof. unfold Files.ensure_distinct_paths. file_steps. Qed.
#[export] Instance tame_copied_mode from : tame_files (Files.copied_mode from).
Proof. unfold Files.copied_mode. file_steps. Qed.
#[export] Instance tame_or_close source context m : tame_files m → tame_files (Files.or_close source context m).
Proof. intros Hm. unfold Files.or_close. file_steps. Qed.
#[export] Instance tame_close_both target source : tame_files (Files.close_both target source).
Proof. unfold Files.close_both. file_steps. Qed.
#[export] Instance tame_copy from to : tame_files (Files.copy from to).
Proof.
  unfold Files.copy. do 5 (apply tame_bind; [apply _|file_steps|intros ?]).
  pose proof (distinct_handles_safe (handle a1) (handle a3)) as Hf.
  destruct (ensure_distinct_copy_handles _ _) as [[]|e|f]; [file_steps..|by destruct (Hf f)].
Qed.

#[export] Instance tame_on_temp {A} (m : M TempEnv Error A) : NoFault m → tame_beside (Files.on_temp m).
Proof.
  intros Hm [w x] Hw. pose proof (tame_other m id Hm (w, x) Hw) as H. unfold post, map_err, Files.on_temp, zoom in *.
  simpl in *. by destruct (m x) as [x' [a|e|f]].
Qed.
#[export] Instance no_fault_lift {S E A} (o : outcome E A) : fault_free o → NoFault (S := S) (lift o).
Proof. by intros Ho s. Qed.
#[export] Instance no_fault_sibling path : NoFault (V4Extract.temporary_sibling_path path).
Proof.
  unfold V4Extract.temporary_sibling_path. apply no_fault_bind; [apply no_fault_lift; eauto with fault_free|]. intros l.
  apply no_fault_bind; [apply no_fault_lift; eauto with fault_free|]. intros [l' b].
  apply no_fault_bind; [by intros s|]. intros name. apply no_fault_ret.
Qed.
#[export] Instance no_fault_open_owner host : NoFault (default_open_owner host).
Proof. by intros s. Qed.
#[export] Instance no_fault_lock_owner host : NoFault (default_lock_owner host).
Proof. by intros s. Qed.

#[export] Instance tame_finish_temp {A} (r : A + Error) created temp context :
  tame_files (Files.finish_with_temp_cleanup r created temp context).
Proof. unfold Files.finish_with_temp_cleanup. file_steps. Qed.
#[export] Instance tame_write_atomic path data mode : tame_beside (Files.write_atomic_with_mode path data mode).
Proof.
  unfold Files.write_atomic_with_mode. file_steps. apply tame_on_fst. file_steps.
Qed.
#[export] Instance tame_copy_atomic from to : tame_beside (Files.copy_atomic from to).
Proof. unfold Files.copy_atomic. file_steps; apply tame_on_fst; file_steps. Qed.

(** ** Directories *)

#[export] Instance tame_basic_request path : tame_files (supported_attr_request path FATTR4_BASIC_ATTRS).
Proof. unfold supported_attr_request. file_steps. Qed.

(** Listings, wherever the directory is. *)
Section listing.
Context (request : M (World W R) Error Bitmap.Bitmap) (operations : Operation → outcome Error (list Operation)).
Context (results : CompoundResponse → outcome Error (list byte * list WireDirEntry * bool)) (what : string).
Context `{!tame_files request} (Hops : ∀ op, fault_free (operations op)) (Hresults : ∀ r, fault_free (results r)).

Lemma tame_listing_page cursor max : tame_files (Files.listing_page request operations results cursor max).
Proof. unfold Files.listing_page. file_steps. Qed.

(** A listing stays within its limit; every page but the last adds to it. *)
Lemma tames_listing max :
  0 ≤ max < usize_max →
  tames world_inv (world_move N) (Files.listing request operations results what max) (λ entries, zlen entries ≤ max).
Proof.
  intros Hmax. unfold Files.listing. skip_step.
  apply (tames_loop _ _ (λ l, zlen l.2 ≤ max) (λ l, max - zlen l.2)); [intros l; lia| |simpl; zlen_lia|simpl; zlen_lia].
  intros [[cookie verf] entries] Hlen. simpl in Hlen. unfold Files.listing_step.
  do 3 skip_step. eapply tames_bind; [apply _|apply tame_lift; [apply _|eauto with fault_free]|].
  intros [[verf' batch] eof] _.
  eapply tames_bind; [apply _|apply tames_lift; [apply _|eauto with fault_free|apply next_dir_cursor_batch]|].
  intros next Hnext. case_match eqn:Hsat; [apply tames_throw, _|]. rewrite Z.gtb_ltb in Hsat.
  apply Z.ltb_ge in Hsat. unfold saturating_add in Hsat. cbn beta in Hnext.
  eapply tames_bind; [apply _|apply tames_lift; [apply _|eauto with fault_free|apply from_wire_all_length]|].
  intros batch' Hbatch. cbn beta in Hbatch. case_match; done_step; simpl; zlen_lia.
Qed.
End listing.

#[export] Instance tame_read_dir_page_limited path cursor max : tame_files (Files.read_dir_page_limited path cursor max).
Proof. apply tame_listing_page; [apply _|eauto with fault_free..]. Qed.
#[export] Instance tame_read_dir_page path cursor : tame_files (Files.read_dir_page path cursor).
Proof. unfold Files.read_dir_page. file_steps. Qed.
Lemma tames_read_dir path max :
  0 ≤ max < usize_max →
  tames world_inv (world_move N) (Files.read_dir_with_limit path max) (λ entries, zlen entries ≤ max).
Proof. apply tames_listing; [apply _|eauto with fault_free..]. Qed.

(** The limit of the client's builder, when it is a real one; [listing] is one of the listings. *)
Section limit.
Context (limit : Z) (Hlimit : 0 ≤ limit < usize_max).

Definition limited_inv (w : World W R) : Prop :=
  world_inv w ∧ ClientBuilder.max_dir_entries (Client.builder (client w)) = limit.

Lemma tames_limited {A} (m : M (World W R) Error A) Q :
  tames world_inv (world_move N) m Q → tames limited_inv (world_move N) m Q.
Proof. intros Hm. refine (tames_keep _ _ _ m Q _ Hm). by intros w w' Hw (_ & _ & ->). Qed.

Lemma tames_max_entries : tames limited_inv (world_move N) (field Client.max_dir_entries) (λ n, n = limit).
Proof. apply tames_gets; [apply _|]. intros w [[Hc _] Hl]. by rewrite (inv_dir_entries _ Hc). Qed.

Lemma tames_listing_all (listing : Z → M (World W R) Error (list DirEntry.DirEntry)) :
  (∀ max, 0 ≤ max < usize_max → tames world_inv (world_move N) (listing max) (λ entries, zlen entries ≤ max)) →
  tames limited_inv (world_move N) (n ← field Client.max_dir_entries; listing n) (λ entries, zlen entries ≤ limit).
Proof.
  intros Hl. eapply tames_bind; [apply _|apply tames_max_entries|]. intros n ->. by apply tames_limited, Hl.
Qed.
Lemma tames_listing_limited (listing : Z → M (World W R) Error (list DirEntry.DirEntry)) max :
  (∀ max, 0 ≤ max < usize_max → tames world_inv (world_move N) (listing max) (λ entries, zlen entries ≤ max)) →
  0 ≤ max → tames limited_inv (world_move N) (Files.listing_limited listing max) (λ entries, zlen entries ≤ Z.min max limit).
Proof.
  intros Hl Hmax. unfold Files.listing_limited.
  eapply tames_bind; [apply _|apply tames_limited, tame_lift; [apply _|eauto with fault_free]|].
  intros _ _. eapply tames_bind; [apply _|apply tames_max_entries|]. intros n ->. apply tames_limited, Hl. lia.
Qed.
End limit.

#[export] Instance tame_probe_directory path : tame_files (Files.probe_directory path).
Proof. unfold Files.probe_directory. file_steps. Qed.
#[export] Instance tame_ensure_directory path t : tame_files (Files.ensure_directory_type path t).
Proof. unfold Files.ensure_directory_type. file_steps. Qed.
#[export] Instance tame_path_is_directory path t : tame_files (Files.path_is_directory path t).
Proof. unfold Files.path_is_directory. file_steps. Qed.
#[export] Instance tame_create_dir_all path mode : tame_files (Files.create_dir_all path mode).
Proof.
  unfold Files.create_dir_all. apply tame_bind; [apply _|file_steps|]. intros l.
  generalize [slash] as current. induction l as [|c l IH]; intros current; cbn [Files.create_components]; [file_steps|].
  apply tame_bind; [apply _|file_steps|intros a]. apply tame_bind; [apply _|file_steps|intros _; apply IH].
Qed.

(** ** Locks *)

#[export] Instance tame_test_lock path t offset length owner :
  tame_files (Files.test_lock_with_owner path t offset length owner).
Proof. unfold Files.test_lock_with_owner. file_steps. Qed.
#[export] Instance tame_free_stateid stateid : tame_files (Files.free_stateid stateid).
Proof. unfold Files.free_stateid. file_steps. Qed.
#[export] Instance tame_release_owner owner : tame_files (Files.release_lock_owner owner).
Proof. unfold Files.release_lock_owner. file_steps. Qed.
#[export] Instance tame_test_stateids stateids : tame_files (Files.test_stateids stateids).
Proof. unfold Files.test_stateids. file_steps. Qed.
#[export] Instance tame_test_stateid stateid : tame_files (Files.test_stateid stateid).
Proof. unfold Files.test_stateid. file_steps. Qed.

(** The retries of LOCK and LOCKU are bounded by the policy. *)
Lemma tame_lock_loop {A} (body : Z * Z → M (World W R) Error (Z * Z + A)) l :
  (∀ l, 0 ≤ l.1 ≤ u32_max →
     tames world_inv (world_move N) (body l)
       (λ r, match r with inl l' => l.1 < l'.1 ≤ u32_max | inr _ => True end)) →
  l.1 = 0 → tame_files (loop retry_fuel body l).
Proof.
  intros Hb Hl. apply (tames_loop _ _ (λ l, 0 ≤ l.1 ≤ u32_max) (λ l, u32_max - l.1)); [lia| |rewrite Hl; by vm_compute..].
  intros l' Hl'. eapply tames_mono; [by apply Hb|]. intros [l1|a]; [lia|done].
Qed.

#[export] Instance tame_lock_opened opened t offset length owner :
  tame_files (Files.lock_opened opened t offset length owner).
Proof.
  apply tame_lock_loop; [|done]. intros [retry seqid] Hr. simpl in Hr. unfold Files.lock_opened_step.
  do 4 skip_step. eapply tames_bind; [apply _|apply tames_file_policy|]. intros p Hp.
  destruct (response_operation_has_delayed_status _ _); [destruct (delay_for_retry p retry) eqn:Hd|]; skip_step; done_step.
  simpl. pose proof (policy_retry_max _ _ _ Hp (proj1 Hr) Hd). lia.
Qed.
#[export] Instance tame_unlock_opened lock : tame_files (Files.unlock_opened lock).
Proof.
  apply tame_lock_loop; [|done]. intros [retry seqid] Hr. simpl in Hr. unfold Files.unlock_opened_step.
  skip_step. eapply tames_bind; [apply _|apply tames_file_policy|]. intros p Hp.
  destruct (response_operation_has_delayed_status _ _); [destruct (delay_for_retry p retry) eqn:Hd|]; skip_step; done_step.
  simpl. pose proof (policy_retry_max _ _ _ Hp (proj1 Hr) Hd). lia.
Qed.

(** What a client that took a lock knows: the token is the newest entry of its
    registry, and its state says what was asked for. *)
Definition lock_taken (w : World W R) (t : LockType.LockType) (offset length : Z) (owner : list byte)
    (token : ByteRangeLock.ByteRangeLock) (w' : World W R) : Prop :=
  world_inv w'
  ∧ Client.builder (client w') = Client.builder (client w)
  ∧ LockRegistry.entries (Client.locks (client w'))
    = LockRegistry.entries (Client.locks (client w)) ++ [ByteRangeLock.state token]
  ∧ ByteRangeLock.state token ∉ LockRegistry.entries (Client.locks (client w))
  ∧ ∃ st, env_locks (env w') !! ByteRangeLock.state token = Some st
      ∧ LockState.lost st = None ∧ LockState.owner st = owner
      ∧ (LockState.lock_type st, LockState.offset st, LockState.length st) = (t, offset, length).

Lemma post_register_lock w st :
  world_inv w → LockState.lost st = None →
  post (Files.register_lock st) w
    (lock_taken w (LockState.lock_type st) (LockState.offset st) (LockState.length st) (LockState.owner st))
    (λ _ _, False).
Proof.
  destruct w as [[n store sl] c]. intros [Hc Hr] Hl. unfold post, Files.register_lock. simpl in *.
  split_and!; simpl; [split; simpl|done|done| |].
  - destruct c, Hc. by split.
  - apply Forall_app. split; [eapply registry_ok_grow; [|exact Hr]; rewrite length_app; lia|].
    constructor; [rewrite length_app; simpl; lia|done].
  - intros Hin. eapply list.Forall_forall in Hr; [|exact Hin]. simpl in Hr. lia.
  - exists st. by rewrite lookup_app_r, Nat.sub_diag by lia.
Qed.

Lemma lock_taken_move w0 w t offset length owner token w' :
  world_move N w0 w → lock_taken w t offset length owner token w' → lock_taken w0 t offset length owner token w'.
Proof. intros (_ & Hl & Hb) (Hw & Hb' & Hl' & Hn & Hst). unfold lock_taken. by rewrite <-Hl, <-Hb. Qed.

(** Steps from [w] on, next to the environment of generated owners. *)
Definition came_from (w : World W R) (p : World W R * TempEnv) : Prop := world_inv p.1 ∧ world_move N w p.1.

Lemma post_came_from {A} w (m : M (World W R * TempEnv) Error A) p :
  tame_beside m → came_from w p → post m p (λ _ q, came_from w q) (λ _ q, came_from w q).
Proof.
  intros Hm [Hp HT]. eapply post_mono; [apply (Hm p Hp)| |]; simpl.
  - intros a q (_ & Hq & HT'). split; [done|by etrans].
  - intros e q (Hq & HT'). split; [done|by etrans].
Qed.

Lemma post_on_fst {X A} (m : M (World W R) Error A) w (x : X) Q Y :
  post m w Q Y → post (on_fst m) (w, x) (λ a p, Q a p.1) (λ e p, Y e p.1).
Proof. unfold post, on_fst, zoom. simpl. by destruct (m w) as [w' [a|e|f]]. Qed.

Lemma post_lock_with_owner path t offset length owner p :
  world_inv p.1 →
  post (Files.lock_with_owner path t offset length owner) p
    (λ token q, lock_taken p.1 t offset length owner token q.1) (λ _ q, came_from p.1 q).
Proof.
  intros Hw. assert (came_from p.1 p) as H0 by (split; [done|apply world_move_refl]).
  revert H0. generalize p.1 as w. clear Hw. intros w H0. unfold Files.lock_with_owner.
  do 5 (apply post_bind; eapply post_mono;
    [apply post_came_from; [file_steps|exact H0]|clear dependent p; intros ? p H0; cbn beta in H0|done]).
  case_match; [case_match|].
  - apply post_bind. eapply post_mono; [apply post_came_from; [file_steps|exact H0]|clear dependent p; intros ? p H0|done].
    destruct p as [w1 env1], H0 as [Hw1 HT].
    eapply post_mono; [apply post_on_fst, post_register_lock; [done|reflexivity]| |done]. simpl.
    intros token q. by apply lock_taken_move.
  - apply post_bind. eapply post_mono; [apply post_came_from; [file_steps|exact H0]|intros ? q Hq; exact Hq|done].
Qed.

(** The owner of a lock made by [lock] is generated. *)
Lemma post_lock path t offset length p :
  world_inv p.1 →
  post (Files.lock path t offset length) p
    (λ token q, ∃ owner, lock_taken p.1 t offset length owner token q.1) (λ _ q, came_from p.1 q).
Proof.
  intros Hw. destruct p as [w env]. unfold post, Files.lock. do 2 (erewrite bind_run; [|reflexivity]).
  match goal with |- context [Files.lock_with_owner _ _ _ _ ?o ?q] =>
    pose proof (post_lock_with_owner path t offset length o q Hw) as H end.
  unfold post in H. destruct (Files.lock_with_owner _ _ _ _ _ _) as [q [token|e|f]]; [by eexists|done|done].
Qed.

(** ** Unlocking *)

(** A token that is not in the registry: nothing happens. *)
Lemma unlock_unknown token w :
  ByteRangeLock.state token ∉ LockRegistry.entries (Client.locks (client w)) →
  ∃ err, Files.unlock token w = (w, Err err).
Proof.
  intros Hn. destruct w as [[n store sl] c]. eexists. unfold Files.unlock.
  erewrite bind_run; [|reflexivity]. simpl in *.
  assert (existsb (Nat.eqb (ByteRangeLock.state token)) (LockRegistry.entries (Client.locks c)) = false) as Hex.
  { apply not_true_iff_false. intros (x & Hx%list_elem_of_In & Heq%Nat.eqb_eq)%existsb_exists. by subst x. }
  unfold mbind at 1, M_bind, on_env, on_store, zoom, LockRegistry.get. simpl. by rewrite Hex.
Qed.

Lemma post_unlock token w :
  world_inv w → ByteRangeLock.state token ∈ LockRegistry.entries (Client.locks (client w)) →
  let released w' :=
    world_inv w' ∧ Client.builder (client w') = Client.builder (client w)
    ∧ Client.locks (client w') = LockRegistry.remove (Client.locks (client w)) token in
  post (Files.unlock token) w (λ _ w', released w') (λ _ w', released w').
Proof.
  intros Hw Hin released. destruct w as [[n store sl] c]. destruct Hw as [Hc Hr]. simpl in *.
  assert (is_Some (store !! ByteRangeLock.state token)) as [st Hst].
  { apply lookup_lt_is_Some. eapply list.Forall_forall in Hr; [|exact Hin]. done. }
  unfold Files.unlock. apply post_bind, post_gets. simpl. apply post_bind.
  assert (existsb (Nat.eqb (ByteRangeLock.state token)) (LockRegistry.entries (Client.locks c)) = true) as Hex.
  { apply existsb_exists. exists (ByteRangeLock.state token). split; [by apply list_elem_of_In|apply Nat.eqb_refl]. }
  unfold post at 1, on_env, on_store, zoom, LockRegistry.get. simpl. rewrite Hex. unfold LockRegistry.lock. cbn [negb].
  rewrite Hst. apply post_bind. unfold post at 1, update, modify. simpl.
  set (w1 := mkWorld _ _). assert (world_inv w1 ∧ world_move N w1 w1) as [Hw1 Hrefl].
  { split; [|apply world_move_refl]. split; [destruct c, Hc; by split|].
    simpl. apply list.Forall_forall. intros e He. eapply list.Forall_forall in Hr; [exact Hr|].
    apply list_elem_of_In. apply list_elem_of_In, filter_In in He. apply He. }
  match goal with |- post ?m0 _ _ _ => set (m := m0) end. assert (tame_files m) as Hm by (subst m; file_steps).
  eapply post_mono; [apply (Hm w1 Hw1)| |]; unfold released; simpl;
    [intros _ w2 (_ & ? & (_ & ? & ?))|intros _ w2 (? & (_ & ? & ?))]; by split_and!.
Qed.

(** Removing the newest entry gives the registry back. *)
Lemma registry_put_back reg token :
  ByteRangeLock.state token ∉ LockRegistry.entries reg →
  LockRegistry.mkLockRegistry
    (List.filter (λ entry, negb (Nat.eqb (ByteRangeLock.state token) entry))
       (LockRegistry.entries reg ++ [ByteRangeLock.state token])) = reg.
Proof.
  destruct reg as [es]. simpl. intros Hn. f_equal. rewrite List.filter_app. simpl. rewrite Nat.eqb_refl. simpl.
  rewrite app_nil_r. induction es as [|e es IH]; [done|]. apply not_elem_of_cons in Hn as [Hne Hn]. simpl.
  destruct (Nat.eqb_spec (ByteRangeLock.state token) e); [done|]. simpl. f_equal. by apply IH.
Qed.

End any_server.

(** ** Operations that return *)

#[export] Instance main_moves_anywhere {W R} `{!Nfs4Rpc W R} : MainMoves (R := R) (λ _ _ : W, True).
Proof. done. Qed.

Definition anywhere {W R} `{!Nfs4Rpc W R, !Nfs4Net W R} : Moves (R := R) (λ _ _ : W, True) := moves_anywhere.

(** [m] returns, with a value or an error; the client is well-formed and has the
    locks and settings it had. *)
Definition returns {W R X A} `{!Nfs4Rpc W R, !Nfs4Net W R, !Nfs4Laws W R} (π : X → World W R)
    (m : M X Error A) (s : X) : Prop :=
  let kept s' := world_inv (π s') ∧ Client.locks (client (π s')) = Client.locks (client (π s))
                 ∧ Client.builder (client (π s')) = Client.builder (client (π s)) in
  post m s (λ _ s', kept s') (λ _ s', kept s').

Section ending.
Context {W R : Type} `{!Nfs4Rpc W R, !Nfs4Net W R, !Nfs4Laws W R}.

Lemma returns_tame {A} (m : M (World W R) Error A) w :
  Tame world_inv (world_move (λ _ _, True)) m → world_inv w → returns id m w.
Proof.
  intros Hm Hw. eapply post_mono; [by apply Hm|..];
    [intros a w' (_ & ? & (_ & ? & ?))|intros e w' (? & (_ & ? & ?))]; by split_and!.
Qed.
Lemma returns_beside {X A} (m : M (World W R * X) Error A) p :
  Tame beside_inv (beside_move (λ _ _, True)) m → world_inv p.1 → returns fst m p.
Proof.
  intros Hm Hw. eapply post_mono; [by apply Hm|..];
    [intros a w' (_ & ? & (_ & ? & ?))|intros e w' (? & (_ & ? & ?))]; by split_and!.
Qed.
End ending.

(** A reader that ends at once. *)
Definition empty_reader : Reader unit := λ _, mret [].
#[export] Instance empty_reader_laws : @ReaderLaws unit empty_reader.
Proof. split; [done|]. by intros n s s' bs Hn [= _ <-]. Qed.
