(* ===== verification/V4NamedSpec.v ===== *)
(** * Named attributes against every server (laws of [V4Named])

    The operations on named attributes return without a panic, leave a
    well-formed client with its locks and settings, and listings of attributes
    respect their limit. *)

From Stdlib Require Import Strings.String Strings.Byte.
From S2P Require Import Prelude Text Xdr Status Errors Rpc V3Client V3Blocking V3ClientSpec V3BlockingSpec Tame.
From S2P Require Import V4Attr V4AttrSpec V4Ops V4Results V4Client V4ClientSpec V4Extract.
From S2P Require Import V4Session V4SessionSpec V4Files V4FilesSpec V4Named.
Import CompoundResponse (CompoundResponse).

#[local] Open Scope Z_scope.
#[local] Hint Constants Opaque : typeclass_instances.

Lemma validate_named_safe name : fault_free (validate_named_attr_name name).
Proof. unfold validate_named_attr_name. by repeat case_match. Qed.
Lemma named_attr_ops_safe path name tail : fault_free (named_attr_ops path name tail).
Proof.
  apply fault_free_bind; [apply validate_named_safe|]. intros _ _. by apply fault_free_bind; [apply path_ops_safe|].
Qed.
Lemma openattr_readdir_safe r : fault_free (response_openattr_readdir r).
Proof.
  unfold response_openattr_readdir.
  assert (∀ l saw, fault_free (openattr_readdir_loop saw l)) as H; [|apply H].
  induction l as [|x l IH]; intros saw; cbn [openattr_readdir_loop]; repeat case_match; first [done|apply IH].
Qed.
#[export] Hint Resolve validate_named_safe named_attr_ops_safe openattr_readdir_safe : fault_free.

Section any_server.
Context {W R : Type} `{!Nfs4Rpc W R, !Nfs4Net W R, !Nfs4Laws W R}.
Context (N : W → W → Prop) `{!Moves N, !MainMoves (R := R) N}.
Abbreviation tame_files := (Tame world_inv (world_move N)).
Abbreviation tame_beside := (Tame beside_inv (beside_move N)).

#[local] Instance named_move_preorder : PreOrder (world_move (R := R) N) := world_move_preorder N.

(** ** The directory of attributes *)

#[export] Instance tame_named_request path : tame_files (Named.named_attr_supported_attr_request path FATTR4_BASIC_ATTRS).
Proof. unfold Named.named_attr_supported_attr_request. file_steps. Qed.
#[export] Instance tame_named_page_limited path cursor max :
  tame_files (Named.read_named_attr_page_limited path cursor max).
Proof. apply tame_listing_page; [apply _..|eauto with fault_free|eauto with fault_free]. Qed.
Lemma tames_read_named_attrs path max :
  0 ≤ max < usize_max →
  tames world_inv (world_move N) (Named.read_named_attrs_with_limit path max) (λ entries, zlen entries ≤ max).
Proof. apply tames_listing; [apply _..|eauto with fault_free|eauto with fault_free]. Qed.
#[export] Instance tame_rename_named path from to : tame_files (Named.rename_named_attr path from to).
Proof. unfold Named.rename_named_attr. file_steps. Qed.
#[export] Instance tame_remove_named path name : tame_files (Named.remove_named_attr path name).
Proof. unfold Named.remove_named_attr. file_steps. Qed.
#[export] Instance tame_named_metadata path name : tame_files (Named.named_attr_metadata path name).
Proof.
  unfold Named.named_attr_metadata, Named.named_attr_supported_attr_values, Named.named_attr_supported_attrs,
    Named.named_attr_getattr_values. file_steps.
Qed.
#[export] Instance tame_named_exists path name : tame_files (Named.named_attr_exists path name).
Proof. unfold Named.named_attr_exists. apply tame_if_exists; [apply _..|]. file_steps. Qed.

(** ** Contents *)

#[export] Instance tame_close_named path name stateid :
  tame_files (Named.close_named_attr_state_by_path path name stateid).
Proof. unfold Named.close_named_attr_state_by_path. file_steps. Qed.
#[export] Instance tame_open_named path name access openhow create :
  tame_files (Named.open_named_attr path name access openhow create).
Proof.
  unfold Named.open_named_attr. do 2 (apply tame_bind; [apply _|file_steps|intros ?]).
  apply tame_opening; [apply _..|eauto with fault_free|apply _|]. intros. apply tame_ret, _.
Qed.
#[export] Instance tame_read_named path name : tame_files (Named.read_named_attr path name).
Proof. unfold Named.read_named_attr. file_steps. Qed.
#[export] Instance tame_read_named_to_writer `{!Writer Wr, !WriterLaws Wr} path name :
  tame_beside (Named.read_named_attr_to_writer (Wr := Wr) path name).
Proof. unfold Named.read_named_attr_to_writer. file_steps. Qed.
#[export] Instance tame_write_named path name data mode : tame_files (Named.write_named_attr_with_mode path name data mode).
Proof. unfold Named.write_named_attr_with_mode. file_steps. Qed.
#[export] Instance tame_write_named_at path name offset data :
  tame_files (Named.write_named_attr_at path name offset data).
Proof. unfold Named.write_named_attr_at. file_steps. Qed.
#[export] Instance tame_append_named path name data : tame_files (Named.append_named_attr path name data).
Proof. unfold Named.append_named_attr, Named.append_named_attr_offset. file_steps. Qed.
#[export] Instance tame_write_named_from_reader `{!Reader Rd, !ReaderLaws Rd} path name mode :
  tame_beside (Named.write_named_attr_from_reader_with_mode (Rd := Rd) path name mode).
Proof.
  unfold Named.write_named_attr_from_reader_with_mode, Files.write_opened_from_reader. file_steps.
  by apply tame_write_from_reader.
Qed.
#[export] Instance tame_set_named path name attrs : tame_files (Named.set_named_attr_attrs path name attrs).
Proof. unfold Named.set_named_attr_attrs. file_steps. Qed.

(** ** Copies and atomic replacement *)

#[export] Instance tame_copied_named path name : tame_files (Named.copied_named_mode path name).
Proof. unfold Named.copied_named_mode. file_steps. Qed.
#[export] Instance tame_copy_named from_path from_name to_path to_name :
  tame_files (Named.copy_named_attr from_path from_name to_path to_name).
Proof.
  unfold Named.copy_named_attr. do 4 (apply tame_bind; [apply _|file_steps|intros ?]).
  pose proof (distinct_handles_safe (handle a0) (handle a2)) as Hf.
  destruct (ensure_distinct_copy_handles _ _) as [[]|e|f]; [file_steps..|by destruct (Hf f)].
Qed.
#[export] Instance tame_finish_named {A} (r : A + Error) created path temp context :
  tame_files (Named.finish_with_named_attr_cleanup r created path temp context).
Proof. unfold Named.finish_with_named_attr_cleanup. file_steps. Qed.
#[export] Instance no_fault_named_name : NoFault temporary_named_attr_name.
Proof. by intros s. Qed.
#[export] Instance tame_write_named_atomic path name data mode :
  tame_beside (Named.write_named_attr_atomic_with_mode path name data mode).
Proof. unfold Named.write_named_attr_atomic_with_mode. file_steps. apply tame_on_fst. file_steps. Qed.
#[export] Instance tame_copy_named_atomic from_path from_name to_path to_name :
  tame_beside (Named.copy_named_attr_atomic from_path from_name to_path to_name).
Proof. unfold Named.copy_named_attr_atomic. file_steps; apply tame_on_fst; file_steps. Qed.

(** ** From a local reader *)
Section reader.
Context {Rd : Type} `{!Reader Rd, !ReaderLaws Rd}.
#[export] Instance tame_naming {A} (m : M TempEnv Error A) : NoFault m → tame_beside (Named.naming (Rd := Rd) m).
Proof.
  intros Hm [w [x rd]] Hw. specialize (Hm x). pose proof (named_move_preorder.(PreOrder_Reflexive) w) as Hrefl.
  unfold post, Named.naming, zoom. simpl. by destruct (m x) as [x' [a|e|f]]; [..|destruct (Hm f)].
Qed.
#[export] Instance tame_reading {A} (m : M (World W R * Rd) Error A) : tame_beside m → tame_beside (Named.reading m).
Proof.
  intros Hm [w [x rd]] Hw. specialize (Hm (w, rd) Hw). unfold post, Named.reading, zoom in *. simpl.
  by destruct (m (w, rd)) as [[w' rd'] [a|e|f]].
Qed.
#[export] Instance tame_write_named_atomic_reader path name mode :
  tame_beside (Named.write_named_attr_atomic_from_reader_with_mode (Rd := Rd) path name mode).
Proof.
  unfold Named.write_named_attr_atomic_from_reader_with_mode, Files.write_opened_from_reader. file_steps.
  apply tame_reading. by apply tame_write_from_reader.
Qed.
#[export] Instance tame_write_atomic_reader path mode :
  tame_beside (Named.write_atomic_from_reader_with_mode (Rd := Rd) path mode).
Proof.
  unfold Named.write_atomic_from_reader_with_mode, Files.write_opened_from_reader. file_steps.
  apply tame_reading. by apply tame_write_from_reader.
Qed.
End reader.

End any_server.
