(* ===== verification/V4Protocol.v ===== *)
(** * Further operations of the NFSv4 client (src/src/v4/blocking.rs)

    Public and parent directories, the session's back channel, security
    flavours, delegations, and the operations of NFSv4.1 and 4.2 on layouts,
    devices and byte ranges. *)

From Stdlib Require Import Strings.String Strings.Byte.
From S2P Require Import Prelude Text Xdr Status Errors Rpc V3Client V3Blocking V4Attr V4Ops V4Results.
From S2P Require Import V4Client V4Extract V4Session V4Files.
Import FileHandle (FileHandle).
Import StateId (StateId).
Import Bitmap (Bitmap).
Import Fattr (Fattr).
Import BasicAttributes (BasicAttributes).
Import NfsTime (NfsTime).
Import FsStat (FsStat).
Import FsInfo (FsInfo).
Import PathConf (PathConf).
Import StableHow (StableHow).
Import OpenHow (OpenHow).
Import AccessResult (AccessResult).
Import CallbackSecParms (CallbackSecParms).
Import ChannelDirFromClient (ChannelDirFromClient).
Import BindConnToSessionResult (BindConnToSessionResult).
Import SetSsvResult (SetSsvResult).
Import SecInfo (SecInfo).
Import SecInfoStyle (SecInfoStyle).
Import OpenDelegation (OpenDelegation).
Import DelegationClaim (DelegationClaim).
Import GetDirDelegationArgs (GetDirDelegationArgs).
Import GetDirDelegationResult (GetDirDelegationResult).
Import IoAdviceType (IoAdviceType).
Import IoAdviseResult (IoAdviseResult).
Import ReadPlusResult (ReadPlusResult).
Import SeekContent (SeekContent).
Import SeekResult (SeekResult).
Import AppDataBlock (AppDataBlock).
Import WriteResponse (WriteResponse).
Import CopyResult (CopyResult).
Import CopyNotifyResult (CopyNotifyResult).
Import CopyOffloadOptions (CopyOffloadOptions).
Import OffloadStatusResult (OffloadStatusResult).
Import NetLoc (NetLoc).
Import LayoutType (LayoutType).
Import LayoutIomode (LayoutIomode).
Import LayoutUpdate (LayoutUpdate).
Import LayoutReturn (LayoutReturn).
Import LayoutGetResult (LayoutGetResult).
Import LayoutCommitResult (LayoutCommitResult).
Import LayoutReturnResult (LayoutReturnResult).
Import DeviceError (DeviceError).
Import IoInfo (IoInfo).
Import GetDeviceInfoResult (GetDeviceInfoResult).
Import DeviceListCursor (DeviceListCursor).
Import DeviceListPage (DeviceListPage).
Import Operation (Operation).
Import CompoundResponse (CompoundResponse).
Import DirPageCursor (DirPageCursor).
Import DirEntry (DirEntry).
Import DirPage (DirPage).

#[local] Open Scope Z_scope.

Module Protocol.
Section protocol.
Context {W R : Type} `{!Nfs4Rpc W R, !Nfs4Net W R}.
Abbreviation World := (World W R).

(** ** The public file handle *)

Definition public_supported_attr_request (path : str) (attrs : list Z) : M World Error Bitmap :=
  supported ← Files.public_supported_attrs path;
  lift (Bitmap.from_supported_attrs supported attrs).
Definition public_read_dir_with_limit (path : str) (max_entries : Z) : M World Error (list DirEntry) :=
  Files.listing (public_supported_attr_request path FATTR4_BASIC_ATTRS)
    (λ readdir, public_path_ops path [readdir]) response_readdir "NFSv4 public-filehandle READDIR" max_entries.
Definition public_read_dir (path : str) : M World Error (list DirEntry) :=
  max_dir_entries ← field Client.max_dir_entries;
  public_read_dir_with_limit path max_dir_entries.
Definition public_read_dir_limited (path : str) (max_entries : Z) : M World Error (list DirEntry) :=
  Files.listing_limited (public_read_dir_with_limit path) max_entries.
Definition public_read_dir_page_limited (path : str) (cursor : option DirPageCursor) (max_entries : Z)
    : M World Error DirPage :=
  Files.listing_page (public_supported_attr_request path FATTR4_BASIC_ATTRS)
    (λ readdir, public_path_ops path [readdir]) response_readdir cursor max_entries.
Definition public_read_dir_page (path : str) (cursor : option DirPageCursor) : M World Error DirPage :=
  max_dir_entries ← field Client.max_dir_entries;
  public_read_dir_page_limited path cursor max_dir_entries.
Definition public_fsstat (path : str) : M World Error FsStat :=
  attrs ← Files.public_supported_attr_values path FATTR4_FSSTAT_ATTRS;
  lift (parse_fsstat attrs).
Definition public_fsinfo (path : str) : M World Error FsInfo :=
  attrs ← Files.public_supported_attr_values path FATTR4_FSINFO_ATTRS;
  lift (parse_fsinfo attrs).
Definition public_pathconf (path : str) : M World Error PathConf :=
  attrs ← Files.public_supported_attr_values path FATTR4_PATHCONF_ATTRS;
  lift (parse_pathconf attrs).

(** ** The parent of a path *)

Definition parent_supported_attrs (path : str) : M World Error Bitmap :=
  attrs ← lift (Bitmap.from_known_attrs [FATTR4_SUPPORTED_ATTRS]);
  operations ← lift (parent_path_ops path [Operation.GetAttr attrs]);
  response ← compound operations;
  attrs ← lift (response_getattr response);
  lift (parse_supported_attrs attrs).
Definition parent_getattr_values (path : str) (attr_request : Bitmap) : M World Error Fattr :=
  if Bitmap.is_empty attr_request then mret (empty_attrs attr_request) else
  operations ← lift (parent_path_ops path [Operation.GetAttr attr_request]);
  response ← compound operations;
  lift (response_getattr response).
Definition parent_supported_attr_values (path : str) (attrs : list Z) : M World Error Fattr :=
  supported ← parent_supported_attrs path;
  attrs ← lift (Bitmap.from_supported_attrs supported attrs);
  parent_getattr_values path attrs.
Definition parent_getattr (path : str) : M World Error BasicAttributes :=
  attrs ← parent_supported_attr_values path FATTR4_BASIC_ATTRS;
  lift (parse_basic attrs).
Definition parent_supported_attr_request (path : str) (attrs : list Z) : M World Error Bitmap :=
  supported ← parent_supported_attrs path;
  lift (Bitmap.from_supported_attrs supported attrs).
Definition parent_read_dir_with_limit (path : str) (max_entries : Z) : M World Error (list DirEntry) :=
  Files.listing (parent_supported_attr_request path FATTR4_BASIC_ATTRS)
    (λ readdir, parent_path_ops path [readdir]) response_readdir "NFSv4 parent READDIR" max_entries.
Definition parent_read_dir (path : str) : M World Error (list DirEntry) :=
  max_dir_entries ← field Client.max_dir_entries;
  parent_read_dir_with_limit path max_dir_entries.
Definition parent_read_dir_limited (path : str) (max_entries : Z) : M World Error (list DirEntry) :=
  Files.listing_limited (parent_read_dir_with_limit path) max_entries.
Definition parent_read_dir_page_limited (path : str) (cursor : option DirPageCursor) (max_entries : Z)
    : M World Error DirPage :=
  Files.listing_page (parent_supported_attr_request path FATTR4_BASIC_ATTRS)
    (λ readdir, parent_path_ops path [readdir]) response_readdir cursor max_entries.
Definition parent_read_dir_page (path : str) (cursor : option DirPageCursor) : M World Error DirPage :=
  max_dir_entries ← field Client.max_dir_entries;
  parent_read_dir_page_limited path cursor max_dir_entries.
Definition parent_fsstat (path : str) : M World Error FsStat :=
  attrs ← parent_supported_attr_values path FATTR4_FSSTAT_ATTRS;
  lift (parse_fsstat attrs).
Definition parent_fsinfo (path : str) : M World Error FsInfo :=
  attrs ← parent_supported_attr_values path FATTR4_FSINFO_ATTRS;
  lift (parse_fsinfo attrs).
Definition parent_pathconf (path : str) : M World Error PathConf :=
  attrs ← parent_supported_attr_values path FATTR4_PATHCONF_ATTRS;
  lift (parse_pathconf attrs).
Definition parent_access (path : str) (access : Z) : M World Error AccessResult :=
  operations ← lift (parent_path_ops path [Operation.Access access]);
  response ← compound operations;
  lift (response_access response).

(** ** The session *)

Definition reconnect : M World Error unit := recover_session.
Definition backchannel_ctl (callback_program : Z) (callback_sec_parms : list CallbackSecParms)
    : M World Error unit :=
  response ← compound
    [Operation.BackchannelCtl (BackchannelCtlArgs.mkBackchannelCtlArgs callback_program callback_sec_parms)];
  Files.ensure_status response "BACKCHANNEL_CTL".
Definition bind_conn_to_session_with_options (direction : ChannelDirFromClient) (use_conn_in_rdma_mode : bool)
    : M World Error BindConnToSessionResult :=
  session_id ← field Client.session_id;
  response ← raw_compound (lit_bytes "bind-conn-to-session")
    [Operation.BindConnToSession
       (BindConnToSessionArgs.mkBindConnToSessionArgs session_id direction use_conn_in_rdma_mode)];
  lift (response_bind_conn_to_session response).
Definition bind_conn_to_session (direction : ChannelDirFromClient) : M World Error BindConnToSessionResult :=
  bind_conn_to_session_with_options direction false.
Definition set_ssv (ssv digest : list byte) : M World Error SetSsvResult :=
  response ← compound [Operation.SetSsv (SetSsvArgs.mkSetSsvArgs ssv digest)];
  lift (response_set_ssv response).

(** ** Security flavours and attribute checks *)

Definition secinfo (path : str) : M World Error (list SecInfo) :=
  '(parent, name) ← lift (split_parent path);
  response ← compound (Files.walk_ops parent ++ [Operation.SecInfo name]);
  lift (response_secinfo response OpCode.SecInfo).
Definition secinfo_no_name (path : str) (style : SecInfoStyle) : M World Error (list SecInfo) :=
  operations ← lift (path_ops path [Operation.SecInfoNoName style]);
  response ← compound operations;
  lift (response_secinfo response OpCode.SecInfoNoName).
Definition secinfo_current (path : str) : M World Error (list SecInfo) :=
  secinfo_no_name path SecInfoStyle.CurrentFileHandle.
Definition secinfo_parent (path : str) : M World Error (list SecInfo) :=
  secinfo_no_name path SecInfoStyle.Parent.

Definition verify_attrs (path : str) (attrs : Fattr) : M World Error bool :=
  operations ← lift (path_ops path [Operation.Verify attrs]);
  response ← compound operations;
  lift (response_verify response OpCode.Verify Status.NotSame).
Definition nverify_attrs (path : str) (attrs : Fattr) : M World Error bool :=
  operations ← lift (path_ops path [Operation.NVerify attrs]);
  response ← compound operations;
  lift (response_verify response OpCode.NVerify Status.Same).

(** ** Delegations *)

(** [require_minor_version(operation, self.minor_version, minimum)?]. *)
Definition require_version (operation : string) (minimum : Z) : M World Error unit :=
  minor_version ← field Client.minor_version;
  lift (require_minor_version operation minor_version minimum).

Definition want_delegation_with_claim (path : str) (want : Z) (claim : DelegationClaim)
    : M World Error OpenDelegation :=
  require_version "WANT_DELEGATION" NFS4_MINOR_VERSION_SESSION_MIN ;;
  operations ← lift (path_ops path
    [Operation.WantDelegation (WantDelegationArgs.mkWantDelegationArgs want claim)]);
  response ← compound operations;
  lift (response_want_delegation response).
Definition want_delegation (path : str) (want : Z) : M World Error OpenDelegation :=
  want_delegation_with_claim path want DelegationClaim.FileHandle.
Definition get_dir_delegation (path : str) (args : GetDirDelegationArgs)
    : M World Error GetDirDelegationResult :=
  require_version "GET_DIR_DELEGATION" NFS4_MINOR_VERSION_SESSION_MIN ;;
  operations ← lift (path_ops path [Operation.GetDirDelegation args]);
  response ← compound operations;
  lift (response_get_dir_delegation response).
Definition return_delegation (path : str) (stateid : StateId) : M World Error unit :=
  operations ← lift (path_ops path [Operation.DelegReturn stateid]);
  response ← compound operations;
  Files.ensure_status response "DELEGRETURN".
Definition purge_delegations : M World Error unit :=
  client_id ← field Client.client_id;
  response ← compound [Operation.DelegPurge client_id];
  Files.ensure_status response "DELEGPURGE".

(** ** NFSv4.2 operations on opened files *)

Definition io_advise_opened (opened : OpenedFile) (offset count : Z) (hints : list IoAdviceType)
    : M World Error IoAdviseResult :=
  hints ← lift (io_advice_bitmap hints);
  response ← compound [Operation.PutFh (handle opened);
    Operation.IoAdvise (IoAdviseArgs.mkIoAdviseArgs (stateid opened) offset count hints)];
  lift (response_io_advise response).
Definition io_advise (path : str) (offset count : Z) (hints : list IoAdviceType)
    : M World Error IoAdviseResult :=
  require_version "IO_ADVISE" NFS4_MINOR_VERSION_V42 ;;
  opened ← Files.open path (io_advice_share_access hints) OpenHow.NoCreate;
  Files.finish_opened (Files.close opened) (io_advise_opened opened offset count hints).

Definition read_plus_opened (opened : OpenedFile) (offset count : Z) : M World Error ReadPlusResult :=
  response ← compound [Operation.PutFh (handle opened);
    Operation.ReadPlus (ReadPlusArgs.mkReadPlusArgs (stateid opened) offset count)];
  lift (response_read_plus response count).
Definition read_plus (path : str) (offset count : Z) : M World Error ReadPlusResult :=
  require_version "READ_PLUS" NFS4_MINOR_VERSION_V42 ;;
  opened ← Files.open path OPEN4_SHARE_ACCESS_READ OpenHow.NoCreate;
  Files.finish_opened (Files.close opened) (read_plus_opened opened offset count).

Definition seek_opened (opened : OpenedFile) (offset : Z) (what : SeekContent) : M World Error SeekResult :=
  response ← compound [Operation.PutFh (handle opened); Operation.Seek (stateid opened) offset what];
  lift (response_seek response).
Definition seek (path : str) (offset : Z) (what : SeekContent) : M World Error SeekResult :=
  require_version "SEEK" NFS4_MINOR_VERSION_V42 ;;
  opened ← Files.open path OPEN4_SHARE_ACCESS_READ OpenHow.NoCreate;
  Files.finish_opened (Files.close opened) (seek_opened opened offset what).
Definition seek_data (path : str) (offset : Z) : M World Error (option Z) :=
  result ← seek path offset SeekContent.Data;
  mret (SeekResult.found_offset result).
Definition seek_hole (path : str) (offset : Z) : M World Error (option Z) :=
  result ← seek path offset SeekContent.Hole;
  mret (SeekResult.found_offset result).

Definition write_same_opened (opened : OpenedFile) (block : AppDataBlock) (stable : StableHow)
    : M World Error WriteResponse :=
  requested_count ← lift (app_data_block_len block);
  response ← compound [Operation.PutFh (handle opened);
    Operation.WriteSame (WriteSameArgs.mkWriteSameArgs (stateid opened) stable block)];
  write ← lift (response_write_same response requested_count);
  if StableHow.satisfies (WriteResponse.committed write) stable then mret write
  else throw (Protocol [PLit "NFSv4 WRITE_SAME returned weaker stability than requested"]).
Definition write_same_with_stability (path : str) (block : AppDataBlock) (stable : StableHow)
    : M World Error WriteResponse :=
  require_version "WRITE_SAME" NFS4_MINOR_VERSION_V42 ;;
  opened ← Files.open path OPEN4_SHARE_ACCESS_WRITE OpenHow.NoCreate;
  Files.finish_opened (Files.close opened) (write_same_opened opened block stable).
Definition write_same (path : str) (block : AppDataBlock) : M World Error WriteResponse :=
  write_same_with_stability path block StableHow.FileSync.

(** ** Copies by the server *)

(** Both files are closed whatever the body did; a failed CLOSE counts after a successful body. *)
Definition finish_both {A} (target source : OpenedFile) (context : string) (body : M World Error A)
    : M World Error A :=
  result ← attempt body;
  close_result ← Files.close_both target source;
  match result, close_result with
  | inl value, inl _ => mret value
  | inl _, inr err => throw err
  | inr err, _ => throw (cleanup_error err context close_result)
  end.

Definition copy_opened_range_offload (source target : OpenedFile) (options : CopyOffloadOptions)
    : M World Error CopyResult :=
  let count := CopyOffloadOptions.count options in
  response ← compound [Operation.PutFh (handle source); Operation.SaveFh; Operation.PutFh (handle target);
    Operation.Copy (CopyArgs.mkCopyArgs (stateid source) (stateid target)
      (CopyOffloadOptions.src_offset options) (CopyOffloadOptions.dst_offset options) count
      (CopyOffloadOptions.consecutive options) (CopyOffloadOptions.synchronous options)
      (CopyOffloadOptions.source_servers options))];
  lift (response_copy response count).

Definition copy_range_offload_with_options (from to : str) (src_offset dst_offset count : Z)
    (consecutive synchronous : bool) (source_servers : list NetLoc) : M World Error CopyResult :=
  require_version "COPY" NFS4_MINOR_VERSION_V42 ;;
  if count =? 0 then mret (CopyResult.mkCopyResult None None) else
  if zlen source_servers >? NFS4_MAX_NETLOCATIONS
  then throw (Protocol [PLit "NFSv4 COPY source server count "; PNum (zlen source_servers);
                        PLit " exceeds maximum "; PNum NFS4_MAX_NETLOCATIONS]) else
  source ← Files.open from OPEN4_SHARE_ACCESS_READ OpenHow.NoCreate;
  target ← Files.or_close source "cleanup CLOSE source after failed offload target OPEN"
             (Files.open to OPEN4_SHARE_ACCESS_WRITE OpenHow.NoCreate);
  match ensure_distinct_copy_handles (handle source) (handle target) with
  | Err error =>
      closed ← Files.close_both target source;
      throw (cleanup_error error "cleanup CLOSE after rejected same-file offload copy" closed)
  | Fault f => lift (Fault f)
  | Ok _ =>
      finish_both target source "cleanup CLOSE after failed offload COPY"
        (copy_opened_range_offload source target
           (CopyOffloadOptions.mkCopyOffloadOptions src_offset dst_offset count consecutive synchronous
              source_servers))
  end.
Definition copy_range_offload (from to : str) (src_offset dst_offset count : Z) : M World Error CopyResult :=
  copy_range_offload_with_options from to src_offset dst_offset count false true [].

Definition copy_notify_opened (source : OpenedFile) (destination_server : NetLoc)
    : M World Error CopyNotifyResult :=
  response ← compound [Operation.PutFh (handle source);
    Operation.CopyNotify (CopyNotifyArgs.mkCopyNotifyArgs (stateid source) destination_server)];
  lift (response_copy_notify response).
Definition copy_notify (source : str) (destination_server : NetLoc) : M World Error CopyNotifyResult :=
  require_version "COPY_NOTIFY" NFS4_MINOR_VERSION_V42 ;;
  opened ← Files.open source OPEN4_SHARE_ACCESS_READ OpenHow.NoCreate;
  Files.finish_opened (Files.close opened) (copy_notify_opened opened destination_server).
Definition copy_notify_with_stateid (source : str) (stateid : StateId) (destination_server : NetLoc)
    : M World Error CopyNotifyResult :=
  require_version "COPY_NOTIFY" NFS4_MINOR_VERSION_V42 ;;
  operations ← lift (path_ops source
    [Operation.CopyNotify (CopyNotifyArgs.mkCopyNotifyArgs stateid destination_server)]);
  response ← compound operations;
  lift (response_copy_notify response).
Definition offload_status (stateid : StateId) : M World Error OffloadStatusResult :=
  require_version "OFFLOAD_STATUS" NFS4_MINOR_VERSION_V42 ;;
  response ← compound [Operation.OffloadStatus stateid];
  lift (response_offload_status response).
Definition offload_cancel (stateid : StateId) : M World Error unit :=
  require_version "OFFLOAD_CANCEL" NFS4_MINOR_VERSION_V42 ;;
  response ← compound [Operation.OffloadCancel stateid];
  Files.ensure_status response "OFFLOAD_CANCEL".

Definition clone_opened_range (source target : OpenedFile) (src_offset dst_offset count : Z)
    : M World Error unit :=
  response ← compound [Operation.PutFh (handle source); Operation.SaveFh; Operation.PutFh (handle target);
    Operation.Clone (CloneArgs.mkCloneArgs (stateid source) (stateid target) src_offset dst_offset count)];
  Files.ensure_status response "CLONE".
Definition clone_range (from to : str) (src_offset dst_offset count : Z) : M World Error unit :=
  require_version "CLONE" NFS4_MINOR_VERSION_V42 ;;
  if count =? 0 then mret tt else
  source ← Files.open from OPEN4_SHARE_ACCESS_READ OpenHow.NoCreate;
  target ← Files.or_close source "cleanup CLOSE source after failed clone target OPEN"
             (Files.open to OPEN4_SHARE_ACCESS_WRITE OpenHow.NoCreate);
  finish_both target source "cleanup CLOSE after failed CLONE"
    (clone_opened_range source target src_offset dst_offset count).

(** ** Devices *)

Definition get_device_info_with_notify (device_id : list byte) (layout_type : LayoutType) (max_count : Z)
    (notify_types : Bitmap) : M World Error GetDeviceInfoResult :=
  require_version "GETDEVICEINFO" NFS4_MINOR_VERSION_SESSION_MIN ;;
  if max_count =? 0 then throw (Protocol [PLit "GETDEVICEINFO max_count must be greater than zero"]) else
  response ← compound [Operation.GetDeviceInfo
    (GetDeviceInfoArgs.mkGetDeviceInfoArgs device_id layout_type max_count notify_types)];
  lift (response_get_device_info response).
Definition get_device_info (device_id : list byte) (layout_type : LayoutType)
    : M World Error GetDeviceInfoResult :=
  max_response_size ← field Client.max_response_size;
  get_device_info_with_notify device_id layout_type
    (Z.max (session_payload_limit max_response_size) 1) Bitmap.empty.

Definition list_device_page_limited (layout_type : LayoutType) (cursor : option DeviceListCursor)
    (max_device_ids : Z) : M World Error DeviceListPage :=
  max_devices ← lift (validate_max_device_ids max_device_ids);
  require_version "GETDEVICELIST" NFS4_MINOR_VERSION_SESSION_MIN ;;
  let cursor := match cursor with Some cursor => cursor | None => DeviceListCursor.default end in
  response ← compound [Operation.GetDeviceList
    (GetDeviceListArgs.mkGetDeviceListArgs layout_type max_devices
       (DeviceListCursor.cookie cursor) (DeviceListCursor.cookieverf cursor))];
  result ← lift (response_get_device_list response);
  lift (device_list_page_from_result result (DeviceListCursor.cookie cursor) max_device_ids).
Definition list_device_page (layout_type : LayoutType) (cursor : option DeviceListCursor)
    : M World Error DeviceListPage :=
  max_dir_entries ← field Client.max_dir_entries;
  list_device_page_limited layout_type cursor max_dir_entries.

(** One turn; the loop variables are [cursor] and [device_ids]. *)
Definition list_devices_step (layout_type : LayoutType) (max_device_ids : Z)
    (l : option DeviceListCursor * list (list byte))
    : M World Error (option DeviceListCursor * list (list byte) + list (list byte)) :=
  let '(cursor, device_ids) := l in
  let remaining := Z.max 0 (max_device_ids - zlen device_ids) in
  if remaining =? 0
  then throw (Protocol [PLit "NFSv4 GETDEVICELIST exceeded configured limit of "; PNum max_device_ids;
                        PLit " device ids"]) else
  page ← list_device_page_limited layout_type cursor remaining;
  let device_ids := device_ids ++ DeviceListPage.device_ids page in
  match DeviceListPage.next_cursor page with
  | Some next => continue_ (Some next, device_ids)
  | None => break_ device_ids
  end.
(** [fuel] bounds the number of pages, which is up to the server: a page may be empty. *)
Definition list_devices_limited (fuel : positive) (layout_type : LayoutType) (max_device_ids : Z)
    : M World Error (list (list byte)) :=
  _ ← lift (validate_max_device_ids max_device_ids);
  loop fuel (list_devices_step layout_type max_device_ids) (None, []).
Definition list_devices (fuel : positive) (layout_type : LayoutType) : M World Error (list (list byte)) :=
  max_dir_entries ← field Client.max_dir_entries;
  list_devices_limited fuel layout_type max_dir_entries.

(** ** Layouts *)

Definition layout_get_opened (opened : OpenedFile) (layout_type : LayoutType) (iomode : LayoutIomode)
    (offset length min_length max_count : Z) (signal_layout_avail : bool) : M World Error LayoutGetResult :=
  response ← compound [Operation.PutFh (handle opened);
    Operation.LayoutGet (LayoutGetArgs.mkLayoutGetArgs signal_layout_avail layout_type iomode offset length
      min_length (stateid opened) max_count)];
  lift (response_layout_get response).
Definition layout_get_with_options (path : str) (layout_type : LayoutType) (iomode : LayoutIomode)
    (offset length min_length max_count : Z) (signal_layout_avail : bool) : M World Error LayoutGetResult :=
  require_version "LAYOUTGET" NFS4_MINOR_VERSION_SESSION_MIN ;;
  if max_count =? 0 then throw (Protocol [PLit "LAYOUTGET max_count must be greater than zero"]) else
  opened ← Files.open path (layout_iomode_share_access iomode) OpenHow.NoCreate;
  Files.finish_opened (Files.close opened)
    (layout_get_opened opened layout_type iomode offset length min_length max_count signal_layout_avail).
Definition layout_get (path : str) (layout_type : LayoutType) (iomode : LayoutIomode)
    (offset length min_length : Z) : M World Error LayoutGetResult :=
  max_response_size ← field Client.max_response_size;
  layout_get_with_options path layout_type iomode offset length min_length
    (Z.max (session_payload_limit max_response_size) 1) false.

Definition layout_commit_with_options (path : str) (offset length : Z) (stateid : StateId)
    (last_write_offset : option Z) (time_modify : option NfsTime) (layout_update : LayoutUpdate)
    (reclaim : bool) : M World Error LayoutCommitResult :=
  require_version "LAYOUTCOMMIT" NFS4_MINOR_VERSION_SESSION_MIN ;;
  operations ← lift (path_ops path [Operation.LayoutCommit
    (LayoutCommitArgs.mkLayoutCommitArgs offset length reclaim stateid last_write_offset time_modify
       layout_update)]);
  response ← compound operations;
  lift (response_layout_commit response).
Definition layout_commit (path : str) (offset length : Z) (stateid : StateId) (layout_update : LayoutUpdate)
    : M World Error LayoutCommitResult :=
  layout_commit_with_options path offset length stateid None None layout_update false.

Definition layout_error (path : str) (offset length : Z) (stateid : StateId) (errors : list DeviceError)
    : M World Error unit :=
  require_version "LAYOUTERROR" NFS4_MINOR_VERSION_SESSION_MIN ;;
  operations ← lift (path_ops path
    [Operation.LayoutError (LayoutErrorArgs.mkLayoutErrorArgs offset length stateid errors)]);
  response ← compound operations;
  Files.ensure_status response "LAYOUTERROR".
Definition layout_stats (path : str) (offset length : Z) (stateid : StateId) (read write : IoInfo)
    (device_id : list byte) (layout_update : LayoutUpdate) : M World Error unit :=
  require_version "LAYOUTSTATS" NFS4_MINOR_VERSION_SESSION_MIN ;;
  operations ← lift (path_ops path
    [Operation.LayoutStats
       (LayoutStatsArgs.mkLayoutStatsArgs offset length stateid read write device_id layout_update)]);
  response ← compound operations;
  Files.ensure_status response "LAYOUTSTATS".

Definition layout_return_file (path : str) (layout_type : LayoutType) (iomode : LayoutIomode)
    (offset length : Z) (stateid : StateId) (body : list byte) : M World Error LayoutReturnResult :=
  require_version "LAYOUTRETURN" NFS4_MINOR_VERSION_SESSION_MIN ;;
  operations ← lift (path_ops path
    [Operation.LayoutReturn (LayoutReturnArgs.mkLayoutReturnArgs false layout_type iomode
       (LayoutReturn.File (LayoutReturnFile.mkLayoutReturnFile offset length stateid body)))]);
  response ← compound operations;
  lift (response_layout_return response).
Definition layout_return_fsid (path : str) (layout_type : LayoutType) (iomode : LayoutIomode)
    : M World Error LayoutReturnResult :=
  require_version "LAYOUTRETURN" NFS4_MINOR_VERSION_SESSION_MIN ;;
  operations ← lift (path_ops path
    [Operation.LayoutReturn (LayoutReturnArgs.mkLayoutReturnArgs false layout_type iomode LayoutReturn.Fsid)]);
  response ← compound operations;
  lift (response_layout_return response).
Definition layout_return_all (layout_type : LayoutType) (iomode : LayoutIomode)
    : M World Error LayoutReturnResult :=
  require_version "LAYOUTRETURN" NFS4_MINOR_VERSION_SESSION_MIN ;;
  response ← compound
    [Operation.LayoutReturn (LayoutReturnArgs.mkLayoutReturnArgs false layout_type iomode LayoutReturn.All)];
  lift (response_layout_return response).

End protocol.
End Protocol.
