(* ===== verification/V4ProtocolSpec.v ===== *)
(** * Further operations against every server (laws of [V4Protocol])

    The operations return without a panic and leave a well-formed client with
    its locks and settings; listings of public and parent directories respect
    their limit.  Listing devices ends only if the server wants it to: a page
    may be empty.  The attribute checks never return [false]. *)

From Stdlib Require Import Strings.String Strings.Byte.
From S2P Require Import Prelude Text Xdr Status Errors Rpc V3Client V3Blocking V3ClientSpec V3BlockingSpec Tame.
From S2P Require Import V4Attr V4AttrSpec V4Ops V4Results V4Client V4ClientSpec V4Extract.
From S2P Require Import V4Session V4SessionSpec V4Files V4FilesSpec V4Protocol.
Import OperationResult (OperationResult).
Import CompoundResponse (CompoundResponse).

#[local] Open Scope Z_scope.
#[local] Hint Constants Opaque : typeclass_instances.

(** ** Pure parts never fault *)

Lemma checked_value_safe {A} name (check : A → outcome Error unit) status v :
  (∀ a, fault_free (check a)) → fault_free (checked_value name check status v).
Proof.
  intros Hc. unfold checked_value. apply fault_free_bind; [apply ok_value_safe|]. intros a _.
  apply fault_free_bind; [apply Hc|done].
Qed.
Lemma response_bind_conn_safe r : fault_free (response_bind_conn_to_session r).
Proof. result_safe. Qed.
Lemma response_set_ssv_safe r : fault_free (response_set_ssv r).
Proof. result_safe. Qed.
Lemma response_secinfo_safe r op : fault_free (response_secinfo r op).
Proof. result_safe. Qed.
Lemma response_verify_safe r op status : fault_free (response_verify r op status).
Proof. result_safe. Qed.
Lemma response_want_delegation_safe r : fault_free (response_want_delegation r).
Proof. result_safe. Qed.
Lemma response_dir_delegation_safe r : fault_free (response_get_dir_delegation r).
Proof. result_safe. Qed.
Lemma response_io_advise_safe r : fault_free (response_io_advise r).
Proof. result_safe. Qed.
Lemma response_seek_safe r : fault_free (response_seek r).
Proof. result_safe. Qed.
Lemma response_copy_notify_safe r : fault_free (response_copy_notify r).
Proof. result_safe. Qed.
Lemma response_offload_status_safe r : fault_free (response_offload_status r).
Proof. result_safe. Qed.
Lemma response_device_info_safe r : fault_free (response_get_device_info r).
Proof. result_safe. Qed.
Lemma response_device_list_safe r : fault_free (response_get_device_list r).
Proof. result_safe. Qed.
Lemma response_layout_get_safe r : fault_free (response_layout_get r).
Proof. result_safe. Qed.
Lemma response_layout_commit_safe r : fault_free (response_layout_commit r).
Proof. result_safe. Qed.
Lemma response_layout_return_safe r : fault_free (response_layout_return r).
Proof. result_safe. Qed.
Lemma response_read_plus_safe r n : fault_free (response_read_plus r n).
Proof.
  apply find_result_safe. intros [] o; try done. intros [= <-]. apply checked_value_safe. intros a.
  unfold validate_read_plus_result. apply fault_free_bind; [|intros; by repeat case_match].
  generalize 0 as k. induction (ReadPlusResult.contents a) as [|c l IH]; intros k; [done|]. cbn [returned_len].
  apply fault_free_bind; [apply ok_or_safe|]. intros. apply IH.
Qed.
Lemma response_write_same_safe r n : fault_free (response_write_same r n).
Proof.
  apply find_result_safe. intros [] o; try done. intros [= <-]. apply checked_value_safe. intros a.
  unfold validate_u64_write_result_count. by repeat case_match.
Qed.
Lemma response_copy_safe r n : fault_free (response_copy r n).
Proof.
  apply find_result_safe. intros [] o; try done. intros [= <-].
  apply fault_free_bind; [unfold ok_value_or; by repeat case_match|]. intros copy _.
  apply fault_free_bind; [|done]. apply fault_free_bind; [apply ok_or_safe|]. intros. by repeat case_match.
Qed.
Lemma app_data_block_safe b : fault_free (app_data_block_len b).
Proof. unfold app_data_block_len. by repeat case_match. Qed.
Lemma io_advice_bitmap_safe hints : fault_free (io_advice_bitmap (E := Error) hints).
Proof.
  unfold io_advice_bitmap. apply from_known_attrs_safe; apply Forall_fmap, Forall_forall;
    intros h _; destruct h; by vm_compute.
Qed.
Lemma validate_device_ids_safe n : fault_free (validate_max_device_ids n).
Proof. unfold validate_max_device_ids. by repeat case_match. Qed.
Lemma device_page_safe r c n : fault_free (device_list_page_from_result r c n).
Proof.
  unfold device_list_page_from_result, next_device_list_cursor. case_match; [done|].
  apply fault_free_bind; [by repeat case_match|done].
Qed.
#[export] Hint Resolve response_bind_conn_safe response_set_ssv_safe response_secinfo_safe response_verify_safe
  response_want_delegation_safe response_dir_delegation_safe response_io_advise_safe response_seek_safe
  response_copy_notify_safe response_offload_status_safe response_device_info_safe response_device_list_safe
  response_layout_get_safe response_layout_commit_safe response_layout_return_safe response_read_plus_safe
  response_write_same_safe response_copy_safe app_data_block_safe io_advice_bitmap_safe
  validate_device_ids_safe device_page_safe : fault_free.

Section any_server.
Context {W R : Type} `{!Nfs4Rpc W R, !Nfs4Net W R, !Nfs4Laws W R}.
Context (N : W → W → Prop) `{!Moves N, !MainMoves (R := R) N}.
Abbreviation tame_files := (Tame world_inv (world_move N)).

#[local] Instance protocol_move_preorder : PreOrder (world_move (R := R) N) := world_move_preorder N.

(** ** Public and parent directories *)

#[export] Instance tame_public_supported path : tame_files (Files.public_supported_attrs path).
Proof. unfold Files.public_supported_attrs. file_steps. Qed.
Lemma tame_public_values path attrs : askable attrs → tame_files (Files.public_supported_attr_values path attrs).
Proof.
  intros Ha. unfold askable in Ha. unfold Files.public_supported_attr_values, Files.public_getattr_values. file_steps.
Qed.
#[export] Instance tame_public_request path : tame_files (Protocol.public_supported_attr_request path FATTR4_BASIC_ATTRS).
Proof. unfold Protocol.public_supported_attr_request. file_steps. Qed.
#[export] Instance tame_public_page path cursor max : tame_files (Protocol.public_read_dir_page_limited path cursor max).
Proof. apply tame_listing_page; [apply _..|eauto with fault_free|eauto with fault_free]. Qed.
Lemma tames_public_read_dir path max :
  0 ≤ max < usize_max →
  tames world_inv (world_move N) (Protocol.public_read_dir_with_limit path max) (λ entries, zlen entries ≤ max).
Proof. apply tames_listing; [apply _..|eauto with fault_free|eauto with fault_free]. Qed.
#[export] Instance tame_public_fsinfo path : tame_files (Protocol.public_fsinfo path).
Proof. unfold Protocol.public_fsinfo. file_steps. apply tame_public_values; [apply _..|]. intros s. eauto with fault_free. Qed.

#[export] Instance tame_parent_supported path : tame_files (Protocol.parent_supported_attrs path).
Proof. unfold Protocol.parent_supported_attrs. file_steps. Qed.
Lemma tame_parent_values path attrs : askable attrs → tame_files (Protocol.parent_supported_attr_values path attrs).
Proof.
  intros Ha. unfold askable in Ha. unfold Protocol.parent_supported_attr_values, Protocol.parent_getattr_values. file_steps.
Qed.
#[export] Instance tame_parent_getattr path : tame_files (Protocol.parent_getattr path).
Proof. unfold Protocol.parent_getattr. file_steps. apply tame_parent_values; [apply _..|]. intros s. eauto with fault_free. Qed.
#[export] Instance tame_parent_request path : tame_files (Protocol.parent_supported_attr_request path FATTR4_BASIC_ATTRS).
Proof. unfold Protocol.parent_supported_attr_request. file_steps. Qed.
#[export] Instance tame_parent_page path cursor max : tame_files (Protocol.parent_read_dir_page_limited path cursor max).
Proof. apply tame_listing_page; [apply _..|eauto with fault_free|eauto with fault_free]. Qed.
Lemma tames_parent_read_dir path max :
  0 ≤ max < usize_max →
  tames world_inv (world_move N) (Protocol.parent_read_dir_with_limit path max) (λ entries, zlen entries ≤ max).
Proof. apply tames_listing; [apply _..|eauto with fault_free|eauto with fault_free]. Qed.

(** ** Session, security, delegations *)

#[export] Instance tame_backchannel program parms : tame_files (Protocol.backchannel_ctl program parms).
Proof. unfold Protocol.backchannel_ctl. file_steps. Qed.
#[export] Instance tame_bind_conn direction rdma :
  tame_files (Protocol.bind_conn_to_session_with_options direction rdma).
Proof.
  unfold Protocol.bind_conn_to_session_with_options. apply tame_bind; [apply _|file_steps|]. intros id.
  apply tame_bind; [apply _| |intros r; file_steps].
  refine (tames_move N _ _ (tame_raw_compound N _ _ _)). by vm_compute.
Qed.
#[export] Instance tame_set_ssv ssv digest : tame_files (Protocol.set_ssv ssv digest).
Proof. unfold Protocol.set_ssv. file_steps. Qed.
#[export] Instance tame_secinfo path : tame_files (Protocol.secinfo path).
Proof. unfold Protocol.secinfo. file_steps. Qed.
#[export] Instance tame_secinfo_no_name path style : tame_files (Protocol.secinfo_no_name path style).
Proof. unfold Protocol.secinfo_no_name. file_steps. Qed.
#[export] Instance tame_require operation minimum : tame_files (Protocol.require_version operation minimum).
Proof. unfold Protocol.require_version. file_steps. Qed.
#[export] Instance tame_want_delegation path want claim :
  tame_files (Protocol.want_delegation_with_claim path want claim).
Proof. unfold Protocol.want_delegation_with_claim. file_steps. Qed.
#[export] Instance tame_dir_delegation path args : tame_files (Protocol.get_dir_delegation path args).
Proof. unfold Protocol.get_dir_delegation. file_steps. Qed.
#[export] Instance tame_deleg_return path stateid : tame_files (Protocol.return_delegation path stateid).
Proof. unfold Protocol.return_delegation. file_steps. Qed.
#[export] Instance tame_purge : tame_files Protocol.purge_delegations.
Proof. unfold Protocol.purge_delegations. file_steps. Qed.

(** ** Attribute checks *)

(** [compound] passes on only responses in which every operation succeeded. *)
Lemma tames_compound_ok operations :
  tames world_inv (world_move N) (compound operations) (λ r, Forall result_is_ok (CompoundResponse.results r)).
Proof.
  eapply tames_bind; [apply _|exact (tames_compound_status N main_moves operations)|]. intros r [Hs _].
  eapply (tames_bind _ _ _ _ (λ _, CompoundResponse.status r = Status.Ok)).
  - apply tames_lift; [apply _|eauto with fault_free|]. unfold CompoundResponse.ensure_ok.
    intros u. case_match eqn:Hok; [intros _; by apply is_ok_spec|by case_match].
  - intros _ Hok. apply tames_ret; [apply _|]. by apply (shape_ok _ _ _ Hs).
Qed.
Lemma response_verify_true r op status b :
  Forall result_is_ok (CompoundResponse.results r) → response_verify r op status = Ok b → b = true.
Proof.
  intros Hall (x & Hx & Ho)%find_result_Ok. eapply list.Forall_forall in Hall; [|exact Hx].
  destruct x; try done. case_match; [|done]. unfold result_is_ok in Hall. cbn in Hall. subst. by injection Ho as <-.
Qed.
Lemma tames_verify path attrs : tames world_inv (world_move N) (Protocol.verify_attrs path attrs) (λ b, b = true).
Proof.
  unfold Protocol.verify_attrs. skip_step. eapply tames_bind; [apply _|apply tames_compound_ok|]. intros r Hr.
  apply tames_lift; [apply _|eauto with fault_free|]. intros b. by apply response_verify_true.
Qed.
Lemma tames_nverify path attrs : tames world_inv (world_move N) (Protocol.nverify_attrs path attrs) (λ b, b = true).
Proof.
  unfold Protocol.nverify_attrs. skip_step. eapply tames_bind; [apply _|apply tames_compound_ok|]. intros r Hr.
  apply tames_lift; [apply _|eauto with fault_free|]. intros b. by apply response_verify_true.
Qed.

(** ** NFSv4.2 *)

#[export] Instance tame_io_advise path offset count hints : tame_files (Protocol.io_advise path offset count hints).
Proof. unfold Protocol.io_advise, Protocol.io_advise_opened. file_steps. Qed.
#[export] Instance tame_read_plus path offset count : tame_files (Protocol.read_plus path offset count).
Proof. unfold Protocol.read_plus, Protocol.read_plus_opened. file_steps. Qed.
#[export] Instance tame_seek path offset what : tame_files (Protocol.seek path offset what).
Proof. unfold Protocol.seek, Protocol.seek_opened. file_steps. Qed.
#[export] Instance tame_write_same path block stable : tame_files (Protocol.write_same_with_stability path block stable).
Proof. unfold Protocol.write_same_with_stability, Protocol.write_same_opened. file_steps. Qed.
#[export] Instance tame_finish_both {A} target source context (m : M (World W R) Error A) :
  tame_files m → tame_files (Protocol.finish_both target source context m).
Proof. intros Hm. unfold Protocol.finish_both. file_steps. Qed.
#[export] Instance tame_copy_offload source target options :
  tame_files (Protocol.copy_opened_range_offload source target options).
Proof. unfold Protocol.copy_opened_range_offload. cbv zeta. file_steps. Qed.
#[export] Instance tame_copy_range from to src dst count consecutive synchronous servers :
  tame_files (Protocol.copy_range_offload_with_options from to src dst count consecutive synchronous servers).
Proof.
  unfold Protocol.copy_range_offload_with_options. apply tame_bind; [apply _|file_steps|intros _].
  do 2 (case_match; [file_steps|]). do 2 (apply tame_bind; [apply _|file_steps|intros ?]).
  pose proof (distinct_handles_safe (handle a) (handle a0)) as Hf.
  destruct (ensure_distinct_copy_handles _ _) as [[]|e|f]; [file_steps..|by destruct (Hf f)].
Qed.
#[export] Instance tame_copy_notify source server : tame_files (Protocol.copy_notify source server).
Proof. unfold Protocol.copy_notify, Protocol.copy_notify_opened. file_steps. Qed.
#[export] Instance tame_offload_status stateid : tame_files (Protocol.offload_status stateid).
Proof. unfold Protocol.offload_status. file_steps. Qed.
#[export] Instance tame_offload_cancel stateid : tame_files (Protocol.offload_cancel stateid).
Proof. unfold Protocol.offload_cancel. file_steps. Qed.
#[export] Instance tame_clone_range from to src dst count : tame_files (Protocol.clone_range from to src dst count).
Proof.
  unfold Protocol.clone_range. file_steps. apply tame_finish_both. unfold Protocol.clone_opened_range. file_steps.
Qed.

(** ** Devices and layouts *)

#[export] Instance tame_device_info device layout max notify :
  tame_files (Protocol.get_device_info_with_notify device layout max notify).
Proof. unfold Protocol.get_device_info_with_notify. file_steps. Qed.

Lemma device_page_within r c n page :
  device_list_page_from_result r c n = Ok page → zlen (DeviceListPage.device_ids page) ≤ n.
Proof.
  unfold device_list_page_from_result. rewrite Z.gtb_ltb. destruct (Z.ltb_spec n (zlen (GetDeviceListResult.device_ids r))); [done|].
  by intros (next & _ & [= <-])%outcome_bind_Ok.
Qed.
Lemma tames_device_page layout cursor max :
  tames world_inv (world_move N) (Protocol.list_device_page_limited layout cursor max)
    (λ page, zlen (DeviceListPage.device_ids page) ≤ max).
Proof.
  unfold Protocol.list_device_page_limited. skip_step. skip_step. cbv zeta. skip_step. skip_step.
  apply tames_lift; [apply _|eauto with fault_free|apply device_page_within].
Qed.

#[export] Instance tame_layout_get path layout iomode offset length min max signal :
  tame_files (Protocol.layout_get_with_options path layout iomode offset length min max signal).
Proof. unfold Protocol.layout_get_with_options, Protocol.layout_get_opened. file_steps. Qed.
#[export] Instance tame_layout_commit path offset length stateid last time update reclaim :
  tame_files (Protocol.layout_commit_with_options path offset length stateid last time update reclaim).
Proof. unfold Protocol.layout_commit_with_options. file_steps. Qed.
#[export] Instance tame_layout_error path offset length stateid errors :
  tame_files (Protocol.layout_error path offset length stateid errors).
Proof. unfold Protocol.layout_error. file_steps. Qed.
#[export] Instance tame_layout_stats path offset length stateid read write device update :
  tame_files (Protocol.layout_stats path offset length stateid read write device update).
Proof. unfold Protocol.layout_stats. file_steps. Qed.
#[export] Instance tame_layout_return_file path layout iomode offset length stateid body :
  tame_files (Protocol.layout_return_file path layout iomode offset length stateid body).
Proof. unfold Protocol.layout_return_file. file_steps. Qed.
#[export] Instance tame_layout_return_fsid path layout iomode : tame_files (Protocol.layout_return_fsid path layout iomode).
Proof. unfold Protocol.layout_return_fsid. file_steps. Qed.
#[export] Instance tame_layout_return_all layout iomode : tame_files (Protocol.layout_return_all layout iomode).
Proof. unfold Protocol.layout_return_all. file_steps. Qed.

End any_server.
