(* ===== verification/TokioV4Files.v ===== *)
(** * Files and directories of the asynchronous NFSv4 client (src/src/v4/tokio.rs)

    The operations of [Client] on paths, translated from src/src/v4/tokio.rs
    over the session of [TokioV4]: opening and closing files with the clean-up
    of a failed open, reading, writing, copying and locking opened files, and
    the operations on names.  Local readers and writers, the environment of
    temporary names, and the types of an opened file and of the tasks of
    [remove_all] are those of [V4Files]. *)

From Stdlib Require Import Strings.String Strings.Byte.
From S2P Require Import Prelude Text Xdr Status Errors Rpc V3Client V3Blocking V4Attr V4Ops V4Results.
From S2P Require Import V4Client V4Extract V4Session V4Files TokioV4.
Import FileHandle (FileHandle).
Import StateId (StateId).
Import Bitmap (Bitmap).
Import Fattr (Fattr).
Import FileType (FileType).
Import BasicAttributes (BasicAttributes).
Import SetAttrs (SetAttrs).
Import NfsTime (NfsTime).
Import FsStat (FsStat).
Import PathConf (PathConf).
Import StableHow (StableHow).
Import OpenHow (OpenHow).
Import LockType (LockType).
Import LockDenied (LockDenied).
Import LockState (LockState).
Import LockRegistry (LockRegistry).
Import ByteRangeLock (ByteRangeLock).
Import CommitResult (CommitResult).
Import AccessResult (AccessResult).
Import CreateKind (CreateKind).
Import SpaceOp (SpaceOp).
Import Operation (Operation).
Import OperationResult (OperationResult).
Import CompoundResponse (CompoundResponse).
Import DirPageCursor (DirPageCursor).
Import DirEntry (DirEntry).
Import DirPage (DirPage).

Import TokioV4.Session.

#[local] Open Scope Z_scope.

Module TokioFiles.
Import V4Files.Files (write_out, read_in, on_temp, offset_fuel, RemoveTask(..)).

Section files.
Context {W R : Type} `{!Nfs4Rpc W R, !Nfs4Net W R}.
#[local] Abbreviation World := (V4Session.World W R).
#[local] Abbreviation sleep := (V4Session.thread_sleep (R := R)).

(** ** Names *)

(** [PutRootFh], then a LOOKUP for each component. *)
Definition walk_ops (components : list str) : list Operation :=
  Operation.PutRootFh :: (Operation.Lookup <$> components).

Definition ensure_status_for (response : CompoundResponse) (operation : string) : M World Error unit :=
  lift (ensure_last_status response operation).
Definition ensure_status (response : CompoundResponse) (operation : string) : M World Error unit :=
  ensure_status_for response operation.

Definition lookup (path : str) : M World Error unit :=
  operations ← lift (path_ops path []);
  _ ← compound operations;
  mret tt.
Definition lookup_public (path : str) : M World Error unit :=
  operations ← lift (public_path_ops path []);
  _ ← compound operations;
  mret tt.

(** [match m { Ok(_) => Ok(true), Err(NfsV4 { status: NoEnt }) => Ok(false), Err(err) => Err(err) }]. *)
Definition or_missing (m : M World Error unit) : M World Error bool :=
  result ← attempt m;
  match result with
  | inl _ => mret true
  | inr (NfsV4 _ Status.NoEnt) => mret false
  | inr err => throw err
  end.
Definition exists_ (path : str) : M World Error bool := or_missing (lookup path).
Definition public_exists (path : str) : M World Error bool := or_missing (lookup_public path).

Definition file_handle (path : str) : M World Error FileHandle :=
  operations ← lift (path_ops path [Operation.GetFh]);
  response ← compound operations;
  lift (response_getfh response).
Definition public_file_handle (path : str) : M World Error FileHandle :=
  operations ← lift (public_path_ops path [Operation.GetFh]);
  response ← compound operations;
  lift (response_getfh response).
Definition parent_file_handle (path : str) : M World Error FileHandle :=
  operations ← lift (parent_path_ops path [Operation.GetFh]);
  response ← compound operations;
  lift (response_getfh response).

(** ** Attributes *)

Definition getattr_values (path : str) (attr_request : Bitmap) : M World Error Fattr :=
  if Bitmap.is_empty attr_request then mret (empty_attrs attr_request) else
  operations ← lift (path_ops path [Operation.GetAttr attr_request]);
  response ← compound operations;
  lift (response_getattr response).
Definition supported_attr_values (path : str) (attrs : list Z) : M World Error Fattr :=
  get_supported_attr_values path attrs.

Definition getattr (path : str) : M World Error BasicAttributes :=
  attrs ← get_supported_attr_values path FATTR4_BASIC_ATTRS;
  lift (parse_basic attrs).
Definition metadata (path : str) : M World Error BasicAttributes := getattr path.
Definition file_type (path : str) : M World Error FileType :=
  attrs ← metadata path;
  lift (BasicAttributes.required_file_type attrs).
Definition is_file (path : str) : M World Error bool :=
  file_type ← file_type path; mret (FileType.is_file file_type).
Definition is_dir (path : str) : M World Error bool :=
  file_type ← file_type path; mret (FileType.is_dir file_type).
Definition is_symlink (path : str) : M World Error bool :=
  file_type ← file_type path; mret (FileType.is_symlink file_type).
Definition fsstat (path : str) : M World Error FsStat :=
  attrs ← get_supported_attr_values path FATTR4_FSSTAT_ATTRS;
  lift (parse_fsstat attrs).
Definition pathconf (path : str) : M World Error PathConf :=
  attrs ← get_supported_attr_values path FATTR4_PATHCONF_ATTRS;
  lift (parse_pathconf attrs).

Definition public_supported_attrs (path : str) : M World Error Bitmap :=
  attrs ← lift (Bitmap.from_known_attrs [FATTR4_SUPPORTED_ATTRS]);
  operations ← lift (public_path_ops path [Operation.GetAttr attrs]);
  response ← compound operations;
  attrs ← lift (response_getattr response);
  lift (parse_supported_attrs attrs).
Definition public_getattr_values (path : str) (attr_request : Bitmap) : M World Error Fattr :=
  if Bitmap.is_empty attr_request then mret (empty_attrs attr_request) else
  operations ← lift (public_path_ops path [Operation.GetAttr attr_request]);
  response ← compound operations;
  lift (response_getattr response).
Definition public_supported_attr_values (path : str) (attrs : list Z) : M World Error Fattr :=
  supported ← public_supported_attrs path;
  attrs ← lift (Bitmap.from_supported_attrs supported attrs);
  public_getattr_values path attrs.
Definition public_getattr (path : str) : M World Error BasicAttributes :=
  attrs ← public_supported_attr_values path FATTR4_BASIC_ATTRS;
  lift (parse_basic attrs).

Definition access (path : str) (access : Z) : M World Error AccessResult :=
  operations ← lift (path_ops path [Operation.Access access]);
  response ← compound operations;
  lift (response_access response).
Definition public_access (path : str) (access : Z) : M World Error AccessResult :=
  operations ← lift (public_path_ops path [Operation.Access access]);
  response ← compound operations;
  lift (response_access response).

Definition read_link (path : str) : M World Error str :=
  operations ← lift (path_ops path [Operation.ReadLink]);
  response ← compound operations;
  lift (response_readlink response).

(** ** Creating, linking, removing and renaming *)

Definition create_entry (path : str) (kind : CreateKind) (attrs : outcome Error Fattr) : M World Error unit :=
  '(parent_components, name) ← lift (split_parent path);
  attrs ← lift attrs;
  response ← compound (walk_ops parent_components
    ++ [Operation.Create (CreateArgs.mkCreateArgs kind name attrs)]);
  ensure_status_for response "CREATE".

Definition mkdir (path : str) (mode : Z) : M World Error unit :=
  create_entry path CreateKind.Directory (Fattr.mode mode).
Definition symlink (path target : str) : M World Error unit :=
  create_entry path (CreateKind.Symlink target) (Ok Fattr.empty).
Definition create_special (path : str) (kind : CreateKind) (mode : Z) : M World Error unit :=
  create_entry path kind (Fattr.mode mode).
Definition create_fifo (path : str) (mode : Z) : M World Error unit :=
  create_special path CreateKind.Fifo mode.
Definition create_socket (path : str) (mode : Z) : M World Error unit :=
  create_special path CreateKind.Socket mode.
Definition create_block_device (path : str) (major minor mode : Z) : M World Error unit :=
  create_special path (CreateKind.BlockDevice major minor) mode.
Definition create_character_device (path : str) (major minor mode : Z) : M World Error unit :=
  create_special path (CreateKind.CharacterDevice major minor) mode.

Definition hard_link (existing link : str) : M World Error unit :=
  existing_components ← lift (path_components existing);
  '(link_parent, link_name) ← lift (split_parent link);
  response ← compound (walk_ops existing_components ++ [Operation.SaveFh] ++ walk_ops link_parent
    ++ [Operation.Link link_name]);
  ensure_status response "LINK".

Definition remove (path : str) : M World Error unit :=
  '(parent_components, name) ← lift (split_parent path);
  response ← compound (walk_ops parent_components ++ [Operation.Remove name]);
  ensure_status response "REMOVE".

(** [match m { Ok(()) => Ok(true), Err(err) if err.is_not_found() => Ok(false), Err(err) => Err(err) }]. *)
Definition if_exists (m : M World Error unit) : M World Error bool :=
  result ← attempt m;
  match result with
  | inl _ => mret true
  | inr err => if is_not_found err then mret false else throw err
  end.
Definition remove_if_exists (path : str) : M World Error bool := if_exists (remove path).
Definition rmdir (path : str) : M World Error unit := remove path.
Definition rmdir_if_exists (path : str) : M World Error bool := if_exists (rmdir path).

Definition rename (from to : str) : M World Error unit :=
  '(from_parent, from_name) ← lift (split_parent from);
  '(to_parent, to_name) ← lift (split_parent to);
  response ← compound (walk_ops from_parent ++ [Operation.SaveFh] ++ walk_ops to_parent
    ++ [Operation.Rename from_name to_name]);
  ensure_status response "RENAME".

(** ** Closing *)

(** [target.and(other)]. *)
Definition and_result {A} (first : unit + Error) (second : A + Error) : A + Error :=
  match first with inl _ => second | inr err => inr err end.

(** One turn; the loop variables are [retry] and [recovered_session]. *)
Definition close_step (operations : list Operation) (stateid : StateId) (l : Z * bool)
    : M World Error (Z * bool + unit) :=
  let '(retry, recovered_session) := l in
  seqid ← current_open_seqid;
  result ← attempt (compound_status (operations ++ [Operation.Close seqid stateid]));
  match result with
  | inr err =>
      if is_session_recoverable err && negb recovered_session
      then continue_ (retry, true) else throw err
  | inl response =>
      (if response_consumed_owner_seqid response OpCode.Close then advance_open_seqid else mret tt) ;;
      policy ← field Client.retry_policy;
      match response_operation_has_delayed_status response OpCode.Close,
            delay_for_retry policy retry with
      | true, Some delay => on_env (sleep delay) ;; continue_ (retry + 1, recovered_session)
      | _, _ =>
          if response_operation_requires_session_recovery response OpCode.Close
             && negb recovered_session then
            let error := match CompoundResponse.ensure_ok response with
                         | Err error => error
                         | _ => Protocol [PLit "CLOSE required session recovery but response was OK"]
                         end in
            recover_session ;;
            throw error
          else
            lift (CompoundResponse.ensure_ok response) ;;
            ensure_status response "CLOSE" ;;
            break_ tt
      end
  end.

Definition close_with_current_filehandle (operations : list Operation) (stateid : StateId)
    : M World Error unit :=
  loop retry_fuel (close_step operations stateid) (0, false).

Definition close (opened : OpenedFile) : M World Error unit :=
  close_with_current_filehandle [Operation.PutFh (handle opened)] (stateid opened).

Definition close_state_by_path (path : str) (stateid : StateId) : M World Error unit :=
  prefix ← lift (path_ops path []);
  close_with_current_filehandle prefix stateid.

(** [let result = body; let close_result = self.close(opened); finish_with_close(result, close_result)]. *)
Definition finish_opened {S A} (close : M S Error unit) (body : M S Error A) : M S Error A :=
  result ← attempt body;
  close_result ← attempt close;
  lift (finish_with_close result close_result).

(** ** Opening *)

Definition cleanup_failed_open (path : str) (error : Error) (close_result : unit + Error)
    (cleanup : OpenFailureCleanup) : M World Error Error :=
  let error := open_cleanup_error error close_result in
  match cleanup with
  | KeepPath => mret error
  | RemovePath =>
      result ← attempt (remove path);
      mret (cleanup_error error "cleanup REMOVE after failed OPEN post-processing" result)
  end.

(** What follows a failed OPEN or its post-processing depends on where the file is: [close_state] closes
    it by its name, [cleaned] adds the failure of that to the error and may remove the file. *)
Definition cleanup_open_response (close_state : StateId → M World Error unit)
    (cleaned : Error → unit + Error → M World Error Error) (response : CompoundResponse) (error : Error)
    : M World Error Error :=
  match response_open response with
  | Ok open =>
      close_result ← attempt (close_state (OpenResult.stateid open));
      cleaned error close_result
  | Err _ => mret error
  | Fault f => lift (Fault f)
  end.

Definition return_open_delegation (handle : FileHandle) (stateid : StateId) : M World Error unit :=
  response ← compound [Operation.PutFh handle; Operation.DelegReturn stateid];
  ensure_status response "DELEGRETURN".

(** The rest of a turn once OPEN has succeeded: an error closes the file again. *)
Definition opened_file (close_state : StateId → M World Error unit)
    (cleaned : Error → unit + Error → M World Error Error) (response : CompoundResponse)
    : M World Error OpenedFile :=
  open ← lift (response_open response);
  match response_getfh response with
  | Fault f => lift (Fault f)
  | Err error =>
      close_result ← attempt (close_state (OpenResult.stateid open));
      error ← cleaned error close_result;
      throw error
  | Ok handle =>
      let opened := mkOpenedFile handle (OpenResult.stateid open) in
      let closed error :=
        close_result ← attempt (close opened);
        error ← cleaned error close_result;
        throw error in
      minor_version ← field Client.minor_version;
      match validate_open_result open minor_version with
      | Fault f => lift (Fault f)
      | Err error => closed error
      | Ok None => mret opened
      | Ok (Some delegation_stateid) =>
          returned ← attempt (return_open_delegation handle delegation_stateid);
          match returned with
          | inl _ => mret opened
          | inr error => closed error
          end
      end
  end.

Definition open_operation (seqid share_access client_id : Z) (owner : list byte) (openhow : OpenHow)
    (name : str) : Operation :=
  Operation.Open (OpenArgs.mkOpenArgs seqid (Z.lor share_access OPEN4_SHARE_ACCESS_WANT_NO_DELEG)
    OPEN4_SHARE_DENY_NONE (OpenOwner.mkOpenOwner client_id owner) openhow (OpenClaim.Null name)).

(** One turn; the loop variables are [retry] and [recovered_session].  [operations] has the sequence
    number of the owner and the client id as arguments. *)
Definition opening_step (operations : Z → Z → outcome Error (list Operation))
    (close_state : StateId → M World Error unit) (cleaned : Error → unit + Error → M World Error Error)
    (l : Z * bool) : M World Error (Z * bool + OpenedFile) :=
  let '(retry, recovered_session) := l in
  seqid ← current_open_seqid;
  client_id ← field Client.client_id;
  operations ← lift (operations seqid client_id);
  result ← attempt (compound_status operations);
  match result with
  | inr err =>
      if is_session_recoverable err && negb recovered_session
      then continue_ (retry, true) else throw err
  | inl response =>
      (if response_consumed_owner_seqid response OpCode.Open then advance_open_seqid else mret tt) ;;
      policy ← field Client.retry_policy;
      match response_operation_has_delayed_status response OpCode.Open,
            delay_for_retry policy retry with
      | true, Some delay => on_env (sleep delay) ;; continue_ (retry + 1, recovered_session)
      | _, _ =>
          if response_operation_requires_session_recovery response OpCode.Open
             && negb recovered_session then
            recover_session ;;
            continue_ (retry, true)
          else
            match CompoundResponse.ensure_ok response with
            | Fault f => lift (Fault f)
            | Err error =>
                error ← cleanup_open_response close_state cleaned response error;
                throw error
            | Ok _ =>
                opened ← opened_file close_state cleaned response;
                break_ opened
            end
      end
  end.

Definition open_step (path : str) (share_access : Z) (openhow : OpenHow)
    (cleanup : OpenFailureCleanup) (owner : list byte) (parent_components : list str)
    (file_name : str) : Z * bool → M World Error (Z * bool + OpenedFile) :=
  opening_step
    (λ seqid client_id, Ok (walk_ops parent_components
       ++ [open_operation seqid share_access client_id owner openhow file_name; Operation.GetFh]))
    (close_state_by_path path)
    (λ error close_result, cleanup_failed_open path error close_result cleanup).

Definition open_with_owner_failure_cleanup (path : str) (share_access : Z) (openhow : OpenHow)
    (cleanup : OpenFailureCleanup) (owner : list byte) : M World Error OpenedFile :=
  '(parent_components, file_name) ← lift (split_parent path);
  loop retry_fuel (open_step path share_access openhow cleanup owner parent_components file_name)
    (0, false).

Definition open_with_failure_cleanup (path : str) (share_access : Z) (openhow : OpenHow)
    (cleanup : OpenFailureCleanup) : M World Error OpenedFile :=
  owner ← field Client.open_owner;
  open_with_owner_failure_cleanup path share_access openhow cleanup owner.
Definition open (path : str) (share_access : Z) (openhow : OpenHow) : M World Error OpenedFile :=
  open_with_failure_cleanup path share_access openhow KeepPath.
Definition open_with_owner (path : str) (share_access : Z) (openhow : OpenHow) (owner : list byte)
    : M World Error OpenedFile :=
  open_with_owner_failure_cleanup path share_access openhow KeepPath owner.
Definition open_temp (path : str) (share_access : Z) (openhow : OpenHow) : M World Error OpenedFile :=
  open_with_failure_cleanup path share_access openhow RemovePath.

(** ** Opened files *)

Definition read_opened_at (opened : OpenedFile) (offset count : Z)
    : M World Error (bool * list byte) :=
  response ← compound [Operation.PutFh (handle opened); Operation.Read (stateid opened) offset count];
  lift (response_read response count).

Definition read_opened_to_end_step (opened : OpenedFile) (l : Z * list byte)
    : M World Error (Z * list byte + list byte) :=
  let '(offset, out) := l in
  read_size ← field Client.read_size;
  '(eof, data) ← read_opened_at opened offset read_size;
  if is_empty data then break_ out else
  offset ← lift (advance_offset offset (zlen data) "NFSv4 READ");
  let out := out ++ data in
  if (eof : bool) then break_ out else continue_ (offset, out).
Definition read_opened_to_end (opened : OpenedFile) : M World Error (list byte) :=
  loop offset_fuel (read_opened_to_end_step opened) (0, []).

Section writer.
Context {Wr : Type} `{!Writer Wr}.

Definition read_opened_to_writer_step (opened : OpenedFile) (l : Z * Z)
    : M (World * Wr) Error (Z * Z + Z) :=
  let '(offset, total) := l in
  read_size ← on_fst (field Client.read_size);
  '(eof, data) ← on_fst (read_opened_at opened offset read_size);
  if is_empty data then break_ total else
  write_out data ;;
  offset ← lift (advance_offset offset (zlen data) "NFSv4 READ");
  total ← lift (advance_offset total (zlen data) "NFSv4 READ total");
  if (eof : bool) then break_ total else continue_ (offset, total).
Definition read_opened_to_writer (opened : OpenedFile) : M (World * Wr) Error Z :=
  loop offset_fuel (read_opened_to_writer_step opened) (0, 0).

(** The loop variables are [offset], [remaining] and [total]. *)
Definition read_opened_range_to_writer_step (opened : OpenedFile) (l : Z * Z * Z)
    : M (World * Wr) Error (Z * Z * Z + Z) :=
  let '(offset, remaining, total) := l in
  if negb (remaining >? 0) then break_ total else
  read_size ← on_fst (field Client.read_size);
  let request := wrap_u32 (Z.min read_size remaining) in
  '(eof, data) ← on_fst (read_opened_at opened offset request);
  if is_empty data then break_ total else
  write_out data ;;
  offset ← lift (advance_offset offset (zlen data) "NFSv4 READ");
  total ← lift (advance_offset total (zlen data) "NFSv4 READ total");
  let remaining := remaining - zlen data in
  if (eof : bool) then break_ total else continue_ (offset, remaining, total).
Definition read_opened_range_to_writer (opened : OpenedFile) (offset remaining : Z)
    : M (World * Wr) Error Z :=
  loop offset_fuel (read_opened_range_to_writer_step opened) (offset, remaining, 0).

Definition read_to_writer (path : str) : M (World * Wr) Error Z :=
  opened ← on_fst (open path OPEN4_SHARE_ACCESS_READ OpenHow.NoCreate);
  finish_opened (on_fst (close opened)) (read_opened_to_writer opened).
Definition read_range_to_writer (path : str) (offset count : Z) : M (World * Wr) Error Z :=
  opened ← on_fst (open path OPEN4_SHARE_ACCESS_READ OpenHow.NoCreate);
  finish_opened (on_fst (close opened)) (read_opened_range_to_writer opened offset count).

End writer.

(** [out] is a local [Vec]. *)
Definition read_opened_range_vec (opened : OpenedFile) (offset count : Z) : M World Error (list byte) :=
  λ w,
    match read_opened_range_to_writer (Wr := list byte) opened offset count (w, []) with
    | ((w', out), Ok _) => (w', Ok out)
    | ((w', _), Err e) => (w', Err e)
    | ((w', _), Fault f) => (w', Fault f)
    end.
Definition read_opened_range (opened : OpenedFile) (offset count : Z) : M World Error (list byte) :=
  read_opened_range_vec opened offset count.

Definition commit_opened (opened : OpenedFile) (offset count : Z) : M World Error CommitResult :=
  response ← compound [Operation.PutFh (handle opened); Operation.Commit offset count];
  lift (response_commit response).

(** The loop variables are [offset] and [data]. *)
Definition write_opened_at_step (opened : OpenedFile) (l : Z * list byte)
    : M World Error (Z * list byte + unit) :=
  let '(offset, data) := l in
  if is_empty data then break_ tt else
  write_size ← field Client.write_size;
  let chunk_len := Z.min (zlen data) write_size in
  response ← compound
    [Operation.PutFh (handle opened);
     Operation.Write (stateid opened) offset StableHow.FileSync (ztake chunk_len data)];
  result ← lift (response_write response (wrap_u32 chunk_len));
  let written := WriteResult.count result in
  (if StableHow.satisfies (WriteResult.committed result) StableHow.FileSync then mret tt
   else
     commit ← commit_opened opened offset written;
     if bool_decide (CommitResult.verifier commit = WriteResult.verifier result) then mret tt
     else throw (Protocol [PLit "NFSv4 COMMIT verifier changed after unstable WRITE"])) ;;
  offset ← lift (advance_offset offset written "NFSv4 WRITE");
  (if zlen data <? written then lift (Fault Panic) else mret tt) ;;
  continue_ (offset, zdrop written data).
Definition write_opened_at (opened : OpenedFile) (offset : Z) (data : list byte) : M World Error unit :=
  loop (Z.to_pos (zlen data + 2)) (write_opened_at_step opened) (offset, data).

Section reader.
Context {Rd : Type} `{!Reader Rd}.

(** The buffer has the size it had before the loop. *)
Definition write_opened_from_reader_at_step (opened : OpenedFile) (buffer_size : Z) (l : Z * Z)
    : M (World * Rd) Error (Z * Z + Z) :=
  let '(offset, written) := l in
  buffer ← read_in buffer_size;
  if is_empty buffer then break_ written else
  on_fst (write_opened_at opened offset buffer) ;;
  offset ← lift (advance_offset offset (zlen buffer) "NFSv4 WRITE reader");
  written ← lift (advance_offset written (zlen buffer) "NFSv4 WRITE reader total");
  continue_ (offset, written).
Definition write_opened_from_reader_at (opened : OpenedFile) (offset : Z) : M (World * Rd) Error Z :=
  buffer_size ← on_fst (field Client.write_size);
  loop offset_fuel (write_opened_from_reader_at_step opened buffer_size) (offset, 0).
Definition write_opened_from_reader (opened : OpenedFile) : M (World * Rd) Error Z :=
  write_opened_from_reader_at opened 0.

End reader.

Definition copy_opened_step (source target : OpenedFile) (offset : Z) : M World Error (Z + Z) :=
  read_size ← field Client.read_size;
  '(eof, data) ← read_opened_at source offset read_size;
  if is_empty data then break_ offset else
  write_opened_at target offset data ;;
  offset ← lift (advance_offset offset (zlen data) "NFSv4 COPY");
  if (eof : bool) then break_ offset else continue_ offset.
Definition copy_opened (source target : OpenedFile) : M World Error Z :=
  loop offset_fuel (copy_opened_step source target) 0.

Definition set_opened_attrs (opened : OpenedFile) (attrs : Fattr) : M World Error unit :=
  setattr_response ← compound [Operation.PutFh (handle opened); Operation.SetAttr (stateid opened) attrs];
  ensure_status setattr_response "SETATTR".
Definition set_opened_size (opened : OpenedFile) (size : Z) : M World Error unit :=
  attrs ← lift (Fattr.size size);
  set_opened_attrs opened attrs.

Definition update_opened_allocation (opened : OpenedFile) (offset length : Z) (op : SpaceOp)
    : M World Error unit :=
  response ← compound
    [Operation.PutFh (handle opened); SpaceOp.into_operation op (stateid opened) offset length];
  ensure_status response (SpaceOp.name op).

(** ** Files by path *)

Definition read (path : str) : M World Error (list byte) :=
  opened ← open path OPEN4_SHARE_ACCESS_READ OpenHow.NoCreate;
  finish_opened (close opened) (read_opened_to_end opened).
Definition read_range (path : str) (offset count : Z) : M World Error (list byte) :=
  opened ← open path OPEN4_SHARE_ACCESS_READ OpenHow.NoCreate;
  finish_opened (close opened) (read_opened_range_vec opened offset count).
Definition read_at (path : str) (offset count : Z) : M World Error (list byte) :=
  opened ← open path OPEN4_SHARE_ACCESS_READ OpenHow.NoCreate;
  finish_opened (close opened) (read_opened_range opened offset count).
Definition read_exact_at (path : str) (offset count : Z) : M World Error (list byte) :=
  data ← read_at path offset count;
  if zlen data =? count then mret data
  else throw (Protocol [PLit "NFSv4 READ returned "; PNum (zlen data);
                        PLit " bytes before EOF; expected "; PNum count]).

(** [OpenHow::Unchecked(Fattr::mode(mode))] and [OpenHow::Guarded(Fattr::mode(mode))]. *)
Definition unchecked (mode : Z) : M World Error OpenHow :=
  attrs ← lift (Fattr.mode mode); mret (OpenHow.Unchecked attrs).
Definition guarded (mode : Z) : M World Error OpenHow :=
  attrs ← lift (Fattr.mode mode); mret (OpenHow.Guarded attrs).

Definition write_with_mode (path : str) (data : list byte) (mode : Z) : M World Error unit :=
  openhow ← unchecked mode;
  opened ← open path OPEN4_SHARE_ACCESS_BOTH openhow;
  finish_opened (close opened) (set_opened_size opened 0 ;; write_opened_at opened 0 data).
Definition write (path : str) (data : list byte) : M World Error unit :=
  write_with_mode path data mode_0644.

Definition truncate (path : str) (size : Z) : M World Error unit :=
  opened ← open path OPEN4_SHARE_ACCESS_WRITE OpenHow.NoCreate;
  finish_opened (close opened) (set_opened_size opened size).
Definition write_at (path : str) (offset : Z) (data : list byte) : M World Error unit :=
  opened ← open path OPEN4_SHARE_ACCESS_WRITE OpenHow.NoCreate;
  finish_opened (close opened) (write_opened_at opened offset data).

(** [self.metadata(path)?.size.ok_or_else(..)?]. *)
Definition append_offset (path : str) : M World Error Z :=
  attrs ← metadata path;
  lift (ok_or (Protocol [PLit "NFSv4 size attribute is required for append"]) (BasicAttributes.size attrs)).
Definition append (path : str) (data : list byte) : M World Error Z :=
  offset ← append_offset path;
  opened ← open path OPEN4_SHARE_ACCESS_WRITE OpenHow.NoCreate;
  finish_opened (close opened)
    (write_opened_at opened offset data ;; lift (advance_offset 0 (zlen data) "NFSv4 APPEND")).

Section reader_paths.
Context {Rd : Type} `{!Reader Rd}.

Definition write_from_reader_with_mode (path : str) (mode : Z) : M (World * Rd) Error Z :=
  openhow ← on_fst (unchecked mode);
  opened ← on_fst (open path OPEN4_SHARE_ACCESS_BOTH openhow);
  finish_opened (on_fst (close opened))
    (on_fst (set_opened_size opened 0) ;; write_opened_from_reader opened).
Definition write_from_reader (path : str) : M (World * Rd) Error Z :=
  write_from_reader_with_mode path mode_0644.
Definition append_from_reader (path : str) : M (World * Rd) Error Z :=
  offset ← on_fst (append_offset path);
  opened ← on_fst (open path OPEN4_SHARE_ACCESS_WRITE OpenHow.NoCreate);
  finish_opened (on_fst (close opened)) (write_opened_from_reader_at opened offset).

End reader_paths.

Definition update_allocation (path : str) (offset length : Z) (op : SpaceOp) : M World Error unit :=
  if length =? 0 then mret tt else
  minor_version ← field Client.minor_version;
  lift (require_minor_version (SpaceOp.name op) minor_version NFS4_MINOR_VERSION_V42) ;;
  opened ← open path OPEN4_SHARE_ACCESS_WRITE OpenHow.NoCreate;
  finish_opened (close opened) (update_opened_allocation opened offset length op).
Definition allocate (path : str) (offset length : Z) : M World Error unit :=
  update_allocation path offset length SpaceOp.Allocate.
Definition deallocate (path : str) (offset length : Z) : M World Error unit :=
  update_allocation path offset length SpaceOp.Deallocate.

Definition setattr (path : str) (attrs : SetAttrs) : M World Error unit :=
  attrs ← lift (Fattr.from_set_attrs attrs);
  if Bitmap.is_empty (Fattr.attrmask attrs) then mret tt else
  if attrs_require_open_state attrs then
    opened ← open path OPEN4_SHARE_ACCESS_WRITE OpenHow.NoCreate;
    finish_opened (close opened) (set_opened_attrs opened attrs)
  else
    operations ← lift (path_ops path [Operation.SetAttr StateId.anonymous attrs]);
    response ← compound operations;
    ensure_status response "SETATTR".
Definition set_mode (path : str) (mode : Z) : M World Error unit := setattr path (SetAttrs.of_mode mode).
Definition set_owner (path owner : str) : M World Error unit := setattr path (SetAttrs.of_owner owner).
Definition set_owner_group (path owner_group : str) : M World Error unit :=
  setattr path (SetAttrs.of_owner_group owner_group).
Definition set_ownership (path owner owner_group : str) : M World Error unit :=
  setattr path (SetAttrs.ownership owner owner_group).
Definition set_times (path : str) (access_time modify_time : option NfsTime) : M World Error unit :=
  setattr path (SetAttrs.times access_time modify_time).
Definition touch (path : str) : M World Error unit := setattr path SetAttrs.touch.

Definition create_new_with_mode (path : str) (mode : Z) : M World Error unit :=
  openhow ← guarded mode;
  opened ← open path OPEN4_SHARE_ACCESS_BOTH openhow;
  close opened.
Definition create_new (path : str) : M World Error unit := create_new_with_mode path mode_0644.
Definition create (path : str) : M World Error unit := create_new path.
Definition create_with_mode (path : str) (mode : Z) : M World Error unit := create_new_with_mode path mode.

Definition commit (path : str) (offset count : Z) : M World Error CommitResult :=
  operations ← lift (path_ops path [Operation.Commit offset count]);
  response ← compound operations;
  lift (response_commit response).

(** ** Copies *)

Definition ensure_distinct_paths (from to : str) : M World Error unit :=
  from_components ← lift (path_components from);
  to_components ← lift (path_components to);
  if bool_decide (from_components = to_components)
  then throw (Protocol [PLit "copy source and destination must differ"]) else mret tt.

(** [self.metadata(from)?.mode.unwrap_or(0o644) & 0o7777]. *)
Definition copied_mode (from : str) : M World Error Z :=
  attrs ← metadata from;
  mret (Z.land (match BasicAttributes.mode attrs with Some mode => mode | None => mode_0644 end) mode_bits).

(** [match target { Ok(target) => target, Err(err) => return Err(cleanup_error(err, context, self.close(source))) }]. *)
Definition or_close (source : OpenedFile) (context : string) (m : M World Error OpenedFile)
    : M World Error OpenedFile :=
  result ← attempt m;
  match result with
  | inl target => mret target
  | inr err =>
      closed ← attempt (close source);
      throw (cleanup_error err context closed)
  end.

(** Close both files; the first failure counts. *)
Definition close_both (target source : OpenedFile) : M World Error (unit + Error) :=
  target_close ← attempt (close target);
  source_close ← attempt (close source);
  mret (and_result target_close source_close).

Definition copy (from to : str) : M World Error Z :=
  ensure_distinct_paths from to ;;
  mode ← copied_mode from;
  source ← open from OPEN4_SHARE_ACCESS_READ OpenHow.NoCreate;
  openhow ← unchecked mode;
  target ← or_close source "cleanup CLOSE source after failed target OPEN"
             (open to OPEN4_SHARE_ACCESS_BOTH openhow);
  match ensure_distinct_copy_handles (handle source) (handle target) with
  | Err error =>
      closed ← close_both target source;
      throw (cleanup_error error "cleanup CLOSE after rejected same-file copy" closed)
  | Fault f => lift (Fault f)
  | Ok _ =>
      result ← attempt (set_opened_size target 0 ;; copy_opened source target);
      close_result ← close_both target source;
      match result, close_result with
      | inl copied, inl _ => mret copied
      | inl _, inr err => throw err
      | inr err, _ => throw (cleanup_error err "cleanup CLOSE after failed COPY" close_result)
      end
  end.

(** ** Atomic replacement

    The state is the client and the environment of temporary names. *)

Definition finish_with_temp_cleanup {A} (result : A + Error) (created : bool) (temp : str)
    (cleanup_context : string) : M World Error A :=
  match result with
  | inl value => mret value
  | inr err =>
      if created then
        removed ← attempt (remove temp);
        throw (cleanup_error err cleanup_context removed)
      else throw err
  end.

Definition write_atomic_with_mode (path : str) (data : list byte) (mode : Z)
    : M (World * TempEnv) Error unit :=
  temp ← on_temp (temporary_sibling_path path);
  openhow ← on_fst (guarded mode);
  opened ← on_fst (attempt (open_temp temp OPEN4_SHARE_ACCESS_BOTH openhow));
  match opened with
  | inl opened =>
      result ← on_fst (attempt
        (finish_opened (close opened) (write_opened_at opened 0 data) ;; rename temp path));
      on_fst (finish_with_temp_cleanup result true temp "cleanup REMOVE after failed atomic write")
  | inr err =>
      on_fst (finish_with_temp_cleanup (inr err) false temp "cleanup REMOVE after failed atomic write")
  end.
Definition write_atomic (path : str) (data : list byte) : M (World * TempEnv) Error unit :=
  write_atomic_with_mode path data mode_0644.

Definition copy_atomic (from to : str) : M (World * TempEnv) Error Z :=
  on_fst (ensure_distinct_paths from to) ;;
  mode ← on_fst (copied_mode from);
  temp ← on_temp (temporary_sibling_path to);
  source ← on_fst (open from OPEN4_SHARE_ACCESS_READ OpenHow.NoCreate);
  openhow ← on_fst (guarded mode);
  target ← on_fst (or_close source "cleanup CLOSE source after failed atomic target OPEN"
             (open_temp temp OPEN4_SHARE_ACCESS_BOTH openhow));
  copy_result ← on_fst (attempt (copy_opened source target));
  close_result ← on_fst (close_both target source);
  match copy_result, close_result with
  | inl copied, inr err => throw err
  | inl copied, inl _ =>
      result ← on_fst (attempt (rename temp to ;; mret copied));
      on_fst (finish_with_temp_cleanup result true temp "cleanup REMOVE after failed atomic copy")
  | inr err, _ =>
      on_fst (finish_with_temp_cleanup
        (inr (cleanup_error err "cleanup CLOSE after failed atomic COPY" close_result)) true temp
        "cleanup REMOVE after failed atomic copy")
  end.

(** ** Byte-range locks *)

Definition test_lock_with_owner (path : str) (lock_type : LockType) (offset length : Z)
    (owner : list byte) : M World Error (option LockDenied) :=
  lift (validate_lock_owner owner) ;;
  client_id ← field Client.client_id;
  operations ← lift (path_ops path
    [Operation.LockTest (LockTestArgs.mkLockTestArgs lock_type offset length
       (LockOwner.mkLockOwner client_id owner))]);
  response ← compound_status operations;
  lift (response_lock_test response).
Definition test_lock (path : str) (lock_type : LockType) (offset length : Z)
    : M World Error (option LockDenied) :=
  owner ← field Client.open_owner;
  test_lock_with_owner path lock_type offset length owner.

(** The loop variables are [retry] and [lock_seqid]. *)
Definition lock_opened_step (opened : OpenedFile) (lock_type : LockType) (offset length : Z)
    (owner : list byte) (l : Z * Z) : M World Error (Z * Z + StateId * Z) :=
  let '(retry, lock_seqid) := l in
  open_seqid ← current_open_seqid;
  client_id ← field Client.client_id;
  response ← compound_status
    [Operation.PutFh (handle opened);
     Operation.Lock (LockArgs.mkLockArgs lock_type false offset length
       (Locker.New open_seqid (stateid opened) lock_seqid (LockOwner.mkLockOwner client_id owner)))];
  lock_seqid ←
    (if response_consumed_owner_seqid response OpCode.Lock
     then advance_open_seqid ;; mret (next_id lock_seqid) else mret lock_seqid);
  policy ← field Client.retry_policy;
  match response_operation_has_delayed_status response OpCode.Lock, delay_for_retry policy retry with
  | true, Some delay => on_env (sleep delay) ;; continue_ (retry + 1, lock_seqid)
  | _, _ => stateid ← lift (response_lock response); break_ (stateid, lock_seqid)
  end.
Definition lock_opened (opened : OpenedFile) (lock_type : LockType) (offset length : Z)
    (owner : list byte) : M World Error (StateId * Z) :=
  loop retry_fuel (lock_opened_step opened lock_type offset length owner) (0, 1).

Definition unlock_opened_step (lock : LockState) (l : Z * Z) : M World Error (Z * Z + StateId) :=
  let '(retry, lock_seqid) := l in
  response ← compound_status
    [Operation.PutFh (LockState.handle lock);
     Operation.LockUnlock (LockUnlockArgs.mkLockUnlockArgs (LockState.lock_type lock) lock_seqid
       (LockState.lock_stateid lock) (LockState.offset lock) (LockState.length lock))];
  let lock_seqid :=
    if response_consumed_owner_seqid response OpCode.Locku then next_id lock_seqid else lock_seqid in
  policy ← field Client.retry_policy;
  match response_operation_has_delayed_status response OpCode.Locku, delay_for_retry policy retry with
  | true, Some delay => on_env (sleep delay) ;; continue_ (retry + 1, lock_seqid)
  | _, _ => stateid ← lift (response_lock_unlock response); break_ stateid
  end.
Definition unlock_opened (lock : LockState) : M World Error StateId :=
  loop retry_fuel (unlock_opened_step lock) (0, LockState.lock_seqid lock).

Definition free_stateid (stateid : StateId) : M World Error unit :=
  response ← compound [Operation.FreeStateId stateid];
  ensure_status response "FREE_STATEID".

Definition release_lock_owner (owner : list byte) : M World Error bool :=
  lift (validate_lock_owner owner) ;;
  client_id ← field Client.client_id;
  response ← compound_status [Operation.ReleaseLockOwner (LockOwner.mkLockOwner client_id owner)];
  lift (response_release_lock_owner response).

Definition test_stateids (stateids : list StateId) : M World Error (list Status.Status) :=
  if is_empty stateids then mret [] else
  lift (validate_stateid_batch_len (zlen stateids)) ;;
  response ← compound [Operation.TestStateIds stateids];
  lift (response_test_stateids response (zlen stateids)).
Definition test_stateid (stateid : StateId) : M World Error Status.Status :=
  statuses ← test_stateids [stateid];
  lift (ok_or (Protocol [PLit "TEST_STATEID returned no status"]) (list.last statuses)).

(** [self.locks.register(state)]. *)
Definition register_lock (state : LockState) : M World Error ByteRangeLock :=
  locks ← field Client.locks;
  '(locks, token) ← on_env (on_store (LockRegistry.register locks state));
  update (Client.with_locks locks) ;;
  mret token.

(** The state is the client and the environment of generated owners. *)
Definition lock_with_owner (path : str) (lock_type : LockType) (offset length : Z)
    (owner : list byte) : M (World * TempEnv) Error ByteRangeLock :=
  lift (validate_lock_owner owner) ;;
  builder ← on_fst (field Client.builder);
  open_owner ← on_temp (default_open_owner (ClientBuilder.host builder));
  opened ← on_fst (open_with_owner path (lock_share_access lock_type) OpenHow.NoCreate open_owner);
  result ← on_fst (attempt (lock_opened opened lock_type offset length owner));
  match result with
  | inl (lock_stateid, lock_seqid) =>
      client_id ← on_fst (field Client.client_id);
      on_fst (register_lock (LockState.mkLockState client_id open_owner (handle opened)
        (stateid opened) lock_stateid lock_seqid lock_type offset length owner None))
  | inr err =>
      closed ← on_fst (attempt (close opened));
      throw (cleanup_error err "cleanup CLOSE after failed LOCK" closed)
  end.
Definition lock (path : str) (lock_type : LockType) (offset length : Z)
    : M (World * TempEnv) Error ByteRangeLock :=
  builder ← on_fst (field Client.builder);
  owner ← on_temp (default_lock_owner (ClientBuilder.host builder));
  lock_with_owner path lock_type offset length owner.
Definition read_lock (path : str) (offset length : Z) : M (World * TempEnv) Error ByteRangeLock :=
  lock path LockType.Read offset length.
Definition write_lock (path : str) (offset length : Z) : M (World * TempEnv) Error ByteRangeLock :=
  lock path LockType.Write offset length.

Definition unlock (lock : ByteRangeLock) : M World Error unit :=
  locks ← field Client.locks;
  state ← on_env (on_store (LockRegistry.get locks lock));
  update (Client.with_locks (LockRegistry.remove locks lock)) ;;
  match LockState.lost state with
  | Some status =>
      client_id ← field Client.client_id;
      (if LockState.client_id state =? client_id then
         seqid ← current_open_seqid;
         _ ← attempt (recovery_compound
           [Operation.PutFh (LockState.handle state);
            Operation.Close seqid (LockState.open_stateid state)]);
         advance_open_seqid
       else mret tt) ;;
      throw (LockLost status)
  | None =>
      let opened := mkOpenedFile (LockState.handle state) (LockState.open_stateid state) in
      finish_opened (close opened)
        (stateid ← unlock_opened state;
         free_stateid stateid ;;
         _ ← release_lock_owner (LockState.owner state);
         mret tt)
  end.

(** ** Directories *)

Definition readdir_operation (cookie : Z) (cookieverf : list byte) (dir_size : Z)
    (attr_request : Bitmap) : Operation :=
  Operation.ReadDir cookie cookieverf (Z.max (dir_size / 2) 1) dir_size attr_request.

(** A page of the directory that the operations in front of READDIR lead to; [request] asks for
    the attributes its server supports, [results] finds the entries in a response. *)
Definition listing_page (request : M World Error Bitmap)
    (operations : Operation → outcome Error (list Operation))
    (results : CompoundResponse → outcome Error (list byte * list WireDirEntry * bool))
    (cursor : option DirPageCursor) (max_entries : Z) : M World Error DirPage :=
  lift (validate_max_dir_entries max_entries) ;;
  max_dir_entries ← field Client.max_dir_entries;
  let max_entries := Z.min max_entries max_dir_entries in
  attr_request ← request;
  let cursor := match cursor with Some cursor => cursor | None => DirPageCursor.default end in
  dir_size ← field Client.dir_size;
  operations ← lift (operations
    (readdir_operation (DirPageCursor.cookie cursor) (DirPageCursor.cookieverf cursor) dir_size attr_request));
  response ← compound operations;
  '(cookieverf, entries, eof) ← lift (results response);
  lift (dir_page_from_entries cookieverf entries eof (DirPageCursor.cookie cursor) max_entries).

Definition read_dir_page_limited (path : str) (cursor : option DirPageCursor) (max_entries : Z)
    : M World Error DirPage :=
  listing_page (supported_attr_request path FATTR4_BASIC_ATTRS) (λ readdir, path_ops path [readdir])
    response_readdir cursor max_entries.
Definition read_dir_page (path : str) (cursor : option DirPageCursor) : M World Error DirPage :=
  max_dir_entries ← field Client.max_dir_entries;
  read_dir_page_limited path cursor max_dir_entries.

(** One turn of a listing; the loop variables are [cookie], [cookieverf] and [entries]. *)
Definition listing_step (operations : Operation → outcome Error (list Operation))
    (results : CompoundResponse → outcome Error (list byte * list WireDirEntry * bool)) (what : string)
    (max_entries : Z) (attr_request : Bitmap) (l : Z * list byte * list DirEntry)
    : M World Error (Z * list byte * list DirEntry + list DirEntry) :=
  let '(cookie, cookieverf, entries) := l in
  dir_size ← field Client.dir_size;
  operations ← lift (operations (readdir_operation cookie cookieverf dir_size attr_request));
  response ← compound operations;
  '(next_cookieverf, batch, eof) ← lift (results response);
  next ← lift (next_dir_cursor next_cookieverf batch eof cookie);
  if saturating_add usize_max (zlen entries) (zlen batch) >? max_entries
  then throw (Protocol [PLit what; PLit " exceeded configured limit of "; PNum max_entries;
                        PLit " entries"]) else
  batch ← lift (DirEntry.from_wire_all batch);
  let entries := entries ++ batch in
  match next with
  | Some next => continue_ (DirPageCursor.cookie next, DirPageCursor.cookieverf next, entries)
  | None => break_ entries
  end.

(** Every turn but the last adds an entry. *)
Definition listing (request : M World Error Bitmap)
    (operations : Operation → outcome Error (list Operation))
    (results : CompoundResponse → outcome Error (list byte * list WireDirEntry * bool)) (what : string)
    (max_entries : Z) : M World Error (list DirEntry) :=
  attr_request ← request;
  loop (Z.to_pos (max_entries + 2)) (listing_step operations results what max_entries attr_request)
    (0, replicate 8 x00, []).
(** The listing at most [max_entries] long, or shorter if the client's limit is. *)
Definition listing_limited (listing : Z → M World Error (list DirEntry)) (max_entries : Z)
    : M World Error (list DirEntry) :=
  lift (validate_max_dir_entries max_entries) ;;
  max_dir_entries ← field Client.max_dir_entries;
  listing (Z.min max_entries max_dir_entries).

Definition read_dir_with_limit (path : str) (max_entries : Z) : M World Error (list DirEntry) :=
  listing (supported_attr_request path FATTR4_BASIC_ATTRS) (λ readdir, path_ops path [readdir])
    response_readdir "NFSv4 READDIR" max_entries.
Definition read_dir (path : str) : M World Error (list DirEntry) :=
  max_dir_entries ← field Client.max_dir_entries;
  read_dir_with_limit path max_dir_entries.
Definition read_dir_limited (path : str) (max_entries : Z) : M World Error (list DirEntry) :=
  listing_limited (read_dir_with_limit path) max_entries.

(** [Ok(false)] for the statuses of something that is no directory. *)
Definition probe_directory (path : str) : M World Error bool :=
  dir_size ← field Client.dir_size;
  operations ← lift (path_ops path
    [Operation.ReadDir 0 (replicate 8 x00) 1 (Z.max 1 (Z.min dir_size 1024)) Bitmap.empty]);
  result ← attempt (compound operations);
  match result with
  | inl response => _ ← lift (response_readdir response); mret true
  | inr (NfsV4 _ (Status.NotDir | Status.BadType | Status.WrongType)) => mret false
  | inr err => throw err
  end.

Definition ensure_directory_type (path : str) (file_type : option FileType) : M World Error unit :=
  is_directory ← match file_type with
                 | Some FileType.Directory => mret true
                 | Some _ => mret false
                 | None => probe_directory path
                 end;
  if (is_directory : bool) then mret tt
  else throw (Protocol [PDebug path; PLit " exists but is not a directory"]).

Definition path_is_directory (path : str) (file_type : option FileType) : M World Error bool :=
  match file_type with
  | Some FileType.Directory => mret true
  | Some _ => mret false
  | None =>
      attrs ← metadata path;
      match BasicAttributes.file_type attrs with
      | Some FileType.Directory => mret true
      | Some _ => mret false
      | None => probe_directory path
      end
  end.

Fixpoint create_components (mode : Z) (current : str) (components : list str) : M World Error unit :=
  match components with
  | [] => mret tt
  | component :: rest =>
      let current := V4Extract.join_path current component in
      attrs ← attempt (metadata current);
      (match attrs with
       | inl attrs => ensure_directory_type current (BasicAttributes.file_type attrs)
       | inr (NfsV4 _ Status.NoEnt) =>
           made ← attempt (mkdir current mode);
           match made with
           | inl _ => mret tt
           | inr (NfsV4 _ Status.Exist) =>
               attrs ← metadata current;
               ensure_directory_type current (BasicAttributes.file_type attrs)
           | inr err => throw err
           end
       | inr err => throw err
       end) ;;
      create_components mode current rest
  end.
Definition create_dir_all (path : str) (mode : Z) : M World Error unit :=
  components ← lift (path_components path);
  create_components mode [slash] components.

(** The children of [path], pushed in reverse; the top of the stack is its head. *)
Definition push_children (path : str) (entries : list DirEntry) (stack : list RemoveTask)
    : list RemoveTask :=
  fold_left (λ stack entry,
    if bool_decide (DirEntry.name entry = [dot]) || bool_decide (DirEntry.name entry = [dot; dot])
    then stack
    else Visit (V4Extract.join_path path (DirEntry.name entry))
           (BasicAttributes.file_type (DirEntry.attributes entry)) :: stack)
    (rev entries) stack.

Definition remove_all_step (stack : list RemoveTask) : M World Error (list RemoveTask + unit) :=
  match stack with
  | [] => break_ tt
  | Visit path file_type :: stack =>
      is_directory ← path_is_directory path file_type;
      if (is_directory : bool) then
        entries ← read_dir path;
        continue_ (push_children path entries (RemoveDir path :: stack))
      else
        remove path ;;
        continue_ stack
  | RemoveDir path :: stack =>
      rmdir path ;;
      continue_ stack
  end.

(** [fuel] bounds the number of tasks: how many there are is up to the server. *)
Definition remove_all (fuel : positive) (path : str) : M World Error unit :=
  components ← lift (path_components path);
  if is_empty components then throw (InvalidPath path) else
  attrs ← metadata path;
  loop fuel remove_all_step [Visit path (BasicAttributes.file_type attrs)].
Definition remove_all_if_exists (fuel : positive) (path : str) : M World Error bool :=
  if_exists (remove_all fuel path).

End files.
End TokioFiles.
