(* ===== verification/TokioV4Named.v ===== *)
(** * Named attributes of the asynchronous NFSv4 client (src/src/v4/tokio.rs)

    The operations of [Client] on the named attributes of a file, translated
    from src/src/v4/tokio.rs over [TokioV4Files]. *)

From Stdlib Require Import Strings.String Strings.Byte.
From S2P Require Import Prelude Text Xdr Status Errors Rpc V3Client V3Blocking V4Attr V4Ops V4Results.
From S2P Require Import V4Client V4Extract V4Session V4Files V4Named TokioV4 TokioV4Files.
Import StateId (StateId).
Import Bitmap (Bitmap).
Import Fattr (Fattr).
Import BasicAttributes (BasicAttributes).
Import SetAttrs (SetAttrs).
Import NfsTime (NfsTime).
Import OpenHow (OpenHow).
Import Operation (Operation).
Import CompoundResponse (CompoundResponse).
Import DirPageCursor (DirPageCursor).
Import DirEntry (DirEntry).
Import DirPage (DirPage).

Import TokioV4.Session.

#[local] Open Scope Z_scope.

Module TokioNamed.
Import V4Named.Named (naming, reading).

Section named.
Context {W R : Type} `{!Nfs4Rpc W R, !Nfs4Net W R}.
#[local] Abbreviation World := (V4Session.World W R).

(** ** The directory of attributes *)

Definition named_attr_supported_attr_request (path : str) (attrs : list Z) : M World Error Bitmap :=
  supported_attrs ← lift (Bitmap.from_known_attrs [FATTR4_SUPPORTED_ATTRS]);
  operations ← lift (path_ops path [Operation.OpenAttr false; Operation.GetAttr supported_attrs]);
  response ← compound operations;
  values ← lift (response_getattr response);
  supported ← lift (parse_supported_attrs values);
  lift (Bitmap.from_supported_attrs supported attrs).

Definition read_named_attr_page_limited (path : str) (cursor : option DirPageCursor) (max_entries : Z)
    : M World Error DirPage :=
  TokioFiles.listing_page (named_attr_supported_attr_request path FATTR4_BASIC_ATTRS)
    (λ readdir, path_ops path [Operation.OpenAttr false; readdir]) response_openattr_readdir cursor max_entries.
Definition read_named_attr_page (path : str) (cursor : option DirPageCursor) : M World Error DirPage :=
  max_dir_entries ← field Client.max_dir_entries;
  read_named_attr_page_limited path cursor max_dir_entries.

Definition read_named_attrs_with_limit (path : str) (max_entries : Z) : M World Error (list DirEntry) :=
  TokioFiles.listing (named_attr_supported_attr_request path FATTR4_BASIC_ATTRS)
    (λ readdir, path_ops path [Operation.OpenAttr false; readdir]) response_openattr_readdir
    "NFSv4 OPENATTR READDIR" max_entries.
Definition read_named_attrs (path : str) : M World Error (list DirEntry) :=
  max_dir_entries ← field Client.max_dir_entries;
  read_named_attrs_with_limit path max_dir_entries.
Definition read_named_attrs_limited (path : str) (max_entries : Z) : M World Error (list DirEntry) :=
  TokioFiles.listing_limited (read_named_attrs_with_limit path) max_entries.

Definition rename_named_attr (path from_name to_name : str) : M World Error unit :=
  lift (validate_named_attr_name from_name) ;;
  lift (validate_named_attr_name to_name) ;;
  operations ← lift (path_ops path
    [Operation.OpenAttr false; Operation.SaveFh; Operation.Rename from_name to_name]);
  response ← compound operations;
  TokioFiles.ensure_status response "RENAME".
Definition rename_named_attr_if_exists (path from_name to_name : str) : M World Error bool :=
  TokioFiles.if_exists (rename_named_attr path from_name to_name).
Definition remove_named_attr (path name : str) : M World Error unit :=
  lift (validate_named_attr_name name) ;;
  operations ← lift (path_ops path [Operation.OpenAttr false; Operation.Remove name]);
  response ← compound operations;
  TokioFiles.ensure_status response "REMOVE".
Definition remove_named_attr_if_exists (path name : str) : M World Error bool :=
  TokioFiles.if_exists (remove_named_attr path name).

(** ** Attributes of an attribute *)

Definition named_attr_supported_attrs (path name : str) : M World Error Bitmap :=
  attrs ← lift (Bitmap.from_known_attrs [FATTR4_SUPPORTED_ATTRS]);
  operations ← lift (named_attr_ops path name [Operation.GetAttr attrs]);
  response ← compound operations;
  attrs ← lift (response_getattr response);
  lift (parse_supported_attrs attrs).
Definition named_attr_getattr_values (path name : str) (attr_request : Bitmap) : M World Error Fattr :=
  lift (validate_named_attr_name name) ;;
  if Bitmap.is_empty attr_request then mret (empty_attrs attr_request) else
  operations ← lift (named_attr_ops path name [Operation.GetAttr attr_request]);
  response ← compound operations;
  lift (response_getattr response).
Definition named_attr_supported_attr_values (path name : str) (attrs : list Z) : M World Error Fattr :=
  supported ← named_attr_supported_attrs path name;
  attrs ← lift (Bitmap.from_supported_attrs supported attrs);
  named_attr_getattr_values path name attrs.
Definition named_attr_metadata (path name : str) : M World Error BasicAttributes :=
  attrs ← named_attr_supported_attr_values path name FATTR4_BASIC_ATTRS;
  lift (parse_basic attrs).
Definition named_attr_exists (path name : str) : M World Error bool :=
  TokioFiles.if_exists (named_attr_metadata path name ;; mret tt).

(** ** Opening *)

Definition close_named_attr_state_by_path (path name : str) (stateid : StateId) : M World Error unit :=
  prefix ← lift (path_ops path [Operation.OpenAttr false; Operation.Lookup name]);
  TokioFiles.close_with_current_filehandle prefix stateid.

Definition cleanup_named_attr_open_response (path name : str) (response : CompoundResponse) (error : Error)
    : M World Error Error :=
  TokioFiles.cleanup_open_response (close_named_attr_state_by_path path name)
    (λ error close_result, mret (open_cleanup_error error close_result)) response error.

Definition open_named_attr (path name : str) (share_access : Z) (openhow : OpenHow) (create_dir : bool)
    : M World Error OpenedFile :=
  lift (validate_named_attr_name name) ;;
  owner ← field Client.open_owner;
  loop retry_fuel
    (TokioFiles.opening_step
       (λ seqid client_id, path_ops path
          [Operation.OpenAttr create_dir;
           TokioFiles.open_operation seqid share_access client_id owner openhow name; Operation.GetFh])
       (close_named_attr_state_by_path path name)
       (λ error close_result, mret (open_cleanup_error error close_result)))
    (0, false).

(** ** Contents *)

Definition read_named_attr (path name : str) : M World Error (list byte) :=
  opened ← open_named_attr path name OPEN4_SHARE_ACCESS_READ OpenHow.NoCreate false;
  TokioFiles.finish_opened (TokioFiles.close opened) (TokioFiles.read_opened_to_end opened).
Definition read_named_attr_range (path name : str) (offset count : Z) : M World Error (list byte) :=
  opened ← open_named_attr path name OPEN4_SHARE_ACCESS_READ OpenHow.NoCreate false;
  TokioFiles.finish_opened (TokioFiles.close opened) (TokioFiles.read_opened_range_vec opened offset count).
Definition read_named_attr_at (path name : str) (offset count : Z) : M World Error (list byte) :=
  opened ← open_named_attr path name OPEN4_SHARE_ACCESS_READ OpenHow.NoCreate false;
  TokioFiles.finish_opened (TokioFiles.close opened) (TokioFiles.read_opened_range opened offset count).
Definition read_named_attr_exact_at (path name : str) (offset count : Z) : M World Error (list byte) :=
  data ← read_named_attr_at path name offset count;
  if zlen data =? count then mret data
  else throw (Protocol [PLit "NFSv4 named attribute READ returned "; PNum (zlen data);
                        PLit " bytes before EOF; expected "; PNum count]).

Section writer.
Context {Wr : Type} `{!Writer Wr}.
Definition read_named_attr_to_writer (path name : str) : M (World * Wr) Error Z :=
  opened ← on_fst (open_named_attr path name OPEN4_SHARE_ACCESS_READ OpenHow.NoCreate false);
  TokioFiles.finish_opened (on_fst (TokioFiles.close opened)) (TokioFiles.read_opened_to_writer opened).
Definition read_named_attr_range_to_writer (path name : str) (offset count : Z) : M (World * Wr) Error Z :=
  opened ← on_fst (open_named_attr path name OPEN4_SHARE_ACCESS_READ OpenHow.NoCreate false);
  TokioFiles.finish_opened (on_fst (TokioFiles.close opened)) (TokioFiles.read_opened_range_to_writer opened offset count).
End writer.

Definition write_named_attr_with_mode (path name : str) (data : list byte) (mode : Z) : M World Error unit :=
  openhow ← TokioFiles.unchecked mode;
  opened ← open_named_attr path name OPEN4_SHARE_ACCESS_BOTH openhow true;
  TokioFiles.finish_opened (TokioFiles.close opened)
    (TokioFiles.set_opened_size opened 0 ;; TokioFiles.write_opened_at opened 0 data).
Definition write_named_attr (path name : str) (data : list byte) : M World Error unit :=
  write_named_attr_with_mode path name data mode_0644.
Definition write_named_attr_at (path name : str) (offset : Z) (data : list byte) : M World Error unit :=
  opened ← open_named_attr path name OPEN4_SHARE_ACCESS_WRITE OpenHow.NoCreate false;
  TokioFiles.finish_opened (TokioFiles.close opened) (TokioFiles.write_opened_at opened offset data).

(** [self.named_attr_metadata(path, name)?.size.ok_or_else(..)?]. *)
Definition append_named_attr_offset (path name : str) : M World Error Z :=
  attrs ← named_attr_metadata path name;
  lift (ok_or (Protocol [PLit "NFSv4 named attribute size attribute is required for append"])
          (BasicAttributes.size attrs)).
Definition append_named_attr (path name : str) (data : list byte) : M World Error Z :=
  offset ← append_named_attr_offset path name;
  opened ← open_named_attr path name OPEN4_SHARE_ACCESS_WRITE OpenHow.NoCreate false;
  TokioFiles.finish_opened (TokioFiles.close opened)
    (TokioFiles.write_opened_at opened offset data ;;
     lift (advance_offset 0 (zlen data) "NFSv4 named attribute APPEND")).

Section reader.
Context {Rd : Type} `{!Reader Rd}.
Definition write_named_attr_from_reader_with_mode (path name : str) (mode : Z) : M (World * Rd) Error Z :=
  openhow ← on_fst (TokioFiles.unchecked mode);
  opened ← on_fst (open_named_attr path name OPEN4_SHARE_ACCESS_BOTH openhow true);
  TokioFiles.finish_opened (on_fst (TokioFiles.close opened))
    (on_fst (TokioFiles.set_opened_size opened 0) ;; TokioFiles.write_opened_from_reader opened).
Definition write_named_attr_from_reader (path name : str) : M (World * Rd) Error Z :=
  write_named_attr_from_reader_with_mode path name mode_0644.
Definition append_named_attr_from_reader (path name : str) : M (World * Rd) Error Z :=
  offset ← on_fst (append_named_attr_offset path name);
  opened ← on_fst (open_named_attr path name OPEN4_SHARE_ACCESS_WRITE OpenHow.NoCreate false);
  TokioFiles.finish_opened (on_fst (TokioFiles.close opened)) (TokioFiles.write_opened_from_reader_at opened offset).
End reader.

Definition set_named_attr_attrs (path name : str) (attrs : SetAttrs) : M World Error unit :=
  attrs ← lift (Fattr.from_set_attrs attrs);
  if Bitmap.is_empty (Fattr.attrmask attrs) then mret tt else
  opened ← open_named_attr path name OPEN4_SHARE_ACCESS_WRITE OpenHow.NoCreate false;
  TokioFiles.finish_opened (TokioFiles.close opened) (TokioFiles.set_opened_attrs opened attrs).
Definition set_named_attr_mode (path name : str) (mode : Z) : M World Error unit :=
  set_named_attr_attrs path name (SetAttrs.of_mode mode).
Definition set_named_attr_ownership (path name owner owner_group : str) : M World Error unit :=
  set_named_attr_attrs path name (SetAttrs.ownership owner owner_group).
Definition set_named_attr_times (path name : str) (access_time modify_time : option NfsTime)
    : M World Error unit :=
  set_named_attr_attrs path name (SetAttrs.times access_time modify_time).
Definition truncate_named_attr (path name : str) (size : Z) : M World Error unit :=
  set_named_attr_attrs path name (SetAttrs.of_size size).

(** ** Copies and atomic replacement *)

(** [self.named_attr_metadata(path, name)?.mode.unwrap_or(0o644) & 0o7777]. *)
Definition copied_named_mode (path name : str) : M World Error Z :=
  attrs ← named_attr_metadata path name;
  mret (Z.land (match BasicAttributes.mode attrs with Some mode => mode | None => mode_0644 end) mode_bits).

Definition copy_named_attr (from_path from_name to_path to_name : str) : M World Error Z :=
  mode ← copied_named_mode from_path from_name;
  source ← open_named_attr from_path from_name OPEN4_SHARE_ACCESS_READ OpenHow.NoCreate false;
  openhow ← TokioFiles.unchecked mode;
  target ← TokioFiles.or_close source "cleanup CLOSE source after failed named attribute target OPEN"
             (open_named_attr to_path to_name OPEN4_SHARE_ACCESS_BOTH openhow true);
  match ensure_distinct_copy_handles (handle source) (handle target) with
  | Err error =>
      closed ← TokioFiles.close_both target source;
      throw (cleanup_error error "cleanup CLOSE after rejected same named attribute copy" closed)
  | Fault f => lift (Fault f)
  | Ok _ =>
      result ← attempt (TokioFiles.set_opened_size target 0 ;; TokioFiles.copy_opened source target);
      close_result ← TokioFiles.close_both target source;
      match result, close_result with
      | inl copied, inl _ => mret copied
      | inl _, inr err => throw err
      | inr err, _ => throw (cleanup_error err "cleanup CLOSE after failed named attribute COPY" close_result)
      end
  end.

Definition finish_with_named_attr_cleanup {A} (result : A + Error) (created : bool) (path temp_name : str)
    (cleanup_context : string) : M World Error A :=
  match result with
  | inl value => mret value
  | inr err =>
      if created then
        removed ← attempt (remove_named_attr path temp_name);
        throw (cleanup_error err cleanup_context removed)
      else throw err
  end.

Definition write_named_attr_atomic_with_mode (path name : str) (data : list byte) (mode : Z)
    : M (World * TempEnv) Error unit :=
  lift (validate_named_attr_name name) ;;
  temp_name ← Files.on_temp temporary_named_attr_name;
  openhow ← on_fst (TokioFiles.guarded mode);
  opened ← on_fst (attempt (open_named_attr path temp_name OPEN4_SHARE_ACCESS_BOTH openhow true));
  let context := "cleanup REMOVE named attribute after failed atomic write"%string in
  match opened with
  | inl opened =>
      result ← on_fst (attempt
        (TokioFiles.finish_opened (TokioFiles.close opened) (TokioFiles.write_opened_at opened 0 data) ;;
         rename_named_attr path temp_name name));
      on_fst (finish_with_named_attr_cleanup result true path temp_name context)
  | inr err => on_fst (finish_with_named_attr_cleanup (inr err) false path temp_name context)
  end.
Definition write_named_attr_atomic (path name : str) (data : list byte) : M (World * TempEnv) Error unit :=
  write_named_attr_atomic_with_mode path name data mode_0644.

Definition copy_named_attr_atomic (from_path from_name to_path to_name : str)
    : M (World * TempEnv) Error Z :=
  lift (validate_named_attr_name to_name) ;;
  mode ← on_fst (copied_named_mode from_path from_name);
  temp_name ← Files.on_temp temporary_named_attr_name;
  source ← on_fst (open_named_attr from_path from_name OPEN4_SHARE_ACCESS_READ OpenHow.NoCreate false);
  openhow ← on_fst (TokioFiles.guarded mode);
  target ← on_fst
    (TokioFiles.or_close source "cleanup CLOSE source after failed atomic named attribute target OPEN"
       (open_named_attr to_path temp_name OPEN4_SHARE_ACCESS_BOTH openhow true));
  copy_result ← on_fst (attempt
    (lift (ensure_distinct_copy_handles (handle source) (handle target)) ;;
     TokioFiles.copy_opened source target));
  close_result ← on_fst (TokioFiles.close_both target source);
  let context := "cleanup REMOVE named attribute after failed atomic copy"%string in
  match copy_result, close_result with
  | inl copied, inr err => throw err
  | inl copied, inl _ =>
      result ← on_fst (attempt (rename_named_attr to_path temp_name to_name ;; mret copied));
      on_fst (finish_with_named_attr_cleanup result true to_path temp_name context)
  | inr err, _ =>
      on_fst (finish_with_named_attr_cleanup
        (inr (cleanup_error err "cleanup CLOSE after failed atomic named attribute COPY" close_result))
        true to_path temp_name context)
  end.

(** ** From a local reader

    The state is the client, the environment of temporary names and the reader. *)
Section atomic_reader.
Context {Rd : Type} `{!Reader Rd}.

Definition write_named_attr_atomic_from_reader_with_mode (path name : str) (mode : Z)
    : M (World * (TempEnv * Rd)) Error Z :=
  lift (validate_named_attr_name name) ;;
  temp_name ← naming temporary_named_attr_name;
  openhow ← on_fst (TokioFiles.guarded mode);
  opened ← on_fst (attempt (open_named_attr path temp_name OPEN4_SHARE_ACCESS_BOTH openhow true));
  let context := "cleanup REMOVE named attribute after failed atomic reader write"%string in
  match opened with
  | inl opened =>
      result ← attempt
        (written ← TokioFiles.finish_opened (on_fst (TokioFiles.close opened)) (reading (TokioFiles.write_opened_from_reader opened));
         on_fst (rename_named_attr path temp_name name) ;;
         mret written);
      on_fst (finish_with_named_attr_cleanup result true path temp_name context)
  | inr err => on_fst (finish_with_named_attr_cleanup (inr err) false path temp_name context)
  end.
Definition write_named_attr_atomic_from_reader (path name : str) : M (World * (TempEnv * Rd)) Error Z :=
  write_named_attr_atomic_from_reader_with_mode path name mode_0644.

(** The same for a file ([Client::write_atomic_from_reader]). *)
Definition write_atomic_from_reader_with_mode (path : str) (mode : Z) : M (World * (TempEnv * Rd)) Error Z :=
  temp ← naming (temporary_sibling_path path);
  openhow ← on_fst (TokioFiles.guarded mode);
  opened ← on_fst (attempt (TokioFiles.open_temp temp OPEN4_SHARE_ACCESS_BOTH openhow));
  let context := "cleanup REMOVE after failed atomic reader write"%string in
  match opened with
  | inl opened =>
      result ← attempt
        (written ← TokioFiles.finish_opened (on_fst (TokioFiles.close opened)) (reading (TokioFiles.write_opened_from_reader opened));
         on_fst (TokioFiles.rename temp path) ;;
         mret written);
      on_fst (TokioFiles.finish_with_temp_cleanup result true temp context)
  | inr err => on_fst (TokioFiles.finish_with_temp_cleanup (inr err) false temp context)
  end.
Definition write_atomic_from_reader (path : str) : M (World * (TempEnv * Rd)) Error Z :=
  write_atomic_from_reader_with_mode path mode_0644.
End atomic_reader.

End named.
End TokioNamed.
