(* ===== verification/TokioV4Spec.v ===== *)
(** * The asynchronous NFSv4 session follows the blocking one (laws of [TokioV4])

    [Nfs4Cut] is what the connections, timers and lease tasks of the
    asynchronous client promise: each does what the blocking one does or is
    dropped in between ([Cut]).  Sending a COMPOUND, recovering a session,
    connecting and shutting down inherit it.  Methods that return a client
    return the same client, around a connection in the same state ([carry]). *)

From Stdlib Require Import Strings.String Strings.Byte.
From stdpp Require Import list.
From S2P Require Import Prelude Text Xdr Status Errors Rpc V3Client V3Blocking V4Attr V4Ops V4Results.
From S2P Require Import V4Client V4Extract V4Session Cut TokioV4.
Import FsInfo (FsInfo).
Import LockState (LockState).
Import LockRegistry (LockRegistry).
Import Operation (Operation).
Import CompoundResponse (CompoundResponse).
Import V4Session.ClientBuilder (ClientBuilder).
Import V4Session.Client (Client).

#[local] Open Scope Z_scope.
#[local] Hint Constants Opaque : typeclass_instances.

(** ** Values that carry a connection *)

Section values.
Context {S S' H : Type} `{!Erasure S S', !History S' H}.

Lemma cutR_then {E A B B'} (U : B → B' → Prop) (m : M S E A) (b : M S' E A) (k : A → M S E B) k' :
  Cut m b → (∀ a, CutR U (k a) (k' a)) → CutR U (m ≫= k) (b ≫= k').
Proof.
  intros Hm%cut_rel Hk. eapply cutR_bind; [exact Hm|by intros a ? <-|intros a'; apply (Hk a')].
Qed.

(** Every value of the blocking method comes from one of the asynchronous one. *)
Lemma cutR_bind_onto {E A A' B B'} (f : A → A') (U : B → B' → Prop) (m : M S E A) (b : M S' E A')
    (k : A → M S E B) k' :
  Surj (=) f → CutR (λ a a', a' = f a) m b → (∀ a, CutR U (k a) (k' (f a))) → CutR U (m ≫= k) (b ≫= k').
Proof.
  intros Hf Hm Hk. eapply cutR_bind; [exact Hm|by intros a ? ->|]. intros a'. destruct (surj f a') as [a <-].
  apply (Hk a).
Qed.

(** The same for a caught error. *)
Lemma cutR_bind_attempt {E F A A' B B'} (f : A → A') (U : B → B' → Prop) (m : M S E A) (b : M S' E A')
    (k : A + E → M S F B) k' :
  Surj (=) f → CutR (λ a a', a' = f a) m b → (∀ a, CutR U (k (inl a)) (k' (inl (f a)))) →
  (∀ e, CutR U (k (inr e)) (k' (inr e))) → CutR U (attempt m ≫= k) (attempt b ≫= k').
Proof.
  intros Hf Hm Hok Herr. eapply cutR_bind; [by apply cutR_attempt| |].
  - intros [a|e] [a'|e'] HV; simpl in HV; try done; subst; [apply Hok|apply Herr].
  - intros [a'|e']; [|apply (Herr e')]. destruct (surj f a') as [a <-]. apply (Hok a).
Qed.

End values.

#[export] Instance pair_surj {A B C} (f : A → B) : Surj (=) f → Surj (=) (λ x : A * C, (f x.1, x.2)).
Proof. intros Hf [b c]. destruct (Hf b) as [a <-]. by exists (a, c). Qed.

(** ** The interface *)

(** The same client around the connection of the blocking side. *)
#[export] Instance client_carried {R R'} `{!Carried R R'} : Carried (Client R) (Client R') := λ c,
  Client.mkClient (carry (Client.rpc c)) (Client.locks c) (Client.recovery_pending c) (Client.lease_renewal c)
    (Client.builder c) (Client.client_id c) (Client.session_id c) (Client.sequence_id c) (Client.open_seqid c)
    (Client.open_owner c) (Client.minor_version c) (Client.max_operations c) (Client.max_request_size c)
    (Client.max_response_size c) (Client.root_fsinfo c) (Client.read_size c) (Client.write_size c)
    (Client.dir_size c) (Client.max_dir_entries c) (Client.retry_policy c).
#[export] Instance client_surj {R R'} `{!Carried R R', !Surj (=) (carry : R → R')} : Surj (=) (carry : Client R → Client R').
Proof.
  intros [r' ? ? ? ? ? ? ? ? ? ? ? ? ? ? ? ? ? ? ?]. destruct (surj carry r') as [r <-].
  by eexists (Client.mkClient r _ _ _ _ _ _ _ _ _ _ _ _ _ _ _ _ _ _ _).
Qed.

#[export] Instance env_erasure {W W'} `{!Erasure W W'} : Erasure (Env W) (Env W') := λ e,
  mkEnv (erase (env_net e)) (env_locks e) (env_slept e).
#[export] Instance env_history {W H} `{!History W H} : History (Env W) H := λ e, hist (env_net e).
#[export] Instance world4_erasure {W W' R R'} `{!Erasure W W', !Carried R R'}
    : Erasure (World W R) (World W' R') := λ w, mkWorld (erase (env w)) (carry (client w)).
#[export] Instance world4_history {W R H} `{!History W H} : History (World W R) H := λ w, hist (env w).

(** A connection that is not part of a client yet. *)
#[export] Instance conn_erasure {W W' R R'} `{!Erasure W W', !Carried R R'}
    : Erasure (R * Env W) (R' * Env W') | 0 := λ s, (carry s.1, erase s.2).
#[export] Instance conn_history {W R H} `{!History W H} : History (R * Env W) H | 0 := λ s, hist s.2.

Class Nfs4Cut (W R W' R' H : Type) `{!Nfs4Rpc W R, !Nfs4Net W R, !Nfs4Rpc W' R', !Nfs4Net W' R',
    !Erasure W W', !History W' H, !Carried R R'} := {
  cut_conn_surj : Surj (=) (carry : R → R');
  cut_rpc_compound tag minor_version operations ::
    Cut (S := W * R) (S' := W' * R') (rpc_compound tag minor_version operations) (rpc_compound tag minor_version operations);
  cut_rpc_set_max size (r : R) (q := rpc_set_max_record_size (W := W) size r) :
    rpc_set_max_record_size (W := W') size (carry r : R') = (carry q.1, q.2);
  cut_net_connect builder :
    CutR (λ r r', r' = carry r) (net_rpc_connect (R := R) builder) (net_rpc_connect (R := R') builder);
  cut_lease_start interval c ::
    Cut (lease_start (R := R) interval c) (lease_start (R := R') interval (carry c));
  cut_lease_failed thread :: Cut (lease_failed (R := R) thread) (lease_failed (R := R') thread);
  cut_lease_stop thread :: Cut (lease_stop (R := R) thread) (lease_stop (R := R') thread);
  cut_net_sleep delay :: Cut (net_sleep (R := R) delay) (net_sleep (R := R') delay);
}.

#[local] Hint Extern 4 (Cut (match ?x with _ => _ end) _) => destruct x : typeclass_instances.
#[local] Hint Extern 3 (Cut (let _ := _ in _) _) => cbv zeta : typeclass_instances.

(** The pure helpers of the two clients. *)
Ltac same_helpers :=
  try change (@TokioV4.Session.sequence_args) with (@V4Session.sequence_args);
  try change (@TokioV4.Session.is_minor_version_mismatch) with (@V4Session.is_minor_version_mismatch);
  try change (@TokioV4.Session.validate_builder) with (@V4Session.validate_builder);
  try change (@TokioV4.Session.empty_attrs) with (@V4Session.empty_attrs);
  try change (@TokioV4.Session.all_statuses_ok) with (@V4Session.all_statuses_ok);
  try change (@TokioV4.Session.reclaim_open_args) with (@V4Session.reclaim_open_args);
  try change (@TokioV4.Session.reclaim_lock_args) with (@V4Session.reclaim_lock_args);
  try change (@TokioV4.Session.reclaimed) with (@V4Session.reclaimed);
  try change (@TokioV4.Session.lock_is_lost) with (@V4Session.lock_is_lost).

Section session.
Context {W R W' R' H : Type} `{Nfs4Cut W R W' R' H}.
#[local] Abbreviation cut m b := (Cut (S := World W R) (S' := World W' R') m b).
#[local] Abbreviation cutE m b := (Cut (S := Env W) (S' := Env W') m b).
#[local] Abbreviation cutC m b := (Cut (S := R * Env W) (S' := R' * Env W') m b).
#[local] Abbreviation same_client := (λ c c', c' = carry (R := Client R) (R' := Client R') c).

#[local] Instance conn_surj : Surj (=) (carry : R → R') := cut_conn_surj.

(** ** Parts of the state *)

#[export] Instance cut_on_net {A} (m : M W Error A) (b : M W' Error A) : Cut m b → cutE (on_net m) (on_net b).
Proof. by apply cut_zoom. Qed.
#[export] Instance cut_on_store {A} (m : M LockStore Error A) : cutE (on_store m) (on_store m).
Proof.
  split; [intros t; unfold on_store, zoom; by destruct (m (env_locks t))|]. intros s.
  unfold dropped_within, on_store, zoom. simpl. by destruct (m (env_locks s)) as [l [a|e|[]]].
Qed.
#[export] Instance cut_thread_sleep {E} delay :
  cutE (thread_sleep (R := R) (E := E) delay) (thread_sleep (R := R') delay).
Proof.
  unfold thread_sleep. apply cut_bind; [|intros _; by apply cut_modify].
  apply cut_map_err. apply cut_zoom; [done..|apply _].
Qed.
#[export] Instance cut_on_env {A} (m : M (Env W) Error A) (b : M (Env W') Error A) : Cut m b → cut (on_env m) (on_env b).
Proof. by apply cut_zoom. Qed.
Lemma cutR_on_env {A A'} (V : A → A' → Prop) (m : M (Env W) Error A) (b : M (Env W') Error A') :
  CutR V m b → CutR (S := World W R) (S' := World W' R') V (on_env m) (on_env b).
Proof. by apply cutR_zoom. Qed.
#[export] Instance cut_on_rpc {A} (m : M (W * R) Error A) (b : M (W' * R') Error A) : Cut m b → cut (on_rpc m) (on_rpc b).
Proof. by apply cut_zoom. Qed.
#[export] Instance cut_on_conn {A} (m : M (W * R) Error A) (b : M (W' * R') Error A) : Cut m b → cutC (on_conn m) (on_conn b).
Proof. by apply cut_zoom. Qed.
#[export] Instance cut_conn_env {A} (m : M (Env W) Error A) (b : M (Env W') Error A) : Cut m b → cutC (on_snd m) (on_snd b).
Proof. by apply cut_zoom. Qed.
#[export] Instance cut_set_max_record_size size :
  Cut (S := W * R) (S' := W' * R') (on_snd (rpc_set_max_record_size (W := W) size))
    (on_snd (rpc_set_max_record_size (W := W') size)).
Proof.
  unfold on_snd. apply cut_snd. intros r. pose proof (cut_rpc_set_max size r) as Hr. simpl in Hr.
  by destruct (rpc_set_max_record_size size r) as [r1 [a|e|[]]].
Qed.
Lemma cut_field {A} (f : Client R → A) f' : (∀ c, f c = f' (carry c)) → cut (field f) (field f').
Proof. intros Hf. apply cut_gets. intros w. apply Hf. Qed.
Lemma cutR_self : CutR (S := World W R) (S' := World W' R') same_client (field id) (field id).
Proof. by apply cutR_gets. Qed.
Lemma cut_update f f' : (∀ c, carry (f c) = f' (carry c)) → cut (update f) (update f').
Proof. intros Hf. apply cut_modify; [|done]. intros w. unfold erase, world4_erasure. simpl. by rewrite Hf. Qed.

#[local] Hint Extern 1 (Cut (field _) (field _)) => by apply cut_field : typeclass_instances.
#[local] Hint Extern 1 (Cut (update _) (update _)) => by apply cut_update : typeclass_instances.

(** ** Without a session *)

#[export] Instance cut_raw_compound_with_delayed_retry_step tag minor_version operations policy retry :
  cutC (TokioV4.Session.raw_compound_with_delayed_retry_step tag minor_version operations policy retry)
    (raw_compound_with_delayed_retry_step tag minor_version operations policy retry).
Proof. unfold TokioV4.Session.raw_compound_with_delayed_retry_step, raw_compound_with_delayed_retry_step. apply _. Qed.
#[export] Instance cut_raw_compound_with_delayed_retry tag minor_version operations policy :
  cutC (TokioV4.Session.raw_compound_with_delayed_retry tag minor_version operations policy)
    (raw_compound_with_delayed_retry tag minor_version operations policy).
Proof. unfold TokioV4.Session.raw_compound_with_delayed_retry, raw_compound_with_delayed_retry. apply _. Qed.
#[export] Instance cut_reclaim_complete_step minor_version session_id policy l :
  cutC (TokioV4.Session.reclaim_complete_step minor_version session_id policy l) (reclaim_complete_step minor_version session_id policy l).
Proof. unfold TokioV4.Session.reclaim_complete_step, reclaim_complete_step; same_helpers. apply _. Qed.
#[export] Instance cut_reclaim_complete minor_version session_id sequence_id max_operations policy :
  cutC (TokioV4.Session.reclaim_complete_with_delayed_retry minor_version session_id sequence_id max_operations policy)
    (reclaim_complete_with_delayed_retry minor_version session_id sequence_id max_operations policy).
Proof. unfold TokioV4.Session.reclaim_complete_with_delayed_retry, reclaim_complete_with_delayed_retry. apply _. Qed.
#[export] Instance cut_destroy_session_with_rpc minor_version session_id :
  Cut (S := W * R) (S' := W' * R') (TokioV4.Session.destroy_session_with_rpc minor_version session_id)
    (destroy_session_with_rpc minor_version session_id).
Proof. unfold TokioV4.Session.destroy_session_with_rpc, destroy_session_with_rpc. apply _. Qed.
#[export] Instance cut_cleanup_session_setup_error {A} minor_version session_id error :
  cutC (TokioV4.Session.cleanup_session_setup_error (A := A) minor_version session_id error)
    (cleanup_session_setup_error minor_version session_id error).
Proof. unfold TokioV4.Session.cleanup_session_setup_error, cleanup_session_setup_error. apply _. Qed.
#[export] Instance cut_or_destroy_session {A} minor_version session_id (m : M (R * Env W) Error A) (b : M (R' * Env W') Error A) :
  Cut m b → cutC (TokioV4.Session.or_destroy_session minor_version session_id m) (or_destroy_session minor_version session_id b).
Proof. intros. unfold TokioV4.Session.or_destroy_session, or_destroy_session. apply _. Qed.

(** ** Connecting *)

Lemma cutR_setup_session builder minor_version complete :
  CutR (S := R * Env W) (S' := R' * Env W') (λ make make', ∀ r, make' (carry r) = carry (make r))
    (TokioV4.Session.setup_session builder minor_version complete) (setup_session builder minor_version complete).
Proof.
  unfold TokioV4.Session.setup_session, setup_session. do 10 (apply cutR_then; [apply _|intros ?]; cbv zeta). by apply cutR_ret.
Qed.

Lemma cutR_own_connection (r : R) (setup : M (R * Env W) Error (R → Client R)) (setup' : M (R' * Env W') Error (R' → Client R')) :
  CutR (λ make make', ∀ r, make' (carry r) = carry (make r)) setup setup' →
  CutR same_client (own_connection r setup) (own_connection (carry r) setup').
Proof.
  intros [Hg Hr]. assert (∀ r' t, (own_connection r' setup' t).1 = (setup' (r', t)).1.2) as Heq.
  { intros r' t. unfold own_connection. by destruct (setup' (r', t)) as [[? ?] [?|?|?]]. }
  split; [intros t; rewrite Heq; apply (Hg (carry r, t))|]. intros s. specialize (Hr (r, s)).
  unfold dropped_within in *. rewrite Heq.
  change (erase (r, s)) with (carry r : R', erase s : Env W') in Hr.
  unfold own_connection. destruct (setup (r, s)) as [[r1 s1] [make|e|[]]]; [..|exact Hr];
    destruct Hr as [Hs Ho]; destruct (setup' (carry r, erase s)) as [[r2 t2] [make'|e'|f']]; try done;
    simpl in Hs, Ho; injection Hs as -> ->; split; try done; simpl; apply Ho.
Qed.

Lemma cutR_connect_session_minor builder minor_version complete :
  CutR (S := Env W) (S' := Env W') same_client (TokioV4.Session.connect_session_minor builder minor_version complete)
    (connect_session_minor builder minor_version complete).
Proof.
  unfold TokioV4.Session.connect_session_minor, connect_session_minor. apply (cutR_bind_onto (carry : R → R')); [apply _|..].
  - apply cutR_zoom; [done..|]. apply cut_net_connect.
  - intros r. apply cutR_own_connection, cutR_setup_session.
Qed.

Lemma cutR_connect_minor_versions builder complete last versions :
  CutR (S := Env W) (S' := Env W') same_client (TokioV4.Session.connect_minor_versions builder complete last versions)
    (connect_minor_versions builder complete last versions).
Proof.
  revert last. induction versions as [|v versions IH]; intros last; cbn [TokioV4.Session.connect_minor_versions connect_minor_versions]; same_helpers; [apply cutR_throw|].
  apply (cutR_bind_attempt (carry : Client R → Client R')); [apply _|apply cutR_connect_session_minor|intros c; by apply cutR_ret|].
  intros e. destruct (is_minor_version_mismatch e); [apply IH|apply cutR_throw].
Qed.

Lemma cutR_connect_session builder complete :
  CutR (S := Env W) (S' := Env W') same_client (TokioV4.Session.connect_session builder complete) (connect_session builder complete).
Proof. unfold TokioV4.Session.connect_session, connect_session; same_helpers. apply cutR_then; [apply _|intros _]. apply cutR_connect_minor_versions. Qed.

(** ** In the session *)

#[export] Instance cut_raw_compound tag operations : cut (TokioV4.Session.raw_compound tag operations) (raw_compound tag operations).
Proof. unfold TokioV4.Session.raw_compound, raw_compound. apply _. Qed.
#[export] Instance cut_with_sequence operations : cut (TokioV4.Session.with_sequence operations) (with_sequence operations).
Proof. unfold TokioV4.Session.with_sequence, with_sequence; same_helpers. apply _. Qed.
#[export] Instance cut_advance_sequence_id response : cut (TokioV4.Session.advance_sequence_id response) (advance_sequence_id response).
Proof. unfold TokioV4.Session.advance_sequence_id, advance_sequence_id. apply _. Qed.
#[export] Instance cut_current_open_seqid : cut TokioV4.Session.current_open_seqid current_open_seqid.
Proof. unfold TokioV4.Session.current_open_seqid, current_open_seqid. apply _. Qed.
#[export] Instance cut_advance_open_seqid : cut TokioV4.Session.advance_open_seqid advance_open_seqid.
Proof. unfold TokioV4.Session.advance_open_seqid, advance_open_seqid. apply _. Qed.
#[export] Instance cut_recovery_compound_step operations retry :
  cut (TokioV4.Session.recovery_compound_step operations retry) (recovery_compound_step operations retry).
Proof. unfold TokioV4.Session.recovery_compound_step, recovery_compound_step. apply _. Qed.
#[export] Instance cut_recovery_compound operations : cut (TokioV4.Session.recovery_compound operations) (recovery_compound operations).
Proof. unfold TokioV4.Session.recovery_compound, recovery_compound. apply _. Qed.

(** ** Lease renewal and shutdown *)

#[export] Instance cut_stop_lease_renewal : cut TokioV4.Session.stop_lease_renewal stop_lease_renewal.
Proof. unfold TokioV4.Session.stop_lease_renewal, stop_lease_renewal. apply _. Qed.
#[export] Instance cut_shutdown : cut TokioV4.Session.shutdown shutdown.
Proof. unfold TokioV4.Session.shutdown, shutdown. apply _. Qed.
#[export] Instance cut_destroy_client_id : cut TokioV4.Session.destroy_client_id destroy_client_id.
Proof. unfold TokioV4.Session.destroy_client_id, destroy_client_id. apply _. Qed.
#[export] Instance cut_heartbeat : cut TokioV4.Session.heartbeat heartbeat.
Proof. unfold TokioV4.Session.heartbeat, heartbeat. apply _. Qed.

(** A method of another client. *)
Lemma cutR_with_client {A} c (m : M (World W R) Error A) (b : M (World W' R') Error A) :
  Cut m b →
  CutR (S := Env W) (S' := Env W') (λ x y, y = (carry x.1, x.2)) (with_client c m) (with_client (carry c) b).
Proof.
  intros [Hg Hr]. assert (∀ t, (with_client (carry c) b t).1 = env (b (mkWorld t (carry c))).1) as Heq.
  { intros t. unfold with_client. by destruct (b (mkWorld t (carry c))) as [? [?|?|?]]. }
  split; [intros t; rewrite Heq; apply (Hg (mkWorld t (carry c)))|]. intros s. specialize (Hr (mkWorld s c)).
  unfold dropped_within in *. rewrite Heq. unfold with_client.
  change (erase (mkWorld s c)) with (mkWorld (erase s) (carry c) : World W' R') in Hr.
  destruct (m (mkWorld s c)) as [w [a|e|[]]]; try (by rewrite Hr); done.
Qed.
(** What happens to the other client. *)
Lemma cutR_bind_with_client {A B B'} (U : B → B' → Prop) c (m : M (World W R) Error A) (b : M (World W' R') Error A) k k' :
  Cut m b → (∀ c x, CutR U (k (c, x)) (k' (carry c, x))) →
  CutR (S := World W R) (S' := World W' R') U (on_env (with_client c m) ≫= k) (on_env (with_client (carry c) b) ≫= k').
Proof.
  intros Hm Hk. apply (cutR_bind_onto (λ x : Client R * (A + Error), (carry x.1 : Client R', x.2))); [apply _| |].
  - by apply cutR_on_env, cutR_with_client.
  - intros [c1 x]. apply Hk.
Qed.

#[export] Instance cut_start_lease_renewal : cut TokioV4.Session.start_lease_renewal start_lease_renewal.
Proof.
  unfold TokioV4.Session.start_lease_renewal, start_lease_renewal. apply cut_bind; [apply _|intros builder]. apply cut_if; [apply _|].
  apply cut_rel, (cutR_bind_onto (carry : Client R → Client R')); [apply _|apply cutR_self|intros c].
  change (lease_renewal_interval (carry c : Client R')) with (TokioV4.Session.lease_renewal_interval c).
  apply cutR_then; [apply _|intros interval]. cbv zeta.
  apply (cutR_bind_onto (carry : Client R → Client R')); [apply _|apply cutR_on_env, cutR_connect_session|intros keeper].
  change (Client.client_id (carry keeper : Client R')) with (Client.client_id keeper).
  change (Client.client_id (carry c : Client R')) with (Client.client_id c).
  change (Client.session_id (carry keeper : Client R')) with (Client.session_id keeper).
  destruct (negb _); [|apply cut_rel; apply _]. apply cutR_bind_with_client; [apply _|intros; apply cutR_throw].
Qed.

(** ** Limits *)

#[export] Instance cut_apply_fsinfo_limits fsinfo : cut (TokioV4.Session.apply_fsinfo_limits fsinfo) (apply_fsinfo_limits fsinfo).
Proof.
  unfold TokioV4.Session.apply_fsinfo_limits, apply_fsinfo_limits. apply cut_rel, (cutR_bind_onto (carry : Client R → Client R')); [apply _|apply cutR_self|].
  intros c. unfold carry, client_carried. cbn [Client.builder Client.max_response_size Client.max_request_size]. cbv zeta.
  apply cut_rel. apply _.
Qed.
#[export] Instance cut_refresh_recovered_fsinfo : cut TokioV4.Session.refresh_recovered_fsinfo refresh_recovered_fsinfo.
Proof. unfold TokioV4.Session.refresh_recovered_fsinfo, refresh_recovered_fsinfo; same_helpers. apply _. Qed.

(** ** Locks across recovery *)

#[export] Instance cut_check_recovered_lock lock : cut (TokioV4.Session.check_recovered_lock lock) (check_recovered_lock lock).
Proof. unfold TokioV4.Session.check_recovered_lock, check_recovered_lock; same_helpers. apply _. Qed.
#[export] Instance cut_revoke_stateids index lock ids : cut (TokioV4.Session.revoke_stateids index lock ids) (revoke_stateids index lock ids).
Proof. revert lock. induction ids as [|[id status] ids IH]; intros lock; cbn [TokioV4.Session.revoke_stateids revoke_stateids]; apply _. Qed.
#[export] Instance cut_check_revoked_loop index snapshot :
  cut (TokioV4.Session.check_revoked_loop index snapshot) (check_revoked_loop index snapshot).
Proof. revert index. induction snapshot as [|lock rest IH]; intros index; cbn [TokioV4.Session.check_revoked_loop check_revoked_loop]; apply _. Qed.
#[export] Instance cut_check_revoked_locks : cut TokioV4.Session.check_revoked_locks check_revoked_locks.
Proof. unfold TokioV4.Session.check_revoked_locks, check_revoked_locks. apply _. Qed.
#[export] Instance cut_advance_if_consumed response op : cut (TokioV4.Session.advance_if_consumed response op) (advance_if_consumed response op).
Proof. unfold TokioV4.Session.advance_if_consumed, advance_if_consumed. apply _. Qed.
#[export] Instance cut_reclaim_lock lock : cut (TokioV4.Session.reclaim_lock lock) (reclaim_lock lock).
Proof. unfold TokioV4.Session.reclaim_lock, reclaim_lock; same_helpers. apply _. Qed.
#[export] Instance cut_recover_locks index states : cut (TokioV4.Session.recover_locks index states) (recover_locks index states).
Proof. revert index. induction states as [|state rest IH]; intros index; cbn [TokioV4.Session.recover_locks recover_locks]; same_helpers; apply _. Qed.

(** ** Recovery *)

Lemma cut_recover_state old : cut (TokioV4.Session.recover_state old) (recover_state (carry old)).
Proof.
  unfold TokioV4.Session.recover_state, recover_state, carry, client_carried.
  cbn [Client.client_id Client.open_seqid Client.locks Client.root_fsinfo]. apply _.
Qed.
#[export] Instance cut_recover_rebuilt old : cut (TokioV4.Session.recover_rebuilt old) (recover_rebuilt (carry old)).
Proof. unfold TokioV4.Session.recover_rebuilt, recover_rebuilt. apply cut_bind; [apply _|intros _]. apply cut_recover_state. Qed.

Lemma cutR_reconnect_step builder policy retry :
  CutR (S := Env W) (S' := Env W') (sum_rel eq same_client) (TokioV4.Session.reconnect_step builder policy retry)
    (reconnect_step builder policy retry).
Proof.
  unfold TokioV4.Session.reconnect_step, reconnect_step. apply (cutR_bind_attempt (carry : Client R → Client R')); [apply _|apply cutR_connect_session| |].
  - intros c. by apply cutR_ret.
  - intros e. destruct (is_transport_failure e); [|apply cutR_throw].
    destruct (delay_for_retry policy retry); [|apply cutR_throw]. apply cutR_then; [apply _|intros _]. by apply cutR_ret.
Qed.

#[export] Instance cut_recover_session : cut TokioV4.Session.recover_session recover_session.
Proof.
  unfold TokioV4.Session.recover_session, recover_session. apply cut_bind; [apply _|intros _]. apply cut_bind; [apply _|intros _].
  apply cut_rel, (cutR_bind_onto (carry : Client R → Client R')); [apply _|apply cutR_self|intros old].
  apply (cutR_bind_onto (carry : Client R → Client R')); [apply _| |intros rebuilt].
  { apply cutR_on_env, cutR_loop, cutR_reconnect_step. }
  apply cutR_bind_with_client; [apply _|intros c [x|e]; [|apply cutR_throw]].
  apply cutR_then; [by apply cut_update|intros _].
  apply cutR_bind_with_client; [apply _|intros _ _]. apply cut_rel. apply _.
Qed.
#[export] Instance cut_reconnect : cut TokioV4.Session.reconnect reconnect.
Proof. unfold TokioV4.Session.reconnect, reconnect. apply _. Qed.

(** ** Sending a COMPOUND *)

#[export] Instance cut_ensure_locks_valid operations : cut (TokioV4.Session.ensure_locks_valid operations) (ensure_locks_valid operations).
Proof. unfold TokioV4.Session.ensure_locks_valid, ensure_locks_valid. apply _. Qed.
#[export] Instance cut_compound_status_step operations l :
  cut (TokioV4.Session.compound_status_step operations l) (compound_status_step operations l).
Proof. unfold TokioV4.Session.compound_status_step, compound_status_step. apply _. Qed.
#[export] Instance cut_check_lease : cut TokioV4.Session.check_lease check_lease.
Proof. unfold TokioV4.Session.check_lease, check_lease. apply _. Qed.
#[export] Instance cut_compound_status operations : cut (TokioV4.Session.compound_status operations) (compound_status operations).
Proof. unfold TokioV4.Session.compound_status, compound_status. apply _. Qed.
#[export] Instance cut_compound operations : cut (TokioV4.Session.compound operations) (compound operations).
Proof. unfold TokioV4.Session.compound, compound. apply _. Qed.
#[export] Instance cut_renew : cut TokioV4.Session.renew renew.
Proof. unfold TokioV4.Session.renew, renew. apply _. Qed.

(** ** Attributes, and the connected client *)

#[export] Instance cut_supported_attrs path : cut (TokioV4.Session.supported_attrs path) (supported_attrs path).
Proof. unfold TokioV4.Session.supported_attrs, supported_attrs. apply _. Qed.
#[export] Instance cut_supported_attr_request path attrs :
  cut (TokioV4.Session.supported_attr_request path attrs) (supported_attr_request path attrs).
Proof. unfold TokioV4.Session.supported_attr_request, supported_attr_request. apply _. Qed.
#[export] Instance cut_get_supported_attr_values path attrs :
  cut (TokioV4.Session.get_supported_attr_values path attrs) (get_supported_attr_values path attrs).
Proof. unfold TokioV4.Session.get_supported_attr_values, get_supported_attr_values; same_helpers. apply _. Qed.
#[export] Instance cut_fsinfo4 path : cut (TokioV4.Session.fsinfo path) (fsinfo path).
Proof. unfold TokioV4.Session.fsinfo, fsinfo. apply _. Qed.
#[export] Instance cut_refresh_root_fsinfo : cut TokioV4.Session.refresh_root_fsinfo refresh_root_fsinfo.
Proof. unfold TokioV4.Session.refresh_root_fsinfo, refresh_root_fsinfo. apply _. Qed.
#[export] Instance cut_or_shutdown context (m : M (World W R) Error unit) (b : M (World W' R') Error unit) :
  Cut m b → cut (TokioV4.Session.or_shutdown context m) (or_shutdown context b).
Proof. intros. unfold TokioV4.Session.or_shutdown, or_shutdown. apply _. Qed.
#[export] Instance cut_prepare : cut TokioV4.Session.prepare prepare.
Proof. unfold TokioV4.Session.prepare, prepare. apply _. Qed.
Lemma cutR_connect_with_builder builder :
  CutR (S := Env W) (S' := Env W') same_client (TokioV4.Session.connect_with_builder builder) (connect_with_builder builder).
Proof.
  unfold TokioV4.Session.connect_with_builder, connect_with_builder. apply (cutR_bind_onto (carry : Client R → Client R')); [apply _|apply cutR_connect_session|].
  intros c. apply (cutR_bind_onto (λ x : Client R * (unit + Error), (carry x.1 : Client R', x.2))); [apply _| |].
  - apply cutR_with_client. apply _.
  - intros [c1 [x|e]]; [by apply cutR_ret|apply cutR_throw].
Qed.

End session.
