(* ===== verification/TokioV4FilesSpec.v ===== *)
(** * The methods of the asynchronous NFSv4 client follow the blocking ones

    Over connections with [Nfs4Cut], and local readers and writers that may be
    dropped as well: every method of [TokioV4Files], [TokioV4Named] and
    [TokioV4Protocol] does what the blocking method of [V4Files], [V4Named] or
    [V4Protocol] does, or it is dropped and has sent a beginning of what the
    blocking one sends. *)

From Stdlib Require Import Strings.String Strings.Byte.
From stdpp Require Import list.
From S2P Require Import Prelude Text Xdr Status Errors Rpc V3Client V3Blocking V4Attr V4Ops V4Results.
From S2P Require Import V4Client V4Extract V4Session V4Files V4Named V4Protocol Cut TokioV3Spec.
From S2P Require Import TokioV4 TokioV4Spec TokioV4Files TokioV4Named TokioV4Protocol.
Import StateId (StateId).
Import Bitmap (Bitmap).
Import DirEntry (DirEntry).
Import V4Session.Client (Client).

#[local] Open Scope Z_scope.
#[local] Hint Constants Opaque : typeclass_instances.
#[local] Hint Extern 4 (Cut (match ?x with _ => _ end) _) => destruct x : typeclass_instances.
#[local] Hint Extern 3 (Cut (let _ := _ in _) _) => cbv zeta : typeclass_instances.
#[local] Hint Extern 1 (Cut (field _) (field _)) => by apply cut_field : typeclass_instances.
#[local] Hint Extern 1 (Cut (update _) (update _)) => by apply cut_update : typeclass_instances.

(** Temporary names, alone or next to a reader. *)
#[export] Instance temp_carried : Carried TempEnv TempEnv := id.
#[export] Instance pair_carried {A A' B B'} `{!Carried A A', !Carried B B'} : Carried (A * B) (A' * B') :=
  λ p, (carry p.1, carry p.2).

(** The pure helpers of the two clients. *)
Ltac same_helpers :=
  try change (@TokioFiles.walk_ops) with (@Files.walk_ops);
  try change (@TokioFiles.and_result) with (@Files.and_result);
  try change (@TokioFiles.open_operation) with (@Files.open_operation);
  try change (@TokioFiles.readdir_operation) with (@Files.readdir_operation);
  try change (@TokioFiles.push_children) with (@Files.push_children);
  try change (@TokioV4.Session.empty_attrs) with (@V4Session.empty_attrs);
  try change (@TokioV4.Session.sequence_args) with (@V4Session.sequence_args).

(** ** Files *)

Section files.
Context {W R W' R' H : Type} `{Nfs4Cut W R W' R' H}.
#[local] Abbreviation cut m b := (Cut (S := World W R) (S' := World W' R') m b).
#[local] Abbreviation cutT m b := (Cut (S := World W R * TempEnv) (S' := World W' R' * TempEnv) m b).

#[export] Instance cut4_on_fst {X X' A} `{!Carried X X'} (m : M (World W R) Error A) (b : M (World W' R') Error A) :
  Cut m b → Cut (on_fst (T := X) m) (on_fst (T := X') b).
Proof. intros. by apply cut_fst. Qed.
#[export] Instance cut4_ensure_status_for response operation :
  cut (TokioFiles.ensure_status_for response operation) (Files.ensure_status_for response operation).
Proof. unfold TokioFiles.ensure_status_for, Files.ensure_status_for. apply _. Qed.
#[export] Instance cut4_ensure_status response operation :
  cut (TokioFiles.ensure_status response operation) (Files.ensure_status response operation).
Proof. unfold TokioFiles.ensure_status, Files.ensure_status. apply _. Qed.
#[export] Instance cut4_lookup path : cut (TokioFiles.lookup path) (Files.lookup path).
Proof. unfold TokioFiles.lookup, Files.lookup. apply _. Qed.
#[export] Instance cut4_lookup_public path : cut (TokioFiles.lookup_public path) (Files.lookup_public path).
Proof. unfold TokioFiles.lookup_public, Files.lookup_public. apply _. Qed.
#[export] Instance cut4_or_missing (m : M (World W R) Error unit) (m_ : M (World W' R') Error unit) :
  Cut m m_ → cut (TokioFiles.or_missing m) (Files.or_missing m_).
Proof. intros. unfold TokioFiles.or_missing, Files.or_missing. apply _. Qed.
#[export] Instance cut4_exists_ path : cut (TokioFiles.exists_ path) (Files.exists_ path).
Proof. unfold TokioFiles.exists_, Files.exists_. apply _. Qed.
#[export] Instance cut4_public_exists path : cut (TokioFiles.public_exists path) (Files.public_exists path).
Proof. unfold TokioFiles.public_exists, Files.public_exists. apply _. Qed.
#[export] Instance cut4_file_handle path : cut (TokioFiles.file_handle path) (Files.file_handle path).
Proof. unfold TokioFiles.file_handle, Files.file_handle. apply _. Qed.
#[export] Instance cut4_public_file_handle path : cut (TokioFiles.public_file_handle path) (Files.public_file_handle path).
Proof. unfold TokioFiles.public_file_handle, Files.public_file_handle. apply _. Qed.
#[export] Instance cut4_parent_file_handle path : cut (TokioFiles.parent_file_handle path) (Files.parent_file_handle path).
Proof. unfold TokioFiles.parent_file_handle, Files.parent_file_handle. apply _. Qed.
#[export] Instance cut4_getattr_values path attr_request :
  cut (TokioFiles.getattr_values path attr_request) (Files.getattr_values path attr_request).
Proof. unfold TokioFiles.getattr_values, Files.getattr_values; same_helpers. apply _. Qed.
#[export] Instance cut4_supported_attr_values path attrs :
  cut (TokioFiles.supported_attr_values path attrs) (Files.supported_attr_values path attrs).
Proof. unfold TokioFiles.supported_attr_values, Files.supported_attr_values. apply _. Qed.
#[export] Instance cut4_getattr path : cut (TokioFiles.getattr path) (Files.getattr path).
Proof. unfold TokioFiles.getattr, Files.getattr. apply _. Qed.
#[export] Instance cut4_metadata path : cut (TokioFiles.metadata path) (Files.metadata path).
Proof. unfold TokioFiles.metadata, Files.metadata. apply _. Qed.
#[export] Instance cut4_file_type path : cut (TokioFiles.file_type path) (Files.file_type path).
Proof. unfold TokioFiles.file_type, Files.file_type. apply _. Qed.
#[export] Instance cut4_is_file path : cut (TokioFiles.is_file path) (Files.is_file path).
Proof. unfold TokioFiles.is_file, Files.is_file. apply _. Qed.
#[export] Instance cut4_is_dir path : cut (TokioFiles.is_dir path) (Files.is_dir path).
Proof. unfold TokioFiles.is_dir, Files.is_dir. apply _. Qed.
#[export] Instance cut4_is_symlink path : cut (TokioFiles.is_symlink path) (Files.is_symlink path).
Proof. unfold TokioFiles.is_symlink, Files.is_symlink. apply _. Qed.
#[export] Instance cut4_fsstat path : cut (TokioFiles.fsstat path) (Files.fsstat path).
Proof. unfold TokioFiles.fsstat, Files.fsstat. apply _. Qed.
#[export] Instance cut4_pathconf path : cut (TokioFiles.pathconf path) (Files.pathconf path).
Proof. unfold TokioFiles.pathconf, Files.pathconf. apply _. Qed.
#[export] Instance cut4_public_supported_attrs path :
  cut (TokioFiles.public_supported_attrs path) (Files.public_supported_attrs path).
Proof. unfold TokioFiles.public_supported_attrs, Files.public_supported_attrs. apply _. Qed.
#[export] Instance cut4_public_getattr_values path attr_request :
  cut (TokioFiles.public_getattr_values path attr_request) (Files.public_getattr_values path attr_request).
Proof. unfold TokioFiles.public_getattr_values, Files.public_getattr_values; same_helpers. apply _. Qed.
#[export] Instance cut4_public_supported_attr_values path attrs :
  cut (TokioFiles.public_supported_attr_values path attrs) (Files.public_supported_attr_values path attrs).
Proof. unfold TokioFiles.public_supported_attr_values, Files.public_supported_attr_values. apply _. Qed.
#[export] Instance cut4_public_getattr path : cut (TokioFiles.public_getattr path) (Files.public_getattr path).
Proof. unfold TokioFiles.public_getattr, Files.public_getattr. apply _. Qed.
#[export] Instance cut4_access path access : cut (TokioFiles.access path access) (Files.access path access).
Proof. unfold TokioFiles.access, Files.access. apply _. Qed.
#[export] Instance cut4_public_access path access :
  cut (TokioFiles.public_access path access) (Files.public_access path access).
Proof. unfold TokioFiles.public_access, Files.public_access. apply _. Qed.
#[export] Instance cut4_read_link path : cut (TokioFiles.read_link path) (Files.read_link path).
Proof. unfold TokioFiles.read_link, Files.read_link. apply _. Qed.
#[export] Instance cut4_create_entry path kind attrs :
  cut (TokioFiles.create_entry path kind attrs) (Files.create_entry path kind attrs).
Proof. unfold TokioFiles.create_entry, Files.create_entry; same_helpers. apply _. Qed.
#[export] Instance cut4_mkdir path mode : cut (TokioFiles.mkdir path mode) (Files.mkdir path mode).
Proof. unfold TokioFiles.mkdir, Files.mkdir. apply _. Qed.
#[export] Instance cut4_symlink path target : cut (TokioFiles.symlink path target) (Files.symlink path target).
Proof. unfold TokioFiles.symlink, Files.symlink. apply _. Qed.
#[export] Instance cut4_create_special path kind mode :
  cut (TokioFiles.create_special path kind mode) (Files.create_special path kind mode).
Proof. unfold TokioFiles.create_special, Files.create_special. apply _. Qed.
#[export] Instance cut4_create_fifo path mode : cut (TokioFiles.create_fifo path mode) (Files.create_fifo path mode).
Proof. unfold TokioFiles.create_fifo, Files.create_fifo. apply _. Qed.
#[export] Instance cut4_create_socket path mode : cut (TokioFiles.create_socket path mode) (Files.create_socket path mode).
Proof. unfold TokioFiles.create_socket, Files.create_socket. apply _. Qed.
#[export] Instance cut4_create_block_device path major minor mode :
  cut (TokioFiles.create_block_device path major minor mode) (Files.create_block_device path major minor mode).
Proof. unfold TokioFiles.create_block_device, Files.create_block_device. apply _. Qed.
#[export] Instance cut4_create_character_device path major minor mode :
  cut (TokioFiles.create_character_device path major minor mode) (Files.create_character_device path major minor mode).
Proof. unfold TokioFiles.create_character_device, Files.create_character_device. apply _. Qed.
#[export] Instance cut4_hard_link existing link : cut (TokioFiles.hard_link existing link) (Files.hard_link existing link).
Proof. unfold TokioFiles.hard_link, Files.hard_link; same_helpers. apply _. Qed.
#[export] Instance cut4_remove path : cut (TokioFiles.remove path) (Files.remove path).
Proof. unfold TokioFiles.remove, Files.remove; same_helpers. apply _. Qed.
#[export] Instance cut4_if_exists (m : M (World W R) Error unit) (m_ : M (World W' R') Error unit) :
  Cut m m_ → cut (TokioFiles.if_exists m) (Files.if_exists m_).
Proof. intros. unfold TokioFiles.if_exists, Files.if_exists. apply _. Qed.
#[export] Instance cut4_remove_if_exists path : cut (TokioFiles.remove_if_exists path) (Files.remove_if_exists path).
Proof. unfold TokioFiles.remove_if_exists, Files.remove_if_exists. apply _. Qed.
#[export] Instance cut4_rmdir path : cut (TokioFiles.rmdir path) (Files.rmdir path).
Proof. unfold TokioFiles.rmdir, Files.rmdir. apply _. Qed.
#[export] Instance cut4_rmdir_if_exists path : cut (TokioFiles.rmdir_if_exists path) (Files.rmdir_if_exists path).
Proof. unfold TokioFiles.rmdir_if_exists, Files.rmdir_if_exists. apply _. Qed.
#[export] Instance cut4_rename from to : cut (TokioFiles.rename from to) (Files.rename from to).
Proof. unfold TokioFiles.rename, Files.rename; same_helpers. apply _. Qed.
#[export] Instance cut4_close_step operations stateid l :
  cut (TokioFiles.close_step operations stateid l) (Files.close_step operations stateid l).
Proof. unfold TokioFiles.close_step, Files.close_step. apply _. Qed.
#[export] Instance cut4_close_with_current_filehandle operations stateid :
  cut (TokioFiles.close_with_current_filehandle operations stateid)
    (Files.close_with_current_filehandle operations stateid).
Proof. unfold TokioFiles.close_with_current_filehandle, Files.close_with_current_filehandle. apply _. Qed.
#[export] Instance cut4_close opened : cut (TokioFiles.close opened) (Files.close opened).
Proof. unfold TokioFiles.close, Files.close. apply _. Qed.
#[export] Instance cut4_close_state_by_path path stateid :
  cut (TokioFiles.close_state_by_path path stateid) (Files.close_state_by_path path stateid).
Proof. unfold TokioFiles.close_state_by_path, Files.close_state_by_path. apply _. Qed.
#[export] Instance cut4_finish_opened {S S' A} `{!Erasure S S', !History S' H} (close : M S Error unit)
    (close_ : M S' Error unit)
    (body : M S Error A) (body_ : M S' Error A) :
  Cut close close_ → Cut body body_ → Cut (TokioFiles.finish_opened close body) (Files.finish_opened close_ body_).
Proof. intros. unfold TokioFiles.finish_opened, Files.finish_opened. apply _. Qed.
#[export] Instance cut4_cleanup_failed_open path error close_result cleanup :
  cut (TokioFiles.cleanup_failed_open path error close_result cleanup)
    (Files.cleanup_failed_open path error close_result cleanup).
Proof. unfold TokioFiles.cleanup_failed_open, Files.cleanup_failed_open. apply _. Qed.
#[export] Instance cut4_cleanup_open_response (close_state : StateId → M (World W R) Error unit) (close_state_ :
    StateId → M (World W' R') Error unit) (cleaned : Error → unit + Error → M (World W R) Error Error) (cleaned_ :
    Error → unit + Error → M (World W' R') Error Error) response error :
  (∀ x0, Cut (close_state x0) (close_state_ x0)) → (∀ x0 x1, Cut (cleaned x0 x1) (cleaned_ x0 x1)) →
  cut (TokioFiles.cleanup_open_response close_state cleaned response error)
    (Files.cleanup_open_response close_state_ cleaned_ response error).
Proof. intros. unfold TokioFiles.cleanup_open_response, Files.cleanup_open_response. apply _. Qed.
#[export] Instance cut4_return_open_delegation handle stateid :
  cut (TokioFiles.return_open_delegation handle stateid) (Files.return_open_delegation handle stateid).
Proof. unfold TokioFiles.return_open_delegation, Files.return_open_delegation. apply _. Qed.
#[export] Instance cut4_opened_file (close_state : StateId → M (World W R) Error unit) (close_state_ : StateId → M
    (World W' R') Error unit) (cleaned : Error → unit + Error → M (World W R) Error Error) (cleaned_ : Error → unit
    + Error → M (World W' R') Error Error) response :
  (∀ x0, Cut (close_state x0) (close_state_ x0)) → (∀ x0 x1, Cut (cleaned x0 x1) (cleaned_ x0 x1)) →
  cut (TokioFiles.opened_file close_state cleaned response)
    (Files.opened_file close_state_ cleaned_ response).
Proof. intros. unfold TokioFiles.opened_file, Files.opened_file. apply _. Qed.
#[export] Instance cut4_opening_step operations (close_state : StateId → M (World W R) Error unit) (close_state_ :
    StateId → M (World W' R') Error unit) (cleaned : Error → unit + Error → M (World W R) Error Error) (cleaned_ :
    Error → unit + Error → M (World W' R') Error Error) l :
  (∀ x0, Cut (close_state x0) (close_state_ x0)) → (∀ x0 x1, Cut (cleaned x0 x1) (cleaned_ x0 x1)) →
  cut (TokioFiles.opening_step operations close_state cleaned l)
    (Files.opening_step operations close_state_ cleaned_ l).
Proof. intros. unfold TokioFiles.opening_step, Files.opening_step. apply _. Qed.
#[export] Instance cut4_open_step path share_access openhow cleanup owner parent_components file_name l :
  cut (TokioFiles.open_step path share_access openhow cleanup owner parent_components file_name l)
    (Files.open_step path share_access openhow cleanup owner parent_components file_name l).
Proof. unfold TokioFiles.open_step, Files.open_step; same_helpers. apply _. Qed.
#[export] Instance cut4_open_with_owner_failure_cleanup path share_access openhow cleanup owner :
  cut (TokioFiles.open_with_owner_failure_cleanup path share_access openhow cleanup owner)
    (Files.open_with_owner_failure_cleanup path share_access openhow cleanup owner).
Proof. unfold TokioFiles.open_with_owner_failure_cleanup, Files.open_with_owner_failure_cleanup. apply _. Qed.
#[export] Instance cut4_open_with_failure_cleanup path share_access openhow cleanup :
  cut (TokioFiles.open_with_failure_cleanup path share_access openhow cleanup)
    (Files.open_with_failure_cleanup path share_access openhow cleanup).
Proof. unfold TokioFiles.open_with_failure_cleanup, Files.open_with_failure_cleanup. apply _. Qed.
#[export] Instance cut4_open path share_access openhow :
  cut (TokioFiles.open path share_access openhow) (Files.open path share_access openhow).
Proof. unfold TokioFiles.open, Files.open. apply _. Qed.
#[export] Instance cut4_open_with_owner path share_access openhow owner :
  cut (TokioFiles.open_with_owner path share_access openhow owner) (Files.open_with_owner path share_access openhow owner).
Proof. unfold TokioFiles.open_with_owner, Files.open_with_owner. apply _. Qed.
#[export] Instance cut4_open_temp path share_access openhow :
  cut (TokioFiles.open_temp path share_access openhow) (Files.open_temp path share_access openhow).
Proof. unfold TokioFiles.open_temp, Files.open_temp. apply _. Qed.
#[export] Instance cut4_read_opened_at opened offset count :
  cut (TokioFiles.read_opened_at opened offset count) (Files.read_opened_at opened offset count).
Proof. unfold TokioFiles.read_opened_at, Files.read_opened_at. apply _. Qed.
#[export] Instance cut4_read_opened_to_end_step opened l :
  cut (TokioFiles.read_opened_to_end_step opened l) (Files.read_opened_to_end_step opened l).
Proof. unfold TokioFiles.read_opened_to_end_step, Files.read_opened_to_end_step. apply _. Qed.
#[export] Instance cut4_read_opened_to_end opened :
  cut (TokioFiles.read_opened_to_end opened) (Files.read_opened_to_end opened).
Proof. unfold TokioFiles.read_opened_to_end, Files.read_opened_to_end. apply _. Qed.
#[export] Instance cut4_write_out `{CutWriter Wr Wr'} bs :
  Cut (S := World W R * Wr) (S' := World W' R' * Wr') (Files.write_out bs) (Files.write_out bs).
Proof. unfold Files.write_out. apply cut_map_err, cut_snd. apply cut_writer. Qed.
#[export] Instance cut4_read_opened_to_writer_step `{CutWriter Wr Wr'} opened l :
  Cut (S := World W R * Wr) (S' := World W' R' * Wr') (TokioFiles.read_opened_to_writer_step opened l)
    (Files.read_opened_to_writer_step opened l).
Proof. unfold TokioFiles.read_opened_to_writer_step, Files.read_opened_to_writer_step. apply _. Qed.
#[export] Instance cut4_read_opened_to_writer `{CutWriter Wr Wr'} opened :
  Cut (S := World W R * Wr) (S' := World W' R' * Wr') (TokioFiles.read_opened_to_writer opened)
    (Files.read_opened_to_writer opened).
Proof. unfold TokioFiles.read_opened_to_writer, Files.read_opened_to_writer. apply _. Qed.
#[export] Instance cut4_read_opened_range_to_writer_step `{CutWriter Wr Wr'} opened l :
  Cut (S := World W R * Wr) (S' := World W' R' * Wr') (TokioFiles.read_opened_range_to_writer_step opened l)
    (Files.read_opened_range_to_writer_step opened l).
Proof. unfold TokioFiles.read_opened_range_to_writer_step, Files.read_opened_range_to_writer_step. apply _. Qed.
#[export] Instance cut4_read_opened_range_to_writer `{CutWriter Wr Wr'} opened offset remaining :
  Cut (S := World W R * Wr) (S' := World W' R' * Wr') (TokioFiles.read_opened_range_to_writer opened offset remaining)
    (Files.read_opened_range_to_writer opened offset remaining).
Proof. unfold TokioFiles.read_opened_range_to_writer, Files.read_opened_range_to_writer. apply _. Qed.
#[export] Instance cut4_read_to_writer `{CutWriter Wr Wr'} path :
  Cut (S := World W R * Wr) (S' := World W' R' * Wr') (TokioFiles.read_to_writer path)
    (Files.read_to_writer path).
Proof. unfold TokioFiles.read_to_writer, Files.read_to_writer. apply _. Qed.
#[export] Instance cut4_read_range_to_writer `{CutWriter Wr Wr'} path offset count :
  Cut (S := World W R * Wr) (S' := World W' R' * Wr') (TokioFiles.read_range_to_writer path offset count)
    (Files.read_range_to_writer path offset count).
Proof. unfold TokioFiles.read_range_to_writer, Files.read_range_to_writer. apply _. Qed.
#[export] Instance cut4_read_opened_range_vec opened offset count :
  cut (TokioFiles.read_opened_range_vec opened offset count) (Files.read_opened_range_vec opened offset count).
Proof.
  apply (cut_with (R := list byte) (R' := list byte) [] (TokioFiles.read_opened_range_to_writer opened offset count)
    (Files.read_opened_range_to_writer opened offset count)
    (λ out o, match o with Ok _ => Ok out | Err e => Err e | Fault f => Fault f end)); [..|apply _].
  - intros w. unfold TokioFiles.read_opened_range_vec, carry, bytes_carried, id.
    by destruct (TokioFiles.read_opened_range_to_writer _ _ _ (w, [])) as [[w' out] [a|e|f]].
  - intros w. unfold Files.read_opened_range_vec, carry, bytes_carried, id.
    by destruct (Files.read_opened_range_to_writer _ _ _ (w, [])) as [[w' out] [a|e|f]].
  - intros r [a|e|f]; split; congruence.
Qed.
#[export] Instance cut4_read_opened_range opened offset count :
  cut (TokioFiles.read_opened_range opened offset count) (Files.read_opened_range opened offset count).
Proof. unfold TokioFiles.read_opened_range, Files.read_opened_range. apply _. Qed.
#[export] Instance cut4_commit_opened opened offset count :
  cut (TokioFiles.commit_opened opened offset count) (Files.commit_opened opened offset count).
Proof. unfold TokioFiles.commit_opened, Files.commit_opened. apply _. Qed.
#[export] Instance cut4_write_opened_at_step opened l :
  cut (TokioFiles.write_opened_at_step opened l) (Files.write_opened_at_step opened l).
Proof. unfold TokioFiles.write_opened_at_step, Files.write_opened_at_step. apply _. Qed.
#[export] Instance cut4_write_opened_at opened offset data :
  cut (TokioFiles.write_opened_at opened offset data) (Files.write_opened_at opened offset data).
Proof. unfold TokioFiles.write_opened_at, Files.write_opened_at. apply _. Qed.
#[export] Instance cut4_read_in `{CutReader Rd Rd'} n :
  Cut (S := World W R * Rd) (S' := World W' R' * Rd') (Files.read_in n) (Files.read_in n).
Proof. unfold Files.read_in. apply cut_map_err, cut_snd. apply cut_reader. Qed.
#[export] Instance cut4_write_opened_from_reader_at_step `{CutReader Rd Rd'} opened buffer_size l :
  Cut (S := World W R * Rd) (S' := World W' R' * Rd') (TokioFiles.write_opened_from_reader_at_step opened buffer_size l)
    (Files.write_opened_from_reader_at_step opened buffer_size l).
Proof. unfold TokioFiles.write_opened_from_reader_at_step, Files.write_opened_from_reader_at_step. apply _. Qed.
#[export] Instance cut4_write_opened_from_reader_at `{CutReader Rd Rd'} opened offset :
  Cut (S := World W R * Rd) (S' := World W' R' * Rd') (TokioFiles.write_opened_from_reader_at opened offset)
    (Files.write_opened_from_reader_at opened offset).
Proof. unfold TokioFiles.write_opened_from_reader_at, Files.write_opened_from_reader_at. apply _. Qed.
#[export] Instance cut4_write_opened_from_reader `{CutReader Rd Rd'} opened :
  Cut (S := World W R * Rd) (S' := World W' R' * Rd') (TokioFiles.write_opened_from_reader opened)
    (Files.write_opened_from_reader opened).
Proof. unfold TokioFiles.write_opened_from_reader, Files.write_opened_from_reader. apply _. Qed.
#[export] Instance cut4_copy_opened_step source target offset :
  cut (TokioFiles.copy_opened_step source target offset) (Files.copy_opened_step source target offset).
Proof. unfold TokioFiles.copy_opened_step, Files.copy_opened_step. apply _. Qed.
#[export] Instance cut4_copy_opened source target :
  cut (TokioFiles.copy_opened source target) (Files.copy_opened source target).
Proof. unfold TokioFiles.copy_opened, Files.copy_opened. apply _. Qed.
#[export] Instance cut4_set_opened_attrs opened attrs :
  cut (TokioFiles.set_opened_attrs opened attrs) (Files.set_opened_attrs opened attrs).
Proof. unfold TokioFiles.set_opened_attrs, Files.set_opened_attrs. apply _. Qed.
#[export] Instance cut4_set_opened_size opened size :
  cut (TokioFiles.set_opened_size opened size) (Files.set_opened_size opened size).
Proof. unfold TokioFiles.set_opened_size, Files.set_opened_size. apply _. Qed.
#[export] Instance cut4_update_opened_allocation opened offset length op :
  cut (TokioFiles.update_opened_allocation opened offset length op)
    (Files.update_opened_allocation opened offset length op).
Proof. unfold TokioFiles.update_opened_allocation, Files.update_opened_allocation. apply _. Qed.
#[export] Instance cut4_read path : cut (TokioFiles.read path) (Files.read path).
Proof. unfold TokioFiles.read, Files.read. apply _. Qed.
#[export] Instance cut4_read_range path offset count :
  cut (TokioFiles.read_range path offset count) (Files.read_range path offset count).
Proof. unfold TokioFiles.read_range, Files.read_range. apply _. Qed.
#[export] Instance cut4_read_at path offset count :
  cut (TokioFiles.read_at path offset count) (Files.read_at path offset count).
Proof. unfold TokioFiles.read_at, Files.read_at. apply _. Qed.
#[export] Instance cut4_read_exact_at path offset count :
  cut (TokioFiles.read_exact_at path offset count) (Files.read_exact_at path offset count).
Proof. unfold TokioFiles.read_exact_at, Files.read_exact_at. apply _. Qed.
#[export] Instance cut4_unchecked mode : cut (TokioFiles.unchecked mode) (Files.unchecked mode).
Proof. unfold TokioFiles.unchecked, Files.unchecked. apply _. Qed.
#[export] Instance cut4_guarded mode : cut (TokioFiles.guarded mode) (Files.guarded mode).
Proof. unfold TokioFiles.guarded, Files.guarded. apply _. Qed.
#[export] Instance cut4_write_with_mode path data mode :
  cut (TokioFiles.write_with_mode path data mode) (Files.write_with_mode path data mode).
Proof. unfold TokioFiles.write_with_mode, Files.write_with_mode. apply _. Qed.
#[export] Instance cut4_write path data : cut (TokioFiles.write path data) (Files.write path data).
Proof. unfold TokioFiles.write, Files.write. apply _. Qed.
#[export] Instance cut4_truncate path size : cut (TokioFiles.truncate path size) (Files.truncate path size).
Proof. unfold TokioFiles.truncate, Files.truncate. apply _. Qed.
#[export] Instance cut4_write_at path offset data :
  cut (TokioFiles.write_at path offset data) (Files.write_at path offset data).
Proof. unfold TokioFiles.write_at, Files.write_at. apply _. Qed.
#[export] Instance cut4_append_offset path : cut (TokioFiles.append_offset path) (Files.append_offset path).
Proof. unfold TokioFiles.append_offset, Files.append_offset. apply _. Qed.
#[export] Instance cut4_append path data : cut (TokioFiles.append path data) (Files.append path data).
Proof. unfold TokioFiles.append, Files.append. apply _. Qed.
#[export] Instance cut4_write_from_reader_with_mode `{CutReader Rd Rd'} path mode :
  Cut (S := World W R * Rd) (S' := World W' R' * Rd') (TokioFiles.write_from_reader_with_mode path mode)
    (Files.write_from_reader_with_mode path mode).
Proof. unfold TokioFiles.write_from_reader_with_mode, Files.write_from_reader_with_mode. apply _. Qed.
#[export] Instance cut4_write_from_reader `{CutReader Rd Rd'} path :
  Cut (S := World W R * Rd) (S' := World W' R' * Rd') (TokioFiles.write_from_reader path)
    (Files.write_from_reader path).
Proof. unfold TokioFiles.write_from_reader, Files.write_from_reader. apply _. Qed.
#[export] Instance cut4_append_from_reader `{CutReader Rd Rd'} path :
  Cut (S := World W R * Rd) (S' := World W' R' * Rd') (TokioFiles.append_from_reader path)
    (Files.append_from_reader path).
Proof. unfold TokioFiles.append_from_reader, Files.append_from_reader. apply _. Qed.
#[export] Instance cut4_update_allocation path offset length op :
  cut (TokioFiles.update_allocation path offset length op) (Files.update_allocation path offset length op).
Proof. unfold TokioFiles.update_allocation, Files.update_allocation. apply _. Qed.
#[export] Instance cut4_allocate path offset length :
  cut (TokioFiles.allocate path offset length) (Files.allocate path offset length).
Proof. unfold TokioFiles.allocate, Files.allocate. apply _. Qed.
#[export] Instance cut4_deallocate path offset length :
  cut (TokioFiles.deallocate path offset length) (Files.deallocate path offset length).
Proof. unfold TokioFiles.deallocate, Files.deallocate. apply _. Qed.
#[export] Instance cut4_setattr path attrs : cut (TokioFiles.setattr path attrs) (Files.setattr path attrs).
Proof. unfold TokioFiles.setattr, Files.setattr. apply _. Qed.
#[export] Instance cut4_set_mode path mode : cut (TokioFiles.set_mode path mode) (Files.set_mode path mode).
Proof. unfold TokioFiles.set_mode, Files.set_mode. apply _. Qed.
#[export] Instance cut4_set_owner path owner : cut (TokioFiles.set_owner path owner) (Files.set_owner path owner).
Proof. unfold TokioFiles.set_owner, Files.set_owner. apply _. Qed.
#[export] Instance cut4_set_owner_group path owner_group :
  cut (TokioFiles.set_owner_group path owner_group) (Files.set_owner_group path owner_group).
Proof. unfold TokioFiles.set_owner_group, Files.set_owner_group. apply _. Qed.
#[export] Instance cut4_set_ownership path owner owner_group :
  cut (TokioFiles.set_ownership path owner owner_group) (Files.set_ownership path owner owner_group).
Proof. unfold TokioFiles.set_ownership, Files.set_ownership. apply _. Qed.
#[export] Instance cut4_set_times path access_time modify_time :
  cut (TokioFiles.set_times path access_time modify_time) (Files.set_times path access_time modify_time).
Proof. unfold TokioFiles.set_times, Files.set_times. apply _. Qed.
#[export] Instance cut4_touch path : cut (TokioFiles.touch path) (Files.touch path).
Proof. unfold TokioFiles.touch, Files.touch. apply _. Qed.
#[export] Instance cut4_create_new_with_mode path mode :
  cut (TokioFiles.create_new_with_mode path mode) (Files.create_new_with_mode path mode).
Proof. unfold TokioFiles.create_new_with_mode, Files.create_new_with_mode. apply _. Qed.
#[export] Instance cut4_create_new path : cut (TokioFiles.create_new path) (Files.create_new path).
Proof. unfold TokioFiles.create_new, Files.create_new. apply _. Qed.
#[export] Instance cut4_create path : cut (TokioFiles.create path) (Files.create path).
Proof. unfold TokioFiles.create, Files.create. apply _. Qed.
#[export] Instance cut4_create_with_mode path mode :
  cut (TokioFiles.create_with_mode path mode) (Files.create_with_mode path mode).
Proof. unfold TokioFiles.create_with_mode, Files.create_with_mode. apply _. Qed.
#[export] Instance cut4_commit path offset count :
  cut (TokioFiles.commit path offset count) (Files.commit path offset count).
Proof. unfold TokioFiles.commit, Files.commit. apply _. Qed.
#[export] Instance cut4_ensure_distinct_paths from to :
  cut (TokioFiles.ensure_distinct_paths from to) (Files.ensure_distinct_paths from to).
Proof. unfold TokioFiles.ensure_distinct_paths, Files.ensure_distinct_paths. apply _. Qed.
#[export] Instance cut4_copied_mode from : cut (TokioFiles.copied_mode from) (Files.copied_mode from).
Proof. unfold TokioFiles.copied_mode, Files.copied_mode. apply _. Qed.
#[export] Instance cut4_or_close source context (m : M (World W R) Error OpenedFile) (m_ : M (World W' R') Error
    OpenedFile) :
  Cut m m_ → cut (TokioFiles.or_close source context m) (Files.or_close source context m_).
Proof. intros. unfold TokioFiles.or_close, Files.or_close. apply _. Qed.
#[export] Instance cut4_close_both target source :
  cut (TokioFiles.close_both target source) (Files.close_both target source).
Proof. unfold TokioFiles.close_both, Files.close_both; same_helpers. apply _. Qed.
#[export] Instance cut4_copy from to : cut (TokioFiles.copy from to) (Files.copy from to).
Proof. unfold TokioFiles.copy, Files.copy. apply _. Qed.
#[export] Instance cut4_on_temp {A} (m : M TempEnv Error A) :
  Cut (S := World W R * TempEnv) (S' := World W' R' * TempEnv) (Files.on_temp m) (Files.on_temp m).
Proof. apply cut_snd. intros t. unfold carry, temp_carried, id. by destruct (m t) as [t' [a|e|[]]]. Qed.
#[export] Instance cut4_finish_with_temp_cleanup {A} result created temp cleanup_context :
  cut (TokioFiles.finish_with_temp_cleanup (A := A) result created temp cleanup_context)
    (Files.finish_with_temp_cleanup result created temp cleanup_context).
Proof. unfold TokioFiles.finish_with_temp_cleanup, Files.finish_with_temp_cleanup. apply _. Qed.
#[export] Instance cut4_write_atomic_with_mode path data mode :
  cutT (TokioFiles.write_atomic_with_mode path data mode) (Files.write_atomic_with_mode path data mode).
Proof. unfold TokioFiles.write_atomic_with_mode, Files.write_atomic_with_mode. apply _. Qed.
#[export] Instance cut4_write_atomic path data : cutT (TokioFiles.write_atomic path data) (Files.write_atomic path data).
Proof. unfold TokioFiles.write_atomic, Files.write_atomic. apply _. Qed.
#[export] Instance cut4_copy_atomic from to : cutT (TokioFiles.copy_atomic from to) (Files.copy_atomic from to).
Proof. unfold TokioFiles.copy_atomic, Files.copy_atomic. apply _. Qed.
#[export] Instance cut4_test_lock_with_owner path lock_type offset length owner :
  cut (TokioFiles.test_lock_with_owner path lock_type offset length owner)
    (Files.test_lock_with_owner path lock_type offset length owner).
Proof. unfold TokioFiles.test_lock_with_owner, Files.test_lock_with_owner. apply _. Qed.
#[export] Instance cut4_test_lock path lock_type offset length :
  cut (TokioFiles.test_lock path lock_type offset length) (Files.test_lock path lock_type offset length).
Proof. unfold TokioFiles.test_lock, Files.test_lock. apply _. Qed.
#[export] Instance cut4_lock_opened_step opened lock_type offset length owner l :
  cut (TokioFiles.lock_opened_step opened lock_type offset length owner l)
    (Files.lock_opened_step opened lock_type offset length owner l).
Proof. unfold TokioFiles.lock_opened_step, Files.lock_opened_step. apply _. Qed.
#[export] Instance cut4_lock_opened opened lock_type offset length owner :
  cut (TokioFiles.lock_opened opened lock_type offset length owner)
    (Files.lock_opened opened lock_type offset length owner).
Proof. unfold TokioFiles.lock_opened, Files.lock_opened. apply _. Qed.
#[export] Instance cut4_unlock_opened_step lock l :
  cut (TokioFiles.unlock_opened_step lock l) (Files.unlock_opened_step lock l).
Proof. unfold TokioFiles.unlock_opened_step, Files.unlock_opened_step. apply _. Qed.
#[export] Instance cut4_unlock_opened lock : cut (TokioFiles.unlock_opened lock) (Files.unlock_opened lock).
Proof. unfold TokioFiles.unlock_opened, Files.unlock_opened. apply _. Qed.
#[export] Instance cut4_free_stateid stateid : cut (TokioFiles.free_stateid stateid) (Files.free_stateid stateid).
Proof. unfold TokioFiles.free_stateid, Files.free_stateid. apply _. Qed.
#[export] Instance cut4_release_lock_owner owner :
  cut (TokioFiles.release_lock_owner owner) (Files.release_lock_owner owner).
Proof. unfold TokioFiles.release_lock_owner, Files.release_lock_owner. apply _. Qed.
#[export] Instance cut4_test_stateids stateids : cut (TokioFiles.test_stateids stateids) (Files.test_stateids stateids).
Proof. unfold TokioFiles.test_stateids, Files.test_stateids. apply _. Qed.
#[export] Instance cut4_test_stateid stateid : cut (TokioFiles.test_stateid stateid) (Files.test_stateid stateid).
Proof. unfold TokioFiles.test_stateid, Files.test_stateid. apply _. Qed.
#[export] Instance cut4_register_lock state : cut (TokioFiles.register_lock state) (Files.register_lock state).
Proof. unfold TokioFiles.register_lock, Files.register_lock. apply _. Qed.
#[export] Instance cut4_lock_with_owner path lock_type offset length owner :
  cutT (TokioFiles.lock_with_owner path lock_type offset length owner)
    (Files.lock_with_owner path lock_type offset length owner).
Proof. unfold TokioFiles.lock_with_owner, Files.lock_with_owner. apply _. Qed.
#[export] Instance cut4_lock path lock_type offset length :
  cutT (TokioFiles.lock path lock_type offset length) (Files.lock path lock_type offset length).
Proof. unfold TokioFiles.lock, Files.lock. apply _. Qed.
#[export] Instance cut4_read_lock path offset length :
  cutT (TokioFiles.read_lock path offset length) (Files.read_lock path offset length).
Proof. unfold TokioFiles.read_lock, Files.read_lock. apply _. Qed.
#[export] Instance cut4_write_lock path offset length :
  cutT (TokioFiles.write_lock path offset length) (Files.write_lock path offset length).
Proof. unfold TokioFiles.write_lock, Files.write_lock. apply _. Qed.
#[export] Instance cut4_unlock lock : cut (TokioFiles.unlock lock) (Files.unlock lock).
Proof. unfold TokioFiles.unlock, Files.unlock. apply _. Qed.
#[export] Instance cut4_listing_page (request : M (World W R) Error Bitmap) (request_ : M (World W' R') Error
    Bitmap) operations results cursor max_entries :
  Cut request request_ →
  cut (TokioFiles.listing_page request operations results cursor max_entries)
    (Files.listing_page request_ operations results cursor max_entries).
Proof. intros. unfold TokioFiles.listing_page, Files.listing_page; same_helpers. apply _. Qed.
#[export] Instance cut4_read_dir_page_limited path cursor max_entries :
  cut (TokioFiles.read_dir_page_limited path cursor max_entries) (Files.read_dir_page_limited path cursor max_entries).
Proof. unfold TokioFiles.read_dir_page_limited, Files.read_dir_page_limited. apply _. Qed.
#[export] Instance cut4_read_dir_page path cursor :
  cut (TokioFiles.read_dir_page path cursor) (Files.read_dir_page path cursor).
Proof. unfold TokioFiles.read_dir_page, Files.read_dir_page. apply _. Qed.
#[export] Instance cut4_listing_step operations results what max_entries attr_request l :
  cut (TokioFiles.listing_step operations results what max_entries attr_request l)
    (Files.listing_step operations results what max_entries attr_request l).
Proof. unfold TokioFiles.listing_step, Files.listing_step; same_helpers. apply _. Qed.
#[export] Instance cut4_listing (request : M (World W R) Error Bitmap) (request_ : M (World W' R') Error Bitmap)
    operations results what max_entries :
  Cut request request_ →
  cut (TokioFiles.listing request operations results what max_entries)
    (Files.listing request_ operations results what max_entries).
Proof. intros. unfold TokioFiles.listing, Files.listing. apply _. Qed.
#[export] Instance cut4_listing_limited (listing : Z → M (World W R) Error (list DirEntry)) (listing_ : Z → M (World
    W' R') Error (list DirEntry)) max_entries :
  (∀ x0, Cut (listing x0) (listing_ x0)) →
  cut (TokioFiles.listing_limited listing max_entries)
    (Files.listing_limited listing_ max_entries).
Proof. intros. unfold TokioFiles.listing_limited, Files.listing_limited. apply _. Qed.
#[export] Instance cut4_read_dir_with_limit path max_entries :
  cut (TokioFiles.read_dir_with_limit path max_entries) (Files.read_dir_with_limit path max_entries).
Proof. unfold TokioFiles.read_dir_with_limit, Files.read_dir_with_limit. apply _. Qed.
#[export] Instance cut4_read_dir path : cut (TokioFiles.read_dir path) (Files.read_dir path).
Proof. unfold TokioFiles.read_dir, Files.read_dir. apply _. Qed.
#[export] Instance cut4_read_dir_limited path max_entries :
  cut (TokioFiles.read_dir_limited path max_entries) (Files.read_dir_limited path max_entries).
Proof. unfold TokioFiles.read_dir_limited, Files.read_dir_limited. apply _. Qed.
#[export] Instance cut4_probe_directory path : cut (TokioFiles.probe_directory path) (Files.probe_directory path).
Proof. unfold TokioFiles.probe_directory, Files.probe_directory. apply _. Qed.
#[export] Instance cut4_ensure_directory_type path file_type :
  cut (TokioFiles.ensure_directory_type path file_type) (Files.ensure_directory_type path file_type).
Proof. unfold TokioFiles.ensure_directory_type, Files.ensure_directory_type. apply _. Qed.
#[export] Instance cut4_path_is_directory path file_type :
  cut (TokioFiles.path_is_directory path file_type) (Files.path_is_directory path file_type).
Proof. unfold TokioFiles.path_is_directory, Files.path_is_directory. apply _. Qed.
#[export] Instance cut4_create_components mode current components :
  cut (TokioFiles.create_components mode current components) (Files.create_components mode current components).
Proof. revert current. induction components; intros; cbn [TokioFiles.create_components Files.create_components]; apply _. Qed.
#[export] Instance cut4_create_dir_all path mode :
  cut (TokioFiles.create_dir_all path mode) (Files.create_dir_all path mode).
Proof. unfold TokioFiles.create_dir_all, Files.create_dir_all. apply _. Qed.
#[export] Instance cut4_remove_all_step stack : cut (TokioFiles.remove_all_step stack) (Files.remove_all_step stack).
Proof. unfold TokioFiles.remove_all_step, Files.remove_all_step; same_helpers. apply _. Qed.
#[export] Instance cut4_remove_all fuel path : cut (TokioFiles.remove_all fuel path) (Files.remove_all fuel path).
Proof. unfold TokioFiles.remove_all, Files.remove_all. apply _. Qed.
#[export] Instance cut4_remove_all_if_exists fuel path :
  cut (TokioFiles.remove_all_if_exists fuel path) (Files.remove_all_if_exists fuel path).
Proof. unfold TokioFiles.remove_all_if_exists, Files.remove_all_if_exists. apply _. Qed.

End files.

(** ** Named attributes *)

Section named.
Context {W R W' R' H : Type} `{Nfs4Cut W R W' R' H}.
#[local] Abbreviation cut m b := (Cut (S := World W R) (S' := World W' R') m b).
#[local] Abbreviation cutT m b := (Cut (S := World W R * TempEnv) (S' := World W' R' * TempEnv) m b).

#[export] Instance cut4_named_attr_supported_attr_request path attrs :
  cut (TokioNamed.named_attr_supported_attr_request path attrs) (Named.named_attr_supported_attr_request path attrs).
Proof. unfold TokioNamed.named_attr_supported_attr_request, Named.named_attr_supported_attr_request. apply _. Qed.
#[export] Instance cut4_read_named_attr_page_limited path cursor max_entries :
  cut (TokioNamed.read_named_attr_page_limited path cursor max_entries)
    (Named.read_named_attr_page_limited path cursor max_entries).
Proof. unfold TokioNamed.read_named_attr_page_limited, Named.read_named_attr_page_limited. apply _. Qed.
#[export] Instance cut4_read_named_attr_page path cursor :
  cut (TokioNamed.read_named_attr_page path cursor) (Named.read_named_attr_page path cursor).
Proof. unfold TokioNamed.read_named_attr_page, Named.read_named_attr_page. apply _. Qed.
#[export] Instance cut4_read_named_attrs_with_limit path max_entries :
  cut (TokioNamed.read_named_attrs_with_limit path max_entries) (Named.read_named_attrs_with_limit path max_entries).
Proof. unfold TokioNamed.read_named_attrs_with_limit, Named.read_named_attrs_with_limit. apply _. Qed.
#[export] Instance cut4_read_named_attrs path : cut (TokioNamed.read_named_attrs path) (Named.read_named_attrs path).
Proof. unfold TokioNamed.read_named_attrs, Named.read_named_attrs. apply _. Qed.
#[export] Instance cut4_read_named_attrs_limited path max_entries :
  cut (TokioNamed.read_named_attrs_limited path max_entries) (Named.read_named_attrs_limited path max_entries).
Proof. unfold TokioNamed.read_named_attrs_limited, Named.read_named_attrs_limited. apply _. Qed.
#[export] Instance cut4_rename_named_attr path from_name to_name :
  cut (TokioNamed.rename_named_attr path from_name to_name) (Named.rename_named_attr path from_name to_name).
Proof. unfold TokioNamed.rename_named_attr, Named.rename_named_attr. apply _. Qed.
#[export] Instance cut4_rename_named_attr_if_exists path from_name to_name :
  cut (TokioNamed.rename_named_attr_if_exists path from_name to_name)
    (Named.rename_named_attr_if_exists path from_name to_name).
Proof. unfold TokioNamed.rename_named_attr_if_exists, Named.rename_named_attr_if_exists. apply _. Qed.
#[export] Instance cut4_remove_named_attr path name :
  cut (TokioNamed.remove_named_attr path name) (Named.remove_named_attr path name).
Proof. unfold TokioNamed.remove_named_attr, Named.remove_named_attr. apply _. Qed.
#[export] Instance cut4_remove_named_attr_if_exists path name :
  cut (TokioNamed.remove_named_attr_if_exists path name) (Named.remove_named_attr_if_exists path name).
Proof. unfold TokioNamed.remove_named_attr_if_exists, Named.remove_named_attr_if_exists. apply _. Qed.
#[export] Instance cut4_named_attr_supported_attrs path name :
  cut (TokioNamed.named_attr_supported_attrs path name) (Named.named_attr_supported_attrs path name).
Proof. unfold TokioNamed.named_attr_supported_attrs, Named.named_attr_supported_attrs. apply _. Qed.
#[export] Instance cut4_named_attr_getattr_values path name attr_request :
  cut (TokioNamed.named_attr_getattr_values path name attr_request)
    (Named.named_attr_getattr_values path name attr_request).
Proof. unfold TokioNamed.named_attr_getattr_values, Named.named_attr_getattr_values; same_helpers. apply _. Qed.
#[export] Instance cut4_named_attr_supported_attr_values path name attrs :
  cut (TokioNamed.named_attr_supported_attr_values path name attrs)
    (Named.named_attr_supported_attr_values path name attrs).
Proof. unfold TokioNamed.named_attr_supported_attr_values, Named.named_attr_supported_attr_values. apply _. Qed.
#[export] Instance cut4_named_attr_metadata path name :
  cut (TokioNamed.named_attr_metadata path name) (Named.named_attr_metadata path name).
Proof. unfold TokioNamed.named_attr_metadata, Named.named_attr_metadata. apply _. Qed.
#[export] Instance cut4_named_attr_exists path name :
  cut (TokioNamed.named_attr_exists path name) (Named.named_attr_exists path name).
Proof. unfold TokioNamed.named_attr_exists, Named.named_attr_exists. apply _. Qed.
#[export] Instance cut4_close_named_attr_state_by_path path name stateid :
  cut (TokioNamed.close_named_attr_state_by_path path name stateid)
    (Named.close_named_attr_state_by_path path name stateid).
Proof. unfold TokioNamed.close_named_attr_state_by_path, Named.close_named_attr_state_by_path. apply _. Qed.
#[export] Instance cut4_cleanup_named_attr_open_response path name response error :
  cut (TokioNamed.cleanup_named_attr_open_response path name response error)
    (Named.cleanup_named_attr_open_response path name response error).
Proof. unfold TokioNamed.cleanup_named_attr_open_response, Named.cleanup_named_attr_open_response. apply _. Qed.
#[export] Instance cut4_open_named_attr path name share_access openhow create_dir :
  cut (TokioNamed.open_named_attr path name share_access openhow create_dir)
    (Named.open_named_attr path name share_access openhow create_dir).
Proof. unfold TokioNamed.open_named_attr, Named.open_named_attr; same_helpers. apply _. Qed.
#[export] Instance cut4_read_named_attr path name :
  cut (TokioNamed.read_named_attr path name) (Named.read_named_attr path name).
Proof. unfold TokioNamed.read_named_attr, Named.read_named_attr. apply _. Qed.
#[export] Instance cut4_read_named_attr_range path name offset count :
  cut (TokioNamed.read_named_attr_range path name offset count) (Named.read_named_attr_range path name offset count).
Proof. unfold TokioNamed.read_named_attr_range, Named.read_named_attr_range. apply _. Qed.
#[export] Instance cut4_read_named_attr_at path name offset count :
  cut (TokioNamed.read_named_attr_at path name offset count) (Named.read_named_attr_at path name offset count).
Proof. unfold TokioNamed.read_named_attr_at, Named.read_named_attr_at. apply _. Qed.
#[export] Instance cut4_read_named_attr_exact_at path name offset count :
  cut (TokioNamed.read_named_attr_exact_at path name offset count) (Named.read_named_attr_exact_at path name offset count).
Proof. unfold TokioNamed.read_named_attr_exact_at, Named.read_named_attr_exact_at. apply _. Qed.
#[export] Instance cut4_read_named_attr_to_writer `{CutWriter Wr Wr'} path name :
  Cut (S := World W R * Wr) (S' := World W' R' * Wr') (TokioNamed.read_named_attr_to_writer path name)
    (Named.read_named_attr_to_writer path name).
Proof. unfold TokioNamed.read_named_attr_to_writer, Named.read_named_attr_to_writer. apply _. Qed.
#[export] Instance cut4_read_named_attr_range_to_writer `{CutWriter Wr Wr'} path name offset count :
  Cut (S := World W R * Wr) (S' := World W' R' * Wr') (TokioNamed.read_named_attr_range_to_writer path name offset count)
    (Named.read_named_attr_range_to_writer path name offset count).
Proof. unfold TokioNamed.read_named_attr_range_to_writer, Named.read_named_attr_range_to_writer. apply _. Qed.
#[export] Instance cut4_write_named_attr_with_mode path name data mode :
  cut (TokioNamed.write_named_attr_with_mode path name data mode) (Named.write_named_attr_with_mode path name data mode).
Proof. unfold TokioNamed.write_named_attr_with_mode, Named.write_named_attr_with_mode. apply _. Qed.
#[export] Instance cut4_write_named_attr path name data :
  cut (TokioNamed.write_named_attr path name data) (Named.write_named_attr path name data).
Proof. unfold TokioNamed.write_named_attr, Named.write_named_attr. apply _. Qed.
#[export] Instance cut4_write_named_attr_at path name offset data :
  cut (TokioNamed.write_named_attr_at path name offset data) (Named.write_named_attr_at path name offset data).
Proof. unfold TokioNamed.write_named_attr_at, Named.write_named_attr_at. apply _. Qed.
#[export] Instance cut4_append_named_attr_offset path name :
  cut (TokioNamed.append_named_attr_offset path name) (Named.append_named_attr_offset path name).
Proof. unfold TokioNamed.append_named_attr_offset, Named.append_named_attr_offset. apply _. Qed.
#[export] Instance cut4_append_named_attr path name data :
  cut (TokioNamed.append_named_attr path name data) (Named.append_named_attr path name data).
Proof. unfold TokioNamed.append_named_attr, Named.append_named_attr. apply _. Qed.
#[export] Instance cut4_write_named_attr_from_reader_with_mode `{CutReader Rd Rd'} path name mode :
  Cut (S := World W R * Rd) (S' := World W' R' * Rd') (TokioNamed.write_named_attr_from_reader_with_mode path name mode)
    (Named.write_named_attr_from_reader_with_mode path name mode).
Proof. unfold TokioNamed.write_named_attr_from_reader_with_mode, Named.write_named_attr_from_reader_with_mode. apply _. Qed.
#[export] Instance cut4_write_named_attr_from_reader `{CutReader Rd Rd'} path name :
  Cut (S := World W R * Rd) (S' := World W' R' * Rd') (TokioNamed.write_named_attr_from_reader path name)
    (Named.write_named_attr_from_reader path name).
Proof. unfold TokioNamed.write_named_attr_from_reader, Named.write_named_attr_from_reader. apply _. Qed.
#[export] Instance cut4_append_named_attr_from_reader `{CutReader Rd Rd'} path name :
  Cut (S := World W R * Rd) (S' := World W' R' * Rd') (TokioNamed.append_named_attr_from_reader path name)
    (Named.append_named_attr_from_reader path name).
Proof. unfold TokioNamed.append_named_attr_from_reader, Named.append_named_attr_from_reader. apply _. Qed.
#[export] Instance cut4_set_named_attr_attrs path name attrs :
  cut (TokioNamed.set_named_attr_attrs path name attrs) (Named.set_named_attr_attrs path name attrs).
Proof. unfold TokioNamed.set_named_attr_attrs, Named.set_named_attr_attrs. apply _. Qed.
#[export] Instance cut4_set_named_attr_mode path name mode :
  cut (TokioNamed.set_named_attr_mode path name mode) (Named.set_named_attr_mode path name mode).
Proof. unfold TokioNamed.set_named_attr_mode, Named.set_named_attr_mode. apply _. Qed.
#[export] Instance cut4_set_named_attr_ownership path name owner owner_group :
  cut (TokioNamed.set_named_attr_ownership path name owner owner_group)
    (Named.set_named_attr_ownership path name owner owner_group).
Proof. unfold TokioNamed.set_named_attr_ownership, Named.set_named_attr_ownership. apply _. Qed.
#[export] Instance cut4_set_named_attr_times path name access_time modify_time :
  cut (TokioNamed.set_named_attr_times path name access_time modify_time)
    (Named.set_named_attr_times path name access_time modify_time).
Proof. unfold TokioNamed.set_named_attr_times, Named.set_named_attr_times. apply _. Qed.
#[export] Instance cut4_truncate_named_attr path name size :
  cut (TokioNamed.truncate_named_attr path name size) (Named.truncate_named_attr path name size).
Proof. unfold TokioNamed.truncate_named_attr, Named.truncate_named_attr. apply _. Qed.
#[export] Instance cut4_copied_named_mode path name :
  cut (TokioNamed.copied_named_mode path name) (Named.copied_named_mode path name).
Proof. unfold TokioNamed.copied_named_mode, Named.copied_named_mode. apply _. Qed.
#[export] Instance cut4_copy_named_attr from_path from_name to_path to_name :
  cut (TokioNamed.copy_named_attr from_path from_name to_path to_name)
    (Named.copy_named_attr from_path from_name to_path to_name).
Proof. unfold TokioNamed.copy_named_attr, Named.copy_named_attr. apply _. Qed.
#[export] Instance cut4_finish_with_named_attr_cleanup {A} result created path temp_name cleanup_context :
  cut (TokioNamed.finish_with_named_attr_cleanup (A := A) result created path temp_name cleanup_context)
    (Named.finish_with_named_attr_cleanup result created path temp_name cleanup_context).
Proof. unfold TokioNamed.finish_with_named_attr_cleanup, Named.finish_with_named_attr_cleanup. apply _. Qed.
#[export] Instance cut4_write_named_attr_atomic_with_mode path name data mode :
  cutT (TokioNamed.write_named_attr_atomic_with_mode path name data mode)
    (Named.write_named_attr_atomic_with_mode path name data mode).
Proof. unfold TokioNamed.write_named_attr_atomic_with_mode, Named.write_named_attr_atomic_with_mode. apply _. Qed.
#[export] Instance cut4_write_named_attr_atomic path name data :
  cutT (TokioNamed.write_named_attr_atomic path name data) (Named.write_named_attr_atomic path name data).
Proof. unfold TokioNamed.write_named_attr_atomic, Named.write_named_attr_atomic. apply _. Qed.
#[export] Instance cut4_copy_named_attr_atomic from_path from_name to_path to_name :
  cutT (TokioNamed.copy_named_attr_atomic from_path from_name to_path to_name)
    (Named.copy_named_attr_atomic from_path from_name to_path to_name).
Proof. unfold TokioNamed.copy_named_attr_atomic, Named.copy_named_attr_atomic. apply _. Qed.
#[export] Instance cut4_naming {Rd Rd' A} `{!Carried Rd Rd'} (m : M TempEnv Error A) :
  Cut (S := World W R * (TempEnv * Rd)) (S' := World W' R' * (TempEnv * Rd')) (Named.naming m) (Named.naming m).
Proof.
  split; [intros [w [t r]]; unfold Named.naming, zoom; simpl; by destruct (m t)|]. intros [w [t r]].
  unfold dropped_within. change (erase (w, (t, r))) with (erase w : World W' R', (t, carry r : Rd')).
  unfold Named.naming, zoom. simpl. by destruct (m t) as [t' [a|e|[]]].
Qed.
#[export] Instance cut4_reading {Rd Rd' A} `{!Carried Rd Rd'} (m : M (World W R * Rd) Error A)
    (b : M (World W' R' * Rd') Error A) :
  Cut m b → Cut (Named.reading m) (Named.reading b).
Proof. by apply cut_zoom. Qed.
#[export] Instance cut4_write_named_attr_atomic_from_reader_with_mode `{CutReader Rd Rd'} path name mode :
  Cut (S := World W R * (TempEnv * Rd)) (S' := World W' R' * (TempEnv * Rd'))
    (TokioNamed.write_named_attr_atomic_from_reader_with_mode path name mode)
    (Named.write_named_attr_atomic_from_reader_with_mode path name mode).
Proof. unfold TokioNamed.write_named_attr_atomic_from_reader_with_mode, Named.write_named_attr_atomic_from_reader_with_mode. apply _. Qed.
#[export] Instance cut4_write_named_attr_atomic_from_reader `{CutReader Rd Rd'} path name :
  Cut (S := World W R * (TempEnv * Rd)) (S' := World W' R' * (TempEnv * Rd'))
    (TokioNamed.write_named_attr_atomic_from_reader path name)
    (Named.write_named_attr_atomic_from_reader path name).
Proof. unfold TokioNamed.write_named_attr_atomic_from_reader, Named.write_named_attr_atomic_from_reader. apply _. Qed.
#[export] Instance cut4_write_atomic_from_reader_with_mode `{CutReader Rd Rd'} path mode :
  Cut (S := World W R * (TempEnv * Rd)) (S' := World W' R' * (TempEnv * Rd'))
    (TokioNamed.write_atomic_from_reader_with_mode path mode)
    (Named.write_atomic_from_reader_with_mode path mode).
Proof. unfold TokioNamed.write_atomic_from_reader_with_mode, Named.write_atomic_from_reader_with_mode. apply _. Qed.
#[export] Instance cut4_write_atomic_from_reader `{CutReader Rd Rd'} path :
  Cut (S := World W R * (TempEnv * Rd)) (S' := World W' R' * (TempEnv * Rd'))
    (TokioNamed.write_atomic_from_reader path)
    (Named.write_atomic_from_reader path).
Proof. unfold TokioNamed.write_atomic_from_reader, Named.write_atomic_from_reader. apply _. Qed.

End named.

(** ** The rest of the protocol *)

Section protocol.
Context {W R W' R' H : Type} `{Nfs4Cut W R W' R' H}.
#[local] Abbreviation cut m b := (Cut (S := World W R) (S' := World W' R') m b).
#[local] Abbreviation cutT m b := (Cut (S := World W R * TempEnv) (S' := World W' R' * TempEnv) m b).

#[export] Instance cut4_public_supported_attr_request path attrs :
  cut (TokioProtocol.public_supported_attr_request path attrs) (Protocol.public_supported_attr_request path attrs).
Proof. unfold TokioProtocol.public_supported_attr_request, Protocol.public_supported_attr_request. apply _. Qed.
#[export] Instance cut4_public_read_dir_with_limit path max_entries :
  cut (TokioProtocol.public_read_dir_with_limit path max_entries) (Protocol.public_read_dir_with_limit path max_entries).
Proof. unfold TokioProtocol.public_read_dir_with_limit, Protocol.public_read_dir_with_limit. apply _. Qed.
#[export] Instance cut4_public_read_dir path : cut (TokioProtocol.public_read_dir path) (Protocol.public_read_dir path).
Proof. unfold TokioProtocol.public_read_dir, Protocol.public_read_dir. apply _. Qed.
#[export] Instance cut4_public_read_dir_limited path max_entries :
  cut (TokioProtocol.public_read_dir_limited path max_entries) (Protocol.public_read_dir_limited path max_entries).
Proof. unfold TokioProtocol.public_read_dir_limited, Protocol.public_read_dir_limited. apply _. Qed.
#[export] Instance cut4_public_read_dir_page_limited path cursor max_entries :
  cut (TokioProtocol.public_read_dir_page_limited path cursor max_entries)
    (Protocol.public_read_dir_page_limited path cursor max_entries).
Proof. unfold TokioProtocol.public_read_dir_page_limited, Protocol.public_read_dir_page_limited. apply _. Qed.
#[export] Instance cut4_public_read_dir_page path cursor :
  cut (TokioProtocol.public_read_dir_page path cursor) (Protocol.public_read_dir_page path cursor).
Proof. unfold TokioProtocol.public_read_dir_page, Protocol.public_read_dir_page. apply _. Qed.
#[export] Instance cut4_public_fsstat path : cut (TokioProtocol.public_fsstat path) (Protocol.public_fsstat path).
Proof. unfold TokioProtocol.public_fsstat, Protocol.public_fsstat. apply _. Qed.
#[export] Instance cut4_public_fsinfo path : cut (TokioProtocol.public_fsinfo path) (Protocol.public_fsinfo path).
Proof. unfold TokioProtocol.public_fsinfo, Protocol.public_fsinfo. apply _. Qed.
#[export] Instance cut4_public_pathconf path : cut (TokioProtocol.public_pathconf path) (Protocol.public_pathconf path).
Proof. unfold TokioProtocol.public_pathconf, Protocol.public_pathconf. apply _. Qed.
#[export] Instance cut4_parent_supported_attrs path :
  cut (TokioProtocol.parent_supported_attrs path) (Protocol.parent_supported_attrs path).
Proof. unfold TokioProtocol.parent_supported_attrs, Protocol.parent_supported_attrs. apply _. Qed.
#[export] Instance cut4_parent_getattr_values path attr_request :
  cut (TokioProtocol.parent_getattr_values path attr_request) (Protocol.parent_getattr_values path attr_request).
Proof. unfold TokioProtocol.parent_getattr_values, Protocol.parent_getattr_values; same_helpers. apply _. Qed.
#[export] Instance cut4_parent_supported_attr_values path attrs :
  cut (TokioProtocol.parent_supported_attr_values path attrs) (Protocol.parent_supported_attr_values path attrs).
Proof. unfold TokioProtocol.parent_supported_attr_values, Protocol.parent_supported_attr_values. apply _. Qed.
#[export] Instance cut4_parent_getattr path : cut (TokioProtocol.parent_getattr path) (Protocol.parent_getattr path).
Proof. unfold TokioProtocol.parent_getattr, Protocol.parent_getattr. apply _. Qed.
#[export] Instance cut4_parent_supported_attr_request path attrs :
  cut (TokioProtocol.parent_supported_attr_request path attrs) (Protocol.parent_supported_attr_request path attrs).
Proof. unfold TokioProtocol.parent_supported_attr_request, Protocol.parent_supported_attr_request. apply _. Qed.
#[export] Instance cut4_parent_read_dir_with_limit path max_entries :
  cut (TokioProtocol.parent_read_dir_with_limit path max_entries) (Protocol.parent_read_dir_with_limit path max_entries).
Proof. unfold TokioProtocol.parent_read_dir_with_limit, Protocol.parent_read_dir_with_limit. apply _. Qed.
#[export] Instance cut4_parent_read_dir path : cut (TokioProtocol.parent_read_dir path) (Protocol.parent_read_dir path).
Proof. unfold TokioProtocol.parent_read_dir, Protocol.parent_read_dir. apply _. Qed.
#[export] Instance cut4_parent_read_dir_limited path max_entries :
  cut (TokioProtocol.parent_read_dir_limited path max_entries) (Protocol.parent_read_dir_limited path max_entries).
Proof. unfold TokioProtocol.parent_read_dir_limited, Protocol.parent_read_dir_limited. apply _. Qed.
#[export] Instance cut4_parent_read_dir_page_limited path cursor max_entries :
  cut (TokioProtocol.parent_read_dir_page_limited path cursor max_entries)
    (Protocol.parent_read_dir_page_limited path cursor max_entries).
Proof. unfold TokioProtocol.parent_read_dir_page_limited, Protocol.parent_read_dir_page_limited. apply _. Qed.
#[export] Instance cut4_parent_read_dir_page path cursor :
  cut (TokioProtocol.parent_read_dir_page path cursor) (Protocol.parent_read_dir_page path cursor).
Proof. unfold TokioProtocol.parent_read_dir_page, Protocol.parent_read_dir_page. apply _. Qed.
#[export] Instance cut4_parent_fsstat path : cut (TokioProtocol.parent_fsstat path) (Protocol.parent_fsstat path).
Proof. unfold TokioProtocol.parent_fsstat, Protocol.parent_fsstat. apply _. Qed.
#[export] Instance cut4_parent_fsinfo path : cut (TokioProtocol.parent_fsinfo path) (Protocol.parent_fsinfo path).
Proof. unfold TokioProtocol.parent_fsinfo, Protocol.parent_fsinfo. apply _. Qed.
#[export] Instance cut4_parent_pathconf path : cut (TokioProtocol.parent_pathconf path) (Protocol.parent_pathconf path).
Proof. unfold TokioProtocol.parent_pathconf, Protocol.parent_pathconf. apply _. Qed.
#[export] Instance cut4_parent_access path access :
  cut (TokioProtocol.parent_access path access) (Protocol.parent_access path access).
Proof. unfold TokioProtocol.parent_access, Protocol.parent_access. apply _. Qed.
#[export] Instance cut4_reconnect : cut TokioProtocol.reconnect Protocol.reconnect.
Proof. unfold TokioProtocol.reconnect, Protocol.reconnect. apply _. Qed.
#[export] Instance cut4_backchannel_ctl callback_program callback_sec_parms :
  cut (TokioProtocol.backchannel_ctl callback_program callback_sec_parms)
    (Protocol.backchannel_ctl callback_program callback_sec_parms).
Proof. unfold TokioProtocol.backchannel_ctl, Protocol.backchannel_ctl. apply _. Qed.
#[export] Instance cut4_bind_conn_to_session_with_options direction use_conn_in_rdma_mode :
  cut (TokioProtocol.bind_conn_to_session_with_options direction use_conn_in_rdma_mode)
    (Protocol.bind_conn_to_session_with_options direction use_conn_in_rdma_mode).
Proof. unfold TokioProtocol.bind_conn_to_session_with_options, Protocol.bind_conn_to_session_with_options. apply _. Qed.
#[export] Instance cut4_bind_conn_to_session direction :
  cut (TokioProtocol.bind_conn_to_session direction) (Protocol.bind_conn_to_session direction).
Proof. unfold TokioProtocol.bind_conn_to_session, Protocol.bind_conn_to_session. apply _. Qed.
#[export] Instance cut4_set_ssv ssv digest : cut (TokioProtocol.set_ssv ssv digest) (Protocol.set_ssv ssv digest).
Proof. unfold TokioProtocol.set_ssv, Protocol.set_ssv. apply _. Qed.
#[export] Instance cut4_secinfo path : cut (TokioProtocol.secinfo path) (Protocol.secinfo path).
Proof. unfold TokioProtocol.secinfo, Protocol.secinfo; same_helpers. apply _. Qed.
#[export] Instance cut4_secinfo_no_name path style :
  cut (TokioProtocol.secinfo_no_name path style) (Protocol.secinfo_no_name path style).
Proof. unfold TokioProtocol.secinfo_no_name, Protocol.secinfo_no_name. apply _. Qed.
#[export] Instance cut4_secinfo_current path : cut (TokioProtocol.secinfo_current path) (Protocol.secinfo_current path).
Proof. unfold TokioProtocol.secinfo_current, Protocol.secinfo_current. apply _. Qed.
#[export] Instance cut4_secinfo_parent path : cut (TokioProtocol.secinfo_parent path) (Protocol.secinfo_parent path).
Proof. unfold TokioProtocol.secinfo_parent, Protocol.secinfo_parent. apply _. Qed.
#[export] Instance cut4_verify_attrs path attrs :
  cut (TokioProtocol.verify_attrs path attrs) (Protocol.verify_attrs path attrs).
Proof. unfold TokioProtocol.verify_attrs, Protocol.verify_attrs. apply _. Qed.
#[export] Instance cut4_nverify_attrs path attrs :
  cut (TokioProtocol.nverify_attrs path attrs) (Protocol.nverify_attrs path attrs).
Proof. unfold TokioProtocol.nverify_attrs, Protocol.nverify_attrs. apply _. Qed.
#[export] Instance cut4_require_version operation minimum :
  cut (TokioProtocol.require_version operation minimum) (Protocol.require_version operation minimum).
Proof. unfold TokioProtocol.require_version, Protocol.require_version. apply _. Qed.
#[export] Instance cut4_want_delegation_with_claim path want claim :
  cut (TokioProtocol.want_delegation_with_claim path want claim) (Protocol.want_delegation_with_claim path want claim).
Proof. unfold TokioProtocol.want_delegation_with_claim, Protocol.want_delegation_with_claim. apply _. Qed.
#[export] Instance cut4_want_delegation path want :
  cut (TokioProtocol.want_delegation path want) (Protocol.want_delegation path want).
Proof. unfold TokioProtocol.want_delegation, Protocol.want_delegation. apply _. Qed.
#[export] Instance cut4_get_dir_delegation path args :
  cut (TokioProtocol.get_dir_delegation path args) (Protocol.get_dir_delegation path args).
Proof. unfold TokioProtocol.get_dir_delegation, Protocol.get_dir_delegation. apply _. Qed.
#[export] Instance cut4_return_delegation path stateid :
  cut (TokioProtocol.return_delegation path stateid) (Protocol.return_delegation path stateid).
Proof. unfold TokioProtocol.return_delegation, Protocol.return_delegation. apply _. Qed.
#[export] Instance cut4_purge_delegations : cut TokioProtocol.purge_delegations Protocol.purge_delegations.
Proof. unfold TokioProtocol.purge_delegations, Protocol.purge_delegations. apply _. Qed.
#[export] Instance cut4_io_advise_opened opened offset count hints :
  cut (TokioProtocol.io_advise_opened opened offset count hints) (Protocol.io_advise_opened opened offset count hints).
Proof. unfold TokioProtocol.io_advise_opened, Protocol.io_advise_opened. apply _. Qed.
#[export] Instance cut4_io_advise path offset count hints :
  cut (TokioProtocol.io_advise path offset count hints) (Protocol.io_advise path offset count hints).
Proof. unfold TokioProtocol.io_advise, Protocol.io_advise. apply _. Qed.
#[export] Instance cut4_read_plus_opened opened offset count :
  cut (TokioProtocol.read_plus_opened opened offset count) (Protocol.read_plus_opened opened offset count).
Proof. unfold TokioProtocol.read_plus_opened, Protocol.read_plus_opened. apply _. Qed.
#[export] Instance cut4_read_plus path offset count :
  cut (TokioProtocol.read_plus path offset count) (Protocol.read_plus path offset count).
Proof. unfold TokioProtocol.read_plus, Protocol.read_plus. apply _. Qed.
#[export] Instance cut4_seek_opened opened offset what :
  cut (TokioProtocol.seek_opened opened offset what) (Protocol.seek_opened opened offset what).
Proof. unfold TokioProtocol.seek_opened, Protocol.seek_opened. apply _. Qed.
#[export] Instance cut4_seek path offset what : cut (TokioProtocol.seek path offset what) (Protocol.seek path offset what).
Proof. unfold TokioProtocol.seek, Protocol.seek. apply _. Qed.
#[export] Instance cut4_seek_data path offset : cut (TokioProtocol.seek_data path offset) (Protocol.seek_data path offset).
Proof. unfold TokioProtocol.seek_data, Protocol.seek_data. apply _. Qed.
#[export] Instance cut4_seek_hole path offset : cut (TokioProtocol.seek_hole path offset) (Protocol.seek_hole path offset).
Proof. unfold TokioProtocol.seek_hole, Protocol.seek_hole. apply _. Qed.
#[export] Instance cut4_write_same_opened opened block stable :
  cut (TokioProtocol.write_same_opened opened block stable) (Protocol.write_same_opened opened block stable).
Proof. unfold TokioProtocol.write_same_opened, Protocol.write_same_opened. apply _. Qed.
#[export] Instance cut4_write_same_with_stability path block stable :
  cut (TokioProtocol.write_same_with_stability path block stable) (Protocol.write_same_with_stability path block stable).
Proof. unfold TokioProtocol.write_same_with_stability, Protocol.write_same_with_stability. apply _. Qed.
#[export] Instance cut4_write_same path block : cut (TokioProtocol.write_same path block) (Protocol.write_same path block).
Proof. unfold TokioProtocol.write_same, Protocol.write_same. apply _. Qed.
#[export] Instance cut4_finish_both {A} target source context (body : M (World W R) Error A) (body_ : M (World W'
    R') Error A) :
  Cut body body_ →
  cut (TokioProtocol.finish_both target source context body)
    (Protocol.finish_both target source context body_).
Proof. intros. unfold TokioProtocol.finish_both, Protocol.finish_both. apply _. Qed.
#[export] Instance cut4_copy_opened_range_offload source target options :
  cut (TokioProtocol.copy_opened_range_offload source target options)
    (Protocol.copy_opened_range_offload source target options).
Proof. unfold TokioProtocol.copy_opened_range_offload, Protocol.copy_opened_range_offload. apply _. Qed.
#[export] Instance cut4_copy_range_offload_with_options from to src_offset dst_offset count consecutive synchronous
    source_servers :
  cut (TokioProtocol.copy_range_offload_with_options from to src_offset dst_offset count consecutive synchronous source_servers)
    (Protocol.copy_range_offload_with_options from to src_offset dst_offset count consecutive synchronous source_servers).
Proof. unfold TokioProtocol.copy_range_offload_with_options, Protocol.copy_range_offload_with_options. apply _. Qed.
#[export] Instance cut4_copy_range_offload from to src_offset dst_offset count :
  cut (TokioProtocol.copy_range_offload from to src_offset dst_offset count)
    (Protocol.copy_range_offload from to src_offset dst_offset count).
Proof. unfold TokioProtocol.copy_range_offload, Protocol.copy_range_offload. apply _. Qed.
#[export] Instance cut4_copy_notify_opened source destination_server :
  cut (TokioProtocol.copy_notify_opened source destination_server) (Protocol.copy_notify_opened source destination_server).
Proof. unfold TokioProtocol.copy_notify_opened, Protocol.copy_notify_opened. apply _. Qed.
#[export] Instance cut4_copy_notify source destination_server :
  cut (TokioProtocol.copy_notify source destination_server) (Protocol.copy_notify source destination_server).
Proof. unfold TokioProtocol.copy_notify, Protocol.copy_notify. apply _. Qed.
#[export] Instance cut4_copy_notify_with_stateid source stateid destination_server :
  cut (TokioProtocol.copy_notify_with_stateid source stateid destination_server)
    (Protocol.copy_notify_with_stateid source stateid destination_server).
Proof. unfold TokioProtocol.copy_notify_with_stateid, Protocol.copy_notify_with_stateid. apply _. Qed.
#[export] Instance cut4_offload_status stateid :
  cut (TokioProtocol.offload_status stateid) (Protocol.offload_status stateid).
Proof. unfold TokioProtocol.offload_status, Protocol.offload_status. apply _. Qed.
#[export] Instance cut4_offload_cancel stateid :
  cut (TokioProtocol.offload_cancel stateid) (Protocol.offload_cancel stateid).
Proof. unfold TokioProtocol.offload_cancel, Protocol.offload_cancel. apply _. Qed.
#[export] Instance cut4_clone_opened_range source target src_offset dst_offset count :
  cut (TokioProtocol.clone_opened_range source target src_offset dst_offset count)
    (Protocol.clone_opened_range source target src_offset dst_offset count).
Proof. unfold TokioProtocol.clone_opened_range, Protocol.clone_opened_range. apply _. Qed.
#[export] Instance cut4_clone_range from to src_offset dst_offset count :
  cut (TokioProtocol.clone_range from to src_offset dst_offset count)
    (Protocol.clone_range from to src_offset dst_offset count).
Proof. unfold TokioProtocol.clone_range, Protocol.clone_range. apply _. Qed.
#[export] Instance cut4_get_device_info_with_notify device_id layout_type max_count notify_types :
  cut (TokioProtocol.get_device_info_with_notify device_id layout_type max_count notify_types)
    (Protocol.get_device_info_with_notify device_id layout_type max_count notify_types).
Proof. unfold TokioProtocol.get_device_info_with_notify, Protocol.get_device_info_with_notify. apply _. Qed.
#[export] Instance cut4_get_device_info device_id layout_type :
  cut (TokioProtocol.get_device_info device_id layout_type) (Protocol.get_device_info device_id layout_type).
Proof. unfold TokioProtocol.get_device_info, Protocol.get_device_info. apply _. Qed.
#[export] Instance cut4_list_device_page_limited layout_type cursor max_device_ids :
  cut (TokioProtocol.list_device_page_limited layout_type cursor max_device_ids)
    (Protocol.list_device_page_limited layout_type cursor max_device_ids).
Proof. unfold TokioProtocol.list_device_page_limited, Protocol.list_device_page_limited. apply _. Qed.
#[export] Instance cut4_list_device_page layout_type cursor :
  cut (TokioProtocol.list_device_page layout_type cursor) (Protocol.list_device_page layout_type cursor).
Proof. unfold TokioProtocol.list_device_page, Protocol.list_device_page. apply _. Qed.
#[export] Instance cut4_list_devices_step layout_type max_device_ids l :
  cut (TokioProtocol.list_devices_step layout_type max_device_ids l)
    (Protocol.list_devices_step layout_type max_device_ids l).
Proof. unfold TokioProtocol.list_devices_step, Protocol.list_devices_step. apply _. Qed.
#[export] Instance cut4_list_devices_limited fuel layout_type max_device_ids :
  cut (TokioProtocol.list_devices_limited fuel layout_type max_device_ids)
    (Protocol.list_devices_limited fuel layout_type max_device_ids).
Proof. unfold TokioProtocol.list_devices_limited, Protocol.list_devices_limited. apply _. Qed.
#[export] Instance cut4_list_devices fuel layout_type :
  cut (TokioProtocol.list_devices fuel layout_type) (Protocol.list_devices fuel layout_type).
Proof. unfold TokioProtocol.list_devices, Protocol.list_devices. apply _. Qed.
#[export] Instance cut4_layout_get_opened opened layout_type iomode offset length min_length max_count
    signal_layout_avail :
  cut (TokioProtocol.layout_get_opened opened layout_type iomode offset length min_length max_count signal_layout_avail)
    (Protocol.layout_get_opened opened layout_type iomode offset length min_length max_count signal_layout_avail).
Proof. unfold TokioProtocol.layout_get_opened, Protocol.layout_get_opened. apply _. Qed.
#[export] Instance cut4_layout_get_with_options path layout_type iomode offset length min_length max_count
    signal_layout_avail :
  cut (TokioProtocol.layout_get_with_options path layout_type iomode offset length min_length max_count signal_layout_avail)
    (Protocol.layout_get_with_options path layout_type iomode offset length min_length max_count signal_layout_avail).
Proof. unfold TokioProtocol.layout_get_with_options, Protocol.layout_get_with_options. apply _. Qed.
#[export] Instance cut4_layout_get path layout_type iomode offset length min_length :
  cut (TokioProtocol.layout_get path layout_type iomode offset length min_length)
    (Protocol.layout_get path layout_type iomode offset length min_length).
Proof. unfold TokioProtocol.layout_get, Protocol.layout_get. apply _. Qed.
#[export] Instance cut4_layout_commit_with_options path offset length stateid last_write_offset time_modify
    layout_update reclaim :
  cut (TokioProtocol.layout_commit_with_options path offset length stateid last_write_offset time_modify layout_update reclaim)
    (Protocol.layout_commit_with_options path offset length stateid last_write_offset time_modify layout_update reclaim).
Proof. unfold TokioProtocol.layout_commit_with_options, Protocol.layout_commit_with_options. apply _. Qed.
#[export] Instance cut4_layout_commit path offset length stateid layout_update :
  cut (TokioProtocol.layout_commit path offset length stateid layout_update)
    (Protocol.layout_commit path offset length stateid layout_update).
Proof. unfold TokioProtocol.layout_commit, Protocol.layout_commit. apply _. Qed.
#[export] Instance cut4_layout_error path offset length stateid errors :
  cut (TokioProtocol.layout_error path offset length stateid errors)
    (Protocol.layout_error path offset length stateid errors).
Proof. unfold TokioProtocol.layout_error, Protocol.layout_error. apply _. Qed.
#[export] Instance cut4_layout_stats path offset length stateid read write device_id layout_update :
  cut (TokioProtocol.layout_stats path offset length stateid read write device_id layout_update)
    (Protocol.layout_stats path offset length stateid read write device_id layout_update).
Proof. unfold TokioProtocol.layout_stats, Protocol.layout_stats. apply _. Qed.
#[export] Instance cut4_layout_return_file path layout_type iomode offset length stateid body :
  cut (TokioProtocol.layout_return_file path layout_type iomode offset length stateid body)
    (Protocol.layout_return_file path layout_type iomode offset length stateid body).
Proof. unfold TokioProtocol.layout_return_file, Protocol.layout_return_file. apply _. Qed.
#[export] Instance cut4_layout_return_fsid path layout_type iomode :
  cut (TokioProtocol.layout_return_fsid path layout_type iomode) (Protocol.layout_return_fsid path layout_type iomode).
Proof. unfold TokioProtocol.layout_return_fsid, Protocol.layout_return_fsid. apply _. Qed.
#[export] Instance cut4_layout_return_all layout_type iomode :
  cut (TokioProtocol.layout_return_all layout_type iomode) (Protocol.layout_return_all layout_type iomode).
Proof. unfold TokioProtocol.layout_return_all, Protocol.layout_return_all. apply _. Qed.

End protocol.
