(* ===== verification/TokioV4Net.v ===== *)
(** * The asynchronous NFSv4 client over RPC connections, and what it sends

    [RpcClient_nfs4] over an asynchronous connection has [Nfs4Cut] when the
    sockets, the runtime's timers and its tasks do ([CutStream],
    [CutNetwork4]).  [logged_cut]: with a record of the COMPOUNDs, what shows
    of a run is which COMPOUNDs were sent, and which answers came before the
    last of them; so a run that is dropped has sent a beginning of what the
    blocking client sends, and has executed no change twice. *)

From Stdlib Require Import Strings.String Strings.Byte.
From stdpp Require Import list.
From S2P Require Import Prelude Text Xdr Status Errors Rpc RpcSpec V3Client V3Connect V4Attr V4Ops V4Results V4ClientSpec.
From S2P Require Import V4Client V4Session V4SessionSpec V4Trace V4Net Cut TokioRpc TokioRpcSpec TokioV4 TokioV4Spec.
Import Operation (Operation).
Import CompoundResponse (CompoundResponse).
Import V4Session.ClientBuilder (ClientBuilder).
Import V4Session.Client (Client).

#[local] Open Scope Z_scope.
#[local] Hint Mode Nfs4Rpc ! ! : typeclass_instances.
#[local] Hint Mode Nfs4Net ! ! : typeclass_instances.

(** ** What was sent *)

(** A COMPOUND, and the answer to the one before. *)
Definition sending : Type := str * list Operation * option (option CompoundResponse).

Fixpoint sent (prev : option (option CompoundResponse)) (log : list entry) : list sending :=
  match log with
  | [] => []
  | e :: log => (entry_tag e, entry_operations e, prev) :: sent (Some (entry_response e)) log
  end.

Lemma sent_app prev L L' :
  sent prev (L ++ L') = sent prev L ++ sent (match list.last L with Some e => Some (entry_response e) | None => prev end) L'.
Proof.
  revert prev. induction L as [|e L IH]; intros prev; [done|]. cbn [sent app]. rewrite IH, list.last_cons. cbn [app].
  by destruct (list.last L).
Qed.

(** A record whose sendings are a beginning of another's agrees with it up to
    the last answer. *)
Lemma sent_prefix prev L e L' :
  sent prev (L ++ [e]) `prefix_of` sent prev L' →
  ∃ e' L2, L' = L ++ e' :: L2 ∧ entry_tag e' = entry_tag e ∧ entry_operations e' = entry_operations e.
Proof.
  revert prev L'. induction L as [|e0 L IH]; intros prev [|e' L'] Hp; simpl in Hp.
  - by apply prefix_nil_not in Hp.
  - apply prefix_cons_inv_1 in Hp. simplify_eq. by exists e', L'.
  - by apply prefix_nil_not in Hp.
  - pose proof (prefix_cons_inv_1 _ _ _ _ Hp). apply prefix_cons_inv_2 in Hp. simplify_eq.
    destruct L as [|e1 L].
    + destruct L' as [|e2 L']; [by apply prefix_nil_not in Hp|]. simpl in Hp. apply prefix_cons_inv_1 in Hp. simplify_eq.
      exists e2, L'. split; [|done]. f_equal. destruct e0, e'; simpl in *; by subst.
    + destruct L' as [|e2 L']; [by apply prefix_nil_not in Hp|]. pose proof Hp as Hp'. simpl in Hp'.
      apply prefix_cons_inv_1 in Hp'. assert (entry_response e0 = entry_response e') as Hr by congruence.
      rewrite Hr in Hp. destruct (IH _ _ Hp) as (e3 & L2 & -> & ? & ?). exists e3, L2. split; [|done].
      simpl. f_equal. destruct e0, e'; simpl in *; by subst.
Qed.

Section logged.
Context {W R W' R' H : Type} `{Nfs4Cut W R W' R' H}.

#[export] Instance logged_erasure : Erasure (W * list entry) (W' * list entry) | 0 := λ s, (erase s.1, s.2).
#[export] Instance logged_history : History (W' * list entry) sending | 0 := λ s, sent None s.2.

Lemma cutR_unlogged {E A A'} (V : A → A' → Prop) (m : M W E A) (b : M W' E A') :
  CutR V m b → CutR (S := W * list entry) (S' := W' * list entry) V (unlogged m) (unlogged b).
Proof.
  intros [_ Hr]. assert (∀ t, (unlogged b t).1 = ((b t.1).1, t.2)) as Heq
    by (intros t; unfold unlogged, zoom; by destruct (b t.1)).
  split; [intros t; by rewrite Heq|]. intros [s log]. specialize (Hr s). unfold dropped_within. rewrite Heq.
  unfold unlogged, zoom. simpl. destruct (m s) as [s1 [a|e|[]]]; [..|done]; destruct Hr as [Hs Ho];
    destruct (b (erase s)) as [t o]; simpl in *; by subst.
Qed.
Lemma cut_unlogged {E A} (m : M W E A) (b : M W' E A) :
  Cut m b → Cut (S := W * list entry) (S' := W' * list entry) (unlogged m) (unlogged b).
Proof. intros Hm%cut_rel. by apply cut_rel, cutR_unlogged. Qed.

#[export] Instance logged_cut : Nfs4Cut (W * list entry) R (W' * list entry) R' sending.
Proof.
  split.
  - apply (cut_conn_surj (W := W) (W' := W')).
  - intros tag v ops. pose proof (cut_rpc_compound (W := W) (W' := W') tag v ops) as [_ Hr]. split.
    + intros [[t log] r]. simpl. destruct (rpc_compound tag v ops (t, r)) as [[t' r'] o]. simpl.
      unfold hist, pair_history, hist, logged_history. simpl. rewrite sent_app. by apply prefix_app_r.
    + intros [[s log] r]. specialize (Hr (s, r)). unfold dropped_within in *. simpl.
      change (erase (s, r)) with (erase s : W', carry r : R') in Hr.
      destruct (rpc_compound tag v ops (s, r)) as [[s' r'] [a|e|[]]]; try (by rewrite Hr).
      destruct (rpc_compound tag v ops (erase s, carry r)) as [[t' r2] o].
      unfold hist, pair_history, hist, logged_history. simpl. rewrite !sent_app. split; [by apply prefix_app_r|done].
  - intros size r. apply (cut_rpc_set_max (W := W) (W' := W')).
  - intros builder. apply cutR_unlogged, cut_net_connect.
  - intros. apply cut_unlogged, cut_lease_start.
  - intros. apply cut_unlogged, cut_lease_failed.
  - intros. apply cut_unlogged, cut_lease_stop.
  - intros. apply cut_unlogged, cut_net_sleep.
Qed.

End logged.

(** ** Over RPC connections *)

#[export] Instance rpc_carried {St St'} `{!Erasure St St'} : Carried (TokioRpc.RpcClient St) (RpcClient St') := erase.

(** Opening a connection, tasks and timers do what sockets, threads and
    [thread::sleep] do for the blocking client, or are dropped; a socket of the
    blocking client takes any timeout. *)
Class CutNetwork4 (W St W' Addr St' H : Type) `{!AsyncNetwork W St, !AsyncTasks W (TokioRpc.RpcClient St),
    !Network W' Addr St', !LeaseThreads W' (RpcClient St'), !Erasure W W', !History W' H, !Erasure St St'} := {
  cut_stream_surj : Surj (=) (erase : St → St');
  cut_open host port timeout :
    CutR (S := W) (S' := W') (λ st st', st' = erase st) (TokioRpc.connect_tcp_stream host port timeout)
      (connect_stream host port timeout);
  cut_set_nodelay (st : St) : Cut (S := W) (S' := W') (async_set_nodelay st) (net_set_nodelay (erase st));
  cut_stamp (s : W) : async_stamp s = net_stamp (erase s);
  cut_set_timeout (st : St') timeout (s : W') :
    net_set_read_timeout st timeout s = (s, Ok tt) ∧ net_set_write_timeout st timeout s = (s, Ok tt);
  cut_task_spawn interval c : Cut (S := W) (S' := W') (task_spawn interval c) (thread_start interval (carry c));
  cut_task_failed thread :
    Cut (S := W) (S' := W') (task_failed (R := TokioRpc.RpcClient St) thread) (thread_failed (R := RpcClient St') thread);
  cut_task_stop thread :
    Cut (S := W) (S' := W') (task_stop (R := TokioRpc.RpcClient St) thread) (thread_stop (R := RpcClient St') thread);
  cut_task_sleep delay : Cut (S := W) (S' := W') (task_sleep (R := TokioRpc.RpcClient St) delay) (mret tt);
}.

Section rpc.
Context {W St W' Addr St' H H' : Type} `{CutStream St St' H'}.
Context `{!AsyncNetwork W St, !AsyncTasks W (TokioRpc.RpcClient St), !Network W' Addr St', !LeaseThreads W' (RpcClient St')}.
Context `{!Erasure W W', !History W' H, !CutNetwork4 W St W' Addr St' H}.

Lemma rpc_surj : Surj (=) (carry : TokioRpc.RpcClient St → RpcClient St').
Proof.
  intros [st' x auth max i]. destruct (cut_stream_surj (W := W) (W' := W') st') as [st <-].
  by exists (TokioRpc.mkRpcClient st x auth max None i).
Qed.

Lemma cut_raw_compound_with_rpc tag minor_version operations :
  Cut (TokioV4.raw_compound_with_rpc tag minor_version operations) (raw_compound_with_rpc tag minor_version operations).
Proof.
  unfold TokioV4.raw_compound_with_rpc, raw_compound_with_rpc. change TokioV4.decode_compound with decode_compound. apply _.
Qed.

(** Connecting without the timeouts, which a blocking socket takes. *)
Lemma connect_rpc_run builder (n : W') :
  connect_rpc (St := St') builder n
  = (stream ← connect_stream (ClientBuilder.host builder) (ClientBuilder.port builder) (ClientBuilder.timeout builder);
     RpcClient_create stream (Auth_Sys (ClientBuilder.auth builder))) n.
Proof.
  unfold connect_rpc, RpcClient_connect_with_timeout, RpcClient_set_timeout, mbind, M_bind, map_err.
  destruct (connect_stream _ _ _ n) as [n1 [st|e|f]]; [|done..].
  destruct (RpcClient_create st _ n1) as [n2 [rpc|e|f]]; [|done..].
  destruct (cut_set_timeout (stream rpc) (ClientBuilder.timeout builder) n2) as [Hr Hw].
  repeat (first [rewrite Hr|rewrite Hw]; simpl). done.
Qed.

Lemma cut_connect_rpc builder :
  CutR (S := W) (S' := W') (λ r r', r' = carry r) (TokioV4.connect_rpc (St := St) builder)
    (connect_rpc (St := St') builder).
Proof.
  eapply cutR_ext; [intros n; symmetry; apply connect_rpc_run|].
  apply (cutR_ext _ _ (rpc ← (st ← connect_stream (ClientBuilder.host builder) (ClientBuilder.port builder)
      (ClientBuilder.timeout builder); RpcClient_create st (Auth_Sys (ClientBuilder.auth builder))); mret rpc)).
  { intros n. unfold mbind, M_bind. destruct (connect_stream _ _ _ n) as [n1 [st|e|f]]; [|done..].
    by destruct (RpcClient_create st _ n1) as [n2 [rpc|e|f]]. }
  apply (cutR_bind_onto (carry : TokioRpc.RpcClient St → RpcClient St')); [apply rpc_surj| |intros r; by apply cutR_ret].
  apply (cutR_bind_onto (erase : St → St')); [apply cut_stream_surj|apply cut_open|intros st].
  apply cutR_then; [apply cut_map_err, cut_set_nodelay|intros _].
  apply cutR_then; [apply cut_gets, cut_stamp|intros stamp]. by apply cutR_ret.
Qed.

#[export] Instance tokio4_cut : Nfs4Cut W (TokioRpc.RpcClient St) W' (RpcClient St') H.
Proof.
  split.
  - apply rpc_surj.
  - intros tag v ops. apply cut_snd. intros c. destruct (cut_raw_compound_with_rpc tag v ops) as [_ Hr].
    specialize (Hr c). by destruct (TokioV4.raw_compound_with_rpc tag v ops c) as [c' [a|e|[]]].
  - intros size c. simpl. unfold TokioRpc.set_max_record_size, set_max_record_size, mbind, M_bind, lift.
    by destruct (validate_max_record_size size).
  - apply cut_connect_rpc.
  - apply cut_task_spawn.
  - apply cut_task_failed.
  - apply cut_task_stop.
  - apply cut_task_sleep.
Qed.

End rpc.

(** ** Changes, when a call is dropped *)

Section at_most_once.
Context {W R W' R' H : Type} `{Nfs4Cut W R W' R' H} `{!Nfs4Laws W' R'}.

(** A COMPOUND whose answer was lost, behind a beginning of a record. *)
Lemma executed_upto_cut operations (n : W' * list entry) L :
  executed_upto operations 1 [] n → sent None L `prefix_of` sent None n.2 → executed_upto operations 1 [] (n.1, L).
Proof.
  intros (Lb & E & Hc & Hb) Hp. exists L. split; [done|]. simpl in E. rewrite E in Hp. clear n E.
  destruct L as [|e L _] using rev_ind.
  { split; [by apply list.Forall_nil|]. intros k op _ _. split; [unfold executions; simpl; lia|by intros [|]]. }
  apply sent_prefix in Hp as (e' & L2 & -> & Ht & Ho). apply list.Forall_app in Hc as [Hc1 [Hc2 _]%list.Forall_cons]. split.
  { apply list.Forall_app. split; [done|]. apply list.Forall_singleton. by rewrite <- Ht, <- Ho. }
  intros k op Hop Hr. destruct (Hb k op Hop Hr) as [Hle Hu].
  assert (unsent_after k L) as HuL.
  { intros L1 e1 L3 ->. apply (Hu L1 e1 (L3 ++ e' :: L2)). by rewrite <- app_assoc. }
  rewrite executions_app in *. destruct (decide (entry_tag e = main_tag)) as [Hm|Hm].
  - assert (executions k L = 0%nat) as Hz by (eapply Hu; [done|congruence]). rewrite Hz.
    split; [apply executions_one|by apply unsent_after_send].
  - assert (Forall (λ e, entry_tag e ≠ main_tag) [e]) as Hq by (by apply list.Forall_singleton).
    rewrite (executions_quiet k [e]) by done. split; [lia|by apply unsent_after_quiet].
Qed.

Lemma cut_at_most_once operations (w : World (W * list entry) R) :
  world_inv (erase w : World (W' * list entry) R') → (env_net (env w)).2 = [] →
  executed_upto operations 1 [] (erase (env_net (env (TokioV4.Session.compound_status operations w).1)) : W' * list entry).
Proof.
  intros Hw Hnil. pose proof (cut_run (Cut := cut_compound_status (W := W * list entry) (W' := W' * list entry) operations) w) as Hr.
  pose proof (post_at_most_once operations _ Hw) as Hp.
  change ((env_net (env (erase w : World (W' * list entry) R'))).2) with ((env_net (env w)).2) in Hp. rewrite Hnil in Hp.
  unfold post in Hp. unfold dropped_within in Hr.
  destruct (compound_status operations (erase w)) as [wb o] eqn:Eb.
  assert (executed_upto operations 1 [] (env_net (env wb))) as Hb by (destruct o; done).
  destruct (TokioV4.Session.compound_status operations w) as [w' [a|e|[]]]; try (by simplify_eq).
  destruct Hr as [_ Hr]. by eapply (executed_upto_cut operations (env_net (env wb))) in Hr.
Qed.

End at_most_once.
