(* ===== verification/V4Paths.v ===== *)
(** * Paths of the NFSv4 client (laws of the first part of [V4Extract])

    [path_components] accepts exactly the non-empty paths whose significant
    components are neither [..] nor too long, and returns them; joining a clean
    name adds one component; a temporary sibling lies in the directory of its
    target (src/src/v4/client.rs). *)

From Stdlib Require Import Strings.String Strings.Byte.
From S2P Require Import Prelude Text Xdr Status Errors Rpc V3Client V3ClientSpec.
From S2P Require Import V4Attr V4Ops V4Results V4Client V4Extract V4SessionSpec.

#[local] Open Scope Z_scope.

Definition allowed4 (c : str) : Prop := c ≠ [dot; dot] ∧ zlen c ≤ NFS4_OPAQUE_LIMIT.
Definition clean4 (c : str) : Prop := significant c ∧ allowed4 c ∧ slash ∉ c.

Lemma components_loop_spec path cs l :
  components_loop path cs = Ok l ↔ l = filter significant cs ∧ Forall allowed4 (filter significant cs).
Proof.
  revert l. induction cs as [|c cs IH]; intros l; cbn [components_loop].
  { split; [by intros [= <-]|by intros [-> _]]. }
  destruct (decide (significant c)) as [Hs|Hs].
  - rewrite !filter_cons_True by done. destruct Hs as [H1 H2]. rewrite !bool_decide_false by done. cbn [orb].
    case_bool_decide as Hd; [split; [done|]; by intros [_ [[? _] _]%list.Forall_cons]|].
    destruct (Z.gtb_spec (zlen c) NFS4_OPAQUE_LIMIT) as [Hz|Hz].
    { split; [done|]. intros [_ [[_ ?] _]%list.Forall_cons]. lia. }
    split.
    + intros (l' & [-> Ha]%IH & [= <-])%outcome_bind_Ok. split; [done|]. by constructor.
    + intros [-> [_ Ha]%list.Forall_cons]. rewrite (proj2 (IH _) (conj eq_refl Ha)). done.
  - rewrite !filter_cons_False by done. rewrite <-IH.
    assert (bool_decide (c = []) || bool_decide (c = [dot]) = true) as ->; [|done].
    apply orb_true_iff. rewrite !bool_decide_eq_true. unfold significant in Hs. apply not_and_l in Hs as [H|H]; [left|right]; by apply dec_stable.
Qed.

Lemma path_components_Ok path l :
  path_components path = Ok l ↔ path ≠ [] ∧ l = components path ∧ Forall allowed4 (components path).
Proof.
  unfold path_components, components. destruct path as [|b path]; cbn [is_empty].
  - split; [done|]. by intros [? _].
  - rewrite components_loop_spec. naive_solver.
Qed.

Lemma components_clean4 path : Forall allowed4 (components path) → Forall clean4 (components path).
Proof.
  unfold components. pose proof (split_on_no_sep slash path) as Hns. intros Ha.
  induction Hns as [|w ws Hw _ IH]; [done|]. rewrite filter_cons in Ha |- *.
  case_decide; [|by apply IH]. inversion_clear Ha. constructor; [by split_and!|by apply IH].
Qed.

Lemma path_components_join parent name cs :
  path_components parent = Ok cs → clean4 name → path_components (V4Extract.join_path parent name) = Ok (cs ++ [name]).
Proof.
  change V4Extract.join_path with V3Client.join_path.
  intros (Hne & -> & Ha)%path_components_Ok (Hs & Hal & Hn). apply path_components_Ok.
  assert (components name = [name]) as Hname by (unfold components; by rewrite split_on_plain, filter_cons_True).
  rewrite components_join, Hname by done. split_and!; [by apply join_path_nonempty|done|].
  apply Forall_app. split; [done|]. by constructor.
Qed.

(** Printing components as an absolute path gives them back. *)
Lemma path_components_join_all cs parent pcs :
  path_components parent = Ok pcs → Forall clean4 cs →
  path_components (fold_left V4Extract.join_path cs parent) = Ok (pcs ++ cs).
Proof.
  intros Hp Hcs. revert parent pcs Hp. induction Hcs as [|c cs Hc _ IH]; intros parent pcs Hp; cbn [fold_left].
  - by rewrite app_nil_r.
  - rewrite (IH _ (pcs ++ [c])) by (by apply path_components_join). by rewrite <-app_assoc.
Qed.

Lemma split_parent_Ok path parent name :
  split_parent path = Ok (parent, name) ↔ path_components path = Ok (parent ++ [name]).
Proof.
  unfold split_parent. split.
  - intros (cs & Hcs & Hpop)%outcome_bind_Ok. rewrite Hcs. destruct (pop cs) as [[p n]|] eqn:E; [|done].
    injection Hpop as -> ->. by apply pop_Some in E as ->.
  - intros ->. simpl. by rewrite (proj2 (pop_Some (parent ++ [name]) parent name) eq_refl).
Qed.

Lemma temp_name_clean4 env : env_ok env → clean4 (temp_name env).
Proof.
  intros Henv. destruct (temp_name_clean env Henv) as (Hs & [Hd Hl] & Hn). split_and!; [done| |done].
  split; [done|]. destruct Henv as (Hp & Hc & Hu). unfold temp_name, NFS4_OPAQUE_LIMIT.
  pose proof (zlen_decimal (env_pid env) 32 ltac:(int_unfold; lia) ltac:(lia)).
  pose proof (zlen_decimal _ 128 (Hc (env_counter env)) ltac:(lia)).
  pose proof (zlen_decimal (env_counter env) 64 ltac:(int_unfold; lia) ltac:(lia)).
  rewrite !zlen_app, !zlen_cons, zlen_app, !zlen_cons. change (zlen (lit_bytes ".nfs-rs-tmp-")) with 12. lia.
Qed.

(** The temporary file lies next to its target. *)
Lemma sibling_path path parent name env :
  env_ok env → split_parent path = Ok (parent, name) →
  ∃ temp, V4Extract.temporary_sibling_path path env = (next_env env, Ok temp)
    ∧ split_parent temp = Ok (parent, temp_name env).
Proof.
  intros Henv Hsplit. apply split_parent_Ok in Hsplit as Hcs. unfold V4Extract.temporary_sibling_path.
  rewrite Hcs. eexists. split.
  - erewrite bind_run; [|reflexivity]. rewrite (proj2 (pop_Some (parent ++ [name]) parent name) eq_refl).
    erewrite bind_run; [|reflexivity]. reflexivity.
  - apply split_parent_Ok. apply path_components_join; [|by apply temp_name_clean4].
    apply (path_components_join_all parent [slash] []); [done|].
    apply path_components_Ok in Hcs as (_ & Hl & Ha). apply components_clean4 in Ha. rewrite <-Hl in Ha. by apply Forall_app in Ha as [? _].
Qed.
