(* ===== verification/V4Store.v ===== *)
(** * Whole files against an NFSv4 server

    What COMPOUND does to a file store is written as a step relation with one
    rule per operation (RFC 8881, 16.2 and 18): names are looked up from the
    root, OPEN adds an open state for a file, READ and WRITE go through an open
    state with the right access and may serve or take only a part, COMMIT
    answers with the verifier of the server's boot, CLOSE ends the open state.
    [Nfs4Server] says that a server answers the operations of a session by a
    run of these rules whenever there is one.

    Against such a server [Files.read] returns the contents of the file,
    [Files.write] and [Files.write_atomic] replace them, and each of them closes
    every file it opened (src/src/v4/blocking.rs). *)

From Stdlib Require Import Strings.String Strings.Byte.
From stdpp Require Import gmap.
From S2P Require Import Prelude Text Xdr Status Errors Rpc V3Client V3Blocking V3ClientSpec V3BlockingSpec V3Store Tame.
From S2P Require Import V4Attr V4AttrSpec V4Ops V4Results V4Client V4ClientSpec V4Extract.
From S2P Require Import V4Session V4SessionSpec V4Files V4FilesSpec.
Import FileHandle (FileHandle).
Import StateId (StateId).
Import Bitmap (Bitmap).
Import Fattr (Fattr).
Import StableHow (StableHow).
Import OpenHow (OpenHow).
Import OpenArgs (OpenArgs).
Import OpenResult (OpenResult).
Import Operation (Operation).
Import OperationResult (OperationResult).
Import CompoundResponse (CompoundResponse).

#[local] Open Scope Z_scope.

(** ** A file store *)

#[export] Instance byte_countable : Countable byte.
Proof. apply (inj_countable Byte.to_N Byte.of_N). intros b. apply Byte.of_to_N. Defined.
#[export] Instance FileHandle_countable : Countable FileHandle.
Proof. apply (inj_countable' FileHandle.data FileHandle.mkFileHandle). by intros []. Defined.

(** An open state: its id, the file and the access it was opened for. *)
Record Opened := mkOpened { opened_id : StateId; opened_file : FileHandle; opened_access : Z }.

Record Store := mkStore {
  root : FileHandle;
  names : gmap (FileHandle * str) FileHandle;
  files : gmap FileHandle (list byte);
  opens : list Opened;
  boot : list byte;
}.

Definition set_names (v : gmap (FileHandle * str) FileHandle) (s : Store) : Store :=
  mkStore (root s) v (files s) (opens s) (boot s).
Definition set_files (v : gmap FileHandle (list byte)) (s : Store) : Store :=
  mkStore (root s) (names s) v (opens s) (boot s).
Definition set_opens (v : list Opened) (s : Store) : Store :=
  mkStore (root s) (names s) (files s) v (boot s).

Definition set_file (fh : FileHandle) (c : list byte) (s : Store) : Store := set_files (<[fh := c]> (files s)) s.
Definition add_open (o : Opened) (s : Store) : Store := set_opens (o :: opens s) s.
Definition drop_open (id : StateId) (s : Store) : Store :=
  set_opens (filter (λ o, opened_id o ≠ id) (opens s)) s.

Lemma set_file_id fh c s : files s !! fh = Some c → set_file fh c s = s.
Proof. intros H. destruct s. unfold set_file, set_files. simpl in *. by rewrite insert_id. Qed.
Lemma set_file_twice fh c c' s : set_file fh c (set_file fh c' s) = set_file fh c s.
Proof. unfold set_file, set_files. simpl. by rewrite insert_insert_eq. Qed.

(** The directory or file a list of names leads to. *)
Fixpoint resolve_from (s : Store) (dir : FileHandle) (components : list str) : option FileHandle :=
  match components with
  | [] => Some dir
  | name :: rest => next ← names s !! (dir, name); resolve_from s next rest
  end.
Definition resolve (s : Store) (components : list str) : option FileHandle := resolve_from s (root s) components.

(** A file cut or extended with zeros to [n] bytes. *)
Definition resize (n : Z) (c : list byte) : list byte := ztake n c ++ zeros (n - zlen c).

Definition can_read (access : Z) : Prop := Z.land access OPEN4_SHARE_ACCESS_READ ≠ 0.
Definition can_write (access : Z) : Prop := Z.land access OPEN4_SHARE_ACCESS_WRITE ≠ 0.

(** There is always another id and another handle. *)
#[export] Instance StateId_infinite : Infinite StateId.
Proof. apply (inj_infinite (λ z : Z, StateId.mkStateId z []) (λ id, Some (StateId.seqid id))). done. Defined.
#[export] Instance byte_inhabited : Inhabited byte := populate x00.
#[export] Instance FileHandle_infinite : Infinite FileHandle.
Proof. apply (inj_infinite FileHandle.mkFileHandle (λ fh, Some (FileHandle.data fh))). done. Defined.

(** ** COMPOUND *)

(** The current and the saved filehandle, and the store. *)
Record Position := mkPosition { current : option FileHandle; saved : option FileHandle; store : Store }.

Definition ok_only (op : OpCode.OpCode) : OperationResult := OperationResult.StatusOnly op Status.Ok.

(** An OPEN that asks for nothing in return. *)
Definition plain_open (id : StateId) (flags : Z) (attrset : Bitmap) : OpenResult :=
  OpenResult.mkOpenResult id flags attrset OpenDelegation.None_.

(** The file is not open yet, and the id is new. *)
Definition fresh_open (fh : FileHandle) (id : StateId) (s : Store) : Prop :=
  Forall (λ o, opened_file o ≠ fh ∧ opened_id o ≠ id) (opens s).

Inductive executes : Position → Operation → OperationResult → Position → Prop :=
  | exec_root cur sav s :
      executes (mkPosition cur sav s) Operation.PutRootFh (ok_only OpCode.PutRootFh)
        (mkPosition (Some (root s)) sav s)
  | exec_put cur sav s fh :
      executes (mkPosition cur sav s) (Operation.PutFh fh) (ok_only OpCode.PutFh) (mkPosition (Some fh) sav s)
  | exec_lookup dir sav s name fh :
      names s !! (dir, name) = Some fh →
      executes (mkPosition (Some dir) sav s) (Operation.Lookup name) (ok_only OpCode.Lookup)
        (mkPosition (Some fh) sav s)
  | exec_save fh sav s :
      executes (mkPosition (Some fh) sav s) Operation.SaveFh (ok_only OpCode.SaveFh)
        (mkPosition (Some fh) (Some fh) s)
  | exec_getfh fh sav s :
      executes (mkPosition (Some fh) sav s) Operation.GetFh (OperationResult.GetFh Status.Ok (Some fh))
        (mkPosition (Some fh) sav s)
  (** An existing file. *)
  | exec_open dir sav s args name fh id flags attrset :
      OpenArgs.claim args = OpenClaim.Null name → names s !! (dir, name) = Some fh → is_Some (files s !! fh) →
      (OpenArgs.openhow args = OpenHow.NoCreate ∨ ∃ attrs, OpenArgs.openhow args = OpenHow.Unchecked attrs) →
      fresh_open fh id s → Z.land flags OPEN4_RESULT_CONFIRM = 0 →
      executes (mkPosition (Some dir) sav s) (Operation.Open args)
        (OperationResult.Open Status.Ok (Some (plain_open id flags attrset)))
        (mkPosition (Some fh) sav (add_open (mkOpened id fh (OpenArgs.share_access args)) s))
  (** A new, empty file. *)
  | exec_create dir sav s args name fh id flags attrset :
      OpenArgs.claim args = OpenClaim.Null name → names s !! (dir, name) = None → files s !! fh = None →
      (∃ attrs, OpenArgs.openhow args = OpenHow.Unchecked attrs ∨ OpenArgs.openhow args = OpenHow.Guarded attrs) →
      fresh_open fh id s → Z.land flags OPEN4_RESULT_CONFIRM = 0 →
      executes (mkPosition (Some dir) sav s) (Operation.Open args)
        (OperationResult.Open Status.Ok (Some (plain_open id flags attrset)))
        (mkPosition (Some fh) sav
           (add_open (mkOpened id fh (OpenArgs.share_access args))
              (set_names (<[(dir, name) := fh]> (names s)) (set_file fh [] s))))
  | exec_close fh sav s seqid id access closed :
      mkOpened id fh access ∈ opens s →
      executes (mkPosition (Some fh) sav s) (Operation.Close seqid id) (OperationResult.Close Status.Ok (Some closed))
        (mkPosition (Some fh) sav (drop_open id s))
  | exec_read fh sav s id access offset count c data eof :
      mkOpened id fh access ∈ opens s → can_read access → files s !! fh = Some c → 0 ≤ offset →
      zlen data ≤ count → data = ztake (zlen data) (zdrop offset c) →
      (0 < count → data = [] → eof = true) → (eof = true → zlen c ≤ offset + zlen data) →
      executes (mkPosition (Some fh) sav s) (Operation.Read id offset count)
        (OperationResult.Read Status.Ok eof data) (mkPosition (Some fh) sav s)
  | exec_write fh sav s id access offset stable data c count committed :
      mkOpened id fh access ∈ opens s → can_write access → files s !! fh = Some c → 0 ≤ offset →
      0 < count ≤ zlen data →
      executes (mkPosition (Some fh) sav s) (Operation.Write id offset stable data)
        (OperationResult.Write Status.Ok (Some (WriteResult.mkWriteResult count committed (boot s))))
        (mkPosition (Some fh) sav (set_file fh (splice c offset (ztake count data)) s))
  | exec_commit fh sav s offset count :
      executes (mkPosition (Some fh) sav s) (Operation.Commit offset count)
        (OperationResult.Commit Status.Ok (Some (CommitResult.mkCommitResult (boot s)))) (mkPosition (Some fh) sav s)
  | exec_resize fh sav s id access attrs size c :
      mkOpened id fh access ∈ opens s → can_write access → files s !! fh = Some c →
      Fattr.size size = Ok attrs → 0 ≤ size ≤ u64_max →
      executes (mkPosition (Some fh) sav s) (Operation.SetAttr id attrs) (ok_only OpCode.SetAttr)
        (mkPosition (Some fh) sav (set_file fh (resize size c) s))
  | exec_rename from to s oldname newname fh :
      names s !! (from, oldname) = Some fh → names s !! (to, newname) ≠ Some fh →
      executes (mkPosition (Some to) (Some from) s) (Operation.Rename oldname newname) (ok_only OpCode.Rename)
        (mkPosition (Some to) (Some from)
           (set_names (<[(to, newname) := fh]> (delete (from, oldname) (names s))) s)).

Lemma write_inv fh sav s id offset stable data r p :
  executes (mkPosition (Some fh) sav s) (Operation.Write id offset stable data) r p →
  ∃ c count committed, files s !! fh = Some c ∧ 0 < count ≤ zlen data
    ∧ r = OperationResult.Write Status.Ok (Some (WriteResult.mkWriteResult count committed (boot s)))
    ∧ p = mkPosition (Some fh) sav (set_file fh (splice c offset (ztake count data)) s).
Proof. intros H. inversion H; subst. by eexists _, _, _. Qed.

(** The value of the size attribute determines the size. *)
Lemma size_attr_inj m n attrs :
  0 ≤ m ≤ u64_max → 0 ≤ n ≤ u64_max → Fattr.size m = Ok attrs → Fattr.size n = Ok attrs → m = n.
Proof.
  intros Hm Hn H1 H2. assert (be_bytes 8 m = be_bytes 8 n) as Heq.
  { unfold Fattr.size, Fattr.assemble in H1, H2. simpl in H1, H2. rewrite <-H1 in H2.
    by apply (f_equal (λ o, match o with Ok f => Fattr.attr_vals f | _ => [] end)) in H2. }
  apply (f_equal be_Z) in Heq. rewrite !be_Z_be_bytes, !Z.mod_small in Heq by (int_unfold; lia). done.
Qed.

Inductive runs : Position → list Operation → list OperationResult → Position → Prop :=
  | runs_nil p : runs p [] [] p
  | runs_cons p op r p1 ops rs p2 :
      executes p op r p1 → runs p1 ops rs p2 → runs p (op :: ops) (r :: rs) p2.

(** Whatever the server chooses, the operations can be executed to the end. *)
Fixpoint proceeds (p : Position) (ops : list Operation) : Prop :=
  match ops with
  | [] => True
  | op :: rest => (∃ r p1, executes p op r p1) ∧ ∀ r p1, executes p op r p1 → proceeds p1 rest
  end.

Lemma runs_app_inv p ops1 ops2 rs p2 :
  runs p (ops1 ++ ops2) rs p2 →
  ∃ rs1 rs2 p1, rs = rs1 ++ rs2 ∧ runs p ops1 rs1 p1 ∧ runs p1 ops2 rs2 p2.
Proof.
  revert p rs. induction ops1 as [|op ops1 IH]; intros p rs H.
  - exists [], rs, p. by split_and!; [|constructor|].
  - inversion H as [|? ? r p1 ? rs' ? Hx Hr]; subst. destruct (IH _ _ Hr) as (rs1 & rs2 & p3 & -> & H1 & H2).
    exists (r :: rs1), rs2, p3. by split_and!; [|econstructor|].
Qed.
(** Every answer is OK and belongs to its operation. *)
Lemma executes_ok p op r p' : executes p op r p' → OperationResult.status r = Status.Ok.
Proof. by destruct 1. Qed.
Lemma runs_ok p ops rs p' : runs p ops rs p' → Forall (λ r, OperationResult.status r = Status.Ok) rs.
Proof. induction 1; constructor; [by eapply executes_ok|done]. Qed.

(** ** Walking to a directory *)

(** An answer with a status only. *)
Definition plain (r : OperationResult) : Prop := ∃ op, r = ok_only op.

Lemma proceeds_lookups s sav components ops : ∀ dir d,
  resolve_from s dir components = Some d → proceeds (mkPosition (Some d) sav s) ops →
  proceeds (mkPosition (Some dir) sav s) ((Operation.Lookup <$> components) ++ ops).
Proof.
  induction components as [|name rest IH]; intros dir d; cbn [resolve_from]; [by intros [= ->]|].
  intros (next & Hn & Hd)%bind_Some Hops. split; [by eexists _, _; apply exec_lookup|].
  intros r p H. inversion H; subst. simplify_eq. by eapply IH.
Qed.
Lemma proceeds_walk s cur sav components d ops :
  resolve s components = Some d → proceeds (mkPosition (Some d) sav s) ops →
  proceeds (mkPosition cur sav s) (Files.walk_ops components ++ ops).
Proof.
  intros Hd Hops. split; [eexists _, _; apply exec_root|]. intros r p H. inversion H; subst.
  by eapply proceeds_lookups.
Qed.

Lemma runs_lookups_inv s sav components : ∀ dir rs p,
  runs (mkPosition (Some dir) sav s) (Operation.Lookup <$> components) rs p →
  ∃ d, resolve_from s dir components = Some d ∧ p = mkPosition (Some d) sav s ∧ Forall plain rs.
Proof.
  induction components as [|name rest IH]; intros dir rs p H; cbn [resolve_from].
  - inversion H; subst. exists dir. by split_and!.
  - inversion H as [|? ? r p1 ? rs' ? Hx Hr]; subst. inversion Hx as [| |? ? ? ? fh Hn| | | | | | | | | |]; subst.
    destruct (IH _ _ _ Hr) as (d & Hd & -> & Hp). exists d. rewrite Hn. split_and!; [done|done|].
    constructor; [by eexists|done].
Qed.
Lemma runs_walk_inv s cur sav components rs p :
  runs (mkPosition cur sav s) (Files.walk_ops components) rs p →
  ∃ d, resolve s components = Some d ∧ p = mkPosition (Some d) sav s ∧ Forall plain rs.
Proof.
  intros H. inversion H as [|? ? r p1 ? rs' ? Hx Hr]; subst. inversion Hx; subst.
  destruct (runs_lookups_inv _ _ _ _ _ _ Hr) as (d & Hd & -> & Hp). exists d. split_and!; [done|done|].
  constructor; [by eexists|done].
Qed.

(** A search for an answer passes over those with a status only. *)
Lemma find_map_plain {A} (f : OperationResult → option A) rs rs' :
  (∀ op status, f (OperationResult.StatusOnly op status) = None) → Forall plain rs → find_map f (rs ++ rs') = find_map f rs'.
Proof. intros Hf. induction 1 as [|r rs [op ->] _ IH]; [done|]. simpl. unfold ok_only. by rewrite Hf. Qed.

(** ** A server *)

(** [awaits n id seq]: the server's next SEQUENCE of the session [id] has the
    number [seq].  Servers count like the client up to 0xffffffff. *)
Class Nfs4Server (W R : Type) `{!Nfs4Rpc W R, !Nfs4Net W R, !Nfs4Laws W R} := {
  store_of : W → Store;
  awaits : W → list byte → Z → Prop;
  serves minor_version session_id sequence_id operations n r :
    awaits n session_id sequence_id → conn_ok r →
    proceeds (mkPosition None None (store_of n)) operations →
    ∃ n' r' seq rs p,
      rpc_compound main_tag minor_version (sequence_args session_id sequence_id :: operations) (n, r)
      = ((n', r'), Ok (CompoundResponse.mkCompoundResponse Status.Ok main_tag
                         (OperationResult.Sequence Status.Ok (Some seq) :: rs)))
      ∧ SequenceResult.status_flags seq = 0
      ∧ runs (mkPosition None None (store_of n)) operations rs p
      ∧ store_of n' = store p
      ∧ awaits n' session_id (next_id sequence_id);
}.

Section server.
Context {W R : Type} `{!Nfs4Rpc W R, !Nfs4Net W R, !Nfs4Laws W R, !Nfs4Server W R}.

Definition stored (w : World W R) : Store := store_of (env_net (env w)).

(** A client between two calls of a working session. *)
Record steady (w : World W R) : Prop := {
  steady_inv : world_inv w;
  steady_recovery : Client.recovery_pending (client w) = false;
  steady_lease : Client.lease_renewal (client w) = None;
  steady_locks : locks_valid w;
  steady_session : awaits (env_net (env w)) (Client.session_id (client w)) (Client.sequence_id (client w));
}.

(** What calls leave alone: everything but the connection and the counters. *)
Definition settings (w : World W R) :=
  (env_locks (env w), env_slept (env w),
   (Client.locks (client w), Client.builder (client w), Client.client_id (client w), Client.session_id (client w)),
   (Client.open_owner (client w), Client.minor_version (client w), Client.max_operations (client w)),
   (Client.read_size (client w), Client.write_size (client w), Client.dir_size (client w))).

Definition can_run (w : World W R) (operations : list Operation) : Prop :=
  proceeds (mkPosition None None (stored w)) operations.

(** The answer of the server: a run of the operations. *)
Definition served (w : World W R) (operations : list Operation) (response : CompoundResponse) (w' : World W R) : Prop :=
  ∃ seq rs p,
    response = CompoundResponse.mkCompoundResponse Status.Ok main_tag (OperationResult.Sequence Status.Ok (Some seq) :: rs)
    ∧ runs (mkPosition None None (stored w)) operations rs p ∧ stored w' = store p
    ∧ steady w' ∧ settings w' = settings w.

Lemma all_ok_not_delayed seq rs :
  Forall (λ r, OperationResult.status r = Status.Ok) rs →
  first_delayed_retry_result_index
    (CompoundResponse.mkCompoundResponse Status.Ok main_tag (OperationResult.Sequence Status.Ok (Some seq) :: rs)) = None.
Proof.
  intros H. unfold first_delayed_retry_result_index. simpl.
  enough (position (λ r, status_allows_delayed_retry (OperationResult.status r)) rs = None) as -> by done.
  induction H as [|r rs Hr _ IH]; [done|]. simpl. rewrite Hr. simpl. by rewrite IH.
Qed.

Lemma ensure_locks_valid_steady operations w :
  steady w → ensure_locks_valid operations w = (w, Ok tt).
Proof.
  intros [[Hc Hr] _ _ Hl _]. unfold ensure_locks_valid. case_match; [done|].
  erewrite bind_run; [|reflexivity]. destruct w as [[n st sl] c]. unfold on_env, on_store, zoom. simpl in *.
  destruct (ensure_valid_spec _ _ Hr) as (H1 & H2 & _ & _). apply H2 in Hl.
  destruct (LockRegistry.ensure_valid _ _) as [st' o]. simpl in *. by subst.
Qed.

(** The turn of the loop that carries the operations. *)
Lemma step_served operations w :
  steady w → can_run w operations →
  ∃ response w', compound_status_step operations (0, false) w = (w', Ok (inr response))
    ∧ served w operations response w'.
Proof.
  intros Hw Hrun. destruct w as [[n st sl] c]. pose proof Hw as [[Hc Hr] Hp Hl Hlv Ha]. simpl in *.
  destruct (serves (Client.minor_version c) _ _ operations _ (Client.rpc c) Ha (inv_conn _ Hc) Hrun)
    as (n' & r' & seq & rs & p & Heq & Hflags & Hruns & Hst & Ha').
  pose proof (law_compound main_tag (Client.minor_version c)
    (sequence_args (Client.session_id c) (Client.sequence_id c) :: operations) n (Client.rpc c) (inv_conn _ Hc)) as Hlaw.
  unfold post in Hlaw. rewrite Heq in Hlaw. destruct Hlaw as [Hconn _]. simpl in Hconn.
  set (response := CompoundResponse.mkCompoundResponse _ _ _) in Heq.
  assert (response_revoked_lock_status response = None) as Hrevoked.
  { unfold response_revoked_lock_status. simpl. by rewrite Hflags. }
  assert (response_allows_delayed_retry operations response = false) as Hdelay.
  { unfold response_allows_delayed_retry, response_allows_delayed_retry_after_leading_results, response.
    by rewrite all_ok_not_delayed by by eapply runs_ok. }
  eexists response, _. split.
  - unfold compound_status_step, with_sequence. erewrite bind_run; [|reflexivity].
    erewrite bind_run with (a := inl response); [|unfold attempt, raw_compound; erewrite bind_run; [|reflexivity];
      unfold on_rpc, zoom; simpl; unfold main_tag in Heq; by rewrite Heq].
    erewrite bind_run; [|reflexivity]. rewrite Hrevoked. erewrite bind_run; [|reflexivity].
    change (response_requires_session_recovery response) with false. cbn [andb].
    erewrite bind_run; [|reflexivity]. rewrite Hdelay. reflexivity.
  - exists seq, rs, p. split_and!; [done|done|done| |done].
    split; simpl; [|done|done|done|done]. split; [destruct c, Hc; by split|done].
Qed.

(** A call of a working session is answered by a run of its operations. *)
Lemma compound_status_served operations w :
  steady w → zlen operations < Client.max_operations (client w) → can_run w operations →
  ∃ response w', compound_status operations w = (w', Ok response) ∧ served w operations response w'.
Proof.
  intros Hw Hn Hrun. destruct (step_served operations w Hw Hrun) as (response & w' & Hstep & Hserved).
  exists response, w'. split; [|done]. pose proof Hw as [[Hc _] Hp Hl _ _].
  unfold compound_status. erewrite bind_run; [|reflexivity]. erewrite bind_run with (s' := w); [|].
  2: { unfold validate_session_compound_operation_count, checked_add. pose proof (inv_max_operations _ Hc) as Hm.
       unfold NFS4_MAX_OPS in Hm. destruct (Z.leb_spec (zlen operations + 1) usize_max); [|exfalso; int_unfold; lia].
       simpl. destruct (Z.gtb_spec (zlen operations + 1) (Client.max_operations (client w))); [lia|reflexivity]. }
  erewrite bind_run with (s' := w); [|unfold check_lease; erewrite bind_run; [|reflexivity]; by rewrite Hl].
  erewrite bind_run; [|reflexivity]. rewrite Hp. erewrite bind_run; [|reflexivity].
  erewrite bind_run; [|by apply ensure_locks_valid_steady]. by apply loop_break.
Qed.

Lemma compound_served operations w :
  steady w → zlen operations < Client.max_operations (client w) → can_run w operations →
  ∃ response w', compound operations w = (w', Ok response) ∧ served w operations response w'.
Proof.
  intros Hw Hn Hrun. destruct (compound_status_served operations w Hw Hn Hrun) as (response & w' & Heq & Hserved).
  exists response, w'. split; [|done]. unfold compound. erewrite bind_run; [|exact Heq].
  destruct Hserved as (seq & rs & p & -> & _). reflexivity.
Qed.

(** ** Opening and closing *)

(** [w'] is [w] up to counters, with the store [s]. *)
Definition moved (w : World W R) (s : Store) (w' : World W R) : Prop :=
  steady w' ∧ settings w' = settings w ∧ stored w' = s.

Lemma moved_trans w1 s1 w2 s2 w3 : moved w1 s1 w2 → moved w2 s2 w3 → moved w1 s2 w3.
Proof. intros (_ & H1 & _) (? & H2 & ?). split_and!; [done|congruence|done]. Qed.
Lemma moved_refl w : steady w → moved w (stored w) w.
Proof. intros Hw. split; [done|]. by split. Qed.

Lemma served_moved w operations response w' :
  served w operations response w' →
  ∃ seq rs p, CompoundResponse.results response = OperationResult.Sequence Status.Ok (Some seq) :: rs
    ∧ CompoundResponse.status response = Status.Ok
    ∧ runs (mkPosition None None (stored w)) operations rs p ∧ moved w (store p) w'.
Proof. intros (seq & rs & p & -> & Hr & Hst & Hs & Hset). exists seq, rs, p. by split_and!. Qed.

(** The sequence number of the open owner. *)
Lemma advance_open_seqid_moved (b : bool) w :
  steady w →
  ∃ w', (if b then advance_open_seqid else mret tt) w = (w', Ok tt) ∧ moved w (stored w) w'.
Proof.
  intros Hw. destruct b; [|exists w; by split; [|apply moved_refl]].
  eexists. split; [reflexivity|]. destruct w as [e c], Hw as [[Hc Hr] ? ? ? ?].
  split_and!; [|done|done]. split; simpl; try done. split; [destruct c, Hc; by split|done].
Qed.

Lemma any_result_ok op (f : Status.Status → bool) response :
  f Status.Ok = false → Forall (λ r, OperationResult.status r = Status.Ok) (CompoundResponse.results response) →
  any_result op f response = false.
Proof.
  intros Hf H. unfold any_result. induction H as [|r rs Hr _ IH]; [done|]. simpl. by rewrite Hr, Hf, andb_false_r.
Qed.

(** The answer to OPEN and GETFH. *)
Definition open_answer (id : StateId) (flags : Z) (attrset : Bitmap) (fh : FileHandle) : list OperationResult :=
  [OperationResult.Open Status.Ok (Some (plain_open id flags attrset)); OperationResult.GetFh Status.Ok (Some fh)].

Lemma open_answered path access how cleanup parent name w w' response seq rs id flags attrset fh :
  split_parent path = Ok (parent, name) → steady w' → NFS4_MINOR_VERSION_SESSION_MIN ≤ Client.minor_version (client w') →
  compound_status (Files.walk_ops parent ++
    [Files.open_operation (Client.open_seqid (client w)) access (Client.client_id (client w))
       (Client.open_owner (client w)) how name; Operation.GetFh]) w = (w', Ok response) →
  CompoundResponse.status response = Status.Ok →
  CompoundResponse.results response = OperationResult.Sequence Status.Ok (Some seq) :: rs ++ open_answer id flags attrset fh →
  Forall plain rs → Z.land flags OPEN4_RESULT_CONFIRM = 0 →
  ∃ w2, Files.open_with_failure_cleanup path access how cleanup w = (w2, Ok (mkOpenedFile fh id)) ∧ moved w' (stored w') w2.
Proof.
  intros Hsplit Hw' Hmv Hcall Hok Hres Hplain Hflags.
  assert (Forall (λ r, OperationResult.status r = Status.Ok) (CompoundResponse.results response)) as Hall.
  { rewrite Hres. constructor; [done|]. apply Forall_app. split; [|by repeat constructor].
    eapply list.Forall_impl; [exact Hplain|]. by intros ? [op ->]. }
  destruct (advance_open_seqid_moved (response_consumed_owner_seqid response OpCode.Open) w' Hw') as (w2 & Hadv & Hmoved).
  exists w2. split; [|done]. unfold Files.open_with_failure_cleanup, Files.open_with_owner_failure_cleanup.
  erewrite bind_run; [|reflexivity]. rewrite Hsplit. erewrite bind_run; [|reflexivity].
  apply loop_break. unfold Files.open_step, Files.opening_step. do 3 (erewrite bind_run; [|reflexivity]).
  erewrite bind_run with (a := inl response); [|unfold attempt; rewrite Hcall; reflexivity].
  erewrite bind_run; [|exact Hadv]. erewrite bind_run; [|reflexivity].
  unfold response_operation_has_delayed_status, response_operation_requires_session_recovery.
  rewrite !any_result_ok by done. cbn [andb].
  unfold CompoundResponse.ensure_ok. rewrite Hok. change (Status.is_ok Status.Ok) with true. cbn iota.
  assert (∀ close_state cleaned, Files.opened_file close_state cleaned response w2 = (w2, Ok (mkOpenedFile fh id))) as Hopened.
  { intros close_state cleaned. unfold Files.opened_file.
    assert (response_open response = Ok (plain_open id flags attrset)) as ->.
    { unfold response_open, find_result. rewrite Hres. simpl. by rewrite find_map_plain. }
    erewrite bind_run; [|reflexivity].
    assert (response_getfh response = Ok fh) as ->.
    { unfold response_getfh, find_result. rewrite Hres. simpl. by rewrite find_map_plain. }
    cbn iota zeta. erewrite bind_run; [|reflexivity].
    assert (validate_open_result (plain_open id flags attrset) (Client.minor_version (client w2)) = Ok None) as ->; [|done].
    unfold validate_open_result. simpl. by rewrite Hflags, andb_false_r. }
  erewrite bind_run; [|apply Hopened]. reflexivity.
Qed.

Definition wanted (access : Z) : Z := Z.lor access OPEN4_SHARE_ACCESS_WANT_NO_DELEG.

(** The file is not open. *)
Definition not_open (fh : FileHandle) (s : Store) : Prop := Forall (λ o, opened_file o ≠ fh) (opens s).

Lemma fresh_open_exists fh s : not_open fh s → fresh_open fh (fresh (opened_id <$> opens s)) s.
Proof.
  intros H. unfold fresh_open, not_open in *. pose proof (infinite_is_fresh (opened_id <$> opens s)) as Hf.
  rewrite !list.Forall_forall in *. intros o Ho. split; [by apply H|]. intros Heq. apply Hf. rewrite <-Heq.
  by apply list_elem_of_fmap_2.
Qed.

Section opening.
Context (w : World W R) (Hw : steady w).
Context (path : str) (access : Z) (how : OpenHow) (cleanup : OpenFailureCleanup) (parent : list str) (name : str) (dir : FileHandle).
Context (Hsplit : split_parent path = Ok (parent, name)) (Hdir : resolve (stored w) parent = Some dir).
Context (Hlen : zlen parent + 3 < Client.max_operations (client w)).

Definition open_ops : list Operation :=
  Files.walk_ops parent ++
    [Files.open_operation (Client.open_seqid (client w)) access (Client.client_id (client w))
       (Client.open_owner (client w)) how name; Operation.GetFh].

(** A run of OPEN and GETFH in the directory. *)
Lemma open_can_run r p :
  executes (mkPosition (Some dir) None (stored w))
    (Files.open_operation (Client.open_seqid (client w)) access (Client.client_id (client w))
       (Client.open_owner (client w)) how name) r p →
  can_run w open_ops.
Proof.
  intros Hx. eapply proceeds_walk; [exact Hdir|]. split; [by eexists _, _|]. intros r1 p1 H1.
  split; [|done]. inversion H1; subst; eexists _, _; apply exec_getfh.
Qed.

(** What the client makes of it. *)
Lemma open_served :
  can_run w open_ops →
  ∃ fh id flags attrset p w',
    executes (mkPosition (Some dir) None (stored w))
      (Files.open_operation (Client.open_seqid (client w)) access (Client.client_id (client w))
         (Client.open_owner (client w)) how name)
      (OperationResult.Open Status.Ok (Some (plain_open id flags attrset))) p
    ∧ current p = Some fh
    ∧ Files.open_with_failure_cleanup path access how cleanup w = (w', Ok (mkOpenedFile fh id)) ∧ moved w (store p) w'.
Proof.
  intros Hrun. destruct (compound_status_served open_ops w Hw) as (resp & w1 & Hcall & Hserved); [|done|].
  { unfold open_ops, Files.walk_ops. rewrite zlen_app, zlen_cons, zlen_fmap. simpl. zlen_lia. }
  destruct (served_moved _ _ _ _ Hserved) as (seq & rs & p & Hres & Hok & Hruns & Hmoved).
  destruct (runs_app_inv _ _ _ _ _ Hruns) as (rs1 & rs2 & p1 & -> & Hwalk & Htail).
  destruct (runs_walk_inv _ _ _ _ _ _ Hwalk) as (d & Hd & -> & Hplain). simplify_eq.
  inversion Htail as [|? ? r1 p2 ? rs3 ? Hx Htail2]; subst.
  inversion Htail2 as [|? ? r2 p3 ? rs4 ? Hx2 Htail3]; subst. inversion Htail3; subst.
  assert (∃ id flags attrset, r1 = OperationResult.Open Status.Ok (Some (plain_open id flags attrset))
    ∧ Z.land flags OPEN4_RESULT_CONFIRM = 0) as (id & flags & attrset & -> & Hflags).
  { inversion Hx; subst; by eexists _, _, _. }
  inversion Hx2 as [| | | |fh sav s1| | | | | | | |]; subst. destruct Hmoved as (Hst1 & Hset & Hstore).
  destruct (open_answered path access how cleanup parent name w w1 resp seq rs1 id flags attrset fh) as (w2 & Hopen & Hm2);
    [done|done|apply Hst1|done|done|done|done|done|].
  exists fh, id, flags, attrset, (mkPosition (Some fh) sav s1), w2. split_and!; [done|done|done|].
  eapply moved_trans; [by split_and!|]. by rewrite <-Hstore.
Qed.

Lemma open_existing fh :
  names (stored w) !! (dir, name) = Some fh → is_Some (files (stored w) !! fh) → not_open fh (stored w) →
  (how = OpenHow.NoCreate ∨ ∃ attrs, how = OpenHow.Unchecked attrs) →
  ∃ id w', Files.open_with_failure_cleanup path access how cleanup w = (w', Ok (mkOpenedFile fh id))
    ∧ fresh_open fh id (stored w)
    ∧ moved w (add_open (mkOpened id fh (wanted access)) (stored w)) w'.
Proof.
  intros Hn Hf Ho Hhow. destruct open_served as (fh' & id & flags & attrset & p & w' & Hx & Hcur & Hopen & Hm).
  { eapply open_can_run.
    apply (exec_open _ _ _ _ name fh (fresh (opened_id <$> opens (stored w))) 0 Bitmap.empty);
      [done..|by apply fresh_open_exists|done]. }
  inversion Hx as [| | | | |? ? ? ? name' fh1 ? ? ? Hclaim Hn' ? ? Hfresh|? ? ? ? name' ? ? ? ? Hclaim Hn'| | | | | |]; subst;
    injection Hclaim as <-; [|congruence]. simpl in Hcur. simplify_eq. by exists id, w'.
Qed.

(** A new file. *)
Lemma open_created :
  names (stored w) !! (dir, name) = None →
  (∃ attrs, how = OpenHow.Unchecked attrs ∨ how = OpenHow.Guarded attrs) →
  Forall (λ o, is_Some (files (stored w) !! opened_file o)) (opens (stored w)) →
  ∃ fh id w', Files.open_with_failure_cleanup path access how cleanup w = (w', Ok (mkOpenedFile fh id))
    ∧ files (stored w) !! fh = None ∧ fresh_open fh id (stored w)
    ∧ moved w (add_open (mkOpened id fh (wanted access))
                 (set_names (<[(dir, name) := fh]> (names (stored w))) (set_file fh [] (stored w)))) w'.
Proof.
  intros Hn Hhow Hopens. destruct open_served as (fh & id & flags & attrset & p & w' & Hx & Hcur & Hopen & Hm).
  { set (new := fresh (elements (dom (files (stored w))))).
    assert (files (stored w) !! new = None) as Hnew.
    { apply not_elem_of_dom. intros Hin. apply (infinite_is_fresh (elements (dom (files (stored w))))).
      by apply elem_of_elements. }
    eapply open_can_run.
    apply (exec_create _ _ _ _ name new (fresh (opened_id <$> opens (stored w))) 0 Bitmap.empty); [done..| |done].
    apply fresh_open_exists. eapply list.Forall_impl; [exact Hopens|]. intros o [c Hc] Heq. congruence. }
  inversion Hx as [| | | | |? ? ? ? name' ? ? ? ? Hclaim Hn'|? ? ? ? name' fh1 ? ? ? Hclaim Hn' Hnew ? Hfresh| | | | | |]; subst;
    injection Hclaim as <-; [congruence|]. simpl in Hcur. simplify_eq. by exists fh, id, w'.
Qed.
End opening.

(** One operation on a file. *)
Definition file_answer (r : OperationResult) (response : CompoundResponse) : Prop :=
  CompoundResponse.status response = Status.Ok ∧ OperationResult.status r = Status.Ok
  ∧ ∃ seq, CompoundResponse.results response
           = [OperationResult.Sequence Status.Ok (Some seq); ok_only OpCode.PutFh; r].

Lemma on_file_status_served w fh op :
  steady w → 2 < Client.max_operations (client w) →
  (∃ r p, executes (mkPosition (Some fh) None (stored w)) op r p) →
  ∃ response w' r p, compound_status [Operation.PutFh fh; op] w = (w', Ok response) ∧ file_answer r response
    ∧ executes (mkPosition (Some fh) None (stored w)) op r p ∧ moved w (store p) w'.
Proof.
  intros Hw Hmax (r & p & Hx).
  destruct (compound_status_served [Operation.PutFh fh; op] w Hw) as (resp & w' & Hcall & Hserved); [exact Hmax| |].
  { split; [eexists _, _; apply exec_put|]. intros r1 p1 H1. inversion H1; subst. split; [by eexists _, _|done]. }
  destruct (served_moved _ _ _ _ Hserved) as (seq & rs & p' & Hres & Hok & Hruns & Hmoved).
  inversion Hruns as [|? ? r1 p1 ? rs1 ? Hput Hr1]; subst. inversion Hput; subst.
  inversion Hr1 as [|? ? r2 p2 ? rs2 ? Hx2 Hr2]; subst. inversion Hr2; subst.
  assert (file_answer r2 resp) by (split; [done|]; split; [by eapply executes_ok|by eexists]).
  by exists resp, w', r2, p'.
Qed.

Lemma on_file_served w fh op :
  steady w → 2 < Client.max_operations (client w) →
  (∃ r p, executes (mkPosition (Some fh) None (stored w)) op r p) →
  ∃ response w' r p, compound [Operation.PutFh fh; op] w = (w', Ok response) ∧ file_answer r response
    ∧ executes (mkPosition (Some fh) None (stored w)) op r p ∧ moved w (store p) w'.
Proof.
  intros Hw Hmax Hx. destruct (on_file_status_served w fh op Hw Hmax Hx) as (resp & w' & r & p & Hcall & Ha & Hx' & Hm).
  exists resp, w', r, p. split_and!; [|done..]. unfold compound. erewrite bind_run; [|exact Hcall].
  erewrite bind_run; [reflexivity|]. unfold lift, CompoundResponse.ensure_ok. destruct Ha as [-> _]. reflexivity.
Qed.

Lemma file_answer_all_ok r response :
  file_answer r response → Forall (λ r, OperationResult.status r = Status.Ok) (CompoundResponse.results response).
Proof. intros (_ & Hr & seq & ->). by repeat constructor. Qed.
Lemma file_answer_last r response op : file_answer r response → ensure_last_status response op = Ok tt.
Proof. intros (_ & Hr & seq & Hres). unfold ensure_last_status. rewrite Hres. simpl. by rewrite Hr. Qed.

(** CLOSE ends the open state. *)
Lemma close_served w fh id access :
  steady w → 2 < Client.max_operations (client w) → mkOpened id fh access ∈ opens (stored w) →
  ∃ w', Files.close (mkOpenedFile fh id) w = (w', Ok tt) ∧ moved w (drop_open id (stored w)) w'.
Proof.
  intros Hw Hmax Hin.
  destruct (on_file_status_served w fh (Operation.Close (Client.open_seqid (client w)) id) Hw Hmax)
    as (resp & w1 & r & p & Hcall & Ha & Hx & Hm).
  { eexists _, _. by apply (exec_close _ _ _ _ _ access id). }
  inversion Hx as [| | | | | | |? ? ? ? ? access' closed Hin'| | | | |]; subst. simpl in Hm.
  destruct (advance_open_seqid_moved (response_consumed_owner_seqid resp OpCode.Close) w1 (proj1 Hm)) as (w2 & Hadv & Hm2).
  exists w2. split; [|eapply moved_trans; [exact Hm|]; destruct Hm as (_ & _ & <-); done].
  unfold Files.close, Files.close_with_current_filehandle. apply loop_break. unfold Files.close_step.
  erewrite bind_run; [|reflexivity]. erewrite bind_run with (a := inl resp); [|unfold attempt; simpl app; rewrite Hcall; reflexivity].
  erewrite bind_run; [|exact Hadv]. erewrite bind_run; [|reflexivity].
  unfold response_operation_has_delayed_status, response_operation_requires_session_recovery.
  rewrite !any_result_ok by (done || by eapply file_answer_all_ok). cbn [andb].
  erewrite bind_run; [|unfold lift, CompoundResponse.ensure_ok; destruct Ha as [-> _]; reflexivity].
  erewrite bind_run; [reflexivity|]. unfold Files.ensure_status, Files.ensure_status_for, lift.
  by erewrite file_answer_last.
Qed.

(** An open state that was added and dropped again leaves no trace. *)
Lemma drop_add_open fh id access s : fresh_open fh id s → drop_open id (add_open (mkOpened id fh access) s) = s.
Proof.
  unfold fresh_open. intros H. unfold drop_open, add_open, set_opens. simpl. destruct s as [rt nm fl op bt]; simpl in *. f_equal.
  rewrite filter_cons_False by (simpl; tauto). induction H as [|o l [_ Ho] _ IH]; [done|].
  by rewrite filter_cons_True, IH.
Qed.

(** ** Reading *)

Lemma read_opened_at_served w fh id access offset count c :
  steady w → 2 < Client.max_operations (client w) → mkOpened id fh access ∈ opens (stored w) → can_read access →
  files (stored w) !! fh = Some c → 0 ≤ offset ≤ zlen c → 0 < count →
  ∃ eof data w', Files.read_opened_at (mkOpenedFile fh id) offset count w = (w', Ok (eof, data))
    ∧ moved w (stored w) w' ∧ zlen data ≤ count ∧ offset + zlen data ≤ zlen c
    ∧ ztake offset c ++ data = ztake (offset + zlen data) c
    ∧ (data = [] → eof = true) ∧ (eof = true → offset + zlen data = zlen c).
Proof.
  intros Hw Hmax Hin Hacc Hc Ho Hcount.
  destruct (on_file_served w fh (Operation.Read id offset count) Hw Hmax) as (resp & w1 & r & p & Hcall & Ha & Hx & Hm).
  { eexists _, _. eapply (exec_read _ _ _ _ _ _ _ _ (ztake count (zdrop offset c)) (bool_decide (zlen c ≤ offset + count)));
      [done..|lia|rewrite zlen_ztake_min by lia; lia| | |].
    - rewrite zlen_ztake_min by lia. destruct (Z.min_spec count (zlen (zdrop offset c))) as [[? ->]|[? ->]]; [done|].
      by rewrite !ztake_all by lia.
    - intros _ Hnil. apply bool_decide_eq_true. apply (f_equal zlen) in Hnil.
      rewrite zlen_ztake_min, zlen_drop in Hnil by lia. simpl in Hnil. zlen_lia.
    - intros He%bool_decide_eq_true. rewrite zlen_ztake_min, zlen_drop by lia. lia. }
  inversion Hx as [| | | | | | | |? ? ? ? access' ? ? c' data eof Hin' ? Hc' ? Hle Hd Hne' Heof| | | |]; subst. simplify_eq.
  pose proof (Hne' Hcount) as Hne. clear Hne'. simpl in Hm. assert (offset + zlen data ≤ zlen c) as Hlen.
  { rewrite Hd, zlen_ztake_min, zlen_drop by (apply zlen_nonneg || lia). lia. }
  exists eof, data, w1. split_and!; [|done|done|done| |done|intros He; specialize (Heof He); lia].
  - unfold Files.read_opened_at. erewrite bind_run; [|exact Hcall].
    destruct Ha as (_ & _ & seq & Hres). unfold lift, response_read, find_result. rewrite Hres. simpl.
    unfold validate_read_result_size. destruct (Z.gtb_spec (zlen data) count); [lia|].
    destruct (Z.eqb_spec (zlen data) 0) as [Hz|]; [|by rewrite andb_false_r].
    assert (data = []) as -> by (destruct data; [done|zlen_lia]). rewrite (Hne eq_refl). by rewrite andb_false_r.
  - rewrite Hd at 1. apply ztake_extend; [lia|apply zlen_nonneg|done].
Qed.

Lemma settings_fields w w' :
  settings w' = settings w →
  Client.max_operations (client w') = Client.max_operations (client w)
  ∧ Client.read_size (client w') = Client.read_size (client w)
  ∧ Client.write_size (client w') = Client.write_size (client w).
Proof. unfold settings. by intros [=]. Qed.

Lemma steady_read_size w : steady w → size_ok (Client.read_size (client w)).
Proof. intros [[Hc _] _ _ _ _]. apply Hc. Qed.
Lemma steady_write_size w : steady w → size_ok (Client.write_size (client w)).
Proof. intros [[Hc _] _ _ _ _]. apply Hc. Qed.

Lemma post_run {A} (m : M (World W R) Error A) w w' a (Q : A → World W R → Prop) (X : Error → World W R → Prop) :
  m w = (w', Ok a) → Q a w' → post m w Q X.
Proof. intros Hm HQ. unfold post. by rewrite Hm. Qed.

(** An opened file: its state is the server's, and there is room for the calls. *)
Record in_use (w : World W R) (o : OpenedFile) (access : Z) : Prop := {
  use_steady : steady w;
  use_room : 2 < Client.max_operations (client w);
  use_state : mkOpened (stateid o) (handle o) access ∈ opens (stored w);
}.

Lemma in_use_moved w o access s w' : in_use w o access → moved w s w' → opens s = opens (stored w) → in_use w' o access.
Proof.
  intros [Hw Hr Hin] (Hw' & Hset & <-) Ho. destruct (settings_fields _ _ Hset) as (Hmax & _).
  split; [done|by rewrite Hmax|by rewrite Ho].
Qed.

Lemma read_to_end_served w o access c :
  in_use w o access → can_read access → files (stored w) !! handle o = Some c → zlen c ≤ u64_max →
  post (Files.read_opened_to_end o) w (λ out w', out = c ∧ moved w (stored w) w') (λ _ _, False).
Proof.
  intros Huse Hacc Hc Hlen. pose proof (zlen_nonneg c).
  apply (post_loop (λ l w', moved w (stored w) w' ∧ 0 ≤ l.1 ≤ zlen c ∧ l.2 = ztake l.1 c) (λ l _, zlen c - l.1)).
  - intros [off out] w' (_ & Ho & _). lia.
  - intros [off out] w1 (Hm1 & Ho & Hout). simpl in Ho, Hout. unfold Files.read_opened_to_end_step.
    pose proof (in_use_moved _ _ _ _ _ Huse Hm1 eq_refl) as [Hw1 Hr1 Hin1]. destruct o as [fh id]. simpl in *.
    apply post_bind, post_gets. pose proof (steady_read_size _ Hw1) as Hsize. unfold size_ok in Hsize.
    assert (files (stored w1) !! fh = Some c) as Hc1 by (destruct Hm1 as (_ & _ & ->); done).
    destruct (read_opened_at_served w1 fh id access off (Client.read_size (client w1)) c)
      as (eof & data & w2 & Hread & Hm2 & Hle & Hbound & Happ & Hne & Heof); [done..|lia|].
    apply post_bind. eapply post_run; [exact Hread|]. simpl.
    assert (moved w (stored w) w2) as Hm by (eapply moved_trans; [exact Hm1|]; destruct Hm1 as (_ & _ & <-); done).
    destruct (is_empty data) eqn:He.
    { apply is_empty_spec in He as ->. apply post_ret. split; [|done].
      specialize (Heof (Hne eq_refl)). rewrite zlen_nil in Heof. rewrite Hout. apply ztake_all. lia. }
    apply is_empty_false in He. apply post_bind, post_lift. unfold V4Client.advance_offset, checked_add.
    destruct (Z.gtb_spec (zlen data) u64_max); [lia|]. destruct (Z.leb_spec (off + zlen data) u64_max); [|lia].
    simpl. rewrite Hout, Happ. destruct eof; apply post_ret.
    + split; [|done]. apply ztake_all. specialize (Heof eq_refl). lia.
    + simpl. split; [split_and!; [done|lia|lia|done]|lia].
  - split_and!; [apply moved_refl, Huse|simpl; lia..|done].
  - simpl. change (Zpos Files.offset_fuel) with (u64_max + 2). lia.
Qed.

(** A path of the store that fits into a COMPOUND. *)
Definition located (w : World W R) (path : str) (dir : FileHandle) (name : str) : Prop :=
  ∃ parent, split_parent path = Ok (parent, name) ∧ resolve (stored w) parent = Some dir
    ∧ zlen parent + 3 < Client.max_operations (client w).

(** The file is closed after a body that succeeds. *)
Lemma post_finish_opened {A} (close : M (World W R) Error unit) (body : M (World W R) Error A) w Q :
  post body w (λ a w1, ∃ w2, close w1 = (w2, Ok tt) ∧ Q a w2) (λ _ _, False) →
  post (Files.finish_opened close body) w Q (λ _ _, False).
Proof.
  unfold post. destruct (body w) as [w1 [a|e|f]] eqn:Hbody; [|done|done]. intros (w2 & Hclose & HQ).
  unfold Files.finish_opened. erewrite bind_run; [|unfold attempt; rewrite Hbody; reflexivity].
  erewrite bind_run; [|unfold attempt; rewrite Hclose; reflexivity]. done.
Qed.

(** The body of an operation on an opened file, and the CLOSE behind it. *)
Lemma post_opened_body {A} w s0 path access how fh id w1 (body : OpenedFile → M (World W R) Error A) Q :
  Files.open path access how w = (w1, Ok (mkOpenedFile fh id)) →
  moved w (add_open (mkOpened id fh (wanted access)) s0) w1 → 2 < Client.max_operations (client w) →
  (in_use w1 (mkOpenedFile fh id) (wanted access) →
   post (body (mkOpenedFile fh id)) w1
     (λ a w2, ∃ s, moved w1 s w2 ∧ mkOpened id fh (wanted access) ∈ opens s
        ∧ ∀ w3, moved w (drop_open id s) w3 → Q a w3) (λ _ _, False)) →
  post (opened ← Files.open path access how; Files.finish_opened (Files.close opened) (body opened)) w Q (λ _ _, False).
Proof.
  intros Hopen Hm1 Hmax Hbody. pose proof Hm1 as (Hw1 & Hset1 & Hst1). destruct (settings_fields _ _ Hset1) as (Hmax1 & _).
  apply post_bind. eapply post_run; [exact Hopen|]. apply post_finish_opened.
  assert (in_use w1 (mkOpenedFile fh id) (wanted access)) as Huse.
  { split; [done|lia|]. rewrite Hst1. simpl. by left. }
  eapply post_mono; [by apply Hbody| |done]. intros a w2 (s2 & Hm2 & Hin2 & HQ).
  pose proof Hm2 as (Hw2 & Hset2 & Hst2). destruct (settings_fields _ _ Hset2) as (Hmax2 & _).
  destruct (close_served w2 fh id (wanted access)) as (w3 & Hclose & Hm3); [done|lia|by rewrite Hst2|].
  exists w3. split; [done|]. apply HQ. eapply moved_trans; [exact Hm1|]. eapply moved_trans; [exact Hm2|].
  by rewrite <-Hst2.
Qed.

Lemma located_room w path dir name : located w path dir name → 2 < Client.max_operations (client w).
Proof. intros (parent & _ & _ & Hroom). pose proof (zlen_nonneg parent). lia. Qed.

Lemma post_read4 w path dir name fh c :
  steady w → located w path dir name → names (stored w) !! (dir, name) = Some fh →
  files (stored w) !! fh = Some c → not_open fh (stored w) → zlen c ≤ u64_max →
  post (Files.read path) w (λ out w', out = c ∧ moved w (stored w) w') (λ _ _, False).
Proof.
  intros Hw Hl Hn Hf Ho Hlen. pose proof (located_room _ _ _ _ Hl). destruct Hl as (parent & Hsplit & Hdir & Hroom).
  destruct (open_existing w Hw path OPEN4_SHARE_ACCESS_READ OpenHow.NoCreate KeepPath parent name dir Hsplit Hdir Hroom fh)
    as (id & w1 & Hopen & Hfresh & Hm1); [done|by eexists|done|by left|].
  eapply post_opened_body; [exact Hopen|exact Hm1|done|]. intros Huse. pose proof Hm1 as (_ & _ & Hst1).
  eapply post_mono; [eapply read_to_end_served; [exact Huse|done|by rewrite Hst1|done]| |done].
  intros out w2 [-> Hm2]. exists (stored w1). split_and!; [done|apply Huse|]. intros w3 Hm3. split; [done|].
  by rewrite Hst1, drop_add_open in Hm3.
Qed.

(** A file that an operation may create: it exists and is not open, or there is no such entry. *)
Definition writable (w : World W R) (dir : FileHandle) (name : str) : Prop :=
  match names (stored w) !! (dir, name) with
  | Some fh => is_Some (files (stored w) !! fh) ∧ not_open fh (stored w)
  | None => Forall (λ o, is_Some (files (stored w) !! opened_file o)) (opens (stored w))
  end.

(** The store with [c] in the file [name] of [dir], whose handle is [fh]. *)
Definition file_put (dir : FileHandle) (name : str) (fh : FileHandle) (c : list byte) (s : Store) : Store :=
  set_names (<[(dir, name) := fh]> (names s)) (set_file fh c s).

(** The handle is the file's, or a new one. *)
Definition handle_of (s : Store) (dir : FileHandle) (name : str) (fh : FileHandle) : Prop :=
  match names s !! (dir, name) with Some fh' => fh = fh' | None => files s !! fh = None end.

Lemma open_unchecked w path access attrs dir name :
  steady w → located w path dir name → writable w dir name →
  ∃ fh id w' c, Files.open path access (OpenHow.Unchecked attrs) w = (w', Ok (mkOpenedFile fh id))
    ∧ handle_of (stored w) dir name fh ∧ fresh_open fh id (stored w)
    ∧ moved w (add_open (mkOpened id fh (wanted access)) (file_put dir name fh c (stored w))) w'.
Proof.
  intros Hw (parent & Hsplit & Hdir & Hroom) Hwr. unfold writable, handle_of in *.
  destruct (names (stored w) !! (dir, name)) as [fh|] eqn:Hn.
  - destruct Hwr as [[c Hc] Ho].
    destruct (open_existing w Hw path access (OpenHow.Unchecked attrs) KeepPath parent name dir Hsplit Hdir Hroom fh)
      as (id & w1 & Hopen & Hfresh & Hm1); [done|by eexists|done|right; by eexists|].
    exists fh, id, w1, c. split_and!; [done..|]. unfold file_put. rewrite set_file_id by done.
    unfold set_names. rewrite insert_id by done. by destruct (stored w).
  - destruct (open_created w Hw path access (OpenHow.Unchecked attrs) KeepPath parent name dir Hsplit Hdir Hroom)
      as (fh & id & w1 & Hopen & Hnew & Hfresh & Hm1); [done|eexists; by left|done|].
    by exists fh, id, w1, [].
Qed.

(** ** Writing *)


(** One WRITE: a part of the data is in the file, committed if need be. *)
Lemma commit_opened_served w o access offset count :
  in_use w o access →
  ∃ w', Files.commit_opened o offset count w = (w', Ok (CommitResult.mkCommitResult (boot (stored w))))
    ∧ moved w (stored w) w'.
Proof.
  intros [Hw Hr Hin]. destruct o as [fh id].
  destruct (on_file_served w fh (Operation.Commit offset count) Hw Hr) as (resp & w1 & r & p & Hcall & Ha & Hx & Hm).
  { eexists _, _. apply exec_commit. }
  inversion Hx; subst. simpl in Hm. exists w1. split; [|done].
  unfold Files.commit_opened. erewrite bind_run; [|exact Hcall].
  destruct Ha as (_ & _ & seq & Hres). unfold lift, response_commit, find_result. by rewrite Hres.
Qed.

Lemma write_step_served w o access offset data c :
  in_use w o access → can_write access → files (stored w) !! handle o = Some c → 0 ≤ offset →
  offset + zlen data ≤ u64_max → 0 < zlen data →
  ∃ count w', Files.write_opened_at_step o (offset, data) w = (w', Ok (inl (offset + count, zdrop count data)))
    ∧ 0 < count ≤ zlen data
    ∧ moved w (set_file (handle o) (splice c offset (ztake count data)) (stored w)) w'.
Proof.
  intros Huse Hacc Hc Ho Hlen Hdata. pose proof Huse as [Hw Hr Hin]. destruct o as [fh id]. simpl in *.
  pose proof (steady_write_size _ Hw) as Hsize. set (chunk := Z.min (zlen data) (Client.write_size (client w))).
  assert (size_ok chunk) as Hchunk by (unfold size_ok, chunk in *; lia).
  assert (zlen (ztake chunk data) = chunk) as Hchunk_len by (rewrite zlen_ztake_min; unfold size_ok, chunk in *; lia).
  destruct (on_file_served w fh (Operation.Write id offset StableHow.FileSync (ztake chunk data)) Hw Hr)
    as (resp & w1 & r & p & Hcall & Ha & Hx & Hm).
  { eexists _, _. eapply (exec_write _ _ _ _ _ _ _ _ _ chunk StableHow.FileSync); [done..|].
    rewrite Hchunk_len. unfold size_ok in Hchunk. lia. }
  destruct (write_inv _ _ _ _ _ _ _ _ _ Hx) as (c' & count & committed & Hc' & Hcount & -> & ->).
  rewrite Hc in Hc'. injection Hc' as <-. simpl in Hm. rewrite Hchunk_len in Hcount.
  assert (ztake count (ztake chunk data) = ztake count data) as Htake.
  { unfold ztake. rewrite take_take. f_equal. lia. }
  rewrite Htake in Hm.
  assert (in_use w1 (mkOpenedFile fh id) access) as Huse1 by (by eapply in_use_moved).
  assert (∃ w2, (if StableHow.satisfies committed StableHow.FileSync then mret tt
    else commit ← Files.commit_opened (mkOpenedFile fh id) offset count;
         if bool_decide (CommitResult.verifier commit = boot (stored w)) then mret tt
         else throw (Protocol [PLit "NFSv4 COMMIT verifier changed after unstable WRITE"])) w1 = (w2, Ok tt)
    ∧ moved w1 (stored w1) w2) as (w2 & Hsync & Hm2).
  { destruct (StableHow.satisfies committed StableHow.FileSync); [exists w1; split; [done|apply moved_refl, Huse1]|].
    destruct (commit_opened_served w1 _ access offset count Huse1) as (w2 & Hcommit & Hm2).
    exists w2. split; [|done]. erewrite bind_run; [|exact Hcommit]. simpl.
    destruct Hm as (_ & _ & ->). simpl. by rewrite bool_decide_true. }
  exists count, w2. split_and!; [|lia|unfold chunk in *; lia|].
  - unfold Files.write_opened_at_step. destruct (is_empty data) eqn:He; [apply is_empty_spec in He as ->; zlen_lia|].
    erewrite bind_run; [|reflexivity]. fold chunk. erewrite bind_run; [|exact Hcall].
    erewrite bind_run with (a := WriteResult.mkWriteResult count committed (boot (stored w))).
    2: { destruct Ha as (_ & _ & seq & Hres). unfold lift, response_write, find_result. rewrite Hres. simpl.
         unfold checked_value, ok_value, validate_write_result_count. simpl. rewrite wrap_u32_size by done.
         destruct (Z.gtb_spec count chunk); [lia|]. destruct (Z.eqb_spec count 0); [lia|]. by rewrite andb_false_r. }
    cbv zeta. erewrite bind_run; [|exact Hsync].
    erewrite bind_run; [|unfold lift, V4Client.advance_offset, checked_add; simpl;
      destruct (Z.gtb_spec count u64_max); [unfold chunk in *; lia|];
      destruct (Z.leb_spec (offset + count) u64_max); [reflexivity|unfold chunk in *; lia]].
    simpl WriteResult.count. destruct (Z.ltb_spec (zlen data) count); [unfold chunk in *; lia|].
    erewrite bind_run; [|reflexivity]. reflexivity.
  - eapply moved_trans; [exact Hm|]. destruct Hm as (_ & _ & <-). done.
Qed.

(** All of the data is in the file, at its place. *)
Lemma write_opened_at_served w o access offset data c :
  in_use w o access → can_write access → files (stored w) !! handle o = Some c → 0 ≤ offset →
  offset + zlen data ≤ u64_max →
  post (Files.write_opened_at o offset data) w
    (λ _ w', moved w (set_file (handle o) (splice c offset data) (stored w)) w') (λ _ _, False).
Proof.
  intros Huse Hacc Hc Ho Hlen.
  apply (post_loop (λ l w', ∃ done, data = done ++ l.2 ∧ l.1 = offset + zlen done
                       ∧ moved w (set_file (handle o) (splice c offset done) (stored w)) w') (λ l _, zlen l.2)).
  - intros l w' _. apply zlen_nonneg.
  - intros [off d] w1 (dn & Hd & Hoff & Hm1). simpl in *. destruct (decide (d = [])) as [->|Hne].
    { unfold Files.write_opened_at_step. simpl. apply post_ret. rewrite app_nil_r in Hd. by subst dn. }
    assert (0 < zlen d) as Hpos by (destruct d; [done|zlen_lia]).
    pose proof (zlen_nonneg dn). assert (zlen data = zlen dn + zlen d) as Hsum by (subst data; apply zlen_app).
    destruct (write_step_served w1 o access off d (splice c offset dn)) as (count & w2 & Hstep & Hcount & Hm2);
      [by eapply in_use_moved|done| |lia|lia|done|].
    { destruct Hm1 as (_ & _ & ->). simpl. by rewrite lookup_insert_eq. }
    eapply post_run; [exact Hstep|]. simpl. split.
    + exists (dn ++ ztake count d). rewrite zlen_app, zlen_ztake_min by lia. split_and!.
      * by rewrite <-app_assoc, ztake_zdrop.
      * lia.
      * eapply moved_trans; [exact Hm1|]. destruct Hm1 as (_ & _ & Hst1). rewrite Hst1, set_file_twice in Hm2.
        rewrite Hoff, splice_app in Hm2 by done. done.
    + rewrite zlen_drop; lia.
  - exists []. split_and!; [done|simpl; zlen_lia|]. simpl. rewrite set_file_id by done. apply moved_refl, Huse.
  - simpl. pose proof (zlen_nonneg data). lia.
Qed.

Lemma set_size_served w o access c size :
  in_use w o access → can_write access → files (stored w) !! handle o = Some c → 0 ≤ size ≤ u64_max →
  ∃ w', Files.set_opened_size o size w = (w', Ok tt)
    ∧ moved w (set_file (handle o) (resize size c) (stored w)) w'.
Proof.
  intros [Hw Hr Hin] Hacc Hc Hsize. destruct o as [fh id]. simpl in *.
  assert (∃ attrs, Fattr.size size = Ok attrs) as [attrs Hattrs].
  { unfold Fattr.size, Fattr.assemble. simpl. by eexists. }
  destruct (on_file_served w fh (Operation.SetAttr id attrs) Hw Hr) as (resp & w1 & r & p & Hcall & Ha & Hx & Hm).
  { eexists _, _. by eapply (exec_resize _ _ _ _ _ _ size). }
  inversion Hx as [| | | | | | | | | | |? ? ? ? access' ? size' c' Hin' ? Hc' Hattrs' ?|]; subst. simplify_eq. simpl in Hm.
  assert (size' = size) as -> by (by eapply size_attr_inj).
  exists w1. split; [|done]. unfold Files.set_opened_size. rewrite Hattrs. erewrite bind_run; [|reflexivity].
  unfold Files.set_opened_attrs. erewrite bind_run; [|exact Hcall].
  unfold Files.ensure_status, Files.ensure_status_for, lift. by erewrite file_answer_last.
Qed.

Lemma drop_file_put dir name fh id access c s0 :
  fresh_open fh id s0 →
  drop_open id (add_open (mkOpened id fh access) (file_put dir name fh c s0)) = file_put dir name fh c s0.
Proof. intros H. by apply drop_add_open. Qed.

(** Truncate, then write from the start. *)
Lemma rewrite_served w o access data c :
  in_use w o access → can_write access → files (stored w) !! handle o = Some c → zlen data ≤ u64_max →
  post (Files.set_opened_size o 0 ;; Files.write_opened_at o 0 data) w
    (λ _ w', moved w (set_file (handle o) data (stored w)) w') (λ _ _, False).
Proof.
  intros Huse Hacc Hc Hlen. destruct (set_size_served w o access c 0 Huse Hacc Hc) as (w1 & Hsize & Hm1); [by vm_compute|].
  apply post_bind. eapply post_run; [exact Hsize|]. pose proof Hm1 as (_ & _ & Hst1).
  eapply post_mono; [eapply write_opened_at_served; [by eapply in_use_moved|done|rewrite Hst1; apply lookup_insert_eq|done|lia]| |done].
  intros [] w2 Hm2. cbn beta in Hm2. eapply moved_trans; [exact Hm1|]. rewrite Hst1, set_file_twice in Hm2.
  assert (resize 0 c = []) as Hz by (unfold resize, zeros; replace (Z.to_nat (0 - zlen c)) with 0%nat by zlen_lia; done).
  by rewrite Hz, splice_empty in Hm2.
Qed.

Lemma set_file_put dir name fh c c' s : set_file fh c (file_put dir name fh c' s) = file_put dir name fh c s.
Proof. unfold file_put, set_file, set_names, set_files. simpl. by rewrite insert_insert_eq. Qed.

(** [write] puts the data into the file, which it creates if need be. *)
Lemma post_write w path data dir name :
  steady w → located w path dir name → writable w dir name → zlen data ≤ u64_max →
  post (Files.write path data) w
    (λ _ w', ∃ fh, handle_of (stored w) dir name fh ∧ not_open fh (stored w)
       ∧ moved w (file_put dir name fh data (stored w)) w') (λ _ _, False).
Proof.
  intros Hw Hl Hwr Hlen. unfold Files.write, Files.write_with_mode, Files.unchecked.
  assert (∃ attrs, Fattr.mode mode_0644 = Ok attrs) as [attrs Hattrs] by by eexists.
  rewrite Hattrs. apply post_bind, post_bind, post_ret, post_ret.
  destruct (open_unchecked w path OPEN4_SHARE_ACCESS_BOTH attrs dir name Hw Hl Hwr)
    as (fh & id & w1 & c & Hopen & Hh & Hfresh & Hm1).
  pose proof Hm1 as (_ & _ & Hst1).
  eapply (post_opened_body _ _ _ _ _ _ _ _
    (λ opened, Files.set_opened_size opened 0 ;; Files.write_opened_at opened 0 data));
    [exact Hopen|exact Hm1|by eapply located_room|]. intros Huse.
  eapply post_mono; [eapply rewrite_served; [exact Huse|done|rewrite Hst1; apply lookup_insert_eq|done]| |done].
  intros [] w2 Hm2. cbn beta in Hm2. eexists. split_and!; [exact Hm2|rewrite Hst1; by left|]. intros w3 Hm3. exists fh.
  split_and!; [done|eapply list.Forall_impl; [exact Hfresh|]; by intros o []|].
  rewrite Hst1 in Hm3. simpl in Hm3.
  change (set_file fh data (add_open ?o ?s)) with (add_open o (set_file fh data s)) in Hm3.
  by rewrite set_file_put, drop_file_put in Hm3.
Qed.
End server.
