(* ===== verification/V4Atomic.v ===== *)
(** * Atomic replacement against an NFSv4 server

    [Files.write_atomic] writes a new file under a temporary name next to its
    target and renames it: the name of the target changes from the old file to
    one with the data in a single step of the server, the old file keeps its
    contents, and neither the temporary name nor an open state is left behind
    (src/src/v4/blocking.rs, [write_atomic_with_mode] and [rename]). *)

From Stdlib Require Import Strings.String Strings.Byte.
From stdpp Require Import gmap.
From S2P Require Import Prelude Text Xdr Status Errors Rpc V3Client V3Blocking V3ClientSpec V3BlockingSpec V3Store Tame.
From S2P Require Import V4Attr V4AttrSpec V4Ops V4Results V4Client V4ClientSpec V4Extract V4Paths.
From S2P Require Import V4Session V4SessionSpec V4Files V4FilesSpec V4Store.
Import FileHandle (FileHandle).
Import OpenHow (OpenHow).
Import Operation (Operation).
Import OperationResult (OperationResult).
Import CompoundResponse (CompoundResponse).

#[local] Open Scope Z_scope.

(** ** Names under an insertion *)

(** A new entry does not change where a path leads. *)
Lemma resolve_insert s k fh components : ∀ dir d,
  names s !! k = None → resolve_from s dir components = Some d →
  resolve_from (set_names (<[k := fh]> (names s)) s) dir components = Some d.
Proof.
  induction components as [|name rest IH]; intros dir d Hk; cbn [resolve_from]; [done|].
  intros (next & Hn & Hd)%bind_Some. simpl.
  rewrite lookup_insert_ne by congruence. rewrite Hn. simpl. by apply IH.
Qed.

(** Contents do not matter for names. *)
Lemma resolve_names s s' components : ∀ dir,
  names s' = names s → resolve_from s' dir components = resolve_from s dir components.
Proof.
  induction components as [|name rest IH]; intros dir Hn; cbn [resolve_from]; [done|]. rewrite Hn.
  destruct (names s !! (dir, name)); [simpl; by apply IH|done].
Qed.

Section server.
Context {W R : Type} `{!Nfs4Rpc W R, !Nfs4Net W R, !Nfs4Laws W R, !Nfs4Server W R}.

Lemma located_put (w w' : World W R) path dir name fh c :
  located w path dir name → handle_of (stored w) dir name fh → moved w (file_put dir name fh c (stored w)) w' →
  located w' path dir name.
Proof.
  intros (parent & Hsplit & Hdir & Hroom) Hh (_ & Hset & Hst). destruct (settings_fields _ _ Hset) as (Hmax & _).
  exists parent. split_and!; [done| |by rewrite Hmax]. rewrite Hst. unfold resolve in *.
  change (root (file_put dir name fh c (stored w))) with (root (stored w)).
  rewrite (resolve_names (set_names (<[(dir, name):=fh]> (names (stored w))) (stored w))) by done.
  unfold handle_of in Hh. destruct (names (stored w) !! (dir, name)) as [fh'|] eqn:Hn.
  - subst fh'. rewrite (resolve_names (stored w)); [done|]. simpl. by rewrite insert_id.
  - by apply resolve_insert.
Qed.

(** What was written is what is read, whether the file existed or not. *)
Lemma post_write_then_read (w : World W R) path data dir name :
  steady w → located w path dir name → writable w dir name → zlen data ≤ u64_max →
  post (Files.write path data ;; Files.read path) w
    (λ out w', out = data ∧ ∃ fh, handle_of (stored w) dir name fh
       ∧ moved w (file_put dir name fh data (stored w)) w') (λ _ _, False).
Proof.
  intros Hw Hl Hwr Hlen. apply post_bind. eapply post_mono; [by apply post_write| |done].
  intros [] w1 (fh & Hh & Ho & Hm1). pose proof Hm1 as (Hw1 & _ & Hst1).
  eapply post_mono; [eapply (post_read4 w1 path dir name fh data); [done|by eapply located_put|..|done]| |done].
  - rewrite Hst1. simpl. apply lookup_insert_eq.
  - rewrite Hst1. simpl. apply lookup_insert_eq.
  - by rewrite Hst1.
  - intros out w2 [-> Hm2]. split; [done|]. exists fh. split; [done|]. eapply moved_trans; [exact Hm1|].
    by rewrite <-Hst1.
Qed.

(** ** Renaming *)

Lemma all_ok_last response op :
  Forall (λ r, OperationResult.status r = Status.Ok) (CompoundResponse.results response) →
  CompoundResponse.results response ≠ [] → ensure_last_status response op = Ok tt.
Proof.
  intros Hall Hne. unfold ensure_last_status.
  destruct (CompoundResponse.results response) as [|r rs _] using rev_ind; [done|]. rewrite last_snoc.
  apply Forall_app in Hall as [_ [Hr _]%list.Forall_cons]. by rewrite Hr.
Qed.

Lemma rename_served w from to p1 n1 d1 p2 n2 d2 fh :
  steady w → split_parent from = Ok (p1, n1) → split_parent to = Ok (p2, n2) →
  resolve (stored w) p1 = Some d1 → resolve (stored w) p2 = Some d2 →
  zlen p1 + zlen p2 + 4 < Client.max_operations (client w) →
  names (stored w) !! (d1, n1) = Some fh → names (stored w) !! (d2, n2) ≠ Some fh →
  ∃ w', Files.rename from to w = (w', Ok tt)
    ∧ moved w (set_names (<[(d2, n2) := fh]> (delete (d1, n1) (names (stored w)))) (stored w)) w'.
Proof.
  intros Hw Hs1 Hs2 Hd1 Hd2 Hroom Hn1 Hn2.
  set (ops := Files.walk_ops p1 ++ [Operation.SaveFh] ++ Files.walk_ops p2 ++ [Operation.Rename n1 n2]).
  destruct (compound_served ops w Hw) as (resp & w1 & Hcall & Hserved).
  { unfold ops, Files.walk_ops. rewrite !zlen_app, !zlen_cons, !zlen_fmap. simpl. zlen_lia. }
  { eapply proceeds_walk; [exact Hd1|]. split; [eexists _, _; apply exec_save|]. intros r1 q1 H1.
    inversion H1; subst. eapply proceeds_walk; [exact Hd2|].
    split; [by eexists _, _; apply (exec_rename _ _ _ _ _ fh)|done]. }
  destruct (served_moved _ _ _ _ Hserved) as (seq & rs & p & Hres & Hok & Hruns & Hm).
  pose proof (runs_ok _ _ _ _ Hruns) as Hall.
  destruct (runs_app_inv _ _ _ _ _ Hruns) as (rs1 & rs2 & q1 & -> & H1 & H2).
  destruct (runs_walk_inv _ _ _ _ _ _ H1) as (d & Hd & -> & _). simplify_eq.
  inversion H2 as [|? ? r2 q2 ? rs3 ? Hx H3]; subst. inversion Hx; subst.
  destruct (runs_app_inv _ (Files.walk_ops p2) [Operation.Rename n1 n2] _ _ H3) as (rs4 & rs5 & q3 & -> & H4 & H5).
  destruct (runs_walk_inv _ _ _ _ _ _ H4) as (d' & Hd' & -> & _). simplify_eq.
  inversion H5 as [|? ? r4 q4 ? rs6 ? Hx2 H6]; subst. inversion H6; subst.
  inversion Hx2; subst. simplify_eq. simpl in Hm.
  exists w1. split; [|done]. unfold Files.rename. rewrite Hs1. erewrite bind_run; [|reflexivity].
  cbn beta iota. rewrite Hs2. erewrite bind_run; [|reflexivity]. cbn beta iota. erewrite bind_run; [|exact Hcall].
  unfold Files.ensure_status, Files.ensure_status_for, lift. rewrite all_ok_last; [done| |by rewrite Hres].
  rewrite Hres. by constructor.
Qed.

(** ** Atomic writes *)

Lemma post_on_fst_run {A B} (m : M (World W R) Error A) (k : A → M (World W R * TempEnv) Error B) w w' env a Q X :
  m w = (w', Ok a) → post (k a) (w', env) Q X → post (a ← on_fst m; k a) (w, env) Q X.
Proof. intros Hm Hk. apply post_bind. unfold post at 1, on_fst, zoom. simpl. by rewrite Hm. Qed.

(** The new file, written and closed under its temporary name. *)
Lemma write_temp_served w path data dir name attrs :
  steady w → located w path dir name → names (stored w) !! (dir, name) = None →
  Forall (λ o, is_Some (files (stored w) !! opened_file o)) (opens (stored w)) → zlen data ≤ u64_max →
  ∃ fh id w1 w2,
    Files.open_temp path OPEN4_SHARE_ACCESS_BOTH (OpenHow.Guarded attrs) w = (w1, Ok (mkOpenedFile fh id))
    ∧ Files.finish_opened (Files.close (mkOpenedFile fh id)) (Files.write_opened_at (mkOpenedFile fh id) 0 data) w1
      = (w2, Ok tt)
    ∧ files (stored w) !! fh = None ∧ moved w (file_put dir name fh data (stored w)) w2.
Proof.
  intros Hw Hl Hn Hopens Hlen. pose proof (located_room _ _ _ _ Hl) as Hmax. destruct Hl as (parent & Hsplit & Hdir & Hroom).
  destruct (open_created w Hw path OPEN4_SHARE_ACCESS_BOTH (OpenHow.Guarded attrs) RemovePath parent name dir Hsplit Hdir Hroom)
    as (fh & id & w1 & Hopen & Hnew & Hfresh & Hm1); [done|eexists; by right|done|].
  pose proof Hm1 as (Hw1 & Hset1 & Hst1). destruct (settings_fields _ _ Hset1) as (Hmax1 & _).
  set (o := mkOpenedFile fh id).
  assert (in_use w1 o (wanted OPEN4_SHARE_ACCESS_BOTH)) as Huse.
  { split; [done|lia|]. rewrite Hst1. simpl. by left. }
  assert (post (Files.finish_opened (Files.close o) (Files.write_opened_at o 0 data)) w1
    (λ _ w2, moved w (file_put dir name fh data (stored w)) w2) (λ _ _, False)) as Hpost.
  { apply post_finish_opened. eapply post_mono;
      [eapply write_opened_at_served; [exact Huse|done|rewrite Hst1; apply lookup_insert_eq|done|lia]| |done].
    intros [] w2 Hm2. cbn beta in Hm2. pose proof Hm2 as (Hw2 & Hset2 & Hst2). destruct (settings_fields _ _ Hset2) as (Hmax2 & _).
    destruct (close_served w2 fh id (wanted OPEN4_SHARE_ACCESS_BOTH)) as (w3 & Hclose & Hm3);
      [done|lia|rewrite Hst2, Hst1; by left|].
    exists w3. split; [done|]. eapply moved_trans; [exact Hm1|]. eapply moved_trans; [exact Hm2|].
    rewrite Hst2, Hst1, splice_empty in Hm3. unfold o in Hm3. simpl in Hm3.
    change (set_file fh data (add_open ?x ?s)) with (add_open x (set_file fh data s)) in Hm3.
    change (set_names ?n (set_file fh [] ?s)) with (file_put dir name fh [] s) in Hm3.
    by rewrite set_file_put, drop_file_put in Hm3. }
  unfold post in Hpost. destruct (Files.finish_opened _ _ w1) as [w2 [[]|e|f]] eqn:Hfin; [|done|done].
  by exists fh, id, w1, w2.
Qed.

Lemma post_write_atomic4 w env path data dir name :
  steady w → located w path dir name → env_ok env → name ≠ temp_name env →
  names (stored w) !! (dir, temp_name env) = None →
  Forall (λ o, is_Some (files (stored w) !! opened_file o)) (opens (stored w)) →
  (∀ parent, split_parent path = Ok (parent, name) → 2 * zlen parent + 4 < Client.max_operations (client w)) →
  zlen data ≤ u64_max →
  (∀ fh, names (stored w) !! (dir, name) = Some fh → is_Some (files (stored w) !! fh)) →
  post (Files.write_atomic path data) (w, env)
    (λ _ p, ∃ fh, files (stored w) !! fh = None ∧ moved w (file_put dir name fh data (stored w)) p.1) (λ _ _, False).
Proof.
  intros Hw Hl Henv Hne Hfree Hopens Hroom2 Hlen Hexists. pose proof Hl as (parent & Hsplit & Hdir & Hroom).
  destruct (sibling_path path parent name env Henv Hsplit) as (temp & Htemp & Hsplit').
  assert (∃ attrs, Fattr.mode mode_0644 = Ok attrs) as [attrs Hattrs] by by eexists.
  destruct (write_temp_served w temp data dir (temp_name env) attrs) as (fh & id & w1 & w2 & Hopen & Hfin & Hnew & Hm2);
    [done|by exists parent|done..|].
  pose proof Hm2 as (Hw2 & Hset2 & Hst2). destruct (settings_fields _ _ Hset2) as (Hmax2 & _).
  assert (resolve (stored w2) parent = Some dir) as Hdir2.
  { destruct (located_put w w2 temp dir (temp_name env) fh data) as (parent' & Hs & Hd & _);
      [by exists parent|unfold handle_of; by rewrite Hfree|done|].
    rewrite Hsplit' in Hs. by injection Hs as ->. }
  destruct (rename_served w2 temp path parent (temp_name env) dir parent name dir fh) as (w3 & Hren & Hm3); [done..| | | |].
  { specialize (Hroom2 _ Hsplit). lia. }
  { rewrite Hst2. simpl. apply lookup_insert_eq. }
  { rewrite Hst2. simpl. rewrite lookup_insert_ne by congruence. intros Hs. destruct (Hexists _ Hs). congruence. }
  unfold Files.write_atomic, Files.write_atomic_with_mode, Files.guarded. apply post_bind.
  unfold post at 1, Files.on_temp, zoom. simpl. rewrite Htemp. rewrite Hattrs.
  eapply post_on_fst_run; [reflexivity|]. cbn beta.
  eapply post_on_fst_run; [unfold attempt; rewrite Hopen; reflexivity|]. cbn beta iota.
  eapply post_on_fst_run; [unfold attempt; erewrite bind_run; [|exact Hfin]; rewrite Hren; reflexivity|]. cbn beta iota.
  unfold post, on_fst, zoom. simpl. exists fh. split; [done|]. eapply moved_trans; [exact Hm2|].
  rewrite Hst2 in Hm3. unfold file_put, set_names, set_file, set_files in *. simpl in *.
  by rewrite delete_insert_id in Hm3.
Qed.
End server.
