(* ===== verification/V4Mem.v ===== *)
(** * An NFSv4 server in memory

    [exec_op] executes one operation of a COMPOUND; it serves at most three
    bytes of a READ, takes at most three bytes of a WRITE and reports them as
    unstable, so that clients have to loop and to commit.  [Mem] is a server
    with one session that runs COMPOUNDs with it; it satisfies [Nfs4Server], so
    the theorems about such servers are not empty. *)

From Stdlib Require Import Strings.String Strings.Byte.
From stdpp Require Import gmap.
From S2P Require Import Prelude Text Xdr Status Errors Rpc V3Client V3Blocking V3ClientSpec V3BlockingSpec V3Store Tame.
From S2P Require Import V4Attr V4AttrSpec V4Ops V4Results V4Client V4ClientSpec V4Extract.
From S2P Require Import V4Session V4SessionSpec V4Script V4Files V4FilesSpec V4Store.
Import FileHandle (FileHandle).
Import StateId (StateId).
Import Bitmap (Bitmap).
Import Fattr (Fattr).
Import StableHow (StableHow).
Import OpenHow (OpenHow).
Import OpenArgs (OpenArgs).
Import Operation (Operation).
Import OperationResult (OperationResult).
Import CompoundResponse (CompoundResponse).

#[local] Open Scope Z_scope.

Definition piece : Z := 3.

Definition find_open (id : StateId) (fh : FileHandle) (need : Z) (s : Store) : bool :=
  existsb (λ o, bool_decide (opened_id o = id) && bool_decide (opened_file o = fh)
                && ((need =? 0) || negb (Z.land (opened_access o) need =? 0))) (opens s).

Definition new_id (s : Store) : StateId := fresh (opened_id <$> opens s).
Definition new_handle (s : Store) : FileHandle := fresh (elements (dom (files s)) ++ (opened_file <$> opens s)).

Definition opened_as (args : OpenArgs) (fh : FileHandle) (sav : option FileHandle) (s0 s : Store)
    : option (OperationResult * Position) :=
  Some (OperationResult.Open Status.Ok (Some (plain_open (new_id s0) 0 Bitmap.empty)),
        mkPosition (Some fh) sav (add_open (mkOpened (new_id s0) fh (OpenArgs.share_access args)) s)).

Definition exec_open_op (dir : FileHandle) (sav : option FileHandle) (s : Store) (args : OpenArgs)
    : option (OperationResult * Position) :=
  match OpenArgs.claim args with
  | OpenClaim.Null name =>
      match names s !! (dir, name), OpenArgs.openhow args with
      | Some fh, (OpenHow.NoCreate | OpenHow.Unchecked _) =>
          if bool_decide (is_Some (files s !! fh)) && forallb (λ o, negb (bool_decide (opened_file o = fh))) (opens s)
          then opened_as args fh sav s s else None
      | None, (OpenHow.Unchecked _ | OpenHow.Guarded _) =>
          let fh := new_handle s in
          opened_as args fh sav s (set_names (<[(dir, name) := fh]> (names s)) (set_file fh [] s))
      | _, _ => None
      end
  | _ => None
  end.

Definition exec_file_op (fh : FileHandle) (sav : option FileHandle) (s : Store) (op : Operation)
    : option (OperationResult * Position) :=
  let here r s' := Some (r, mkPosition (Some fh) sav s') in
  match op with
  | Operation.GetFh => here (OperationResult.GetFh Status.Ok (Some fh)) s
  | Operation.SaveFh => Some (ok_only OpCode.SaveFh, mkPosition (Some fh) (Some fh) s)
  | Operation.Lookup name =>
      next ← names s !! (fh, name); Some (ok_only OpCode.Lookup, mkPosition (Some next) sav s)
  | Operation.Open args => exec_open_op fh sav s args
  | Operation.Close _ id =>
      if find_open id fh 0 s
      then here (OperationResult.Close Status.Ok (Some id)) (drop_open id s) else None
  | Operation.Read id offset count =>
      c ← files s !! fh;
      if find_open id fh OPEN4_SHARE_ACCESS_READ s && (0 <=? offset) && (0 <=? count) then
        let data := ztake (Z.min piece count) (zdrop offset c) in
        here (OperationResult.Read Status.Ok (bool_decide (zlen c ≤ offset + zlen data)) data) s
      else None
  | Operation.Write id offset _ data =>
      c ← files s !! fh;
      if find_open id fh OPEN4_SHARE_ACCESS_WRITE s && (0 <=? offset) && (0 <? zlen data) then
        let count := Z.min piece (zlen data) in
        here (OperationResult.Write Status.Ok (Some (WriteResult.mkWriteResult count StableHow.Unstable (boot s))))
          (set_file fh (splice c offset (ztake count data)) s)
      else None
  | Operation.Commit _ _ => here (OperationResult.Commit Status.Ok (Some (CommitResult.mkCommitResult (boot s)))) s
  | Operation.SetAttr id attrs =>
      c ← files s !! fh;
      let size := be_Z (Fattr.attr_vals attrs) in
      if find_open id fh OPEN4_SHARE_ACCESS_WRITE s && (0 <=? size) && (size <=? u64_max)
         && match Fattr.size size with Ok attrs' => bool_decide (attrs' = attrs) | _ => false end
      then here (ok_only OpCode.SetAttr) (set_file fh (resize size c) s) else None
  | Operation.Rename oldname newname =>
      from ← sav;
      old ← names s !! (from, oldname);
      if bool_decide (names s !! (fh, newname) = Some old) then None
      else here (ok_only OpCode.Rename) (set_names (<[(fh, newname) := old]> (delete (from, oldname) (names s))) s)
  | _ => None
  end.

Definition exec_op (p : Position) (op : Operation) : option (OperationResult * Position) :=
  let '(mkPosition cur sav s) := p in
  match op with
  | Operation.PutRootFh => Some (ok_only OpCode.PutRootFh, mkPosition (Some (root s)) sav s)
  | Operation.PutFh fh => Some (ok_only OpCode.PutFh, mkPosition (Some fh) sav s)
  | _ => fh ← cur; exec_file_op fh sav s op
  end.

(** ** It follows the rules *)

Lemma find_open_Some id fh need s :
  find_open id fh need s = true →
  ∃ access, mkOpened id fh access ∈ opens s ∧ (need ≠ 0 → Z.land access need ≠ 0).
Proof.
  intros ([id' fh' access] & Hin%list_elem_of_In & H)%existsb_exists. simpl in H.
  apply andb_prop in H as [[->%bool_decide_eq_true ->%bool_decide_eq_true]%andb_prop Hn].
  exists access. split; [done|]. intros Hne. destruct (Z.eqb_spec need 0); [done|]. simpl in Hn.
  by destruct (Z.eqb_spec (Z.land access need) 0).
Qed.
Lemma find_open_true id fh access need s :
  mkOpened id fh access ∈ opens s → (need = 0 ∨ Z.land access need ≠ 0) → find_open id fh need s = true.
Proof.
  intros Hin Hn. apply existsb_exists. exists (mkOpened id fh access). split; [by apply list_elem_of_In|]. simpl.
  rewrite !bool_decide_true by done. simpl. destruct (Z.eqb_spec need 0); [done|].
  destruct (Z.eqb_spec (Z.land access need) 0); [|done]. by destruct Hn.
Qed.

Lemma ztake_len {A} n (l : list A) : 0 ≤ n → ztake n l = ztake (zlen (ztake n l)) l.
Proof.
  intros Hn. rewrite zlen_ztake_min by done. destruct (Z.min_spec n (zlen l)) as [[? ->]|[? ->]]; [done|].
  by rewrite !ztake_all by lia.
Qed.

Lemma new_id_fresh fh s : not_open fh s → fresh_open fh (new_id s) s.
Proof. apply fresh_open_exists. Qed.
Lemma new_handle_fresh s : files s !! new_handle s = None ∧ not_open (new_handle s) s.
Proof.
  pose proof (infinite_is_fresh (elements (dom (files s)) ++ (opened_file <$> opens s))) as Hf.
  apply not_elem_of_app in Hf as [H1 H2]. split.
  - apply not_elem_of_dom. intros Hin. apply H1. by apply elem_of_elements.
  - apply list.Forall_forall. intros o Ho Heq. apply H2. unfold new_handle in Heq. rewrite <-Heq.
    by apply list_elem_of_fmap_2.
Qed.

Lemma exec_open_sound dir sav s args r p :
  exec_open_op dir sav s args = Some (r, p) → executes (mkPosition (Some dir) sav s) (Operation.Open args) r p.
Proof.
  unfold exec_open_op. destruct (OpenArgs.claim args) as [name| | | | | |] eqn:Hc; try done.
  destruct (names s !! (dir, name)) as [fh|] eqn:Hn, (OpenArgs.openhow args) eqn:Hh; try done.
  1,2: destruct (bool_decide (is_Some (files s !! fh))) eqn:Hf; [|done]; simpl;
    destruct (forallb _ (opens s)) eqn:Ho; [|done]; intros [= <- <-]; apply bool_decide_eq_true in Hf;
    rewrite forallb_forall in Ho; eapply exec_open; [done..|rewrite Hh; eauto| |done];
    apply new_id_fresh, list.Forall_forall; intros o Hin%list_elem_of_In; specialize (Ho o Hin);
    by apply negb_true_iff, bool_decide_eq_false in Ho.
  1,2: intros [= <- <-]; destruct (new_handle_fresh s) as [H1 H2];
    eapply exec_create; [done..|rewrite Hh; eauto|by apply new_id_fresh|done].
Qed.

Lemma exec_file_sound fh sav s op r p :
  exec_file_op fh sav s op = Some (r, p) → executes (mkPosition (Some fh) sav s) op r p.
Proof.
  destruct op; try done; cbn [exec_file_op].
  - intros (next & Hn & [= <- <-])%bind_Some. by apply exec_lookup.
  - apply exec_open_sound.
  - destruct (find_open stateid fh 0 s) eqn:Hf; [|done]. intros [= <- <-].
    apply find_open_Some in Hf as (access & Hin & _). by eapply exec_close.
  - intros [= <- <-]. apply exec_getfh.
  - intros (c & Hc & H)%bind_Some. destruct (find_open _ _ _ _) eqn:Hf; [|done].
    destruct (Z.leb_spec 0 (be_Z (Fattr.attr_vals attrs))); [|done].
    destruct (Z.leb_spec (be_Z (Fattr.attr_vals attrs)) u64_max); [|done]. cbn [andb] in H.
    destruct (Fattr.size _) as [attrs'|e|f] eqn:Hs; [|done|done]. case_bool_decide; [|done]. subst attrs'.
    injection H as <- <-. apply find_open_Some in Hf as (access & Hin & Ha). eapply exec_resize; [done|by apply Ha|done..].
  - intros (c & Hc & H)%bind_Some. destruct (find_open _ _ _ _) eqn:Hf; [|done].
    destruct (Z.leb_spec 0 offset), (Z.leb_spec 0 count); try done. cbn [andb] in H. injection H as <- <-.
    apply find_open_Some in Hf as (access & Hin & Ha). set (data := ztake _ _).
    assert (zlen data = Z.min (Z.min piece count) (zlen (zdrop offset c))) as Hlen
      by (unfold data, piece; rewrite zlen_ztake_min; lia).
    pose proof (zlen_nonneg (zdrop offset c)).
    eapply exec_read; [done|by apply Ha|done|done|lia|by apply ztake_len; unfold piece; lia| |].
    + intros Hpos Hnil. apply bool_decide_eq_true. rewrite Hnil in Hlen |- *. change (zlen []) with 0 in *.
      destruct (Z.le_gt_cases (zlen c) offset); [lia|]. rewrite zlen_drop in Hlen by lia. unfold piece in Hlen. lia.
    + by intros ?%bool_decide_eq_true.
  - intros (c & Hc & H)%bind_Some. destruct (find_open _ _ _ _) eqn:Hf; [|done].
    destruct (Z.leb_spec 0 offset), (Z.ltb_spec 0 (zlen data)); try done. cbn [andb] in H. injection H as <- <-.
    apply find_open_Some in Hf as (access & Hin & Ha).
    eapply exec_write; [done|by apply Ha|done|done|unfold piece; lia].
  - intros [= <- <-]. apply exec_commit.
  - intros (from & -> & (old & Hold & H)%bind_Some)%bind_Some. case_bool_decide; [done|]. injection H as <- <-.
    by apply exec_rename.
  - intros [= <- <-]. apply exec_save.
Qed.

Lemma exec_op_sound p op r p' : exec_op p op = Some (r, p') → executes p op r p'.
Proof.
  destruct p as [cur sav s]. unfold exec_op.
  destruct op; try (intros (fh & -> & H)%bind_Some; by apply exec_file_sound); intros [= <- <-]; constructor.
Qed.

(** Whatever the rules allow, it does one of it. *)
Lemma exec_op_progress p op r p' : executes p op r p' → is_Some (exec_op p op).
Proof.
  destruct 1 as [| |dir sav s name fh Hn| | |dir sav s args name fh id flags attrset Hc Hn Hf Hh Hfresh _
    |dir sav s args name fh id flags attrset Hc Hn Hf Hh Hfresh _|fh sav s seqid id access closed Hin
    |fh sav s id access offset count c data eof Hin Ha Hc Ho Hl Hd _ _|fh sav s id access offset stable data c count committed Hin Ha Hc Ho Hcount
    | |fh sav s id access attrs size c Hin Ha Hc Hattrs Hs|from to s oldname newname fh Hold Hnew];
    unfold exec_op; cbn [mbind option_bind exec_file_op]; try by eexists.
  - rewrite Hn. by eexists.
  - unfold exec_open_op. rewrite Hc, Hn. rewrite bool_decide_true by done.
    assert (forallb (λ o, negb (bool_decide (opened_file o = fh))) (opens s) = true) as ->.
    { apply forallb_forall. intros o Hin%list_elem_of_In. apply negb_true_iff, bool_decide_eq_false.
      unfold fresh_open in Hfresh. rewrite list.Forall_forall in Hfresh. by apply Hfresh. }
    destruct Hh as [->|[attrs ->]]; by eexists.
  - unfold exec_open_op. rewrite Hc, Hn. destruct Hh as [attrs [->| ->]]; by eexists.
  - rewrite (find_open_true id fh access) by eauto. by eexists.
  - rewrite Hc. cbn [mbind option_bind]. rewrite (find_open_true id fh access) by eauto.
    pose proof (zlen_nonneg data). rewrite !(proj2 (Z.leb_le _ _)) by lia. by eexists.
  - rewrite Hc. cbn [mbind option_bind]. rewrite (find_open_true id fh access) by eauto.
    rewrite (proj2 (Z.leb_le _ _)), (proj2 (Z.ltb_lt _ _)) by lia. by eexists.
  - rewrite Hc. cbn [mbind option_bind]. rewrite (find_open_true id fh access) by eauto.
    assert (be_Z (Fattr.attr_vals attrs) = size) as ->.
    { apply (f_equal (λ o, match o with Ok f => Fattr.attr_vals f | _ => [] end)) in Hattrs. simpl in Hattrs.
      change (be_bytes 8 size = Fattr.attr_vals attrs) in Hattrs. rewrite <-Hattrs, be_Z_be_bytes.
      apply Z.mod_small. int_unfold. lia. }
    rewrite !(proj2 (Z.leb_le _ _)) by lia. rewrite Hattrs, bool_decide_true by done. by eexists.
  - rewrite Hold. cbn [mbind option_bind]. rewrite bool_decide_false by done. by eexists.
Qed.

(** ** A server with one session *)

(** The operations in order, up to the first that fails. *)
Fixpoint exec_all (p : Position) (ops : list Operation) : list OperationResult * bool * Position :=
  match ops with
  | [] => ([], true, p)
  | op :: rest =>
      match exec_op p op with
      | Some (r, p1) => let '(rs, ok, p2) := exec_all p1 rest in (r :: rs, ok, p2)
      | None => ([OperationResult.StatusOnly (Operation.op_code op) Status.Inval], false, p)
      end
  end.

Record Mem := mkMem { mem_store : Store; mem_session : list byte; mem_next : Z }.

Definition mem_sequence (m : Mem) : OperationResult :=
  OperationResult.Sequence Status.Ok (Some (SequenceResult.mkSequenceResult (mem_session m) (mem_next m) 0 0 0 0)).

Definition mem_compound (tag : str) (minor_version : Z) (operations : list Operation)
    : M (Mem * unit) Error CompoundResponse := λ '(m, r),
  match operations with
  | Operation.Sequence args :: rest =>
      if bool_decide (SequenceArgs.session_id args = mem_session m) && (SequenceArgs.sequence_id args =? mem_next m) then
        let '(rs, ok, p) := exec_all (mkPosition None None (mem_store m)) rest in
        ((mkMem (store p) (mem_session m) (next_id (mem_next m)), r),
         script_answer tag operations (if ok : bool then Status.Ok else Status.Inval) (mem_sequence m :: rs))
      else ((m, r), script_answer tag operations Status.SeqMisordered [OperationResult.Sequence Status.SeqMisordered None])
  | _ => ((m, r), Err RpcConnectionInvalid)
  end.

#[export] Instance mem_rpc : Nfs4Rpc Mem unit := {
  rpc_compound := mem_compound;
  rpc_set_max_record_size _ r := (r, Ok tt);
}.
#[export] Instance mem_net : Nfs4Net Mem unit := {
  net_rpc_connect _ := mret tt;
  lease_start _ _ := mret 0%nat;
  lease_failed _ := mret false;
  lease_stop _ := mret tt;
  net_sleep _ := mret tt;
}.

Lemma post_answer tag operations st results (s : Mem * unit) :
  post (λ _ : Mem * unit, (s, script_answer tag operations st results)) s
    (λ response _, True ∧ well_shaped tag (Operation.op_code <$> operations) response ∧ response_sane response)
    (λ _ _, True).
Proof.
  unfold post. pose proof (script_answer_spec tag operations st results) as H.
  by destruct (script_answer _ _ _ _).
Qed.

#[export] Instance mem_laws : Nfs4Laws Mem unit.
Proof.
  refine {| conn_ok := λ _, True |}; try done.
  intros tag v ops n r _. unfold post. cbn. unfold mem_compound.
  destruct ops as [|[] rest]; try done.
  destruct (bool_decide _ && _).
  - destruct (exec_all _ rest) as [[rs ok] p].
    exact (post_answer tag (Operation.Sequence args :: rest) _ _ (mkMem (store p) (mem_session n) (next_id (mem_next n)), r)).
  - exact (post_answer tag (Operation.Sequence args :: rest) _ _ (n, r)).
Defined.

Lemma exec_all_runs ops : ∀ p, proceeds p ops → ∃ rs p', exec_all p ops = (rs, true, p') ∧ runs p ops rs p'.
Proof.
  induction ops as [|op rest IH]; intros p; cbn [exec_all]; [intros _; eexists _, _; split; [done|constructor]|].
  intros [(r & p1 & Hx) Hrest]. apply exec_op_progress in Hx as [[r' p1'] Hx]. rewrite Hx. apply exec_op_sound in Hx.
  destruct (IH p1' (Hrest _ _ Hx)) as (rs & p2 & -> & Hr). eexists _, _. split; [done|]. by econstructor.
Qed.

Lemma executes_matches p op r p' :
  executes p op r p' → compound_result_matches_expected r (Operation.op_code op) = true ∧ sane_result r.
Proof. destruct 1; (split; [done|]); try done. simpl. lia. Qed.

Lemma runs_fit p ops rs p' :
  runs p ops rs p' →
  Forall2 (λ r op, compound_result_matches_expected r op = true) rs (Operation.op_code <$> ops) ∧ Forall sane_result rs.
Proof.
  induction 1 as [|q op r q1 ops rs q2 Hx _ [IH1 IH2]]; [done|]. apply executes_matches in Hx as []. by split; constructor.
Qed.

#[export] Instance mem_server : Nfs4Server Mem unit.
Proof.
  refine {| store_of := mem_store; awaits m id seq := mem_session m = id ∧ mem_next m = seq |}.
  intros v sid seq ops m r [<- <-] _ Hp. destruct (exec_all_runs _ _ Hp) as (rs & p & Hall & Hruns).
  exists (mkMem (store p) (mem_session m) (next_id (mem_next m))), r,
    (SequenceResult.mkSequenceResult (mem_session m) (mem_next m) 0 0 0 0), rs, p. cbn. unfold mem_compound, sequence_args. cbn.
  rewrite bool_decide_true, Z.eqb_refl by done. cbn. rewrite Hall. split_and!; [|done..].
  f_equal. destruct (runs_fit _ _ _ _ Hruns) as [Hf Hs]. apply script_answer_given.
  - pose proof (runs_ok _ _ _ _ Hruns) as Hok. split; [done| | |done].
    + exists (OpCode.Sequence :: (Operation.op_code <$> ops)), []. rewrite app_nil_r. split; [done|]. by constructor.
    + intros _. cbn. split; [by rewrite (list.Forall2_length _ _ _ Hf)|]. constructor; [done|].
      eapply list.Forall_impl; [exact Hok|]. done.
  - by constructor.
Defined.
