(* ===== verification/PropsFiles.v ===== *)
(** * Properties of file transfers

    What [Client] (src/src/v3/blocking.rs) does to files: reading, writing,
    copying, durability and atomic replacement.  Each theorem is followed by a
    witness that runs it on the server of [V3Mem]. *)

From Stdlib Require Import Strings.String Strings.Byte.
From S2P Require Import Prelude Text Xdr Status Errors Rpc V3Proto V3Calls V3Client V3ClientSpec.
From S2P Require Import V3Blocking V3BlockingSpec V3Store V3Durable V3Atomic V3Mem.
Import FileHandle (FileHandle, mkFileHandle).
Import StableHow (StableHow).
Import ClientBuilder (mkClientBuilder).

#[local] Open Scope Z_scope.

(** ** A concrete world *)

Definition demo_auth : AuthSys := mkAuthSys 7 (lit_bytes "host") 1000 1000 [].
Definition demo_root : FileHandle := mkFileHandle (lit_bytes "root").
Definition demo_file : FileHandle := mkFileHandle (lit_bytes "file").
Definition demo_other : FileHandle := mkFileHandle (lit_bytes "other").
Definition demo_bytes : list byte := lit_bytes "hello, world".

Definition demo_contents (fh : FileHandle) : option (list byte) :=
  if decide (fh = demo_file) then Some demo_bytes
  else if decide (fh = demo_other) then Some (lit_bytes "old") else None.

Definition demo_dirs (dir : FileHandle) (name : str) : option FileHandle :=
  if decide (dir = demo_root ∧ name = lit_bytes "a") then Some demo_file
  else if decide (dir = demo_root ∧ name = lit_bytes "b") then Some demo_other else None.

(** A server that serves three bytes, then five, then as many as asked, and
    calls its first two writes unstable. *)
Definition demo_plan : list choice :=
  [mkChoice false false 3 StableHow.Unstable; mkChoice false false 5 StableHow.Unstable].

Definition demo_mem (plan : list choice) : Mem := mkMem demo_contents demo_contents demo_dirs 1 plan.

Definition demo_client {N} (n : N) : Client N :=
  mkClient (ClientBuilder.new demo_auth (lit_bytes "srv") (lit_bytes "/export"))
    (mkRemoteTarget (lit_bytes "srv") (lit_bytes "/export")) demo_auth 2049 demo_root n None
    4 4 4096 100.

Definition demo_env : TempEnv := mkTempEnv 42 (λ c, 1000 + Z.abs c mod 7) 5.
Definition demo_world {N} (n : N) : World N := mkWorld (demo_client n) demo_env.

Lemma demo_sizes {N} (n : N) : sizes_ok (demo_client n).
Proof. by split. Qed.

Lemma demo_paired plan : mem_paired (demo_mem plan).
Proof. by intros fh. Qed.

Lemma demo_env_ok : env_ok demo_env.
Proof.
  split; [by split|]. split; [|by split]. intros c. cbn [env_nanos demo_env].
  pose proof (Z.mod_pos_bound (Z.abs c) 7). lia.
Qed.

Lemma demo_store_ok plan : Forall (λ ch, ch_crash ch = false) plan → store_ok (demo_world (demo_mem plan)).
Proof. intros Hp. split; [split; [done|apply demo_paired]|apply demo_sizes]. Qed.

Lemma demo_names plan : names (demo_world (demo_mem plan)) (lit_bytes "/a") demo_file.
Proof. by exists [lit_bytes "a"]. Qed.

(** ** Contents *)

(** C1: [Client::read] on a path returns exactly the contents of the file the
    path names and changes no file, in whatever pieces the server serves it; it
    fails only with an error of the server. *)
Theorem read_path_returns_contents {N} `{!Nfs3 N, !FileStore N} (w : World N) path fh c :
  store_ok w → names w path fh → contents (nfs (client w)) fh = Some c → zlen c ≤ u64_max →
  post (Client.read path) w (λ out w', out = c ∧ same_files w w') (λ e _, store_fails e).
Proof. apply post_read. Qed.

Lemma read_path_returns_contents_witness :
  (Client.read (lit_bytes "/a") (demo_world (demo_mem demo_plan))).2 = Ok demo_bytes
  ∧ post (Client.read (lit_bytes "/a")) (demo_world (demo_mem demo_plan))
      (λ out w', out = demo_bytes ∧ same_files (demo_world (demo_mem demo_plan)) w')
      (λ e _, store_fails e).
Proof.
  split; [by vm_compute|].
  apply (read_path_returns_contents _ _ demo_file);
    [by apply demo_store_ok; repeat constructor|apply demo_names|done|by vm_compute].
Defined.

(** C2: writing a path that exists and reading it back returns the data written,
    and no other file has changed: truncation, chunking, partial writes and
    commits included, as long as the server does not fail. *)
Theorem write_then_read {N} `{!Nfs3 N, !FileStore N} (w : World N) path fh c data :
  store_ok w → names w path fh → contents (nfs (client w)) fh = Some c → zlen data ≤ isize_max →
  (∀ e, store_fails e → is_nfs_status NfsStatus.NoEnt e = false) →
  post (Client.write path data ;; Client.read path) w
    (λ out w', out = data ∧ ∀ g, g ≠ fh → contents (nfs (client w')) g = contents (nfs (client w)) g)
    (λ e _, store_fails e).
Proof.
  intros Hw Hn Hc Hl Hf. apply post_bind.
  eapply post_mono; [by eapply post_write_with_stability|cbv beta|done].
  intros _ w1 Hset. pose proof (store_ok_set _ _ _ _ Hw Hset) as Hw1.
  destruct Hset as (Hsame & Hinv & He & Hb & Hfh & Hother).
  eapply post_mono; [eapply (post_read w1 path fh data); [done| |done|int_unfold; lia]|cbv beta|done].
  - by eapply names_same.
  - intros out w2 [-> (_ & _ & Hc2 & _)]. split; [done|]. intros g Hg. rewrite Hc2. by apply Hother.
Qed.

Lemma mem_fails_not_noent e : store_fails (N := Mem) e → is_nfs_status NfsStatus.NoEnt e = false.
Proof. intros (p & s & -> & [->| ->]); done. Qed.

Lemma write_then_read_witness :
  ((Client.write (lit_bytes "/a") demo_bytes ;; Client.read (lit_bytes "/a"))
     (demo_world (demo_mem demo_plan))).2 = Ok demo_bytes
  ∧ post (Client.write (lit_bytes "/a") (lit_bytes "new text") ;; Client.read (lit_bytes "/a"))
      (demo_world (demo_mem demo_plan))
      (λ out w', out = lit_bytes "new text"
         ∧ ∀ g, g ≠ demo_file →
             contents (nfs (client w')) g = contents (demo_mem demo_plan) g)
      (λ e _, store_fails e).
Proof.
  split; [by vm_compute|].
  apply (write_then_read (demo_world (demo_mem demo_plan)) _ demo_file demo_bytes);
    [by apply demo_store_ok; repeat constructor|apply demo_names|done|by vm_compute
    |apply mem_fails_not_noent].
Defined.

(** C5: when a synchronous write ([DATA_SYNC] or [FILE_SYNC]) of a handle
    succeeds, all of the data is on the server's disk at its offset: the chunks
    the server only cached were committed under an unchanged write verifier,
    even if the server restarts between any two calls. *)
Theorem synchronous_write_is_durable {N} `{!Nfs3 N, !StableStore N} (w : World N) handle offset data stable :
  durable_ok w → 0 ≤ offset → offset + zlen data ≤ u64_max →
  StableHow.satisfies stable StableHow.DataSync = true →
  post (Client.write_handle_all handle offset data stable) w
    (λ _ w', on_disk (nfs (client w')) handle = splice (on_disk (nfs (client w)) handle) offset data
       ∧ ∀ g, g ≠ handle → on_disk (nfs (client w')) g = on_disk (nfs (client w)) g)
    (λ _ _, True).
Proof.
  intros Hw Ho Hl Hs. eapply post_mono; [by apply post_write_handle_all_durable|cbv beta|done].
  by intros _ w' (_ & _ & ? & ?).
Qed.

(** A server that restarts after its first, unstable write. *)
Definition crash_plan : list choice :=
  [mkChoice false false 3 StableHow.Unstable; mkChoice true false 5 StableHow.Unstable].

Lemma synchronous_write_is_durable_witness :
  (Client.write_handle_all demo_file 0 demo_bytes StableHow.FileSync (demo_world (demo_mem demo_plan))).2
    = Ok tt
  ∧ (Client.write_handle_all demo_file 0 demo_bytes StableHow.FileSync
       (demo_world (demo_mem crash_plan))).2
    = Err (Protocol [PLit "COMMIT verifier changed after unstable WRITE"])
  ∧ post (Client.write_handle_all demo_file 7 demo_bytes StableHow.FileSync)
      (demo_world (demo_mem crash_plan))
      (λ _ w', on_disk (nfs (client w')) demo_file = splice (on_disk (demo_mem crash_plan) demo_file) 7 demo_bytes
         ∧ ∀ g, g ≠ demo_file → on_disk (nfs (client w')) g = on_disk (demo_mem crash_plan) g)
      (λ _ _, True).
Proof.
  split; [by vm_compute|split; [by vm_compute|]].
  apply (synchronous_write_is_durable (demo_world (demo_mem crash_plan)) demo_file 7 demo_bytes StableHow.FileSync);
    [|done|by vm_compute|done].
  split; [|apply demo_sizes]. split_and!; [apply demo_paired|done|by vm_compute].
Defined.

(** C6: an atomic write asks the server, in this order: for the creation of one
    temporary entry in the directory of the target, which it reached from the
    root of the export along the components of the path; for writes of the
    data to the handle that entry got, each going on where the answers to the
    ones before it stopped; and, once the answers say that all of the data was
    taken, for the rename of the temporary entry over the target in the same
    directory.  No other request it sends changes anything, and it succeeds
    exactly with the rename.  When it fails, either no entry was created (no
    CREATE was answered with success, with or without a handle), or the
    temporary entry was removed again, or the error reports a failed cleanup.
    This holds for every server. *)
Theorem atomic_write_requests {N} `{!Nfs3 N, !Nfs3Laws N} path parent name data mode stable
    (w : World (Traced N)) (tn := temp_name (env w)) (rt := root (client w)) :
  world_ok w → env_ok (env w) → normalize_path path = Ok (parent ++ [name]) → zlen data ≤ isize_max →
  post (Client.write_atomic_with_mode_and_stability path data mode stable) w
    (λ _ w', ∃ ev, after w ev w' ∧ atomic_requests rt parent tn name data (Some true) None ev)
    (λ e w', ∃ ev, after w ev w' ∧
       (not_created rt parent tn ev
        ∨ ∃ renamed removed, renamed ≠ Some true ∧ atomic_requests rt parent tn name data renamed removed ev
            ∧ (removed = Some true ∨ ∃ ctx e1 e2, e = Cleanup ctx e1 e2))).
Proof. apply post_write_atomic. Qed.

Definition demo_traced : World (Traced Mem) := demo_world (mkTraced (demo_mem []) []).

Lemma atomic_write_requests_witness :
  ((Client.write_atomic (lit_bytes "/a") demo_bytes ;; Client.read (lit_bytes "/a"))
     (demo_world (demo_mem demo_plan))).2 = Ok demo_bytes
  ∧ post (Client.write_atomic (lit_bytes "/a") demo_bytes) demo_traced
      (λ _ w', ∃ ev, after demo_traced ev w'
         ∧ atomic_requests (root (client demo_traced)) [] (temp_name demo_env) (lit_bytes "a") demo_bytes
             (Some true) None ev)
      (λ e w', ∃ ev, after demo_traced ev w' ∧
         (not_created (root (client demo_traced)) [] (temp_name demo_env) ev
          ∨ ∃ renamed removed, renamed ≠ Some true
              ∧ atomic_requests (root (client demo_traced)) [] (temp_name demo_env) (lit_bytes "a") demo_bytes
                  renamed removed ev
              ∧ (removed = Some true ∨ ∃ ctx e1 e2, e = Cleanup ctx e1 e2))).
Proof.
  split; [by vm_compute|].
  apply (atomic_write_requests (lit_bytes "/a") [] (lit_bytes "a") demo_bytes mode_0644 StableHow.FileSync
           demo_traced).
  - split; [done|apply demo_sizes].
  - apply demo_env_ok.
  - by vm_compute.
  - by vm_compute.
Defined.

(** C14: copying one handle to another leaves the source as it was, puts its
    contents at the start of the destination and returns their length. *)
Theorem copy_handles_copies {N} `{!Nfs3 N, !FileStore N} (w : World N) source dest stable c d :
  store_ok w → contents (nfs (client w)) source = Some c → contents (nfs (client w)) dest = Some d →
  source ≠ dest → zlen c ≤ u64_max →
  post (Client.copy_handles source dest stable) w
    (λ n w', n = zlen c ∧ file_set dest (splice d 0 c) w w') (λ e _, store_fails e).
Proof. apply post_copy_handles. Qed.

Lemma copy_handles_copies_witness :
  (Client.copy_handles demo_file demo_other StableHow.FileSync (demo_world (demo_mem demo_plan))).2 = Ok 12
  ∧ post (Client.copy_handles demo_file demo_other StableHow.FileSync) (demo_world (demo_mem demo_plan))
      (λ n w', n = 12 ∧ file_set demo_other (splice (lit_bytes "old") 0 demo_bytes)
                          (demo_world (demo_mem demo_plan)) w')
      (λ e _, store_fails e).
Proof.
  split; [by vm_compute|].
  apply (copy_handles_copies _ _ _ _ demo_bytes);
    [by apply demo_store_ok; repeat constructor|done|done|done|by vm_compute].
Defined.

(** Reading a byte range returns exactly the bytes the file has there, up to
    its end. *)
Theorem read_range_returns_slice {N} `{!Nfs3 N, !FileStore N} (w : World N) handle off count c :
  store_ok w → contents (nfs (client w)) handle = Some c → zlen c ≤ u64_max →
  0 ≤ off ≤ zlen c → 0 ≤ count ≤ u64_max →
  post (Client.read_handle_range handle off count) w
    (λ out w', out = ztake count (zdrop off c) ∧ same_files w w') (λ e _, store_fails e).
Proof. apply post_read_handle_range_store. Qed.

Lemma read_range_returns_slice_witness :
  (Client.read_handle_range demo_file 7 3 (demo_world (demo_mem demo_plan))).2 = Ok (lit_bytes "wor")
  ∧ post (Client.read_handle_range demo_file 7 100) (demo_world (demo_mem demo_plan))
      (λ out w', out = lit_bytes "world" ∧ same_files (demo_world (demo_mem demo_plan)) w')
      (λ e _, store_fails e).
Proof.
  split; [by vm_compute|].
  apply (read_range_returns_slice _ _ 7 100 demo_bytes);
    [by apply demo_store_ok; repeat constructor|done|by vm_compute..].
Defined.

(** Writing at an offset replaces exactly the bytes from there on, with
    zeros in a gap behind the old end, and touches no other file. *)
Theorem write_at_splices {N} `{!Nfs3 N, !FileStore N} (w : World N) path fh offset data stable c :
  store_ok w → names w path fh → contents (nfs (client w)) fh = Some c → 0 ≤ offset →
  offset + zlen data ≤ u64_max → zlen data ≤ isize_max →
  post (Client.write_at_with_stability path offset data stable) w
    (λ _ w', contents (nfs (client w')) fh = Some (splice c offset data)
       ∧ ∀ g, g ≠ fh → contents (nfs (client w')) g = contents (nfs (client w)) g)
    (λ e _, store_fails e).
Proof.
  intros Hw Hn Hc Ho Hl Hi. apply post_bind.
  eapply post_mono; [by apply post_resolve|cbv beta|done]. intros h w1 [-> Hsame].
  pose proof (store_ok_same _ _ Hw Hsame) as Hw1. destruct Hsame as (_ & _ & Hc1 & _).
  eapply post_mono; [eapply (post_write_handle_all w1 fh offset data stable c); [done|by rewrite Hc1|done..]
                    |cbv beta|done].
  intros _ w2 (_ & _ & _ & _ & Hfh & Hg). by rewrite <- Hc1.
Qed.

Lemma write_at_splices_witness :
  ((Client.write_at (lit_bytes "/a") 14 (lit_bytes "x") ;; Client.read (lit_bytes "/a"))
     (demo_world (demo_mem demo_plan))).2 = Ok (demo_bytes ++ [x00; x00] ++ lit_bytes "x")
  ∧ post (Client.write_at (lit_bytes "/a") 7 (lit_bytes "there")) (demo_world (demo_mem demo_plan))
      (λ _ w', contents (nfs (client w')) demo_file = Some (lit_bytes "hello, there")
         ∧ ∀ g, g ≠ demo_file → contents (nfs (client w')) g = contents (demo_mem demo_plan) g)
      (λ e _, store_fails e).
Proof.
  split; [by vm_compute|].
  apply (write_at_splices (demo_world (demo_mem demo_plan)) _ demo_file 7 (lit_bytes "there") _ demo_bytes);
    [by apply demo_store_ok; repeat constructor|apply demo_names|done|done|by vm_compute..].
Defined.
