(* ===== verification/PropsRpc.v ===== *)
(** * Properties of calls

    The RPC connection (src/src/rpc.rs) as a state machine, what a call puts
    on the wire and takes from it, and the NFSv3 procedures on top of it
    (src/src/v3/proto.rs). *)

From Stdlib Require Import Strings.String Strings.Byte.
From S2P Require Import Prelude Text Xdr XdrSpec Status Errors Rpc RpcSpec RpcClientSpec RpcPeer.
From S2P Require Import V3Proto V3Wire V3Calls V3Replies V3CallsSpec V3Peer.
Import FileHandle (FileHandle, mkFileHandle).
Import FileAttr (FileAttr).
Import StableHow (StableHow).
Import Nfs3Client (Nfs3Client, nfs_rpc, nfs_retry_policy, nfs_slept, mkNfs3Client).

#[local] Open Scope Z_scope.

(** ** A concrete connection *)

Definition canned_rpc (srv : Canned) : RpcClient (Peer Canned) :=
  mkRpcClient (mkPeer srv [] []) 41 Auth_None 4096 false.

Definition canned_nfs (srv : Canned) : Nfs3Client (Peer Canned) :=
  mkNfs3Client (canned_rpc srv) RetryPolicy_default [].

Definition some_handle : FileHandle := mkFileHandle (lit_bytes "fh").

Lemma canned_ready srv : ready (canned_nfs srv).
Proof. by split. Qed.

(** ** The connection *)

(** C25: over every transport, a call on a connection in step terminates without
    a fault; it leaves the connection marked [interrupted] exactly when it
    reports that the outcome of the request is unknown, uses the next
    transaction id, and returns no more than the record limit. *)
Theorem call_marks_unknown_outcomes {St} `{!Transport St} {A} program version procedure
    (enc : A → M Encoder XdrError unit) (args : A) (c : RpcClient St) :
  interrupted c = false → client_ok c → (∀ e, fault_free (enc args e).2) →
  post (call program version procedure enc args) c
    (λ payload c', interrupted c' = false ∧ xid c' = succ_xid (xid c)
       ∧ zlen payload ≤ max_record_size c)
    (λ err c', interrupted c' = is_outcome_unknown err ∧ xid c' = succ_xid (xid c)).
Proof.
  intros Hi Hc He. eapply post_mono; [by apply post_call|cbv beta..].
  - by intros payload c' (? & (? & _) & ?).
  - by intros err c' (? & ? & _).
Qed.

Lemma call_marks_unknown_outcomes_witness :
  (call 1 2 3 encode_unit tt (canned_rpc [lit_bytes "pong"])).2 = Ok (lit_bytes "pong")
  ∧ interrupted (call 1 2 3 encode_unit tt (canned_rpc [])).1 = true
  ∧ post (call 1 2 3 encode_unit tt) (canned_rpc [])
      (λ payload c', interrupted c' = false ∧ xid c' = 42 ∧ zlen payload ≤ 4096)
      (λ err c', interrupted c' = is_outcome_unknown err ∧ xid c' = 42).
Proof.
  split; [by vm_compute|split; [by vm_compute|]].
  apply (call_marks_unknown_outcomes 1 2 3 encode_unit tt (canned_rpc [])); [done|by split|done].
Defined.

(** Once a call has reported an unknown outcome, every later call on the
    connection fails with [RpcConnectionInvalid] and changes nothing: the
    request is not sent and a late reply is not taken for its answer. *)
Theorem no_call_after_unknown_outcome {St} `{!Transport St} (c c1 : RpcClient St) r e rs :
  interrupted c = false → client_ok c → issue r c = (c1, Err e) → is_outcome_unknown e = true →
  issue_all rs c1 = (c1, replicate (length rs) (Err RpcConnectionInvalid)).
Proof.
  intros Hi Hc Hr He. apply issue_all_refused.
  assert (∀ e', fault_free (extend_from_slice (req_args r) e').2) as Hf by done.
  pose proof (post_call (req_program r) (req_version r) (req_procedure r) (λ a, extend_from_slice a)
                (req_args r) c Hi Hc Hf) as H.
  unfold post in H. unfold issue in Hr. rewrite Hr in H. destruct H as [-> _]. done.
Qed.

Lemma no_call_after_unknown_outcome_witness :
  let '(c1, o) := issue (mkRequest 1 2 3 []) (canned_rpc []) in
  o = Err (OutcomeUnknown (Io UnexpectedEofKind))
  ∧ issue_all [mkRequest 1 2 3 []; mkRequest 1 2 4 []] c1
    = (c1, [Err RpcConnectionInvalid; Err RpcConnectionInvalid]).
Proof.
  destruct (issue (mkRequest 1 2 3 []) (canned_rpc [])) as [c1 o] eqn:Hr. vm_compute in Hr.
  injection Hr as Hc Ho. split; [done|].
  eapply (no_call_after_unknown_outcome (canned_rpc []) c1 (mkRequest 1 2 3 [])
            (OutcomeUnknown (Io UnexpectedEofKind)));
    [done|by split| |done].
  rewrite <- Hc. by vm_compute.
Defined.

(** C26: against a server that answers, a call hands it the RFC 5531 message of
    its arguments and ends as its reply says, however the reply is fragmented:
    the payload of an accepted reply is returned, a rejection is reported and
    leaves the connection usable, and anything else is an unknown outcome. *)
Theorem call_delivers_and_returns {Srv} `{!Server Srv} {A} program version procedure
    (enc : A → M Encoder XdrError unit) wire ok (args : A) (c : RpcClient (Peer Srv)) srv init last
    (x := succ_xid (xid c)) (reply := mjoin init ++ last) :
  EncodesTo enc wire ok → ok args →
  interrupted c = false → quiet c → zlen reply ≤ max_record_size c ≤ usize_max →
  zlen (wire_call x program version procedure (rpc_auth c) (wire args)) ≤ FRAGMENT_LEN_MASK →
  fragments_ok init last →
  serve (peer_server (stream c)) (wire_call x program version procedure (rpc_auth c) (wire args))
    = (srv, wire_record init last) →
  call program version procedure enc args c =
  match decode_reply x reply with
  | Ok payload => (after_call x srv false c, Ok payload)
  | Err err =>
      if definite_error err then (after_call x srv false c, Err err)
      else (after_call x srv true c, Err (OutcomeUnknown err))
  | Fault f => (after_call x srv true c, Fault f)
  end.
Proof. apply call_served. Qed.

Lemma call_delivers_and_returns_witness :
  call NFS_PROGRAM NFS_VERSION 3 FileHandle.encode some_handle (canned_rpc [lit_bytes "pong"])
  = (after_call 42 [] false (canned_rpc [lit_bytes "pong"]), Ok (lit_bytes "pong")).
Proof.
  set (reply := accepted 42 (lit_bytes "pong")).
  rewrite (call_delivers_and_returns NFS_PROGRAM NFS_VERSION 3 FileHandle.encode wire_FileHandle
             FileHandle_ok some_handle (canned_rpc [lit_bytes "pong"]) [] [ztake 9 reply] (zdrop 9 reply));
    [by vm_compute|apply _|by vm_compute|done|by split|by vm_compute|by vm_compute| |by vm_compute].
  split; [|by vm_compute]. constructor; [by vm_compute|constructor].
Defined.

(** ** Procedures *)

Lemma zlen_wire_FileHandle fh : FileHandle_ok fh → zlen (wire_FileHandle fh) ≤ 71.
Proof.
  unfold FileHandle_ok, NFS3_FHSIZE, wire_FileHandle. intros H. rewrite zlen_wire_opaque.
  pose proof (padding_len_range (zlen (FileHandle.data fh))). lia.
Qed.

(** C35: READ end to end.  If the server answers the encoded arguments with
    JUKEBOX [k] times and then with [r], [Nfs3Client::read] returns what [r]
    means, having slept exactly the first [k] delays of its retry policy and
    used [k + 1] transaction ids; it passes a JUKEBOX on only when the policy
    is exhausted. *)
Theorem read_procedure_served {Srv} `{!Server Srv} (c : Nfs3Client (Peer Srv)) file offset count r k srv'
    (max := max_retries (nfs_retry_policy c)) :
  ready c → FileHandle_ok file → reply_ok (ReadResult_ok count) (option_ok FileAttr_ok) r →
  answered (payload_limit c) (rpc_auth (nfs_rpc c)) NFSPROC3_READ
    (wire_ReadArgs (mkReadArgs file offset count)) k (peer_server (stream (nfs_rpc c)))
    (wire_reply wire_ReadResult (wire_optional wire_FileAttr) r) srv' →
  Z.of_nat k ≤ max → reply_status r ≠ NfsStatus.Jukebox ∨ Z.of_nat k = max →
  Nfs3Client.read file offset count c
  = (after_calls (S k) srv' (delays (nfs_retry_policy c) k) c, reply_result "READ" r).
Proof.
  intros Hc Hf Hr Hans Hk Hend. unfold Nfs3Client.read.
  eapply (reply_served NFSPROC3_READ "READ" ReadArgs_encode wire_ReadArgs);
    [apply _|done| |done|done|exact Hr|by apply read_reply_spec|exact Hans|done|done].
  unfold wire_ReadArgs. cbn [read_args_file read_args_offset read_args_count].
  pose proof (zlen_wire_FileHandle file Hf). autorewrite with zlen. unfold MAX_IO_BYTES. lia.
Qed.

Definition some_read : reply ReadResult PostOpAttr :=
  Success (mkReadResult None 4 true (lit_bytes "data")).
Definition read_payload : list byte := wire_reply wire_ReadResult (wire_optional wire_FileAttr) some_read.
Definition busy_payload : list byte := wire_u32 10008 ++ wire_bool false.

Lemma read_procedure_served_witness :
  Nfs3Client.read some_handle 0 10 (canned_nfs [busy_payload; busy_payload; read_payload])
  = (after_calls 3 [] [from_millis 50; from_millis 100]
       (canned_nfs [busy_payload; busy_payload; read_payload]),
     Ok (mkReadResult None 4 true (lit_bytes "data"))).
Proof.
  apply (read_procedure_served (canned_nfs [busy_payload; busy_payload; read_payload])
           some_handle 0 10 some_read 2 []).
  - apply canned_ready.
  - by vm_compute.
  - unfold reply_ok, ReadResult_ok, read_ok. split_and!; by vm_compute.
  - do 2 (eapply answered_later; [by apply canned_answers; vm_compute|by vm_compute|]).
    apply answered_now. by apply canned_answers; vm_compute.
  - by vm_compute.
  - by left.
Defined.

(** WRITE end to end, in the same sense; the count that goes out is the
    length of the data, and what comes back is the server's count, stability
    and verifier. *)
Theorem write_procedure_served {Srv} `{!Server Srv} (c : Nfs3Client (Peer Srv)) file offset stable data r k srv'
    (max := max_retries (nfs_retry_policy c)) :
  ready c → FileHandle_ok file → zlen data ≤ MAX_IO_BYTES →
  reply_ok (WriteResult_ok (zlen data)) WccData_ok r →
  answered (payload_limit c) (rpc_auth (nfs_rpc c)) NFSPROC3_WRITE
    (wire_WriteArgs (mkWriteArgs file offset (zlen data) stable data)) k (peer_server (stream (nfs_rpc c)))
    (wire_reply wire_WriteResult wire_WccData r) srv' →
  Z.of_nat k ≤ max → reply_status r ≠ NfsStatus.Jukebox ∨ Z.of_nat k = max →
  Nfs3Client.write file offset stable data c
  = (after_calls (S k) srv' (delays (nfs_retry_policy c) k) c, reply_result "WRITE" r).
Proof.
  intros Hc Hf Hd Hr Hans Hk Hend. unfold Nfs3Client.write.
  destruct (Z.gtb_spec (zlen data) u32_max); [unfold MAX_IO_BYTES in *; int_unfold; lia|].
  eapply (reply_served NFSPROC3_WRITE "WRITE" WriteArgs_encode wire_WriteArgs);
    [apply _|done| |done|done|exact Hr|by apply write_reply_spec|exact Hans|done|done].
  unfold wire_WriteArgs. cbn [write_args_file write_args_offset write_args_count write_args_stable write_args_data].
  pose proof (zlen_wire_FileHandle file Hf). pose proof (padding_len_range (zlen data)).
  unfold wire_StableHow. autorewrite with zlen. lia.
Qed.

Definition some_write : reply WriteResult WccData.WccData :=
  Success (mkWriteResult (WccData.mkWccData None None) 3 StableHow.Unstable (lit_bytes "verifier")).
Definition write_payload : list byte := wire_reply wire_WriteResult wire_WccData some_write.

Lemma write_procedure_served_witness :
  Nfs3Client.write some_handle 0 StableHow.FileSync (lit_bytes "data") (canned_nfs [write_payload])
  = (after_calls 1 [] [] (canned_nfs [write_payload]), reply_result "WRITE" some_write).
Proof.
  apply (write_procedure_served (canned_nfs [write_payload]) some_handle 0 StableHow.FileSync
           (lit_bytes "data") some_write 0 []).
  - apply canned_ready.
  - by vm_compute.
  - by vm_compute.
  - unfold reply_ok, WriteResult_ok, write_ok, WccData_ok. split_and!; by vm_compute.
  - apply answered_now. by apply canned_answers; vm_compute.
  - by vm_compute.
  - by left.
Defined.

(** C27: against every peer, the JUKEBOX loop of [Nfs3Client::call] ends; after
    [k] retries the thread has slept through exactly the first [k] delays of
    the policy, [k] is at most [max_retries], and a JUKEBOX answer reaches the
    caller only after [max_retries] retries. *)
Theorem jukebox_backoff {St} `{!Transport St} {A} procedure (enc : A → M Encoder XdrError unit) (args : A)
    (c : Nfs3Client St) (policy := nfs_retry_policy c) :
  nfs_inv c → (∀ e, fault_free (enc args e).2) → procedure ≠ NFSPROC3_NULL →
  post (Nfs3Client.call procedure enc args) c
    (λ payload c', ∃ k, nfs_slept c' = nfs_slept c ++ delays policy k
       ∧ Z.of_nat k ≤ max_retries policy
       ∧ (payload_has_status payload NfsStatus.Jukebox = true → Z.of_nat k = max_retries policy))
    (λ _ _, True).
Proof. apply post_nfs_call_backoff. Qed.

Lemma jukebox_backoff_witness :
  nfs_slept (Nfs3Client.call NFSPROC3_GETATTR FileHandle.encode some_handle
               (canned_nfs (replicate 9 busy_payload))).1
    = [from_millis 50; from_millis 100; from_millis 200]
  ∧ post (Nfs3Client.call NFSPROC3_GETATTR FileHandle.encode some_handle) (canned_nfs (replicate 9 busy_payload))
      (λ payload c', ∃ k, nfs_slept c' = delays RetryPolicy_default k ∧ Z.of_nat k ≤ 3
         ∧ (payload_has_status payload NfsStatus.Jukebox = true → Z.of_nat k = 3))
      (λ _ _, True).
Proof.
  split; [by vm_compute|].
  apply (jukebox_backoff NFSPROC3_GETATTR FileHandle.encode some_handle (canned_nfs (replicate 9 busy_payload)));
    [by vm_compute| |done]. apply (enc_safe_FileHandle some_handle).
Defined.

(** Whatever the peer sends, [Nfs3Client::read] and [Nfs3Client::write] end
    without a fault, and what they return can be relied on: a READ carries as
    many bytes as it claims, at most what was asked, and at least one before
    the end of the file; a WRITE accepted part of the data, and not nothing. *)
Theorem read_write_results_validated {St} `{!Transport St} (c : Nfs3Client St) fh offset count stable data :
  nfs_inv c → 0 ≤ count →
  post (Nfs3Client.read fh offset count) c (λ r c', read_ok count r ∧ nfs_inv c') (λ _ c', nfs_inv c')
  ∧ post (Nfs3Client.write fh offset stable data) c
      (λ r c', write_ok (zlen data) r ∧ nfs_inv c') (λ _ c', nfs_inv c').
Proof.
  intros Hc Hn. split.
  - exact (keeps_read fh offset count Hn c Hc).
  - exact (keeps_write fh offset stable data c Hc).
Qed.

Lemma read_write_results_validated_witness :
  (Nfs3Client.read some_handle 0 3 (canned_nfs [read_payload])).2
    = Err (Protocol [PLit "READ returned "; PNum 4; PLit " bytes for a "; PNum 3; PLit " byte request"])
  ∧ post (Nfs3Client.read some_handle 0 3) (canned_nfs [read_payload])
      (λ r c', read_ok 3 r ∧ nfs_inv c') (λ _ c', nfs_inv c')
  ∧ post (Nfs3Client.write some_handle 0 StableHow.FileSync []) (canned_nfs [read_payload])
      (λ r c', write_ok 0 r ∧ nfs_inv c') (λ _ c', nfs_inv c').
Proof.
  split; [by vm_compute|].
  apply (read_write_results_validated (canned_nfs [read_payload]) some_handle 0 3 StableHow.FileSync []);
    [by vm_compute|done].
Defined.

(** ** Records and messages *)

(** A record is read back whole, however the peer cut it into fragments,
    and what follows it stays unread. *)
Theorem record_read_any_fragmentation {Srv} `{!Server Srv} init last rest (c : RpcClient (Peer Srv)) :
  fragments_ok init last →
  zlen (mjoin init ++ last) ≤ max_record_size c ≤ usize_max →
  peer_rx (stream c) = wire_record init last ++ rest →
  read_record c = (with_rx rest c, Ok (mjoin init ++ last)).
Proof. apply read_record_rx. Qed.

Definition two_fragments : RpcClient (Peer Canned) :=
  mkRpcClient (mkPeer ([] : Canned) (wire_record [lit_bytes "ab"; lit_bytes "c"] (lit_bytes "de") ++ lit_bytes "next") [])
    1 Auth_None 5 false.

Lemma record_read_any_fragmentation_witness :
  read_record two_fragments = (with_rx (lit_bytes "next") two_fragments, Ok (lit_bytes "abcde")).
Proof.
  apply (record_read_any_fragmentation [lit_bytes "ab"; lit_bytes "c"] (lit_bytes "de") (lit_bytes "next"));
    [|by vm_compute|done].
  split; [|by vm_compute]. repeat constructor; by vm_compute.
Defined.

(** Over every transport, reading a record ends (the loop does not run out
    of fuel), and a record that is returned respects the configured limit. *)
Theorem record_read_bounded {St} `{!Transport St} (c : RpcClient St) :
  0 ≤ max_record_size c →
  post read_record c
    (λ r c', zlen r ≤ max_record_size c ∧ max_record_size c' = max_record_size c)
    (λ _ c', max_record_size c' = max_record_size c).
Proof.
  intros Hc. eapply post_mono; [by apply post_read_record|cbv beta..].
  - by intros r c' (? & _ & _ & ? & _).
  - by intros e c' (_ & _ & ? & _).
Qed.

(** A peer that sends a longer record than the client accepts. *)
Definition flood : RpcClient (Peer Canned) :=
  mkRpcClient (mkPeer ([] : Canned) (wire_record [lit_bytes "ab"; lit_bytes "cd"] (lit_bytes "ef")) [])
    1 Auth_None 5 false.

Lemma record_read_bounded_witness :
  (read_record flood).2 = Err (RpcRecordTooLarge 6 5)
  ∧ post read_record flood (λ r c', zlen r ≤ 5 ∧ max_record_size c' = 5) (λ _ c', max_record_size c' = 5).
Proof. split; [by vm_compute|]. by apply (record_read_bounded flood). Defined.

(** A reply is taken exactly when it is an accepted, successful reply to the
    call with this transaction id, with any verifier of at most 400 bytes; the
    result is everything behind the header. *)
Theorem decode_reply_accepts x reply payload :
  is_u32 x → zlen reply ≤ isize_max →
  decode_reply x reply = Ok payload ↔
  ∃ flavor verifier pad, is_u32 flavor ∧ zlen verifier ≤ 400
    ∧ zlen pad = padding_len (zlen verifier)
    ∧ reply = wire_accepted x flavor verifier pad payload.
Proof.
  intros Hx Hl. split; [by apply decode_reply_Ok_inv|].
  intros (flavor & verifier & pad & Hf & Hv & Hp & ->). by apply decode_reply_accepted.
Qed.

Lemma decode_reply_accepts_witness :
  decode_reply 7 (wire_accepted 7 1 (lit_bytes "v") [x00; x00; x00] (lit_bytes "result")) = Ok (lit_bytes "result").
Proof.
  apply (decode_reply_accepts 7); [by split|by vm_compute|].
  exists 1, (lit_bytes "v"), [x00; x00; x00]. split_and!; [by split..|by vm_compute|done|done].
Defined.

(** A well-formed denial is reported as the error its status means and
    never as a result; an RPC version mismatch comes out as
    [RpcProgramMismatch], the variant program mismatches use. *)
Theorem decode_reply_reports_denial x reject_stat args err :
  is_u32 x → is_u32 reject_stat → Forall is_u32 args → denied_error reject_stat args = Some err →
  decode_reply x (wire_reply_header x REPLY_DENIED ++ wire_u32 reject_stat ++ wire_each wire_u32 args)
  = Err err ∧ definite_error err = true.
Proof.
  intros Hx Hr Ha He. split; [by apply decode_reply_denied|].
  unfold denied_error in He. repeat case_match; by simplify_eq.
Qed.

Lemma decode_reply_reports_denial_witness :
  (decode_reply 7 (wire_reply_header 7 REPLY_DENIED ++ wire_u32 0 ++ wire_each wire_u32 [2; 2])
     = Err (RpcProgramMismatch 2 2) ∧ definite_error (RpcProgramMismatch 2 2) = true)
  ∧ decode_reply 7 (wire_reply_header 7 REPLY_DENIED ++ wire_u32 1 ++ wire_each wire_u32 [5])
     = Err (RpcDenied 1 5).
Proof.
  split.
  - apply (decode_reply_reports_denial 7 0 [2; 2]); [by split|by split|repeat constructor; done|done].
  - by vm_compute.
Defined.

(** The message of a call is the RFC 5531 encoding of its fields, for every
    credential: the credential body never exceeds the 400 bytes the protocol
    allows, so encoding a call cannot fail because of it. *)
Theorem encode_call_is_wire_format {A} x program version procedure auth
    (enc : A → M Encoder XdrError unit) wire ok args :
  EncodesTo enc wire ok → ok args →
  encode_call x program version procedure (Auth_Sys auth) enc args
    = Ok (wire_call x program version procedure (Auth_Sys auth) (wire args))
  ∧ zlen (wire_auth_sys auth) ≤ 400.
Proof.
  intros He Ha. split; [by eapply encode_call_wire|]. pose proof (zlen_wire_auth_sys auth). lia.
Qed.

Definition big_auth : AuthSys :=
  mkAuthSys 9 (replicate 300 x61) 1000 1000 (Z.of_nat <$> seq 0 40).

Lemma encode_call_is_wire_format_witness :
  encode_call 5 NFS_PROGRAM NFS_VERSION NFSPROC3_GETATTR (Auth_Sys big_auth) FileHandle.encode some_handle
    = Ok (wire_call 5 NFS_PROGRAM NFS_VERSION NFSPROC3_GETATTR (Auth_Sys big_auth) (wire_FileHandle some_handle))
  ∧ zlen (wire_auth_sys big_auth) ≤ 400.
Proof.
  apply (encode_call_is_wire_format 5 NFS_PROGRAM NFS_VERSION NFSPROC3_GETATTR big_auth FileHandle.encode
           wire_FileHandle FileHandle_ok some_handle); [apply _|by vm_compute].
Defined.

(** The transaction ids of the next [n] calls of a connection. *)
Fixpoint draw_xids {St} (n : nat) (c : RpcClient St) : list Z :=
  match n with
  | O => []
  | S k =>
      match next_xid c with
      | (c', Ok x) => x :: draw_xids k c'
      | _ => []
      end
  end.

Lemma draw_xids_nth {St} n (c : RpcClient St) : draw_xids n c = nth_xid (xid c) <$> seq 1 n.
Proof.
  revert c. induction n as [|n IH]; intros c; [done|]. cbn [draw_xids].
  change (next_xid c) with (with_xid (succ_xid (xid c)) c, Ok (E := Error) (succ_xid (xid c))).
  cbv beta iota. rewrite IH. cbn [seq fmap list_fmap]. f_equal.
  rewrite <- (fmap_S_seq 1 n), <- list_fmap_compose. apply list_fmap_ext. intros i m _.
  cbn [xid with_xid compose]. apply nth_xid_shift.
Qed.

(** The transaction ids of up to [2 ^ 32 - 1] consecutive calls of a
    connection are pairwise different, and none of them is 0. *)
Theorem xids_do_not_repeat {St} (c : RpcClient St) n :
  is_u32 (xid c) → Z.of_nat n ≤ u32_max → NoDup (draw_xids n c) ∧ 0 ∉ draw_xids n c.
Proof.
  intros Hx Hn. rewrite draw_xids_nth. split.
  - apply NoDup_fmap_2_strong; [|apply NoDup_seq].
    intros i j Hi%elem_of_seq Hj%elem_of_seq Heq.
    destruct (Nat.lt_trichotomy i j) as [H|[H|H]]; [|done|]; exfalso;
      [apply (nth_xid_inj (xid c) i j)|apply (nth_xid_inj (xid c) j i)]; auto; lia.
  - intros (i & Hi & Hin%elem_of_seq)%list_elem_of_fmap.
    rewrite nth_xid_closed in Hi by (done || lia).
    pose proof (Z.mod_pos_bound (xid c + Z.of_nat i - 1) u32_max). unfold u32_max in *. lia.
Qed.

Lemma xids_do_not_repeat_witness :
  draw_xids 3 (mkRpcClient tt (2 ^ 32 - 2) Auth_None 0 false) = [2 ^ 32 - 1; 1; 2]
  ∧ NoDup (draw_xids 3 (mkRpcClient tt (2 ^ 32 - 2) Auth_None 0 false))
  ∧ 0 ∉ draw_xids 3 (mkRpcClient tt (2 ^ 32 - 2) Auth_None 0 false).
Proof.
  split; [by vm_compute|].
  by apply (xids_do_not_repeat (mkRpcClient tt (2 ^ 32 - 2) Auth_None 0 false)).
Defined.
