(* ===== verification/PropsCodec.v ===== *)
(** * Properties of the codecs, the error type and the credentials

    XDR (src/src/xdr), the reply decoders (src/src/v3/proto.rs, mount.rs,
    portmap.rs), the status codes, the classification of errors
    (src/src/error.rs), the retry delays (src/src/retry.rs) and AUTH_SYS
    credentials (src/src/rpc.rs). *)

From Stdlib Require Import Strings.String Strings.Byte.
From S2P Require Import V4Results V4ResultsSpec.
From S2P Require Import Prelude Text Xdr XdrSpec XdrList Status Errors Rpc RpcSpec V3Proto V3Wire.
From S2P Require Import V3Replies V3CallsSpec Mount.
Import FileHandle (FileHandle, mkFileHandle).
Import FileAttr (FileAttr).

#[local] Open Scope Z_scope.

(** C38: XDR round trip: an array of optional strings within its limits encodes,
    decodes back to the same array, and is refused when anything follows it. *)
Theorem xdr_round_trip (l : list (option str)) maxs max extra
    (enc := λ l, write_array (write_optional (λ s, write_string s maxs)) l max)
    (dec := read_array (read_optional (read_string maxs)) max) :
  array_ok (option_ok (string_ok maxs)) max l →
  zlen (wire_array (wire_optional wire_opaque) l ++ extra) ≤ isize_max →
  ∃ bs, to_bytes enc l = Ok bs ∧ from_bytes dec bs = Ok l
    ∧ (extra ≠ [] → from_bytes dec (bs ++ extra) = Err (TrailingBytes (zlen extra))).
Proof.
  intros (Hmax & Hu & Hl) Hlen. exists (wire_array (wire_optional wire_opaque) l). split_and!.
  - eapply to_bytes_wire; [apply _|]. split_and!; [done|done|].
    eapply list.Forall_impl; [exact Hl|]. intros [s|]; [|done]. by intros [? _].
  - eapply from_bytes_wire; [apply _|by split_and!|]. zlen_lia.
  - intros He. eapply from_bytes_trailing; [apply _|by split_and!|done|done].
Qed.

Lemma xdr_round_trip_witness :
  ∃ bs, to_bytes (λ l, write_array (write_optional (λ s, write_string s 10)) l 4) [Some (lit_bytes "abcde"); None] = Ok bs
    ∧ from_bytes (read_array (read_optional (read_string 10)) 4) bs = Ok [Some (lit_bytes "abcde"); None]
    ∧ ([x00] ≠ [] → from_bytes (read_array (read_optional (read_string 10)) 4) (bs ++ [x00]) = Err (TrailingBytes 1)).
Proof.
  apply (xdr_round_trip [Some (lit_bytes "abcde"); None] 10 4 [x00]); [|by vm_compute].
  split_and!; [by vm_compute..|]. repeat constructor; by vm_compute.
Defined.

(** C39: no reply decoder of the NFSv3, MOUNT, portmapper and NFSv4 clients
    faults, leaves its input or moves backwards in it, whatever bytes the peer
    sent. *)
Theorem reply_decoders_are_safe procedure requested plus mapping :
  (DecSafe null_reply ∧ DecSafe getattr_reply ∧ DecSafe (wcc_only_reply procedure) ∧ DecSafe lookup_reply
   ∧ DecSafe access_reply ∧ DecSafe readlink_reply ∧ DecSafe (read_reply requested)
   ∧ DecSafe (write_reply requested) ∧ DecSafe (create_like_reply procedure) ∧ DecSafe rename_reply)
  ∧ (DecSafe link_reply ∧ DecSafe (readdir_reply procedure plus) ∧ DecSafe fsstat_reply
     ∧ DecSafe fsinfo_reply ∧ DecSafe pathconf_reply ∧ DecSafe commit_reply)
  ∧ (DecSafe mount_reply ∧ DecSafe dump_reply ∧ DecSafe exports_reply ∧ DecSafe (get_port_reply mapping))
  ∧ (DecSafe OperationResult_decode ∧ DecSafe CompoundResponse.decode).
Proof. split_and!; apply _. Qed.

(** What [read_opaque] accepts is what the input holds: the length word,
    the data of that length within the limit, and its padding; the decoder
    stops right behind it. *)
Theorem read_opaque_within_limit max d d' bs :
  dec_wf d → read_opaque max d = (d', Ok bs) →
  ∃ pad, unread d = wire_u32 (zlen bs) ++ bs ++ pad ++ unread d'
    ∧ zlen pad = padding_len (zlen bs) ∧ zlen bs ≤ max ∧ dec_wf d'.
Proof. apply read_opaque_unread. Qed.

Definition opaque_input : list byte := [x00; x00; x00; x03; x61; x62; x63; xff; x64].

Lemma read_opaque_within_limit_witness :
  read_opaque 3 (Decoder_new opaque_input) = (mkDecoder opaque_input 8, Ok (lit_bytes "abc"))
  ∧ ∃ pad, unread (Decoder_new opaque_input)
           = wire_u32 3 ++ lit_bytes "abc" ++ pad ++ unread (mkDecoder opaque_input 8)
    ∧ zlen pad = padding_len 3 ∧ 3 ≤ 3 ∧ dec_wf (mkDecoder opaque_input 8).
Proof.
  split; [by vm_compute|].
  apply (read_opaque_within_limit 3 (Decoder_new opaque_input) (mkDecoder opaque_input 8) (lit_bytes "abc"));
    [by split|by vm_compute].
Defined.

(** A READDIR or READDIRPLUS reply decodes to the listing the server meant,
    entries in order with their names, cookies, attributes and handles, or to
    its error status. *)
Theorem readdir_reply_decodes procedure plus r :
  reply_ok (ReadDirResult_ok plus) (option_ok FileAttr_ok) r →
  zlen (wire_reply (wire_ReadDirResult plus) (wire_optional wire_FileAttr) r) ≤ isize_max →
  (readdir_reply procedure plus
     (Decoder_new (wire_reply (wire_ReadDirResult plus) (wire_optional wire_FileAttr) r))).2
  = reply_result procedure r.
Proof. intros Hr Hl. apply replies_whole; [by apply readdir_reply_spec|done]. Qed.

Definition some_listing : reply ReadDirResult PostOpAttr :=
  Success (mkReadDirResult None (lit_bytes "verifier")
    [mkDirectoryEntry 7 (lit_bytes "a") 1 None (Some (mkFileHandle (lit_bytes "h")));
     mkDirectoryEntry 8 (lit_bytes "b") 2 None None] true).

Lemma readdir_reply_decodes_witness :
  (readdir_reply "READDIRPLUS" true
     (Decoder_new (wire_reply (wire_ReadDirResult true) (wire_optional wire_FileAttr) some_listing))).2
  = reply_result "READDIRPLUS" some_listing.
Proof.
  apply (readdir_reply_decodes "READDIRPLUS" true some_listing); [|by vm_compute].
  split_and!; [done|by vm_compute|]. split; [|by vm_compute].
  repeat constructor; by vm_compute.
Defined.

(** A listing decoded from any input has at most [MAX_DIR_ENTRIES] entries,
    and decoding it ends. *)
Theorem decoded_listing_bounded plus d :
  dec_wf d →
  fault_free (decode_dir_entries plus d).2
  ∧ ∀ d' l, decode_dir_entries plus d = (d', Ok l) → zlen l ≤ MAX_DIR_ENTRIES.
Proof.
  intros Hd. split; [by apply (dec_safe (dec := decode_dir_entries plus))|].
  intros d' l. by apply decode_dir_entries_bounded.
Qed.

Lemma decoded_listing_bounded_witness :
  fault_free (decode_dir_entries false (Decoder_new [x00; x00; x00; x00])).2
  ∧ ∀ d' l, decode_dir_entries false (Decoder_new [x00; x00; x00; x00]) = (d', Ok l) →
      zlen l ≤ MAX_DIR_ENTRIES.
Proof. apply (decoded_listing_bounded false (Decoder_new [x00; x00; x00; x00])). by split. Defined.

(** The predicates on errors look through [Cleanup] at the primary error,
    an unknown outcome is never called retryable, and an error that is
    retryable is none of the permanent conditions. *)
Theorem error_classes_consistent e :
  (is_not_found e = is_not_found (primary_error e) ∧ is_retryable e = is_retryable (primary_error e)
   ∧ is_permission_denied e = is_permission_denied (primary_error e)
   ∧ is_already_exists e = is_already_exists (primary_error e)
   ∧ is_outcome_unknown e = is_outcome_unknown (primary_error e))
  ∧ (is_outcome_unknown e = true → is_retryable e = false)
  ∧ (is_retryable e = true →
     is_not_found e = false ∧ is_permission_denied e = false ∧ is_already_exists e = false
     ∧ is_stale_handle e = false ∧ is_no_space e = false ∧ is_read_only e = false)
  ∧ is_session_recoverable e = requires_session_recovery e.
Proof.
  split_and!.
  1-5: apply primary_error_spec.
  - apply outcome_unknown_not_retryable.
  - apply retryable_exclusive.
  - apply session_recovery_predicates_agree.
Qed.

(** ** Credentials *)

(** The auxiliary groups that go on the wire are the first 16 distinct ones
    of those given, in order, without the primary group; normalising again
    changes nothing. *)
Theorem auxiliary_gids_normalized primary groups (r := normalize_auxiliary_gids primary groups) :
  r = take 16 (fresh [primary] groups) ∧ NoDup r ∧ primary ∉ r ∧ (∀ g, g ∈ r → g ∈ groups)
  ∧ zlen r ≤ AUTH_SYS_MAX_GROUPS ∧ normalize_auxiliary_gids primary r = r.
Proof.
  split; [apply normalize_auxiliary_gids_spec|].
  destruct (normalize_auxiliary_gids_props primary groups) as (? & ? & ? & ?).
  split_and!; [done..|apply normalize_auxiliary_gids_idem].
Qed.

(** A machine name stays valid UTF-8 when it is cut to the limit of 255
    bytes, and no more than three bytes are lost beyond what the limit forces. *)
Theorem machine_name_normalized s :
  utf8_valid s = true →
  utf8_valid (normalize_machine_name s) = true
  ∧ Z.min (zlen s) 252 ≤ zlen (normalize_machine_name s) ≤ 255
  ∧ prefix (normalize_machine_name s) s.
Proof.
  intros Hs. destruct (normalize_machine_name_valid s Hs) as [Hv Hl]. split_and!; [done|apply Hl..|].
  unfold normalize_machine_name. by eexists; symmetry; apply take_drop.
Qed.

(** 254 ASCII characters and a three-byte one across the limit. *)
Definition long_name : str := replicate 254 x61 ++ [xe2; x82; xac].

Lemma machine_name_normalized_witness :
  normalize_machine_name long_name = replicate 254 x61
  ∧ utf8_valid (normalize_machine_name long_name) = true
  ∧ Z.min (zlen long_name) 252 ≤ zlen (normalize_machine_name long_name) ≤ 255
  ∧ prefix (normalize_machine_name long_name) long_name.
Proof. split; [by vm_compute|]. apply (machine_name_normalized long_name). by vm_compute. Defined.

(** The status and operation codes of both protocol versions and of MOUNT
    survive the round trip from the wire, unknown codes included, and a known
    status is recovered from its code. *)
Theorem status_codes_round_trip v :
  Status.as_u32 (Status.from_u32 v) = v ∧ NfsStatus.as_u32 (NfsStatus.from_u32 v) = v
  ∧ MountStatus.code (MountStatus.from_u32 v) = v
  ∧ (∀ op, OpCode.from_u32 v = Some op ↔ OpCode.as_u32 op = v)
  ∧ (∀ s, (∀ u, s ≠ Status.Unknown u) → Status.from_u32 (Status.as_u32 s) = s)
  ∧ (∀ s, (∀ u, s ≠ NfsStatus.Unknown u) → NfsStatus.from_u32 (NfsStatus.as_u32 s) = s).
Proof.
  split_and!; [apply Status_as_from|apply NfsStatus_as_from|apply MountStatus_code_from| |
               apply Status_from_as|apply NfsStatus_from_as].
  intros op. split; [apply OpCode_as_from|]. intros <-. apply OpCode.from_as_u32.
Qed.

(** ** Retries *)

(** Before retry number [retry] the client waits the initial delay doubled
    [retry] times, capped by the maximal delay; there are [max_retries] retries,
    the delays never decrease, and no multiplication overflows. *)
Theorem retry_delays p r1 r2 :
  policy_ok p → 0 ≤ r1 ≤ r2 →
  delay_for_retry p r1
    = (if r1 <? max_retries p then Some (Z.min (initial_delay p * 2 ^ Z.min r1 31) (max_delay p)) else None)
  ∧ (∀ d1 d2, delay_for_retry p r1 = Some d1 → delay_for_retry p r2 = Some d2 → d1 ≤ d2 ≤ max_delay p).
Proof.
  intros Hp Hr. split; [apply delay_for_retry_spec; [done|lia]|].
  intros d1 d2 H1 H2. split; [by apply (delay_for_retry_mono p r1 r2)|].
  rewrite delay_for_retry_spec in H2 by (done || lia).
  destruct (r2 <? max_retries p); [|done]. injection H2 as <-. lia.
Qed.

Lemma retry_delays_witness :
  delay_for_retry RetryPolicy_default 1
    = (if 1 <? 3 then Some (Z.min (from_millis 50 * 2 ^ Z.min 1 31) (from_secs 1)) else None)
  ∧ (∀ d1 d2, delay_for_retry RetryPolicy_default 1 = Some d1 →
       delay_for_retry RetryPolicy_default 2 = Some d2 → d1 ≤ d2 ≤ from_secs 1).
Proof. apply (retry_delays RetryPolicy_default 1 2); [by vm_compute|lia]. Defined.

(** ** MOUNT and the portmapper *)

(** The MOUNT and portmapper replies: MNT yields the root handle and the
    flavors or the server's status, EXPORT the list of exports with their
    groups, GETPORT a port that fits 16 bits and an error otherwise. *)
Theorem mount_and_portmap_replies r exports mapping port :
  match r with inl i => MountInfo_ok i | inr v => is_u32 v ∧ v ≠ 0 end →
  linked_ok Export_ok exports → is_u32 port →
  replies mount_reply
    (match r with inl i => wire_u32 0 ++ wire_MountInfo i | inr v => wire_u32 v end)
    (match r with inl i => Ok i | inr v => Err (MountError (MountStatus.from_u32 v)) end)
  ∧ replies exports_reply (wire_linked wire_Export exports) (Ok exports)
  ∧ ∃ err, replies (get_port_reply mapping) (wire_u32 port) (if port >? u16_max then Err (Protocol err) else Ok port).
Proof.
  intros Hr He Hp. split_and!; [by apply mount_reply_spec|by apply exports_reply_spec|].
  eexists. by apply get_port_reply_spec.
Qed.

Definition some_exports : list Export := [mkExport (lit_bytes "/srv") [lit_bytes "lan"; lit_bytes "wan"]].

Lemma mount_and_portmap_replies_witness :
  replies mount_reply (wire_u32 13) (Err (MountError MountStatus.Access))
  ∧ replies exports_reply (wire_linked wire_Export some_exports) (Ok some_exports)
  ∧ ∃ err, replies (get_port_reply (Mapping_tcp 100003 3)) (wire_u32 70000)
             (if 70000 >? u16_max then Err (Protocol err) else Ok 70000).
Proof.
  apply (mount_and_portmap_replies (inr 13) some_exports (Mapping_tcp 100003 3) 70000);
    [by split| |by split].
  split; [|by vm_compute]. constructor; [|constructor]. split; [by vm_compute|].
  split; [|by vm_compute]. repeat constructor; by vm_compute.
Defined.
