(* ===== verification/PropsClient.v ===== *)
(** * Properties of the path-oriented client

    Termination and bounds of its loops against every peer, recursive removal,
    connecting (src/src/v3/blocking.rs), and the helpers of
    src/src/v3/client.rs: paths, temporary names, targets and limits. *)

From Stdlib Require Import Strings.String Strings.Byte.
From S2P Require Import Prelude Text Xdr XdrSpec Status Errors Rpc RpcSpec RpcClientSpec RpcPeer.
From S2P Require Import V3Proto V3Wire V3Calls V3Replies V3CallsSpec V3Peer V3Client V3ClientSpec.
From S2P Require Import V3Atomic V3Remove.
From S2P Require Import Mount V3Blocking V3BlockingSpec V3Store V3Mem V3Connect V3ConnectSpec.
From S2P Require Import PropsFiles PropsRpc.
Import FileHandle (FileHandle, mkFileHandle).
Import StableHow (StableHow).
Import Nfs3Client (Nfs3Client).
Import ClientBuilder (ClientBuilder).

#[local] Open Scope Z_scope.

(** ** Every peer *)

(** A local reader over bytes in memory. *)
#[export] Instance Bytes_reader : Reader (list byte) := λ n v, (zdrop n v, Ok (ztake n v)).
#[export] Instance Bytes_reader_laws : ReaderLaws (list byte).
Proof.
  split; [done|]. intros n v v' bs Hn [= _ <-]. rewrite zlen_ztake_min by done. lia.
Qed.

(** C28: against every peer, the transfer loops end without a fault and leave
    the client's configuration as it was: reading a file into memory or a
    writer, writing from memory or a reader, and copying. *)
Theorem transfers_terminate {St Wr Rd} `{!Transport St, !Writer Wr, !WriterLaws Wr, !Reader Rd, !ReaderLaws Rd}
    (w : World (Nfs3Client St)) (wr : Wr) (rd : Rd) handle other offset data stable :
  world_ok w → zlen data ≤ isize_max → 0 ≤ offset ≤ u64_max →
  post (Client.read_handle_to_end handle) w (λ _, step_ok w) (λ _, step_ok w)
  ∧ post (Client.read_handle_to_writer handle) (w, wr) (λ _ s, step_ok w s.1) (λ _ s, step_ok w s.1)
  ∧ post (Client.write_handle_all handle offset data stable) w (λ _, step_ok w) (λ _, step_ok w)
  ∧ post (Client.write_handle_from_reader_at handle offset stable) (w, rd)
      (λ _ s, step_ok w s.1) (λ _ s, step_ok w s.1)
  ∧ post (Client.copy_handles handle other stable) w (λ _, step_ok w) (λ _, step_ok w).
Proof.
  intros Hw Hd Ho. split_and!.
  - eapply post_mono; [by apply safe_read_handle_to_end|by intros ?? []|done].
  - eapply post_mono; [by apply (safe_read_handle_to_writer handle (w, wr))|by intros ?? []|done].
  - eapply post_mono; [by apply safe_write_handle_all|by intros ?? []|done].
  - eapply post_mono; [by apply (safe_write_handle_from_reader_at handle offset stable Ho (w, rd))|by intros ?? []|done].
  - eapply post_mono; [by apply safe_copy_handles|by intros ?? []|done].
Qed.

Definition canned_world (srv : Canned) : World (Nfs3Client (Peer Canned)) := demo_world (canned_nfs srv).

Lemma canned_world_ok srv : world_ok (canned_world srv).
Proof. split; [by vm_compute|apply demo_sizes]. Qed.

Lemma transfers_terminate_witness :
  (Client.read_handle_to_end some_handle (canned_world [read_payload])).2 = Ok (lit_bytes "data")
  ∧ let w := canned_world [read_payload] in
    post (Client.read_handle_to_end some_handle) w (λ _, step_ok w) (λ _, step_ok w)
    ∧ post (Client.read_handle_to_writer some_handle) (w, lit_bytes "") (λ _ s, step_ok w s.1) (λ _ s, step_ok w s.1)
    ∧ post (Client.write_handle_all some_handle 3 (lit_bytes "abc") StableHow.FileSync) w (λ _, step_ok w) (λ _, step_ok w)
    ∧ post (Client.write_handle_from_reader_at some_handle 3 StableHow.FileSync) (w, lit_bytes "xyz")
        (λ _ s, step_ok w s.1) (λ _ s, step_ok w s.1)
    ∧ post (Client.copy_handles some_handle demo_file StableHow.FileSync) w (λ _, step_ok w) (λ _, step_ok w).
Proof.
  split; [by vm_compute|].
  apply (transfers_terminate (canned_world [read_payload]) (lit_bytes "") (lit_bytes "xyz") some_handle
           demo_file 3 (lit_bytes "abc") StableHow.FileSync);
    [apply canned_world_ok|by vm_compute|by split].
Defined.

(** Listing a directory against every peer ends, and returns at most
    [max] entries: a server that sends more is an error. *)
Theorem read_dir_within_limit {St} `{!Transport St} (w : World (Nfs3Client St)) path max :
  world_ok w → 0 ≤ max < usize_max →
  post (Client.read_dir_with_limit path max) w (λ l w', zlen l ≤ max ∧ step_ok w w') (λ _ w', step_ok w w').
Proof. intros Hw Hm. by apply safe_read_dir_with_limit. Qed.

(** READDIRPLUS answered with two entries. *)
Definition listing_payload : list byte :=
  wire_reply (wire_ReadDirResult true) (wire_optional wire_FileAttr)
    (Success (F := PostOpAttr) (mkReadDirResult None (lit_bytes "verifier")
       [mkDirectoryEntry 7 (lit_bytes "a") 1 None None; mkDirectoryEntry 8 (lit_bytes "b") 2 None None] true)).

Lemma read_dir_within_limit_witness :
  (Client.read_dir_with_limit (lit_bytes "/") 2 (canned_world [listing_payload])).2
    = Ok [mkDirEntry (lit_bytes "a") 7 None; mkDirEntry (lit_bytes "b") 8 None]
  ∧ is_Ok (Client.read_dir_with_limit (lit_bytes "/") 2 (canned_world [listing_payload])).2
  ∧ post (Client.read_dir_with_limit (lit_bytes "/") 1) (canned_world [listing_payload])
      (λ l w', zlen l ≤ 1 ∧ step_ok (canned_world [listing_payload]) w')
      (λ _ w', step_ok (canned_world [listing_payload]) w').
Proof.
  split; [by vm_compute|split; [by eexists; vm_compute|]].
  apply (read_dir_within_limit (canned_world [listing_payload])); [apply canned_world_ok|by split].
Defined.

(** ** Recursive removal *)


(** A server with one directory "a", which lists itself, its parent and a file
    "b", and which grants every removal. *)
Inductive Shelf := shelf.
Definition shelf_attr (t : FileType.FileType) : FileAttr.FileAttr :=
  FileAttr.mkFileAttr t 0 1 0 0 0 0 (SpecData.mkSpecData 0 0) 0 0 (NfsTime.mkNfsTime 0 0) (NfsTime.mkNfsTime 0 0)
    (NfsTime.mkNfsTime 0 0).
Definition shelf_entry (name : string) (t : FileType.FileType) (cookie : Z) : DirectoryEntry :=
  mkDirectoryEntry 1 (lit_bytes name) cookie (Some (shelf_attr t)) None.
Definition shelf_refuses {A} (procedure : string) : M Shelf Error A := throw (Nfs procedure NfsStatus.NotSupported).
#[local] Instance Shelf_nfs3 : Nfs3 Shelf := {
  nfs_inv _ := True;
  nfs_getattr fh := mret (shelf_attr (if bool_decide (fh = mkFileHandle (lit_bytes "a")) then FileType.Directory else FileType.Regular));
  nfs_setattr _ _ := shelf_refuses "SETATTR";
  nfs_lookup _ name := mret (mkLookupResult (mkFileHandle name) None None);
  nfs_access _ _ := shelf_refuses "ACCESS";
  nfs_readlink _ := shelf_refuses "READLINK";
  nfs_read _ _ _ := shelf_refuses "READ";
  nfs_write _ _ _ _ := shelf_refuses "WRITE";
  nfs_create _ _ _ := shelf_refuses "CREATE";
  nfs_mkdir _ _ _ := shelf_refuses "MKDIR";
  nfs_symlink _ _ _ _ := shelf_refuses "SYMLINK";
  nfs_mknod _ _ _ := shelf_refuses "MKNOD";
  nfs_remove _ _ := mret (WccData.mkWccData None None);
  nfs_rmdir _ _ := mret (WccData.mkWccData None None);
  nfs_rename _ _ _ _ := shelf_refuses "RENAME";
  nfs_link _ _ _ := shelf_refuses "LINK";
  nfs_readdir _ _ _ _ := shelf_refuses "READDIR";
  nfs_readdirplus _ _ _ _ _ :=
    mret (mkReadDirResult None (replicate 8 x00)
      [shelf_entry "." FileType.Directory 1; shelf_entry ".." FileType.Directory 2; shelf_entry "b" FileType.Regular 3] true);
  nfs_fsstat _ := shelf_refuses "FSSTAT";
  nfs_fsinfo _ := shelf_refuses "FSINFO";
  nfs_pathconf _ := shelf_refuses "PATHCONF";
  nfs_commit _ _ _ := shelf_refuses "COMMIT";
}.
#[local] Instance Shelf_laws : Nfs3Laws Shelf.
Proof. by split. Qed.


(** ** Connecting *)

(** C29: for every behaviour of the portmapper, the MOUNT server and the NFS
    server, a failed [connect_with_builder] has left no mount behind: either
    nothing was mounted or the UMNT for it was sent; a successful one has sent
    exactly one MNT, and its client works with transfer sizes between 1 and
    what the builder asked for. *)
Theorem connect_leaves_no_mount {W Mnt N} `{!Services W Mnt N, !ServicesInv W N, !ServicesLaws W Mnt N} b
    (s : Logged W) (path := export (ClientBuilder.target b)) :
  builder_sizes b → services_inv (log_inner s) →
  post (connect_with_builder b) s
    (λ c s', log_events s' = log_events s ++ [Mounted path] ∧ connected b c)
    (λ _ s', ∃ ev, log_events s' = log_events s ++ ev ∧ (ev = [] ∨ ev = [Mounted path; Unmounted path])).
Proof.
  intros Hb Hs. eapply post_mono; [by apply logs_connect_with_builder|cbv beta..].
  - by intros c s' (_ & Hev & Hc).
  - by intros e s' (_ & Hev).
Qed.

(** Services that succeed or fail as the script says. *)
Definition Script : Type := list bool.

Definition scripted {A} (a : A) : M Script Error A := λ s,
  match s with
  | true :: s' => (s', Ok a)
  | false :: s' => (s', Err (Io TimedOut))
  | [] => ([], Ok a)
  end.

Definition some_fsinfo : FsInfo :=
  mkFsInfo None 1048576 65536 512 1048576 65536 512 8192 (2 ^ 40) (NfsTime.mkNfsTime 0 1) 27.

#[export] Instance Script_services : Services Script unit unit := {
  sv_get_tcp_port _ _ _ _ := scripted 2049;
  sv_mount_connect _ _ _ _ := scripted tt;
  sv_mount_set_timeout _ _ := scripted tt;
  sv_mount _ _ := scripted (mkMountInfo demo_root [1]);
  sv_unmount _ _ := scripted tt;
  sv_unmount_all _ := scripted tt;
  sv_exports _ := scripted [];
  sv_dump _ := scripted [];
  sv_nfs_connect _ _ _ _ := scripted tt;
  sv_nfs_set_timeout _ _ := scripted tt;
  sv_nfs_set_retry_policy _ n := n;
  sv_nfs_fsinfo _ := mret some_fsinfo;
  sv_nfs_set_max_record_size _ := mret tt;
}.

#[export] Instance Script_inv : ServicesInv Script unit := {
  services_inv _ := True;
  nfs_good _ := True;
}.

Lemma scripted_steady {A} (a : A) : steady (W := Script) (N := unit) (scripted a) (λ _, True).
Proof. by intros [|[] s]. Qed.

#[export] Instance Script_laws : ServicesLaws Script unit unit.
Proof. split; intros; try apply scripted_steady; done. Qed.

Definition demo_builder : ClientBuilder := ClientBuilder.new demo_auth (lit_bytes "srv") (lit_bytes "/export").

(** The NFS connection is refused after the mount. *)
Definition refused_nfs : Logged Script := mkLogged [true; true; true; true; true; false] [].

Lemma connect_leaves_no_mount_witness :
  log_events (connect_with_builder demo_builder refused_nfs).1
    = [Mounted (lit_bytes "/export"); Unmounted (lit_bytes "/export")]
  ∧ post (connect_with_builder demo_builder) refused_nfs
      (λ c s', log_events s' = [Mounted (lit_bytes "/export")] ∧ connected demo_builder c)
      (λ _ s', ∃ ev, log_events s' = ev
         ∧ (ev = [] ∨ ev = [Mounted (lit_bytes "/export"); Unmounted (lit_bytes "/export")])).
Proof.
  split; [by vm_compute|].
  apply (connect_leaves_no_mount demo_builder refused_nfs); [|done].
  unfold builder_sizes. split_and!; by vm_compute.
Defined.

(** ** Paths *)

(** [normalize_path] accepts exactly the non-empty paths whose significant
    components contain no [..] and no name longer than 255 bytes, and returns
    those components in order; all of them are names a server can be asked
    about. *)
Theorem normalize_path_accepts path cs :
  (normalize_path path = Ok cs ↔
   path ≠ [] ∧ cs = components path ∧ Forall allowed (components path))
  ∧ (normalize_path path = Ok cs → Forall clean cs).
Proof.
  split; [apply normalize_path_Ok|]. intros (_ & -> & Ha)%normalize_path_Ok. by apply components_clean.
Qed.

(** Appending clean names to a path with [join_path], one by one, and
    normalising the result gives the components of the path followed by the
    names, whatever slashes the path ended in. *)
Theorem normalize_join_round_trip cs parent pcs :
  normalize_path parent = Ok pcs → Forall clean cs →
  normalize_path (fold_left join_path cs parent) = Ok (pcs ++ cs).
Proof. apply normalize_join_all. Qed.

Lemma normalize_join_round_trip_witness :
  fold_left join_path [lit_bytes "b"; lit_bytes "c"] (lit_bytes "//a/./") = lit_bytes "//a/./b/c"
  ∧ normalize_path (fold_left join_path [lit_bytes "b"; lit_bytes "c"] (lit_bytes "//a/./"))
    = Ok ([lit_bytes "a"] ++ [lit_bytes "b"; lit_bytes "c"]).
Proof.
  split; [by vm_compute|].
  apply (normalize_join_round_trip [lit_bytes "b"; lit_bytes "c"] (lit_bytes "//a/./") [lit_bytes "a"]); [by vm_compute|].
  repeat constructor; try done; by apply (bool_decide_unpack _); vm_compute.
Defined.

(** [temporary_sibling_path] names a clean entry of the directory that holds
    the target, and two draws of one process give different names whenever
    their counter values differ, whatever the clock says. *)
Theorem temporary_sibling_is_fresh path parent name env1 env2 :
  env_ok env1 → env_ok env2 → env_pid env1 = env_pid env2 → env_counter env1 ≠ env_counter env2 →
  normalize_path path = Ok (parent ++ [name]) →
  ∃ t1 t2 n1 n2, (temporary_sibling_path path env1).2 = Ok t1 ∧ (temporary_sibling_path path env2).2 = Ok t2
    ∧ normalize_path t1 = Ok (parent ++ [n1]) ∧ normalize_path t2 = Ok (parent ++ [n2])
    ∧ clean n1 ∧ n1 ≠ n2.
Proof.
  intros H1 H2 Hp Hc Hn.
  pose proof (temporary_sibling_path_spec path env1 H1) as S1.
  pose proof (temporary_sibling_path_spec path env2 H2) as S2.
  rewrite Hn, (proj2 (pop_Some (parent ++ [name]) parent name) eq_refl) in S1, S2.
  destruct S1 as (t1 & -> & Ht1), S2 as (t2 & -> & Ht2).
  exists t1, t2, (temp_name env1), (temp_name env2). split_and!; try done.
  - by apply temp_name_clean.
  - intros Heq. by apply Hc, temp_name_inj.
Qed.

Lemma temporary_sibling_is_fresh_witness :
  ∃ t1 t2 n1 n2, (temporary_sibling_path (lit_bytes "/d/f") demo_env).2 = Ok t1
    ∧ (temporary_sibling_path (lit_bytes "/d/f") (next_env demo_env)).2 = Ok t2
    ∧ normalize_path t1 = Ok ([lit_bytes "d"] ++ [n1]) ∧ normalize_path t2 = Ok ([lit_bytes "d"] ++ [n2])
    ∧ clean n1 ∧ n1 ≠ n2.
Proof.
  apply (temporary_sibling_is_fresh (lit_bytes "/d/f") [lit_bytes "d"] (lit_bytes "f") demo_env (next_env demo_env));
    [apply demo_env_ok|apply next_env_ok, demo_env_ok|done|done|by vm_compute].
Defined.

(** ** Targets and limits *)

(** [RemoteTarget::parse] accepts exactly the strings of the target grammar
    ([host:/export] or [[host]:/export]) whose host is not blank and whose
    export is absolute, and returns their parts. *)
Theorem parse_target_accepts target t :
  RemoteTarget_parse target = Ok t ↔ target_syntax target t ∧ valid_target t.
Proof.
  rewrite RemoteTarget_parse_cut, <- cut_target_spec, <- valid_targetb_spec.
  destruct (cut_target target) as [t'|]; [|naive_solver].
  destruct (valid_targetb t') eqn:Hv; split; try naive_solver; intros [[= <-] Hv']; congruence.
Qed.

(** The transfer size negotiated with a server lies between 1 and the
    configured limit, respects the server's maximum, and is the server's
    preference where that is possible. *)
Theorem transfer_size_negotiated preferred max limit :
  is_u32 preferred → is_u32 max → 1 ≤ limit →
  ∃ size, clamp_io_size preferred max limit = Ok size ∧ 1 ≤ size ≤ limit
    ∧ (max ≠ 0 → size ≤ max) ∧ (1 ≤ preferred ≤ limit → max = 0 ∨ preferred ≤ max → size = preferred).
Proof. apply clamp_io_size_spec. Qed.

Lemma transfer_size_negotiated_witness :
  clamp_io_size 65536 32768 131072 = Ok 32768
  ∧ ∃ size, clamp_io_size 65536 0 131072 = Ok size ∧ 1 ≤ size ≤ 131072
      ∧ (0 ≠ 0 → size ≤ 0) ∧ (1 ≤ 65536 ≤ 131072 → 0 = 0 ∨ 65536 ≤ 0 → size = 65536).
Proof.
  split; [by vm_compute|]. apply (transfer_size_negotiated 65536 0 131072); [by split|by split|lia].
Defined.
