(* ===== verification/PropsV4.v ===== *)
(** * Properties of the NFSv4 client

    Attributes and COMPOUND responses on the wire (src/src/v4/proto.rs), the
    checks on responses (src/src/v4/client.rs), sessions with their recovery
    (src/src/v4/blocking.rs), and the lease thread (src/src/v4/lease.rs). *)

From Stdlib Require Import Strings.String Strings.Byte.
From Stdlib Require Import Sorting.Sorted.
From S2P Require Import Prelude Text Xdr XdrSpec Status Errors Rpc RpcSpec V3Wire V3Client V3BlockingSpec Tame.
From S2P Require Import V4Attr V4AttrSpec V4Ops V4Results V4ResultsSpec V4Client V4ClientSpec V4Extract.
From S2P Require Import V3Connect V3ConnectNet V4Session V4SessionSpec V4Trace V4Net V4Lease V4Script.
Import LockRegistry (LockRegistry).
Import Operation (Operation).
Import OperationResult (OperationResult).
Import CompoundResponse (CompoundResponse).
Import ClientBuilder (ClientBuilder).
Import Client (Client).

#[local] Open Scope Z_scope.

(** ** Attributes and responses on the wire *)

(** The attribute bitmap.  [Bitmap::from_attrs] accepts a list exactly when
    every attribute is in range; the bitmap it builds contains exactly the
    attributes of the list, and [attrs] lists them in ascending order, each
    once. *)
Theorem bitmap_holds_its_attributes attrs :
  Forall (λ a, 0 ≤ a) attrs →
  (Forall attr_in_range attrs ∧
     ∃ b, Bitmap.from_attrs attrs = Ok b
       ∧ (∀ a, 0 ≤ a → Bitmap.contains b a = bool_decide (a ∈ attrs))
       ∧ (∀ a, a ∈ Bitmap.attrs b ↔ a ∈ attrs)
       ∧ StronglySorted Z.lt (Bitmap.attrs b))
  ∨ (¬ Forall attr_in_range attrs ∧ ∃ e, Bitmap.from_attrs attrs = Err e).
Proof.
  intros Ha. pose proof (from_attrs_spec attrs Ha) as Hs. case_decide as Hr; [left|by right].
  destruct Hs as (b & Hb & Hc). split; [done|]. exists b.
  split_and!; [done..|by apply attrs_of_built|apply attrs_ascending].
Qed.

Lemma bitmap_holds_its_attributes_witness :
  (b ← Bitmap.from_attrs [33; 1; 4; 1]; Ok (Bitmap.attrs b)) = Ok [1; 4; 33]
  ∧ ∃ b, Bitmap.from_attrs [33; 1; 4; 1] = Ok b ∧ StronglySorted Z.lt (Bitmap.attrs b).
Proof.
  split; [by vm_compute|].
  destruct (bitmap_holds_its_attributes [33; 1; 4; 1] ltac:(repeat constructor; lia)) as [[_ (b & Hb & _ & _ & Hs)]|[Hn _]].
  - by exists b.
  - destruct Hn. repeat constructor; by vm_compute.
Defined.

(** The attributes a server would report after setting [a]. *)
Definition attributes_set (a : SetAttrs.SetAttrs) (raw : Fattr.Fattr) : BasicAttributes.BasicAttributes :=
  BasicAttributes.mkBasicAttributes None None (SetAttrs.size a) None (SetAttrs.mode a) None
    (SetAttrs.owner a) (SetAttrs.owner_group a) None None None None raw.

(** Setting and reading attributes agree.  The attributes a client sends
    with SETATTR, sent back by a server, are parsed to the values that were
    set: no attribute is lost, added or taken for another one. *)
Theorem set_attributes_round_trip a :
  set_attrs_ok a → SetAttrs.access_time a = SetTime.DontChange → SetAttrs.modify_time a = SetTime.DontChange →
  option_ok is_u64 (SetAttrs.size a) → option_ok is_u32 (SetAttrs.mode a) →
  option_ok (string_ok NFS4_OPAQUE_LIMIT) (SetAttrs.owner a) →
  option_ok (string_ok NFS4_OPAQUE_LIMIT) (SetAttrs.owner_group a) →
  zlen (payload_bytes (set_fields a)) ≤ isize_max →
  ∃ raw, Fattr.from_set_attrs a = Ok raw ∧ parse_basic raw = Ok (attributes_set a raw).
Proof.
  intros Ha Hat Hmt Hs Hm Ho Hg Hl. destruct (from_set_attrs_spec a Ha) as (mask & Hf & Hmask).
  exists (Fattr.mkFattr mask (payload_bytes (set_fields a))). split; [done|].
  assert (∀ raw, payload_ids (basic_fields (attributes_set a raw)) = payload_ids (set_fields a)
    ∧ payload_bytes (basic_fields (attributes_set a raw)) = payload_bytes (set_fields a)) as Hi.
  { intros raw. unfold basic_fields, set_fields, attributes_set, payload_ids, payload_bytes. rewrite Hat, Hmt.
    by destruct (SetAttrs.size a), (SetAttrs.mode a), (SetAttrs.owner a), (SetAttrs.owner_group a). }
  change (Fattr.mkFattr mask (payload_bytes (set_fields a))) with
    (BasicAttributes.raw (attributes_set a (Fattr.mkFattr mask (payload_bytes (set_fields a))))) at 1.
  apply (parse_basic_spec _ mask); [by split|..]; rewrite ?(proj1 (Hi _)), ?(proj2 (Hi _)); done.
Qed.

Lemma set_attributes_round_trip_witness :
  let a := SetAttrs.mkSetAttrs (Some 10) (Some 420) (Some (lit_bytes "bob")) None SetTime.DontChange SetTime.DontChange in
  ∃ raw, Fattr.from_set_attrs a = Ok raw ∧ parse_basic raw = Ok (attributes_set a raw).
Proof. apply set_attributes_round_trip; [split|..]; by vm_compute. Defined.

(** Decoding a COMPOUND response.  The bytes a server sends for a status, a
    tag and results (RFC 8881) decode to exactly these, whatever the results
    are; with anything behind them the response is refused. *)
Theorem compound_response_decodes st tag rs bodies extra :
  status_ok st → string_ok NFS4_OPAQUE_LIMIT tag → Forall2 result_sent rs bodies → zlen rs ≤ NFS4_MAX_OPS →
  zlen (wire_response st tag bodies ++ extra) ≤ isize_max →
  decode_compound tag (wire_response st tag bodies) = Ok (CompoundResponse.mkCompoundResponse st tag rs)
  ∧ (extra ≠ [] → ∃ message, decode_compound tag (wire_response st tag bodies ++ extra) = Err (Protocol message)).
Proof.
  intros Hst Htag Hrs Hn Hl.
  pose proof (reads_response st tag rs bodies Hst Htag (all_sent_read _ _ Hrs) Hn) as H. split.
  - apply decode_compound_reads; [|done]. rewrite zlen_app in Hl. pose proof (zlen_nonneg extra). lia.
  - intros Hne. eexists. by apply decode_compound_trailing with (r := CompoundResponse.mkCompoundResponse st tag rs).
Qed.

Lemma compound_response_decodes_witness :
  let rs := [OperationResult.StatusOnly OpCode.PutRootFh Status.Ok; failed OpCode.GetFh Status.Stale] in
  let bodies := [wire_u32 24 ++ wire_u32 0; wire_u32 10 ++ wire_u32 70] in
  decode_compound (lit_bytes "t") (wire_response Status.Stale (lit_bytes "t") bodies)
  = Ok (CompoundResponse.mkCompoundResponse Status.Stale (lit_bytes "t") rs).
Proof.
  intros rs bodies. apply (compound_response_decodes Status.Stale (lit_bytes "t") rs bodies []); [done|done| |done|done].
  repeat constructor; exists []; (split; [constructor; done|done]).
Defined.

(** C32: a failed SETATTR.  RFC 8881 has the server send the bitmap of the
    attributes it set behind every SETATTR status; the client reads it only
    behind success.  A response that ends with a failed SETATTR is therefore
    refused as malformed, and its status is not reported. *)
Theorem failed_setattr_is_refused st tag rs bodies attrsset :
  st ≠ Status.Ok → status_ok st → string_ok NFS4_OPAQUE_LIMIT tag →
  Forall2 result_sent rs bodies → zlen rs < NFS4_MAX_OPS →
  zlen (wire_response st tag (bodies ++ [setattr_failure st attrsset])) ≤ isize_max →
  ∃ message, decode_compound tag (wire_response st tag (bodies ++ [setattr_failure st attrsset]))
             = Err (Protocol message).
Proof.
  intros Hst Hs Htag Hrs Hn Hl. rewrite setattr_failure_trails in *. eexists.
  apply decode_compound_trailing with
    (r := CompoundResponse.mkCompoundResponse st tag (rs ++ [OperationResult.StatusOnly OpCode.SetAttr st]));
    [done| |apply reads_response; [done|done| |]].
  - unfold wire_Bitmap, wire_array, wire_u32. by destruct (be_bytes 4 _) eqn:E.
  - apply Forall2_app; [by apply all_sent_read|].
    constructor; [by apply reads_setattr_failure|constructor].
  - rewrite zlen_app, zlen_cons, zlen_nil. lia.
Qed.

Lemma failed_setattr_is_refused_witness :
  ∃ message, decode_compound (lit_bytes "t")
    (wire_response Status.Access (lit_bytes "t")
       ([wire_u32 24 ++ wire_u32 0] ++ [setattr_failure Status.Access (Bitmap.mkBitmap [])])) = Err (Protocol message).
Proof.
  apply (failed_setattr_is_refused Status.Access (lit_bytes "t") [OperationResult.StatusOnly OpCode.PutRootFh Status.Ok]);
    [done|done|done| |done|by vm_compute].
  repeat constructor. exists []. split; [by constructor|done].
Defined.

(** ** Responses *)

(** C31: the check on responses is exact.  [validate_compound_response_shape]
    accepts a response exactly when it answers the request: it has the tag of
    the request; its results answer the first operations in order; success
    means that every operation has a successful result; a failure is the
    status of the last result, behind successful ones.  It never panics. *)
Theorem response_check_is_exact tag expected response :
  (validate_compound_response_shape tag expected response = Ok tt ↔ well_shaped tag expected response)
  ∧ ∀ f, validate_compound_response_shape tag expected response ≠ Fault f.
Proof. exact (validate_shape_spec tag expected response). Qed.

(** ** Sessions *)

(** C8: at most once.  However the network and the server behave, a call of
    [compound_status] sends its operations, and no others, behind a SEQUENCE;
    and of all the COMPOUNDs it sends, with delayed retries and the replay
    behind a session recovery, at most one can have executed an operation
    that changes state. *)
Theorem changes_executed_at_most_once {W R} `{!Nfs4Rpc W R, !Nfs4Net W R, !Nfs4Laws W R}
    operations (w : World (W * list entry) R) :
  world_inv w →
  ∃ L, (env_net (env (compound_status operations w).1)).2 = (env_net (env w)).2 ++ L
    ∧ carries operations L
    ∧ ∀ k op, operations !! k = Some op → changes_state op = true → (executions k L ≤ 1)%nat.
Proof.
  intros Hw. pose proof (post_at_most_once operations w Hw) as Hp. unfold post in Hp.
  assert (executed_upto operations 1 (env_net (env w)).2 (env_net (env (compound_status operations w).1)))
    as (L & E & Hc & Hb).
  { destruct (compound_status operations w) as [w' [r|e|f]]; done. }
  exists L. split_and!; [done..|]. intros k op Hop Hch. apply (Hb k op Hop).
  destruct (operation_can_replay_after_successful_prefix op) eqn:E'; [|done].
  apply repeat_changes_nothing in E'. congruence.
Qed.

(** A removal the server first delays. *)
Definition delayed_removal : Script :=
  [inr (Status.Delay, [sample_sequence; OperationResult.StatusOnly OpCode.PutRootFh Status.Ok;
                       OperationResult.StatusOnly OpCode.Remove Status.Delay]);
   inr (Status.Ok, [sample_sequence; OperationResult.StatusOnly OpCode.PutRootFh Status.Ok;
                    OperationResult.StatusOnly OpCode.Remove Status.Ok])].

Lemma changes_executed_at_most_once_witness :
  let w := mkWorld (mkEnv (delayed_removal, []) [] []) (sample_client false) in
  let ops := [Operation.PutRootFh; Operation.Remove (lit_bytes "a")] in
  let L := (env_net (env (compound_status ops w).1)).2 in
  length L = 2%nat ∧ executions 0 L = 2%nat ∧ executions 1 L = 1%nat
  ∧ ∃ L', L = [] ++ L' ∧ carries ops L'
    ∧ ∀ k op, ops !! k = Some op → changes_state op = true → (executions k L' ≤ 1)%nat.
Proof.
  intros w ops L. split_and!; [by vm_compute..|].
  exact (changes_executed_at_most_once ops w (sample_logged_inv false delayed_removal)).
Defined.

(** C11: calls end.  However the network and the server behave,
    [compound_status] returns: its retries are bounded and no code on the way
    panics.  It leaves a well-formed client with the settings and the locks it
    had; a response it returns answers the request. *)
Theorem session_calls_end {W R} `{!Nfs4Rpc W R, !Nfs4Net W R, !Nfs4Laws W R}
    operations (w : World W R) :
  world_inv w →
  let '(w', o) := compound_status operations w in
  world_inv w' ∧ world_keep w w'
  ∧ match o with
    | Ok response => well_shaped main_tag (OpCode.Sequence :: (Operation.op_code <$> operations)) response
    | Err _ => True
    | Fault _ => False
    end.
Proof.
  intros Hw. pose proof (tames_compound_status (λ _ _, True) (Moves0 := moves_anywhere)
    ltac:(done) operations w Hw) as Hp. unfold post in Hp.
  destruct (compound_status operations w) as [w' [r|e|f]]; [| |done].
  - destruct Hp as ([Hs _] & Hw' & ((_ & ?) & ? & ?)). by split_and!.
  - destruct Hp as (Hw' & ((_ & ?) & ? & ?)). by split_and!.
Qed.

Lemma session_calls_end_witness :
  let w := mkWorld (mkEnv delayed_removal [] []) (sample_client false) in
  let ops := [Operation.PutRootFh; Operation.Remove (lit_bytes "a")] in
  let '(w', o) := compound_status ops w in
  world_inv w' ∧ world_keep w w'
  ∧ match o with
    | Ok response => well_shaped main_tag (OpCode.Sequence :: (Operation.op_code <$> ops)) response
    | Err _ => True
    | Fault _ => False
    end.
Proof. intros w ops. exact (session_calls_end ops w (sample_world_inv false delayed_removal)). Defined.

(** C30: what connecting returns.  A client that [connect_with_builder] returns
    is well-formed: its sizes are positive and within the protocol's limits,
    its session has room for a COMPOUND with data, it speaks a minor version
    with sessions, and its settings are the builder's.  Connecting never
    panics and always returns. *)
Theorem connected_client_well_formed {W R} `{!Nfs4Rpc W R, !Nfs4Net W R, !Nfs4Laws W R} b (e : Env W) :
  builder_typed b →
  match (connect_with_builder b e).2 with
  | Ok c => client_inv c ∧ Client.builder c = b
  | Err _ => True
  | Fault _ => False
  end.
Proof.
  intros Hb. pose proof (tames_connect_with_builder (λ _ _, True) (Moves0 := moves_anywhere)
    ltac:(done) b Hb e I) as Hp. unfold post in Hp.
  destruct (connect_with_builder b e) as [e' [c|err|f]]; [|done|done]. by destruct Hp as ([? ?] & _).
Qed.

(** A server that sets up a session and answers the first questions. *)
Definition sample_channel (max_operations : Z) : ChannelAttrs.ChannelAttrs :=
  ChannelAttrs.mkChannelAttrs 0 65536 65536 4096 max_operations 1 [].
Definition session_setup (max_operations : Z) : Script :=
  [inr (Status.Ok, [OperationResult.ExchangeId Status.Ok (Some (ExchangeIdResult.mkExchangeIdResult 7 1 0))]);
   inr (Status.Ok, [OperationResult.CreateSession Status.Ok
     (Some (CreateSessionResult.mkCreateSessionResult sample_session_id 1 0
              (sample_channel max_operations) (sample_channel max_operations)))])].
Definition reclaim_done : Script :=
  [inr (Status.Ok, [sample_sequence; OperationResult.StatusOnly OpCode.ReclaimComplete Status.Ok])].
Definition no_attributes : Script :=
  [inr (Status.Ok, [sample_sequence; OperationResult.StatusOnly OpCode.PutRootFh Status.Ok;
                    OperationResult.GetAttr Status.Ok
                      (Some (Fattr.mkFattr (Bitmap.mkBitmap [1]) (wire_Bitmap (Bitmap.mkBitmap []))))])].
Definition sample_server : Script := session_setup 8 ++ reclaim_done ++ no_attributes.

Lemma connected_client_well_formed_witness :
  ∃ e c, connect_with_builder sample_builder (mkEnv sample_server [] []) = (e, Ok c) ∧ client_inv c.
Proof.
  pose proof (connected_client_well_formed sample_builder (mkEnv sample_server [] []) sample_builder_typed) as H.
  assert (match (connect_with_builder sample_builder (mkEnv sample_server [] [])).2 with Ok _ => True | _ => False end)
    as Hok by (by vm_compute).
  destruct (connect_with_builder sample_builder (mkEnv sample_server [] [])) as [e [c|err|f]]; [|done|done].
  exists e, c. by destruct H.
Defined.

(** C9: no session is left behind.  When [connect_session] fails, every session
    it learned of has been asked to be destroyed, whichever step failed and
    whichever minor versions were tried; when it succeeds, the one session
    left is the client's. *)
Theorem failed_setup_leaves_no_session {W R} `{!Nfs4Rpc W R, !Nfs4Net W R, !Nfs4Laws W R}
    b complete_reclaim (e : Env (W * list entry)) :
  builder_typed b →
  let '(e', o) := connect_session (R := R) b complete_reclaim e in
  ∃ L, (env_net e').2 = (env_net e).2 ++ L
    ∧ match o with
      | Ok c => open_sessions [] L = [Client.session_id c]
      | Err _ => open_sessions [] L = []
      | Fault _ => False
      end.
Proof.
  intros Hb. pose proof (post_no_session_left (R := R) b complete_reclaim e Hb) as Hp. unfold post in Hp.
  by destruct (connect_session b complete_reclaim e) as [e' [c|err|f]].
Qed.

(** A session without room for an operation is given up. *)
Lemma failed_setup_leaves_no_session_witness :
  let e := mkEnv (session_setup 0, []) [] [] in
  let '(e', o) := connect_session (R := unit) sample_builder true e in
  length (env_net e').2 = 3%nat
  ∧ ∃ L, (env_net e').2 = [] ++ L
    ∧ match o with
      | Ok c => open_sessions [] L = [Client.session_id c]
      | Err _ => open_sessions [] L = []
      | Fault _ => False
      end.
Proof.
  intros e. pose proof (failed_setup_leaves_no_session (R := unit) sample_builder true e sample_builder_typed) as H.
  assert (length (env_net (connect_session (R := unit) sample_builder true e).1).2 = 3%nat) as Hl by (by vm_compute).
  by destruct (connect_session (R := unit) sample_builder true e) as [e' o].
Defined.

(** C12: nothing is replayed by accident.  While recovery is pending, a call
    whose operations cannot be replayed returns an error, and none of its
    operations is sent: only the COMPOUNDs of the recovery are. *)
Theorem pending_recovery_sends_nothing {W R} `{!Nfs4Rpc W R, !Nfs4Net W R, !Nfs4Laws W R}
    operations (w : World (W * list entry) R) :
  world_inv w → Client.recovery_pending (client w) = true →
  operations_can_replay_after_session_recovery operations = false →
  ∃ w' err L, compound_status operations w = (w', Err err)
    ∧ (env_net (env w')).2 = (env_net (env w)).2 ++ L ∧ Forall (λ e, entry_tag e ≠ main_tag) L
    ∧ world_inv w' ∧ Client.locks (client w') = Client.locks (client w).
Proof.
  intros Hw Hp Hr. pose proof (post_pending_not_replayed grows_quietly operations w Hw Hp Hr) as H.
  unfold post in H. destruct (compound_status operations w) as [w' [r|err|f]]; [done| |done].
  destruct H as (Hw' & (((L & E & HL) & _) & Hk & _)). by exists w', err, L.
Qed.

Lemma pending_recovery_sends_nothing_witness :
  let w := mkWorld (mkEnv (sample_server, []) [] []) (sample_client true) in
  let ops := [Operation.PutRootFh; Operation.Remove (lit_bytes "a")] in
  ∃ w' err L, compound_status ops w = (w', Err err)
    ∧ (env_net (env w')).2 = [] ++ L ∧ Forall (λ e, entry_tag e ≠ main_tag) L
    ∧ world_inv w' ∧ Client.locks (client w') = Client.locks (client w).
Proof.
  intros w ops. by apply (pending_recovery_sends_nothing ops w (sample_logged_inv true sample_server)).
Defined.

(** C13: recovery is all or nothing.  [recover_session] returns; success means
    that the client has a working session again and that none of its locks is
    lost; after a failure the client still knows that recovery is pending, or
    it has recovered and the failure says that a lock is lost.  Either way
    its locks and settings are those it had. *)
Theorem recovery_reports_what_it_left {W R} `{!Nfs4Rpc W R, !Nfs4Net W R, !Nfs4Laws W R} (w : World W R) :
  world_inv w →
  let '(w', o) := recover_session w in
  world_inv w' ∧ world_keep w w'
  ∧ match o with
    | Ok _ => Client.recovery_pending (client w') = false ∧ locks_valid w'
    | Err err => Client.recovery_pending (client w') = true
        ∨ Client.recovery_pending (client w') = false ∧ ∃ status, err = LockLost status
    | Fault _ => False
    end.
Proof.
  intros Hw. pose proof (post_recover_session (λ _ _, True) (Moves0 := moves_anywhere) w Hw) as Hp.
  unfold post in Hp. destruct (recover_session w) as [w' [[]|err|f]]; [| |done].
  - destruct Hp as [(Hw' & ((_ & ?) & ? & ?) & Hf) Hv]. by split_and!.
  - destruct Hp as [(Hw' & ((_ & ?) & ? & ?) & Hf)|[(Hw' & ((_ & ?) & ? & ?) & Hf) Hl]]; split_and!; try done;
      [by left|by right].
Qed.

Lemma recovery_reports_what_it_left_witness :
  let w := mkWorld (mkEnv [] [] []) (sample_client false) in
  let '(w', o) := recover_session w in
  world_inv w' ∧ world_keep w w'
  ∧ match o with
    | Ok _ => Client.recovery_pending (client w') = false ∧ locks_valid w'
    | Err err => Client.recovery_pending (client w') = true
        ∨ Client.recovery_pending (client w') = false ∧ ∃ status, err = LockLost status
    | Fault _ => False
    end.
Proof. intros w. exact (recovery_reports_what_it_left w (sample_world_inv false [])). Defined.

(** C10: the whole stack.  Over RPC connections on any network whose operations
    return and any transport, whatever bytes the peer sends, connecting ends
    without a panic and yields a well-formed client, and so does every
    [compound_status] of a well-formed client; a response it returns answers
    the request. *)
Theorem sessions_over_rpc {Wn Addr St} `{!Network Wn Addr St, !NetworkTotal Wn Addr St, !Transport St,
    !LeaseThreads Wn (RpcClient St), !LeaseThreadsTotal Wn (RpcClient St)}
    b (e : Env Wn) operations (w : World Wn (RpcClient St)) :
  builder_typed b → world_inv w →
  post (connect_with_builder b) e (λ c _, client_inv (W := Wn) c ∧ Client.builder c = b) (λ _ _, True)
  ∧ post (compound_status operations) w
      (λ response w', world_inv w'
         ∧ well_shaped main_tag (OpCode.Sequence :: (Operation.op_code <$> operations)) response)
      (λ _ w', world_inv w').
Proof.
  intros Hb Hw. split.
  - eapply post_mono; [apply (tames_connect_with_builder (λ _ _ : Wn, True) (Moves0 := moves_anywhere) ltac:(done) b Hb e I)| |];
      naive_solver.
  - eapply post_mono; [apply (tames_compound_status (λ _ _ : Wn, True) (Moves0 := moves_anywhere) ltac:(done) operations w Hw)| |];
      unfold answers; naive_solver.
Qed.

(** Against a peer that sends 64 zero bytes. *)
Lemma sessions_over_rpc_witness :
  let e := mkEnv (replicate 64 x00) [] [] in
  let c := sample_client_over (mkRpcClient (mkCanned (replicate 64 x00)) 1 Auth_None 4096 false) in
  fault_free (connect_with_builder sample_builder e).2
  ∧ fault_free (compound_status [Operation.PutRootFh] (mkWorld e c)).2.
Proof.
  intros e c. assert (world_inv (mkWorld e c)) as Hw.
  { split; [split; try done; apply sample_builder_inv|constructor]. }
  destruct (sessions_over_rpc sample_builder e [Operation.PutRootFh] (mkWorld e c) sample_builder_typed Hw) as [H1 H2].
  split; [exact (post_fault_free _ _ _ _ H1)|exact (post_fault_free _ _ _ _ H2)].
Defined.

(** The sequence number of the next SEQUENCE is never 0: behind 0xffffffff
    comes 1, where RFC 8881 (2.10.6.1) has the numbers wrap to 0. *)
Lemma sequence_number_skips_zero : next_id 0xffffffff = 1 ∧ ∀ id, next_id id ≠ 0.
Proof. split; [by vm_compute|]. intros id. unfold next_id. lia. Qed.

(** ** The lease thread *)



(** A failed renewal is not forgotten: when [renew] returned false, the
    lease reports a failure after the thread's next step, and from then on for
    good, whatever else happens. *)
Theorem lease_failure_reported s es s' es' s'' :
  Lease.worker s = Lease.Failing → Lease.run s es s' → Lease.Fail ∈ es → Lease.run s' es' s'' →
  Lease.failed s'' = true.
Proof.
  intros Hw Hr Hin Hr'. eapply Lease.failed_kept; [exact Hr'|]. by eapply Lease.failure_reported.
Qed.

Lemma lease_failure_reported_witness :
  Lease.failed (Lease.mkLease true true Lease.Finished Lease.Dropped) = true.
Proof.
  apply (lease_failure_reported (Lease.mkLease false false Lease.Failing Lease.Holding) [Lease.Fail]
    (Lease.mkLease true false Lease.Leaving Lease.Holding) [Lease.Drop; Lease.Exit]); [done| | |];
    [by apply Lease.play_run|by left|by apply Lease.play_run].
Defined.
