(* ===== verification/PropsV4Files.v ===== *)
(** * Properties of the NFSv4 file operations (src/src/v4/blocking.rs)

    Against servers that follow the rules of [V4Store], what reading, writing
    and atomic replacement do to the files; against every server and network,
    that the operations end, that listings respect their limit and that locks
    are tracked; and a run in which an atomic copy leaves its temporary file. *)

From Stdlib Require Import Strings.String Strings.Byte.
From stdpp Require Import gmap.
From S2P Require Import Prelude Text Xdr Status Errors Rpc V3Client V3Blocking V3ClientSpec V3BlockingSpec V3Store Tame.
From S2P Require Import V4Attr V4AttrSpec V4Ops V4Results V4Client V4ClientSpec V4Extract V4Paths.
From S2P Require Import V4Session V4SessionSpec V4Trace V4Script V4Files V4FilesSpec V4Named V4NamedSpec V4Protocol V4ProtocolSpec V4Store V4Atomic V4Mem.
Import FileHandle (FileHandle).
Import StateId (StateId).
Import Operation (Operation).
Import OperationResult (OperationResult).
Import CompoundResponse (CompoundResponse).
Import Client (Client).

#[local] Open Scope Z_scope.

(** ** A server with a file *)

Definition sample_root : FileHandle := FileHandle.mkFileHandle [x01].
Definition sample_file : FileHandle := FileHandle.mkFileHandle [x02].
Definition sample_contents : list byte := lit_bytes "hello, world".
Definition sample_store : Store :=
  mkStore sample_root {[ (sample_root, lit_bytes "a") := sample_file ]} {[ sample_file := sample_contents ]} []
    (replicate 8 x07).
Definition sample_mem : World Mem unit :=
  mkWorld (mkEnv (mkMem sample_store sample_session_id 1) [] []) (sample_client false).

Lemma sample_mem_steady : steady sample_mem.
Proof.
  split; [|done|done|constructor|done]. split; [|constructor]. split; try done; apply sample_builder_inv.
Qed.
Lemma sample_mem_located name : name ∈ [lit_bytes "a"; lit_bytes "b"] → located sample_mem (slash :: name) sample_root name.
Proof. intros H. exists []. repeat (apply elem_of_cons in H as [->|H]; [by vm_compute|]). by apply elem_of_nil in H. Qed.

(** C3: reading a file.  Against a server that follows the rules of COMPOUND,
    [Client::read] on a path returns exactly the contents of the file the path
    names, in whatever pieces the server serves them; it ends without an error,
    and the server's files, names and open states are what they were: the file
    is closed again. *)
Theorem files4_read_returns_contents {W R} `{!Nfs4Rpc W R, !Nfs4Net W R, !Nfs4Laws W R, !Nfs4Server W R}
    (w : World W R) path dir name fh c :
  steady w → located w path dir name → names (stored w) !! (dir, name) = Some fh →
  files (stored w) !! fh = Some c → not_open fh (stored w) → zlen c ≤ u64_max →
  ∃ w', Files.read path w = (w', Ok c) ∧ steady w' ∧ settings w' = settings w ∧ stored w' = stored w.
Proof.
  intros Hw Hl Hn Hf Ho Hlen. pose proof (post_read4 w path dir name fh c Hw Hl Hn Hf Ho Hlen) as Hp. unfold post in Hp.
  destruct (Files.read path w) as [w' [out|e|f]]; [|done|done]. destruct Hp as [-> Hm]. by exists w'.
Qed.

Lemma files4_read_returns_contents_witness :
  ∃ w', Files.read (lit_bytes "/a") sample_mem = (w', Ok sample_contents)
    ∧ steady w' ∧ settings w' = settings sample_mem ∧ stored w' = sample_store.
Proof.
  refine (files4_read_returns_contents sample_mem (lit_bytes "/a") sample_root (lit_bytes "a") sample_file
    sample_contents sample_mem_steady (sample_mem_located _ _) _ _ _ _); [by left|by vm_compute..|constructor|by vm_compute].
Defined.

(** C4: writing and reading back.  Against a server that follows the rules of
    COMPOUND, [Client::write] on a path whose directory exists, whether or not
    the file does, followed by [Client::read], returns the data; the data may go
    out in many parts, each taken only partly and committed.  The file is the
    one the path named before, or a new one; no other file, no other name and no
    open state has changed. *)
Theorem files4_write_then_read {W R} `{!Nfs4Rpc W R, !Nfs4Net W R, !Nfs4Laws W R, !Nfs4Server W R}
    (w : World W R) path data dir name :
  steady w → located w path dir name → writable w dir name → zlen data ≤ u64_max →
  ∃ w' fh, (Files.write path data ;; Files.read path) w = (w', Ok data)
    ∧ match names (stored w) !! (dir, name) with Some old => fh = old | None => files (stored w) !! fh = None end
    ∧ stored w' = mkStore (root (stored w)) (<[(dir, name) := fh]> (names (stored w)))
                    (<[fh := data]> (files (stored w))) (opens (stored w)) (boot (stored w))
    ∧ steady w' ∧ settings w' = settings w.
Proof.
  intros Hw Hl Hwr Hlen. pose proof (post_write_then_read w path data dir name Hw Hl Hwr Hlen) as Hp. unfold post in Hp.
  destruct ((Files.write path data ;; Files.read path) w) as [w' [out|e|f]]; [|done|done].
  destruct Hp as (-> & fh & Hh & (Hs & Hset & Hst)). by exists w', fh.
Qed.

Lemma files4_write_then_read_witness :
  ∃ w' fh, (Files.write (lit_bytes "/b") (lit_bytes "some text") ;; Files.read (lit_bytes "/b")) sample_mem
           = (w', Ok (lit_bytes "some text"))
    ∧ files sample_store !! fh = None
    ∧ stored w' = mkStore sample_root (<[(sample_root, lit_bytes "b") := fh]> (names sample_store))
                    (<[fh := lit_bytes "some text"]> (files sample_store)) [] (replicate 8 x07)
    ∧ steady w' ∧ settings w' = settings sample_mem.
Proof.
  refine (files4_write_then_read sample_mem (lit_bytes "/b") (lit_bytes "some text") sample_root (lit_bytes "b")
    sample_mem_steady (sample_mem_located _ _) _ _); [right; by left|constructor|by vm_compute].
Defined.

(** C7: atomic replacement.  Against a server that follows the rules of
    COMPOUND, [Client::write_atomic] ends without an error with the target's
    name leading to a new file that holds exactly the data.  The temporary name
    is gone, every open state is as before, and all files that existed, the old
    target included, still have their contents: whoever has the old file open
    keeps reading the old contents. *)
Theorem files4_atomic_write_replaces {W R} `{!Nfs4Rpc W R, !Nfs4Net W R, !Nfs4Laws W R, !Nfs4Server W R}
    (w : World W R) env path data dir name parent :
  steady w → located w path dir name → split_parent path = Ok (parent, name) →
  2 * zlen parent + 4 < Client.max_operations (client w) →
  env_ok env → name ≠ temp_name env → names (stored w) !! (dir, temp_name env) = None →
  (∀ fh, names (stored w) !! (dir, name) = Some fh → is_Some (files (stored w) !! fh)) →
  Forall (λ o, is_Some (files (stored w) !! opened_file o)) (opens (stored w)) → zlen data ≤ u64_max →
  ∃ w' env' fh, Files.write_atomic path data (w, env) = ((w', env'), Ok tt)
    ∧ files (stored w) !! fh = None
    ∧ stored w' = mkStore (root (stored w)) (<[(dir, name) := fh]> (names (stored w)))
                    (<[fh := data]> (files (stored w))) (opens (stored w)) (boot (stored w))
    ∧ steady w' ∧ settings w' = settings w.
Proof.
  intros Hw Hl Hsplit Hroom Henv Hne Hfree Hex Hopens Hlen.
  assert (∀ p, split_parent path = Ok (p, name) → 2 * zlen p + 4 < Client.max_operations (client w)) as Hroom'
    by (intros p Hp; rewrite Hsplit in Hp; by injection Hp as <-).
  pose proof (post_write_atomic4 w env path data dir name Hw Hl Henv Hne Hfree Hopens Hroom' Hlen Hex) as Hp. unfold post in Hp.
  destruct (Files.write_atomic path data (w, env)) as [[w' env'] [[]|e|f]]; [|done|done].
  destruct Hp as (fh & Hnew & (Hs & Hset & Hst)). by exists w', env', fh.
Qed.

Definition sample_env : TempEnv := mkTempEnv 7 (λ _, 1000) 0.

Lemma files4_atomic_write_replaces_witness :
  ∃ w' env' fh, Files.write_atomic (lit_bytes "/a") (lit_bytes "new") (sample_mem, sample_env) = ((w', env'), Ok tt)
    ∧ files sample_store !! fh = None
    ∧ stored w' = mkStore sample_root (<[(sample_root, lit_bytes "a") := fh]> (names sample_store))
                    (<[fh := lit_bytes "new"]> (files sample_store)) [] (replicate 8 x07)
    ∧ steady w' ∧ settings w' = settings sample_mem.
Proof.
  refine (files4_atomic_write_replaces sample_mem sample_env (lit_bytes "/a") (lit_bytes "new") sample_root (lit_bytes "a") []
    sample_mem_steady (sample_mem_located _ _) _ _ _ _ _ _ _ _); [by left|by vm_compute|by vm_compute| | | | |constructor|by vm_compute].
  - split_and!; [by vm_compute|by intros c; vm_compute|by vm_compute].
  - by vm_compute.
  - by vm_compute.
  - intros fh Hfh. exists sample_contents. vm_compute in Hfh. injection Hfh as <-. by vm_compute.
Defined.

(** ** Against every server *)

#[local] Existing Instance anywhere.
#[local] Hint Constants Opaque : typeclass_instances.

(** C21: the operations end.  Over every network whose operations return, and
    whatever the server answers, the operations on files return without a panic
    (their loops end), and leave a well-formed client with the locks and the
    settings it had: reading, with local writers; writing, truncating and
    appending, with local readers; copies and atomic replacement; creating,
    linking, renaming and removing names; attributes and directories made with
    their parents. *)
Theorem files4_operations_end {W R Rd Wr} `{!Nfs4Rpc W R, !Nfs4Net W R, !Nfs4Laws W R, !Reader Rd, !ReaderLaws Rd, !Writer Wr, !WriterLaws Wr}
    (w : World W R) (rd : Rd) (wr : Wr) (env : TempEnv) path path' data offset count mode attrs :
  world_inv w → 0 ≤ offset ≤ u64_max → 0 ≤ count ≤ u64_max →
  (returns id (Files.read path) w
   ∧ returns id (Files.read_exact_at path offset count) w
   ∧ returns fst (Files.read_to_writer path) (w, wr)
   ∧ returns fst (Files.read_range_to_writer path offset count) (w, wr))
  ∧ (returns id (Files.write_with_mode path data mode) w
     ∧ returns id (Files.write_at path offset data) w
     ∧ returns id (Files.append path data) w
     ∧ returns id (Files.truncate path offset) w
     ∧ returns fst (Files.write_from_reader_with_mode path mode) (w, rd))
  ∧ (returns id (Files.copy path path') w
     ∧ returns fst (Files.write_atomic_with_mode path data mode) (w, env)
     ∧ returns fst (Files.copy_atomic path path') (w, env))
  ∧ returns id (Files.create_new_with_mode path mode) w
  ∧ returns id (Files.mkdir path mode) w
  ∧ returns id (Files.create_dir_all path mode) w
  ∧ returns id (Files.symlink path path') w
  ∧ returns id (Files.hard_link path path') w
  ∧ returns id (Files.rename path path') w
  ∧ returns id (Files.remove path) w
  ∧ returns id (Files.setattr path attrs) w
  ∧ returns id (Files.getattr path) w.
Proof.
  intros Hw Ho [Hc _]. split_and!;
    lazymatch goal with
    | |- returns _ (Files.read_exact_at _ _ _) _ => apply returns_tame; [by apply tame_read_exact_at|done]
    | |- returns _ (Files.read_range_to_writer _ _ _) _ => apply returns_beside; [by apply tame_read_range_to_writer|done]
    | |- returns fst _ _ => apply returns_beside; [apply _|done]
    | |- returns _ _ _ => apply returns_tame; [apply _|done]
    end.
Qed.

Lemma files4_operations_end_witness :
  let w := mkWorld (mkEnv [] [] []) (sample_client false) in
  returns (W := Script) id (Files.read (lit_bytes "/a")) w
  ∧ returns (W := Script) fst (Files.copy_atomic (lit_bytes "/a") (lit_bytes "/b")) (w, sample_env).
Proof.
  intros w. destruct (files4_operations_end (Reader0 := empty_reader) (Writer0 := Vec_writer) w tt [] sample_env
    (lit_bytes "/a") (lit_bytes "/b") [] 0 0 0 SetAttrs.default (sample_world_inv false [])
    ltac:(by vm_compute) ltac:(by vm_compute)) as ((Hr & _) & _ & (_ & _ & Hc) & _).
  by split.
Defined.

(** C22: listings respect their limit.  Whatever the server sends, listing a
    directory of a client whose limit is below usize::MAX ends, and the listing
    has at most the client's limit of entries, or the smaller one asked for:
    the directory of a path, the one behind the public file handle, the parent
    of a path, and the named attributes of a file. *)
Theorem files4_listing_within_limit {W R} `{!Nfs4Rpc W R, !Nfs4Net W R, !Nfs4Laws W R} (w : World W R) path max limit :
  world_inv w → ClientBuilder.max_dir_entries (Client.builder (client w)) = limit → 0 ≤ limit < usize_max → 0 ≤ max →
  let within n (m : M (World W R) Error (list DirEntry.DirEntry)) :=
    post m w (λ entries w', zlen entries ≤ n ∧ world_inv w') (λ _ w', world_inv w') in
  (within limit (Files.read_dir path) ∧ within (Z.min max limit) (Files.read_dir_limited path max))
  ∧ (within limit (Protocol.public_read_dir path)
     ∧ within (Z.min max limit) (Protocol.public_read_dir_limited path max))
  ∧ (within limit (Protocol.parent_read_dir path)
     ∧ within (Z.min max limit) (Protocol.parent_read_dir_limited path max))
  ∧ within limit (Named.read_named_attrs path) ∧ within (Z.min max limit) (Named.read_named_attrs_limited path max).
Proof.
  intros Hw Hb Hlimit Hmax within.
  assert (∀ n m, tames (limited_inv limit) (world_move (λ _ _, True)) m (λ entries, zlen entries ≤ n) → within n m) as Hgo.
  { intros n m Hm. eapply post_mono; [apply Hm; by split|by intros l w' (? & [? _] & _)|by intros e w' ([? _] & _)]. }
  assert (∀ listing, (∀ max, 0 ≤ max < usize_max → tames world_inv (world_move (λ _ _, True)) (listing max)
      (λ entries, zlen entries ≤ max)) →
    within limit (n ← field Client.max_dir_entries; listing n) ∧ within (Z.min max limit) (Files.listing_limited listing max)) as Hall.
  { intros listing Hl. split; apply Hgo; [by apply tames_listing_all|by apply tames_listing_limited]. }
  refine (conj (Hall (Files.read_dir_with_limit path) _) (conj (Hall (Protocol.public_read_dir_with_limit path) _)
    (conj (Hall (Protocol.parent_read_dir_with_limit path) _) (Hall (Named.read_named_attrs_with_limit path) _))));
    intros n; [apply tames_read_dir|apply tames_public_read_dir|apply tames_parent_read_dir|apply tames_read_named_attrs];
    apply _.
Qed.

Lemma files4_listing_within_limit_witness :
  let w := mkWorld (mkEnv [] [] []) (sample_client false) in
  post (Files.read_dir (W := Script) (lit_bytes "/")) w (λ entries w', zlen entries ≤ 1000 ∧ world_inv w') (λ _ w', world_inv w').
Proof.
  intros w. apply (files4_listing_within_limit w (lit_bytes "/") 10 1000 (sample_world_inv false []));
    [done|by vm_compute|by vm_compute].
Defined.

(** C23: the registry of locks follows [lock] and [unlock].  Whatever the server
    answers: [Client::lock] returns; when it fails, the registry is the one it
    was; when it succeeds, the new lock is its last entry, with the state that
    was asked for and not lost.  [Client::unlock] of it returns and takes it out
    of the registry in every case, also when LOCKU fails and the server may
    still hold it, so that a later recovery does not reclaim it: the client is
    well-formed and the registry is the one from before the lock.  A second
    [unlock] of the same lock is refused, with nothing sent or changed.  What
    the server holds is not part of the statement. *)
Theorem locks_are_tracked {W R} `{!Nfs4Rpc W R, !Nfs4Net W R, !Nfs4Laws W R} (w : World W R) env path t offset length :
  world_inv w →
  match Files.lock path t offset length (w, env) with
  | ((w1, _), Ok token) =>
      (∃ owner, lock_taken w t offset length owner token w1)
      ∧ match Files.unlock token w1 with
        | (_, Fault _) => False
        | (w2, _) => world_inv w2 ∧ Client.locks (client w2) = Client.locks (client w)
                     ∧ ∃ err, Files.unlock token w2 = (w2, Err err)
        end
  | ((w1, _), Err _) => world_inv w1 ∧ Client.locks (client w1) = Client.locks (client w)
  | (_, Fault _) => False
  end.
Proof.
  intros Hw. pose proof (post_lock (λ _ _, True) path t offset length (w, env) Hw) as Hp. unfold post in Hp.
  destruct (Files.lock path t offset length (w, env)) as [[w1 env1] [token|e|f]]; [|by destruct Hp as (? & _ & ? & _)|done].
  cbn [fst] in Hp.
  split; [done|]. destruct Hp as (owner & Hw1 & _ & Hentries & Hnew & _).
  assert (LockRegistry.remove (Client.locks (client w1)) token = Client.locks (client w)) as Hback.
  { unfold LockRegistry.remove. rewrite Hentries. by apply registry_put_back. }
  pose proof (post_unlock (λ _ _, True) token w1 Hw1) as Hu. cbv zeta in Hu. rewrite Hback in Hu. unfold post in Hu.
  assert (ByteRangeLock.state token ∈ LockRegistry.entries (Client.locks (client w1))) as Hin.
  { rewrite Hentries. apply elem_of_app. right. by left. }
  specialize (Hu Hin). destruct (Files.unlock token w1) as [w2 [[]|e|f]]; [| |done];
    destruct Hu as (Hw2 & _ & Hl2); (split_and!; [done|done|apply unlock_unknown; by rewrite Hl2]).
Qed.

(** ** Concrete runs *)

Definition sample_stateid (n : Z) : StateId := StateId.mkStateId n (replicate 12 x00).
Definition other_file : FileHandle := FileHandle.mkFileHandle [x03].

(** The answer to OPEN and GETFH at the root. *)
Definition opened_answer (n : Z) (fh : FileHandle) : Error + Status.Status * list OperationResult :=
  inr (Status.Ok, sample_sequence :: ok_only OpCode.PutRootFh :: open_answer (sample_stateid n) 0 Bitmap.empty fh).
(** The answer to an operation on a handle. *)
Definition handle_answer (r : OperationResult) : Error + Status.Status * list OperationResult :=
  inr (OperationResult.status r, [sample_sequence; ok_only OpCode.PutFh; r]).

Definition lock_script : Script :=
  [opened_answer 1 sample_file;
   handle_answer (OperationResult.Lock Status.Ok (Some (sample_stateid 2)) None)].

Lemma locks_are_tracked_witness :
  let w := mkWorld (mkEnv lock_script [] []) (sample_client false) in
  match Files.lock (lit_bytes "/a") LockType.Write 0 10 (w, sample_env) with
  | ((w1, _), Ok token) =>
      ByteRangeLock.state token = 0%nat
      ∧ (∃ owner, lock_taken w LockType.Write 0 10 owner token w1)
      ∧ ∃ err, Files.unlock token (Files.unlock token w1).1 = ((Files.unlock token w1).1, Err err)
  | _ => False
  end.
Proof.
  intros w. pose proof (locks_are_tracked w sample_env (lit_bytes "/a") LockType.Write 0 10 (sample_world_inv false lock_script)) as H.
  assert (match (Files.lock (lit_bytes "/a") LockType.Write 0 10 (w, sample_env)).2 with
          | Ok token => ByteRangeLock.state token = 0%nat | _ => False end) as Hok by (by vm_compute).
  destruct (Files.lock _ _ _ _ _) as [[w1 env1] [token|e|f]]; [|done|done].
  destruct H as [Htaken Hu]. split_and!; [done|done|].
  destruct (Files.unlock token w1) as [w2 [[]|e|f]]; [apply Hu|apply Hu|done].
Defined.

Definition copy_script : Script :=
  [inr (Status.Ok, [sample_sequence; ok_only OpCode.PutRootFh; ok_only OpCode.Lookup;
                    OperationResult.GetAttr Status.Ok (Some (Fattr.mkFattr (Bitmap.mkBitmap [1]) (replicate 4 x00)))]);
   opened_answer 1 sample_file;
   opened_answer 2 other_file;
   handle_answer (OperationResult.Read Status.Ok true (lit_bytes "ab"));
   handle_answer (OperationResult.Write Status.Ok (Some (WriteResult.mkWriteResult 2 StableHow.FileSync (replicate 8 x00))));
   handle_answer (OperationResult.Close Status.Io None);
   handle_answer (OperationResult.Close Status.Ok (Some (sample_stateid 1)))].

Definition creates (name : str) (op : Operation) : bool :=
  match op with
  | Operation.Open args =>
      match OpenArgs.openhow args, OpenArgs.claim args with
      | OpenHow.Guarded _, OpenClaim.Null n => bool_decide (n = name)
      | _, _ => false
      end
  | _ => false
  end.
Definition is_remove (op : Operation) : bool := match op with Operation.Remove _ => true | _ => false end.

(** An atomic copy can leave its temporary file behind.  There is a run of
    [Client::copy_atomic] in which the server creates the temporary file, the
    copy succeeds and only the CLOSE of the temporary file fails: the error of
    CLOSE is returned at once, and no REMOVE was ever sent, although every
    other failure after the creation removes the temporary file. *)
Theorem copy_atomic_leaves_temporary_file :
  let w := mkWorld (mkEnv (copy_script, []) [] []) (sample_client false) in
  let '((w', _), result) := Files.copy_atomic (lit_bytes "/a") (lit_bytes "/b") (w, sample_env) in
  let sent := concat (entry_operations <$> (env_net (env w')).2) in
  result = Err (NfsV4 "CLOSE" Status.Io)
  ∧ existsb (creates (temp_name sample_env)) sent = true
  ∧ existsb is_remove sent = false
  ∧ (env_net (env w')).1 = [].
Proof. by vm_compute. Qed.
