(* ===== verification/PropsV4Protocol.v ===== *)
(** * Properties of the further NFSv4 operations (src/src/v4/blocking.rs)

    The operations on named attributes, public and parent directories, layouts,
    devices and byte ranges end against every server; what the attribute checks
    return; and a listing of devices that never ends. *)

From Stdlib Require Import Strings.String Strings.Byte.
From S2P Require Import Prelude Text Xdr Status Errors Rpc V3Client V3Blocking V3ClientSpec V3BlockingSpec V3Store Tame.
From S2P Require Import V4Attr V4AttrSpec V4Ops V4Results V4Client V4ClientSpec V4Extract.
From S2P Require Import V4Session V4SessionSpec V4Trace V4Script V4Files V4FilesSpec V4Named V4NamedSpec V4Protocol V4ProtocolSpec.
Import Operation (Operation).
Import OperationResult (OperationResult).
Import CompoundResponse (CompoundResponse).
Import Client (Client).

#[local] Open Scope Z_scope.

(** ** A server whose listing of devices never ends

    It answers GETDEVICELIST with an empty page and the other one of two cookies. *)

Inductive Endless := endless.

Definition empty_page (cookie : Z) : OperationResult :=
  OperationResult.GetDeviceList Status.Ok
    (Some (GetDeviceListResult.mkGetDeviceListResult (1 - cookie) (replicate 8 x00) [] false)).

#[export] Instance endless_rpc : Nfs4Rpc Endless unit := {
  rpc_compound tag _ operations := λ s,
    match operations with
    | [Operation.Sequence _; Operation.GetDeviceList args] =>
        (s, script_answer tag operations Status.Ok [sample_sequence; empty_page (GetDeviceListArgs.cookie args)])
    | _ => (s, Err RpcConnectionInvalid)
    end;
  rpc_set_max_record_size _ r := (r, Ok tt);
}.
#[export] Instance endless_net : Nfs4Net Endless unit := {
  net_rpc_connect _ := mret tt;
  lease_start _ _ := mret 0%nat;
  lease_failed _ := mret false;
  lease_stop _ := mret tt;
  net_sleep _ := mret tt;
}.

Definition endless_world (sequence_id : Z) : World Endless unit :=
  mkWorld (mkEnv endless [] []) (Client.with_sequence_id sequence_id (sample_client false)).

Definition endless_cursor (cookie : Z) : option DeviceListCursor.DeviceListCursor :=
  Some (DeviceListCursor.mkDeviceListCursor cookie (replicate 8 x00)).

(** One page, with any limit. *)
Lemma endless_page layout_type limit sequence_id :
  1 ≤ limit ≤ u32_max →
  let page cursor := Protocol.list_device_page_limited layout_type cursor limit (endless_world sequence_id) in
  let empty cookie :=
    (endless_world (next_id sequence_id), Ok (DeviceListPage.mkDeviceListPage [] (endless_cursor cookie))) in
  page None = empty 1 ∧ page (endless_cursor 0) = empty 1 ∧ page (endless_cursor 1) = empty 0.
Proof.
  intros Hl page empty. unfold page, Protocol.list_device_page_limited.
  assert (validate_max_device_ids limit = Ok limit) as Hv.
  { unfold validate_max_device_ids. destruct (Z.eqb_spec limit 0); [lia|]. destruct (Z.gtb_spec limit u32_max); [lia|done]. }
  assert (∀ cookie verf eof previous, device_list_page_from_result
      (GetDeviceListResult.mkGetDeviceListResult cookie verf [] eof) previous limit
    = (next ← next_device_list_cursor cookie verf eof previous; Ok (DeviceListPage.mkDeviceListPage [] next))) as Hp.
  { intros. unfold device_list_page_from_result. cbn [GetDeviceListResult.device_ids]. rewrite zlen_nil.
    by destruct (Z.gtb_spec 0 limit); [lia|]. }
  rewrite Hv. split_and!; cbv -[next_id device_list_page_from_result]; rewrite Hp; reflexivity.
Qed.

(** One turn, with any limit. *)
Lemma endless_turn layout_type limit sequence_id :
  1 ≤ limit ≤ u32_max →
  let step cursor := Protocol.list_devices_step layout_type limit (cursor, []) (endless_world sequence_id) in
  let goes_on cookie := (endless_world (next_id sequence_id), Ok (inl (endless_cursor cookie, []))) in
  step None = goes_on 1 ∧ step (endless_cursor 0) = goes_on 1 ∧ step (endless_cursor 1) = goes_on 0.
Proof.
  intros Hl step goes_on. unfold step, Protocol.list_devices_step. cbv beta iota zeta.
  replace (Z.max 0 (limit - zlen (@nil (list byte)))) with limit by (unfold zlen; cbn [length]; lia).
  destruct (Z.eqb_spec limit 0); [lia|].
  destruct (endless_page layout_type limit sequence_id Hl) as (H0 & H1 & H2).
  split_and!; [rewrite (bind_run _ _ _ _ _ H0)|rewrite (bind_run _ _ _ _ _ H1)|rewrite (bind_run _ _ _ _ _ H2)]; done.
Qed.

Lemma devices_limited_endless fuel layout_type limit sequence_id :
  1 ≤ limit ≤ u32_max →
  (Protocol.list_devices_limited fuel layout_type limit (endless_world sequence_id)).2 = Fault OutOfFuel.
Proof.
  intros Hl. unfold Protocol.list_devices_limited. rewrite (bind_run _ _ _ (endless_world sequence_id) limit).
  2: { unfold lift, validate_max_device_ids. destruct (Z.eqb_spec limit 0); [lia|].
       by destruct (Z.gtb_spec limit u32_max); [lia|]. }
  set (I := λ (l : option DeviceListCursor.DeviceListCursor * list (list byte)) (w : World Endless unit),
    ∃ cursor n, l = (cursor, []) ∧ w = endless_world n
      ∧ (cursor = None ∨ cursor = endless_cursor 0 ∨ cursor = endless_cursor 1)).
  apply (loop_endless I).
  - intros l w (cursor & n & -> & -> & Hc). destruct (endless_turn layout_type limit n Hl) as (H0 & H1 & H2).
    destruct Hc as [->|[->| ->]]; eexists _, _; (split; [first [exact H0|exact H1|exact H2]|]);
      eexists _, _; split_and!; eauto.
  - exists None, sequence_id. auto.
Qed.

(** C36: listing devices may never end, whatever the limit.  Against a server that
    answers every GETDEVICELIST with an empty page and one of two alternating
    cookies, [Client::list_devices_limited] with any limit it accepts, and so
    [Client::list_devices], goes on for any number of turns: the check on the
    cookie compares it with the previous one only, and an empty page does not
    count towards the limit. *)
Theorem device_listing_never_ends fuel layout_type limit :
  validate_max_device_ids limit = Ok limit → 0 ≤ limit →
  (Protocol.list_devices_limited fuel layout_type limit (endless_world 1)).2 = Fault OutOfFuel
  ∧ (Protocol.list_devices fuel layout_type (endless_world 1)).2 = Fault OutOfFuel.
Proof.
  intros Hv Hpos. split.
  - apply devices_limited_endless. unfold validate_max_device_ids in Hv.
    destruct (Z.eqb_spec limit 0); [done|]. destruct (Z.gtb_spec limit u32_max); [done|lia].
  - by apply (devices_limited_endless fuel layout_type 1000 1).
Qed.

(** With the largest limit. *)
Lemma device_listing_never_ends_witness :
  (Protocol.list_devices_limited 100 LayoutType.NfsV4_1Files u32_max (endless_world 1)).2 = Fault OutOfFuel.
Proof. refine (proj1 (device_listing_never_ends 100 LayoutType.NfsV4_1Files u32_max _ _)); by vm_compute. Defined.

(** ** Against every server *)

#[local] Existing Instance anywhere.
#[local] Hint Constants Opaque : typeclass_instances.

(** C24: these further operations end.  Over every network whose operations
    return, and whatever the server answers, the following return without a
    panic and leave a well-formed client with the locks and settings it had:
    reading, writing, appending to, copying, atomically replacing, renaming and
    removing a named attribute and setting its attributes, with local readers
    and writers; binding a connection to the session; security flavours;
    requesting and returning a delegation; IO_ADVISE, READ_PLUS, SEEK,
    WRITE_SAME; copies by the server, COPY_NOTIFY and CLONE; the information on
    one device; and getting, committing and returning a layout.  The listings of
    devices are not among them. *)
Theorem further4_operations_end {W R Rd Wr} `{!Nfs4Rpc W R, !Nfs4Net W R, !Nfs4Laws W R, !Reader Rd, !ReaderLaws Rd, !Writer Wr, !WriterLaws Wr}
    (w : World W R) (rd : Rd) (wr : Wr) (env : TempEnv) path path' name name' data offset count attrs mode
    stateid layout iomode what block server update hints :
  world_inv w →
  (returns id (Named.read_named_attr path name) w
   ∧ returns fst (Named.read_named_attr_to_writer path name) (w, wr)
   ∧ returns id (Named.write_named_attr_with_mode path name data mode) w
   ∧ returns fst (Named.write_named_attr_from_reader_with_mode path name mode) (w, rd)
   ∧ returns id (Named.append_named_attr path name data) w
   ∧ returns id (Named.set_named_attr_attrs path name attrs) w
   ∧ returns id (Named.copy_named_attr path name path' name') w
   ∧ returns fst (Named.copy_named_attr_atomic path name path' name') (w, env)
   ∧ returns fst (Named.write_named_attr_atomic_with_mode path name data mode) (w, env)
   ∧ returns fst (Named.write_named_attr_atomic_from_reader_with_mode path name mode) (w, (env, rd))
   ∧ returns fst (Named.write_atomic_from_reader_with_mode path mode) (w, (env, rd))
   ∧ returns id (Named.rename_named_attr path name name') w
   ∧ returns id (Named.remove_named_attr path name) w)
  ∧ (returns id (Protocol.bind_conn_to_session what) w
     ∧ returns id (Protocol.secinfo path) w
     ∧ returns id (Protocol.want_delegation path count) w
     ∧ returns id (Protocol.return_delegation path stateid) w)
  ∧ (returns id (Protocol.io_advise path offset count hints) w
     ∧ returns id (Protocol.read_plus path offset count) w
     ∧ returns id (Protocol.seek path offset SeekContent.Hole) w
     ∧ returns id (Protocol.write_same path block) w
     ∧ returns id (Protocol.copy_range_offload path path' offset offset count) w
     ∧ returns id (Protocol.copy_notify path server) w
     ∧ returns id (Protocol.clone_range path path' offset offset count) w)
  ∧ returns id (Protocol.get_device_info data layout) w
  ∧ returns id (Protocol.layout_get path layout iomode offset count count) w
  ∧ returns id (Protocol.layout_commit path offset count stateid update) w
  ∧ returns id (Protocol.layout_return_file path layout iomode offset count stateid data) w.
Proof.
  intros Hw. unfold Protocol.bind_conn_to_session, Protocol.want_delegation, Protocol.write_same,
    Protocol.copy_range_offload, Protocol.get_device_info, Protocol.layout_get, Protocol.layout_commit.
  repeat lazymatch goal with |- _ ∧ _ => split end;
    (lazymatch goal with
     | |- returns fst _ _ => apply returns_beside; [apply _|done]
     | |- returns _ _ _ => apply returns_tame; [apply _|done]
     end).
Qed.

Lemma further4_operations_end_witness :
  let w := mkWorld (mkEnv [] [] []) (sample_client false) in
  returns (W := Script) id (Named.read_named_attr (lit_bytes "/a") (lit_bytes "color")) w
  ∧ returns (W := Script) id (Protocol.clone_range (lit_bytes "/a") (lit_bytes "/b") 0 0 10) w.
Proof.
  intros w. destruct (further4_operations_end (Reader0 := empty_reader) (Writer0 := Vec_writer) w tt []
    (mkTempEnv 7 (λ _, 1000) 0) (lit_bytes "/a") (lit_bytes "/b") (lit_bytes "color") [] [] 0 10 SetAttrs.default 0
    StateId.anonymous LayoutType.NfsV4_1Files LayoutIomode.Read ChannelDirFromClient.Fore
    (AppDataBlock.mkAppDataBlock 0 0 0 0 0 0 []) (NetLoc.Name []) (LayoutUpdate.mkLayoutUpdate LayoutType.NfsV4_1Files []) []
    (sample_world_inv false [])) as ((H1 & _) & _ & (_ & _ & _ & _ & _ & _ & H2) & _).
  by split.
Defined.

(** C37: the attribute checks never answer no.  Whatever the server answers,
    [Client::verify_attrs] and [Client::nverify_attrs] return, and return [true]
    or an error: they send the check with [compound], which has turned the
    statuses NFS4ERR_NOT_SAME and NFS4ERR_SAME into errors before the result is
    looked at. *)
Theorem attribute_checks_never_false {W R} `{!Nfs4Rpc W R, !Nfs4Net W R, !Nfs4Laws W R} (w : World W R) path attrs :
  world_inv w →
  post (Protocol.verify_attrs path attrs) w (λ b w', b = true ∧ world_inv w') (λ _ w', world_inv w')
  ∧ post (Protocol.nverify_attrs path attrs) w (λ b w', b = true ∧ world_inv w') (λ _ w', world_inv w').
Proof.
  intros Hw. split; (eapply post_mono; [first [eapply (tames_verify (λ _ _, True))|eapply (tames_nverify (λ _ _, True))]; done| |];
    [by intros b w' (? & ? & _)|by intros e w' (? & _)]).
Qed.

(** The attributes differ: VERIFY fails with NFS4ERR_NOT_SAME. *)
Definition not_same_script : Script :=
  [inr (Status.NotSame, [sample_sequence; OperationResult.StatusOnly OpCode.PutRootFh Status.Ok;
                         OperationResult.StatusOnly OpCode.Lookup Status.Ok;
                         OperationResult.StatusOnly OpCode.Verify Status.NotSame])].

Lemma attribute_checks_never_false_witness :
  let w := mkWorld (mkEnv not_same_script [] []) (sample_client false) in
  let attrs := Fattr.mkFattr (Bitmap.mkBitmap [16]) (replicate 8 x00) in
  post (Protocol.verify_attrs (lit_bytes "/a") attrs) w (λ b w', b = true ∧ world_inv w') (λ _ w', world_inv w')
  ∧ (Protocol.verify_attrs (lit_bytes "/a") attrs w).2 = Err (NfsV4 "VERIFY" Status.NotSame).
Proof.
  intros w attrs.
  destruct (attribute_checks_never_false w (lit_bytes "/a") attrs (sample_world_inv false not_same_script)) as [H _].
  split; [exact H|by vm_compute].
Defined.
