(* ===== verification/PropsTokio.v ===== *)
(** * Properties of the asynchronous client

    The connection of src/src/tokio_rpc.rs under cancellation: futures dropped
    at any await point, timeouts, and sockets that do what they like. *)

From Stdlib Require Import Strings.String Strings.Byte.
From stdpp Require Import relations list.
From S2P Require Import Prelude Text Xdr XdrSpec Status Errors Rpc RpcSpec RpcClientSpec RpcPeer V3Proto V3Peer V3Calls V3Client V3ClientSpec.
From S2P Require Import V3Blocking V3BlockingSpec V3Mem Cut TokioRpc TokioRpcSpec TokioV3 TokioV3Spec TokioV3Cancel PropsFiles.

#[local] Open Scope Z_scope.
#[local] Hint Mode Nfs3 ! : typeclass_instances.
#[local] Existing Instance V3Atomic.Traced_nfs3.

(** ** A concrete socket *)

(** Bytes that will arrive, and the history. *)
Record Wire := mkWire { wire_in : list byte; wire_log : list event }.

Definition wire_write (bs : list byte) : M Wire ErrorKind unit := modify (λ w, mkWire (wire_in w) (wire_log w ++ [Wrote bs])).

Definition wire_read (n : Z) : M Wire ErrorKind (list byte) := λ w,
  if zlen (wire_in w) <? n then (w, Err UnexpectedEofKind)
  else (mkWire (zdrop n (wire_in w)) (wire_log w ++ [Got (ztake n (wire_in w))]), Ok (ztake n (wire_in w))).

#[local] Program Instance wire_transport : Transport Wire := {|
  write_all := wire_write;
  flush := mret tt;
  read_exact := wire_read;
|}.
Next Obligation. done. Qed.
Next Obligation. done. Qed.
Next Obligation. intros n w. unfold wire_read. by case_match. Qed.
Next Obligation.
  intros n w w' bs Hn. unfold wire_read. destruct (Z.ltb_spec (zlen (wire_in w)) n); [done|]. intros [= <- <-]. by apply zlen_take.
Qed.

#[local] Instance wire_history : History Wire event := wire_log.

(** The same socket in a future that is dropped after so many await points. *)
Record Fading := mkFading { fading_wire : Wire; fading_left : nat }.

Definition fading {E A} (m : M Wire E A) : M Fading E A := λ w,
  match fading_left w with
  | O => (w, Fault Dropped)
  | S k => let '(wire, o) := m (fading_wire w) in (mkFading wire k, o)
  end.

Lemma fading_drop {E A} (m : M Wire E A) w f :
  (∀ w, fault_free (m w).2) → (fading m w).2 = Fault f → f = Dropped.
Proof.
  intros Hm. unfold fading. destruct (fading_left w); [cbn; congruence|]. specialize (Hm (fading_wire w)).
  destruct (m (fading_wire w)) as [w' o]. intros H. by destruct (Hm f).
Qed.

#[local] Program Instance fading_stream : AsyncStream Fading := {|
  stream_write_all bs := fading (write_all bs);
  stream_flush := fading flush;
  stream_read_exact n := fading (read_exact n);
  stream_timeout A _ m := attempt m;
|}.
Next Obligation. intros bs w f. apply fading_drop, write_all_fault_free. Qed.
Next Obligation. intros w f. apply fading_drop, flush_fault_free. Qed.
Next Obligation. intros n w f. apply fading_drop, read_exact_fault_free. Qed.
Next Obligation.
  intros n [w [|k]] w' bs Hn; unfold fading; cbn [fading_left fading_wire]; [done|].
  destruct (read_exact n w) as [w1 o] eqn:Hr. intros [= <- ->]. by eapply read_exact_length.
Qed.
Next Obligation. intros A limit m w. unfold attempt. destruct (m w) as [w' [a|k|f]]; auto. Qed.

#[local] Program Instance fading_timer : AsyncTimer Fading := {| stream_sleep _ := fading (mret tt) |}.
Next Obligation. intros d w f. by apply fading_drop. Qed.

#[local] Program Instance fading_observed : Observed Fading := {| trace w := wire_log (fading_wire w) |}.
Next Obligation. intros bs [w [|k]] w'; cbn; [done|]. by intros [= <-]. Qed.
Next Obligation. intros [w [|k]] w'; cbn; [done|]. by intros [= <-]. Qed.
Next Obligation.
  intros n [w [|k]] w' bs; [done|]. unfold stream_read_exact, fading; cbn. unfold wire_read.
  destruct (_ <? n); [done|]. by intros [= <- <-].
Qed.

#[local] Instance fading_erasure : Erasure Fading Wire := fading_wire.

Lemma cut_fading {E A} (m : M Wire E A) : (∀ w, hist w `prefix_of` hist (m w).1) → Cut (fading m) m.
Proof.
  intros Hm. split; [done|]. intros [w [|k]]; unfold fading; cbn [fading_left fading_wire]; [by split|].
  unfold dropped_within, erase, fading_erasure. cbn [fading_wire]. specialize (Hm w). by destruct (m w) as [w' [a|e|[]]].
Qed.

#[local] Instance fading_cut : CutStream Fading Wire event.
Proof.
  split.
  - intros bs. apply cut_fading. intros w. by apply prefix_app_r.
  - by apply cut_fading.
  - intros n. apply cut_fading. intros w. unfold hist, wire_history. cbn. unfold wire_read. case_match; [done|]. by apply prefix_app_r.
  - intros A limit m b Hm. by apply cut_attempt.
Qed.

#[local] Instance fading_cut_timer : CutTimer Fading Wire event.
Proof. intros d. by apply cut_fading. Qed.

(** A connection about to use transaction id 42 whose peer has answered it. *)
Definition answered (n : nat) (timeout : option Z) : TokioRpc.RpcClient Fading :=
  TokioRpc.mkRpcClient (mkFading (mkWire (wire_record [] (wire_accepted 42 0 [] [] (lit_bytes "pong"))) []) n)
    41 Auth_None 4096 timeout false.

Definition ping : M (TokioRpc.RpcClient Fading) Error (list byte) := TokioRpc.call 1 2 3 encode_unit tt.

(** ** The connection *)

(** C15: on an asynchronous connection in step, a call ends with a result, an
    error, or dropped at an await point, and never otherwise, over every
    socket and with any timeout.  A result means that the whole request was
    written and a whole record that starts with its transaction id was read.
    The connection stays usable exactly unless the outcome is unknown or the
    future was dropped; a usable one has seen the whole exchange or, when the
    arguments could not be encoded, nothing at all. *)
Theorem tokio_call_survives_cancellation {St} `{!AsyncStream St, !Observed St} {A} program version procedure
    (enc : A → M Encoder XdrError unit) (args : A) (c : TokioRpc.RpcClient St)
    (x := succ_xid (TokioRpc.xid c))
    (request := encode_call x program version procedure (TokioRpc.auth c) enc args) :
  TokioRpc.interrupted c = false → async_ok c → (∀ e, fault_free (enc args e).2) →
  upto (TokioRpc.call program version procedure enc args) c
    (λ _ c', TokioRpc.interrupted c' = false ∧ kept c c' ∧ ∃ r, request = Ok r ∧ exchanged x r c c')
    (λ err c', TokioRpc.interrupted c' = is_outcome_unknown err ∧ kept c c'
       ∧ (TokioRpc.interrupted c' = false →
          (∃ e, request = Err e) ∧ TokioRpc.stream c' = TokioRpc.stream c
          ∨ ∃ r, request = Ok r ∧ exchanged x r c c'))
    (λ c', TokioRpc.interrupted c' = true ∧ kept c c').
Proof. by apply upto_call. Qed.

Lemma tokio_call_survives_cancellation_witness :
  (ping (answered 9 None)).2 = Ok (lit_bytes "pong")
  ∧ (ping (answered 4 (Some 5000))).2 = Fault Dropped
  ∧ TokioRpc.interrupted (ping (answered 4 None)).1 = true.
Proof.
  do 2 (split; [by vm_compute|]).
  pose proof (tokio_call_survives_cancellation 1 2 3 encode_unit tt (answered 4 None) eq_refl
    ltac:(split; by vm_compute) ltac:(done)) as H.
  unfold upto in H. fold ping in H. destruct (ping (answered 4 None)) as [c' [a|e|[]]] eqn:Hp;
    [by vm_compute in Hp..|]. exact (proj1 H).
Defined.

(** C16: whatever calls and settings a program makes on a new asynchronous
    connection, and whichever way the calls end (dropped futures included), a
    connection that still takes calls is at a message boundary: what went over
    its socket are whole requests, each followed by its whole reply.  Once it
    refuses calls, it refuses them forever and the socket is not used again. *)
Theorem tokio_connection_at_message_boundary {St} `{!AsyncStream St, !Observed St} (c0 c : TokioRpc.RpcClient St) :
  async_ok c0 → trace (TokioRpc.stream c0) = [] → rtc step c0 c →
  (TokioRpc.interrupted c = false → exchanges (trace (TokioRpc.stream c)))
  ∧ ∀ c', TokioRpc.interrupted c = true → rtc step c c' →
      TokioRpc.interrupted c' = true ∧ TokioRpc.stream c' = TokioRpc.stream c.
Proof.
  intros Hok Ht Hs. split.
  - assert (at_boundary c0) as H0 by (split; [done|intros _; rewrite Ht; apply exchanges_nil]).
    assert (at_boundary c) as Hc by (clear Hok Ht; induction Hs; [done|]; eauto using step_at_boundary).
    apply Hc.
  - intros c' Hi Hs'. clear Hs. induction Hs' as [|c c1 c2 H1 _ IH]; [done|].
    destruct (step_interrupted _ _ H1 Hi) as [Hi1 <-]. by apply IH.
Qed.

Lemma tokio_connection_at_message_boundary_witness :
  exchanges (trace (TokioRpc.stream (ping (answered 9 None)).1))
  ∧ trace (TokioRpc.stream (ping (answered 9 None)).1) ≠ []
  ∧ (ping (ping (answered 4 None)).1).2 = Err RpcConnectionInvalid.
Proof.
  split; [|split; [by vm_compute|by vm_compute]].
  apply (tokio_connection_at_message_boundary (answered 9 None) (ping (answered 9 None)).1);
    [split; by vm_compute|done| |by vm_compute].
  apply rtc_once, step_call. done.
Defined.

(** ** The NFSv3 client *)

(** C17: as long as no timeout elapses, every run of these operations of the
    asynchronous NFSv3 client is the run of the operation of the blocking
    client on the same socket, local reader or writer, with the same outcome;
    or its future was dropped, and then the socket has seen a beginning of what
    the blocking run does to it: whole-file and ranged reads, also into a
    writer; writes and appends, also from a reader; atomic writes and copies,
    where the asynchronous client has nested matches for the closure of the
    blocking one; creating, renaming, linking and removing; listings and
    metadata.  So what is shown of the blocking operations holds of every
    asynchronous run that is not dropped and in which no timeout elapses. *)
Theorem tokio3_follows_blocking {St St' H Wr Wr' Rd Rd'} `{CutStream St St' H} `{!AsyncTimer St, !CutTimer St St' H}
    `{CutWriter Wr Wr'} `{CutReader Rd Rd'} (path to : str) (offset count mode : Z) (data : list byte) stable fuel
    (follows := λ A, Cut (S := World (TokioV3.Nfs3Client.Nfs3Client St)) (S' := World (Nfs3Client.Nfs3Client St'))
                       (E := Error) (A := A)) :
  (follows _ (TokioV3.Client.read path) (Client.read path)
   ∧ follows _ (TokioV3.Client.read_exact_at path offset count) (Client.read_exact_at path offset count)
   ∧ Cut (TokioV3.Client.read_to_writer (N := TokioV3.Nfs3Client.Nfs3Client St) (Wr := Wr) path)
       (Client.read_to_writer (N := Nfs3Client.Nfs3Client St') (Wr := Wr') path)
   ∧ Cut (TokioV3.Client.read_range_to_writer (N := TokioV3.Nfs3Client.Nfs3Client St) (Wr := Wr) path offset count)
       (Client.read_range_to_writer (N := Nfs3Client.Nfs3Client St') (Wr := Wr') path offset count))
  ∧ (follows _ (TokioV3.Client.write_with_stability path data stable) (Client.write_with_stability path data stable)
   ∧ follows _ (TokioV3.Client.write_at_with_stability path offset data stable)
       (Client.write_at_with_stability path offset data stable)
   ∧ follows _ (TokioV3.Client.append_with_stability path data stable) (Client.append_with_stability path data stable)
   ∧ Cut (TokioV3.Client.write_from_reader_with_stability (N := TokioV3.Nfs3Client.Nfs3Client St) (Rd := Rd) path stable)
       (Client.write_from_reader_with_stability (N := Nfs3Client.Nfs3Client St') (Rd := Rd') path stable)
   ∧ Cut (TokioV3.Client.append_from_reader_with_stability (N := TokioV3.Nfs3Client.Nfs3Client St) (Rd := Rd) path stable)
       (Client.append_from_reader_with_stability (N := Nfs3Client.Nfs3Client St') (Rd := Rd') path stable))
  ∧ (follows _ (TokioV3.Client.write_atomic_with_mode_and_stability path data mode stable)
       (Client.write_atomic_with_mode_and_stability path data mode stable)
   ∧ Cut (TokioV3.Client.write_atomic_from_reader_with_mode_and_stability (N := TokioV3.Nfs3Client.Nfs3Client St)
            (Rd := Rd) path mode stable)
       (Client.write_atomic_from_reader_with_mode_and_stability (N := Nfs3Client.Nfs3Client St') (Rd := Rd') path mode stable)
   ∧ follows _ (TokioV3.Client.copy_with_stability path to stable) (Client.copy_with_stability path to stable)
   ∧ follows _ (TokioV3.Client.copy_atomic_with_stability path to stable) (Client.copy_atomic_with_stability path to stable))
  ∧ (follows _ (TokioV3.Client.create_dir_all path mode) (Client.create_dir_all path mode)
   ∧ follows _ (TokioV3.Client.rename path to) (Client.rename path to)
   ∧ follows _ (TokioV3.Client.hard_link path to) (Client.hard_link path to)
   ∧ follows _ (TokioV3.Client.remove_all fuel path) (Client.remove_all fuel path)
   ∧ follows _ (TokioV3.Client.read_dir path) (Client.read_dir path)
   ∧ follows _ (TokioV3.Client.metadata path) (Client.metadata path)
   ∧ follows _ (TokioV3.Client.path_exists path) (Client.path_exists path)).
Proof.
  subst follows. cbv beta. split_and!;
    [apply cut_read|apply cut_read_exact_at|apply cut_read_to_writer|apply cut_read_range_to_writer
    |apply cut_write_with_stability|apply cut_write_at_with_stability|apply cut_append_with_stability
    |apply cut_write_from_reader_with_stability|apply cut_append_from_reader_with_stability
    |apply cut_write_atomic_with_mode_and_stability|apply cut_write_atomic_from_reader_with_mode_and_stability
    |apply cut_copy_with_stability|apply cut_copy_atomic_with_stability
    |apply cut_create_dir_all|apply cut_rename|apply cut_hard_link|apply cut_remove_all|apply cut_read_dir
    |apply cut_metadata|apply cut_path_exists].
Qed.

(** The server has answered the first request, a GETATTR, with NOENT. *)
Definition refused (n : nat) : World (TokioV3.Nfs3Client.Nfs3Client Fading) :=
  demo_world (TokioV3.Nfs3Client.mkNfs3Client
    (TokioRpc.mkRpcClient (mkFading (mkWire (wire_record [] (wire_accepted 42 0 [] [] (wire_u32 2))) []) n)
       41 Auth_None 4096 None false) RetryPolicy_default []).

Definition no_reader : Reader unit := λ _, mret [].
#[local] Instance unit_carried : Carried unit unit := id.
Lemma no_reader_cut : CutReader (Reader0 := no_reader) (Reader1 := no_reader) unit unit.
Proof. by intros n rd. Qed.

Lemma tokio3_follows_blocking_witness :
  (TokioV3.Client.metadata (lit_bytes "/") (refused 3)).2 = Fault Dropped
  ∧ (TokioV3.Client.metadata (lit_bytes "/") (refused 9)).2 = Err (Nfs "GETATTR" NfsStatus.NoEnt)
  ∧ (Client.metadata (N := Nfs3Client.Nfs3Client Wire) (lit_bytes "/") (erase (refused 9))).2 = Err (Nfs "GETATTR" NfsStatus.NoEnt).
Proof.
  split; [by vm_compute|].
  destruct (tokio3_follows_blocking (St := Fading) (St' := Wire) (H := TokioRpcSpec.event)
    (H1 := Vec_cut) (H2 := no_reader_cut) (lit_bytes "/") [] 0 0 0 [] StableHow.FileSync 1) as (_ & _ & _ & Hm).
  destruct Hm as (_ & _ & _ & _ & _ & Hm & _). pose proof (cut_run (Cut := Hm) (refused 9)) as Hr.
  destruct (TokioV3.Client.metadata (lit_bytes "/") (refused 9)) as [w' o] eqn:Ho.
  assert (o = Err (Nfs "GETATTR" NfsStatus.NoEnt)) as -> by (apply (f_equal snd) in Ho; symmetry; etrans; [|exact Ho]; by vm_compute).
  split; [done|]. by rewrite Hr.
Defined.

(** C18: for every server, and wherever its future is dropped, an atomic write of
    the asynchronous client has asked for the beginning of what a whole one asks
    for: the creation of one temporary entry in the directory of the target,
    reached along the path; writes of the data, piece behind piece, to the
    handle of that entry; and only when all of it was taken the rename over the
    target.  Until then nothing refers to the target.  A run that is not dropped
    has asked for all of it; or it failed, and no entry was created, or the
    temporary one was removed, or the error reports a failed cleanup. *)
Theorem tokio3_atomic_write_dropped {N} `{!Nfs3 N, !Nfs3Laws N} path parent name data mode stable
    (w : World (Cancel (V3Atomic.Traced N))) (tn := temp_name (env w)) (rt := root (client w)) :
  world_ok (erase w : World (V3Atomic.Traced N)) → env_ok (env w) →
  normalize_path path = Ok (parent ++ [name]) → zlen data ≤ isize_max →
  upto (TokioV3.Client.write_atomic_with_mode_and_stability path data mode stable) w
    (λ _ w', ∃ ev, asked w w' ev ∧ V3Atomic.atomic_requests rt parent tn name data (Some true) None ev)
    (λ e w', ∃ ev, asked w w' ev ∧
       (V3Atomic.not_created rt parent tn ev
        ∨ ∃ renamed removed, renamed ≠ Some true
            ∧ V3Atomic.atomic_requests rt parent tn name data renamed removed ev
            ∧ (removed = Some true ∨ ∃ ctx e1 e2, e = Cleanup ctx e1 e2)))
    (λ w', ∃ ev, asked w w' ev ∧ begun rt parent tn name data ev).
Proof. apply upto_write_atomic. Qed.

(** An atomic write of "/a" dropped after [n] requests. *)
Definition dropping (n : nat) (late : bool) : World (Cancel (V3Atomic.Traced Mem)) :=
  demo_world (mkCancel (V3Atomic.mkTraced (demo_mem []) []) n late).

Definition atomic_log (n : nat) (late : bool) : list V3Atomic.event :=
  V3Atomic.mutations (V3Atomic.tr_log (cn_inner (nfs (client
    (TokioV3.Client.write_atomic (lit_bytes "/a") demo_bytes (dropping n late)).1)))).

Lemma tokio3_atomic_write_dropped_witness :
  (length (atomic_log 0 false), length (atomic_log 0 true), length (atomic_log 9 false)) = (0, 1, 5)%nat
  ∧ ∃ ev, asked (dropping 0 true) (TokioV3.Client.write_atomic (lit_bytes "/a") demo_bytes (dropping 0 true)).1 ev
      ∧ begun (root (client (dropping 0 true))) [] (temp_name demo_env) (lit_bytes "a") demo_bytes ev.
Proof.
  split; [by vm_compute|].
  pose proof (tokio3_atomic_write_dropped (lit_bytes "/a") [] (lit_bytes "a") demo_bytes mode_0644 StableHow.FileSync
    (dropping 0 true)) as H. unfold upto in H.
  assert ((TokioV3.Client.write_atomic (lit_bytes "/a") demo_bytes (dropping 0 true)).2 = Fault Dropped) as Ho by (by vm_compute).
  change (TokioV3.Client.write_atomic (lit_bytes "/a") demo_bytes) with
    (TokioV3.Client.write_atomic_with_mode_and_stability (N := Cancel (V3Atomic.Traced Mem)) (lit_bytes "/a") demo_bytes mode_0644 StableHow.FileSync) in *.
  destruct (TokioV3.Client.write_atomic_with_mode_and_stability _ _ _ _ (dropping 0 true)) as [w' o]. cbn [fst snd] in *.
  rewrite Ho in H. apply H.
  - split; [done|apply demo_sizes].
  - apply demo_env_ok.
  - by vm_compute.
  - by vm_compute.
Defined.
