(* ===== verification/PropsTokioV4.v ===== *)
(** * Properties of the asynchronous NFSv4 client

    The methods of src/src/v4/tokio.rs next to those of src/src/v4/blocking.rs,
    changes of files when a call is dropped, and the lease task of
    src/src/v4/lease.rs. *)

From Stdlib Require Import Strings.String Strings.Byte.
From stdpp Require Import list.
From S2P Require Import Prelude Text Xdr XdrSpec Status Errors Rpc RpcSpec RpcPeer V3Client V3Blocking V3Connect V4Attr V4Ops.
From S2P Require Import V4Results V4Client V4ClientSpec V4Extract V4Session V4SessionSpec V4Trace V4Net V4Lease V4Script V4Files.
From S2P Require Import V4Named V4Protocol Cut TokioRpc TokioRpcSpec TokioV3Spec TokioLease TokioV4 TokioV4Spec TokioV4FilesSpec.
From S2P Require Import TokioV4Files TokioV4Named TokioV4Protocol TokioV4Net PropsV4 PropsTokio.
Import SetAttrs (SetAttrs).
Import LockType (LockType).
Import LayoutType (LayoutType).
Import Operation (Operation).
Import OperationResult (OperationResult).
Import V4Session.ClientBuilder (ClientBuilder).
Import V4Session.Client (Client).

#[local] Open Scope Z_scope.
#[local] Hint Mode Nfs4Rpc ! ! : typeclass_instances.
#[local] Hint Mode Nfs4Net ! ! : typeclass_instances.
#[local] Existing Instance logged_rpc | 0.

(** ** Over RPC connections *)


(** Sockets that wait to be opened; the futures that use them are dropped
    after so many await points. *)
#[local] Existing Instances wire_transport wire_history fading_stream fading_erasure fading_cut unit_carried.

Definition accept {S} : M (list S) ErrorKind S := λ w,
  match w with [] => (w, Err ConnectionRefused) | s :: w => (w, Ok s) end.

#[local] Instance waiting_network : Network (list Wire) unit Wire := {
  net_resolve _ _ := mret [tt];
  net_connect _ _ := accept;
  net_connect_timeout _ _ := accept;
  net_set_nodelay _ := mret tt;
  net_set_read_timeout _ _ := mret tt;
  net_set_write_timeout _ _ := mret tt;
  net_stamp _ := 7;
}.
#[local] Instance waiting_threads : LeaseThreads (list Wire) (RpcClient Wire) := {
  thread_start _ _ := mret 0%nat;
  thread_failed _ := mret false;
  thread_stop _ := mret tt;
}.
#[local] Instance waiting_async : AsyncNetwork (list Fading) Fading := {
  async_connect _ _ := accept;
  async_set_nodelay _ := mret tt;
  async_timeout A _ m := attempt m;
  async_stamp _ := 7;
}.
#[local] Instance waiting_tasks : AsyncTasks (list Fading) (TokioRpc.RpcClient Fading) := {
  task_spawn _ _ := mret 0%nat;
  task_failed _ := mret false;
  task_stop _ := mret tt;
  task_sleep _ := mret tt;
}.
#[local] Instance waiting_erasure : Erasure (list Fading) (list Wire) := fmap fading_wire.
#[local] Instance waiting_history : History (list Wire) unit := λ _, [].

#[local] Instance waiting_cut : CutNetwork4 (list Fading) Fading (list Wire) unit Wire unit.
Proof.
  split; try done; try apply _.
  - intros w. by exists (mkFading w 0).
  - intros host port [t|]; (split; [done|]); by intros [|s w].
Qed.




(** ** Changes *)

(** C20: dropping a call repeats nothing.  Over every network that does what a
    law-abiding one does or is dropped, and wherever the future of
    [compound_status] is dropped, of all the COMPOUNDs it has sent at most one
    can have executed an operation that changes state, the one whose answer was
    lost included; and none was sent again once it may have been executed. *)
Theorem tokio4_changes_at_most_once {W R W' R' H} `{Nfs4Cut W R W' R' H} `{!Nfs4Laws W' R'}
    operations (w : World (W * list entry) R)
    (L := (env_net (env (TokioV4.Session.compound_status operations w).1)).2) :
  world_inv (erase w : World (W' * list entry) R') → (env_net (env w)).2 = [] →
  carries operations L
  ∧ ∀ k op, operations !! k = Some op → changes_state op = true → (executions k L ≤ 1)%nat ∧ unsent_after k L.
Proof.
  intros Hw Hnil. destruct (cut_at_most_once operations w Hw Hnil) as (L' & E & Hc & Hb).
  change (L = [] ++ L') in E. rewrite E. split; [done|]. intros k op Hop Hch. apply (Hb k op Hop).
  destruct (operation_can_replay_after_successful_prefix op) eqn:E'; [|done].
  apply repeat_changes_nothing in E'. congruence.
Qed.

(** A server that follows a script, and a future that is dropped after so many calls. *)
#[local] Instance cancelled_erasure : Erasure (Script * nat) Script := fst.
#[local] Instance script_history : History Script unit := λ _, [].

Definition cancelled {E A} (m : M Script E A) : M (Script * nat) E A := λ s,
  match s.2 with
  | O => (s, Fault Dropped)
  | S k => let '(script, o) := m s.1 in ((script, k), o)
  end.

Lemma cut_cancelled {E A} (m : M Script E A) : Cut (cancelled m) m.
Proof.
  split; [done|]. intros [s [|k]]; [done|]. unfold cancelled, dropped_within.
  change (erase (s, S k)) with (s : Script). simpl. by destruct (m s) as [s' [a|e|[]]].
Qed.

#[local] Instance cancelled_rpc : Nfs4Rpc (Script * nat) unit := {
  rpc_compound tag minor_version operations := λ s,
    let '(s1, o) := cancelled (λ s, let '((s1, _), o) := script_compound tag minor_version operations (s, tt) in (s1, o)) s.1 in
    ((s1, tt), o);
  rpc_set_max_record_size _ r := (r, Ok tt);
}.
#[local] Instance cancelled_net : Nfs4Net (Script * nat) unit := {
  net_rpc_connect _ := cancelled (mret tt);
  lease_start _ _ := cancelled (mret 0%nat);
  lease_failed _ := mret false;
  lease_stop _ := cancelled (mret tt);
  net_sleep _ := cancelled (mret tt);
}.
#[local] Instance cancelled_cut : Nfs4Cut (Script * nat) unit Script unit unit.
Proof.
  split; try done; try (intros; apply cut_cancelled).
  - intros []. by exists tt.
  - intros tag v ops. split; [done|]. intros [[s [|k]] []]; [done|]. unfold dropped_within.
    change (erase ((s, S k), tt)) with (s : Script, tt). simpl. unfold cancelled. simpl. by destruct (script_compound tag v ops (s, tt)) as [[s' []] [a|e|[]]].
  - intros b. eapply cutR_mono; [apply cut_rel, cut_cancelled|]. by intros [] [].
Qed.

(** A removal the server delays, and then executes while the future is dropped. *)
Lemma tokio4_changes_at_most_once_witness :
  let w n := mkWorld (mkEnv ((delayed_removal, n), []) [] []) (sample_client false) in
  let ops := [Operation.PutRootFh; Operation.Remove (lit_bytes "a")] in
  let L n := (env_net (env (TokioV4.Session.compound_status ops (w n)).1)).2 in
  (TokioV4.Session.compound_status ops (w 2%nat)).2 = Fault Dropped
  ∧ executions 0 (L 2%nat) = 2%nat ∧ executions 1 (L 2%nat) = 1%nat ∧ unsent_after 1 (L 2%nat).
Proof.
  intros w ops L. split_and!; [by vm_compute..|].
  destruct (tokio4_changes_at_most_once (W' := Script) (R' := unit) (H := unit) ops (w 2%nat)) as [_ Hb];
    [apply (sample_logged_inv false delayed_removal)|done|].
  by apply (Hb 1%nat (Operation.Remove (lit_bytes "a"))).
Defined.

(** ** The lease task *)


